(* ===== verification/_CoqProject ===== *)
-Q . S2P
Prelude.v
Carryless.v
Words.v
Gf.v
GfRing.v
Locator.v
Fft.v
Gf2x.v
Platform.v
Protocol.v
Temperature.v
Radio.v
RadioRing.v
Fragmentation.v
Nack.v
Metrics.v
Aes.v
Fips202.v
Sponge.v
Prng.v
Vector.v
Cyclic.v
ReedMuller.v
RmDistance.v
ReedSolomon.v
RsDecode.v
RsTotal.v
CryptoWorker.v
Code.v
Hqc.v
Kem.v
HqcCheck.v
HqcBoot.v
KemProps.v
Session.v
TxQueue.v
Telemetry.v
TelemetryRun.v
Handshake.v
HandshakeTime.v
HandshakeFacts.v
HandshakeRules.v
HandshakeStep.v
HandshakeProps.v
HandshakeRun.v
HqcCrypto.v
Device.v
NodeApp.v
RootLog.v
RootApp.v
RootFacts.v
RootRun.v
