(* ===== verification/Prelude.v ===== *)
(** * HQC over Contiki-NG: verification development

    The program is the firmware of a small IPv6 network.  A root
    ([src/server_main.c]) owns an HQC key pair; each node ([src/node_main.c]) asks
    for the public key, encapsulates a secret under it, and then sends temperature
    readings encrypted with AES-256 under a key derived from that secret.  All
    messages travel as UDP datagrams of at most 74 bytes, so keys and ciphertexts
    are cut into fragments, lost fragments are asked for again, and both ends keep
    retry timers.  This library models the firmware from the arithmetic of the KEM and
    the datagram up to the two programs, and proves what makes them work.  It depends
    on the Standard Library and on stdpp.

    ** Conventions

    A C integer is a [Z] and a result that can leave its type is reduced with [u8],
    [u16], [u32] or [u64] where the C conversion does it.  Buffers are lists of bytes
    ([Z] from 0 to 255); reads and writes are partial ([cell], [mem_read],
    [mem_write], [at_index]) and [None] is undefined behaviour, so every theorem
    that gives a result also says that no access left its object.  A function
    that works on an object of type [S] is an [M S A] of [Platform]: it threads the
    object and the environment [env], whose clock is an arbitrary function of the
    number of readings and whose outputs are the datagrams sent and the lines
    printed, in order.  [wp] is the predicate of such computations that says they
    return and that the result satisfies a condition; the rules [wp_...] compose,
    and [wp_run] turns them into equations.  Pointers to sessions are [sref]s into the
    store of [Session], because sessions are shared between the processes.  The
    environment is the class [Platform] (tick rate, width of the clock type, addresses
    of Contiki-NG) with [PlatformLaws].  The interface between the firmware and its KEM
    is the class [Crypto] with [CryptoLaws]: the devices are proved against it, and
    [HqcCrypto] gives HQC as an instance.  Arrays of 64-bit words are lists of [Z]
    whose polynomial over GF(2) is [poly]; casts between arrays of words and of bytes or
    32-bit cells are [as_bytes], [as_u32] and their inverses, little-endian as on the
    target.

    ** Files

    - [Prelude] (this file): machine integers, buffers, loops ([for_each], [ofor]),
      record updates, tactics and generic lemmas.  [Platform]: effects and rules.
    - [Protocol] ([common/protocol.h]): the ten-byte header, its validation, node
      identifiers.
    - [Temperature] ([Temp/temp_measurement.c]): the printing of a measurement.
    - [Radio] ([radio_diver/efr32-radio_V2_corregido.c]): the driver under Contiki-NG's MAC,
      with [RadioRing] for its receive ring as a queue and its transmissions.
    - [Fragmentation] ([PQC/fragmentation.c]) and [Nack] ([common/nack.c]): messages
      cut into fragments, their reassembly in any order, the lists of missing ones.
    - [Metrics] ([metrics/metrics.c]): statistics and the node's report format.
    - [Aes] ([tiny_aes/aes.c]), [Fips202] ([fips202.c] of HQC), [CryptoWorker]
      ([PQC/crypto_worker.c]): ciphers, Keccak and the derivation of keys.
    - HQC, below [src/extern/HQC-Round4/Additional_Implementation/hqc-128]:
      - arithmetic: [Carryless] (products of polynomials over GF(2)), [Words] (casts
        and [memcpy]), [Gf] ([gf.c]), [GfRing] (the field of 256 elements as a ring, for
        the proofs), [Gf2x] ([gf2x.c]), [Cyclic] (products modulo X^n - 1);
      - randomness: [Sponge] (the incremental SHAKE256 of [fips202.c]), [Prng]
        ([shake_ds.c], [shake_prng.c]), [Vector] ([vector.c]);
      - codes: [ReedMuller] ([reed_muller.c]) with [RmDistance], [Fft] ([fft.c]),
        [Locator] (error locators and the Berlekamp-Massey algorithm), [ReedSolomon]
        ([reed_solomon.c]) with [RsDecode] and [RsTotal], [Code] ([code.c]);
      - the schemes: [Hqc] ([hqc.c] and [parsing.c]), [Kem] ([kem.c]); [HqcCheck] decides
        the hypothesis of the round trip, [HqcBoot] runs it on the generator's initial
        state, [KemProps] has the theorems, [HqcCrypto] the instance of [Crypto] and
        the handshake with it.
    - [Session] ([PQC/session_manager.c]): one peer's state and the table of ten.
    - [TxQueue] and [Telemetry] (both from [PQC/PQC.c]): the queue of 96 datagrams
      that takes turns between nodes; encrypted readings and metrics reports.
      [TelemetryRun]: sequences of readings.
    - [Handshake] ([PQC/handshake_fsm.c]), with the lemmas on it in [HandshakeTime],
      [HandshakeFacts], [HandshakeRules] and [HandshakeStep], the protocol machine
      it refines in [HandshakeProps] and a whole run of two peers in
      [HandshakeRun].
    - [Device]: the state the processes of one image share.  [NodeApp]
      ([src/node_main.c]): the node's processes.  [RootLog], [RootApp] (both from
      [src/server_main.c]), [RootFacts] and [RootRun]: the root's log, its
      processes, and the lemmas and theorems on them.

    The comment before a definition names the lines it translates.

    ** What is shown

    - The programs.  [RootRun.root_refines] and [NodeApp.node_refines]: from boot,
      under any sequence of timer ticks and datagrams, every handler returns, and
      each session has moved by steps of the protocol machine [hs_step] of
      [HandshakeProps]; an established session holds the key derived from its
      secret, and fragments of the messages it needed arrived in the protocol's order
      (the event of a datagram is that of the fragment it holds, which may complete the
      message or not).
      [root_isolation], [root_answers_getpk], [root_never_stuck] and
      [node_never_stuck]: nodes do not disturb each other, a request for the key is
      answered, and neither end waits for nothing.
    - The handshake.  [handshake_refines] and [handshake_established] (safety),
      [handshake_agreement] (two peers that exchange their datagrams in time end with the
      same key), [hqc_handshake_agreement] (the same with HQC for the KEM),
      [handshake_gives_up] (at most [SESSION_MAX_RETRIES] silent retries),
      [nack_served].
    - The KEM.  [hqc_kem_correct]: what is encapsulated is decapsulated, when at most
      15 blocks of the noise are harmful.  [kem_dec_refines] and [kem_dec_total]:
      decapsulation accepts exactly what encrypting the decoded message again gives, and
      is defined on every ciphertext.  [kem_calls_total]: key generation and encapsulation
      are defined too, unless the sampler runs out of candidates, with the sizes promised to
      the firmware.  [boot_secret_public]: without a seed there is no secrecy.
    - Codes.  [reed_muller_corrects] (decoding finds a nearest code word),
      [reed_solomon_corrects] (any 15 wrong bytes), [code_corrects] (both),
      [fft_evaluates], and the lemmas on syndromes, locators and error values behind
      them.
    - Arithmetic and randomness.  [vect_mul_spec], [gf_mul_spec],
      [vect_set_random_fixed_weight_spec], [shake256_inc_oneshot].
    - Messages.  [reassembly_any_order], [fragment_rx_add_safe],
      [fragment_tx_emits], [nack_recovers] and the theorems on the NACK format.
    - The radio.  [radio_rx_fifo]: with interrupts anywhere in the receive path, the ring of
      buffers is a first-in first-out queue of four packets, as long as none has an empty
      payload; [radio_empty_packet]: one that has stops reception.
      [radio_transmit_returns]: sending ends, never leaves the driver busy, and reports
      what an interrupt said.
    - The queue.  [tx_queue_refines] (an abstract multiset with turns and
      priorities), [tx_queue_conserves], [tx_queue_drains].
    - Telemetry and metrics.  [temp_delivered], [temp_send_sequence] (which sends succeed and the counters
      they use), [temp_counters_increase], [metrics_report_roundtrip] and the theorems on
      reports and on the log.
    - Ciphers.  [aes_ctr_involutive], [aes_ctr_counter_blocks], [aes_ecb_roundtrip];
      [keccak_permutation_correct]: the unrolled permutation is the five step
      mappings of the standard.

    ** Bounds

    Loops are folds over ranges whose bounds are the code's constants or lengths, and
    the processes' endless loops are the lists of events that wake them, of any length.
    Some recursions have fuel.  Karatsuba's has one unit per word of its operands, the
    loops of Keccak over blocks one or two more than there are blocks, and the recursion of the FFT is
    on the number of variables: [vect_mul_spec], [shake256_inc_oneshot] and
    [fft_evaluates] say that this always suffices.  Rejection sampling has no bound in
    the code; its fuel is the number of candidates it may try, a parameter of the KEM
    everywhere, [vect_set_random_fixed_weight_spec] says how many suffice for a given
    stream, and a model of [Kem] that runs out is [None], never a result.  Only the instance
    [hqc_crypto] of the total interface answers -1 then, which no theorem rests on.  [boot_fuel] is 300, and
    the runs of [HqcBoot] return within it.

    The radio driver waits by reading a clock: its readings are a list, and
    [radio_transmit_returns] asks that one of them is past the limit the code sets.

    The noise of HQC is corrected with overwhelming probability but not always; the
    theorems state the exact condition ([bad_blocks] at most 15) as a hypothesis, which
    [HqcCheck.all_good] decides.  Ticks of timers are events: that a timer expires is not
    modelled, only what happens when it does.  The clock may do anything between two
    readings except in the theorems on agreement, where a delivery achieves something
    only if the readings it makes do not run backwards or so far that a receive slot expires
    ([prompt]).

    ** Not modelled

    - The vendor's radio library: what it answers is an argument of [Radio], what it is
      told is recorded.  Contiki-NG's network stack between the radio and the UDP
      callbacks, [common/reset_diagnostics.h] (hardware registers), LEDs, GPIO and
      the calls that start timers and register callbacks with Contiki-NG.
    - Diagnostic lines printed by [handshake_fsm.c], [PQC.c] and
      [crypto_worker.c]; the lines of [server_main.c] and of the resynchronisation
      of counters are modelled, since tools parse them.
    - The printing of vectors and the [VERBOSE] output of HQC, its test programs
      ([main_hqc.c], [main_kat.c]) and the parts of [fips202.c] that the firmware does not
      call.  Running times: that the comparisons are free of branches on secrets is not
      a property of this model, only what they compute is.
    - Probabilities: how often the noise is harmful, and the security of HQC.
    - [print_measurement] negates what it prints, which is undefined for the
      least integer: the theorems on the root ask ([root_inputs_ok]) that a
      reading that decrypts is not that integer. *)

From Stdlib Require Export ZArith Lia.
From stdpp Require Export base list_numbers sets strings pretty numbers.
From stdpp Require Export list_basics list_relations list_monad list_misc list_tactics list.

#[export] Set Default Goal Selector "!".
#[export] Set Warnings "-postfix-notation-not-level-1,-clear-no-such-hyp".
Open Scope Z_scope.

(** ** Machine integers

    A C unsigned integer is a [Z]; a value that can leave the range of its type
    is reduced by the cast of that type. *)

Definition u8 (x : Z) : Z := x mod 2 ^ 8.
Definition u16 (x : Z) : Z := x mod 2 ^ 16.
Definition u32 (x : Z) : Z := x mod 2 ^ 32.
Definition u64 (x : Z) : Z := x mod 2 ^ 64.

Arguments u8 : simpl never.
Arguments u16 : simpl never.
Arguments u32 : simpl never.
Arguments u64 : simpl never.

(** The value range of the unsigned type of width [w]. *)
Definition in_width (w x : Z) : Prop := 0 <= x < 2 ^ w.

Abbreviation is_u8 := (in_width 8).
Abbreviation is_u16 := (in_width 16).
Abbreviation is_u32 := (in_width 32).

Abbreviation bytes := (list Z).

(** A byte buffer all of whose cells are bytes. *)
Definition all_bytes (l : bytes) : Prop := Forall is_u8 l.

Create HintDb c_consts.
Create HintDb widths.

(** Two's complement reading of a 32-bit word, for [int32_t]. *)
Definition s32 (x : Z) : Z := let y := u32 x in if y <? 2 ^ 31 then y else y - 2 ^ 32.

(** ** Memory

    An array is a list of cells; an access outside it is undefined behaviour,
    modelled by [None]. *)

Definition mem_read (l : bytes) (off len : Z) : option bytes :=
  if (0 <=? off) && (0 <=? len) && (off + len <=? Z.of_nat (length l))
  then Some (take (Z.to_nat len) (drop (Z.to_nat off) l)) else None.

Definition mem_write (l : bytes) (off : Z) (src : bytes) : option bytes :=
  if (0 <=? off) && (off + Z.of_nat (length src) <=? Z.of_nat (length l))
  then Some (take (Z.to_nat off) l ++ src ++ drop (Z.to_nat off + length src) l)
  else None.

(** [l[i]] and [l[i] = v]. *)
Definition cell (l : bytes) (i : Z) : option Z :=
  if 0 <=? i then l !! Z.to_nat i else None.

Definition set_cell (l : bytes) (i v : Z) : option bytes :=
  if (0 <=? i) && (i <? Z.of_nat (length l)) then Some (<[Z.to_nat i := v]> l) else None.

(** [memset(p, 0, n)] and a freshly declared local buffer. *)
Definition zeros (n : Z) : bytes := replicate (Z.to_nat n) 0.

(** A loop [for(i = 0; i < n; i++)] as the list of its index values. *)
Definition upto (n : Z) : list Z := seqZ 0 n.

(** A loop without early exit whose body may be undefined. *)
Fixpoint ofor {I S} (idxs : list I) (body : I -> S -> option S) (s : S) {struct idxs} : option S :=
  match idxs with
  | [] => Some s
  | i :: rest => s ← body i s; ofor rest body s
  end.

(** ** Record update

    [r <| f := v |>] is [r] with field [f] set to [v]; [r <| f ::= g |>] applies
    [g] to the field.  A record declares its eta expansion once. *)

Class Eta (R : Type) := eta : R -> R.
Class Update {R T} (f : R -> T) := update : (T -> T) -> R -> R.
Arguments update {R T} f {_} g r.

Ltac build_update :=
  lazymatch goal with
  | |- @Update ?R ?T ?f =>
      let g := fresh "g" in
      let r := fresh "r" in
      unfold Update; intros g r;
      let e := eval hnf in (@eta R _ r) in
      lazymatch eval pattern (f r) in e with
      | ?F _ => let u := eval cbv beta in (F (g (f r))) in exact u
      end
  end.
#[export] Hint Extern 0 (@Update _ _ _) => build_update : typeclass_instances.

Declare Scope rec_scope.
Notation "r <| f ::= g |>" := (update f g r)
  (at level 1, f at next level, left associativity, format "r  <|  f  ::=  g  |>") : rec_scope.
Notation "r <| f := v |>" := (update f (fun _ => v) r)
  (at level 1, f at next level, left associativity, format "r  <|  f  :=  v  |>") : rec_scope.
Open Scope rec_scope.

(** Reads of a field through updates.  The equation of a read is checked on a
    variable, so that no large record is ever compared with another. *)
Ltac rsimpl_with tac :=
  match goal with
  | |- context [?f (@update ?R ?T ?g ?i ?u ?r)] =>
      tryif constr_eq f g
      then let E := constr:((fun x : R => @eq_refl T (u (g x)) : f (@update R T g i u x) = u (g x)) r) in
           tac (f (@update R T g i u r)) (u (g r)) E
      else let E := constr:((fun x : R => @eq_refl _ (f x) : f (@update R T g i u x) = f x) r) in
           tac (f (@update R T g i u r)) (f r) E
  end.
Ltac rewrite_exact lhs rhs E :=
  pattern lhs; lazymatch goal with |- ?P _ => refine (@eq_ind_r _ rhs P _ lhs E) end; cbv beta.
Ltac rsimpl_step := rsimpl_with rewrite_exact.
Ltac rsimpl_in H := revert H; repeat (rsimpl_step); intros H.
Ltac rsimpl :=
  repeat rsimpl_step;
  repeat match goal with
  | H : context [?f (@update ?R ?T ?g ?i ?u ?r)] |- _ => progress (revert H; rsimpl_step; intros H)
  end.

(** The binds of the option monad. *)
Ltac opt_simpl := cbn [mbind option_bind fst snd].

(** [lia] after unfolding the program's constants. *)
Ltac clia := autounfold with c_consts in *; unfold in_width in *; lia.

(** Case analysis on the outermost [if] or [match] of the goal or a hypothesis. *)
Ltac case_if :=
  match goal with
  | |- context [if ?b then _ else _] => destruct b eqn:?
  | H : context [if ?b then _ else _] |- _ => destruct b eqn:?
  end.
Ltac case_bools :=
  repeat match goal with
  | H : (_ && _) = true |- _ => apply andb_true_iff in H as [? ?]
  | H : (_ && _) = false |- _ => apply andb_false_iff in H
  | H : (_ || _) = true |- _ => apply orb_true_iff in H
  | H : (_ || _) = false |- _ => apply orb_false_iff in H as [? ?]
  | H : negb _ = true |- _ => apply negb_true_iff in H
  | H : negb _ = false |- _ => apply negb_false_iff in H
  | H : (_ =? _) = true |- _ => apply Z.eqb_eq in H
  | H : (_ =? _) = false |- _ => apply Z.eqb_neq in H
  | H : (_ <? _) = true |- _ => apply Z.ltb_lt in H
  | H : (_ <? _) = false |- _ => apply Z.ltb_ge in H
  | H : (_ <=? _) = true |- _ => apply Z.leb_le in H
  | H : (_ <=? _) = false |- _ => apply Z.leb_gt in H
  end.

(** Decidable closed goals, by evaluation. *)
#[export] Instance in_width_dec w x : Decision (in_width w x).
Proof. unfold in_width. apply _. Defined.
#[export] Instance all_bytes_dec l : Decision (all_bytes l).
Proof. unfold all_bytes. apply _. Defined.
Ltac decided := apply (bool_decide_unpack _); vm_compute; exact I.

(** ** Lemmas on machine integers *)

Lemma in_width_mod w x : 0 <= w -> in_width w (x mod 2 ^ w).
Proof. intros. unfold in_width. apply Z.mod_pos_bound. lia. Qed.

Lemma u8_range x : is_u8 (u8 x).
Proof. apply in_width_mod. lia. Qed.
Lemma u16_range x : is_u16 (u16 x).
Proof. apply in_width_mod. lia. Qed.
Lemma u32_range x : is_u32 (u32 x).
Proof. apply in_width_mod. lia. Qed.

Lemma byte_0 : is_u8 0.
Proof. unfold in_width. lia. Qed.

Lemma u8_id x : is_u8 x -> u8 x = x.
Proof. apply Z.mod_small. Qed.
Lemma u16_id x : is_u16 x -> u16 x = x.
Proof. apply Z.mod_small. Qed.
Lemma u32_id x : is_u32 x -> u32 x = x.
Proof. apply Z.mod_small. Qed.

#[export] Hint Resolve u8_range u16_range u32_range : widths.

(** Concatenation of a high part and a low part of [n] bits. *)
Lemma lor_shiftl_add a b n :
  0 <= n -> 0 <= b < 2 ^ n -> Z.lor (Z.shiftl a n) b = a * 2 ^ n + b.
Proof.
  intros Hn Hb. rewrite <- Z.shiftl_mul_pow2 by lia.
  symmetry. apply Z.add_nocarry_lor. apply Z.bits_inj'. intros j Hj.
  rewrite Z.land_spec, Z.bits_0. destruct (Z.ltb_spec j n) as [Hlt|Hge].
  - rewrite Z.shiftl_spec_low by lia. reflexivity.
  - rewrite (proj1 (Z.bounded_iff_bits_nonneg n b ltac:(lia) ltac:(lia)) ltac:(lia)) by lia.
    apply andb_false_r.
Qed.

Lemma u8_shiftr x n : 0 <= n -> u8 (Z.shiftr x n) = x / 2 ^ n mod 2 ^ 8.
Proof. intros. unfold u8. rewrite Z.shiftr_div_pow2 by lia. reflexivity. Qed.

(** ** Lemmas on memory *)

Lemma mem_read_spec l off len r :
  mem_read l off len = Some r <->
  0 <= off /\ 0 <= len /\ off + len <= Z.of_nat (length l) /\
  r = take (Z.to_nat len) (drop (Z.to_nat off) l).
Proof. unfold mem_read. case_if; case_bools; intuition (congruence || lia). Qed.

Lemma mem_read_length l off len r :
  mem_read l off len = Some r -> Z.of_nat (length r) = len.
Proof.
  rewrite mem_read_spec. intros (? & ? & ? & ->).
  rewrite length_take, length_drop. lia.
Qed.

Lemma mem_read_total l off len :
  0 <= off -> 0 <= len -> off + len <= Z.of_nat (length l) ->
  exists r, mem_read l off len = Some r /\ length r = Z.to_nat len /\
            r = take (Z.to_nat len) (drop (Z.to_nat off) l).
Proof.
  intros. eexists. split.
  - apply mem_read_spec. repeat split; eauto.
  - split; [|reflexivity]. rewrite length_take, length_drop. lia.
Qed.

Lemma mem_read_all l n : n = Z.of_nat (length l) -> mem_read l 0 n = Some l.
Proof.
  intros ->. apply mem_read_spec. repeat split; try lia.
  rewrite drop_0, Nat2Z.id, firstn_all. reflexivity.
Qed.

Lemma mem_write_total l off src :
  0 <= off -> off + Z.of_nat (length src) <= Z.of_nat (length l) ->
  mem_write l off src =
    Some (take (Z.to_nat off) l ++ src ++ drop (Z.to_nat off + length src) l).
Proof. intros. unfold mem_write. case_if; [reflexivity|]. case_bools; lia. Qed.

Lemma mem_write_length l off src r :
  mem_write l off src = Some r -> length r = length l.
Proof.
  unfold mem_write. case_if; [|discriminate]. case_bools. intros [= <-].
  rewrite !length_app, length_take, length_drop. lia.
Qed.

Lemma mem_write_lookup l off src r (k : nat) :
  mem_write l off src = Some r ->
  r !! k = if (off <=? Z.of_nat k) && (Z.of_nat k <? off + Z.of_nat (length src))
           then src !! (k - Z.to_nat off)%nat else l !! k.
Proof.
  unfold mem_write. case_if; [|discriminate]. case_bools. intros [= <-].
  case_if; case_bools.
  - rewrite lookup_app_r by (rewrite length_take; lia).
    rewrite length_take. rewrite Nat.min_l by lia. apply lookup_app_l. lia.
  - assert (Z.of_nat k < off \/ off + Z.of_nat (length src) <= Z.of_nat k) as [Hlt|Hge].
    { match goal with Hd : _ \/ _ |- _ => destruct Hd end; case_bools; lia. }
    + rewrite lookup_app_l by (rewrite length_take; lia).
      apply lookup_take_lt. lia.
    + rewrite lookup_app_r by (rewrite length_take; lia).
      rewrite length_take. rewrite Nat.min_l by lia.
      rewrite lookup_app_r by lia. rewrite lookup_drop. f_equal. lia.
Qed.

Lemma cell_total l i :
  0 <= i < Z.of_nat (length l) -> exists v, cell l i = Some v /\ l !! Z.to_nat i = Some v.
Proof.
  intros. unfold cell. destruct (lookup_lt_is_Some_2 l (Z.to_nat i)) as [v Hv]; [lia|].
  exists v. rewrite Hv. case_if; case_bools; [auto|lia].
Qed.

Lemma cell_lookup l i : 0 <= i -> cell l i = l !! Z.to_nat i.
Proof. intros. unfold cell. case_if; case_bools; [auto|lia]. Qed.

Lemma all_bytes_replicate n v : is_u8 v -> all_bytes (replicate n v).
Proof. intros Hv. apply Forall_replicate, Hv. Qed.
Lemma all_bytes_zeros n : all_bytes (zeros n).
Proof. apply Forall_replicate. clia. Qed.
Lemma length_zeros n : length (zeros n) = Z.to_nat n.
Proof. apply length_replicate. Qed.

Lemma set_cell_total l i v :
  0 <= i < Z.of_nat (length l) -> set_cell l i v = Some (<[Z.to_nat i := v]> l).
Proof. intros. unfold set_cell. case_if; [reflexivity|]. case_bools; lia. Qed.

(** Cells behind a prefix. *)
Lemma cell_app (pre l : bytes) (k : nat) :
  cell (pre ++ l) (Z.of_nat (length pre) + Z.of_nat k) = l !! k.
Proof.
  rewrite cell_lookup by lia. rewrite lookup_app_r by lia. f_equal. lia.
Qed.

Lemma set_cell_app (pre l : bytes) (k : nat) v :
  (k < length l)%nat ->
  set_cell (pre ++ l) (Z.of_nat (length pre) + Z.of_nat k) v = Some (pre ++ <[k := v]> l).
Proof.
  intros Hk. rewrite set_cell_total by (rewrite length_app; lia).
  rewrite Z2Nat.inj_add, !Nat2Z.id, insert_app_r by lia. reflexivity.
Qed.

Lemma cell_middle (pre l : bytes) x : cell (pre ++ x :: l) (Z.of_nat (length pre)) = Some x.
Proof. rewrite <- (Z.add_0_r (Z.of_nat _)). apply (cell_app pre (x :: l) 0). Qed.
Lemma set_cell_middle (pre l : bytes) x v :
  set_cell (pre ++ x :: l) (Z.of_nat (length pre)) v = Some (pre ++ v :: l).
Proof.
  rewrite <- (Z.add_0_r (Z.of_nat _)). rewrite (set_cell_app pre (x :: l) 0) by (simpl; lia).
  reflexivity.
Qed.

Lemma set_cell_0 x (l : bytes) v : set_cell (x :: l) 0 v = Some (v :: l).
Proof. rewrite set_cell_total by (simpl; lia). reflexivity. Qed.
Lemma set_cell_1 x y (l : bytes) v : set_cell (x :: y :: l) 1 v = Some (x :: v :: l).
Proof. rewrite set_cell_total by (simpl; lia). reflexivity. Qed.

Lemma length_upto n : length (upto n) = Z.to_nat n.
Proof. unfold upto. rewrite length_seqZ. reflexivity. Qed.

Lemma elem_of_upto n i : i ∈ upto n <-> 0 <= i < n.
Proof. unfold upto. rewrite elem_of_seqZ. lia. Qed.

Lemma upto_lookup n i : 0 <= i < n -> upto n !! Z.to_nat i = Some i.
Proof. intros. unfold upto. apply lookup_seqZ. lia. Qed.

Lemma upto_snoc n : 0 <= n -> upto (n + 1) = upto n ++ [n].
Proof. intros. unfold upto. rewrite seqZ_app by lia. reflexivity. Qed.

(** A value of a range is the number of those before it. *)
Lemma upto_split n done i rest : upto n = done ++ i :: rest -> i = Z.of_nat (length done) /\ i < n.
Proof.
  intros Heq. assert (Hi : upto n !! length done = Some i) by (rewrite Heq; apply list_lookup_middle; reflexivity).
  unfold upto in Hi. apply lookup_seqZ in Hi. lia.
Qed.

(** The values of a range before a value of it. *)
Lemma upto_before n done i rest j :
  upto n = done ++ i :: rest -> 0 <= j < i -> j ∈ done.
Proof.
  intros Heq Hj. assert (Hi : upto n !! length done = Some i) by (rewrite Heq; apply list_lookup_middle; reflexivity).
  apply lookup_seqZ in Hi as [Hi Hn]. apply (list_elem_of_lookup_2 _ (Z.to_nat j)).
  assert (E : (done ++ i :: rest) !! Z.to_nat j = Some j) by (rewrite <- Heq; apply upto_lookup; lia).
  rewrite lookup_app_l in E by lia. exact E.
Qed.

Lemma filter_ext_elem {A} (P Q : A -> Prop) `{!forall x, Decision (P x), !forall x, Decision (Q x)} (l : list A) :
  (forall x, x ∈ l -> P x <-> Q x) -> filter P l = filter Q l.
Proof.
  induction l as [|x l IH]; intros Hf; [reflexivity|]. rewrite !filter_cons.
  rewrite IH by (intros; apply Hf; right; assumption).
  destruct (decide (P x)), (decide (Q x)); try reflexivity; exfalso;
    pose proof (Hf x ltac:(left)); tauto.
Qed.

Lemma filter_all {A} (P : A -> Prop) `{!forall x, Decision (P x)} (l : list A) :
  (forall x, x ∈ l -> P x) -> filter P l = l.
Proof.
  induction l as [|x l IH]; intros Hf; [reflexivity|].
  rewrite filter_cons_True by (apply Hf; left). f_equal. apply IH. intros; apply Hf; right; assumption.
Qed.

Lemma filter_none {A} (P : A -> Prop) `{!forall x, Decision (P x)} (l : list A) :
  (forall x, x ∈ l -> ~ P x) -> filter P l = [].
Proof.
  induction l as [|x l IH]; intros Hf; [reflexivity|].
  rewrite filter_cons_False by (apply Hf; left). apply IH. intros; apply Hf; right; assumption.
Qed.

Lemma filter_notin_take {A} `{EqDecision A} n (l : list A) :
  NoDup l -> filter (fun x => x ∉ take n l) l = drop n l.
Proof.
  intros Hnd. rewrite <- (take_drop n l) in Hnd. apply list.NoDup_app in Hnd as (_ & Hdis & _).
  transitivity (filter (fun x => x ∉ take n l) (take n l ++ drop n l)).
  - rewrite take_drop. reflexivity.
  - rewrite filter_app, filter_none, filter_all; [reflexivity| |].
    + intros x Hd Ht. exact (Hdis x Ht Hd).
    + intros x Ht Hn. exact (Hn Ht).
Qed.

Lemma NoDup_upto n : NoDup (upto n).
Proof. apply NoDup_seqZ. Qed.

(** Induction over the bound of a range. *)
Lemma range_ind (P : Z -> Prop) :
  P 0 -> (forall n, 0 <= n -> P n -> P (n + 1)) -> forall n, 0 <= n -> P n.
Proof. intros H0 HS n Hn. apply natlike_ind; auto. Qed.

Lemma ofor_app {I S} (l1 l2 : list I) (body : I -> S -> option S) s :
  ofor (l1 ++ l2) body s = (s' ← ofor l1 body s; ofor l2 body s').
Proof.
  revert s. induction l1 as [|i l1 IH]; intros s; simpl; [reflexivity|].
  destruct (body i s); simpl; [apply IH|reflexivity].
Qed.

(** Two adjacent writes are one. *)
Lemma mem_write_adjacent l off a b l1 :
  mem_write l off a = Some l1 ->
  off + Z.of_nat (length a) + Z.of_nat (length b) <= Z.of_nat (length l) ->
  mem_write l1 (off + Z.of_nat (length a)) b = mem_write l off (a ++ b).
Proof.
  intros Ha Hl. pose proof (mem_write_length _ _ _ _ Ha) as Hlen.
  assert (Ho : 0 <= off) by (unfold mem_write in Ha; case_if; [case_bools; lia|discriminate]).
  destruct (mem_write l1 (off + Z.of_nat (length a)) b) as [l2|] eqn:Hb.
  2: { rewrite mem_write_total in Hb by (rewrite ?Hlen; lia). discriminate. }
  destruct (mem_write l off (a ++ b)) as [l3|] eqn:Hab.
  2: { rewrite mem_write_total in Hab by (rewrite ?length_app; lia). discriminate. }
  f_equal. apply list_eq. intros k. rewrite (mem_write_lookup _ _ _ _ k Hb),
    (mem_write_lookup _ _ _ _ k Hab), (mem_write_lookup _ _ _ _ k Ha), length_app.
  destruct (Z.leb_spec (off + Z.of_nat (length a)) (Z.of_nat k)), (Z.leb_spec off (Z.of_nat k)),
    (Z.ltb_spec (Z.of_nat k) (off + Z.of_nat (length a) + Z.of_nat (length b))),
    (Z.ltb_spec (Z.of_nat k) (off + Z.of_nat (length a))),
    (Z.ltb_spec (Z.of_nat k) (off + Z.of_nat (length a + length b))); simpl; try lia; try reflexivity.
  - rewrite lookup_app_r by lia. f_equal. lia.
  - rewrite lookup_app_l by lia. reflexivity.
Qed.

(** A write of one cell. *)
Lemma set_cell_mem_write l i v : set_cell l i v = mem_write l i [v].
Proof.
  unfold set_cell, mem_write. change (Z.of_nat (length [v])) with 1.
  destruct (Z.leb_spec 0 i), (Z.ltb_spec i (Z.of_nat (length l))),
    (Z.leb_spec (i + 1) (Z.of_nat (length l))); simpl; try lia; try reflexivity.
  f_equal. rewrite insert_take_drop by lia. f_equal. simpl. f_equal. f_equal. lia.
Qed.

(** The loop rule for [ofor]. *)
Lemma ofor_inv {I S} (P : S -> Prop) (idxs : list I) (body : I -> S -> option S) s :
  P s -> (forall i s, i ∈ idxs -> P s -> exists s', body i s = Some s' /\ P s') ->
  exists s', ofor idxs body s = Some s' /\ P s'.
Proof.
  revert s. induction idxs as [|i idxs IH]; intros s Hs Hb; simpl; [eauto|].
  destruct (Hb i s ltac:(left) Hs) as (s1 & -> & Hs1). simpl. apply IH; [exact Hs1|].
  intros j s' Hj. apply Hb. right. exact Hj.
Qed.

Lemma concat_upto_length (w : Z -> bytes) size n :
  0 <= n -> (forall i, 0 <= i < n -> Z.of_nat (length (w i)) = size) ->
  Z.of_nat (length (concat (w <$> upto n))) = size * n.
Proof.
  intros Hn. revert n Hn.
  apply (range_ind (fun n => _ -> Z.of_nat (length (concat (w <$> upto n))) = size * n));
    [intros _; simpl; lia|].
  intros n Hn IH Hw. rewrite upto_snoc, fmap_app, concat_app, length_app, Nat2Z.inj_add, IH
    by (lia || (intros; apply Hw; lia)).
  simpl. rewrite app_nil_r, Hw by lia. lia.
Qed.

(** A loop that writes consecutive pieces is one write. *)
Lemma ofor_writes (w : Z -> bytes) (size : Z) (body : Z -> bytes -> option bytes) n h off :
  0 <= size -> 0 <= n -> 0 <= off -> off + size * n <= Z.of_nat (length h) ->
  (forall i, 0 <= i < n -> Z.of_nat (length (w i)) = size) ->
  (forall i h', 0 <= i < n -> length h' = length h ->
     body i h' = mem_write h' (off + size * i) (w i)) ->
  ofor (upto n) body h = mem_write h off (concat (w <$> upto n)).
Proof.
  intros Hs Hn Ho Hl Hw Hb.
  assert (Hlen : forall m, 0 <= m -> m <= n -> Z.of_nat (length (concat (w <$> upto m))) = size * m).
  { intros m Hm Hle. apply concat_upto_length; [exact Hm|]. intros; apply Hw; lia. }
  enough (H : forall m, 0 <= m -> m <= n ->
            ofor (upto m) body h = mem_write h off (concat (w <$> upto m))) by (apply H; lia).
  intros m Hm. pattern m. revert m Hm. apply range_ind.
  - intros _. simpl. rewrite mem_write_total by (simpl; nia). simpl.
    rewrite Nat.add_0_r, take_drop. reflexivity.
  - intros m Hm IH Hle. rewrite upto_snoc, fmap_app, concat_app by lia.
    rewrite ofor_app, IH by lia. simpl. rewrite app_nil_r.
    destruct (mem_write h off (concat (w <$> upto m))) as [h1|] eqn:E.
    + simpl. rewrite Hb by (try lia; eapply mem_write_length; exact E).
      rewrite <- (Hlen m) by lia. erewrite mem_write_adjacent by (exact E || (rewrite Hlen, Hw; nia)).
      match goal with |- (?m ≫= _) = _ => destruct m; reflexivity end.
    + rewrite mem_write_total in E by (rewrite ?Hlen; nia). discriminate.
Qed.

(** ** Sums over an index range *)

Definition zsum (f : Z -> Z) (n : Z) : Z := foldr (fun i acc => f i + acc) 0 (upto n).

Lemma zsum_0 f : zsum f 0 = 0.
Proof. reflexivity. Qed.

Lemma zsum_succ f n : 0 <= n -> zsum f (n + 1) = zsum f n + f n.
Proof.
  intros Hn. unfold zsum. rewrite upto_snoc, foldr_app by lia. simpl.
  generalize (upto n). intros l. induction l as [|x l IH]; simpl; lia.
Qed.

Lemma zsum_ext f g n :
  0 <= n -> (forall i, 0 <= i < n -> f i = g i) -> zsum f n = zsum g n.
Proof.
  intros Hn. revert n Hn. apply (range_ind (fun n => _ -> zsum f n = zsum g n)).
  - reflexivity.
  - intros n Hn IH Heq. rewrite !zsum_succ by lia.
    rewrite IH by (intros; apply Heq; lia). rewrite Heq by lia. reflexivity.
Qed.

Lemma zsum_le f g n :
  0 <= n -> (forall i, 0 <= i < n -> f i <= g i) -> zsum f n <= zsum g n.
Proof.
  intros Hn. revert n Hn. apply (range_ind (fun n => _ -> zsum f n <= zsum g n)).
  - reflexivity.
  - intros n Hn IH Hle. rewrite !zsum_succ by lia.
    pose proof (Hle n ltac:(lia)). specialize (IH ltac:(intros; apply Hle; lia)). lia.
Qed.

Lemma zsum_const c n : 0 <= n -> zsum (fun _ => c) n = c * n.
Proof.
  intros Hn. revert n Hn. apply (range_ind (fun n => zsum _ n = c * n)).
  - rewrite zsum_0. lia.
  - intros n Hn IH. rewrite zsum_succ, IH by lia. lia.
Qed.

Lemma zsum_scale c f n : 0 <= n -> zsum (fun i => c * f i) n = c * zsum f n.
Proof.
  intros Hn. revert n Hn. apply (range_ind (fun n => zsum _ n = c * zsum f n)); [rewrite !zsum_0; lia|].
  intros n Hn IH. rewrite !zsum_succ, IH by lia. lia.
Qed.

(** Changing one term of a sum. *)
Lemma zsum_upd f g n k :
  0 <= k < n -> (forall i, 0 <= i < n -> i <> k -> g i = f i) ->
  zsum g n = zsum f n + (g k - f k).
Proof.
  intros Hk Heq. assert (Hn : 0 <= n) by lia. revert n Hn Hk Heq.
  apply (range_ind (fun n => _ -> _ -> zsum g n = zsum f n + (g k - f k))).
  - lia.
  - intros n Hn IH Hk Heq. rewrite !zsum_succ by lia.
    destruct (Z.eq_dec k n) as [->|Hne].
    + rewrite (zsum_ext g f n); [lia|lia|]. intros i Hi. apply Heq; lia.
    + rewrite IH; [|lia|intros; apply Heq; lia]. rewrite (Heq n) by lia. lia.
Qed.

Lemma zsum_split f n m :
  0 <= n <= m -> (forall i, n <= i < m -> f i = 0) -> zsum f m = zsum f n.
Proof.
  intros Hnm. assert (Hm : 0 <= m) by lia. revert m Hm Hnm.
  apply (range_ind (fun m => _ -> _ -> zsum f m = zsum f n)).
  - intros. assert (n = 0) as -> by lia. reflexivity.
  - intros m Hm IH Hnm Hz. destruct (Z.eq_dec n (m + 1)) as [->|Hne]; [reflexivity|].
    rewrite zsum_succ, IH, Hz; try lia. intros; apply Hz; lia.
Qed.

(** A sum of bits reaches the length of the range only when every bit is set. *)
Lemma zsum_full f n :
  0 <= n -> (forall i, 0 <= i < n -> 0 <= f i <= 1) ->
  zsum f n = n <-> (forall i, 0 <= i < n -> f i = 1).
Proof.
  intros Hn Hb. split.
  - intros Hs i Hi. destruct (Z.eq_dec (f i) 1) as [He|Hne]; [exact He|exfalso].
    assert (Hle : zsum f n <= zsum (fun j => if j =? i then 0 else 1) n).
    { apply zsum_le; [lia|]. intros j Hj. specialize (Hb j Hj).
      destruct (Z.eqb_spec j i) as [->|]; lia. }
    rewrite (zsum_upd (fun _ => 1) (fun j => if j =? i then 0 else 1) n i) in Hle.
    + rewrite zsum_const, Z.eqb_refl in Hle; lia.
    + exact Hi.
    + intros j _ Hji. destruct (Z.eqb_spec j i); [contradiction|reflexivity].
  - intros H1. rewrite (zsum_ext f (fun _ => 1)) by auto. rewrite zsum_const; lia.
Qed.

(** ** Arrays of structures *)

(** [a[i]] for an array of structures. *)
Definition at_index {A} (l : list A) (i : Z) : option A := if 0 <=? i then l !! Z.to_nat i else None.

Lemma at_index_total {A} (l : list A) i :
  0 <= i < Z.of_nat (length l) -> exists x, at_index l i = Some x.
Proof.
  intros Hi. unfold at_index. case_if; case_bools; [|lia].
  destruct (lookup_lt_is_Some_2 l (Z.to_nat i)) as [x Hx]; [lia|eauto].
Qed.

Lemma at_index_nat {A} (l : list A) (k : nat) : at_index l (Z.of_nat k) = l !! k.
Proof. unfold at_index. case_if; case_bools; [|lia]. rewrite Nat2Z.id. reflexivity. Qed.

Lemma at_index_some {A} (l : list A) i x :
  at_index l i = Some x -> 0 <= i < Z.of_nat (length l) /\ l !! Z.to_nat i = Some x.
Proof.
  unfold at_index. case_if; [|discriminate]. case_bools. intros Hx.
  split; [|exact Hx]. apply lookup_lt_Some in Hx. lia.
Qed.

(** Replacing one cell, seen by a filter. *)
Lemma filter_insert {A} (P : A -> Prop) `{!forall x, Decision (P x)} (l : list A) i x y :
  l !! i = Some x ->
  exists l1 l2, filter P l = l1 ++ filter P [x] ++ l2 /\
                filter P (<[i := y]> l) = l1 ++ filter P [y] ++ l2.
Proof.
  intros Hi. exists (filter P (take i l)), (filter P (drop (S i) l)).
  pose proof (lookup_lt_Some _ _ _ Hi). rewrite <- !filter_app. split; f_equal.
  - symmetry. apply take_drop_middle, Hi.
  - apply insert_take_drop. assumption.
Qed.
