(* ===== verification/Carryless.v ===== *)
(** * Polynomials over two elements

    A word is a polynomial with coefficients 0 and 1, bit [i] the coefficient of
    [X^i]: addition is [Z.lxor] and [clmul] is the product.  The specification of
    the carryless multiplications of HQC, its laws, and the remainder by a
    polynomial. *)

From S2P Require Import Prelude.

(** ** Bits *)

Lemma lxor_mod_pow2 a b n : 0 <= n -> Z.lxor a b mod 2 ^ n = Z.lxor (a mod 2 ^ n) (b mod 2 ^ n).
Proof.
  intros Hn. apply Z.bits_inj'. intros i Hi. rewrite Z.lxor_spec. destruct (Z.ltb_spec i n).
  - rewrite !Z.mod_pow2_bits_low by lia. apply Z.lxor_spec.
  - rewrite !Z.mod_pow2_bits_high by lia. reflexivity.
Qed.
Lemma lxor_double a b : Z.lxor (2 * a) (2 * b) = 2 * Z.lxor a b.
Proof. rewrite !(Z.mul_comm 2), <- !(Z.shiftl_mul_pow2 _ 1) by lia. symmetry. apply Z.shiftl_lxor. Qed.
Lemma lxor_swap a b c d : Z.lxor (Z.lxor a b) (Z.lxor c d) = Z.lxor (Z.lxor a c) (Z.lxor b d).
Proof. apply Z.bits_inj'. intros i Hi. rewrite !Z.lxor_spec. destruct (Z.testbit a i), (Z.testbit b i), (Z.testbit c i), (Z.testbit d i); reflexivity. Qed.
Lemma lxor_cancel a b : Z.lxor a (Z.lxor a b) = b.
Proof. rewrite <- Z.lxor_assoc, Z.lxor_nilpotent. apply Z.lxor_0_l. Qed.
Lemma lxor_eq_iff a b c : Z.lxor a b = c <-> a = Z.lxor c b.
Proof.
  split; [intros <-; rewrite Z.lxor_assoc, Z.lxor_nilpotent, Z.lxor_0_r|intros ->; rewrite Z.lxor_assoc, Z.lxor_nilpotent, Z.lxor_0_r]; reflexivity.
Qed.

Lemma width_lxor w a b : 0 <= w -> in_width w a -> in_width w b -> in_width w (Z.lxor a b).
Proof.
  unfold in_width. intros Hw Ha Hb. split; [apply Z.lxor_nonneg; lia|].
  rewrite <- (Z.mod_small a (2 ^ w)), <- (Z.mod_small b (2 ^ w)), <- lxor_mod_pow2 by lia. apply Z.mod_pos_bound. lia.
Qed.
Lemma width_shiftl w n a : 0 <= w -> 0 <= n -> in_width w a -> in_width (w + n) (Z.shiftl a n).
Proof.
  unfold in_width. intros Hw Hn Ha. rewrite Z.shiftl_mul_pow2, Z.pow_add_r by lia.
  pose proof (Z.pow_pos_nonneg 2 n). nia.
Qed.
Lemma width_shiftr w n a : 0 <= n -> 0 <= w -> in_width (w + n) a -> in_width w (Z.shiftr a n).
Proof.
  unfold in_width. intros Hn Hw Ha. rewrite Z.shiftr_div_pow2 by lia. rewrite Z.pow_add_r in Ha by lia.
  pose proof (Z.pow_pos_nonneg 2 n). split; [apply Z.div_pos; lia|]. apply Z.div_lt_upper_bound; nia.
Qed.
Lemma width_mono w w' a : 0 <= w <= w' -> in_width w a -> in_width w' a.
Proof. unfold in_width. intros Hw Ha. pose proof (Z.pow_le_mono_r 2 w w'). lia. Qed.
Lemma width_0 w : 0 <= w -> in_width w 0.
Proof. unfold in_width. intros. pose proof (Z.pow_pos_nonneg 2 w). lia. Qed.

(** A word is the sum of its low part and its high part. *)
Lemma split_low_high a n : 0 <= n -> a = Z.lxor (a mod 2 ^ n) (Z.shiftl (Z.shiftr a n) n).
Proof.
  intros Hn. apply Z.bits_inj'. intros i Hi. rewrite Z.lxor_spec, Z.shiftl_spec by lia. destruct (Z.ltb_spec i n).
  - rewrite Z.mod_pow2_bits_low, (Z.testbit_neg_r _ (i - n)) by lia. rewrite xorb_false_r. reflexivity.
  - rewrite Z.mod_pow2_bits_high, Z.shiftr_spec by lia. rewrite Z.sub_add. destruct (Z.testbit a i); reflexivity.
Qed.
(** What a left shift in a word of [w] bits loses is what a right shift finds. *)
Lemma split_shiftl g w i :
  0 <= i <= w -> Z.lxor (Z.shiftl g i mod 2 ^ w) (Z.shiftl (Z.shiftr g (w - i)) w) = Z.shiftl g i.
Proof.
  intros Hi. rewrite (split_low_high (Z.shiftl g i) w) at 2 by lia. f_equal. f_equal.
  apply Z.bits_inj'. intros j Hj. rewrite !Z.shiftr_spec, Z.shiftl_spec by lia. f_equal. lia.
Qed.

(** Equations between sums. *)
Ltac lxor_solve :=
  apply Z.bits_inj'; intros ?i _; rewrite !Z.lxor_spec;
  repeat match goal with |- context [Z.testbit ?t ?i] => generalize (Z.testbit t i); intros [] end; reflexivity.

(** Induction on the bits of a natural number. *)
Lemma bits_ind (P : Z -> Prop) :
  P 0 -> (forall a (b : bool), 0 <= a -> P a -> P (2 * a + Z.b2z b)) -> forall a, 0 <= a -> P a.
Proof.
  intros H0 HS a Ha. destruct a as [|p|p]; [exact H0| |lia]. clear Ha.
  induction p as [p IH|p IH|].
  - exact (HS (Z.pos p) true ltac:(lia) IH).
  - exact (HS (Z.pos p) false ltac:(lia) IH).
  - exact (HS 0 true ltac:(lia) H0).
Qed.
Lemma bits_cases a : 0 <= a -> exists a' (b : bool), 0 <= a' /\ a = 2 * a' + Z.b2z b.
Proof. intros Ha. exists (a / 2), (Z.odd a). split; [apply Z.div_pos; lia|]. rewrite <- Z.div2_div. apply Z.div2_odd. Qed.

Lemma testbit_bits_0 a (b : bool) : Z.testbit (2 * a + Z.b2z b) 0 = b.
Proof. rewrite Z.add_comm. apply Z.add_b2z_double_bit0. Qed.
Lemma testbit_bits_succ a (b : bool) n : 0 <= n -> Z.testbit (2 * a + Z.b2z b) (Z.succ n) = Z.testbit a n.
Proof. intros Hn. destruct b; cbn [Z.b2z]; rewrite ?Z.add_0_r; [apply Z.testbit_odd_succ|apply Z.testbit_even_succ]; exact Hn. Qed.

Lemma lxor_bits a a' (b b' : bool) :
  Z.lxor (2 * a + Z.b2z b) (2 * a' + Z.b2z b') = 2 * Z.lxor a a' + Z.b2z (xorb b b').
Proof.
  apply Z.bits_inj'. intros i Hi. rewrite Z.lxor_spec. destruct (Z.eq_dec i 0) as [->|Hne].
  - rewrite !testbit_bits_0. reflexivity.
  - replace i with (Z.succ (i - 1)) by lia. rewrite !testbit_bits_succ, Z.lxor_spec by lia. reflexivity.
Qed.

(** ** Masks

    The constant-time comparison of HQC: all ones if [x] is [i], and zero if not. *)

Definition eq_mask (w x i : Z) : Z :=
  let tmp2 := (x - i) mod 2 ^ w in
  (- (1 - Z.shiftr (Z.lor tmp2 ((- tmp2) mod 2 ^ w)) (w - 1))) mod 2 ^ w.

Lemma eq_mask_spec w x i :
  1 < w -> 0 <= x < 2 ^ (w - 1) -> 0 <= i < 2 ^ (w - 1) -> eq_mask w x i = if x =? i then 2 ^ w - 1 else 0.
Proof.
  intros Hw Hx Hi. unfold eq_mask. cbv zeta. assert (Hp : 2 ^ w = 2 * 2 ^ (w - 1)) by (rewrite <- Z.pow_succ_r by lia; f_equal; lia).
  pose proof (Z.pow_pos_nonneg 2 (w - 1)) as Hpos. destruct (Z.eqb_spec x i) as [->|Hne].
  - rewrite Z.sub_diag, Zmod_0_l, Z.opp_0, Zmod_0_l, Z.lor_0_l, Z.shiftr_0_l.
    replace (- (1 - 0)) with (2 ^ w - 1 + (-1) * 2 ^ w) by lia. rewrite Z_mod_plus_full. apply Z.mod_small. lia.
  - set (y := (x - i) mod 2 ^ w). assert (Hy : 0 < y < 2 ^ w).
    { unfold y. pose proof (Z.mod_pos_bound (x - i) (2 ^ w) ltac:(lia)). destruct (Z.eq_dec ((x - i) mod 2 ^ w) 0) as [E|]; [|lia].
      destruct (Z.lt_ge_cases x i).
      - rewrite <- (Z_mod_plus_full _ 1), Z.mod_small in E by lia. lia.
      - rewrite Z.mod_small in E by lia. lia. }
    replace ((- y) mod 2 ^ w) with (2 ^ w - y) by (rewrite <- (Z_mod_plus_full (- y) 1), Z.mod_small by lia; lia).
    rewrite Z.shiftr_lor, !Z.shiftr_div_pow2 by lia. set (p := 2 ^ (w - 1)) in *.
    assert (Hdiv : forall z, 0 <= z < 2 * p -> z / p = if z <? p then 0 else 1).
    { intros z Hz. destruct (Z.ltb_spec z p); [apply Z.div_small; lia|]. symmetry. apply (Z.div_unique z p 1 (z - p)); lia. }
    rewrite !Hdiv by lia. destruct (Z.ltb_spec y p), (Z.ltb_spec (2 ^ w - y) p); try reflexivity. lia.
Qed.

Lemma land_mask w x : 0 <= w -> in_width w x -> Z.land x (2 ^ w - 1) = x.
Proof.
  intros Hw Hx. replace (2 ^ w - 1) with (Z.ones w) by (rewrite Z.ones_equiv; lia). rewrite Z.land_ones by exact Hw. apply Z.mod_small, Hx.
Qed.

(** ** The product *)

Fixpoint pclmul (a : positive) (b : Z) : Z :=
  match a with
  | xH => b
  | xO a => 2 * pclmul a b
  | xI a => Z.lxor b (2 * pclmul a b)
  end.
Definition clmul (a b : Z) : Z := match a with Zpos p => pclmul p b | _ => 0 end.

Lemma clmul_bits a (x : bool) b : 0 <= a -> clmul (2 * a + Z.b2z x) b = Z.lxor (if x then b else 0) (2 * clmul a b).
Proof.
  intros Ha. destruct a as [|p|p]; [|destruct x; cbn; rewrite ?Z.lxor_0_l; reflexivity|lia].
  destruct x; cbn; rewrite ?Z.lxor_0_r; reflexivity.
Qed.
Lemma clmul_0_l b : clmul 0 b = 0.
Proof. reflexivity. Qed.
Lemma clmul_1_l b : clmul 1 b = b.
Proof. reflexivity. Qed.

Lemma clmul_lxor_l a a' b : 0 <= a -> 0 <= a' -> clmul (Z.lxor a a') b = Z.lxor (clmul a b) (clmul a' b).
Proof.
  intros Ha. revert a'. revert a Ha. refine (bits_ind _ _ _).
  - intros a' _. rewrite !Z.lxor_0_l. reflexivity.
  - intros a x Ha IH a'' Ha''. destruct (bits_cases a'' Ha'') as (a' & x' & Ha' & ->).
    rewrite lxor_bits, !clmul_bits by (try apply Z.lxor_nonneg; lia). rewrite (IH a' Ha'), lxor_swap, lxor_double. f_equal.
    destruct x, x'; cbn; rewrite ?Z.lxor_0_r, ?Z.lxor_0_l, ?Z.lxor_nilpotent; reflexivity.
Qed.
Lemma clmul_lxor_r a b b' : 0 <= a -> clmul a (Z.lxor b b') = Z.lxor (clmul a b) (clmul a b').
Proof.
  revert a. refine (bits_ind _ _ _).
  - reflexivity.
  - intros a x Ha IH. rewrite !clmul_bits, IH, lxor_swap, lxor_double by exact Ha.
    f_equal. destruct x; reflexivity.
Qed.
Lemma clmul_double_r a b : 0 <= a -> clmul a (2 * b) = 2 * clmul a b.
Proof.
  revert a. refine (bits_ind _ _ _).
  - reflexivity.
  - intros a x Ha IH. rewrite !clmul_bits, IH, <- lxor_double by exact Ha. f_equal. destruct x; reflexivity.
Qed.
Lemma clmul_0_r a : 0 <= a -> clmul a 0 = 0.
Proof.
  revert a. refine (bits_ind _ _ _); [reflexivity|]. intros a x Ha IH. rewrite clmul_bits, IH by exact Ha.
  destruct x; reflexivity.
Qed.
Lemma clmul_nonneg a b : 0 <= a -> 0 <= b -> 0 <= clmul a b.
Proof.
  intros Ha Hb. revert a Ha. refine (bits_ind _ _ _); [reflexivity|]. intros a x Ha IH. rewrite clmul_bits by exact Ha.
  apply Z.lxor_nonneg. destruct x; lia.
Qed.
Lemma clmul_comm a b : 0 <= a -> 0 <= b -> clmul a b = clmul b a.
Proof.
  intros Ha Hb. revert a Ha. refine (bits_ind _ _ _); [symmetry; apply clmul_0_r; exact Hb|]. intros a x Ha IH.
  assert (E : 2 * a + Z.b2z x = Z.lxor (if x then 1 else 0) (2 * a)).
  { replace (if x then 1 else 0) with (2 * 0 + Z.b2z x) by (destruct x; reflexivity). replace (2 * a) with (2 * a + Z.b2z false) at 2 by (cbn; lia).
    rewrite lxor_bits, Z.lxor_0_l, xorb_false_r. reflexivity. }
  rewrite clmul_bits, E, clmul_lxor_r, clmul_double_r, IH by assumption. f_equal.
  destruct x; [|symmetry; apply clmul_0_r; exact Hb]. clear E IH. revert b Hb. refine (bits_ind _ _ _); [reflexivity|].
  intros b y Hb IH. rewrite clmul_bits, <- IH by exact Hb. replace (if y then 1 else 0) with (2 * 0 + Z.b2z y) by (destruct y; reflexivity).
  replace (2 * b) with (2 * b + Z.b2z false) at 2 by (cbn; lia). rewrite lxor_bits, Z.lxor_0_l, xorb_false_r. reflexivity.
Qed.
Lemma clmul_assoc a b c : 0 <= a -> 0 <= b -> 0 <= c -> clmul a (clmul b c) = clmul (clmul a b) c.
Proof.
  intros Ha Hb Hc. revert a Ha. refine (bits_ind _ _ _); [reflexivity|]. intros a x Ha IH.
  pose proof (clmul_nonneg a b Ha Hb). rewrite !clmul_bits, clmul_lxor_l by (try destruct x; lia).
  replace (2 * clmul a b) with (2 * clmul a b + Z.b2z false) by (cbn; lia). rewrite clmul_bits, IH, Z.lxor_0_l by lia.
  destruct x; reflexivity.
Qed.

Lemma shiftl_succ a n : 0 <= n -> Z.shiftl a (Z.succ n) = 2 * Z.shiftl a n.
Proof. intros Hn. rewrite !Z.shiftl_mul_pow2, Z.pow_succ_r by lia. ring. Qed.
Lemma clmul_shiftl_l a b n : 0 <= a -> 0 <= n -> clmul (Z.shiftl a n) b = Z.shiftl (clmul a b) n.
Proof.
  intros Ha Hn. revert n Hn. refine (natlike_ind _ _ _); [rewrite !Z.shiftl_0_r; reflexivity|]. intros n Hn IH.
  rewrite !shiftl_succ, <- IH by lia. replace (2 * Z.shiftl a n) with (2 * Z.shiftl a n + Z.b2z false) by (cbn; lia).
  rewrite clmul_bits by (apply Z.shiftl_nonneg; exact Ha). apply Z.lxor_0_l.
Qed.
Lemma clmul_shiftl_r a b n : 0 <= a -> 0 <= n -> clmul a (Z.shiftl b n) = Z.shiftl (clmul a b) n.
Proof.
  intros Ha Hn. revert n Hn. refine (natlike_ind _ _ _); [rewrite !Z.shiftl_0_r; reflexivity|]. intros n Hn IH.
  rewrite !shiftl_succ, <- IH by lia. apply clmul_double_r, Ha.
Qed.

(** The degree of a product. *)
Lemma clmul_width m n a b : 0 <= m -> 0 <= n -> in_width (m + 1) a -> in_width n b -> in_width (m + n) (clmul a b).
Proof.
  intros Hm Hn Ha Hb. assert (Ha0 : 0 <= a) by apply Ha. revert m Hm Ha. revert a Ha0. refine (bits_ind _ _ _).
  - intros m Hm _. apply width_0. lia.
  - intros a x Ha IH m Hm Hw. rewrite clmul_bits by exact Ha. apply width_lxor; [lia| |].
    + destruct x; [apply (width_mono n); [lia|exact Hb]|apply width_0; lia].
    + destruct (Z.eq_dec m 0) as [->|Hne].
      * assert (a = 0) as -> by (unfold in_width in Hw; destruct x; cbn in Hw; lia). apply width_0. lia.
      * replace (2 * clmul a b) with (Z.shiftl (clmul a b) 1) by (rewrite Z.shiftl_mul_pow2; lia).
        replace (m + n) with (m - 1 + n + 1) by lia. apply width_shiftl; [lia|lia|]. apply IH; [lia|].
        unfold in_width in *. replace (m + 1) with (m - 1 + 1 + 1) in Hw by lia. rewrite Z.pow_add_r in Hw by lia. destruct x; cbn in Hw; lia.
Qed.

(** ** Remainders *)

(** [x] and [y] differ by a multiple of [g]. *)
Definition congruent (g x y : Z) : Prop := exists q, 0 <= q /\ Z.lxor x y = clmul q g.

(** [r] is the remainder of [x] by [g], of degree [n]. *)
Definition remainder (g n x r : Z) : Prop := in_width n r /\ congruent g x r.

Lemma congruent_refl g x : congruent g x x.
Proof. exists 0. split; [lia|]. apply Z.lxor_nilpotent. Qed.
Lemma congruent_sym g x y : congruent g x y -> congruent g y x.
Proof. intros (q & Hq & E). exists q. rewrite Z.lxor_comm. auto. Qed.
Lemma congruent_trans g x y z : congruent g x y -> congruent g y z -> congruent g x z.
Proof.
  intros (q & Hq & E) (q' & Hq' & E'). exists (Z.lxor q q'). split; [apply Z.lxor_nonneg; lia|].
  rewrite clmul_lxor_l, <- E, <- E' by assumption. rewrite Z.lxor_assoc, lxor_cancel. reflexivity.
Qed.
Lemma congruent_step g x q : 0 <= q -> congruent g x (Z.lxor x (clmul q g)).
Proof. intros Hq. exists q. split; [exact Hq|]. apply lxor_cancel. Qed.
Lemma congruent_lxor g x y x' y' : congruent g x x' -> congruent g y y' -> congruent g (Z.lxor x y) (Z.lxor x' y').
Proof.
  intros (q & Hq & E) (q' & Hq' & E'). exists (Z.lxor q q'). split; [apply Z.lxor_nonneg; lia|].
  rewrite clmul_lxor_l, <- E, <- E' by assumption. apply lxor_swap.
Qed.
Lemma congruent_clmul g a x y : 0 <= a -> 0 <= g -> congruent g x y -> congruent g (clmul a x) (clmul a y).
Proof.
  intros Ha Hg (q & Hq & E). exists (clmul a q). split; [apply clmul_nonneg; lia|].
  rewrite <- clmul_lxor_r, E, clmul_assoc by assumption. reflexivity.
Qed.

(** The leading bit of a product. *)
Lemma clmul_lead n a b : 0 <= n -> 2 ^ n <= b < 2 ^ (n + 1) -> 0 < a -> 2 ^ n <= clmul a b.
Proof.
  intros Hn Hb Ha. assert (Ha0 : 0 <= a) by lia. revert a Ha0 Ha. refine (bits_ind _ _ _); [lia|]. intros a x Ha IH Hpos.
  rewrite clmul_bits by exact Ha. destruct (Z.eq_dec a 0) as [->|Hne].
  { destruct x; cbn in *; [rewrite Z.lxor_0_r|]; lia. }
  specialize (IH ltac:(lia)). set (c := clmul a b) in *. set (d := if x then b else 0).
  assert (Hd : 0 <= d < 2 ^ (n + 1)) by (unfold d; pose proof (Z.pow_pos_nonneg 2 n); destruct x; lia).
  assert (Hsh : Z.shiftr (Z.lxor d (2 * c)) (n + 1) = Z.shiftr (2 * c) (n + 1)).
  { rewrite Z.shiftr_lxor, (Z.shiftr_div_pow2 d), Z.div_small, Z.lxor_0_l by lia. reflexivity. }
  rewrite !Z.shiftr_div_pow2 in Hsh by lia. rewrite Z.pow_add_r in * by lia.
  assert (1 <= 2 * c / (2 ^ n * 2 ^ 1)) by (apply Z.div_le_lower_bound; lia).
  rewrite <- Hsh in *. pose proof (Z.div_lt_upper_bound (Z.lxor d (2 * c)) (2 ^ n * 2 ^ 1) 1).
  destruct (Z.lt_ge_cases (Z.lxor d (2 * c)) (2 ^ n * 2 ^ 1)) as [Hlt|Hge]; lia.
Qed.

(** Remainders are unique. *)
Lemma remainder_unique g n x r r' :
  0 <= n -> 2 ^ n <= g < 2 ^ (n + 1) -> remainder g n x r -> remainder g n x r' -> r = r'.
Proof.
  intros Hn Hg [Hr Hc] [Hr' Hc']. destruct (congruent_trans _ _ _ _ (congruent_sym _ _ _ Hc) Hc') as (q & Hq & E).
  pose proof (width_lxor n r r' Hn Hr Hr') as Hw. rewrite E in Hw.
  assert (q = 0) as ->.
  { destruct (Z.eq_dec q 0) as [|Hne]; [assumption|]. pose proof (clmul_lead n q g Hn Hg ltac:(lia)). unfold in_width in Hw. lia. }
  apply Z.lxor_eq in E. exact E.
Qed.

(** ** Multiplication by windows

    The multiplications of HQC take [s] bits of [a] at a time, choose the multiple of
    [b] in a table by constant-time comparison, and add it to a result in two words
    of [w] bits, [l] and [h]; the top bits of [b] follow one by one. *)

(** The table entry that the masks choose. *)
Definition table_select (w mw t : Z) (g : Z) (u : list Z) (k : Z) : Z :=
  foldl (fun g '(i, ui) => Z.lxor g (Z.land ui (eq_mask mw t i)) mod 2 ^ w) g (zip (seqZ k (Z.of_nat (length u))) u).

Lemma table_select_spec w mw t u : 0 <= w <= mw -> 1 < mw -> 0 <= t < 2 ^ (mw - 1) -> Forall (in_width w) u ->
  forall g k, in_width w g -> 0 <= k -> k + Z.of_nat (length u) <= 2 ^ (mw - 1) ->
  table_select w mw t g u k =
    if (k <=? t) && (t <? k + Z.of_nat (length u)) then Z.lxor g (default 0 (u !! Z.to_nat (t - k))) else g.
Proof.
  intros Hw Hmw Ht Hu. induction Hu as [|x u Hx Hu IH]; intros g k Hg Hk Hlen; unfold table_select; cbn [length].
  { rewrite Z.add_0_r. destruct (Z.leb_spec k t), (Z.ltb_spec t k); reflexivity || lia. }
  rewrite Nat2Z.inj_succ, seqZ_cons by lia. cbn [zip zip_with foldl]. rewrite Z.pred_succ. fold (table_select w mw t).
  assert (E : Z.lxor g (Z.land x (eq_mask mw t k)) mod 2 ^ w = if t =? k then Z.lxor g x else g).
  { rewrite eq_mask_spec by (cbn [length] in Hlen; lia). destruct (t =? k).
    - rewrite (land_mask mw) by (try apply (width_mono w); try lia; exact Hx). apply Z.mod_small, width_lxor; [lia|exact Hg|exact Hx].
    - rewrite Z.land_0_r, Z.lxor_0_r. apply Z.mod_small, Hg. }
  rewrite E. cbn [length] in Hlen. fold (table_select w mw t (if t =? k then Z.lxor g x else g) u (Z.succ k)).
  rewrite IH; [|destruct (t =? k); [apply width_lxor; [lia|assumption..]|assumption]|lia|lia].
  destruct (Z.eqb_spec t k) as [->|Hne].
  - rewrite Z.sub_diag. destruct (Z.leb_spec (Z.succ k) k); [lia|]. cbn [andb].
    destruct (Z.leb_spec k k), (Z.ltb_spec k (k + Z.succ (Z.of_nat (length u)))); try lia. reflexivity.
  - destruct (Z.leb_spec (Z.succ k) t), (Z.leb_spec k t); cbn [andb]; try lia.
    destruct (Z.ltb_spec t (Z.succ k + Z.of_nat (length u))), (Z.ltb_spec t (k + Z.succ (Z.of_nat (length u)))); try lia.
    replace (Z.to_nat (t - k)) with (S (Z.to_nat (t - Z.succ k))) by lia. reflexivity.
Qed.

(** The two words hold the polynomial [p]; [l] may have bits that are not of its word. *)
Definition wide (w l h p : Z) : Prop := in_width w h /\ Z.lxor (l mod 2 ^ w) (Z.shiftl h w) = p.

Lemma wide_add w l h p i g :
  0 <= i <= w -> in_width w g -> wide w l h p ->
  wide w (Z.lxor l (Z.shiftl g i)) (Z.lxor h (Z.shiftr g (w - i))) (Z.lxor p (Z.shiftl g i)).
Proof.
  intros Hi Hg [Hh <-]. split.
  - apply width_lxor; [lia|exact Hh|]. apply (width_shiftr w (w - i)); [lia|lia|]. apply (width_mono w); [lia|exact Hg].
  - rewrite lxor_mod_pow2, Z.shiftl_lxor, lxor_swap, split_shiftl by lia. reflexivity.
Qed.

Lemma low_bits_add a i s : 0 <= i -> 0 <= s ->
  a mod 2 ^ (i + s) = Z.lxor (a mod 2 ^ i) (Z.shiftl (Z.shiftr a i mod 2 ^ s) i).
Proof.
  intros Hi Hs. apply Z.bits_inj'. intros j Hj. rewrite Z.lxor_spec, Z.shiftl_spec by lia.
  destruct (Z.ltb_spec j i); [|destruct (Z.ltb_spec j (i + s))].
  - rewrite !Z.mod_pow2_bits_low, (Z.testbit_neg_r _ (j - i)), xorb_false_r by lia. reflexivity.
  - rewrite (Z.mod_pow2_bits_low a), (Z.mod_pow2_bits_high a i), (Z.mod_pow2_bits_low (Z.shiftr a i)), Z.shiftr_spec by lia.
    rewrite Z.sub_add. destruct (Z.testbit a j); reflexivity.
  - rewrite !Z.mod_pow2_bits_high by lia. reflexivity.
Qed.

Lemma mod_pow2_nonneg a n : 0 <= n -> 0 <= a mod 2 ^ n.
Proof. intros Hn. apply Z.mod_pos_bound. lia. Qed.

(** A window of [a]. *)
Lemma wide_window w l h a u i s :
  0 <= i <= w -> 0 <= s -> in_width w (clmul (Z.shiftr a i mod 2 ^ s) u) -> wide w l h (clmul (a mod 2 ^ i) u) ->
  let g := clmul (Z.shiftr a i mod 2 ^ s) u in
  wide w (Z.lxor l (Z.shiftl g i)) (Z.lxor h (Z.shiftr g (w - i))) (clmul (a mod 2 ^ (i + s)) u).
Proof.
  intros Hi Hs Hg Hl g. pose proof (wide_add w l h _ i g Hi Hg Hl) as Hw. unfold g in Hw at 3.
  pose proof (mod_pow2_nonneg a i ltac:(lia)). pose proof (mod_pow2_nonneg (Z.shiftr a i) s Hs).
  rewrite <- clmul_shiftl_l, <- clmul_lxor_l, <- low_bits_add in Hw by (try apply Z.shiftl_nonneg; lia). exact Hw.
Qed.

(** A bit of [b]. *)
Lemma wide_bit w l h a b k :
  0 <= k <= w -> in_width w a -> wide w l h (clmul a (b mod 2 ^ k)) ->
  let x := Z.land (Z.shiftr b k) 1 in
  wide w (Z.lxor l (if x =? 1 then Z.shiftl a k else 0)) (Z.lxor h (if x =? 1 then Z.shiftr a (w - k) else 0)) (clmul a (b mod 2 ^ (k + 1))).
Proof.
  intros Hk Ha Hl x. assert (Ha0 : 0 <= a) by apply Ha.
  rewrite low_bits_add, clmul_lxor_r, clmul_shiftl_r by lia. change (2 ^ 1) with 2.
  assert (Ex : Z.shiftr b k mod 2 = x) by (unfold x; symmetry; apply (Z.land_ones _ 1); lia). rewrite Ex.
  pose proof (Z.mod_pos_bound (Z.shiftr b k) 2 ltac:(lia)). destruct (Z.eqb_spec x 1) as [->|Hne].
  - rewrite (clmul_comm a 1), clmul_1_l by lia. apply wide_add; assumption.
  - replace x with 0 by lia. rewrite clmul_0_r, Z.shiftl_0_l, !Z.lxor_0_r by lia. exact Hl.
Qed.

Lemma wide_trunc w w' l h p : 0 <= w <= w' -> wide w l h p -> wide w (l mod 2 ^ w') (h mod 2 ^ w') p.
Proof.
  intros Hw [Hh <-]. rewrite (Z.mod_small h) by (apply (width_mono w w'); assumption). split; [exact Hh|]. f_equal.
  apply Z.bits_inj'. intros i Hi. destruct (Z.ltb_spec i w).
  - rewrite !Z.mod_pow2_bits_low by lia. reflexivity.
  - rewrite !Z.mod_pow2_bits_high by lia. reflexivity.
Qed.

(** The mask of a bit. *)
Lemma land_bit_mask w x b : 0 <= w -> in_width w x -> b = 0 \/ b = 1 -> Z.land x ((- b) mod 2 ^ w) = if b =? 1 then x else 0.
Proof.
  intros Hw Hx [-> | ->].
  - rewrite Zmod_0_l. apply Z.land_0_r.
  - rewrite <- (Z_mod_plus_full _ 1), Z.mod_small by (pose proof (Z.pow_pos_nonneg 2 w); lia).
    replace (- (1) + 1 * 2 ^ w) with (2 ^ w - 1) by lia. apply land_mask; assumption.
Qed.
