(* ===== verification/Words.v ===== *)
(** * Memory seen in cells of several widths

    The HQC sources keep vectors in arrays of 64-bit words and read and write the
    same memory as bytes ([memcpy], casts to [uint8_t *]) and as 32-bit cells (the
    [codeword] union), little end first.  [pack] is the number a list of cells of
    [k] bits stands for, whatever [k], and the views of an array are the lists of
    cells that stand for the same number. *)

From S2P Require Import Prelude Carryless.

(** ** Loops *)

(** Composition with a result at hand, for steps that conversion must not evaluate. *)
Lemma some_bind {A B} (x : A) (f : A -> option B) : (Some x ≫= f) = f x.
Proof. reflexivity. Qed.

(** A loop over an index range with an invariant that follows the index. *)
Lemma ofor_upto_ind {S} (P : Z -> S -> Prop) n (body : Z -> S -> option S) s : 0 <= n -> P 0 s ->
  (forall i s, 0 <= i < n -> P i s -> exists s', body i s = Some s' /\ P (i + 1) s') ->
  exists s', ofor (upto n) body s = Some s' /\ P n s'.
Proof.
  intros Hn H0 Hstep. enough (H : forall m, 0 <= m -> m <= n -> exists s', ofor (upto m) body s = Some s' /\ P m s') by (apply H; lia).
  apply (range_ind (fun m => m <= n -> _)); [intros _; exists s; auto|]. intros m Hm IH Hle. destruct (IH ltac:(lia)) as (s1 & E1 & H1).
  rewrite upto_snoc, ofor_app, E1 by lia. destruct (Hstep m s1 ltac:(lia) H1) as (s2 & E2 & H2). exists s2. split; [|exact H2].
  cbn [mbind option_bind ofor]. rewrite E2. reflexivity.
Qed.

(** The same for a range that starts anywhere. *)
Lemma ofor_seqZ_ind {S} (P : Z -> S -> Prop) a n (body : Z -> S -> option S) s : 0 <= n -> P a s ->
  (forall i s, a <= i < a + n -> P i s -> exists s', body i s = Some s' /\ P (i + 1) s') ->
  exists s', ofor (seqZ a n) body s = Some s' /\ P (a + n) s'.
Proof.
  intros Hn H0 Hstep. assert (E : ofor (seqZ a n) body s = ofor (upto n) (fun i => body (a + i)) s).
  { unfold upto. replace (seqZ a n) with (Z.add a <$> seqZ 0 n) by (rewrite fmap_add_seqZ; f_equal; lia). generalize (seqZ 0 n) s.
    induction l as [|i l IH]; intros s0; [reflexivity|]. cbn [fmap list_fmap ofor]. destruct (body (a + i) s0); [apply IH|reflexivity]. }
  rewrite E. apply (ofor_upto_ind (fun i => P (a + i))); [exact Hn|rewrite Z.add_0_r; exact H0|].
  intros i s0 Hi Hs. rewrite Z.add_assoc. apply Hstep; [lia|exact Hs].
Qed.

(** The same for a range that is run through from its end. *)
Lemma ofor_rev_ind {S} (P : Z -> S -> Prop) a n (body : Z -> S -> option S) s : 0 <= n -> P (a + n) s ->
  (forall i s, a <= i < a + n -> P (i + 1) s -> exists s', body i s = Some s' /\ P i s') ->
  exists s', ofor (rev (seqZ a n)) body s = Some s' /\ P a s'.
Proof.
  intros Hn. revert s. pattern n. revert n Hn. apply range_ind.
  - intros s H0 _. exists s. split; [reflexivity|]. rewrite Z.add_0_r in H0. exact H0.
  - intros n Hn IH s H0 Hstep. assert (E1 : seqZ (a + n) 1 = [a + n]) by (rewrite seqZ_cons by lia; reflexivity).
    rewrite seqZ_app, E1, rev_app_distr by lia. cbn [rev app ofor].
    destruct (Hstep (a + n) s ltac:(lia)) as (s1 & -> & H1); [rewrite <- Z.add_assoc; exact H0|]. rewrite some_bind. apply IH; [exact H1|].
    intros i s2 Hi. apply Hstep. lia.
Qed.

(** ** The number a list of cells stands for *)

Fixpoint pack (k : Z) (l : list Z) : Z := match l with [] => 0 | w :: l => Z.lxor w (Z.shiftl (pack k l) k) end.

Lemma pack_app k l1 l2 : 0 <= k -> pack k (l1 ++ l2) = Z.lxor (pack k l1) (Z.shiftl (pack k l2) (k * Z.of_nat (length l1))).
Proof.
  intros Hk. induction l1 as [|w l1 IH]; [rewrite Z.mul_0_r, Z.shiftl_0_r; reflexivity|].
  cbn [length pack app]. rewrite IH, Z.shiftl_lxor, Z.shiftl_shiftl, <- Z.lxor_assoc by lia. do 2 f_equal. lia.
Qed.

Lemma pack_width k l : 0 <= k -> Forall (in_width k) l -> in_width (k * Z.of_nat (length l)) (pack k l).
Proof.
  intros Hk. induction 1 as [|w l Hw Hl IH]; [apply width_0; lia|]. cbn [length pack]. rewrite Nat2Z.inj_succ.
  apply width_lxor; [nia|apply (width_mono k); [nia|exact Hw]|].
  replace (k * Z.succ (Z.of_nat (length l))) with (k * Z.of_nat (length l) + k) by lia. apply width_shiftl; [nia|lia|exact IH].
Qed.

Lemma width_testbit k w n : 0 <= k <= n -> in_width k w -> Z.testbit w n = false.
Proof. intros Hk Hw. rewrite <- (Z.mod_small w (2 ^ k)) by exact Hw. apply Z.mod_pow2_bits_high. lia. Qed.

Lemma pack_testbit k l n : 0 < k -> Forall (in_width k) l -> 0 <= n ->
  Z.testbit (pack k l) n = Z.testbit (default 0 (l !! Z.to_nat (n / k))) (n mod k).
Proof.
  intros Hk Hl. revert n. induction Hl as [|w l Hw Hl IH]; intros n Hn; [cbn; rewrite !Z.testbit_0_l; reflexivity|].
  cbn [pack]. rewrite Z.lxor_spec. destruct (Z.ltb_spec n k).
  - rewrite Z.div_small, Z.mod_small, Z.shiftl_spec_low by lia. rewrite xorb_false_r. reflexivity.
  - assert (Ed : n / k = (n - k) / k + 1) by (rewrite <- Z.div_add by lia; f_equal; lia).
    assert (Em : n mod k = (n - k) mod k) by (rewrite <- (Z.mod_add (n - k) 1 k) by lia; f_equal; lia).
    rewrite (width_testbit k w) by (assumption || lia). rewrite Z.shiftl_spec, IH, Ed, Em by lia.
    rewrite Z2Nat.inj_add by (try apply Z.div_pos; lia). rewrite Nat.add_1_r. reflexivity.
Qed.

Lemma land_width w a b : 0 <= w -> in_width w a -> in_width w b -> in_width w (Z.land a b).
Proof.
  intros Hw Ha Hb. rewrite <- (Z.mod_small (Z.land a b) (2 ^ w)); [apply in_width_mod, Hw|].
  assert (E : Z.land a b mod 2 ^ w = Z.land a b).
  { apply Z.bits_inj'. intros i Hi. destruct (Z.ltb_spec i w); [rewrite Z.mod_pow2_bits_low by lia; reflexivity|].
    rewrite Z.mod_pow2_bits_high, Z.land_spec, (width_testbit w a) by (assumption || lia). reflexivity. }
  rewrite <- E. apply Z.mod_pos_bound. lia.
Qed.

Lemma lor_width w a b : 0 <= w -> in_width w a -> in_width w b -> in_width w (Z.lor a b).
Proof.
  intros Hw Ha Hb. assert (E : Z.lor a b mod 2 ^ w = Z.lor a b).
  { apply Z.bits_inj'. intros i Hi. destruct (Z.ltb_spec i w); [rewrite Z.mod_pow2_bits_low by lia; reflexivity|].
    rewrite Z.mod_pow2_bits_high, Z.lor_spec, (width_testbit w a), (width_testbit w b) by (assumption || lia). reflexivity. }
  rewrite <- E. apply in_width_mod, Hw.
Qed.

Lemma lor_disjoint a b n : 0 <= n -> in_width n a -> Z.lor a (Z.shiftl b n) = Z.lxor a (Z.shiftl b n).
Proof.
  intros Hn Ha. symmetry. apply Z.lxor_lor. apply Z.bits_inj'. intros i Hi. rewrite Z.land_spec, Z.testbit_0_l.
  destruct (Z.ltb_spec i n); [rewrite Z.shiftl_spec_low by lia; apply andb_false_r|].
  rewrite (width_testbit n a) by (assumption || lia). reflexivity.
Qed.

Lemma pack_cons_inj k w l w' l' : 0 <= k -> in_width k w -> in_width k w' ->
  Z.lxor w (Z.shiftl l k) = Z.lxor w' (Z.shiftl l' k) -> w = w' /\ l = l'.
Proof.
  intros Hk Hw Hw' E. assert (Hlow : forall v t, in_width k v -> Z.lxor v (Z.shiftl t k) mod 2 ^ k = v).
  { intros v t Hv. rewrite lxor_mod_pow2, Z.shiftl_mul_pow2, Z.mod_mul, Z.lxor_0_r by lia. apply Z.mod_small, Hv. }
  assert (w = w') as <- by (rewrite <- (Hlow w l Hw), <- (Hlow w' l' Hw'), E; reflexivity). split; [reflexivity|].
  apply (f_equal (Z.lxor w)) in E. rewrite !lxor_cancel in E. apply (f_equal (fun x => Z.shiftr x k)) in E.
  rewrite !Z.shiftr_shiftl_l, !Z.sub_diag, !Z.shiftl_0_r in E by lia. exact E.
Qed.

Lemma pack_inj k l l' : 0 <= k -> Forall (in_width k) l -> Forall (in_width k) l' -> length l = length l' -> pack k l = pack k l' -> l = l'.
Proof.
  intros Hk Hl. revert l'. induction Hl as [|w l Hw Hl IH]; intros l' Hl' Hlen E; [destruct l'; [reflexivity|discriminate]|].
  destruct Hl' as [|w' l' Hw' Hl']; [discriminate|]. injection Hlen as Hlen. cbn [pack] in E.
  destruct (pack_cons_inj k w _ w' _ Hk Hw Hw' E) as [-> E']. f_equal. exact (IH l' Hl' Hlen E').
Qed.

Lemma pack_zeros k n : 0 <= k -> pack k (replicate n 0) = 0.
Proof. intros Hk. induction n as [|n IH]; [reflexivity|]. cbn [replicate pack]. rewrite IH, Z.shiftl_0_l. reflexivity. Qed.

Lemma pack_zip_lxor k l1 l2 : 0 <= k -> length l1 = length l2 -> pack k (zip_with Z.lxor l1 l2) = Z.lxor (pack k l1) (pack k l2).
Proof.
  intros Hk. revert l2. induction l1 as [|w l1 IH]; intros [|w2 l2] Hl; try discriminate; [reflexivity|]. cbn [pack zip_with].
  injection Hl as Hl. rewrite (IH l2 Hl), Z.shiftl_lxor, lxor_swap. reflexivity.
Qed.

(** ** The cells of a word *)

Definition unpack (k n w : Z) : list Z := (fun i => Z.shiftr w (k * i) mod 2 ^ k) <$> upto n.

Lemma length_unpack k n w : length (unpack k n w) = Z.to_nat n.
Proof. unfold unpack. rewrite length_fmap. apply length_upto. Qed.

Lemma unpack_wf k n w : 0 <= k -> Forall (in_width k) (unpack k n w).
Proof. intros Hk. apply list.Forall_fmap, list.Forall_true. intros i. apply in_width_mod, Hk. Qed.

Lemma pack_unpack_mod k n w : 0 <= k -> 0 <= n -> pack k (unpack k n w) = w mod 2 ^ (k * n).
Proof.
  intros Hk Hn. pattern n. revert n Hn. apply range_ind.
  - rewrite Z.mul_0_r, Z.mod_1_r. reflexivity.
  - intros n Hn IH. unfold unpack in *. rewrite upto_snoc, fmap_app, pack_app, IH by lia. rewrite length_fmap, length_upto, Z2Nat.id by lia.
    cbn [fmap list_fmap pack]. rewrite Z.shiftl_0_l, Z.lxor_0_r. apply Z.bits_inj'. intros i Hi.
    rewrite Z.lxor_spec, Z.shiftl_spec by lia. destruct (Z.ltb_spec i (k * n)).
    + rewrite !Z.mod_pow2_bits_low by lia. rewrite (Z.testbit_neg_r _ (i - k * n)) by lia. apply xorb_false_r.
    + rewrite (Z.mod_pow2_bits_high w (k * n)) by lia. cbn [xorb]. destruct (Z.ltb_spec i (k * (n + 1))).
      * rewrite !Z.mod_pow2_bits_low, Z.shiftr_spec by lia. f_equal. lia.
      * rewrite !Z.mod_pow2_bits_high by lia. reflexivity.
Qed.

Lemma pack_unpack k n w : 0 <= k -> 0 <= n -> in_width (k * n) w -> pack k (unpack k n w) = w.
Proof. intros Hk Hn Hw. rewrite pack_unpack_mod by assumption. apply Z.mod_small, Hw. Qed.

(** ** Views of an array of words *)

(** The cells of [k] bits of an array, [n] to a word. *)
Definition as_cells (k n : Z) (l : list Z) : list Z := concat (unpack k n <$> l).
(** The array whose cells are given, [n] to a word. *)
Fixpoint chunk_words (fuel : nat) (k : Z) (n : nat) (l : list Z) : list Z :=
  match fuel with O => [] | S fuel => match l with [] => [] | _ => pack k (take n l) :: chunk_words fuel k n (drop n l) end end.
Definition of_cells (k n : Z) (l : list Z) : list Z := chunk_words (length l) k (Z.to_nat n) l.

Definition as_bytes : list Z -> list Z := as_cells 8 8.
Definition of_bytes : list Z -> list Z := of_cells 8 8.
Definition as_u32 : list Z -> list Z := as_cells 32 2.
Definition of_u32 : list Z -> list Z := of_cells 32 2.

Lemma as_cells_app k n l1 l2 : as_cells k n (l1 ++ l2) = as_cells k n l1 ++ as_cells k n l2.
Proof. unfold as_cells. rewrite fmap_app. apply concat_app. Qed.

Section views.
Context (k n : Z).
Context (Hk : 0 < k) (Hn : 0 < n).

Lemma length_as_cells l : length (as_cells k n l) = (Z.to_nat n * length l)%nat.
Proof using Type.
  unfold as_cells. induction l as [|w l IH]; [cbn; lia|]. cbn [fmap list_fmap concat length].
  change (list_fmap _ _ (unpack k n) l) with (unpack k n <$> l). rewrite length_app, length_unpack, IH. lia.
Qed.
Lemma as_cells_wf l : Forall (in_width k) (as_cells k n l).
Proof using Hk. apply Forall_concat, list.Forall_fmap, list.Forall_true. intros w. apply unpack_wf. lia. Qed.

Lemma pack_as_cells l : Forall (in_width (k * n)) l -> pack k (as_cells k n l) = pack (k * n) l.
Proof using Hk Hn.
  unfold as_cells. induction 1 as [|w l Hw Hl IH]; [reflexivity|]. cbn [fmap list_fmap concat pack].
  change (list_fmap _ _ (unpack k n) l) with (unpack k n <$> l).
  rewrite pack_app, IH, pack_unpack, length_unpack, Z2Nat.id by (assumption || lia). reflexivity.
Qed.

Lemma chunk_words_cons fuel l : (0 < length l)%nat -> chunk_words (S fuel) k (Z.to_nat n) l = pack k (take (Z.to_nat n) l) :: chunk_words fuel k (Z.to_nat n) (drop (Z.to_nat n) l).
Proof using Type. intros Hl. destruct l; [cbn in Hl; lia|reflexivity]. Qed.

Lemma chunk_words_spec (m : nat) : forall fuel l, length l = (Z.to_nat n * m)%nat -> (m <= fuel)%nat -> Forall (in_width k) l ->
  length (chunk_words fuel k (Z.to_nat n) l) = m /\ Forall (in_width (k * n)) (chunk_words fuel k (Z.to_nat n) l) /\
  pack (k * n) (chunk_words fuel k (Z.to_nat n) l) = pack k l.
Proof using Hk Hn.
  induction m as [|m IH]; intros fuel l Hl Hf Hw.
  - destruct l; [|cbn in Hl; lia]. destruct fuel; cbn; auto.
  - destruct fuel as [|fuel]; [lia|]. rewrite chunk_words_cons by nia.
    destruct (IH fuel (drop (Z.to_nat n) l)) as (H1 & H2 & H3); [rewrite length_drop; nia|lia|apply Forall_drop, Hw|].
    assert (Ht : length (take (Z.to_nat n) l) = Z.to_nat n) by (rewrite length_take; nia).
    cbn [length pack]. rewrite H3. split; [lia|]. split.
    + constructor; [|exact H2]. pose proof (pack_width k (take (Z.to_nat n) l) ltac:(lia) (Forall_take _ _ _ Hw)) as Hp.
      rewrite Ht, Z2Nat.id in Hp by lia. exact Hp.
    + rewrite <- (take_drop (Z.to_nat n) l) at 3. rewrite pack_app, Ht, Z2Nat.id by lia. reflexivity.
Qed.

Lemma of_cells_spec l (m : nat) : length l = (Z.to_nat n * m)%nat -> Forall (in_width k) l ->
  length (of_cells k n l) = m /\ Forall (in_width (k * n)) (of_cells k n l) /\ pack (k * n) (of_cells k n l) = pack k l.
Proof using Hk Hn. intros Hl Hw. apply chunk_words_spec; [exact Hl|nia|exact Hw]. Qed.

Lemma of_as_cells l : Forall (in_width (k * n)) l -> of_cells k n (as_cells k n l) = l.
Proof using Hk Hn.
  intros Hl. destruct (of_cells_spec (as_cells k n l) (length l)) as (H1 & H2 & H3); [apply length_as_cells|apply as_cells_wf|].
  apply (pack_inj (k * n)); [lia|exact H2|exact Hl|exact H1|]. rewrite H3. apply pack_as_cells, Hl.
Qed.

Lemma as_of_cells l (m : nat) : length l = (Z.to_nat n * m)%nat -> Forall (in_width k) l -> as_cells k n (of_cells k n l) = l.
Proof using Hk Hn.
  intros Hl Hw. destruct (of_cells_spec l m Hl Hw) as (H1 & H2 & H3).
  apply (pack_inj k); [lia|apply as_cells_wf|exact Hw|rewrite length_as_cells; lia|]. rewrite pack_as_cells by exact H2. exact H3.
Qed.
End views.

(** ** Copies between arrays of bytes and of words *)

(** [memcpy(dst + off, src, n)] where [dst] is an array of words and [off] counts bytes. *)
Definition memcpy_to_words (dst : list Z) (off : Z) (src : bytes) (n : Z) : option (list Z) :=
  piece ← mem_read src 0 n; b ← mem_write (as_bytes dst) off piece; Some (of_bytes b).
(** [memcpy(dst + off, src, n)] where [src] is an array of words. *)
Definition memcpy_from_words (dst : bytes) (off : Z) (src : list Z) (n : Z) : option bytes :=
  piece ← mem_read (as_bytes src) 0 n; mem_write dst off piece.
(** [memcpy(dst, src, n)] between arrays of words; [n] counts bytes. *)
Definition memcpy_words (dst src : list Z) (n : Z) : option (list Z) := memcpy_to_words dst 0 (as_bytes src) n.

Lemma length_as_bytes l : length (as_bytes l) = (8 * length l)%nat.
Proof. apply length_as_cells. Qed.
Lemma as_bytes_bytes l : all_bytes (as_bytes l).
Proof. apply (as_cells_wf 8 8). lia. Qed.

(** What a copy into an array of words leaves, byte by byte. *)
Lemma memcpy_to_words_eq dst off src n : Forall (in_width 64) dst -> all_bytes src -> 0 <= n <= Z.of_nat (length src) ->
  0 <= off -> off + n <= 8 * Z.of_nat (length dst) ->
  exists d, memcpy_to_words dst off src n = Some d /\ length d = length dst /\ Forall (in_width 64) d /\
    as_bytes d = take (Z.to_nat off) (as_bytes dst) ++ take (Z.to_nat n) src ++ drop (Z.to_nat (off + n)) (as_bytes dst).
Proof.
  intros Hd Hs Hn Ho Hl. unfold memcpy_to_words. destruct (mem_read_total src 0 n) as (piece & -> & Hpl & Hpv); [lia..|].
  cbn [mbind option_bind]. rewrite mem_write_total by (rewrite ?length_as_bytes; lia). cbn [mbind option_bind].
  rewrite drop_0 in Hpv. subst piece. set (b := take _ _ ++ _). replace (Z.to_nat (off + n)) with (Z.to_nat off + length (take (Z.to_nat n) src))%nat by (rewrite length_take; lia).
  fold b. assert (Hb : all_bytes b).
  { unfold b. apply Forall_app. split; [apply Forall_take, as_bytes_bytes|]. apply Forall_app. split; [apply Forall_take, Hs|apply Forall_drop, as_bytes_bytes]. }
  assert (Hbl : length b = (Z.to_nat 8 * length dst)%nat).
  { unfold b. rewrite !length_app, !length_take, length_drop, length_as_bytes. lia. }
  exists (of_bytes b). destruct (of_cells_spec 8 8 ltac:(lia) ltac:(lia) b (length dst) Hbl Hb) as (H1 & H2 & _).
  split_and!; [reflexivity|exact H1|exact H2|]. apply (as_of_cells 8 8 ltac:(lia) ltac:(lia) b (length dst)); assumption.
Qed.

Lemma as_bytes_inj l1 l2 : Forall (in_width 64) l1 -> Forall (in_width 64) l2 -> as_bytes l1 = as_bytes l2 -> l1 = l2.
Proof.
  intros H1 H2 E. rewrite <- (of_as_cells 8 8 ltac:(lia) ltac:(lia) l1), <- (of_as_cells 8 8 ltac:(lia) ltac:(lia) l2) by assumption.
  apply (f_equal (of_cells 8 8)), E.
Qed.

Lemma as_bytes_app l1 l2 : as_bytes (l1 ++ l2) = as_bytes l1 ++ as_bytes l2.
Proof. apply as_cells_app. Qed.
Lemma as_bytes_take l k : take (8 * k) (as_bytes l) = as_bytes (take k l).
Proof.
  destruct (decide (k <= length l)%nat) as [Hk|Hk].
  - rewrite <- (take_drop k l) at 1. rewrite as_bytes_app, take_app_le by (rewrite length_as_bytes, length_take; lia).
    apply take_ge. rewrite length_as_bytes, length_take. lia.
  - rewrite !take_ge by (rewrite ?length_as_bytes; lia). reflexivity.
Qed.
Lemma as_bytes_drop l k : drop (8 * k) (as_bytes l) = as_bytes (drop k l).
Proof.
  destruct (decide (k <= length l)%nat) as [Hk|Hk].
  - rewrite <- (take_drop k l) at 1. rewrite as_bytes_app, drop_app_ge by (rewrite length_as_bytes, length_take; lia).
    rewrite length_as_bytes, length_take. replace (8 * k - 8 * (k `min` length l))%nat with 0%nat by lia. reflexivity.
  - rewrite !drop_ge by (rewrite ?length_as_bytes; lia). reflexivity.
Qed.

(** A copy of whole words. *)
Lemma memcpy_words_eq dst src n (k : nat) : Forall (in_width 64) dst -> Forall (in_width 64) src -> n = 8 * Z.of_nat k ->
  (k <= length src)%nat -> (k <= length dst)%nat -> memcpy_words dst src n = Some (take k src ++ drop k dst).
Proof.
  intros Hd Hs -> H1 H2. unfold memcpy_words.
  destruct (memcpy_to_words_eq dst 0 (as_bytes src) (8 * Z.of_nat k) Hd (as_bytes_bytes src)) as (d & -> & Hl & Hw & E); [rewrite length_as_bytes; lia|lia|lia|].
  f_equal. apply as_bytes_inj; [exact Hw|apply Forall_app; split; [apply Forall_take, Hs|apply Forall_drop, Hd]|].
  rewrite E, as_bytes_app. replace (Z.to_nat (8 * Z.of_nat k)) with (8 * k)%nat by lia. replace (Z.to_nat (0 + 8 * Z.of_nat k)) with (8 * k)%nat by lia.
  rewrite as_bytes_take, as_bytes_drop. reflexivity.
Qed.

(** [memcpy(dst + off, src + src_off, n)] between arrays of bytes. *)
Definition memcpy (dst : bytes) (off : Z) (src : bytes) (src_off n : Z) : option bytes :=
  piece ← mem_read src src_off n; mem_write dst off piece.

Lemma memcpy_eq dst off src src_off n : 0 <= n -> 0 <= src_off -> src_off + n <= Z.of_nat (length src) -> 0 <= off -> off + n <= Z.of_nat (length dst) ->
  memcpy dst off src src_off n = Some (take (Z.to_nat off) dst ++ take (Z.to_nat n) (drop (Z.to_nat src_off) src) ++ drop (Z.to_nat (off + n)) dst).
Proof.
  intros Hn Hs Hl Ho Hd. unfold memcpy. destruct (mem_read_total src src_off n) as (p & -> & Lp & ->); [lia..|]. rewrite some_bind, mem_write_total by lia.
  rewrite Lp. do 4 f_equal. lia.
Qed.

Lemma memcpy_from_words_eq dst off src n : 0 <= n -> n <= 8 * Z.of_nat (length src) -> 0 <= off -> off + n <= Z.of_nat (length dst) ->
  memcpy_from_words dst off src n = Some (take (Z.to_nat off) dst ++ take (Z.to_nat n) (as_bytes src) ++ drop (Z.to_nat (off + n)) dst).
Proof. intros Hn Hs Ho Hd. apply (memcpy_eq dst off (as_bytes src) 0 n); rewrite ?length_as_bytes; lia. Qed.

(** A copy out of an array of words and back into one whose last bytes are the same. *)
Lemma memcpy_words_back dst src n : Forall (in_width 64) dst -> Forall (in_width 64) src -> 0 <= n -> n <= 8 * Z.of_nat (length src) ->
  length dst = length src -> drop (Z.to_nat n) (as_bytes dst) = drop (Z.to_nat n) (as_bytes src) ->
  memcpy_to_words dst 0 (take (Z.to_nat n) (as_bytes src)) n = Some src.
Proof.
  intros Wd Ws Hn Hl Hlen Hrest. assert (Lt : length (take (Z.to_nat n) (as_bytes src)) = Z.to_nat n) by (rewrite length_take, length_as_bytes; lia).
  destruct (memcpy_to_words_eq dst 0 (take (Z.to_nat n) (as_bytes src)) n) as (d & -> & Ld & Wd' & Ed); [exact Wd|apply Forall_take, as_bytes_bytes|lia|lia|lia|].
  f_equal. apply as_bytes_inj; [exact Wd'|exact Ws|]. rewrite Ed. change (Z.to_nat 0) with 0%nat. rewrite take_0, Z.add_0_l, Hrest, (take_ge (take _ _)) by lia.
  apply take_drop.
Qed.
