(* ===== verification/Gf.v ===== *)
(** * The field of 256 elements: [gf.c] and [gf.h] of the HQC sources

    Elements are bytes, polynomials over two elements modulo
    1 + X^2 + X^3 + X^4 + X^8.  The operations transcribe the constant-time C code
    ([PARAM_M] is 8); the theorems say that multiplication is the product of
    polynomials reduced by that polynomial, that the nonzero elements are the powers
    of X listed in [gf_exp], and that the bytes are a field. *)

From S2P Require Import Prelude Carryless.

(* src/extern/HQC-Round4/Additional_Implementation/hqc-128/src/parameters.h:87-87 PARAM_M *)
Definition PARAM_M : Z := 8.
(* src/extern/HQC-Round4/Additional_Implementation/hqc-128/src/parameters.h:88-88 PARAM_GF_POLY *)
Definition PARAM_GF_POLY : Z := 0x11D.
(* src/extern/HQC-Round4/Additional_Implementation/hqc-128/src/parameters.h:89-89 PARAM_GF_POLY_WT *)
Definition PARAM_GF_POLY_WT : Z := 5.
(* src/extern/HQC-Round4/Additional_Implementation/hqc-128/src/parameters.h:90-90 PARAM_GF_POLY_M2 *)
Definition PARAM_GF_POLY_M2 : Z := 4.
(* src/extern/HQC-Round4/Additional_Implementation/hqc-128/src/parameters.h:91-91 PARAM_GF_MUL_ORDER *)
Definition PARAM_GF_MUL_ORDER : Z := 255.

(* src/extern/HQC-Round4/Additional_Implementation/hqc-128/src/parameters.h:11-11 CEIL_DIVIDE *)
Definition CEIL_DIVIDE (a b : Z) : Z := a / b + (if a mod b =? 0 then 0 else 1).

(* src/extern/HQC-Round4/Additional_Implementation/hqc-128/src/gf.h:18-18 gf_exp *)
Definition gf_exp : list Z :=
  [1; 2; 4; 8; 16; 32; 64; 128; 29; 58; 116; 232; 205; 135; 19; 38; 76; 152; 45; 90; 180; 117; 234; 201;
   143; 3; 6; 12; 24; 48; 96; 192; 157; 39; 78; 156; 37; 74; 148; 53; 106; 212; 181; 119; 238; 193; 159; 35;
   70; 140; 5; 10; 20; 40; 80; 160; 93; 186; 105; 210; 185; 111; 222; 161; 95; 190; 97; 194; 153; 47; 94; 188;
   101; 202; 137; 15; 30; 60; 120; 240; 253; 231; 211; 187; 107; 214; 177; 127; 254; 225; 223; 163; 91; 182; 113; 226;
   217; 175; 67; 134; 17; 34; 68; 136; 13; 26; 52; 104; 208; 189; 103; 206; 129; 31; 62; 124; 248; 237; 199; 147;
   59; 118; 236; 197; 151; 51; 102; 204; 133; 23; 46; 92; 184; 109; 218; 169; 79; 158; 33; 66; 132; 21; 42; 84;
   168; 77; 154; 41; 82; 164; 85; 170; 73; 146; 57; 114; 228; 213; 183; 115; 230; 209; 191; 99; 198; 145; 63; 126;
   252; 229; 215; 179; 123; 246; 241; 255; 227; 219; 171; 75; 150; 49; 98; 196; 149; 55; 110; 220; 165; 87; 174; 65;
   130; 25; 50; 100; 200; 141; 7; 14; 28; 56; 112; 224; 221; 167; 83; 166; 81; 162; 89; 178; 121; 242; 249; 239;
   195; 155; 43; 86; 172; 69; 138; 9; 18; 36; 72; 144; 61; 122; 244; 245; 247; 243; 251; 235; 203; 139; 11; 22;
   44; 88; 176; 125; 250; 233; 207; 131; 27; 54; 108; 216; 173; 71; 142; 1; 2; 4].

(* src/extern/HQC-Round4/Additional_Implementation/hqc-128/src/gf.h:26-26 gf_log *)
Definition gf_log : list Z :=
  [0; 0; 1; 25; 2; 50; 26; 198; 3; 223; 51; 238; 27; 104; 199; 75; 4; 100; 224; 14; 52; 141; 239; 129;
   28; 193; 105; 248; 200; 8; 76; 113; 5; 138; 101; 47; 225; 36; 15; 33; 53; 147; 142; 218; 240; 18; 130; 69;
   29; 181; 194; 125; 106; 39; 249; 185; 201; 154; 9; 120; 77; 228; 114; 166; 6; 191; 139; 98; 102; 221; 48; 253;
   226; 152; 37; 179; 16; 145; 34; 136; 54; 208; 148; 206; 143; 150; 219; 189; 241; 210; 19; 92; 131; 56; 70; 64;
   30; 66; 182; 163; 195; 72; 126; 110; 107; 58; 40; 84; 250; 133; 186; 61; 202; 94; 155; 159; 10; 21; 121; 43;
   78; 212; 229; 172; 115; 243; 167; 87; 7; 112; 192; 247; 140; 128; 99; 13; 103; 74; 222; 237; 49; 197; 254; 24;
   227; 165; 153; 119; 38; 184; 180; 124; 17; 68; 146; 217; 35; 32; 137; 46; 55; 63; 209; 91; 149; 188; 207; 205;
   144; 135; 151; 178; 220; 252; 190; 97; 242; 86; 211; 171; 20; 42; 93; 158; 132; 60; 57; 83; 71; 109; 65; 162;
   31; 45; 67; 216; 183; 123; 164; 118; 196; 23; 73; 236; 127; 12; 111; 246; 108; 161; 59; 82; 41; 157; 85; 170;
   251; 96; 134; 177; 187; 204; 62; 90; 203; 89; 95; 176; 156; 169; 160; 81; 11; 245; 22; 235; 122; 117; 44; 215;
   79; 174; 213; 233; 230; 231; 173; 232; 116; 214; 244; 234; 168; 80; 88; 175].

(** [elt] and the tables; [m] is at most 8. *)
(* src/extern/HQC-Round4/Additional_Implementation/hqc-128/src/gf.c:25-43 gf_generate *)
Definition gf_generate (exp log : list Z) (m : Z) : option (list Z * list Z) :=
  '(elt, exp, log) ← ofor (upto (Z.shiftl 1 m - 1)) (fun i '(elt, exp, log) =>
    exp ← set_cell exp i elt;
    log ← set_cell log elt (u16 i);
    let elt := u16 (elt * 2) in
    Some (if Z.shiftl 1 m <=? elt then Z.lxor elt PARAM_GF_POLY else elt, exp, log)) (1, exp, log);
  exp ← set_cell exp (Z.shiftl 1 m - 1) 1;
  exp ← set_cell exp (Z.shiftl 1 m) 2;
  exp ← set_cell exp (Z.shiftl 1 m + 1) 4;
  log ← set_cell log 0 0;
  Some (exp, log).

(* src/extern/HQC-Round4/Additional_Implementation/hqc-128/src/gf.c:53-61 trailing_zero_bits_count *)
Definition trailing_zero_bits_count (a : Z) : Z :=
  fst (foldl (fun '(tmp, mask) i =>
         let zero := 1 - Z.land (Z.shiftr a i) 1 in
         (u16 (tmp + Z.land zero mask), u16 (Z.land mask (- zero)))) (0, 0xFFFF) (upto 14)).

(** One step of the reduction: [x] after its part from bit 8 on was folded back. *)
(* src/extern/HQC-Round4/Additional_Implementation/hqc-128/src/gf.c:80-95 gf_reduce *)
Definition gf_reduce_step (x : Z) : Z :=
  let mod_ := Z.shiftr x PARAM_M in
  let x := Z.lxor (Z.land x (Z.shiftl 1 PARAM_M - 1)) mod_ in
  let '(x, _, _, _) :=
    foldl (fun '(x, mod_, z1, rmdr) (_ : Z) =>
      let z2 := trailing_zero_bits_count rmdr in
      let dist := u16 (z2 - z1) in
      let mod_ := u64 (Z.shiftl mod_ dist) in
      (Z.lxor x mod_, mod_, z2, u16 (Z.lxor rmdr (Z.shiftl 1 z2))))
      (x, mod_, 0, u16 (Z.lxor PARAM_GF_POLY 1)) (upto (PARAM_GF_POLY_WT - 2)) in
  x.

(* src/extern/HQC-Round4/Additional_Implementation/hqc-128/src/gf.c:71-98 gf_reduce *)
Definition gf_reduce (x deg_x : Z) : Z :=
  let steps := CEIL_DIVIDE (deg_x - (PARAM_M - 1)) PARAM_GF_POLY_M2 in
  u16 (foldl (fun x (_ : Z) => gf_reduce_step x) x (upto steps)).

(** The combination of the multiples [u] of [b] that two bits of [a] select. *)
(* src/extern/HQC-Round4/Additional_Implementation/hqc-128/src/gf.c:120-139 gf_carryless_mul *)
Definition gf_select (u : list Z) (tmp1 : Z) : Z :=
  foldl (fun g '(i, ui) => u16 (Z.lxor g (Z.land ui (eq_mask 32 tmp1 i)))) 0 (zip (upto 4) u).

(* src/extern/HQC-Round4/Additional_Implementation/hqc-128/src/gf.c:112-148 gf_carryless_mul *)
Definition gf_carryless_mul (a b : Z) : Z * Z :=
  let u1 := Z.land b (Z.shiftl 1 7 - 1) in
  let u2 := u16 (Z.shiftl u1 1) in
  let u := [0; u1; u2; Z.lxor u2 u1] in
  let l := gf_select u (Z.land a 3) in
  let '(l, h) := foldl (fun '(l, h) i =>
    let g := gf_select u (Z.land (Z.shiftr a i) 3) in
    (u16 (Z.lxor l (Z.shiftl g i)), u16 (Z.lxor h (Z.shiftr g (8 - i))))) (l, 0) [2; 4; 6] in
  let mask := u16 (- Z.land (Z.shiftr b 7) 1) in
  let l := u16 (Z.lxor l (Z.land (Z.shiftl a 7) mask)) in
  let h := u16 (Z.lxor h (Z.land (Z.shiftr a 1) mask)) in
  (u8 l, u8 h).

(* src/extern/HQC-Round4/Additional_Implementation/hqc-128/src/gf.c:158-163 gf_mul *)
Definition gf_mul (a b : Z) : Z :=
  let '(c0, c1) := gf_carryless_mul (u8 a) (u8 b) in
  gf_reduce (u16 (Z.lxor c0 (Z.shiftl c1 8))) (2 * (PARAM_M - 1)).

(* src/extern/HQC-Round4/Additional_Implementation/hqc-128/src/gf.c:172-181 gf_square *)
Definition gf_square (a : Z) : Z :=
  let '(_, s) := foldl (fun '(b, s) i =>
    let b := u32 (Z.shiftl b 1) in
    (b, Z.lxor s (Z.land b (Z.shiftl 1 (2 * i))))) (a, Z.land a 1) (seqZ 1 7) in
  gf_reduce s (2 * (PARAM_M - 1)).

(* src/extern/HQC-Round4/Additional_Implementation/hqc-128/src/gf.c:191-207 gf_inverse *)
Definition gf_inverse (a : Z) : Z :=
  let inv := gf_square a in
  let tmp1 := gf_mul inv a in
  let inv := gf_square inv in
  let tmp2 := gf_mul inv tmp1 in
  let tmp1 := gf_mul inv tmp2 in
  let inv := gf_mul tmp1 inv in
  let inv := gf_square inv in
  let inv := gf_square inv in
  let inv := gf_square inv in
  let inv := gf_mul inv tmp2 in
  gf_square inv.

(* src/extern/HQC-Round4/Additional_Implementation/hqc-128/src/gf.c:218-225 gf_mod *)
Definition gf_mod (i : Z) : Z :=
  let tmp := u16 (i - PARAM_GF_MUL_ORDER) in
  let mask := - Z.shiftr tmp 15 in
  u16 (tmp + Z.land mask PARAM_GF_MUL_ORDER).

(** ** Multiplication *)

Lemma gf_select_table u t : length u = 4%nat -> gf_select u t = table_select 16 32 t 0 u 0.
Proof. intros Hl. unfold gf_select, table_select, upto. rewrite Hl. reflexivity. Qed.

(** The table holds the multiples of its second entry. *)
Lemma gf_select_spec u1 t :
  in_width 7 u1 -> 0 <= t < 4 -> gf_select [0; u1; u16 (Z.shiftl u1 1); Z.lxor (u16 (Z.shiftl u1 1)) u1] t = clmul t u1.
Proof.
  intros Hu Ht. assert (Hd : in_width 8 (Z.shiftl u1 1)) by (apply (width_shiftl 7 1); [lia|lia|exact Hu]).
  rewrite u16_id by (apply (width_mono 8); [lia|exact Hd]).
  assert (Hw : forall x, in_width 8 x -> in_width 16 x) by (intros x; apply width_mono; lia).
  assert (Hu8 : in_width 8 u1) by (apply (width_mono 7); [lia|exact Hu]).
  assert (Hf : Forall (in_width 16) [0; u1; Z.shiftl u1 1; Z.lxor (Z.shiftl u1 1) u1]).
  { rewrite !list.Forall_cons. split_and!; [apply width_0; lia|apply Hw, Hu8|apply Hw, Hd|apply Hw, width_lxor; [lia|exact Hd|exact Hu8]|constructor]. }
  rewrite gf_select_table by reflexivity.
  rewrite (table_select_spec 16 32); [|lia|lia|lia|exact Hf|apply width_0; lia|lia|cbn; lia].
  cbn [length]. change (Z.of_nat 4) with 4. rewrite Z.lxor_0_l, Z.sub_0_r.
  destruct (Z.leb_spec 0 t), (Z.ltb_spec t (0 + 4)); try lia. cbn [andb].
  assert (Ec : t = 0 \/ t = 1 \/ t = 2 \/ t = 3) by lia. rewrite Z.shiftl_mul_pow2 by lia.
  destruct Ec as [-> | [-> | [-> | ->]]]; cbn [Z.to_nat Pos.to_nat Pos.iter_op Nat.add lookup list_lookup default clmul pclmul]; try reflexivity.
  - change (u1 * 2 ^ 1 = 2 * u1). lia.
  - change (Z.lxor (u1 * 2 ^ 1) u1 = Z.lxor u1 (2 * u1)). rewrite Z.lxor_comm. f_equal. lia.
Qed.

Lemma gf_carryless_mul_spec a b :
  is_u8 a -> is_u8 b -> let '(c0, c1) := gf_carryless_mul a b in is_u8 c0 /\ is_u8 c1 /\ Z.lxor c0 (Z.shiftl c1 8) = clmul a b.
Proof.
  intros Ha Hb. unfold gf_carryless_mul. change (Z.shiftl 1 7 - 1) with (Z.ones 7). rewrite Z.land_ones by lia. cbv zeta.
  set (u1 := b mod 2 ^ 7). assert (Hu : in_width 7 u1) by (apply in_width_mod; lia).
  set (u := [0; u1; u16 (Z.shiftl u1 1); Z.lxor (u16 (Z.shiftl u1 1)) u1]).
  assert (Hsel : forall i, 0 <= i -> gf_select u (Z.land (Z.shiftr a i) 3) = clmul (Z.shiftr a i mod 2 ^ 2) u1 /\
                   in_width 8 (clmul (Z.shiftr a i mod 2 ^ 2) u1)).
  { intros i Hi. change 3 with (Z.ones 2). rewrite Z.land_ones by lia.
    pose proof (in_width_mod 2 (Z.shiftr a i) ltac:(lia)) as Hm. split; [apply gf_select_spec; [exact Hu|exact Hm]|].
    exact (clmul_width 1 7 _ _ ltac:(lia) ltac:(lia) Hm Hu). }
  assert (H0 : wide 8 (gf_select u (Z.land a 3)) 0 (clmul (a mod 2 ^ 2) u1)).
  { destruct (Hsel 0 ltac:(lia)) as [E Hw]. rewrite Z.shiftr_0_r in E, Hw. rewrite E. split; [apply width_0; lia|].
    rewrite Z.shiftl_0_l, Z.lxor_0_r. apply Z.mod_small, Hw. }
  assert (Hstep : forall i l h, 0 <= i <= 8 -> wide 8 l h (clmul (a mod 2 ^ i) u1) ->
    let g := gf_select u (Z.land (Z.shiftr a i) 3) in
    wide 8 (u16 (Z.lxor l (Z.shiftl g i))) (u16 (Z.lxor h (Z.shiftr g (8 - i)))) (clmul (a mod 2 ^ (i + 2)) u1)).
  { intros i l h Hi Hw. cbv zeta. destruct (Hsel i ltac:(lia)) as [-> Hg]. apply wide_trunc; [lia|].
    exact (wide_window 8 l h a u1 i 2 Hi ltac:(lia) Hg Hw). }
  destruct (foldl _ _ _) as [l3 h3] eqn:Ef.
  assert (Hwide : wide 8 l3 h3 (clmul a u1)).
  { cbn [foldl] in Ef. apply Hstep in H0; [|lia]. apply Hstep in H0; [|lia]. apply Hstep in H0; [|lia].
    injection Ef as <- <-. change (2 + 2 + 2 + 2) with 8 in H0. rewrite (Z.mod_small a) in H0 by exact Ha. exact H0. }
  clear Ef H0.
  pose proof (wide_bit 8 l3 h3 a b 7 ltac:(lia) Ha Hwide) as H1. cbv zeta in H1. change (7 + 1) with 8 in H1.
  rewrite (Z.mod_small b) in H1 by exact Hb.
  assert (Hbit : Z.land (Z.shiftr b 7) 1 = 0 \/ Z.land (Z.shiftr b 7) 1 = 1).
  { rewrite (Z.land_ones _ 1) by lia. pose proof (Z.mod_pos_bound (Z.shiftr b 7) (2 ^ 1) ltac:(lia)). lia. }
  assert (Hmask : forall x, in_width 16 x -> Z.land x (u16 (- Z.land (Z.shiftr b 7) 1)) = if Z.land (Z.shiftr b 7) 1 =? 1 then x else 0)
    by (intros x Hx; apply (land_bit_mask 16); [lia|exact Hx|exact Hbit]).
  rewrite !Hmask; [|apply (width_mono 7); [lia|apply (width_shiftr 7 1); [lia|lia|exact Ha]]
    |apply (width_mono (8 + 7)); [lia|apply width_shiftl; [lia|lia|exact Ha]]].
  apply (wide_trunc 8 16) in H1; [|lia]. destruct H1 as [Hh E]. split; [apply u8_range|]. split; [apply u8_range|].
  rewrite (u8_id (u16 (Z.lxor h3 _))) by exact Hh. exact E.
Qed.

(** One step of the reduction adds a multiple of the polynomial. *)
Lemma gf_reduce_step_spec x :
  in_width 16 x -> gf_reduce_step x = Z.lxor x (clmul (Z.shiftr x 8) PARAM_GF_POLY).
Proof.
  intros Hx. unfold gf_reduce_step. change (Z.shiftl 1 PARAM_M - 1) with (Z.ones 8). change PARAM_M with 8. rewrite Z.land_ones by lia.
  set (m := Z.shiftr x 8). assert (Hm : in_width 8 m) by (apply (width_shiftr 8 8); [lia|lia|exact Hx]). cbv zeta.
  change (upto (PARAM_GF_POLY_WT - 2)) with [0; 1; 2]. cbn [foldl].
  repeat match goal with |- context [trailing_zero_bits_count ?r] =>
    let v := eval vm_compute in (trailing_zero_bits_count r) in change (trailing_zero_bits_count r) with v end.
  change (u16 (2 - 0)) with 2. change (u16 (3 - 2)) with 1. change (u16 (4 - 3)) with 1.
  assert (H1 : in_width 10 (Z.shiftl m 2)) by (apply (width_shiftl 8); [lia|lia|exact Hm]).
  assert (H2 : in_width 11 (Z.shiftl (Z.shiftl m 2) 1)) by (apply (width_shiftl 10); [lia|lia|exact H1]).
  assert (H3 : in_width 12 (Z.shiftl (Z.shiftl (Z.shiftl m 2) 1) 1)) by (apply (width_shiftl 11); [lia|lia|exact H2]).
  unfold u64. rewrite (Z.mod_small (Z.shiftl m 2)) by (apply (width_mono 10 64); [lia|exact H1]).
  rewrite (Z.mod_small (Z.shiftl (Z.shiftl m 2) 1)) by (apply (width_mono 11 64); [lia|exact H2]).
  rewrite (Z.mod_small (Z.shiftl (Z.shiftl (Z.shiftl m 2) 1) 1)) by (apply (width_mono 12 64); [lia|exact H3]).
  assert (Hm0 : 0 <= m) by apply Hm. rewrite (clmul_comm m) by (try exact Hm0; vm_compute; discriminate).
  change PARAM_GF_POLY with (Z.lxor (Z.lxor (Z.lxor (Z.lxor 1 (Z.shiftl 1 2)) (Z.shiftl 1 3)) (Z.shiftl 1 4)) (Z.shiftl 1 8)).
  rewrite !clmul_lxor_l, !clmul_shiftl_l, clmul_1_l by (vm_compute; discriminate || lia).
  rewrite !Z.shiftl_shiftl by lia. change (2 + 1 + 1) with 4. change (2 + 1) with 3.
  rewrite (split_low_high x 8) at 2 by lia. fold m. generalize (x mod 2 ^ 8) (Z.shiftl m 2) (Z.shiftl m 3) (Z.shiftl m 4) (Z.shiftl m 8). intros.
  apply Z.bits_inj'. intros i Hi. rewrite !Z.lxor_spec.
  repeat match goal with |- context [Z.testbit ?t i] => generalize (Z.testbit t i); intros [] end; reflexivity.
Qed.

Lemma gf_reduce_spec x : in_width 15 x -> remainder PARAM_GF_POLY 8 x (gf_reduce x (2 * (PARAM_M - 1))).
Proof.
  intros Hx. unfold gf_reduce. change (upto (CEIL_DIVIDE (2 * (PARAM_M - 1) - (PARAM_M - 1)) PARAM_GF_POLY_M2)) with [0; 1]. cbn [foldl].
  assert (Hp : in_width 5 0x1D) by (split; [discriminate|reflexivity]).
  (* a step leaves the low byte plus a multiple of the low part of the polynomial *)
  assert (Hstep : forall n y, 0 <= n -> n + 8 <= 16 -> in_width (n + 8) y ->
    in_width (Z.max 8 (n + 4)) (gf_reduce_step y) /\ congruent PARAM_GF_POLY y (gf_reduce_step y)).
  { intros n y Hn Hle Hy. rewrite gf_reduce_step_spec by (apply (width_mono (n + 8)); [lia|exact Hy]).
    assert (Hm : in_width n (Z.shiftr y 8)) by (apply (width_shiftr n 8); [lia|lia|exact Hy]). split; [|apply congruent_step, Hm].
    rewrite (split_low_high y 8) at 1 by lia. set (m := Z.shiftr y 8) in *.
    change PARAM_GF_POLY with (Z.lxor 0x1D (Z.shiftl 1 8)). rewrite clmul_lxor_r, clmul_shiftl_r, (clmul_comm m 1), clmul_1_l by (lia || apply Hm).
    replace (Z.lxor (Z.lxor (y mod 2 ^ 8) (Z.shiftl m 8)) (Z.lxor (clmul m 29) (Z.shiftl m 8))) with (Z.lxor (y mod 2 ^ 8) (clmul m 29)).
    - apply width_lxor; [lia|apply (width_mono 8); [lia|apply in_width_mod; lia]|].
      apply (width_mono (n + 4)); [lia|]. rewrite clmul_comm by (lia || apply Hm). rewrite (Z.add_comm n 4).
      apply (clmul_width 4 n); [lia|lia|exact Hp|exact Hm].
    - rewrite lxor_swap, Z.lxor_nilpotent, Z.lxor_0_r. reflexivity. }
  destruct (Hstep 7 x ltac:(lia) ltac:(lia) Hx) as [Hw1 Hc1].
  destruct (Hstep 3 (gf_reduce_step x) ltac:(lia) ltac:(lia) Hw1) as [Hw2 Hc2].
  rewrite u16_id by (apply (width_mono 8); [lia|exact Hw2]). split; [exact Hw2|exact (congruent_trans _ _ _ _ Hc1 Hc2)].
Qed.

Lemma gf_mul_remainder a b : is_u8 a -> is_u8 b -> remainder PARAM_GF_POLY 8 (clmul a b) (gf_mul a b).
Proof.
  intros Ha Hb. unfold gf_mul. rewrite !u8_id by assumption. pose proof (gf_carryless_mul_spec a b Ha Hb) as Hc.
  destruct (gf_carryless_mul a b) as [c0 c1]. destruct Hc as (_ & _ & ->).
  pose proof (clmul_width 7 8 a b ltac:(lia) ltac:(lia) Ha Hb) as Hw.
  rewrite u16_id by (apply (width_mono (7 + 8)); [lia|exact Hw]). apply gf_reduce_spec, Hw.
Qed.

(** ** The field *)

Lemma gf_poly_degree : 2 ^ 8 <= PARAM_GF_POLY < 2 ^ (8 + 1).
Proof. split; [discriminate|reflexivity]. Qed.

Lemma gf_mul_u8 a b : is_u8 a -> is_u8 b -> is_u8 (gf_mul a b).
Proof. intros Ha Hb. apply (gf_mul_remainder a b Ha Hb). Qed.
#[export] Hint Resolve gf_mul_u8 : widths.

(** A product is known by any byte that is congruent to it. *)
Lemma gf_mul_unique a b r : is_u8 a -> is_u8 b -> is_u8 r -> congruent PARAM_GF_POLY (clmul a b) r -> gf_mul a b = r.
Proof.
  intros Ha Hb Hr Hc. apply (remainder_unique PARAM_GF_POLY 8 (clmul a b)); [lia|exact gf_poly_degree|apply gf_mul_remainder; assumption|split; assumption].
Qed.

Lemma gf_mul_comm a b : is_u8 a -> is_u8 b -> gf_mul a b = gf_mul b a.
Proof.
  intros Ha Hb. apply gf_mul_unique; [assumption..|apply gf_mul_u8; assumption|]. rewrite clmul_comm by (apply Ha || apply Hb). apply gf_mul_remainder; assumption.
Qed.
Lemma gf_mul_1_l a : is_u8 a -> gf_mul 1 a = a.
Proof. intros Ha. apply gf_mul_unique; [decided|assumption..|]. rewrite clmul_1_l. apply congruent_refl. Qed.
Lemma gf_mul_0_l a : is_u8 a -> gf_mul 0 a = 0.
Proof. intros Ha. apply gf_mul_unique; [decided|exact Ha|decided|apply congruent_refl]. Qed.
Lemma gf_mul_lxor_l a b c : is_u8 a -> is_u8 b -> is_u8 c -> gf_mul (Z.lxor a b) c = Z.lxor (gf_mul a c) (gf_mul b c).
Proof.
  intros Ha Hb Hc. apply gf_mul_unique; [apply width_lxor; [lia|assumption..]|exact Hc|apply width_lxor; [lia|apply gf_mul_u8; assumption..]|].
  rewrite clmul_lxor_l by (apply Ha || apply Hb). apply congruent_lxor; apply gf_mul_remainder; assumption.
Qed.
Lemma gf_mul_lxor_r a b c : is_u8 a -> is_u8 b -> is_u8 c -> gf_mul a (Z.lxor b c) = Z.lxor (gf_mul a b) (gf_mul a c).
Proof.
  intros Ha Hb Hc. rewrite gf_mul_comm, gf_mul_lxor_l, (gf_mul_comm b), (gf_mul_comm c) by (try apply width_lxor; (assumption || lia)). reflexivity.
Qed.
Lemma gf_mul_assoc a b c : is_u8 a -> is_u8 b -> is_u8 c -> gf_mul a (gf_mul b c) = gf_mul (gf_mul a b) c.
Proof.
  intros Ha Hb Hc. pose proof (gf_mul_u8 a b Ha Hb) as Hab. pose proof (gf_mul_u8 b c Hb Hc) as Hbc.
  apply gf_mul_unique; [assumption..|apply gf_mul_u8; assumption|].
  eapply congruent_trans; [apply congruent_sym, congruent_clmul; [apply Ha|discriminate|apply (gf_mul_remainder b c Hb Hc)]|].
  rewrite clmul_assoc by (apply Ha || apply Hb || apply Hc).
  eapply congruent_trans; [|apply (gf_mul_remainder (gf_mul a b) c Hab Hc)].
  rewrite !(fun x y => clmul_comm x c y (proj1 Hc)) by (apply clmul_nonneg || apply Hab; apply Ha || apply Hb).
  apply congruent_clmul; [apply Hc|discriminate|]. apply (gf_mul_remainder a b Ha Hb).
Qed.

(** ** The tables *)

(** The power [X ^ i] of the root, from the table. *)
Definition gf_pow (i : Z) : Z := default 0 (gf_exp !! Z.to_nat i).

Lemma check_upto n (p : Z -> bool) : forallb p (upto n) = true -> forall i, 0 <= i < n -> p i = true.
Proof. intros Hp i Hi. apply (proj1 (forallb_forall _ _) Hp). apply list_elem_of_In, elem_of_upto, Hi. Qed.

Lemma gf_pow_u8 i : 0 <= i < 258 -> is_u8 (gf_pow i).
Proof.
  intros Hi. pose proof (check_upto 258 (fun i => (0 <=? gf_pow i) && (gf_pow i <? 256)) ltac:(vm_compute; reflexivity) i Hi) as Hc.
  cbv beta in Hc. case_bools. split; assumption.
Qed.
Lemma gf_pow_next i : 0 <= i < 257 -> gf_mul 2 (gf_pow i) = gf_pow (i + 1).
Proof.
  intros Hi. apply Z.eqb_eq. exact (check_upto 257 (fun i => gf_mul 2 (gf_pow i) =? gf_pow (i + 1)) ltac:(vm_compute; reflexivity) i Hi).
Qed.
Lemma gf_pow_cycle i : 255 <= i < 258 -> gf_pow i = gf_pow (i - 255).
Proof. intros Hi. assert (i = 255 \/ i = 256 \/ i = 257) as [-> | [-> | ->]] by lia; reflexivity. Qed.
Lemma gf_pow_0 : gf_pow 0 = 1.
Proof. reflexivity. Qed.

(** Multiplication adds exponents. *)
Lemma gf_pow_add i j : 0 <= i -> 0 <= j < 255 -> i < 255 -> gf_mul (gf_pow i) (gf_pow j) = gf_pow ((i + j) mod 255).
Proof.
  intros Hi Hj. revert i Hi. refine (natlike_ind _ _ _).
  - intros _. rewrite gf_pow_0, gf_mul_1_l, Z.add_0_l, Z.mod_small by (apply gf_pow_u8 || idtac; lia). reflexivity.
  - intros i Hi IH Hlt. replace (Z.succ i) with (i + 1) by lia. rewrite <- (gf_pow_next i) by lia.
    rewrite <- gf_mul_assoc, IH by (try apply gf_pow_u8; (lia || decided)).
    pose proof (Z.mod_pos_bound (i + j) 255 ltac:(lia)) as Hb. rewrite gf_pow_next by lia.
    replace ((i + 1 + j) mod 255) with (((i + j) mod 255 + 1) mod 255) by (rewrite Zplus_mod_idemp_l; f_equal; lia).
    destruct (Z.eq_dec ((i + j) mod 255) 254) as [E|Hne].
    + rewrite E. reflexivity.
    + rewrite (Z.mod_small (_ + 1)) by lia. reflexivity.
Qed.

Definition gf_dlog (a : Z) : Z := default 0 (gf_log !! Z.to_nat a).
Lemma gf_pow_log a : 1 <= a < 256 -> 0 <= gf_dlog a < 255 /\ gf_pow (gf_dlog a) = a.
Proof.
  intros Ha. pose proof (check_upto 256 (fun a => (a =? 0) || ((0 <=? gf_dlog a) && (gf_dlog a <? 255) && (gf_pow (gf_dlog a) =? a)))
    ltac:(vm_compute; reflexivity) a ltac:(lia)) as Hc. cbv beta in Hc. destruct (Z.eqb_spec a 0); [lia|]. cbn [orb] in Hc. case_bools. auto.
Qed.

(** The constant-time square is the product of an element with itself. *)
Lemma gf_square_mul a : is_u8 a -> gf_square a = gf_mul a a.
Proof.
  intros Ha. apply Z.eqb_eq. exact (check_upto 256 (fun a => gf_square a =? gf_mul a a) ltac:(vm_compute; reflexivity) a Ha).
Qed.
Lemma gf_square_u8 a : is_u8 a -> is_u8 (gf_square a).
Proof. intros Ha. rewrite gf_square_mul by exact Ha. apply gf_mul_u8; exact Ha. Qed.

Lemma gf_square_pow i : 0 <= i < 255 -> gf_square (gf_pow i) = gf_pow ((2 * i) mod 255).
Proof. intros Hi. rewrite gf_square_mul, gf_pow_add by (try apply gf_pow_u8; lia). f_equal. f_equal. lia. Qed.

Lemma gf_inverse_pow i : 0 <= i < 255 -> gf_inverse (gf_pow i) = gf_pow ((254 * i) mod 255).
Proof.
  intros Hi. unfold gf_inverse. cbv zeta.
  assert (Hm : forall n, 0 <= n mod 255 < 255) by (intros n; apply Z.mod_pos_bound; lia).
  assert (Hsq : forall n, gf_square (gf_pow (n * i mod 255)) = gf_pow (2 * n * i mod 255)).
  { intros n. rewrite gf_square_pow by apply Hm. rewrite Zmult_mod_idemp_r. f_equal. f_equal. ring. }
  assert (Hmul : forall m n, gf_mul (gf_pow (m * i mod 255)) (gf_pow (n * i mod 255)) = gf_pow ((m + n) * i mod 255)).
  { intros m n. rewrite gf_pow_add by apply Hm. rewrite <- Zplus_mod. f_equal. f_equal. ring. }
  assert (E1 : gf_pow i = gf_pow (1 * i mod 255)) by (rewrite Z.mul_1_l, Z.mod_small by lia; reflexivity).
  rewrite E1, !Hsq, !Hmul, !Hsq, !Hmul, !Hsq. reflexivity.
Qed.

Lemma gf_inverse_spec a : 1 <= a < 256 -> is_u8 (gf_inverse a) /\ gf_mul a (gf_inverse a) = 1.
Proof.
  intros Ha. destruct (gf_pow_log a Ha) as [Hl E]. rewrite <- E, gf_inverse_pow by exact Hl.
  pose proof (Z.mod_pos_bound (254 * gf_dlog a) 255 ltac:(lia)) as Hm. split; [apply gf_pow_u8; lia|].
  rewrite gf_pow_add by lia. rewrite Zplus_mod_idemp_r. replace (gf_dlog a + 254 * gf_dlog a) with (gf_dlog a * 255) by ring.
  rewrite Z_mod_mult. reflexivity.
Qed.

(** ** Properties *)

(** The constant-time multiplication is multiplication in the field of 256
    elements: for all bytes it returns the remainder of the product of the two
    polynomials by 1 + X^2 + X^3 + X^4 + X^8. *)
Theorem gf_mul_spec a b : is_u8 a -> is_u8 b ->
  remainder PARAM_GF_POLY 8 (clmul a b) (gf_mul a b).
Proof. exact (gf_mul_remainder a b). Qed.

Example gf_mul_spec_witness : remainder PARAM_GF_POLY 8 (clmul 0x57 0x83) (gf_mul 0x57 0x83).
Proof. apply (gf_mul_spec 0x57 0x83); decided. Defined.

(** The bytes are a field under [Z.lxor] and [gf_mul], with the square and the
    inverse that the addition chains compute. *)
Theorem gf_field a b c : is_u8 a -> is_u8 b -> is_u8 c ->
  gf_mul a b = gf_mul b a /\ gf_mul a (gf_mul b c) = gf_mul (gf_mul a b) c /\
  gf_mul a (Z.lxor b c) = Z.lxor (gf_mul a b) (gf_mul a c) /\ gf_mul 1 a = a /\
  gf_square a = gf_mul a a /\ (a <> 0 -> is_u8 (gf_inverse a) /\ gf_mul a (gf_inverse a) = 1).
Proof.
  intros Ha Hb Hc. split_and!; [apply gf_mul_comm; assumption|apply gf_mul_assoc; assumption|apply gf_mul_lxor_r; assumption
    |apply gf_mul_1_l; exact Ha|apply gf_square_mul; exact Ha|].
  intros Hne. apply gf_inverse_spec. unfold in_width in Ha. lia.
Qed.

Example gf_field_witness :
  gf_mul 0x57 0x83 = gf_mul 0x83 0x57 /\ gf_mul 0x57 (gf_mul 0x83 0xff) = gf_mul (gf_mul 0x57 0x83) 0xff /\
  gf_mul 0x57 (Z.lxor 0x83 0xff) = Z.lxor (gf_mul 0x57 0x83) (gf_mul 0x57 0xff) /\ gf_mul 1 0x57 = 0x57 /\
  gf_square 0x57 = gf_mul 0x57 0x57 /\ (0x57 <> 0 -> is_u8 (gf_inverse 0x57) /\ gf_mul 0x57 (gf_inverse 0x57) = 1).
Proof. apply (gf_field 0x57 0x83 0xff); decided. Defined.

(** The tables are what [gf_generate] writes into cleared arrays, and they
    are logarithm and exponential: a product of nonzero elements is found by adding
    logarithms modulo 255 with [gf_mod]. *)
Theorem gf_tables a b :
  1 <= a < 256 -> 1 <= b < 256 ->
  gf_generate (zeros 258) (zeros 256) PARAM_M = Some (gf_exp, gf_log) /\
  gf_mul a b = gf_pow (gf_mod (gf_dlog a + gf_dlog b)).
Proof.
  intros Ha Hb. split; [vm_compute; reflexivity|].
  destruct (gf_pow_log a Ha) as [Hla Ea], (gf_pow_log b Hb) as [Hlb Eb].
  assert (Hmod : gf_mod (gf_dlog a + gf_dlog b) = (gf_dlog a + gf_dlog b) mod 255).
  { apply Z.eqb_eq. exact (check_upto 509 (fun i => gf_mod i =? i mod 255) ltac:(vm_compute; reflexivity) (gf_dlog a + gf_dlog b) ltac:(lia)). }
  rewrite Hmod, <- gf_pow_add, Ea, Eb by lia. reflexivity.
Qed.

Example gf_tables_witness :
  gf_generate (zeros 258) (zeros 256) PARAM_M = Some (gf_exp, gf_log) /\
  gf_mul 0x57 0x83 = gf_pow (gf_mod (gf_dlog 0x57 + gf_dlog 0x83)).
Proof. apply (gf_tables 0x57 0x83); lia. Defined.
