(* ===== verification/GfRing.v ===== *)
(** * The field of 256 elements as a ring

    The operations of [gf.c] on bytes, as a type of field elements with Leibniz
    equality, so that [ring] decides identities (with 1 + 1 = 0); finite sums,
    powers, inverses, and the lemma on weighted sums of powers behind the decoder. *)

From S2P Require Import Prelude Carryless Words Gf.
From Stdlib Require Import Ring Ring_theory.

(** ** The type *)

Definition gf_range (x : Z) : bool := (0 <=? x) && (x <? 256).
Record gf := Gf { gfv : Z; gf_ok : gf_range gfv = true }.

Lemma gf_range_u8 x : gf_range x = true <-> is_u8 x.
Proof. unfold gf_range, is_u8, in_width. rewrite andb_true_iff, Z.leb_le, Z.ltb_lt. reflexivity. Qed.

Lemma gf_eq a b : gfv a = gfv b -> a = b.
Proof.
  destruct a as [x Hx], b as [y Hy]. cbn. intros <-. f_equal. apply (Eqdep_dec.UIP_dec Bool.bool_dec).
Qed.
Lemma gfv_u8 a : is_u8 (gfv a).
Proof. apply gf_range_u8, gf_ok. Qed.

Lemma of_byte_ok x : gf_range (u8 x) = true.
Proof. apply gf_range_u8, u8_range. Qed.
(** The element that a byte stands for. *)
Definition of_byte (x : Z) : gf := Gf (u8 x) (of_byte_ok x).

Lemma gfv_of_byte x : is_u8 x -> gfv (of_byte x) = x.
Proof. intros Hx. apply u8_id, Hx. Qed.
Lemma of_byte_gfv a : of_byte (gfv a) = a.
Proof. apply gf_eq, u8_id, gfv_u8. Qed.
Lemma of_byte_inj x y : is_u8 x -> is_u8 y -> of_byte x = of_byte y -> x = y.
Proof. intros Hx Hy E. rewrite <- (gfv_of_byte x Hx), <- (gfv_of_byte y Hy), E. reflexivity. Qed.

#[export] Instance gf_eq_dec : EqDecision gf.
Proof. intros a b. destruct (Z.eq_dec (gfv a) (gfv b)) as [E|E]; [left; apply gf_eq, E|right; intros ->; contradiction]. Defined.

(** ** The operations *)

Definition gzero : gf := of_byte 0.
Definition gone : gf := of_byte 1.
Definition gadd (a b : gf) : gf := of_byte (Z.lxor (gfv a) (gfv b)).
Definition gmul (a b : gf) : gf := of_byte (gf_mul (gfv a) (gfv b)).
Definition ginv (a : gf) : gf := of_byte (gf_inverse (gfv a)).

Declare Scope gf_scope.
Delimit Scope gf_scope with gf.
Bind Scope gf_scope with gf.
Notation "0" := gzero : gf_scope.
Notation "1" := gone : gf_scope.
Infix "+" := gadd : gf_scope.
Infix "*" := gmul : gf_scope.
#[local] Open Scope gf_scope.

Lemma lxor_u8 a b : is_u8 a -> is_u8 b -> is_u8 (Z.lxor a b).
Proof. apply width_lxor. lia. Qed.
Create HintDb gf_range.
#[export] Hint Resolve gfv_u8 lxor_u8 gf_mul_u8 gf_square_u8 : gf_range.

Lemma gfv_add a b : gfv (a + b) = Z.lxor (gfv a) (gfv b).
Proof. apply gfv_of_byte. auto with gf_range. Qed.
Lemma gfv_mul a b : gfv (a * b) = gf_mul (gfv a) (gfv b).
Proof. apply gfv_of_byte. auto with gf_range. Qed.
Lemma of_byte_lxor x y : is_u8 x -> is_u8 y -> of_byte (Z.lxor x y) = of_byte x + of_byte y.
Proof. intros Hx Hy. unfold gadd. rewrite !gfv_of_byte by assumption. reflexivity. Qed.
Lemma of_byte_mul x y : is_u8 x -> is_u8 y -> of_byte (gf_mul x y) = of_byte x * of_byte y.
Proof. intros Hx Hy. unfold gmul. rewrite !gfv_of_byte by assumption. reflexivity. Qed.
Lemma of_byte_square x : is_u8 x -> of_byte (gf_square x) = of_byte x * of_byte x.
Proof. intros Hx. rewrite gf_square_mul by exact Hx. apply of_byte_mul; exact Hx. Qed.

(** ** The ring *)

Lemma gadd_comm a b : a + b = b + a.
Proof. apply gf_eq. rewrite !gfv_add. apply Z.lxor_comm. Qed.
Lemma gadd_assoc a b c : a + (b + c) = (a + b) + c.
Proof. apply gf_eq. rewrite !gfv_add. symmetry. apply Z.lxor_assoc. Qed.
Lemma gadd_0_l a : 0 + a = a.
Proof. apply gf_eq. rewrite gfv_add. apply Z.lxor_0_l. Qed.
Lemma gadd_self a : a + a = 0.
Proof. apply gf_eq. rewrite gfv_add. apply Z.lxor_nilpotent. Qed.
Lemma gmul_comm a b : a * b = b * a.
Proof. apply gf_eq. rewrite !gfv_mul. apply gf_mul_comm; apply gfv_u8. Qed.
Lemma gmul_assoc a b c : a * (b * c) = (a * b) * c.
Proof. apply gf_eq. rewrite !gfv_mul. apply gf_mul_assoc; apply gfv_u8. Qed.
Lemma gmul_1_l a : 1 * a = a.
Proof. apply gf_eq. rewrite gfv_mul. apply gf_mul_1_l, gfv_u8. Qed.
Lemma gmul_add_l a b c : (a + b) * c = a * c + b * c.
Proof. apply gf_eq. rewrite gfv_mul, !gfv_add, !gfv_mul. apply gf_mul_lxor_l; apply gfv_u8. Qed.

Definition gopp (a : gf) : gf := a.
Lemma gf_ring_theory : ring_theory 0 1 gadd gmul gadd gopp eq.
Proof.
  split; [apply gadd_0_l|apply gadd_comm|apply gadd_assoc|apply gmul_1_l|apply gmul_comm|apply gmul_assoc|apply gmul_add_l|reflexivity|apply gadd_self].
Qed.

(** The coefficients 0 and 1, so that [ring] knows that 1 + 1 = 0. *)
Definition gf_of_bool (b : bool) : gf := if b then 1 else 0.
Lemma gf_morphism : ring_morph 0 1 gadd gmul gadd gopp eq false true xorb andb xorb (fun b => b) Bool.eqb gf_of_bool.
Proof.
  split; try reflexivity.
  - intros [] []; cbn; symmetry; first [apply gadd_self | rewrite gadd_comm; apply gadd_0_l | apply gadd_0_l].
  - intros [] []; cbn; symmetry; first [apply gadd_self | rewrite gadd_comm; apply gadd_0_l | apply gadd_0_l].
  - intros [] []; cbn; apply gf_eq; vm_compute; reflexivity.
  - intros x y Hxy. apply Bool.eqb_prop in Hxy. congruence.
Qed.
Ltac gf_constant t := match t with gzero => constr:(false) | gone => constr:(true) | _ => constr:(InitialRing.NotConstant) end.
Add Ring gf_ring : gf_ring_theory (morphism gf_morphism, constants [gf_constant]).

Lemma gadd_eq a b : a + b = 0 <-> a = b.
Proof. split; [|intros ->; ring]. intros H. replace a with ((a + b) + b) by ring. rewrite H. ring. Qed.
Lemma gmul_0_r a : a * 0 = 0.
Proof. ring. Qed.

Lemma gone_nonzero : 1 <> 0.
Proof. intros H. apply (f_equal gfv) in H. discriminate H. Qed.

Lemma nonzero_range a : a <> 0 -> (1 <= gfv a < 256)%Z.
Proof.
  intros Ha. pose proof (gfv_u8 a) as H. unfold is_u8, in_width in H. assert (gfv a <> 0%Z); [|lia].
  intros E. apply Ha, gf_eq. rewrite E. reflexivity.
Qed.
Lemma ginv_r a : a <> 0 -> a * ginv a = 1.
Proof.
  intros Ha. destruct (gf_inverse_spec (gfv a) (nonzero_range a Ha)) as [Hi Hm]. apply gf_eq. rewrite gfv_mul.
  unfold ginv. rewrite gfv_of_byte, Hm by exact Hi. reflexivity.
Qed.
Lemma ginv_nonzero a : a <> 0 -> ginv a <> 0.
Proof. intros Ha E. apply gone_nonzero. rewrite <- (ginv_r a Ha), E. ring. Qed.
Lemma gmul_eq_0 a b : a * b = 0 -> a = 0 \/ b = 0.
Proof.
  intros H. destruct (decide (a = 0)) as [|Ha]; [auto|]. right. replace b with (a * ginv a * b) by (rewrite ginv_r by exact Ha; ring).
  replace (a * ginv a * b) with (ginv a * (a * b)) by ring. rewrite H. ring.
Qed.
Lemma gmul_nonzero a b : a <> 0 -> b <> 0 -> a * b <> 0.
Proof. intros Ha Hb H. destruct (gmul_eq_0 a b H); contradiction. Qed.
Lemma gmul_cancel a b c : a <> 0 -> a * b = a * c -> b = c.
Proof.
  intros Ha H. apply gadd_eq. destruct (gmul_eq_0 a (b + c)); [|contradiction|assumption].
  replace (a * (b + c)) with (a * b + a * c) by ring. rewrite H. ring.
Qed.
Lemma ginv_unique a b : a * b = 1 -> b = ginv a.
Proof.
  intros H. assert (Ha : a <> 0) by (intros ->; apply gone_nonzero; rewrite <- H; ring).
  apply (gmul_cancel a); [exact Ha|]. rewrite H, ginv_r by exact Ha. reflexivity.
Qed.

(** The code's functions on the bytes of elements. *)
Lemma gfv_inv a : gfv (ginv a) = gf_inverse (gfv a).
Proof.
  apply gfv_of_byte. destruct (Z.eq_dec (gfv a) 0%Z) as [->|Hne]; [decided|]. apply gf_inverse_spec.
  pose proof (gfv_u8 a). unfold in_width in *. lia.
Qed.
Lemma gfv_square a : gfv (a * a) = gf_square (gfv a).
Proof. rewrite gfv_mul. symmetry. apply gf_square_mul, gfv_u8. Qed.

(** ** Powers and sums *)

Fixpoint gpow (x : gf) (n : nat) : gf := match n with O => 1 | S n => x * gpow x n end.
Infix "^" := gpow : gf_scope.

Lemma gpow_add x n m : x ^ (n + m) = x ^ n * x ^ m.
Proof. induction n as [|n IH]; cbn [gpow Nat.add]; [ring|]. rewrite IH. ring. Qed.
Lemma gpow_pred x n : (1 <= n)%nat -> x ^ n = x ^ (n - 1) * x.
Proof. intros Hn. replace n with (S (n - 1)) at 1 by lia. cbn [gpow]. ring. Qed.
Lemma gpow_mul x y n : (x * y) ^ n = x ^ n * y ^ n.
Proof. induction n as [|n IH]; cbn [gpow]; [ring|]. rewrite IH. ring. Qed.
Lemma gpow_1 n : 1 ^ n = 1.
Proof. induction n as [|n IH]; cbn [gpow]; [reflexivity|]. rewrite IH. ring. Qed.
Lemma gpow_nonzero x n : x <> 0 -> x ^ n <> 0.
Proof. intros Hx. induction n as [|n IH]; cbn [gpow]; [exact gone_nonzero|apply gmul_nonzero; assumption]. Qed.
Lemma gpow_inv x n : x <> 0 -> x ^ n * ginv x ^ n = 1.
Proof. intros Hx. rewrite <- gpow_mul, ginv_r, gpow_1 by exact Hx. reflexivity. Qed.

Fixpoint gsum (f : nat -> gf) (n : nat) : gf := match n with O => 0 | S n => gsum f n + f n end.

Lemma gsum_ext f g n : (forall k, (k < n)%nat -> f k = g k) -> gsum f n = gsum g n.
Proof. intros H. induction n as [|n IH]; cbn [gsum]; [reflexivity|]. rewrite IH, H by (intros; try apply H; lia). reflexivity. Qed.
Lemma gsum_zero f n : (forall k, (k < n)%nat -> f k = 0) -> gsum f n = 0.
Proof. intros H. induction n as [|n IH]; cbn [gsum]; [reflexivity|]. rewrite IH, H by (intros; try apply H; lia). ring. Qed.
Lemma gsum_add f g n : gsum (fun k => f k + g k) n = gsum f n + gsum g n.
Proof. induction n as [|n IH]; cbn [gsum]; [ring|]. rewrite IH. ring. Qed.
Lemma gsum_mul c f n : gsum (fun k => c * f k) n = c * gsum f n.
Proof. induction n as [|n IH]; cbn [gsum]; [ring|]. rewrite IH. ring. Qed.
Lemma gsum_first f n : gsum f (S n) = f O + gsum (fun k => f (S k)) n.
Proof. induction n as [|n IH]; [cbn; ring|]. cbn [gsum] in *. rewrite IH. ring. Qed.
Lemma gsum_extend f n m : (n <= m)%nat -> (forall k, (n <= k < m)%nat -> f k = 0) -> gsum f m = gsum f n.
Proof.
  intros Hm H. induction Hm as [|m Hm IH]; [reflexivity|]. cbn [gsum]. rewrite IH, H by (intros; try apply H; lia). ring.
Qed.

(** Sums over a list. *)
Definition gsums {A} (f : A -> gf) (l : list A) : gf := foldr (fun x acc => f x + acc) 0 l.
Lemma gsums_ext {A} (f g : A -> gf) l : (forall x, x ∈ l -> f x = g x) -> gsums f l = gsums g l.
Proof.
  induction l as [|x l IH]; intros H; [reflexivity|]. cbn [gsums foldr]. fold (gsums f l) (gsums g l).
  rewrite H, IH by (intros; try apply H; set_solver). reflexivity.
Qed.
Lemma gsums_add {A} (f g : A -> gf) l : gsums (fun x => f x + g x) l = gsums f l + gsums g l.
Proof. induction l as [|x l IH]; cbn [gsums foldr]; [ring|]. fold (gsums (fun x => f x + g x) l) (gsums f l) (gsums g l). rewrite IH. ring. Qed.
Lemma gsums_mul {A} c (f : A -> gf) l : gsums (fun x => c * f x) l = c * gsums f l.
Proof. induction l as [|x l IH]; cbn [gsums foldr]; [ring|]. fold (gsums (fun x => c * f x) l) (gsums f l). rewrite IH. ring. Qed.
Lemma gsums_zero {A} (f : A -> gf) l : (forall x, x ∈ l -> f x = 0) -> gsums f l = 0.
Proof.
  induction l as [|x l IH]; intros H; [reflexivity|]. cbn [gsums foldr]. fold (gsums f l). rewrite H, IH by (intros; try apply H; set_solver). ring.
Qed.
Lemma gsums_gsum {A} (f : A -> nat -> gf) l n : gsums (fun x => gsum (f x) n) l = gsum (fun k => gsums (fun x => f x k) l) n.
Proof.
  induction n as [|n IH]; cbn [gsum]; [apply gsums_zero; reflexivity|]. rewrite <- IH. apply gsums_add.
Qed.

(** Weighted sums of powers of distinct elements that vanish for as many exponents in a
    row as there are elements have no weight. *)
Lemma power_sums_zero (pts : list gf) : NoDup pts -> forall (W : gf -> gf),
  (forall i, (i < length pts)%nat -> gsums (fun x => W x * x ^ i) pts = 0) -> forall x, x ∈ pts -> W x = 0.
Proof.
  induction 1 as [|x0 pts Hx0 Hnd IH]; intros W HW x Hx; [set_solver|].
  assert (Hrest : forall x, x ∈ pts -> W x = 0).
  { intros y Hy. assert (Hz : W y * (y + x0) = 0).
    - apply (IH (fun y => W y * (y + x0))); [|exact Hy]. intros i Hi.
      pose proof (HW i ltac:(cbn; lia)) as E0. pose proof (HW (S i) ltac:(cbn; lia)) as E1. cbn [gsums foldr] in E0, E1.
      fold (gsums (fun x => W x * x ^ i) pts) in E0. fold (gsums (fun x => W x * x ^ S i) pts) in E1.
      rewrite (gsums_ext _ (fun x => W x * x ^ S i + x0 * (W x * x ^ i))) by (intros z _; cbn [gpow]; ring).
      rewrite gsums_add, gsums_mul. cbn [gpow] in E1 |- *.
      replace (gsums (fun x => W x * (x * x ^ i)) pts + x0 * gsums (fun x => W x * x ^ i) pts)
        with ((W x0 * (x0 * x0 ^ i) + gsums (fun x => W x * (x * x ^ i)) pts) + x0 * (W x0 * x0 ^ i + gsums (fun x => W x * x ^ i) pts)) by ring.
      rewrite E0, E1. ring.
    - destruct (gmul_eq_0 _ _ Hz) as [|E]; [assumption|]. apply (proj1 (gadd_eq _ _)) in E. rewrite E in Hy. contradiction. }
  apply elem_of_cons in Hx as [->|Hx]; [|apply Hrest, Hx].
  pose proof (HW O ltac:(cbn; lia)) as E. cbn [gsums foldr] in E. fold (gsums (fun x => W x * x ^ 0) pts) in E.
  rewrite (gsums_zero (fun x => W x * x ^ 0)) in E by (intros y Hy; rewrite (Hrest y Hy); ring). cbn [gpow] in E. rewrite <- E. ring.
Qed.

(** ** Arrays of elements

    The arrays of the decoder hold bytes; [gfs l] is the array of the elements [l] and
    [coef l] the function of their index. *)

Definition gfs (l : list gf) : list Z := gfv <$> l.
Definition coef (l : list gf) (i : nat) : gf := default 0 (l !! i).

Lemma length_gfs l : length (gfs l) = length l.
Proof. apply length_fmap. Qed.
Lemma gfs_bytes l : all_bytes (gfs l).
Proof. apply list.Forall_fmap, list.Forall_true. apply gfv_u8. Qed.
Lemma gfs_of_bytes l : all_bytes l -> gfs (of_byte <$> l) = l.
Proof.
  intros Hl. unfold gfs. rewrite <- list_fmap_compose. rewrite <- (list_fmap_id l) at 2. apply list_fmap_ext. intros i x Hx.
  apply gfv_of_byte. exact (proj1 (list.Forall_lookup _ _) Hl i x Hx).
Qed.
Lemma gfs_zeros n : zeros (Z.of_nat n) = gfs (replicate n 0).
Proof. unfold gfs, zeros. rewrite Nat2Z.id, fmap_replicate. reflexivity. Qed.
Lemma coef_replicate n i : coef (replicate n 0) i = 0.
Proof.
  unfold coef. destruct (decide (i < n)%nat); [rewrite lookup_replicate_2 by assumption; reflexivity|].
  rewrite lookup_ge_None_2 by (rewrite length_replicate; lia). reflexivity.
Qed.

Lemma cell_gfs (k : nat) l i : i = Z.of_nat k -> (k < length l)%nat -> cell (gfs l) i = Some (gfv (coef l k)).
Proof.
  intros -> Hk. rewrite cell_lookup, Nat2Z.id by lia. unfold gfs, coef. rewrite list_lookup_fmap.
  destruct (lookup_lt_is_Some_2 l k Hk) as [x ->]. reflexivity.
Qed.
Lemma set_cell_gfs (k : nat) l i x : i = Z.of_nat k -> (k < length l)%nat -> set_cell (gfs l) i (gfv x) = Some (gfs (<[k := x]> l)).
Proof.
  intros -> Hk. rewrite set_cell_total by (rewrite length_gfs; lia). rewrite Nat2Z.id. unfold gfs. rewrite list_fmap_insert. reflexivity.
Qed.
Lemma coef_insert l k x j : (k < length l)%nat -> coef (<[k := x]> l) j = if decide (j = k) then x else coef l j.
Proof.
  intros Hk. unfold coef. destruct (decide (j = k)) as [->|Hne]; [rewrite list_lookup_insert_eq by exact Hk; reflexivity|].
  rewrite list_lookup_insert_ne by congruence. reflexivity.
Qed.
Lemma coef_eq l l' : length l = length l' -> (forall i, (i < length l)%nat -> coef l i = coef l' i) -> l = l'.
Proof.
  intros Hl H. apply list_eq. intros i. destruct (decide (i < length l)%nat) as [Hi|Hi]; [|rewrite !lookup_ge_None_2 by lia; reflexivity].
  specialize (H i Hi). unfold coef in H. destruct (lookup_lt_is_Some_2 l i Hi) as [x Hx], (lookup_lt_is_Some_2 l' i ltac:(lia)) as [y Hy].
  rewrite Hx, Hy in *. cbn in H. congruence.
Qed.
Lemma coef_fmap (f : gf -> gf) l i : (i < length l)%nat -> coef (f <$> l) i = f (coef l i).
Proof. intros Hi. unfold coef. rewrite list_lookup_fmap. destruct (lookup_lt_is_Some_2 l i Hi) as [x ->]. reflexivity. Qed.
Lemma coef_fmap_seq (f : nat -> gf) n i : (i < n)%nat -> coef (f <$> seq 0 n) i = f i.
Proof. intros Hi. unfold coef. rewrite list_lookup_fmap, lookup_seq_lt by exact Hi. reflexivity. Qed.

(** A loop that writes [v i] at [off + i] for each index. *)
Lemma ofor_fill (v : nat -> gf) (off n : nat) body (l : list gf) : (off + n <= length l)%nat ->
  (forall (i : nat) l', (i < n)%nat -> length l' = length l -> (forall j, (j < i)%nat -> coef l' (off + j) = v j) ->
     (forall j, (j < off \/ off + i <= j)%nat -> coef l' j = coef l j) -> body (Z.of_nat i) (gfs l') = set_cell (gfs l') (Z.of_nat (off + i)) (gfv (v i))) ->
  exists l', ofor (upto (Z.of_nat n)) body (gfs l) = Some (gfs l') /\ length l' = length l /\
    (forall j, (j < n)%nat -> coef l' (off + j) = v j) /\ (forall j, (j < off \/ off + n <= j)%nat -> coef l' j = coef l j).
Proof.
  intros Hl Hb.
  set (P := fun (m : Z) (s : list Z) => exists l', s = gfs l' /\ length l' = length l /\
    (forall j, (j < Z.to_nat m)%nat -> coef l' (off + j) = v j) /\ (forall j, (j < off \/ off + Z.to_nat m <= j)%nat -> coef l' j = coef l j)).
  destruct (ofor_upto_ind P (Z.of_nat n) body (gfs l)) as (s & E & l' & -> & H1 & H2 & H3); [lia| | |].
  - exists l. split_and!; [reflexivity|reflexivity|intros j Hj; cbn in Hj; lia|reflexivity].
  - intros i s Hi (l' & -> & H1 & H2 & H3). replace i with (Z.of_nat (Z.to_nat i)) by lia. rewrite Hb by (assumption || lia).
    rewrite (set_cell_gfs (off + Z.to_nat i)) by lia. eexists. split; [reflexivity|]. eexists. split; [reflexivity|].
    rewrite length_insert. split; [exact H1|]. split; intros j Hj; rewrite coef_insert by lia.
    + destruct (decide (off + j = off + Z.to_nat i)%nat); [f_equal; lia|apply H2; lia].
    + destruct (decide (j = off + Z.to_nat i)%nat); [lia|apply H3; lia].
  - exists l'. rewrite Nat2Z.id in H2, H3. auto.
Qed.

(** A loop that moves every element up by one, changed. *)
Lemma ofor_shift (v : nat -> gf) (n : nat) body (l : list gf) : (n < length l)%nat ->
  (forall (i : nat) l', (1 <= i <= n)%nat -> length l' = length l -> (forall j, (j <= i)%nat -> coef l' j = coef l j) ->
     body (Z.of_nat i) (gfs l') = set_cell (gfs l') (Z.of_nat i) (gfv (v i))) ->
  exists l', ofor (rev (seqZ 1 (Z.of_nat n))) body (gfs l) = Some (gfs l') /\ length l' = length l /\
    forall j, coef l' j = if decide (1 <= j <= n)%nat then v j else coef l j.
Proof.
  intros Hl Hb. set (P := fun (m : Z) (s : list Z) => exists l', s = gfs l' /\ length l' = length l /\
    forall j, coef l' j = if decide (Z.to_nat m <= j <= n)%nat then v j else coef l j).
  destruct (ofor_rev_ind P 1 (Z.of_nat n) body (gfs l)) as (s & E & l' & -> & H1 & H2); [lia| | |].
  - exists l. split_and!; [reflexivity|reflexivity|]. intros j. case_decide; [lia|reflexivity].
  - intros i s Hi (l' & -> & H1 & H2). replace i with (Z.of_nat (Z.to_nat i)) by lia.
    rewrite Hb; [|lia|exact H1|intros j Hj; rewrite H2; case_decide; [lia|reflexivity]].
    rewrite (set_cell_gfs (Z.to_nat i)) by lia. eexists. split; [reflexivity|]. eexists. split; [reflexivity|].
    rewrite length_insert. split; [exact H1|]. intros j. rewrite coef_insert, H2 by lia. rewrite Nat2Z.id.
    repeat case_decide; try lia; [congruence|reflexivity|reflexivity].
  - exists l'. auto.
Qed.

(** A loop that adds [g i], wherever the sum is kept. *)
Lemma ofor_sum {S} (embed : gf -> S) (g : nat -> gf) (a n : nat) body acc :
  (forall (i : nat) acc, (a <= i < a + n)%nat -> body (Z.of_nat i) (embed acc) = Some (embed (acc + g i))) ->
  ofor (seqZ (Z.of_nat a) (Z.of_nat n)) body (embed acc) = Some (embed (acc + gsum (fun k => g (a + k)%nat) n)).
Proof.
  intros Hb. set (P := fun (m : Z) (s : S) => s = embed (acc + gsum (fun k => g (a + k)%nat) (Z.to_nat m - a))).
  destruct (ofor_seqZ_ind P (Z.of_nat a) (Z.of_nat n) body (embed acc)) as (s & -> & ->); [lia| | |].
  - unfold P. rewrite Nat2Z.id, Nat.sub_diag. cbn [gsum]. f_equal. ring.
  - intros i s Hi ->. specialize (Hb (Z.to_nat i) (acc + gsum (fun k => g (a + k)%nat) (Z.to_nat i - a)) ltac:(lia)). rewrite Z2Nat.id in Hb by lia.
    rewrite Hb. eexists. split; [reflexivity|]. unfold P.
    replace (Z.to_nat (i + 1) - a)%nat with (Datatypes.S (Z.to_nat i - a)) by lia. cbn [gsum]. replace (a + (Z.to_nat i - a))%nat with (Z.to_nat i) by lia. f_equal. ring.
  - do 4 f_equal. lia.
Qed.

Lemma coef_app a b i : coef (a ++ b) i = if decide (i < length a)%nat then coef a i else coef b (i - length a).
Proof. unfold coef. case_decide; [rewrite lookup_app_l by lia|rewrite lookup_app_r by lia]; reflexivity. Qed.
Lemma coef_high l i : (length l <= i)%nat -> coef l i = 0.
Proof. intros Hi. unfold coef. rewrite lookup_ge_None_2 by exact Hi. reflexivity. Qed.

(** ** The primitive element *)

Definition alpha : gf := of_byte 2.
Lemma gfv_alpha n : gfv (alpha ^ n) = gf_pow (Z.of_nat n mod 255).
Proof.
  induction n as [|n IH]; [reflexivity|]. cbn [gpow]. rewrite gfv_mul, IH. change (gfv alpha) with 2%Z.
  pose proof (Z.mod_pos_bound (Z.of_nat n) 255 ltac:(lia)) as Hm. rewrite gf_pow_next by lia. rewrite Nat2Z.inj_succ.
  destruct (Z.eq_dec (Z.of_nat n mod 255) 254) as [E|Hne].
  - rewrite E. replace (Z.succ (Z.of_nat n) mod 255)%Z with 0%Z by (Z.to_euclidean_division_equations; lia). reflexivity.
  - f_equal. Z.to_euclidean_division_equations; lia.
Qed.
Lemma alpha_nonzero n : alpha ^ n <> 0.
Proof. apply gpow_nonzero. intros E. apply (f_equal gfv) in E. discriminate E. Qed.
Lemma gpow_gpow x n m : (x ^ n) ^ m = x ^ (n * m).
Proof. induction m as [|m IH]; [rewrite Nat.mul_0_r; reflexivity|]. cbn [gpow]. rewrite IH, Nat.mul_succ_r, gpow_add. ring. Qed.

Lemma set_cell_self (k : nat) l i : i = Z.of_nat k -> (k < length l)%nat -> set_cell (gfs l) i (gfv (coef l k)) = Some (gfs l).
Proof.
  intros Hi Hk. rewrite (set_cell_gfs k) by assumption. do 2 f_equal. apply coef_eq; [apply length_insert|]. intros j Hj.
  rewrite coef_insert by exact Hk. case_decide; [congruence|reflexivity].
Qed.
