(* ===== verification/Locator.v ===== *)
(** * Error locators over the field of 256 elements

    The algebra behind [reed_solomon.c], apart from its arrays.  A polynomial is the
    function of its coefficients.  Errors are a list of distinct nonzero locators with
    a nonzero value each, and what the decoder knows of them is the first power sums
    [psum].  The lemmas say that one turn of the Berlekamp-Massey iteration keeps its
    invariant [bm], that the polynomial it ends with is the product of 1 + X x over the
    locators X, and that the polynomial z gives the values. *)

From S2P Require Import Prelude Carryless Gf GfRing.
From Stdlib Require Import Ring.

#[local] Open Scope gf_scope.

(** ** Polynomials *)

(** The value of the first [n] terms. *)
Definition eval (f : nat -> gf) (n : nat) (x : gf) : gf := gsum (fun i => f i * x ^ i) n.
Definition degree_le (f : nat -> gf) (n : nat) : Prop := forall k, (n < k)%nat -> f k = 0.
Definition shifted (f : nat -> gf) (n : nat) : gf := match n with O => 0 | S k => f k end.
(** The product with 1 + X x. *)
Definition times (X : gf) (f : nat -> gf) (n : nat) : gf := f n + X * shifted f n.
Definition one_poly (n : nat) : gf := match n with O => 1 | S _ => 0 end.
Definition locator (pts : list gf) : nat -> gf := foldr times one_poly pts.
Definition gprods {A} (f : A -> gf) (l : list A) : gf := foldr (fun x acc => f x * acc) 1 l.
(** Coefficient [n] of the product with a series without constant term. *)
Definition conv (f s : nat -> gf) (n : nat) : gf := gsum (fun i => f i * s (n - i)%nat) n.

Lemma eval_ext f g n x : (forall i, (i < n)%nat -> f i = g i) -> eval f n x = eval g n x.
Proof. intros H. apply gsum_ext. intros i Hi. rewrite H by exact Hi. reflexivity. Qed.
Lemma eval_add f g n x : eval (fun i => f i + g i) n x = eval f n x + eval g n x.
Proof. unfold eval. rewrite <- gsum_add. apply gsum_ext. intros. ring. Qed.
Lemma eval_mul c f n x : eval (fun i => c * f i) n x = c * eval f n x.
Proof. unfold eval. rewrite <- gsum_mul. apply gsum_ext. intros. ring. Qed.
Lemma eval_extend f n m x : degree_le f n -> (S n <= m)%nat -> eval f m x = eval f (S n) x.
Proof. intros Hf Hm. apply gsum_extend; [exact Hm|]. intros k Hk. rewrite Hf by lia. ring. Qed.
Lemma eval_shifted f n x : eval (shifted f) (S n) x = x * eval f n x.
Proof.
  unfold eval. rewrite gsum_first, <- gsum_mul. cbn [shifted gpow]. rewrite (gsum_ext _ (fun k => x * (f k * x ^ k))) by (intros; cbn [shifted]; ring). ring.
Qed.
Lemma eval_times X f n x : degree_le f n -> eval (times X f) (S (S n)) x = (1 + X * x) * eval f (S n) x.
Proof.
  intros Hf. unfold times. rewrite eval_add, eval_mul, eval_shifted, (eval_extend f n (S (S n))) by (exact Hf || lia). ring.
Qed.

Lemma shifted_ext f g n : (forall k, f k = g k) -> shifted f n = shifted g n.
Proof. intros H. destruct n; cbn; auto. Qed.
Lemma times_ext X f g n : (forall k, f k = g k) -> times X f n = times X g n.
Proof. intros H. unfold times. rewrite H, (shifted_ext f g) by exact H. reflexivity. Qed.
Lemma times_comm X Y f n : times X (times Y f) n = times Y (times X f) n.
Proof. unfold times. destruct n as [|[|n]]; cbn [shifted]; ring. Qed.
Lemma degree_shifted f n : degree_le f n -> degree_le (shifted f) (S n).
Proof. intros Hf [|k] Hk; [reflexivity|]. apply Hf. lia. Qed.
Lemma degree_times X f n : degree_le f n -> degree_le (times X f) (S n).
Proof. intros Hf k Hk. unfold times. rewrite (degree_shifted f n Hf), Hf by lia. ring. Qed.
Lemma degree_mono f n m : (n <= m)%nat -> degree_le f n -> degree_le f m.
Proof. intros Hm Hf k Hk. apply Hf. lia. Qed.
Lemma degree_add f g c n : degree_le f n -> degree_le g n -> degree_le (fun i => f i + c * g i) n.
Proof. intros Hf Hg k Hk. rewrite Hf, Hg by exact Hk. ring. Qed.

(** ** Products of linear factors *)

Lemma gprods_app {A} (f : A -> gf) l1 l2 : gprods f (l1 ++ l2) = gprods f l1 * gprods f l2.
Proof.
  induction l1 as [|x l1 IH]; cbn [gprods foldr app]; [fold (gprods f l2); ring|].
  fold (gprods f l1) (gprods f (l1 ++ l2)). rewrite IH. ring.
Qed.
Lemma gprods_nonzero {A} (f : A -> gf) l : (forall x, x ∈ l -> f x <> 0) -> gprods f l <> 0.
Proof.
  induction l as [|x l IH]; intros H; [exact gone_nonzero|]. cbn [gprods foldr]. fold (gprods f l). apply gmul_nonzero; [apply H; left|apply IH; intros; apply H; right; assumption].
Qed.

Lemma degree_locator pts : degree_le (locator pts) (length pts).
Proof. induction pts as [|X pts IH]; [intros [|k] Hk; [lia|reflexivity]|]. apply degree_times, IH. Qed.
Lemma locator_0 pts : locator pts 0 = 1.
Proof. induction pts as [|X pts IH]; [reflexivity|]. cbn [locator foldr]. fold (locator pts). unfold times. rewrite IH. cbn [shifted]. ring. Qed.
Lemma locator_top pts : locator pts (length pts) = gprods (fun X => X) pts.
Proof.
  induction pts as [|X pts IH]; [reflexivity|]. cbn [locator foldr length gprods]. fold (locator pts) (gprods (fun X => X) pts).
  unfold times. cbn [shifted]. rewrite IH, (degree_locator pts) by lia. ring.
Qed.
Lemma eval_locator pts x : eval (locator pts) (S (length pts)) x = gprods (fun X => 1 + X * x) pts.
Proof.
  induction pts as [|X pts IH]; [cbn; ring|]. cbn [locator foldr length gprods]. fold (locator pts) (gprods (fun X => 1 + X * x) pts).
  rewrite eval_times, IH by apply degree_locator. reflexivity.
Qed.
Lemma locator_middle l1 X l2 n : locator (l1 ++ X :: l2) n = times X (locator (l1 ++ l2)) n.
Proof.
  revert n. induction l1 as [|Y l1 IH]; intros n; [reflexivity|]. cbn [locator app foldr]. fold (locator (l1 ++ X :: l2)) (locator (l1 ++ l2)).
  rewrite (times_ext Y _ _ n IH). apply times_comm.
Qed.

(** ** Power sums *)

Lemma conv_add f g c s n : conv (fun i => f i + c * g i) s n = conv f s n + c * conv g s n.
Proof. unfold conv. rewrite <- gsum_mul, <- gsum_add. apply gsum_ext. intros. ring. Qed.
Lemma conv_ext f g s n : (forall i, f i = g i) -> conv f s n = conv g s n.
Proof. intros H. apply gsum_ext. intros i _. rewrite H. reflexivity. Qed.
Lemma conv_shifted f s n : conv (shifted f) s (S n) = conv f s n.
Proof. unfold conv. rewrite gsum_first. cbn [shifted]. rewrite (gsum_ext _ (fun k => f k * s (n - k)%nat)) by reflexivity. ring. Qed.

(** With the powers of one element. *)
Lemma conv_pow_next f x n : conv f (gpow x) (S n) = x * (conv f (gpow x) n + f n).
Proof.
  unfold conv. cbn [gsum]. replace (S n - n)%nat with 1%nat by lia. cbn [gpow].
  rewrite (gsum_ext _ (fun k => x * (f k * x ^ (n - k)))).
  - rewrite gsum_mul. ring.
  - intros k Hk. replace (S n - k)%nat with (S (n - k)) by lia. cbn [gpow]. ring.
Qed.
Lemma conv_pow_high f x L i : degree_le f L -> conv f (gpow x) (S L + i) = conv f (gpow x) (S L) * x ^ i.
Proof.
  intros Hf. induction i as [|i IH]; [rewrite Nat.add_0_r; cbn; ring|]. rewrite Nat.add_succ_r, conv_pow_next, IH, Hf by lia. cbn [gpow]. ring.
Qed.
Lemma conv_pow_eval f x n : x <> 0 -> conv f (gpow x) n = x ^ n * eval f n (ginv x).
Proof.
  intros Hx. unfold conv, eval. rewrite <- gsum_mul. apply gsum_ext. intros k Hk. replace (x ^ n) with (x ^ (n - k) * x ^ k) by (rewrite <- gpow_add; f_equal; lia).
  replace (x ^ (n - k) * x ^ k * (f k * ginv x ^ k)) with (f k * x ^ (n - k) * (x ^ k * ginv x ^ k)) by ring. rewrite gpow_inv by exact Hx. ring.
Qed.
Lemma conv_times X f n : conv (times X f) (gpow X) (S n) = X * f n.
Proof.
  induction n as [|n IH]; rewrite conv_pow_next; [cbn [conv gsum]; unfold times; cbn [shifted]; unfold conv; cbn [gsum]; ring|].
  rewrite IH. unfold times. cbn [shifted]. ring.
Qed.

Section errors.
(** The errors. *)
Context (pts : list gf) (Y : gf -> gf).
Context (Hnd : NoDup pts) (Hpts : forall x, x ∈ pts -> x <> 0) (HY : forall x, x ∈ pts -> Y x <> 0).

Definition psum (k : nat) : gf := gsums (fun x => Y x * x ^ k) pts.

Lemma conv_psum f n : conv f psum n = gsums (fun x => Y x * conv f (gpow x) n) pts.
Proof using Type.
  unfold conv, psum. rewrite (gsums_ext (fun x => Y x * _) (fun x => gsum (fun i => Y x * (f i * x ^ (n - i))) n)) by (intros; rewrite <- gsum_mul; reflexivity).
  rewrite gsums_gsum. apply gsum_ext. intros k _. rewrite <- gsums_mul. apply gsums_ext. intros. ring.
Qed.

(** A recurrence that holds for as many terms as there are errors holds forever, and
    the polynomial of the recurrence vanishes at the inverse locators. *)
Lemma recurrence_roots f L m : degree_le f L -> (length pts <= m)%nat ->
  (forall n, (L < n <= L + m)%nat -> conv f psum n = 0) -> forall x, x ∈ pts -> eval f (S L) (ginv x) = 0.
Proof using Hnd Hpts HY.
  intros Hf Hm H x Hx. assert (E : Y x * conv f (gpow x) (S L) = 0).
  { apply (power_sums_zero pts Hnd (fun x => Y x * conv f (gpow x) (S L))); [|exact Hx]. intros i Hi.
    rewrite <- (H (S L + i)%nat) by lia. rewrite conv_psum. apply gsums_ext. intros y _. rewrite conv_pow_high by exact Hf. ring. }
  destruct (gmul_eq_0 _ _ E) as [E1|E1]; [destruct (HY x Hx E1)|]. rewrite conv_pow_eval in E1 by exact (Hpts x Hx).
  destruct (gmul_eq_0 _ _ E1) as [E2|E2]; [destruct (gpow_nonzero _ _ (Hpts x Hx) E2)|exact E2].
Qed.
Lemma recurrence_forever f L m n : degree_le f L -> (length pts <= m)%nat ->
  (forall n, (L < n <= L + m)%nat -> conv f psum n = 0) -> (L < n)%nat -> conv f psum n = 0.
Proof using Hnd Hpts HY.
  intros Hf Hm H Hn. rewrite conv_psum. apply gsums_zero. intros x Hx. replace n with (S L + (n - S L))%nat by lia.
  rewrite conv_pow_high, conv_pow_eval, (recurrence_roots f L m Hf Hm H x Hx) by auto. ring.
Qed.

(** ** The iteration *)

(** Before turn [mu] of the loop: the current locator with its length, the polynomial
    it will be corrected by and the discrepancy that one had. *)
Record bm (mu : nat) (sigma B : nat -> gf) (L : nat) (dp : gf) : Prop := BM {
  bm_length : (L <= mu)%nat;
  bm_errors : (L <= length pts)%nat;
  bm_sigma_0 : sigma 0%nat = 1;
  bm_sigma_degree : degree_le sigma L;
  bm_sigma_conv : forall n, (L < n <= mu)%nat -> conv sigma psum n = 0;
  bm_B_0 : B 0%nat = 0;
  bm_B_degree : degree_le B (S mu - L);
  bm_B_conv : forall n, (S mu - L < n <= mu)%nat -> conv B psum n = 0;
  bm_dp : dp <> 0;
  bm_B_next : (1 <= L)%nat -> conv B psum (S mu) = dp }.

Lemma bm_start : bm 0 one_poly (shifted one_poly) 0 1.
Proof using Type.
  split; try lia; try reflexivity; try (intros; lia); [intros [|k] Hk; [lia|reflexivity]|intros [|[|k]] Hk; [lia|lia|reflexivity]|exact gone_nonzero].
Qed.

(** A discrepancy other than zero needs enough errors. *)
Lemma bm_enough mu sigma B L dp : bm mu sigma B L dp -> conv sigma psum (S mu) <> 0 -> (S mu - L <= length pts)%nat.
Proof using Hnd Hpts HY.
  intros H Hd. destruct (decide (S mu - L <= length pts)%nat) as [|Hn]; [assumption|]. destruct Hd.
  pose proof (bm_length _ _ _ _ _ H). apply (recurrence_forever sigma L (mu - L)); [apply H|lia| |lia].
  intros n Hlt. apply (bm_sigma_conv _ _ _ _ _ H). lia.
Qed.

Definition corrected (sigma B : nat -> gf) (c : gf) (i : nat) : gf := sigma i + c * B i.

(** The corrected locator follows the sums one term further. *)
Lemma bm_corrected mu sigma B L dp n : bm mu sigma B L dp -> let d := conv sigma psum (S mu) in
  (L < n)%nat -> (S mu - L < n)%nat -> (n <= S mu)%nat -> conv (corrected sigma B (d * ginv dp)) psum n = 0.
Proof using Type.
  intros H d Hn1 Hn2 Hn3. unfold corrected. rewrite conv_add. destruct (decide (n = S mu)) as [->|].
  - rewrite (bm_B_next _ _ _ _ _ H) by lia. fold d. replace (d * ginv dp * dp) with (d * (dp * ginv dp)) by ring.
    rewrite ginv_r by apply H. ring.
  - rewrite (bm_sigma_conv _ _ _ _ _ H), (bm_B_conv _ _ _ _ _ H) by lia. ring.
Qed.

Lemma bm_grow mu sigma B L dp : bm mu sigma B L dp -> let d := conv sigma psum (S mu) in d <> 0 -> (L < S mu - L)%nat ->
  bm (S mu) (corrected sigma B (d * ginv dp)) (shifted sigma) (S mu - L) d.
Proof using Hnd Hpts HY.
  intros H d Hd Hlt. pose proof (bm_enough _ _ _ _ _ H Hd) as Hen. pose proof (bm_length _ _ _ _ _ H) as Hle. split.
  - lia.
  - exact Hen.
  - unfold corrected. rewrite (bm_B_0 _ _ _ _ _ H), (bm_sigma_0 _ _ _ _ _ H). ring.
  - apply degree_add; [apply (degree_mono _ L); [lia|apply H]|apply H].
  - intros n Hn. apply (bm_corrected _ _ _ _ _ n H); lia.
  - reflexivity.
  - apply (degree_mono _ (S L)); [lia|]. apply degree_shifted, H.
  - intros [|n] Hn; [lia|]. rewrite conv_shifted. apply (bm_sigma_conv _ _ _ _ _ H). lia.
  - exact Hd.
  - intros _. apply conv_shifted.
Qed.

Lemma bm_keep mu sigma B L dp : bm mu sigma B L dp -> let d := conv sigma psum (S mu) in d = 0 \/ (S mu - L <= L)%nat ->
  bm (S mu) (corrected sigma B (d * ginv dp)) (shifted B) L dp.
Proof using Type.
  intros H d Hd. pose proof (bm_length _ _ _ _ _ H) as Hle.
  assert (E : d = 0 -> forall i, corrected sigma B (d * ginv dp) i = sigma i) by (intros -> i; unfold corrected; ring). split.
  - lia.
  - apply H.
  - unfold corrected. rewrite (bm_B_0 _ _ _ _ _ H), (bm_sigma_0 _ _ _ _ _ H). ring.
  - destruct Hd as [Hd|Hd]; [intros k Hk; rewrite E by exact Hd; apply (bm_sigma_degree _ _ _ _ _ H), Hk|].
    apply degree_add; [apply H|apply (degree_mono _ (S mu - L)); [exact Hd|apply H]].
  - intros n Hn. destruct Hd as [Hd|Hd]; [|apply (bm_corrected _ _ _ _ _ n H); lia].
    rewrite (conv_ext _ _ _ _ (E Hd)). destruct (decide (n = S mu)) as [->|]; [exact Hd|apply (bm_sigma_conv _ _ _ _ _ H); lia].
  - reflexivity.
  - apply (degree_mono _ (S (S mu - L))); [lia|]. apply degree_shifted, H.
  - intros [|n] Hn; [lia|]. rewrite conv_shifted. apply (bm_B_conv _ _ _ _ _ H). lia.
  - apply H.
  - intros HL. rewrite conv_shifted. apply (bm_B_next _ _ _ _ _ H HL).
Qed.
End errors.

(** ** The locator is known by its roots *)

(** The quotient by 1 + X x. *)
Lemma divide_root X f n : X <> 0 -> degree_le f (S n) -> eval f (S (S n)) (ginv X) = 0 ->
  exists g, degree_le g n /\ g 0%nat = f 0%nat /\ forall i, f i = times X g i.
Proof.
  intros HX Hf Hr. set (g := fun n => conv f (gpow X) n + f n). exists g.
  assert (Hg : forall i, f i = times X g i).
  { intros [|i]; unfold times, g; cbn [shifted]; [unfold conv; cbn [gsum]; ring|]. rewrite conv_pow_next. ring. }
  assert (Hz : forall i, g (S n + i)%nat = 0).
  { assert (E : g (S n) = 0).
    { apply (gmul_cancel X); [exact HX|]. transitivity (conv f (gpow X) (S (S n))); [rewrite conv_pow_next; reflexivity|].
      rewrite conv_pow_eval, Hr by exact HX. ring. }
    induction i as [|i IH]; [rewrite Nat.add_0_r; exact E|]. rewrite Nat.add_succ_r. unfold g. rewrite conv_pow_next.
    change (conv f (gpow X) (S n + i) + f (S n + i)%nat) with (g (S n + i)%nat). rewrite IH, Hf by lia. ring. }
  split; [|split; [unfold g, conv; cbn [gsum]; ring|exact Hg]]. intros k Hk. replace k with (S n + (k - S n))%nat by lia. apply Hz.
Qed.

Lemma locator_unique pts : NoDup pts -> (forall x, x ∈ pts -> x <> 0) -> forall f,
  degree_le f (length pts) -> f 0%nat = 1 -> (forall x, x ∈ pts -> eval f (S (length pts)) (ginv x) = 0) -> forall n, f n = locator pts n.
Proof.
  induction 1 as [|X pts HX Hnd IH]; intros Hne f Hf H0 Hr n.
  - destruct n as [|n]; [exact H0|]. rewrite Hf by (cbn; lia). reflexivity.
  - assert (HX0 : X <> 0) by (apply Hne; left). destruct (divide_root X f (length pts) HX0 Hf) as (g & Hg & Hg0 & E); [apply Hr; left|].
    rewrite E. cbn [locator foldr]. apply times_ext, IH; [intros; apply Hne; right; assumption|exact Hg|congruence|].
    intros x Hx. assert (Hx0 : x <> 0) by (apply Hne; right; exact Hx).
    pose proof (Hr x ltac:(right; exact Hx)) as Ex. cbn [length] in Ex. rewrite (eval_ext f (times X g)), eval_times in Ex by (exact Hg || (intros; apply E)).
    destruct (gmul_eq_0 _ _ Ex) as [Ez|]; [|assumption]. apply (proj1 (gadd_eq _ _)) in Ez. destruct HX.
    replace X with x; [exact Hx|]. transitivity (x * (X * ginv x)); [rewrite <- Ez; ring|]. transitivity (X * (x * ginv x)); [ring|]. rewrite ginv_r by exact Hx0. ring.
Qed.

(** What the iteration leaves when it saw twice as many sums as there may be errors. *)
Lemma bm_end pts Y mu sigma B L dp : NoDup pts -> (forall x, x ∈ pts -> x <> 0) -> (forall x, x ∈ pts -> Y x <> 0) ->
  bm pts Y mu sigma B L dp -> (2 * length pts <= mu)%nat -> (forall n, sigma n = locator pts n) /\ L = length pts.
Proof.
  intros Hnd Hne HY H Hmu. pose proof (bm_length _ _ _ _ _ _ _ H) as H1. pose proof (bm_errors _ _ _ _ _ _ _ H) as H2.
  assert (Hs : forall n, sigma n = locator pts n).
  { apply locator_unique; [exact Hnd|exact Hne|apply (degree_mono _ L); [exact H2|apply H]|apply H|]. intros x Hx.
    rewrite (eval_extend sigma L) by (apply H || lia). apply (recurrence_roots pts Y Hnd Hne HY sigma L (mu - L)); [apply H|lia| |exact Hx].
    intros n Hn. apply (bm_sigma_conv _ _ _ _ _ _ _ H). lia. }
  split; [exact Hs|]. destruct (decide (L = length pts)) as [|Hlt]; [assumption|exfalso].
  apply (gprods_nonzero (fun X => X) pts Hne). rewrite <- locator_top, <- Hs. apply (bm_sigma_degree _ _ _ _ _ _ _ H). lia.
Qed.

(** ** The values *)

Definition z_poly (pts : list gf) (Y : gf -> gf) (n : nat) : gf := locator pts n + conv (locator pts) (psum pts Y) n.

Lemma eval_conv_locator l1 X l2 y : let pts := l1 ++ X :: l2 in
  eval (conv (locator pts) (gpow X)) (S (length pts)) y = X * y * gprods (fun x => 1 + x * y) (l1 ++ l2).
Proof.
  cbv zeta. unfold eval at 1. rewrite gsum_first. rewrite length_app. cbn [length]. rewrite Nat.add_succ_r, <- length_app, <- eval_locator. unfold eval.
  rewrite <- gsum_mul. rewrite (gsum_ext (fun k => conv (locator (l1 ++ X :: l2)) (gpow X) (S k) * y ^ S k) (fun k => X * y * (locator (l1 ++ l2) k * y ^ k))).
  - unfold conv. cbn [gsum]. ring.
  - intros k _. rewrite (conv_ext _ _ _ _ (locator_middle l1 X l2)), conv_times. cbn [gpow]. ring.
Qed.

Lemma locator_root pts x : x ∈ pts -> x <> 0 -> eval (locator pts) (S (length pts)) (ginv x) = 0.
Proof.
  intros Hx Hne. rewrite eval_locator. apply list_elem_of_split in Hx as (l1 & l2 & ->). rewrite gprods_app. cbn [gprods foldr].
  rewrite ginv_r by exact Hne. ring.
Qed.
Lemma locator_nonroot pts x : x <> 0 -> x ∉ pts -> eval (locator pts) (S (length pts)) (ginv x) <> 0.
Proof.
  intros Hne Hx. rewrite eval_locator. apply gprods_nonzero. intros y Hy E. apply (proj1 (gadd_eq _ _)) in E.
  apply Hx. replace x with y; [exact Hy|]. apply (gmul_cancel (ginv x)); [apply ginv_nonzero, Hne|].
  transitivity 1; [rewrite gmul_comm; symmetry; exact E|]. rewrite gmul_comm, ginv_r by exact Hne. reflexivity.
Qed.

(** At the inverse of a locator, z is the value times the other factors. *)
Lemma z_poly_value l1 X l2 Y : let pts := l1 ++ X :: l2 in (forall x, x ∈ pts -> x <> 0) ->
  eval (z_poly pts Y) (S (length pts)) (ginv X) = Y X * gprods (fun x => 1 + x * ginv X) (l1 ++ l2).
Proof.
  intros pts Hne. assert (HX : X <> 0) by (apply Hne, elem_of_app; right; left). unfold z_poly. rewrite eval_add, locator_root by (exact HX || (apply elem_of_app; right; left)).
  set (F := fun x => eval (conv (locator pts) (gpow x)) (S (length pts)) (ginv X)).
  transitivity (gsums (fun x => Y x * F x) pts).
  { rewrite gadd_0_l. unfold F, eval. rewrite (gsum_ext _ (fun i => gsums (fun x => Y x * (conv (locator pts) (gpow x) i * ginv X ^ i)) pts)).
    - rewrite <- gsums_gsum. apply gsums_ext. intros x _. rewrite <- gsum_mul. reflexivity.
    - intros k _. rewrite conv_psum, gmul_comm, <- gsums_mul. apply gsums_ext. intros. ring. }
  assert (Hother : forall x, x ∈ l1 ++ l2 -> F x = 0).
  { intros x Hx. unfold F. assert (Hs : exists a b, pts = a ++ x :: b /\ X ∈ a ++ b).
    { apply elem_of_app in Hx as [Hx|Hx]; apply list_elem_of_split in Hx as (a & b & ->); unfold pts.
      - exists a, (b ++ X :: l2). split; [rewrite <- app_assoc; reflexivity|set_solver].
      - exists (l1 ++ X :: a), b. split; [rewrite <- app_assoc; reflexivity|set_solver]. }
    destruct Hs as (a & b & -> & HXin). rewrite eval_conv_locator. apply list_elem_of_split in HXin as (c & d & ->).
    rewrite gprods_app. cbn [gprods foldr]. rewrite ginv_r by exact HX. ring. }
  unfold pts at 1. unfold gsums. rewrite foldr_app. cbn [foldr].
  assert (H2 : foldr (fun x acc => Y x * F x + acc) 0 l2 = 0) by (apply (gsums_zero (fun x => Y x * F x)); intros; rewrite Hother by set_solver; ring).
  rewrite H2. assert (H1 : forall l acc, (forall x, x ∈ l -> F x = 0) -> foldr (fun x acc => Y x * F x + acc) acc l = acc).
  { induction l as [|x l IH]; intros acc H; [reflexivity|]. cbn [foldr]. rewrite IH, H by (intros; try apply H; set_solver). ring. }
  rewrite H1 by (intros; apply Hother; set_solver). unfold F, pts. rewrite eval_conv_locator, ginv_r by exact HX. ring.
Qed.
