(* ===== verification/Fft.v ===== *)
(** * The additive FFT: [fft.c]

    The decoder evaluates its error locator at all 256 elements with the additive FFT
    of Gao and Mateer and reads the positions of errors off the zeros.  The theorem
    says that [fft] is evaluation; [fft_retrieve_error_poly] then marks exactly the
    exponents i for which the inverse of alpha^i is a root. *)

From S2P Require Import Prelude Carryless Words Gf GfRing Locator.
From Stdlib Require Import Ring.

(* src/extern/HQC-Round4/Additional_Implementation/hqc-128/src/parameters.h:94-94 PARAM_FFT *)
Definition PARAM_FFT : Z := 4.

(** ** The operations *)

(* src/extern/HQC-Round4/Additional_Implementation/hqc-128/src/fft.c:30-35 compute_fft_betas *)
Definition compute_fft_betas (betas : list Z) : option (list Z) :=
  ofor (upto (PARAM_M - 1)) (fun i betas => set_cell betas i (Z.shiftl 1 (PARAM_M - 1 - i))) betas.

(* src/extern/HQC-Round4/Additional_Implementation/hqc-128/src/fft.c:49-58 compute_subset_sums *)
Definition compute_subset_sums (subset_sums set : list Z) (set_size : Z) : option (list Z) :=
  subset_sums ← set_cell subset_sums 0 0;
  ofor (upto set_size) (fun i subset_sums =>
    ofor (upto (Z.shiftl 1 i)) (fun j subset_sums =>
      b ← cell set i; s ← cell subset_sums j;
      set_cell subset_sums (Z.shiftl 1 i + j) (Z.lxor b s)) subset_sums) subset_sums.

(** [dst[i] = t1 ^ t2 ^ ...] for reads [t1], [t2]. *)
Definition assign_xor (dst : list Z) (i : Z) (terms : list (option Z)) : option (list Z) :=
  v ← foldl (fun acc t => a ← acc; x ← t; Some (Z.lxor a x)) (Some 0) terms; set_cell dst i v.

(** [memcpy] between arrays of 16-bit cells; [n] counts bytes. *)
Definition memcpy16 (dst : list Z) (off : Z) (src : list Z) (src_off n : Z) : option (list Z) :=
  piece ← mem_read src src_off (n / 2); mem_write dst off piece.

(** [radix] is the recursive call, with one less for [m_f]. *)
(* src/extern/HQC-Round4/Additional_Implementation/hqc-128/src/fft.c:125-154 radix_big *)
Definition radix_big (radix : list Z -> list Z -> list Z -> option (list Z * list Z)) (f0 f1 f : list Z) (m_f : Z) : option (list Z * list Z) :=
  if m_f <? 2 then None else
  let half := zeros (Z.shiftl 1 (PARAM_FFT - 2)) in
  let n := Z.shiftl 1 (m_f - 2) in
  Q ← memcpy16 (zeros (2 * Z.shiftl 1 (PARAM_FFT - 2))) 0 f (3 * n) (2 * n);
  Q ← memcpy16 Q n f (3 * n) (2 * n);
  R ← memcpy16 (zeros (2 * Z.shiftl 1 (PARAM_FFT - 2))) 0 f 0 (4 * n);
  '(Q, R) ← ofor (upto n) (fun i '(Q, R) =>
    q ← cell Q i; x ← cell f (2 * n + i); Q ← set_cell Q i (Z.lxor q x);
    r ← cell R (n + i); q ← cell Q i; R ← set_cell R (n + i) (Z.lxor r q); Some (Q, R)) (Q, R);
  '(Q0, Q1) ← radix half half Q;
  '(R0, R1) ← radix half half R;
  f0 ← memcpy16 f0 0 R0 0 (2 * n);
  f0 ← memcpy16 f0 n Q0 0 (2 * n);
  f1 ← memcpy16 f1 0 R1 0 (2 * n);
  f1 ← memcpy16 f1 n Q1 0 (2 * n);
  Some (f0, f1).

(* src/extern/HQC-Round4/Additional_Implementation/hqc-128/src/fft.c:74-123 radix *)
Fixpoint radix (m_f : nat) (f0 f1 f : list Z) : option (list Z * list Z) :=
  match m_f with
  | 4%nat =>
      f0 ← assign_xor f0 4 [cell f 8; cell f 12];
      f0 ← assign_xor f0 6 [cell f 12; cell f 14];
      f0 ← assign_xor f0 7 [cell f 14; cell f 15];
      f1 ← assign_xor f1 5 [cell f 11; cell f 13];
      f1 ← assign_xor f1 6 [cell f 13; cell f 14];
      f1 ← assign_xor f1 7 [cell f 15];
      f0 ← assign_xor f0 5 [cell f 10; cell f 12; cell f1 5];
      f1 ← assign_xor f1 4 [cell f 9; cell f 13; cell f0 5];
      f0 ← assign_xor f0 0 [cell f 0];
      f1 ← assign_xor f1 3 [cell f 7; cell f 11; cell f 15];
      f0 ← assign_xor f0 3 [cell f 6; cell f 10; cell f 14; cell f1 3];
      f0 ← assign_xor f0 2 [cell f 4; cell f0 4; cell f0 3; cell f1 3];
      f1 ← assign_xor f1 1 [cell f 3; cell f 5; cell f 9; cell f 13; cell f1 3];
      f1 ← assign_xor f1 2 [cell f 3; cell f1 1; cell f0 3];
      f0 ← assign_xor f0 1 [cell f 2; cell f0 2; cell f1 1];
      f1 ← assign_xor f1 0 [cell f 1; cell f0 1];
      Some (f0, f1)
  | 3%nat =>
      f0 ← assign_xor f0 0 [cell f 0];
      f0 ← assign_xor f0 2 [cell f 4; cell f 6];
      f0 ← assign_xor f0 3 [cell f 6; cell f 7];
      f1 ← assign_xor f1 1 [cell f 3; cell f 5; cell f 7];
      f1 ← assign_xor f1 2 [cell f 5; cell f 6];
      f1 ← assign_xor f1 3 [cell f 7];
      f0 ← assign_xor f0 1 [cell f 2; cell f0 2; cell f1 1];
      f1 ← assign_xor f1 0 [cell f 1; cell f0 1];
      Some (f0, f1)
  | 2%nat =>
      f0 ← assign_xor f0 0 [cell f 0];
      f0 ← assign_xor f0 1 [cell f 2; cell f 3];
      f1 ← assign_xor f1 0 [cell f 1; cell f0 1];
      f1 ← assign_xor f1 1 [cell f 3];
      Some (f0, f1)
  | 1%nat =>
      f0 ← assign_xor f0 0 [cell f 0];
      f1 ← assign_xor f1 0 [cell f 1];
      Some (f0, f1)
  | O => None
  | S m_f' => radix_big (radix m_f') f0 f1 f (Z.of_nat m_f)
  end.

(** The case of a polynomial of two coefficients. *)
(* src/extern/HQC-Round4/Additional_Implementation/hqc-128/src/fft.c:185-200 fft_rec *)
Definition fft_rec_linear (w f : list Z) (m : Z) (betas : list Z) : option (list Z) :=
  tmp ← ofor (upto m) (fun i tmp => b ← cell betas i; f1 ← cell f 1; set_cell tmp i (gf_mul b f1)) (zeros (PARAM_M - (PARAM_FFT - 1)));
  f0 ← cell f 0;
  w ← set_cell w 0 f0;
  '(w, _) ← ofor (upto m) (fun j '(w, x) =>
    w ← ofor (upto x) (fun k w => wk ← cell w k; t ← cell tmp j; set_cell w (x + k) (Z.lxor wk t)) w;
    Some (w, Z.shiftl x 1)) (w, 1);
  Some w.

(** Step 2: the coefficients are multiplied by the powers of the last beta. *)
(* src/extern/HQC-Round4/Additional_Implementation/hqc-128/src/fft.c:203-211 fft_rec *)
Definition fft_twist (f : list Z) (m m_f : Z) (betas : list Z) : option (list Z) :=
  b ← cell betas (m - 1);
  if b =? 1 then Some f else
  '(f, _) ← ofor (seqZ 1 (Z.shiftl 1 m_f - 1)) (fun i '(f, beta_m_pow) =>
    let beta_m_pow := gf_mul beta_m_pow b in
    x ← cell f i; f ← set_cell f i (gf_mul beta_m_pow x); Some (f, beta_m_pow)) (f, 1);
  Some f.

(** Step 6: the values on both halves of the points from the two smaller transforms. *)
(* src/extern/HQC-Round4/Additional_Implementation/hqc-128/src/fft.c:241-247 fft_rec *)
Definition fft_combine (w u v sums : list Z) (k : Z) : option (list Z) :=
  w ← memcpy16 w k v 0 (2 * k);
  u0 ← cell u 0;
  w ← set_cell w 0 u0;
  wk ← cell w k; w ← set_cell w k (Z.lxor wk u0);
  ofor (seqZ 1 (k - 1)) (fun i w =>
    ui ← cell u i; s ← cell sums i; vi ← cell v i;
    w ← set_cell w i (Z.lxor ui (gf_mul s vi));
    x ← cell w (k + i); wi ← cell w i; set_cell w (k + i) (Z.lxor x wi)) w.

(** The arrays [w] and [f] are changed; [m_f] is at least 1 at every call. *)
(* src/extern/HQC-Round4/Additional_Implementation/hqc-128/src/fft.c:170-249 fft_rec *)
Fixpoint fft_rec (m_f : nat) (w f : list Z) (f_coeffs m : Z) (betas : list Z) : option (list Z * list Z) :=
  match m_f with
  | O => None
  | 1%nat => w ← fft_rec_linear w f m betas; Some (w, f)
  | S m_f' =>
      let half := zeros (Z.shiftl 1 (PARAM_FFT - 2)) in
      f ← fft_twist f m (Z.of_nat m_f) betas;
      '(f0, f1) ← radix m_f half half f;
      '(gammas, deltas) ← ofor (upto (m - 1)) (fun i '(gammas, deltas) =>
        b ← cell betas i; bm ← cell betas (m - 1);
        gammas ← set_cell gammas i (gf_mul b (gf_inverse bm));
        g ← cell gammas i;
        deltas ← set_cell deltas i (Z.lxor (gf_square g) g);
        Some (gammas, deltas)) (zeros (PARAM_M - 2), zeros (PARAM_M - 2));
      gammas_sums ← compute_subset_sums (zeros (Z.shiftl 1 (PARAM_M - 2))) gammas (m - 1);
      '(u, f0) ← fft_rec m_f' (zeros (Z.shiftl 1 (PARAM_M - 2))) f0 ((f_coeffs + 1) / 2) (m - 1) deltas;
      let k := Z.shiftl 1 (Z.land (m - 1) 0xf) in
      if f_coeffs <=? 3 then
        u0 ← cell u 0; w ← set_cell w 0 u0;
        c ← cell f1 0; w ← set_cell w k (Z.lxor u0 c);
        w ← ofor (seqZ 1 (k - 1)) (fun i w =>
          ui ← cell u i; s ← cell gammas_sums i;
          w ← set_cell w i (Z.lxor ui (gf_mul s c));
          wi ← cell w i; set_cell w (k + i) (Z.lxor wi c)) w;
        Some (w, f)
      else
        '(v, f1) ← fft_rec m_f' (zeros (Z.shiftl 1 (PARAM_M - 2))) f1 (f_coeffs / 2) (m - 1) deltas;
        w ← fft_combine w u v gammas_sums k;
        Some (w, f)
  end.

(* src/extern/HQC-Round4/Additional_Implementation/hqc-128/src/fft.c:272-320 fft *)
Definition fft (w f : list Z) (f_coeffs : Z) : option (list Z) :=
  betas ← compute_fft_betas (zeros (PARAM_M - 1));
  betas_sums ← compute_subset_sums (zeros (Z.shiftl 1 (PARAM_M - 1))) betas (PARAM_M - 1);
  '(f0, f1) ← radix (Z.to_nat PARAM_FFT) (zeros (Z.shiftl 1 (PARAM_FFT - 1))) (zeros (Z.shiftl 1 (PARAM_FFT - 1))) f;
  deltas ← ofor (upto (PARAM_M - 1)) (fun i deltas =>
    b ← cell betas i; set_cell deltas i (Z.lxor (gf_square b) b)) (zeros (PARAM_M - 1));
  '(u, _) ← fft_rec (Z.to_nat (PARAM_FFT - 1)) (zeros (Z.shiftl 1 (PARAM_M - 1))) f0 ((f_coeffs + 1) / 2) (PARAM_M - 1) deltas;
  '(v, _) ← fft_rec (Z.to_nat (PARAM_FFT - 1)) (zeros (Z.shiftl 1 (PARAM_M - 1))) f1 (f_coeffs / 2) (PARAM_M - 1) deltas;
  fft_combine w u v betas_sums (Z.shiftl 1 (PARAM_M - 1)).

(** [error[index] ^= 1 ^ ((uint16_t) -x >> 15)]. *)
(* src/extern/HQC-Round4/Additional_Implementation/hqc-128/src/fft.c:341-342 fft_retrieve_error_poly *)
Definition mark_root (error : list Z) (index x : Z) : option (list Z) :=
  e ← cell error index; set_cell error index (Z.lxor e (Z.lxor 1 (Z.shiftr (u16 (- x)) 15))).

(* src/extern/HQC-Round4/Additional_Implementation/hqc-128/src/fft.c:331-351 fft_retrieve_error_poly *)
Definition fft_retrieve_error_poly (error w : list Z) : option (list Z) :=
  gammas ← compute_fft_betas (zeros (PARAM_M - 1));
  gammas_sums ← compute_subset_sums (zeros (Z.shiftl 1 (PARAM_M - 1))) gammas (PARAM_M - 1);
  let k := Z.shiftl 1 (PARAM_M - 1) in
  w0 ← cell w 0; error ← mark_root error 0 w0;
  wk ← cell w k; error ← mark_root error 0 wk;
  ofor (seqZ 1 (k - 1)) (fun i error =>
    s ← cell gammas_sums i;
    l ← cell gf_log s; wi ← cell w i; error ← mark_root error (PARAM_GF_MUL_ORDER - l) wi;
    l ← cell gf_log (Z.lxor s 1); wi ← cell w (k + i); mark_root error (PARAM_GF_MUL_ORDER - l) wi) error.

(** ** The radix conversion *)

#[local] Open Scope gf_scope.

(** Reads and writes of arrays given cell by cell, by evaluation. *)
Ltac gf_cells :=
  cbv [radix assign_xor cell set_cell gfs fmap list_fmap foldl mbind option_bind Z.leb Z.ltb Z.compare Pos.compare Pos.compare_cont CompOpp
       Z.to_nat Pos.to_nat Pos.iter_op Nat.add Init.Nat.add lookup list_lookup insert list_insert andb length replicate Z.of_nat Pos.of_succ_nat Pos.succ].
Ltac gf_values := rewrite ?Z.lxor_0_l, <- ?gfv_add.

Lemma radix_case (m_f n : nat) (f g0 g1 : list gf) : length g0 = n -> length g1 = n ->
  radix m_f (gfs (replicate n 0)) (gfs (replicate n 0)) (gfs f) = Some (gfs g0, gfs g1) ->
  (forall x, eval (coef f) (2 ^ m_f) x = eval (coef g0) (2 ^ (m_f - 1)) (x * x + x) + x * eval (coef g1) (2 ^ (m_f - 1)) (x * x + x)) ->
  exists g0 g1, radix m_f (gfs (replicate n 0)) (gfs (replicate n 0)) (gfs f) = Some (gfs g0, gfs g1) /\ length g0 = n /\ length g1 = n /\
    forall x, eval (coef f) (2 ^ m_f) x = eval (coef g0) (2 ^ (m_f - 1)) (x * x + x) + x * eval (coef g1) (2 ^ (m_f - 1)) (x * x + x).
Proof. intros H0 H1 E Hx. exists g0, g1. auto. Qed.

Lemma radix_2 f : length f = 4%nat -> exists g0 g1, radix 2 (gfs (replicate 4 0)) (gfs (replicate 4 0)) (gfs f) = Some (gfs g0, gfs g1) /\
  length g0 = 4%nat /\ length g1 = 4%nat /\
  forall x, eval (coef f) (2 ^ 2) x = eval (coef g0) (2 ^ 1) (x * x + x) + x * eval (coef g1) (2 ^ 1) (x * x + x).
Proof.
  intros Hl. destruct f as [|a0 [|a1 [|a2 [|a3 [|]]]]]; try discriminate Hl.
  apply (radix_case 2 4 _ [a0; a2 + a3; 0; 0] [a1 + (a2 + a3); a3; 0; 0]); [reflexivity|reflexivity| |].
  - gf_cells. gf_values. reflexivity.
  - intros x. cbv [eval gsum coef lookup list_lookup default from_option gpow Nat.pow Nat.mul Nat.add Nat.sub id]. ring.
Qed.

Lemma radix_3 f : length f = 8%nat -> exists g0 g1, radix 3 (gfs (replicate 4 0)) (gfs (replicate 4 0)) (gfs f) = Some (gfs g0, gfs g1) /\
  length g0 = 4%nat /\ length g1 = 4%nat /\
  forall x, eval (coef f) (2 ^ 3) x = eval (coef g0) (2 ^ 2) (x * x + x) + x * eval (coef g1) (2 ^ 2) (x * x + x).
Proof.
  intros Hl. destruct f as [|a0 [|a1 [|a2 [|a3 [|a4 [|a5 [|a6 [|a7 [|]]]]]]]]]; try discriminate Hl.
  eapply (radix_case 3 4 _ [_; _; _; _] [_; _; _; _]); [reflexivity|reflexivity| |].
  - gf_cells. gf_values. reflexivity.
  - intros x. cbv [eval gsum coef lookup list_lookup default from_option gpow Nat.pow Nat.mul Nat.add Nat.sub id]. ring.
Qed.

Lemma radix_4 f : length f = 16%nat -> exists g0 g1, radix 4 (gfs (replicate 8 0)) (gfs (replicate 8 0)) (gfs f) = Some (gfs g0, gfs g1) /\
  length g0 = 8%nat /\ length g1 = 8%nat /\
  forall x, eval (coef f) (2 ^ 4) x = eval (coef g0) (2 ^ 3) (x * x + x) + x * eval (coef g1) (2 ^ 3) (x * x + x).
Proof.
  intros Hl. destruct f as [|a0 [|a1 [|a2 [|a3 [|a4 [|a5 [|a6 [|a7 [|a8 [|a9 [|a10 [|a11 [|a12 [|a13 [|a14 [|a15 [|]]]]]]]]]]]]]]]]]; try discriminate Hl.
  eapply (radix_case 4 8 _ [_; _; _; _; _; _; _; _] [_; _; _; _; _; _; _; _]); [reflexivity|reflexivity| |].
  - gf_cells. gf_values. reflexivity.
  - intros x. cbv [eval gsum coef lookup list_lookup default from_option gpow Nat.pow Nat.mul Nat.add Nat.sub id]. ring.
Qed.

(** ** The points *)

(** The sum of the elements of [B] selected by the bits of [i]. *)
Fixpoint pt (B : list gf) (i : nat) : gf :=
  match B with [] => 0 | b :: B => (if Nat.odd i then b else 0) + pt B (Nat.div2 i) end.

Lemma pt_0 B : pt B 0 = 0.
Proof. induction B as [|b B IH]; [reflexivity|]. cbn [pt Nat.odd Nat.div2]. rewrite IH. cbn. ring. Qed.

Lemma pt_high B i j : (i < length B)%nat -> (j < 2 ^ i)%nat -> pt B (2 ^ i + j) = coef B i + pt B j.
Proof.
  revert i j. induction B as [|b B IH]; intros i j Hi Hj; [cbn in Hi; lia|]. destruct i as [|i].
  - assert (j = 0)%nat as -> by (cbn in Hj; lia). cbn [pt Nat.pow Nat.add Nat.odd Nat.even negb Nat.div2]. unfold coef. cbn [lookup list_lookup default from_option id]. rewrite pt_0. ring.
  - cbn [pt]. assert (Ed : Nat.div2 (2 ^ S i + j) = (2 ^ i + Nat.div2 j)%nat).
    { rewrite Nat.pow_succ_r', !Nat.div2_div. rewrite (Nat.mul_comm 2), Nat.add_comm, Nat.div_add by lia. lia. }
    assert (Eo : Nat.odd (2 ^ S i + j) = Nat.odd j) by (rewrite Nat.pow_succ_r', Nat.add_comm, Nat.odd_add_mul_2; reflexivity).
    rewrite Ed, Eo, IH; [|cbn in Hi; lia|].
    + change (coef (b :: B) (S i)) with (coef B i). ring.
    + rewrite Nat.div2_div. rewrite Nat.pow_succ_r' in Hj. apply Nat.Div0.div_lt_upper_bound; lia.
Qed.

(** An additive map commutes with subset sums. *)
Lemma pt_fmap (phi : gf -> gf) B i : phi 0 = 0 -> (forall a b, phi (a + b) = phi a + phi b) -> pt (phi <$> B) i = phi (pt B i).
Proof.
  intros H0 Ha. revert i. induction B as [|b B IH]; intros i; cbn [pt fmap list_fmap]; [symmetry; exact H0|].
  change (list_fmap _ _ phi B) with (phi <$> B). rewrite IH, Ha. destruct (Nat.odd i); rewrite ?H0; reflexivity.
Qed.
Lemma pt_ext B B' n i : (i < 2 ^ n)%nat -> (n <= length B)%nat -> (n <= length B')%nat -> (forall k, (k < n)%nat -> coef B k = coef B' k) -> pt B i = pt B' i.
Proof.
  revert i B B'. induction n as [|n IH]; intros i B B' Hi Hn Hn' H; [assert (i = 0)%nat as -> by (cbn in Hi; lia); rewrite !pt_0; reflexivity|].
  destruct B as [|b B]; [cbn in Hn; lia|]. destruct B' as [|b' B']; [cbn in Hn'; lia|]. cbn [pt].
  replace b' with b by exact (H 0%nat ltac:(lia)). rewrite (IH _ B B'); [reflexivity| |cbn in Hn; lia|cbn in Hn'; lia|].
  - rewrite Nat.div2_div. rewrite Nat.pow_succ_r' in Hi. apply Nat.Div0.div_lt_upper_bound; lia.
  - intros k Hk. exact (H (S k) ltac:(lia)).
Qed.

Lemma shiftl_1 k n : k = Z.of_nat n -> Z.shiftl 1 k = Z.of_nat (2 ^ n).
Proof. intros ->. rewrite Z.shiftl_1_l, Nat2Z.inj_pow. reflexivity. Qed.

Lemma compute_subset_sums_spec ss set (n : nat) : (n <= length set)%nat -> (2 ^ n <= length ss)%nat ->
  exists l, compute_subset_sums (gfs ss) (gfs set) (Z.of_nat n) = Some (gfs l) /\ length l = length ss /\ forall j, (j < 2 ^ n)%nat -> coef l j = pt set j.
Proof.
  intros Hset Hss. unfold compute_subset_sums. change 0%Z with (gfv 0) at 2.
  pose proof (Nat.pow_nonzero 2 n ltac:(lia)). rewrite (set_cell_gfs 0) by lia. rewrite some_bind.
  set (P := fun (m : Z) (s : list Z) => exists l, s = gfs l /\ length l = length ss /\ forall j, (j < 2 ^ Z.to_nat m)%nat -> coef l j = pt set j).
  edestruct (ofor_upto_ind P (Z.of_nat n)) as (s & -> & l & -> & H1 & H2); [lia| | |exists l; rewrite Nat2Z.id in H2; auto].
  { eexists. split; [reflexivity|]. rewrite length_insert. split; [reflexivity|]. intros j Hj. rewrite coef_insert by lia. change (j < 1)%nat in Hj.
    replace j with 0%nat by lia. rewrite pt_0. destruct (decide (0 = 0)%nat); [reflexivity|lia]. }
  intros i s Hi (l & -> & H1 & H2). rewrite (shiftl_1 i (Z.to_nat i)) by lia.
  assert (Hpow : (2 ^ S (Z.to_nat i) <= 2 ^ n)%nat) by (apply Nat.pow_le_mono_r; lia). rewrite Nat.pow_succ_r' in Hpow.
  destruct (ofor_fill (fun j => pt set (2 ^ Z.to_nat i + j)) (2 ^ Z.to_nat i) (2 ^ Z.to_nat i)
    (fun j subset_sums => b ← cell (gfs set) i; s ← cell subset_sums j; set_cell subset_sums (Z.of_nat (2 ^ Z.to_nat i) + j) (Z.lxor b s)) l) as (l' & -> & L1 & L2 & L3); [lia| |].
  - intros j l' Hj Hl' _ Hother. cbv beta. rewrite (cell_gfs (Z.to_nat i) set), some_bind, (cell_gfs j l'), some_bind by lia. rewrite Hother, H2, <- gfv_add, pt_high by lia. f_equal. lia.
  - eexists. split; [reflexivity|]. eexists. split; [reflexivity|]. split; [lia|]. intros j Hj.
    replace (Z.to_nat (i + 1)) with (S (Z.to_nat i)) in Hj by lia. rewrite Nat.pow_succ_r' in Hj. destruct (decide (j < 2 ^ Z.to_nat i)%nat).
    + rewrite L3, H2 by lia. reflexivity.
    + replace j with (2 ^ Z.to_nat i + (j - 2 ^ Z.to_nat i))%nat by lia. apply L2. lia.
Qed.

(** ** The recursion *)

Lemma fft_rec_linear_spec w f betas (m : nat) : (m <= 5)%nat -> (m <= length betas)%nat -> (2 ^ m <= length w)%nat -> (2 <= length f)%nat ->
  exists w', fft_rec_linear (gfs w) (gfs f) (Z.of_nat m) (gfs betas) = Some (gfs w') /\ length w' = length w /\
    forall i, (i < 2 ^ m)%nat -> coef w' i = eval (coef f) 2 (pt betas i).
Proof.
  intros Hm Hb Hw Hf. unfold fft_rec_linear. change (zeros (PARAM_M - (PARAM_FFT - 1))) with (gfs (replicate 5 0)).
  destruct (ofor_fill (fun i => coef betas i * coef f 1) 0 m (fun i tmp => b ← cell (gfs betas) i; f1 ← cell (gfs f) 1; set_cell tmp i (gf_mul b f1)) (replicate 5 0))
    as (tmp & -> & T1 & T2 & _); [rewrite length_replicate; lia| |].
  { intros i l' Hi _ _ _. cbv beta. rewrite (cell_gfs i betas), some_bind, (cell_gfs 1 f), some_bind, <- gfv_mul by lia. reflexivity. }
  rewrite length_replicate in T1. rewrite some_bind, (cell_gfs 0 f), some_bind by lia. pose proof (Nat.pow_nonzero 2 m ltac:(lia)).
  rewrite (set_cell_gfs 0), some_bind by lia.
  set (P := fun (j : Z) (s : list Z * Z) => snd s = Z.of_nat (2 ^ Z.to_nat j) /\ exists l, fst s = gfs l /\ length l = length w /\
    forall i, (i < 2 ^ Z.to_nat j)%nat -> coef l i = coef f 0 + coef f 1 * pt betas i).
  edestruct (ofor_upto_ind P (Z.of_nat m)) as ([s x] & -> & _ & l & E & H1 & H2); [lia| | |].
  - split; [reflexivity|]. eexists. split; [reflexivity|]. rewrite length_insert. split; [reflexivity|]. intros i Hi. change (i < 1)%nat in Hi.
    replace i with 0%nat by lia. rewrite coef_insert, pt_0 by lia. destruct (decide (0 = 0)%nat); [ring|lia].
  - intros j [s x] Hj (Ex & l & E & H1 & H2). cbn [fst snd] in Ex, E. subst x s.
    assert (Hpow : (2 ^ S (Z.to_nat j) <= 2 ^ m)%nat) by (apply Nat.pow_le_mono_r; lia). rewrite Nat.pow_succ_r' in Hpow.
    destruct (ofor_fill (fun k => coef f 0 + coef f 1 * pt betas (2 ^ Z.to_nat j + k)) (2 ^ Z.to_nat j) (2 ^ Z.to_nat j)
      (fun k w => wk ← cell w k; t ← cell (gfs tmp) j; set_cell w (Z.of_nat (2 ^ Z.to_nat j) + k) (Z.lxor wk t)) l) as (l' & -> & L1 & L2 & L3); [lia| |].
    + intros k l' Hk Hl' _ Hother. cbv beta. rewrite (cell_gfs k l'), some_bind, (cell_gfs (Z.to_nat j) tmp), some_bind by lia.
      rewrite Hother, H2, <- gfv_add, pt_high by lia. specialize (T2 (Z.to_nat j) ltac:(lia)). cbn [Nat.add] in T2. rewrite T2. f_equal; [lia|]. f_equal. ring.
    + rewrite some_bind. eexists. split; [reflexivity|]. unfold P. replace (Z.to_nat (j + 1)) with (S (Z.to_nat j)) by lia.
      split; [cbn [snd]; rewrite Z.shiftl_mul_pow2, Nat.pow_succ_r' by lia; lia|]. exists l'. split; [reflexivity|]. split; [lia|].
      intros i Hi. rewrite Nat.pow_succ_r' in Hi. destruct (decide (i < 2 ^ Z.to_nat j)%nat); [rewrite L3, H2 by lia; reflexivity|].
      replace i with (2 ^ Z.to_nat j + (i - 2 ^ Z.to_nat j))%nat by lia. apply L2. lia.
  - cbn [fst] in E. subst s. rewrite some_bind. exists l. split; [reflexivity|]. split; [exact H1|]. intros i Hi. rewrite Nat2Z.id in H2. rewrite H2 by exact Hi.
    cbn [eval gsum gpow]. unfold eval. cbn [gsum gpow]. ring.
Qed.

Lemma fft_twist_spec f betas (m m_f : nat) : (1 <= m <= length betas)%nat -> (2 ^ m_f <= length f)%nat ->
  exists f', fft_twist (gfs f) (Z.of_nat m) (Z.of_nat m_f) (gfs betas) = Some (gfs f') /\ length f' = length f /\
    forall x, eval (coef f') (2 ^ m_f) x = eval (coef f) (2 ^ m_f) (coef betas (m - 1) * x).
Proof.
  intros Hm Hf. unfold fft_twist. rewrite (cell_gfs (m - 1) betas), some_bind by lia. set (b := coef betas (m - 1)).
  destruct (Z.eqb_spec (gfv b) 1) as [E|_].
  { assert (b = 1) as -> by (apply gf_eq; exact E). exists f. split; [reflexivity|]. split; [reflexivity|]. intros x. f_equal. ring. }
  rewrite (shiftl_1 _ m_f) by lia. pose proof (Nat.pow_nonzero 2 m_f ltac:(lia)).
  set (P := fun (i : Z) (s : list Z * Z) => snd s = gfv (b ^ (Z.to_nat i - 1)) /\ exists l, fst s = gfs l /\ length l = length f /\
    forall j, coef l j = if decide (j < Z.to_nat i)%nat then b ^ j * coef f j else coef f j).
  edestruct (ofor_seqZ_ind P 1 (Z.of_nat (2 ^ m_f) - 1)) as ([s x] & -> & _ & l & E & H1 & H2); [lia| | |].
  - split; [reflexivity|]. exists f. split; [reflexivity|]. split; [reflexivity|]. intros j. destruct (decide _); [|reflexivity].
    replace j with 0%nat by lia. cbn [gpow]. ring.
  - intros i [s x] Hi (Ex & l & E & H1 & H2). cbn [fst snd] in Ex, E. subst x s. cbv beta zeta.
    rewrite <- gfv_mul, (cell_gfs (Z.to_nat i) l), some_bind, <- gfv_mul, (set_cell_gfs (Z.to_nat i)), some_bind by lia.
    eexists. split; [reflexivity|]. unfold P. split; [cbn [snd]; f_equal; replace (Z.to_nat (i + 1) - 1)%nat with (S (Z.to_nat i - 1)) by lia; cbn [gpow]; ring|].
    eexists. split; [reflexivity|]. rewrite length_insert. split; [exact H1|]. intros j. rewrite coef_insert by lia.
    replace (Z.to_nat (i + 1)) with (S (Z.to_nat i)) by lia. rewrite !H2. destruct (decide (Z.to_nat i < Z.to_nat i)%nat); [lia|].
    destruct (decide (j = Z.to_nat i)) as [->|]; [destruct (decide (Z.to_nat i < S (Z.to_nat i))%nat); [|lia]|
      destruct (decide (j < Z.to_nat i)%nat), (decide (j < S (Z.to_nat i))%nat); (reflexivity || lia)].
    rewrite (gpow_pred b (Z.to_nat i)) by lia. ring.
  - cbn [fst] in E. subst s. rewrite some_bind. exists l. split; [reflexivity|]. split; [exact H1|]. intros x'. apply gsum_ext. intros k Hk.
    rewrite H2, gpow_mul. destruct (decide _); [ring|lia].
Qed.

Lemma memcpy16_gfs dst src (off n : nat) : (off + n <= length dst)%nat -> (n <= length src)%nat ->
  exists d, memcpy16 (gfs dst) (Z.of_nat off) (gfs src) 0 (2 * Z.of_nat n) = Some (gfs d) /\ length d = length dst /\
    forall i, coef d i = if decide (off <= i < off + n)%nat then coef src (i - off) else coef dst i.
Proof.
  intros Hd Hs. unfold memcpy16. replace (2 * Z.of_nat n / 2)%Z with (Z.of_nat n) by (Z.to_euclidean_division_equations; lia).
  destruct (mem_read_total (gfs src) 0 (Z.of_nat n)) as (r & -> & _ & ->); [lia|lia|rewrite length_gfs; lia|]. rewrite some_bind, drop_0, Nat2Z.id.
  exists (take off dst ++ take n src ++ drop (off + n) dst). split_and!.
  - rewrite mem_write_total by (rewrite ?length_take, ?length_gfs; lia). f_equal. unfold gfs. rewrite !fmap_app, !fmap_take, fmap_drop, Nat2Z.id.
    rewrite length_take, length_fmap. do 3 f_equal. lia.
  - rewrite !length_app, !length_take, length_drop. lia.
  - intros i. unfold coef. destruct (decide (i < off)%nat).
    { rewrite lookup_app_l, lookup_take_lt by (rewrite ?length_take; lia). destruct (decide _); [lia|reflexivity]. }
    rewrite lookup_app_r by (rewrite length_take; lia). rewrite length_take, Nat.min_l by lia. destruct (decide (i - off < n)%nat).
    { rewrite lookup_app_l, lookup_take_lt by (rewrite ?length_take; lia). destruct (decide _); [reflexivity|lia]. }
    rewrite lookup_app_r by (rewrite length_take; lia). rewrite length_take, Nat.min_l, lookup_drop by lia.
    destruct (decide _); [lia|]. do 2 f_equal. lia.
Qed.

Lemma fft_combine_spec w u v sums (K : nat) : (1 <= K)%nat -> (2 * K <= length w)%nat -> (K <= length u)%nat -> (K <= length v)%nat -> (K <= length sums)%nat ->
  coef sums 0 = 0 -> exists w', fft_combine (gfs w) (gfs u) (gfs v) (gfs sums) (Z.of_nat K) = Some (gfs w') /\ length w' = length w /\
    forall i, (i < K)%nat -> let r := coef u i + coef sums i * coef v i in coef w' i = r /\ coef w' (K + i) = coef v i + r.
Proof.
  intros HK Hw Hu Hv Hs H0. unfold fft_combine. destruct (memcpy16_gfs w v K K ltac:(lia) ltac:(lia)) as (d & -> & D1 & D2).
  rewrite some_bind, (cell_gfs 0 u), some_bind, (set_cell_gfs 0 d), some_bind by lia. set (d1 := <[0%nat := coef u 0]> d).
  assert (Hd1 : length d1 = length w) by (unfold d1; rewrite length_insert; exact D1).
  rewrite (cell_gfs K d1), some_bind, <- gfv_add, (set_cell_gfs K d1), some_bind by lia. set (d2 := <[K := coef d1 K + coef u 0]> d1).
  set (r := fun i => coef u i + coef sums i * coef v i).
  set (P := fun (m : Z) (s : list Z) => exists l, s = gfs l /\ length l = length w /\ forall i, (i < K)%nat ->
    coef l (K + i) = (if decide (i < Z.to_nat m)%nat then coef v i + r i else coef v i) /\ ((i < Z.to_nat m)%nat -> coef l i = r i)).
  edestruct (ofor_seqZ_ind P 1 (Z.of_nat K - 1)) as (s & -> & l & -> & H1 & H2); [lia| | |].
  - exists d2. split; [reflexivity|]. split; [unfold d2; rewrite length_insert; exact Hd1|]. intros i Hi.
    unfold d2. rewrite !coef_insert by lia. unfold d1. rewrite !coef_insert, !D2 by lia.
    destruct (decide (K = 0)%nat); [lia|]. destruct (decide (K + i = 0)%nat); [lia|]. destruct (decide (i = K)); [lia|].
    destruct (decide (K <= K < K + K)%nat); [|lia]. destruct (decide (K <= K + i < K + K)%nat); [|lia].
    replace (K - K)%nat with 0%nat by lia. replace (K + i - K)%nat with i by lia. change (Z.to_nat 1) with 1%nat. split.
    + destruct (decide (K + i = K)%nat), (decide (i < 1)%nat); try lia; [|reflexivity]. replace i with 0%nat by lia. unfold r. rewrite H0. ring.
    + intros Hi1. replace i with 0%nat by lia. destruct (decide (0 = 0)%nat); [unfold r; rewrite H0; ring|lia].
  - intros m s Hm (l & -> & H1 & H2). cbv beta.
    rewrite (cell_gfs (Z.to_nat m) u), some_bind, (cell_gfs (Z.to_nat m) sums), some_bind, (cell_gfs (Z.to_nat m) v), some_bind by lia.
    rewrite <- gfv_mul, <- gfv_add. fold (r (Z.to_nat m)). rewrite (set_cell_gfs (Z.to_nat m) l), some_bind by lia. set (l1 := <[_ := _]> l).
    assert (Hl1 : length l1 = length w) by (unfold l1; rewrite length_insert; exact H1).
    rewrite (cell_gfs (K + Z.to_nat m) l1 (Z.of_nat K + m)), some_bind, (cell_gfs (Z.to_nat m) l1), some_bind, <- gfv_add, (set_cell_gfs (K + Z.to_nat m) l1) by lia.
    eexists. split; [reflexivity|]. eexists. split; [reflexivity|]. rewrite length_insert. split; [exact Hl1|]. intros i Hi.
    destruct (H2 i Hi) as [E1 E2]. destruct (H2 (Z.to_nat m) ltac:(lia)) as [E3 _]. rewrite !coef_insert by lia. unfold l1. rewrite !coef_insert by lia.
    destruct (decide (Z.to_nat m = Z.to_nat m)); [|lia]. destruct (decide (K + Z.to_nat m = Z.to_nat m)%nat); [lia|].
    destruct (decide (K + i = Z.to_nat m)%nat); [lia|]. destruct (decide (i = K + Z.to_nat m)%nat); [lia|]. rewrite E3, E1.
    destruct (decide (Z.to_nat m < Z.to_nat m)%nat); [lia|]. replace (Z.to_nat (m + 1)) with (S (Z.to_nat m)) by lia. split.
    + destruct (decide (K + i = K + Z.to_nat m)%nat), (decide (i < S (Z.to_nat m))%nat), (decide (i < Z.to_nat m)%nat); try lia; try reflexivity.
      replace i with (Z.to_nat m) by lia. reflexivity.
    + intros Him. destruct (decide (i = Z.to_nat m)) as [->|]; [reflexivity|]. apply E2. lia.
  - exists l. split; [reflexivity|]. split; [exact H1|]. intros i Hi. cbv zeta. fold (r i). destruct (H2 i Hi) as [E1 E2].
    replace (Z.to_nat (1 + (Z.of_nat K - 1))) with K in E1, E2 by lia. destruct (decide (i < K)%nat); [|lia]. auto.
Qed.

(** The map whose kernel is {0, 1}: both halves of the points have the same images. *)
Definition phi (x : gf) : gf := x * x + x.
Lemma phi_add a b : phi (a + b) = phi a + phi b.
Proof. unfold phi. ring. Qed.
Lemma phi_0 : phi 0 = 0.
Proof. unfold phi. ring. Qed.
Lemma phi_succ a : phi (1 + a) = phi a.
Proof. unfold phi. ring. Qed.

Definition gamma (B : nat -> gf) (m i : nat) : gf := B i * ginv (B (m - 1)%nat).
(** The last element is not zero, at every level. *)
Fixpoint basis_ok (m_f m : nat) (B : nat -> gf) : Prop :=
  match m_f with
  | S (S _ as m_f') => B (m - 1)%nat <> 0 /\ basis_ok m_f' (m - 1) (fun i => phi (gamma B m i))
  | _ => True
  end.
Lemma basis_ok_ext m_f m B B' : (m_f <= m)%nat -> (forall i, (i < m)%nat -> B i = B' i) -> basis_ok m_f m B -> basis_ok m_f m B'.
Proof.
  revert m B B'. induction m_f as [|[|m_f] IH]; intros m B B' Hm H; [auto|auto|]. intros [H1 H2]. split; [rewrite <- H by lia; exact H1|].
  revert H2. apply IH; [lia|]. intros i Hi. unfold gamma. rewrite !H by lia. reflexivity.
Qed.

(** The loop of step 4. *)
Lemma gammas_spec betas (m : nat) : (1 <= m <= 7)%nat -> (m <= length betas)%nat ->
  exists gammas deltas, ofor (upto (Z.of_nat m - 1)) (fun i '(gammas, deltas) =>
        b ← cell (gfs betas) i; bm ← cell (gfs betas) (Z.of_nat m - 1);
        gammas ← set_cell gammas i (gf_mul b (gf_inverse bm));
        g ← cell gammas i;
        deltas ← set_cell deltas i (Z.lxor (gf_square g) g);
        Some (gammas, deltas)) (zeros (PARAM_M - 2), zeros (PARAM_M - 2)) = Some (gfs gammas, gfs deltas) /\
    length gammas = 6%nat /\ length deltas = 6%nat /\
    forall i, (i < m - 1)%nat -> coef gammas i = gamma (coef betas) m i /\ coef deltas i = phi (gamma (coef betas) m i).
Proof.
  intros Hm Hb. change (zeros (PARAM_M - 2)) with (gfs (replicate 6 0)).
  set (P := fun (j : Z) (s : list Z * list Z) => exists g d, s = (gfs g, gfs d) /\ length g = 6%nat /\ length d = 6%nat /\
    forall i, (i < Z.to_nat j)%nat -> coef g i = gamma (coef betas) m i /\ coef d i = phi (gamma (coef betas) m i)).
  edestruct (ofor_upto_ind P (Z.of_nat m - 1)) as (s & -> & g & d & -> & H1 & H2 & H3); [lia| | |].
  - exists (replicate 6 0), (replicate 6 0). split_and!; try reflexivity. intros i Hi. cbn in Hi. lia.
  - intros j s Hj (g & d & -> & H1 & H2 & H3). rewrite (cell_gfs (Z.to_nat j) betas j), some_bind, (cell_gfs (m - 1) betas (Z.of_nat m - 1)), some_bind by lia.
    rewrite <- gfv_inv, <- gfv_mul. fold (gamma (coef betas) m (Z.to_nat j)). rewrite (set_cell_gfs (Z.to_nat j) g), some_bind by lia.
    set (g1 := <[_ := _]> g). assert (Hg1 : length g1 = 6%nat) by (unfold g1; rewrite length_insert; exact H1).
    rewrite (cell_gfs (Z.to_nat j) g1), some_bind, <- gfv_square, <- gfv_add, (set_cell_gfs (Z.to_nat j) d), some_bind by lia.
    eexists. split; [reflexivity|]. eexists g1, _. split; [reflexivity|]. rewrite length_insert. split_and!; [exact Hg1|exact H2|]. intros i Hi.
    rewrite coef_insert by lia. unfold g1. rewrite !coef_insert by lia. destruct (decide (Z.to_nat j = Z.to_nat j)); [|lia].
    destruct (decide (i = Z.to_nat j)) as [->|]; [split; reflexivity|]. apply H3. lia.
  - exists g, d. split_and!; auto. intros i Hi. apply H3. lia.
Qed.

Lemma radix_small m_f f : (2 <= m_f <= 3)%nat -> length f = (2 ^ m_f)%nat -> exists g0 g1,
  radix m_f (gfs (replicate 4 0)) (gfs (replicate 4 0)) (gfs f) = Some (gfs g0, gfs g1) /\ length g0 = 4%nat /\ length g1 = 4%nat /\
  forall x, eval (coef f) (2 ^ m_f) x = eval (coef g0) (2 ^ (m_f - 1)) (phi x) + x * eval (coef g1) (2 ^ (m_f - 1)) (phi x).
Proof. intros Hm Hf. assert (m_f = 2 \/ m_f = 3)%nat as [-> | ->] by lia; [apply radix_2, Hf|apply radix_3, Hf]. Qed.

(** The values on the two halves of the points, from those of the two polynomials. *)
Lemma combine_values (F g0 g1 : gf -> gf) b betas m (gammas deltas : list gf) :
  (forall x, F (b * x) = g0 (phi x) + x * g1 (phi x)) -> b <> 0 -> (1 <= m <= length betas)%nat -> (m - 1 <= length gammas)%nat -> (m - 1 <= length deltas)%nat ->
  coef betas (m - 1) = b ->
  (forall i, (i < m - 1)%nat -> coef gammas i = gamma (coef betas) m i /\ coef deltas i = phi (gamma (coef betas) m i)) ->
  forall i, (i < 2 ^ (m - 1))%nat -> let r := g0 (pt deltas i) + pt gammas i * g1 (pt deltas i) in
    r = F (pt betas i) /\ g1 (pt deltas i) + r = F (pt betas (2 ^ (m - 1) + i)).
Proof.
  intros HF Hb Hm Hg Hd Eb H i Hi r.
  assert (Ed : pt deltas i = phi (pt gammas i)).
  { rewrite <- (pt_fmap phi gammas i) by (exact phi_0 || exact phi_add). apply (pt_ext _ _ (m - 1)); [exact Hi|exact Hd|rewrite length_fmap; exact Hg|].
    intros k Hk. destruct (H k Hk) as [E1 E2]. rewrite E2, <- E1, coef_fmap by lia. reflexivity. }
  assert (Ep : pt betas i = b * pt gammas i).
  { rewrite <- (pt_fmap (fun x => b * x) gammas i) by (intros; ring). apply (pt_ext _ _ (m - 1)); [exact Hi|lia|rewrite length_fmap; exact Hg|].
    intros k Hk. destruct (H k Hk) as [E1 _]. rewrite coef_fmap, E1 by lia. unfold gamma. rewrite Eb.
    transitivity (coef betas k * (b * ginv b)); [|ring]. rewrite ginv_r by exact Hb. ring. }
  split; [rewrite Ep, HF, <- Ed; reflexivity|]. rewrite pt_high, Eb, Ep by lia. replace (b + b * pt gammas i) with (b * (1 + pt gammas i)) by ring.
  rewrite HF, phi_succ, <- Ed. unfold r. ring.
Qed.

Lemma fft_rec_S m_f w f f_coeffs m betas : fft_rec (S (S m_f)) w f f_coeffs m betas =
  (f ← fft_twist f m (Z.of_nat (S (S m_f))) betas;
   '(f0, f1) ← radix (S (S m_f)) (gfs (replicate 4 0)) (gfs (replicate 4 0)) f;
   '(gammas, deltas) ← ofor (upto (m - 1)) (fun i '(gammas, deltas) =>
        b ← cell betas i; bm ← cell betas (m - 1);
        gammas ← set_cell gammas i (gf_mul b (gf_inverse bm));
        g ← cell gammas i;
        deltas ← set_cell deltas i (Z.lxor (gf_square g) g);
        Some (gammas, deltas)) (zeros (PARAM_M - 2), zeros (PARAM_M - 2));
   gammas_sums ← compute_subset_sums (gfs (replicate 64 0)) gammas (m - 1);
   '(u, f0) ← fft_rec (S m_f) (gfs (replicate 64 0)) f0 ((f_coeffs + 1) / 2) (m - 1) deltas;
   let k := Z.shiftl 1 (Z.land (m - 1) 0xf) in
   if f_coeffs <=? 3 then
     u0 ← cell u 0; w ← set_cell w 0 u0;
     c ← cell f1 0; w ← set_cell w k (Z.lxor u0 c);
     w ← ofor (seqZ 1 (k - 1)) (fun i w =>
       ui ← cell u i; s ← cell gammas_sums i;
       w ← set_cell w i (Z.lxor ui (gf_mul s c));
       wi ← cell w i; set_cell w (k + i) (Z.lxor wi c)) w;
     Some (w, f)
   else
     '(v, f1) ← fft_rec (S m_f) (gfs (replicate 64 0)) f1 (f_coeffs / 2) (m - 1) deltas;
     w ← fft_combine w u v gammas_sums k;
     Some (w, f)).
Proof. reflexivity. Qed.

(** The values of a polynomial with [2 ^ m_f] coefficients at all subset sums. *)
Lemma fft_rec_spec m_f : (m_f < 3)%nat -> forall w f betas (m : nat), let n := S m_f in
  length f = Nat.max 4 (2 ^ n) -> m = (n + 4)%nat -> (m <= length betas)%nat -> (2 ^ m <= length w)%nat -> basis_ok n m (coef betas) ->
  exists w' f', fft_rec n (gfs w) (gfs f) (Z.of_nat (2 ^ n)) (Z.of_nat m) (gfs betas) = Some (gfs w', f') /\ length w' = length w /\
    forall i, (i < 2 ^ m)%nat -> coef w' i = eval (coef f) (2 ^ n) (pt betas i).
Proof.
  induction m_f as [|m_f IH]; intros Hm w f betas m n Hf Em Hb Hw Hok; subst n.
  { destruct (fft_rec_linear_spec w f betas m) as (w' & E & H1 & H2); [lia|exact Hb|exact Hw|rewrite Hf; lia|].
    exists w', (gfs f). cbn [fft_rec]. rewrite E. auto. }
  destruct Hok as [Hb0 Hok]. rewrite fft_rec_S.
  assert (Hlen : length f = (2 ^ S (S m_f))%nat) by (rewrite Hf; assert (m_f = 0 \/ m_f = 1)%nat as [-> | ->] by lia; reflexivity).
  destruct (fft_twist_spec f betas m (S (S m_f))) as (f' & -> & F1 & F2); [lia|lia|]. rewrite some_bind.
  destruct (radix_small (S (S m_f)) f' ltac:(lia) ltac:(congruence)) as (g0 & g1 & -> & G0 & G1 & G). rewrite some_bind.
  destruct (gammas_spec betas m ltac:(lia) Hb) as (gammas & deltas & -> & Lg & Ld & Hgd). rewrite some_bind.
  replace (Z.of_nat m - 1)%Z with (Z.of_nat (m - 1)) by lia.
  assert (Hp64 : (2 ^ (m - 1) <= 64)%nat) by (change 64%nat with (2 ^ 6)%nat; apply Nat.pow_le_mono_r; lia).
  assert (Epow : (2 ^ m = 2 * 2 ^ (m - 1))%nat) by (rewrite <- Nat.pow_succ_r'; f_equal; lia).
  destruct (compute_subset_sums_spec (replicate 64 0) gammas (m - 1)) as (sums & -> & Ls & Hs); [lia|exact Hp64|]. rewrite some_bind, length_replicate in *.
  assert (Epf : (2 ^ S (S m_f) = 2 * 2 ^ S m_f)%nat) by apply Nat.pow_succ_r'.
  replace ((Z.of_nat (2 ^ S (S m_f)) + 1) / 2)%Z with (Z.of_nat (2 ^ S m_f)) by (Z.to_euclidean_division_equations; lia).
  replace (Z.of_nat (2 ^ S (S m_f)) / 2)%Z with (Z.of_nat (2 ^ S m_f)) by (Z.to_euclidean_division_equations; lia).
  assert (Hok' : basis_ok (S m_f) (m - 1) (coef deltas)).
  { revert Hok. apply basis_ok_ext; [lia|]. intros i Hi. symmetry. apply Hgd, Hi. }
  assert (H4 : forall g : list gf, length g = 4%nat -> length g = Nat.max 4 (2 ^ S m_f)).
  { intros g ->. assert (m_f = 0 \/ m_f = 1)%nat as [-> | ->] by lia; reflexivity. }
  destruct (IH ltac:(lia) (replicate 64 0) g0 deltas (m - 1)%nat) as (u & fu & -> & Lu & Hu); [apply H4, G0|lia|lia|exact Hp64|exact Hok'|].
  rewrite some_bind. cbv zeta. destruct (Z.leb_spec (Z.of_nat (2 ^ S (S m_f))) 3) as [Hle|_].
  { pose proof (Nat.pow_nonzero 2 m_f ltac:(lia)). rewrite !Nat.pow_succ_r' in Hle. lia. }
  destruct (IH ltac:(lia) (replicate 64 0) g1 deltas (m - 1)%nat) as (v & fv & -> & Lv & Hv); [apply H4, G1|lia|lia|exact Hp64|exact Hok'|].
  rewrite some_bind, length_replicate in *. rewrite (shiftl_1 _ (m - 1)) by (change 15%Z with (Z.ones 4); rewrite Z.land_ones, Z.mod_small by lia; lia).
  pose proof (Nat.pow_nonzero 2 (m - 1) ltac:(lia)).
  destruct (fft_combine_spec w u v sums (2 ^ (m - 1))) as (w' & -> & Lw & Hc); [lia..|rewrite Hs, pt_0 by lia; reflexivity|].
  rewrite some_bind. exists w', (gfs f'). split; [reflexivity|]. split; [exact Lw|].
  set (F := eval (coef f) (2 ^ S (S m_f))).
  assert (Hval : forall i, (i < 2 ^ (m - 1))%nat -> coef w' i = F (pt betas i) /\ coef w' (2 ^ (m - 1) + i) = F (pt betas (2 ^ (m - 1) + i))).
  { intros i Hi. destruct (Hc i Hi) as [-> ->]. rewrite Hu, Hv, Hs by exact Hi.
    apply (combine_values F (eval (coef g0) (2 ^ S m_f)) (eval (coef g1) (2 ^ S m_f)) (coef betas (m - 1)) betas m gammas deltas); try exact Hi; try lia;
      [|exact Hb0|reflexivity|exact Hgd]. intros x. unfold F. rewrite <- F2, G. reflexivity. }
  intros i Hi. destruct (decide (i < 2 ^ (m - 1))%nat); [apply Hval; assumption|].
  replace i with (2 ^ (m - 1) + (i - 2 ^ (m - 1)))%nat by lia. apply Hval. lia.
Qed.

(** ** The transform *)

Definition fft_betas : list Z := [128; 64; 32; 16; 8; 4; 2].
Definition top_basis : list gf := (of_byte <$> fft_betas) ++ [1].

Lemma compute_fft_betas_eq : compute_fft_betas (zeros (PARAM_M - 1)) = Some (gfs (of_byte <$> fft_betas)).
Proof. rewrite gfs_of_bytes by decided. reflexivity. Qed.
Lemma coef_top_basis i : (i < 7)%nat -> coef top_basis i = coef (of_byte <$> fft_betas) i.
Proof. intros Hi. unfold coef, top_basis. rewrite lookup_app_l by (rewrite length_fmap; cbn; lia). reflexivity. Qed.

Lemma ginv_1 : ginv 1 = 1.
Proof. apply gf_eq. vm_compute. reflexivity. Qed.
Lemma gf_nonzero a : negb (gfv a =? 0)%Z = true -> a <> 0.
Proof. intros H ->. discriminate H. Qed.

Lemma basis_ok_top : basis_ok 3 7 (fun i => phi (coef (of_byte <$> fft_betas) i)).
Proof. split; [apply gf_nonzero; vm_compute; reflexivity|]. split; [apply gf_nonzero; vm_compute; reflexivity|exact I]. Qed.

Lemma fft_spec w f : length w = 256%nat -> length f = 16%nat ->
  exists w', fft (gfs w) (gfs f) 16 = Some (gfs w') /\ length w' = 256%nat /\
    forall i, (i < 256)%nat -> coef w' i = eval (coef f) 16 (pt top_basis i).
Proof.
  intros Hw Hf. unfold fft. rewrite compute_fft_betas_eq, some_bind.
  set (B := of_byte <$> fft_betas). change (zeros (Z.shiftl 1 (PARAM_M - 1))) with (gfs (replicate 128 0)). change (PARAM_M - 1)%Z with (Z.of_nat 7).
  destruct (compute_subset_sums_spec (replicate 128 0) B 7) as (sums & -> & Ls & Hs); [cbn; lia|rewrite length_replicate; change (2 ^ 7)%nat with 128%nat; lia|].
  rewrite length_replicate in Ls. rewrite some_bind. change (zeros (Z.shiftl 1 (PARAM_FFT - 1))) with (gfs (replicate 8 0)). change (Z.to_nat PARAM_FFT) with 4%nat.
  destruct (radix_4 f Hf) as (g0 & g1 & -> & G0 & G1 & G). rewrite some_bind. change (zeros (Z.of_nat 7)) with (gfs (replicate 7 0)).
  edestruct (ofor_fill (fun i => phi (coef B i)) 0 7 (fun i deltas => b ← cell (gfs B) i; set_cell deltas i (Z.lxor (gf_square b) b)) (replicate 7 0)) as (deltas & -> & D1 & D2 & _).
  { rewrite length_replicate. lia. }
  { intros i l' Hi _ _ _. cbv beta. rewrite (cell_gfs i B), some_bind, <- gfv_square, <- gfv_add by (cbn; lia). reflexivity. }
  rewrite length_replicate in D1. cbn [Nat.add] in D2. rewrite some_bind. change (Z.to_nat (PARAM_FFT - 1)) with 3%nat.
  change ((16 + 1) / 2)%Z with (Z.of_nat (2 ^ 3)). change (16 / 2)%Z with (Z.of_nat (2 ^ 3)).
  assert (Hok : basis_ok 3 7 (coef deltas)).
  { generalize basis_ok_top. apply basis_ok_ext; [lia|]. intros i Hi. symmetry. apply D2, Hi. }
  destruct (fft_rec_spec 2 ltac:(lia) (replicate 128 0) g0 deltas 7) as (u & fu & -> & Lu & Hu); [exact G0|reflexivity|lia|rewrite length_replicate; change (2 ^ 7)%nat with 128%nat; lia|exact Hok|].
  rewrite some_bind.
  destruct (fft_rec_spec 2 ltac:(lia) (replicate 128 0) g1 deltas 7) as (v & fv & -> & Lv & Hv); [exact G1|reflexivity|lia|rewrite length_replicate; change (2 ^ 7)%nat with 128%nat; lia|exact Hok|].
  rewrite some_bind, length_replicate in *. change (Z.shiftl 1 (Z.of_nat 7)) with (Z.of_nat 128). change (2 ^ 7)%nat with 128%nat in *.
  destruct (fft_combine_spec w u v sums 128) as (w' & -> & Lw & Hc); [lia..|rewrite Hs, pt_0 by lia; reflexivity|].
  exists w'. split; [reflexivity|]. split; [lia|]. set (F := eval (coef f) 16).
  assert (Hval : forall i, (i < 128)%nat -> coef w' i = F (pt top_basis i) /\ coef w' (128 + i) = F (pt top_basis (128 + i))).
  { intros i Hi. destruct (Hc i Hi) as [-> ->]. rewrite Hu, Hv, Hs by exact Hi.
    apply (combine_values F (eval (coef g0) 8) (eval (coef g1) 8) 1 top_basis 8 B deltas); try exact Hi; [|exact gone_nonzero|cbn; lia|cbn; lia|cbn; lia|reflexivity|].
    - intros x. rewrite gmul_1_l. apply G.
    - intros k Hk. unfold gamma. change (coef top_basis (8 - 1)) with 1. rewrite ginv_1, coef_top_basis, D2 by lia. fold B.
      split; [ring|f_equal; ring]. }
  intros i Hi. destruct (decide (i < 128)%nat); [apply Hval; assumption|]. replace i with (128 + (i - 128))%nat by lia. apply Hval. lia.
Qed.

(** The order of the points: index [i] stands for the byte with the bits of [i] reversed. *)
Definition bit_reverse (i : Z) : Z := foldl (fun acc b => 2 * acc + Z.land (Z.shiftr i b) 1)%Z 0%Z (upto 8).
Definition horner (f : list Z) (x : Z) : Z := foldr (fun c acc => Z.lxor c (gf_mul x acc)) 0%Z f.

Lemma pt_top_basis i : (i < 256)%nat -> gfv (pt top_basis i) = bit_reverse (Z.of_nat i).
Proof.
  intros Hi. pose proof (check_upto 256 (fun i => gfv (pt top_basis (Z.to_nat i)) =? bit_reverse i)%Z ltac:(vm_compute; reflexivity) (Z.of_nat i) ltac:(lia)) as H.
  cbv beta in H. apply Z.eqb_eq in H. rewrite Nat2Z.id in H. exact H.
Qed.

Lemma horner_eval f x : horner (gfs f) (gfv x) = gfv (eval (coef f) (length f) x).
Proof.
  induction f as [|c f IH]; [reflexivity|].
  change (horner (gfs (c :: f)) (gfv x)) with (Z.lxor (gfv c) (gf_mul (gfv x) (horner (gfs f) (gfv x)))). cbn [length].
  rewrite IH, <- gfv_mul, <- gfv_add. f_equal. unfold eval. rewrite gsum_first, <- gsum_mul. f_equal.
  - change (coef (c :: f) 0) with c. cbn [gpow]. ring.
  - apply gsum_ext. intros k _. change (coef (c :: f) (S k)) with (coef f k). cbn [gpow]. ring.
Qed.

(** ** The positions of the roots *)

Definition root (x : gf) : gf := if decide (x = 0) then 1 else 0.

Lemma root_bit x : Z.lxor 1 (Z.shiftr (u16 (- gfv x)) 15) = gfv (root x).
Proof.
  unfold root. destruct (decide (x = 0)) as [->|Hne]; [reflexivity|]. pose proof (nonzero_range x Hne) as Hr.
  assert (E : u16 (- gfv x) = (2 ^ 16 - gfv x)%Z) by (unfold u16; symmetry; apply (Z.mod_unique_pos _ _ (-1)); lia).
  rewrite E, Z.shiftr_div_pow2 by lia. replace ((2 ^ 16 - gfv x) / 2 ^ 15)%Z with 1%Z by (apply (Z.div_unique_pos _ _ _ (2 ^ 15 - gfv x)); lia). reflexivity.
Qed.

Lemma mark_root_gfs e index (k : nat) x : index = Z.of_nat k -> (k < length e)%nat -> mark_root (gfs e) index (gfv x) = Some (gfs (<[k := coef e k + root x]> e)).
Proof.
  intros -> Hk. unfold mark_root. rewrite (cell_gfs k e), some_bind, root_bit, <- gfv_add, (set_cell_gfs k e) by lia. reflexivity.
Qed.

(** The inverse of alpha^k, the index of the point it is, and back. *)
Definition inverse_power (k : nat) : gf := of_byte (gf_pow ((255 - Z.of_nat k) mod 255)).
Definition point_of (k : nat) : nat := Z.to_nat (bit_reverse (gfv (inverse_power k))).
Definition position (i : nat) : Z := PARAM_GF_MUL_ORDER - gf_dlog (bit_reverse (Z.of_nat i)).

Lemma check_nat n (p : nat -> bool) : forallb p (seq 0 n) = true -> forall i, (i < n)%nat -> p i = true.
Proof. intros Hp i Hi. apply (proj1 (forallb_forall _ _) Hp), in_seq. lia. Qed.

Lemma point_of_spec k : (k < 255)%nat -> (point_of k < 256)%nat /\ pt top_basis (point_of k) = inverse_power k /\
  (k = 0%nat \/ position (point_of k) = Z.of_nat k).
Proof.
  intros Hk. pose proof (check_nat 255 (fun k => (point_of k <? 256)%nat && (bit_reverse (Z.of_nat (point_of k)) =? gfv (inverse_power k))%Z &&
    ((k =? 0)%nat || (position (point_of k) =? Z.of_nat k)%Z)) ltac:(vm_compute; reflexivity) k Hk) as H.
  cbv beta in H. rewrite !andb_true_iff, orb_true_iff in H. destruct H as [[H1 H2] H3]. apply Nat.ltb_lt in H1. apply Z.eqb_eq in H2.
  split; [exact H1|]. split; [apply gf_eq; rewrite pt_top_basis by exact H1; exact H2|].
  destruct H3 as [H3|H3]; [left; apply Nat.eqb_eq, H3|right; apply Z.eqb_eq, H3].
Qed.
Lemma position_spec i : (0 < i < 256)%nat -> i <> 128%nat -> (0 < position i < 255)%Z /\ point_of (Z.to_nat (position i)) = i.
Proof.
  intros Hi Hne. pose proof (check_nat 256 (fun i => (i =? 0)%nat || (i =? 128)%nat || ((0 <? position i)%Z && (position i <? 255)%Z && (point_of (Z.to_nat (position i)) =? i)%nat))
    ltac:(vm_compute; reflexivity) i ltac:(lia)) as H.
  cbv beta in H. destruct (Nat.eqb_spec i 0); [lia|]. destruct (Nat.eqb_spec i 128); [lia|]. cbn [orb] in H. case_bools.
  split; [lia|]. apply Nat.eqb_eq. assumption.
Qed.
Lemma point_of_0 : point_of 0 = 128%nat.
Proof. reflexivity. Qed.

Lemma cell_gf_log a : (1 <= a < 256)%Z -> cell gf_log a = Some (gf_dlog a).
Proof.
  intros Ha. rewrite cell_lookup by lia. unfold gf_dlog. destruct (lookup_lt_is_Some_2 gf_log (Z.to_nat a)) as [x ->]; [|reflexivity].
  change (length gf_log) with 256%nat. lia.
Qed.
Lemma bit_reverse_range i : (0 < i < 256)%nat -> (1 <= bit_reverse (Z.of_nat i) < 256)%Z.
Proof.
  intros Hi. pose proof (check_nat 256 (fun i => (i =? 0)%nat || ((1 <=? bit_reverse (Z.of_nat i)) && (bit_reverse (Z.of_nat i) <? 256))%Z)
    ltac:(vm_compute; reflexivity) i ltac:(lia)) as H. cbv beta in H. destruct (Nat.eqb_spec i 0); [lia|]. cbn [orb] in H. case_bools. lia.
Qed.

(** The first entries of [error] that the loop has settled when its index is [m]. *)
Definition settled (m k : nat) : Prop := k = 0%nat \/ (0 < point_of k < m \/ 128 < point_of k < 128 + m)%nat.
#[local] Instance settled_dec m k : Decision (settled m k).
Proof. unfold settled. apply _. Defined.
Definition marked (F : gf -> gf) (m : nat) (e : list gf) : Prop :=
  length e = 256%nat /\ forall k, (k < 255)%nat -> coef e k = if decide (settled m k) then root (F (inverse_power k)) else 0.

Lemma position_iff i k : (0 < i < 256)%nat -> i <> 128%nat -> (k < 255)%nat -> k = Z.to_nat (position i) <-> point_of k = i.
Proof.
  intros Hi Hne Hk. destruct (position_spec i Hi Hne) as [P Q]. split; [intros ->; exact Q|]. intros Ek.
  destruct (point_of_spec k Hk) as (_ & _ & [->|Ep]); [rewrite point_of_0 in Ek; congruence|]. rewrite Ek in Ep. lia.
Qed.

Lemma mark_step F e (i : nat) : (0 < i < 128)%nat -> marked F i e ->
  let k1 := Z.to_nat (position i) in let k2 := Z.to_nat (position (128 + i)) in
  let e1 := <[k1 := coef e k1 + root (F (pt top_basis i))]> e in
  marked F (S i) (<[k2 := coef e1 k2 + root (F (pt top_basis (128 + i)))]> e1).
Proof.
  intros Hi [L H] k1 k2 e1. destruct (position_spec i ltac:(lia) ltac:(lia)) as [P1 _]. destruct (position_spec (128 + i) ltac:(lia) ltac:(lia)) as [P2 _].
  assert (L1 : length e1 = 256%nat) by (unfold e1; rewrite length_insert; exact L). split; [rewrite length_insert; exact L1|]. intros k Hk.
  pose proof (position_iff i k ltac:(lia) ltac:(lia) Hk) as K1. pose proof (position_iff (128 + i) k ltac:(lia) ltac:(lia) Hk) as K2. fold k1 in K1. fold k2 in K2.
  assert (Hnz : point_of k = i \/ point_of k = (128 + i)%nat -> k <> 0%nat) by (intros Ek ->; rewrite point_of_0 in Ek; lia).
  assert (Hold : point_of k = i \/ point_of k = (128 + i)%nat -> coef e k = 0).
  { intros Ek. specialize (Hnz Ek). rewrite H by exact Hk. unfold settled. case_decide; [lia|reflexivity]. }
  destruct (point_of_spec k Hk) as (_ & Ept & _). rewrite coef_insert by lia. unfold e1. rewrite !coef_insert by lia.
  assert (Hnew : point_of k = i \/ point_of k = (128 + i)%nat -> settled (S i) k) by (unfold settled; lia).
  destruct (decide (k = k2)) as [Ek|Ek].
  { rewrite <- Ek. destruct (decide (k = k1)); [lia|]. apply K2 in Ek. rewrite Hold by auto. rewrite Ek in Ept. rewrite Ept. case_decide as Hn; [ring|destruct Hn; apply Hnew; auto]. }
  destruct (decide (k = k1)) as [Ek1|Ek1].
  { rewrite <- Ek1. apply K1 in Ek1. rewrite Hold by auto. rewrite Ek1 in Ept. rewrite Ept. case_decide as Hn; [ring|destruct Hn; apply Hnew; auto]. }
  rewrite H by exact Hk. unfold settled in *. repeat case_decide; (reflexivity || lia).
Qed.

Lemma marked_all F e : marked F 128 e -> forall k, (k < 255)%nat -> coef e k = root (F (inverse_power k)).
Proof.
  intros [_ H] k Hk. rewrite H by exact Hk. case_decide as Hn; [reflexivity|exfalso]. unfold settled in Hn.
  destruct (point_of_spec k Hk) as (Hp & _ & [->|Epos]); [lia|]. assert (point_of k = 0 \/ point_of k = 128)%nat as [E|E] by lia; rewrite E in Epos.
  - change (position 0) with 255%Z in Epos. lia.
  - change (position 128) with 255%Z in Epos. lia.
Qed.

Lemma fft_retrieve_spec (F : gf -> gf) w : length w = 256%nat -> (forall i, (i < 256)%nat -> coef w i = F (pt top_basis i)) -> F 0 <> 0 ->
  exists e, fft_retrieve_error_poly (zeros 256) (gfs w) = Some (gfs e) /\ length e = 256%nat /\ forall k, (k < 255)%nat -> coef e k = root (F (inverse_power k)).
Proof.
  intros Lw Hw HF0. unfold fft_retrieve_error_poly. rewrite compute_fft_betas_eq, some_bind.
  set (B := of_byte <$> fft_betas). change (zeros (Z.shiftl 1 (PARAM_M - 1))) with (gfs (replicate 128 0)). change (PARAM_M - 1)%Z with (Z.of_nat 7).
  destruct (compute_subset_sums_spec (replicate 128 0) B 7) as (sums & -> & Ls & Hs); [cbn; lia|rewrite length_replicate; change (2 ^ 7)%nat with 128%nat; lia|].
  rewrite length_replicate in Ls. rewrite some_bind. change (2 ^ 7)%nat with 128%nat in Hs. change (zeros 256) with (gfs (replicate 256 0)).
  assert (HB : forall i, (i < 128)%nat -> coef sums i = pt top_basis i).
  { intros i Hi. rewrite Hs by exact Hi. apply (pt_ext _ _ 7); [exact Hi|cbn; lia|cbn; lia|]. intros k Hk. symmetry. apply coef_top_basis, Hk. }
  change (Z.shiftl 1 (Z.of_nat 7)) with 128%Z. cbv zeta.
  rewrite (cell_gfs 0 w 0), some_bind, (mark_root_gfs _ 0 0), some_bind, (cell_gfs 128 w 128), some_bind by (rewrite ?length_replicate; lia).
  rewrite (mark_root_gfs _ 0 0), some_bind, coef_insert, coef_replicate by (rewrite ?length_insert, ?length_replicate; lia).
  set (e0 := <[_ := _]> (<[_ := _]> _)).
  assert (E0 : forall k, coef e0 k = if decide (k = 0)%nat then root (F (inverse_power k)) else 0).
  { intros k. unfold e0. rewrite !coef_insert, coef_replicate by (rewrite ?length_insert, ?length_replicate; lia). destruct (decide (k = 0)%nat) as [->|]; [|reflexivity].
    rewrite !Hw by lia. rewrite pt_0. unfold root at 1. destruct (decide (F 0 = 0)) as [E|_]; [destruct (HF0 E)|].
    change (pt top_basis 128) with (pt top_basis (point_of 0)). rewrite (proj1 (proj2 (point_of_spec 0 ltac:(lia)))). destruct (decide (0 = 0)%nat); [ring|lia]. }
  set (P := fun (m : Z) (s : list Z) => exists e, s = gfs e /\ marked F (Z.to_nat m) e).
  edestruct (ofor_seqZ_ind P 1 (128 - 1)) as (s & -> & e & -> & H); [lia| | |exists e; split; [reflexivity|]; split; [apply H|apply marked_all, H]].
  - exists e0. split; [reflexivity|]. split; [unfold e0; rewrite !length_insert; apply length_replicate|]. intros k Hk. rewrite E0.
    change (Z.to_nat 1) with 1%nat. unfold settled. repeat case_decide; (reflexivity || lia).
  - intros m s Hm (e & -> & H). cbv beta. set (i := Z.to_nat m) in *. assert (Em : m = Z.of_nat i) by (unfold i; lia). assert (Hi : (0 < i < 128)%nat) by lia.
    assert (Hsum : gfv (coef sums i) = bit_reverse (Z.of_nat i)) by (rewrite HB by lia; apply pt_top_basis; lia).
    assert (Hsum1 : Z.lxor (gfv (coef sums i)) 1 = bit_reverse (Z.of_nat (128 + i))).
    { change 1%Z with (gfv 1). rewrite <- gfv_add, HB, <- pt_top_basis by lia. f_equal. change 128%nat with (2 ^ 7)%nat.
      rewrite pt_high by (change (2 ^ 7)%nat with 128%nat; cbn [length top_basis]; (lia || (cbn; lia))). change (coef top_basis 7) with 1. ring. }
    destruct (position_spec i ltac:(lia) ltac:(lia)) as [P1 _]. destruct (position_spec (128 + i) ltac:(lia) ltac:(lia)) as [P2 _].
    rewrite (cell_gfs i sums), some_bind by lia. rewrite Hsum1, Hsum, (cell_gf_log (bit_reverse (Z.of_nat i))), some_bind by (apply bit_reverse_range; lia).
    pose proof (mark_step F e i Hi H) as Hstep. cbv zeta in Hstep. destruct H as [L _]. rewrite <- !Hw in Hstep by lia.
    rewrite (cell_gfs i w m), some_bind by lia. fold (position i). rewrite (mark_root_gfs _ _ (Z.to_nat (position i))), some_bind by lia. set (e1 := <[_ := _]> e) in *.
    assert (L1 : length e1 = 256%nat) by (unfold e1; rewrite length_insert; exact L).
    rewrite cell_gf_log, some_bind by (apply bit_reverse_range; lia). rewrite (cell_gfs (128 + i) w (128 + m)), some_bind by lia. fold (position (128 + i)).
    rewrite (mark_root_gfs _ _ (Z.to_nat (position (128 + i)))) by lia. eexists. split; [reflexivity|]. eexists. split; [reflexivity|].
    replace (Z.to_nat (m + 1)) with (S i) by lia. exact Hstep.
Qed.

(** ** Property *)

(** C28. The additive FFT is evaluation: entry [i] of its output is the value of the
    polynomial of 16 coefficients at the byte with the bits of [i] reversed, for each of
    the 256 bytes. *)
Theorem fft_evaluates w f : all_bytes w -> all_bytes f -> length w = 256%nat -> length f = 16%nat ->
  fft w f 16 = Some ((fun i => horner f (bit_reverse i)) <$> upto 256).
Proof.
  intros Hw Hf Lw Lf. rewrite <- (gfs_of_bytes w Hw), <- (gfs_of_bytes f Hf) at 1.
  destruct (fft_spec (of_byte <$> w) (of_byte <$> f)) as (w' & -> & L & H); [rewrite length_fmap; assumption..|]. f_equal.
  apply list_eq. intros i. destruct (decide (i < 256)%nat) as [Hi|Hi].
  - unfold gfs. rewrite !list_lookup_fmap. unfold upto. rewrite lookup_seqZ_lt by lia. cbn [fmap option_fmap option_map].
    destruct (lookup_lt_is_Some_2 w' i ltac:(lia)) as [x Hx]. rewrite Hx. cbn [fmap option_fmap option_map]. f_equal.
    specialize (H i Hi). unfold coef at 1 in H. rewrite Hx in H. cbn [default from_option id] in H. rewrite H, Z.add_0_l, <- pt_top_basis by lia. rewrite <- (gfs_of_bytes f Hf) at 2. rewrite horner_eval, length_fmap, Lf. reflexivity.
  - rewrite !lookup_ge_None_2; [reflexivity|rewrite length_fmap, length_upto; lia|rewrite length_gfs; lia].
Qed.

Example fft_evaluates_witness : let f := (1 :: 18 :: 52 :: zeros 13)%Z in
  fft (zeros 256) f 16 = Some ((fun i => horner f (bit_reverse i)) <$> upto 256).
Proof. apply (fft_evaluates (zeros 256)); [decided|decided|reflexivity|reflexivity]. Defined.
