(* ===== verification/Gf2x.v ===== *)
(** * Products modulo X^n - 1: [gf2x.c] of the HQC sources

    Polynomials of up to 17669 coefficients over two elements, in arrays of 277
    words of 64 bits, multiplied by a recursive Karatsuba scheme whose temporaries
    live in a stack that the caller provides.  A pointer into an array is the list
    of the cells from there to the end of the array; the theorem on [vect_mul] says
    that it computes the product and stays inside its arrays. *)

From S2P Require Import Prelude Carryless Words Gf.

(* src/extern/HQC-Round4/Additional_Implementation/hqc-128/src/parameters.h:60-60 PARAM_N *)
Definition PARAM_N : Z := 17669.
(* src/extern/HQC-Round4/Additional_Implementation/hqc-128/src/parameters.h:81-81 VEC_N_SIZE_64 *)
Definition VEC_N_SIZE_64 : Z := CEIL_DIVIDE PARAM_N 64.
(* src/extern/HQC-Round4/Additional_Implementation/hqc-128/src/parameters.h:12-12 BITMASK *)
Definition BITMASK (a size : Z) : Z := u32 (Z.shiftl 1 (a mod size)) - 1.
(* src/extern/HQC-Round4/Additional_Implementation/hqc-128/src/parameters.h:97-97 RED_MASK *)
Definition RED_MASK : Z := BITMASK PARAM_N 64.

(** An array of words. *)
Abbreviation words := (list Z).

(** The multiples of [b] by the polynomials of degree less than 4. *)
(* src/extern/HQC-Round4/Additional_Implementation/hqc-128/src/gf2x.c:39-55 base_mul *)
Definition base_table (b : Z) : words :=
  let u1 := Z.land b (Z.shiftl 1 (64 - 4) - 1) in
  let u2 := u64 (Z.shiftl u1 1) in
  let u3 := Z.lxor u2 u1 in
  let u4 := u64 (Z.shiftl u2 1) in
  let u5 := Z.lxor u4 u1 in
  let u6 := u64 (Z.shiftl u3 1) in
  let u7 := Z.lxor u6 u1 in
  let u8_ := u64 (Z.shiftl u4 1) in
  let u9 := Z.lxor u8_ u1 in
  let u10 := u64 (Z.shiftl u5 1) in
  let u11 := Z.lxor u10 u1 in
  let u12 := u64 (Z.shiftl u6 1) in
  let u13 := Z.lxor u12 u1 in
  let u14 := u64 (Z.shiftl u7 1) in
  let u15 := Z.lxor u14 u1 in
  [0; u1; u2; u3; u4; u5; u6; u7; u8_; u9; u10; u11; u12; u13; u14; u15].

(** The combination that four bits of [a] select. *)
(* src/extern/HQC-Round4/Additional_Implementation/hqc-128/src/gf2x.c:57-73 base_mul *)
Definition base_select (u : words) (tmp1 : Z) : Z :=
  foldl (fun g '(i, ui) => u64 (Z.lxor g (Z.land ui (eq_mask 64 tmp1 i)))) 0 (zip (upto 16) u).

(* src/extern/HQC-Round4/Additional_Implementation/hqc-128/src/gf2x.c:31-99 base_mul *)
Definition base_mul (a b : Z) : Z * Z :=
  let u := base_table b in
  let l := base_select u (Z.land a 15) in
  let '(l, h) := foldl (fun '(l, h) i =>
    let g := base_select u (Z.land (Z.shiftr a i) 15) in
    (u64 (Z.lxor l (Z.shiftl g i)), u64 (Z.lxor h (Z.shiftr g (64 - i))))) (l, 0) ((fun k => 4 * k) <$> seqZ 1 15) in
  foldl (fun '(l, h) k =>
    let mask := u64 (- Z.land (Z.shiftr b k) 1) in
    (Z.lxor l (Z.land (u64 (Z.shiftl a k)) mask), Z.lxor h (Z.land (Z.shiftr a (64 - k)) mask))) (l, h) [60; 61; 62; 63].

(** [alh] and [blh] are arrays from the pointers on. *)
(* src/extern/HQC-Round4/Additional_Implementation/hqc-128/src/gf2x.c:104-114 karatsuba_add1 *)
Definition karatsuba_add1 (alh blh a b : words) (size_l size_h : Z) : option (words * words) :=
  '(alh, blh) ← ofor (upto size_h) (fun i '(alh, blh) =>
    ai ← cell a i; aj ← cell a (i + size_l); alh ← set_cell alh i (Z.lxor ai aj);
    bi ← cell b i; bj ← cell b (i + size_l); blh ← set_cell blh i (Z.lxor bi bj);
    Some (alh, blh)) (alh, blh);
  if size_h <? size_l then
    ai ← cell a size_h; alh ← set_cell alh size_h ai;
    bi ← cell b size_h; blh ← set_cell blh size_h bi;
    Some (alh, blh)
  else Some (alh, blh).

(** [tmp2] points to the cell [tmp2] of [o]. *)
(* src/extern/HQC-Round4/Additional_Implementation/hqc-128/src/gf2x.c:118-130 karatsuba_add2 *)
Definition karatsuba_add2 (o tmp1 : words) (tmp2 size_l size_h : Z) : option (words * words) :=
  tmp1 ← ofor (upto (2 * size_l)) (fun i tmp1 =>
    x ← cell tmp1 (i + 0); y ← cell o (i + 0); set_cell tmp1 (i + 0) (Z.lxor x y)) tmp1;
  tmp1 ← ofor (upto (2 * size_h)) (fun i tmp1 =>
    x ← cell tmp1 (i + 0); y ← cell o (i + tmp2); set_cell tmp1 (i + 0) (Z.lxor x y)) tmp1;
  o ← ofor (upto (2 * size_l)) (fun i o =>
    x ← cell o (i + size_l); y ← cell tmp1 (i + 0); set_cell o (i + size_l) (Z.lxor x y)) o;
  Some (o, tmp1).

(** The array up to a pointer into it, and from there on. *)
Definition split (l : words) (n : Z) : option (words * words) :=
  if (0 <=? n) && (n <=? Z.of_nat (length l)) then Some (take (Z.to_nat n) l, drop (Z.to_nat n) l) else None.

(** [o], [a], [b] and [stack] are the arrays from the pointers on; the result is what is
    left in [o] and in [stack].  [fuel] bounds the depth of the recursion. *)
(* src/extern/HQC-Round4/Additional_Implementation/hqc-128/src/gf2x.c:143-174 karatsuba *)
Fixpoint karatsuba (fuel : nat) (o a b : words) (size : Z) (stack : words) : option (words * words) :=
  match fuel with
  | O => None
  | S fuel =>
      if size =? 1 then
        a0 ← cell a 0;
        b0 ← cell b 0;
        let '(l, h) := base_mul a0 b0 in
        o ← set_cell o 0 l;
        o ← set_cell o 1 h;
        Some (o, stack)
      else
        let size_h := size / 2 in
        let size_l := (size + 1) / 2 in
        '(alh, stack) ← split stack size_l;
        '(blh, stack) ← split stack size_l;
        '(tmp1, stack) ← split stack (2 * size_l);
        '(_, ah) ← split a size_l;
        '(_, bh) ← split b size_l;
        '(o, stack) ← karatsuba fuel o a b size_l stack;
        '(o_low, tmp2) ← split o (2 * size_l);
        '(tmp2, stack) ← karatsuba fuel tmp2 ah bh size_h stack;
        '(alh, blh) ← karatsuba_add1 alh blh a b size_l size_h;
        '(tmp1, stack) ← karatsuba fuel tmp1 alh blh size_l stack;
        '(o, tmp1) ← karatsuba_add2 (o_low ++ tmp2) tmp1 (2 * size_l) size_l size_h;
        Some (o, alh ++ blh ++ tmp1 ++ stack)
  end.

(* src/extern/HQC-Round4/Additional_Implementation/hqc-128/src/gf2x.c:186-197 reduce *)
Definition reduce (o a : words) : option words :=
  o ← ofor (upto VEC_N_SIZE_64) (fun i o =>
    x ← cell a (i + VEC_N_SIZE_64 - 1);
    let r := Z.shiftr x (Z.land PARAM_N 0x3F) in
    y ← cell a (i + VEC_N_SIZE_64);
    let carry := u64 (Z.shiftl y (64 - Z.land PARAM_N 0x3F)) in
    z ← cell a i;
    set_cell o i (Z.lxor (Z.lxor z r) carry)) o;
  last ← cell o (VEC_N_SIZE_64 - 1);
  set_cell o (VEC_N_SIZE_64 - 1) (Z.land last RED_MASK).

(** The depth of the recursion is less than the number of words. *)
(* src/extern/HQC-Round4/Additional_Implementation/hqc-128/src/gf2x.c:213-219 vect_mul *)
Definition vect_mul (o a1 a2 : words) : option words :=
  let stack := zeros (Z.shiftl VEC_N_SIZE_64 3) in
  let o_karat := zeros (Z.shiftl VEC_N_SIZE_64 1 + 1) in
  '(o_karat, stack) ← karatsuba (Z.to_nat VEC_N_SIZE_64) o_karat a1 a2 VEC_N_SIZE_64 stack;
  reduce o o_karat.

(** ** Products of two words *)

Lemma base_table_spec u1 b : in_width 60 u1 -> u1 = Z.land b (Z.shiftl 1 (64 - 4) - 1) -> base_table b = (fun t => clmul t u1) <$> upto 16.
Proof.
  intros Hu E. unfold base_table. rewrite <- E. cbv zeta. assert (Hu0 : 0 <= u1) by apply Hu.
  assert (Hd : forall t t2, 0 <= t < 8 -> t2 = 2 * t -> u64 (Z.shiftl (clmul t u1) 1) = clmul t2 u1).
  { intros t t2 Ht ->. unfold u64. rewrite Z.mod_small.
    - replace (2 * t) with (Z.shiftl t 1) by (rewrite Z.shiftl_mul_pow2; lia). rewrite clmul_shiftl_l by lia. reflexivity.
    - apply (width_mono (62 + 1)); [lia|]. apply width_shiftl; [lia|lia|]. apply (clmul_width 2 60); [lia|lia|unfold in_width; lia|exact Hu]. }
  assert (Ho : forall k t t1, 0 <= k < 8 -> t = 2 * k -> t1 = t + 1 -> Z.lxor (clmul t u1) u1 = clmul t1 u1).
  { intros k t t1 Hk -> ->. change (2 * k + 1) with (2 * k + Z.b2z true). rewrite clmul_bits by lia. rewrite Z.lxor_comm. f_equal.
    replace (2 * k) with (2 * k + Z.b2z false) by (cbn; lia). rewrite clmul_bits by lia. apply Z.lxor_0_l. }
  pose proof (Hd 1 2 ltac:(lia) eq_refl) as E2. rewrite clmul_1_l in E2. rewrite E2.
  rewrite (Ho 1 2 3), (Hd 2 4), (Hd 3 6), (Ho 2 4 5), (Ho 3 6 7), (Hd 4 8), (Hd 5 10), (Hd 6 12), (Hd 7 14) by lia.
  rewrite (Ho 4 8 9), (Ho 5 10 11), (Ho 6 12 13), (Ho 7 14 15) by lia. reflexivity.
Qed.

Lemma base_select_table u t : length u = 16%nat -> base_select u t = table_select 64 64 t 0 u 0.
Proof. intros Hl. unfold base_select, table_select, upto. rewrite Hl. reflexivity. Qed.

Lemma base_select_spec u1 t : in_width 60 u1 -> 0 <= t < 16 -> base_select ((fun t => clmul t u1) <$> upto 16) t = clmul t u1 /\ in_width 64 (clmul t u1).
Proof.
  intros Hu Ht. assert (Hw : forall t, 0 <= t < 16 -> in_width 64 (clmul t u1)).
  { intros x Hx. apply (width_mono (3 + 60)); [lia|]. apply clmul_width; [lia|lia|unfold in_width; lia|exact Hu]. }
  split; [|exact (Hw t Ht)]. rewrite base_select_table by reflexivity.
  rewrite (table_select_spec 64 64).
  - rewrite length_fmap, length_upto, Z2Nat.id, Z.sub_0_r, Z.lxor_0_l by lia.
    destruct (Z.leb_spec 0 t), (Z.ltb_spec t (0 + 16)); try lia. cbn [andb]. rewrite list_lookup_fmap, upto_lookup by lia. reflexivity.
  - lia.
  - lia.
  - lia.
  - apply list.Forall_fmap, list.Forall_forall. intros x Hx. apply elem_of_upto in Hx. exact (Hw x Hx).
  - apply width_0. lia.
  - lia.
  - rewrite length_fmap, length_upto. lia.
Qed.

Lemma base_mul_spec a b : in_width 64 a -> in_width 64 b ->
  let '(l, h) := base_mul a b in in_width 64 l /\ in_width 64 h /\ Z.lxor l (Z.shiftl h 64) = clmul a b.
Proof.
  intros Ha Hb. unfold base_mul. cbv zeta. set (u1 := b mod 2 ^ 60). assert (Hu : in_width 60 u1) by (apply in_width_mod; lia).
  rewrite (base_table_spec u1 b) by (first [exact Hu | symmetry; apply (Z.land_ones b 60); lia]).
  set (u := (fun t => clmul t u1) <$> upto 16).
  assert (Hsel : forall i, 0 <= i -> base_select u (Z.land (Z.shiftr a i) 15) = clmul (Z.shiftr a i mod 2 ^ 4) u1 /\
                   in_width 64 (clmul (Z.shiftr a i mod 2 ^ 4) u1)).
  { intros i Hi. change 15 with (Z.ones 4). rewrite Z.land_ones by lia. apply base_select_spec; [exact Hu|]. apply (in_width_mod 4). lia. }
  assert (Hfold : forall n, (n <= 15)%nat -> exists l h, foldl (fun '(l, h) i =>
      let g := base_select u (Z.land (Z.shiftr a i) 15) in
      (u64 (Z.lxor l (Z.shiftl g i)), u64 (Z.lxor h (Z.shiftr g (64 - i))))) (base_select u (Z.land a 15), 0) ((fun k => 4 * k) <$> seqZ 1 (Z.of_nat n)) = (l, h) /\
      in_width 64 l /\ wide 64 l h (clmul (a mod 2 ^ (4 * (Z.of_nat n + 1))) u1)).
  { induction n as [|n IH]; intros Hn.
    - destruct (Hsel 0 ltac:(lia)) as [E Hw]. rewrite Z.shiftr_0_r in E, Hw. eexists _, _. split; [reflexivity|]. rewrite E. split; [exact Hw|].
      split; [apply width_0; lia|]. rewrite Z.shiftl_0_l, Z.lxor_0_r. apply Z.mod_small, Hw.
    - destruct (IH ltac:(lia)) as (l & h & E & Hl & Hw). rewrite Nat2Z.inj_succ, <- Z.add_1_r, seqZ_app, fmap_app, foldl_app, E by lia.
      assert (Es : seqZ (1 + Z.of_nat n) 1 = [1 + Z.of_nat n]) by (rewrite seqZ_cons by lia; reflexivity).
      rewrite Es. cbn [fmap list_fmap foldl]. set (i := 4 * (1 + Z.of_nat n)).
      eexists _, _. split; [reflexivity|]. split; [apply (in_width_mod 64); lia|]. destruct (Hsel i ltac:(lia)) as [-> Hg].
      replace (4 * (Z.of_nat n + 1)) with i in Hw by lia. apply wide_trunc; [lia|].
      replace (4 * (Z.of_nat n + 1 + 1)) with (i + 4) by lia. apply wide_window; [lia|lia|exact Hg|exact Hw]. }
  destruct (Hfold 15%nat ltac:(lia)) as (l & h & E & Hl & Hw). change (Z.of_nat 15) with 15 in E, Hw. cbv zeta in E. rewrite E. clear E Hfold.
  change (4 * (15 + 1)) with 64 in Hw. rewrite (Z.mod_small a) in Hw by exact Ha.
  assert (Hbit : forall k l h, 60 <= k < 64 -> in_width 64 l -> wide 64 l h (clmul a (b mod 2 ^ k)) ->
    let mask := u64 (- Z.land (Z.shiftr b k) 1) in
    let l' := Z.lxor l (Z.land (u64 (Z.shiftl a k)) mask) in let h' := Z.lxor h (Z.land (Z.shiftr a (64 - k)) mask) in
    in_width 64 l' /\ wide 64 l' h' (clmul a (b mod 2 ^ (k + 1)))).
  { intros k l0 h0 Hk Hl0 Hw0 mask. pose proof (wide_bit 64 l0 h0 a b k ltac:(lia) Ha Hw0) as H1. cbv zeta in H1.
    assert (Hx : Z.land (Z.shiftr b k) 1 = 0 \/ Z.land (Z.shiftr b k) 1 = 1).
    { rewrite (Z.land_ones _ 1) by lia. pose proof (Z.mod_pos_bound (Z.shiftr b k) (2 ^ 1) ltac:(lia)). lia. }
    assert (Hr : in_width 64 (Z.shiftr a (64 - k))) by (apply (width_mono k); [lia|apply (width_shiftr k (64 - k)); [lia|lia|replace (k + (64 - k)) with 64 by lia; exact Ha]]).
    assert (Hmask : forall x, in_width 64 x -> Z.land x mask = if Z.land (Z.shiftr b k) 1 =? 1 then x else 0)
      by (intros x Hxw; apply (land_bit_mask 64); [lia|exact Hxw|exact Hx]).
    cbv zeta. rewrite !Hmask by (exact Hr || apply (in_width_mod 64); lia).
    assert (Hl' : in_width 64 (if Z.land (Z.shiftr b k) 1 =? 1 then u64 (Z.shiftl a k) else 0)) by (case_if; [apply (in_width_mod 64); lia|apply width_0; lia]).
    split; [apply width_lxor; [lia|exact Hl0|exact Hl']|]. destruct H1 as [Hh H1]. split; [exact Hh|]. rewrite <- H1. f_equal.
    rewrite !lxor_mod_pow2 by lia. f_equal. case_if; [|reflexivity]. apply Z.mod_mod. lia. }
  cbn [foldl].
  repeat match goal with |- context [u64 (- Z.land (Z.shiftr b ?k) 1)] =>
    destruct (Hbit k _ _ ltac:(lia) Hl Hw) as [Hl1 Hw1]; cbv zeta in Hl1, Hw1; revert Hl1 Hw1;
    generalize (Z.lxor l (Z.land (u64 (Z.shiftl a k)) (u64 (- Z.land (Z.shiftr b k) 1)))) (Z.lxor h (Z.land (Z.shiftr a (64 - k)) (u64 (- Z.land (Z.shiftr b k) 1))));
    clear l h Hl Hw; intros l h Hl Hw end.
  change (63 + 1) with 64 in Hw. rewrite (Z.mod_small b) in Hw by exact Hb. destruct Hw as [Hh E]. split; [exact Hl|]. split; [exact Hh|].
  rewrite (Z.mod_small l) in E by exact Hl. exact E.
Qed.

(** ** Arrays as polynomials *)

Definition words_wf (l : words) : Prop := Forall (in_width 64) l.
Abbreviation poly := (pack 64).

Lemma poly_width l : words_wf l -> in_width (64 * Z.of_nat (length l)) (poly l).
Proof. intros Hl. apply pack_width; [lia|exact Hl]. Qed.
Lemma poly_nonneg l : words_wf l -> 0 <= poly l.
Proof. intros Hl. apply (poly_width l Hl). Qed.

Lemma poly_app l1 l2 : poly (l1 ++ l2) = Z.lxor (poly l1) (Z.shiftl (poly l2) (64 * Z.of_nat (length l1))).
Proof. apply pack_app. lia. Qed.

Definition xor_words : words -> words -> words := zip_with Z.lxor.

Lemma poly_xor l1 l2 : length l1 = length l2 -> poly (xor_words l1 l2) = Z.lxor (poly l1) (poly l2).
Proof. apply pack_zip_lxor. lia. Qed.
Lemma xor_words_wf l1 l2 : words_wf l1 -> words_wf l2 -> words_wf (xor_words l1 l2).
Proof.
  intros H1. revert l2. induction H1 as [|w l1 Hw H1 IH]; intros l2 H2; [constructor|]. destruct H2 as [|w2 l2 Hw2 H2]; [constructor|].
  constructor; [apply width_lxor; [lia|assumption..]|exact (IH l2 H2)].
Qed.
Lemma length_xor_words l1 l2 : length l1 = length l2 -> length (xor_words l1 l2) = length l1.
Proof. intros Hl. unfold xor_words. rewrite length_zip_with. lia. Qed.

Lemma poly_zeros n : poly (replicate n 0) = 0.
Proof. apply pack_zeros. lia. Qed.

(** The first [n] cells from [d] on. *)
Definition segment (l : words) (d n : nat) : words := take n (drop d l).

Lemma length_segment l d n : (d + n <= length l)%nat -> length (segment l d n) = n.
Proof. intros Hl. unfold segment. rewrite length_take, length_drop. lia. Qed.
Lemma segment_wf l d n : words_wf l -> words_wf (segment l d n).
Proof. intros Hl. apply Forall_take, Forall_drop, Hl. Qed.
Lemma segment_snoc l d n x : l !! (d + n)%nat = Some x -> segment l d (S n) = segment l d n ++ [x].
Proof. intros Hx. unfold segment. apply take_S_r. rewrite lookup_drop. exact Hx. Qed.
Lemma segment_app_l l1 l2 n : n = length l1 -> segment (l1 ++ l2) 0 n = l1.
Proof. intros ->. unfold segment. rewrite drop_0. apply take_app_length. Qed.

Lemma xor_words_snoc l1 l2 x y : length l1 = length l2 -> xor_words (l1 ++ [x]) (l2 ++ [y]) = xor_words l1 l2 ++ [Z.lxor x y].
Proof. intros Hl. unfold xor_words. rewrite zip_with_app by exact Hl. reflexivity. Qed.

Lemma cell_nat (l : words) (k : nat) z : z = Z.of_nat k -> cell l z = l !! k.
Proof. intros ->. unfold cell. rewrite (proj2 (Z.leb_le _ _)), Nat2Z.id by lia. reflexivity. Qed.

Lemma set_cell_at (pre l : words) x v z : z = Z.of_nat (length pre) -> set_cell (pre ++ x :: l) z v = Some (pre ++ v :: l).
Proof. intros ->. apply set_cell_middle. Qed.

(** The loops of [karatsuba_add2]: [t] from [d] on is added the cells of [s] from [e] on. *)
Lemma xor_loop (t s : words) (d e n : nat) :
  (d + n <= length t)%nat -> (e + n <= length s)%nat ->
  ofor (upto (Z.of_nat n)) (fun i t => x ← cell t (i + Z.of_nat d); y ← cell s (i + Z.of_nat e); set_cell t (i + Z.of_nat d) (Z.lxor x y)) t =
  Some (take d t ++ xor_words (segment t d n) (segment s e n) ++ drop (d + n) t).
Proof.
  intros Ht Hs. induction n as [|n IH].
  - change (Some t = Some (take d t ++ drop (d + 0) t)). rewrite Nat.add_0_r, take_drop. reflexivity.
  - rewrite Nat2Z.inj_succ, <- Z.add_1_r, upto_snoc, ofor_app, IH by lia. opt_simpl. cbn [ofor].
    destruct (lookup_lt_is_Some_2 t (d + n)) as [x Hx]; [lia|]. destruct (lookup_lt_is_Some_2 s (e + n)) as [y Hy]; [lia|].
    rewrite (drop_S t x (d + n) Hx), (cell_nat s (e + n)), Hy by lia.
    assert (Hlen : length (take d t ++ xor_words (segment t d n) (segment s e n)) = (d + n)%nat).
    { rewrite length_app, length_take, length_xor_words; rewrite !length_segment by lia; lia. }
    rewrite app_assoc. replace (Z.of_nat n + Z.of_nat d) with (Z.of_nat (length (take d t ++ xor_words (segment t d n) (segment s e n)))) by lia.
    rewrite cell_middle. opt_simpl. rewrite set_cell_middle. opt_simpl. f_equal.
    rewrite (segment_snoc t d n x Hx), (segment_snoc s e n y Hy), xor_words_snoc by (rewrite !length_segment; lia).
    rewrite <- !app_assoc. cbn [app]. do 3 f_equal. rewrite Nat.add_succ_r. reflexivity.
Qed.

(** The loop of [karatsuba_add1]. *)
Lemma add1_loop (alh blh a b : words) (d n : nat) :
  (n <= length alh)%nat -> (n <= length blh)%nat -> (d + n <= length a)%nat -> (d + n <= length b)%nat ->
  ofor (upto (Z.of_nat n)) (fun i '(alh, blh) =>
    ai ← cell a i; aj ← cell a (i + Z.of_nat d); alh ← set_cell alh i (Z.lxor ai aj);
    bi ← cell b i; bj ← cell b (i + Z.of_nat d); blh ← set_cell blh i (Z.lxor bi bj);
    Some (alh, blh)) (alh, blh) =
  Some (xor_words (segment a 0 n) (segment a d n) ++ drop n alh, xor_words (segment b 0 n) (segment b d n) ++ drop n blh).
Proof.
  intros H1 H2 H3 H4. induction n as [|n IH]; [reflexivity|].
  rewrite Nat2Z.inj_succ, <- Z.add_1_r, upto_snoc, ofor_app, IH by lia. opt_simpl. cbn [ofor].
  destruct (lookup_lt_is_Some_2 a n) as [ai Hai]; [lia|]. destruct (lookup_lt_is_Some_2 a (d + n)) as [aj Haj]; [lia|].
  destruct (lookup_lt_is_Some_2 b n) as [bi Hbi]; [lia|]. destruct (lookup_lt_is_Some_2 b (d + n)) as [bj Hbj]; [lia|].
  destruct (lookup_lt_is_Some_2 alh n) as [x Hx]; [lia|]. destruct (lookup_lt_is_Some_2 blh n) as [y Hy]; [lia|].
  rewrite (cell_nat a n (Z.of_nat n) eq_refl), Hai, (cell_nat a (d + n) (Z.of_nat n + Z.of_nat d)), Haj, (drop_S alh x n Hx) by lia. opt_simpl.
  assert (Hla : Z.of_nat n = Z.of_nat (length (xor_words (segment a 0 n) (segment a d n)))) by (rewrite length_xor_words; rewrite !length_segment by lia; lia).
  assert (Hlb : Z.of_nat n = Z.of_nat (length (xor_words (segment b 0 n) (segment b d n)))) by (rewrite length_xor_words; rewrite !length_segment by lia; lia).
  rewrite set_cell_at by exact Hla. opt_simpl.
  rewrite (cell_nat b n (Z.of_nat n) eq_refl), Hbi, (cell_nat b (d + n) (Z.of_nat n + Z.of_nat d)), Hbj, (drop_S blh y n Hy) by lia. opt_simpl.
  rewrite set_cell_at by exact Hlb. opt_simpl.
  rewrite (segment_snoc a 0 n ai Hai), (segment_snoc a d n aj Haj), (segment_snoc b 0 n bi Hbi), (segment_snoc b d n bj Hbj).
  rewrite !xor_words_snoc by (rewrite !length_segment; lia). rewrite <- !app_assoc. reflexivity.
Qed.

(** ** Karatsuba's scheme *)

(** Adding [s] to the cells of [t] from [d] on adds the shifted polynomial. *)
Lemma poly_add_at t s d : (d + length s <= length t)%nat ->
  poly (take d t ++ xor_words (segment t d (length s)) s ++ drop (d + length s) t) = Z.lxor (poly t) (Z.shiftl (poly s) (64 * Z.of_nat d)).
Proof.
  intros Hl. assert (Et : t = take d t ++ segment t d (length s) ++ drop (d + length s) t).
  { unfold segment. rewrite <- drop_drop, take_drop, take_drop. reflexivity. }
  assert (Hs : length (segment t d (length s)) = length s) by (apply length_segment, Hl).
  rewrite Et at 4. rewrite !poly_app, poly_xor, length_xor_words, length_take, Nat.min_l by lia.
  rewrite !Z.shiftl_lxor. lxor_solve.
Qed.

Lemma length_add_at (t s : words) d : (d + length s <= length t)%nat ->
  length (take d t ++ xor_words (segment t d (length s)) s ++ drop (d + length s) t) = length t.
Proof. intros Hl. rewrite !length_app, length_take, length_xor_words, !length_segment, length_drop by (rewrite ?length_segment by lia; lia). lia. Qed.
Lemma add_at_wf t s d : words_wf t -> words_wf s -> words_wf (take d t ++ xor_words (segment t d (length s)) s ++ drop (d + length s) t).
Proof.
  intros Ht Hs. apply Forall_app. split; [apply Forall_take, Ht|]. apply Forall_app. split; [|apply Forall_drop, Ht].
  apply xor_words_wf; [apply segment_wf, Ht|exact Hs].
Qed.
Lemma drop_add_at (t s : words) d m : (d + length s <= m)%nat -> (m <= length t)%nat ->
  drop m (take d t ++ xor_words (segment t d (length s)) s ++ drop (d + length s) t) = drop m t.
Proof.
  intros Hm Hl. rewrite app_assoc. rewrite drop_app_ge; rewrite length_app, length_take, length_xor_words, !length_segment by (rewrite ?length_segment by lia; lia); [|lia].
  rewrite drop_drop. f_equal. lia.
Qed.

Lemma add1_spec alh blh a b (l h : nat) :
  length alh = l -> length blh = l -> (h <= l <= h + 1)%nat -> (l + h <= length a)%nat -> (l + h <= length b)%nat -> words_wf a -> words_wf b ->
  exists alh' blh', karatsuba_add1 alh blh a b (Z.of_nat l) (Z.of_nat h) = Some (alh', blh') /\
    length alh' = l /\ length blh' = l /\ words_wf alh' /\ words_wf blh' /\
    poly alh' = Z.lxor (poly (segment a 0 l)) (poly (segment a l h)) /\
    poly blh' = Z.lxor (poly (segment b 0 l)) (poly (segment b l h)).
Proof.
  intros Hla Hlb Hlh Ha Hb Hwa Hwb. unfold karatsuba_add1. rewrite add1_loop by lia. opt_simpl.
  assert (Hsum : forall c, (l + h <= length c)%nat -> words_wf c -> length (xor_words (segment c 0 h) (segment c l h)) = h /\
    words_wf (xor_words (segment c 0 h) (segment c l h)) /\
    poly (xor_words (segment c 0 h) (segment c l h)) = Z.lxor (poly (segment c 0 h)) (poly (segment c l h))).
  { intros c Hc Hwc. rewrite length_xor_words, poly_xor by (rewrite !length_segment; lia). rewrite length_segment by lia.
    split_and!; [reflexivity|apply xor_words_wf; apply segment_wf, Hwc|reflexivity]. }
  destruct (Hsum a Ha Hwa) as (HA1 & HA2 & HA3), (Hsum b Hb Hwb) as (HB1 & HB2 & HB3).
  destruct (Z.ltb_spec (Z.of_nat h) (Z.of_nat l)) as [Hlt|Hge].
  - assert (l = S h) as -> by lia.
    destruct (lookup_lt_is_Some_2 a h) as [ai Hai]; [lia|]. destruct (lookup_lt_is_Some_2 b h) as [bi Hbi]; [lia|].
    assert (Hone : forall c : words, length c = S h -> exists x, drop h c = [x]).
    { intros c Hc. destruct (drop h c) as [|x [|]] eqn:E; apply (f_equal length) in E; rewrite length_drop in E; cbn in E; try lia. eauto. }
    destruct (Hone alh Hla) as [x Hx], (Hone blh Hlb) as [y Hy].
    rewrite (cell_nat a h), Hai by reflexivity. opt_simpl. rewrite Hx, set_cell_at by lia. opt_simpl.
    rewrite (cell_nat b h), Hbi by reflexivity. opt_simpl. rewrite Hy, set_cell_at by lia. opt_simpl.
    eexists _, _. split; [reflexivity|]. rewrite !length_app, HA1, HB1, !poly_app, HA1, HB1, HA3, HB3.
    assert (Hw1 : forall (c : words) k z, words_wf c -> c !! k = Some z -> words_wf [z]).
    { intros c k z Hc Hk. constructor; [exact (proj1 (list.Forall_lookup _ _) Hc k z Hk)|constructor]. }
    rewrite (segment_snoc a 0 h ai Hai), (segment_snoc b 0 h bi Hbi), !poly_app, !length_segment by lia.
    split_and!; [cbn; lia|cbn; lia|apply Forall_app; split; [exact HA2|exact (Hw1 a h ai Hwa Hai)]
      |apply Forall_app; split; [exact HB2|exact (Hw1 b h bi Hwb Hbi)]|lxor_solve|lxor_solve].
  - assert (l = h) as -> by lia. eexists _, _. split; [reflexivity|].
    rewrite !drop_ge, !app_nil_r by lia. split_and!; assumption.
Qed.

Lemma add2_spec o tmp1 (l h : nat) :
  length tmp1 = (2 * l)%nat -> (h <= l)%nat -> (l <= 2 * h)%nat -> (2 * l + 2 * h <= length o)%nat -> words_wf o -> words_wf tmp1 ->
  exists o' tmp1', karatsuba_add2 o tmp1 (2 * Z.of_nat l) (Z.of_nat l) (Z.of_nat h) = Some (o', tmp1') /\
    length tmp1' = (2 * l)%nat /\ words_wf tmp1' /\ length o' = length o /\ words_wf o' /\
    drop (2 * l + 2 * h) o' = drop (2 * l + 2 * h) o /\
    poly o' = Z.lxor (poly o) (Z.shiftl (Z.lxor (Z.lxor (poly tmp1) (poly (segment o 0 (2 * l)))) (poly (segment o (2 * l) (2 * h)))) (64 * Z.of_nat l)).
Proof.
  intros Ht Hhl Hlh Ho Hwo Hwt. unfold karatsuba_add2. pose proof (length_segment o 0 (2 * l) ltac:(lia)) as Hs0.
  pose proof (length_segment o (2 * l) (2 * h) ltac:(lia)) as Hs1.
  replace (2 * Z.of_nat l) with (Z.of_nat (2 * l)) by lia. replace (2 * Z.of_nat h) with (Z.of_nat (2 * h)) by lia.
  change 0 with (Z.of_nat 0). rewrite xor_loop by lia. opt_simpl.
  assert (Hl1 := length_add_at tmp1 (segment o 0 (2 * l)) 0 ltac:(lia)). assert (Hw1 := add_at_wf tmp1 (segment o 0 (2 * l)) 0 Hwt (segment_wf _ _ _ Hwo)).
  assert (Hp1 := poly_add_at tmp1 (segment o 0 (2 * l)) 0 ltac:(lia)). rewrite Hs0 in Hl1, Hw1, Hp1.
  revert Hl1 Hw1 Hp1. generalize (take 0 tmp1 ++ xor_words (segment tmp1 0 (2 * l)) (segment o 0 (2 * l)) ++ drop (0 + 2 * l) tmp1). intros t1 Hl1 Hw1 Hp1.
  rewrite xor_loop by lia. opt_simpl.
  assert (Hl2 := length_add_at t1 (segment o (2 * l) (2 * h)) 0 ltac:(lia)). assert (Hw2 := add_at_wf t1 (segment o (2 * l) (2 * h)) 0 Hw1 (segment_wf _ _ _ Hwo)).
  assert (Hp2 := poly_add_at t1 (segment o (2 * l) (2 * h)) 0 ltac:(lia)). rewrite Hs1 in Hl2, Hw2, Hp2.
  revert Hl2 Hw2 Hp2. generalize (take 0 t1 ++ xor_words (segment t1 0 (2 * h)) (segment o (2 * l) (2 * h)) ++ drop (0 + 2 * h) t1). intros t2 Hl2 Hw2 Hp2.
  rewrite xor_loop by lia. opt_simpl. assert (El : (2 * l)%nat = length t2) by lia.
  assert (Eseg : segment t2 0 (2 * l) = t2) by (unfold segment; rewrite drop_0, take_ge by lia; reflexivity). rewrite Eseg.
  eexists _, _. split; [reflexivity|]. rewrite El. split; [reflexivity|]. split; [exact Hw2|].
  split; [apply length_add_at; lia|]. split; [apply add_at_wf; assumption|]. split; [apply drop_add_at; lia|].
  rewrite poly_add_at, Hp2, Hp1 by lia. rewrite <- El. cbn [Z.of_nat]. rewrite Z.mul_0_r, !Z.shiftl_0_r. reflexivity.
Qed.

Lemma split_spec (l : words) (n : nat) z : z = Z.of_nat n -> (n <= length l)%nat -> split l z = Some (take n l, drop n l).
Proof.
  intros -> Hl. unfold split. rewrite Nat2Z.id. destruct (Z.leb_spec 0 (Z.of_nat n)), (Z.leb_spec (Z.of_nat n) (Z.of_nat (length l))); reflexivity || lia.
Qed.

Lemma segment_split l d n m : (d + n + m <= length l)%nat -> segment l d (n + m) = segment l d n ++ segment l (d + n) m.
Proof. intros Hl. unfold segment. rewrite <- drop_drop, take_take_drop. reflexivity. Qed.
Lemma segment_take l d n m : (d + n <= m)%nat -> segment (take m l) d n = segment l d n.
Proof. intros Hm. unfold segment. rewrite skipn_firstn_comm, firstn_firstn. f_equal. lia. Qed.
Lemma segment_drop l d n m : segment (drop m l) d n = segment l (m + d) n.
Proof. unfold segment. rewrite drop_drop. reflexivity. Qed.

(** The identity behind the scheme. *)
Lemma karatsuba_identity al ah bl bh k :
  0 <= al -> 0 <= ah -> 0 <= bl -> 0 <= bh -> 0 <= k ->
  Z.lxor (Z.lxor (clmul al bl) (Z.shiftl (clmul ah bh) (2 * k)))
    (Z.shiftl (Z.lxor (Z.lxor (clmul (Z.lxor al ah) (Z.lxor bl bh)) (clmul al bl)) (clmul ah bh)) k) =
  clmul (Z.lxor al (Z.shiftl ah k)) (Z.lxor bl (Z.shiftl bh k)).
Proof.
  intros Ha1 Ha2 Hb1 Hb2 Hk. rewrite !clmul_lxor_l, !clmul_lxor_r, !clmul_shiftl_l, !clmul_shiftl_r by (try apply Z.shiftl_nonneg; assumption).
  rewrite !Z.shiftl_lxor, !Z.shiftl_shiftl by lia. replace (k + k) with (2 * k) by lia. lxor_solve.
Qed.

(** What a call leaves: [2 * n] cells of [o] hold the product, the rest is untouched, and
    the stack has its length. *)
Definition multiplied (o a b stack : words) (n : nat) (r : words * words) : Prop :=
  length (fst r) = length o /\ words_wf (fst r) /\ drop (2 * n) (fst r) = drop (2 * n) o /\
  poly (segment (fst r) 0 (2 * n)) = clmul (poly (segment a 0 n)) (poly (segment b 0 n)) /\
  length (snd r) = length stack /\ words_wf (snd r).

Lemma karatsuba_base fuel o a b stack : (2 <= length o)%nat -> (1 <= length a)%nat -> (1 <= length b)%nat ->
  words_wf o -> words_wf a -> words_wf b -> words_wf stack ->
  exists r, karatsuba (S fuel) o a b 1 stack = Some r /\ multiplied o a b stack 1 r.
Proof.
  intros Ho Ha Hb Hwo Hwa Hwb Hws. destruct o as [|o0 [|o1 o]], a as [|x a], b as [|y b]; cbn in Ho, Ha, Hb; try lia.
  inversion_clear Hwo as [|? ? _ Hwo']. inversion_clear Hwo' as [|? ? _ Hwo]. inversion_clear Hwa as [|? ? Hx _]. inversion_clear Hwb as [|? ? Hy _].
  cbn [karatsuba]. change (1 =? 1) with true. cbv iota. change (cell (x :: a) 0) with (Some x). change (cell (y :: b) 0) with (Some y).
  opt_simpl. pose proof (base_mul_spec x y Hx Hy) as Hm. destruct (base_mul x y) as [l h]. destruct Hm as (Hl & Hh & Hm).
  cbv iota. rewrite set_cell_0. opt_simpl. rewrite set_cell_1. opt_simpl. eexists. split; [reflexivity|]. unfold multiplied. cbn [fst snd].
  split_and!; [reflexivity|repeat (constructor; [assumption|]); exact Hwo|reflexivity| |reflexivity|exact Hws].
  unfold segment. rewrite !drop_0. cbn [Nat.mul Nat.add take pack]. rewrite Z.shiftl_0_l, !Z.lxor_0_r. exact Hm.
Qed.

(** Putting the three products together. *)
Lemma karatsuba_combine o o1 t2 a b tmp1 (l h n : nat) :
  n = (l + h)%nat -> (h <= l)%nat -> (l <= 2 * h)%nat -> (2 * n <= length o)%nat -> (n <= length a)%nat -> (n <= length b)%nat ->
  words_wf a -> words_wf b ->
  length o1 = length o -> words_wf o1 -> drop (2 * l) o1 = drop (2 * l) o ->
  poly (segment o1 0 (2 * l)) = clmul (poly (segment a 0 l)) (poly (segment b 0 l)) ->
  length t2 = length (drop (2 * l) o1) -> words_wf t2 -> drop (2 * h) t2 = drop (2 * h) (drop (2 * l) o1) ->
  poly (segment t2 0 (2 * h)) = clmul (poly (segment a l h)) (poly (segment b l h)) ->
  length tmp1 = (2 * l)%nat -> words_wf tmp1 ->
  poly tmp1 = clmul (Z.lxor (poly (segment a 0 l)) (poly (segment a l h))) (Z.lxor (poly (segment b 0 l)) (poly (segment b l h))) ->
  exists o' tmp1', karatsuba_add2 (take (2 * l) o1 ++ t2) tmp1 (2 * Z.of_nat l) (Z.of_nat l) (Z.of_nat h) = Some (o', tmp1') /\
    length tmp1' = (2 * l)%nat /\ words_wf tmp1' /\ length o' = length o /\ words_wf o' /\ drop (2 * n) o' = drop (2 * n) o /\
    poly (segment o' 0 (2 * n)) = clmul (poly (segment a 0 n)) (poly (segment b 0 n)).
Proof.
  intros -> Hhl Hlh Ho Ha Hb Hwa Hwb Hl1 Hw1 Hd1 Hp1 Hl2 Hw2 Hd2 Hp2 Hlt Hwt Hpt.
  rewrite length_drop in Hl2. set (o2 := take (2 * l) o1 ++ t2).
  assert (Hlo : length (take (2 * l) o1) = (2 * l)%nat) by (rewrite length_take; lia).
  assert (Hl : length o2 = length o) by (unfold o2; rewrite length_app, Hlo; lia).
  assert (Hw : words_wf o2) by (apply Forall_app; split; [apply Forall_take, Hw1|exact Hw2]).
  assert (E0 : segment o2 0 (2 * l) = segment o1 0 (2 * l)) by (apply segment_app_l; symmetry; exact Hlo).
  assert (E1 : segment o2 (2 * l) (2 * h) = segment t2 0 (2 * h)).
  { unfold segment, o2. rewrite drop_app_length' by (symmetry; exact Hlo). rewrite drop_0. reflexivity. }
  assert (Edrop : drop (2 * (l + h)) o2 = drop (2 * (l + h)) o).
  { unfold o2. rewrite drop_app_ge, Hlo by lia. replace (2 * (l + h) - 2 * l)%nat with (2 * h)%nat by lia.
    rewrite Hd2, Hd1, drop_drop. f_equal. lia. }
  destruct (add2_spec o2 tmp1 l h Hlt Hhl Hlh ltac:(lia) Hw Hwt) as (o' & tmp1' & Hrun & Hlt' & Hwt' & Hlo' & Hwo' & Hdr & Hpoly).
  exists o', tmp1'. split; [exact Hrun|]. split; [exact Hlt'|]. split; [exact Hwt'|]. split; [lia|]. split; [exact Hwo'|].
  replace (2 * l + 2 * h)%nat with (2 * (l + h))%nat in Hdr by lia. split; [congruence|].
  (* the polynomial of the first cells *)
  assert (Hcut : forall o, (2 * (l + h) <= length o)%nat ->
    poly o = Z.lxor (poly (segment o 0 (2 * (l + h)))) (Z.shiftl (poly (drop (2 * (l + h)) o)) (64 * Z.of_nat (2 * (l + h))))).
  { intros c Hc. rewrite <- (take_drop (2 * (l + h)) c) at 1. rewrite poly_app, length_take, Nat.min_l by lia. reflexivity. }
  rewrite (Hcut o') in Hpoly by lia. rewrite (Hcut o2), Hdr in Hpoly by lia.
  assert (Hseg : poly (segment o' 0 (2 * (l + h))) = Z.lxor (poly (segment o2 0 (2 * (l + h))))
    (Z.shiftl (Z.lxor (Z.lxor (poly tmp1) (poly (segment o2 0 (2 * l)))) (poly (segment o2 (2 * l) (2 * h)))) (64 * Z.of_nat l))).
  { set (A := poly (segment o' 0 (2 * (l + h)))) in *.
    set (D := Z.shiftl (poly (drop (2 * (l + h)) o2)) (64 * Z.of_nat (2 * (l + h)))) in *.
    replace A with (Z.lxor (Z.lxor A D) D) by lxor_solve. rewrite Hpoly. lxor_solve. }
  rewrite Hseg. replace (2 * (l + h))%nat with (2 * l + 2 * h)%nat by lia.
  rewrite segment_split, poly_app, length_segment by lia. cbn [Nat.add]. rewrite E0, E1, Hp1, Hp2, Hpt.
  rewrite (segment_split a 0 l h), (segment_split b 0 l h), !poly_app, !length_segment by lia. cbn [Nat.add].
  replace (64 * Z.of_nat (2 * l)) with (2 * (64 * Z.of_nat l)) by lia.
  apply karatsuba_identity; try (apply poly_nonneg, segment_wf; assumption). lia.
Qed.

Lemma karatsuba_spec fuel : forall n o a b stack, (1 <= n <= fuel)%nat ->
  (2 * n <= length o)%nat -> (n <= length a)%nat -> (n <= length b)%nat -> (8 * (n - 1) <= length stack)%nat ->
  words_wf o -> words_wf a -> words_wf b -> words_wf stack ->
  exists r, karatsuba fuel o a b (Z.of_nat n) stack = Some r /\ multiplied o a b stack n r.
Proof.
  induction fuel as [|fuel IH]; intros n o a b stack Hn Ho Ha Hb Hs Hwo Hwa Hwb Hws; [lia|].
  destruct (Nat.eq_dec n 1%nat) as [->|Hne]; [apply karatsuba_base; auto; lia|].
  cbn [karatsuba]. destruct (Z.eqb_spec (Z.of_nat n) 1); [lia|]. cbv zeta.
  set (h := (n / 2)%nat). set (l := ((n + 1) / 2)%nat).
  assert (Ehl : n = (l + h)%nat /\ (h <= l <= h + 1)%nat /\ (l <= 2 * h)%nat).
  { unfold l, h. pose proof (Nat.div_mod_eq n 2). pose proof (Nat.div_mod_eq (n + 1) 2).
    pose proof (Nat.mod_upper_bound n 2). pose proof (Nat.mod_upper_bound (n + 1) 2). lia. }
  assert (Ezh : Z.of_nat n / 2 = Z.of_nat h) by (unfold h; rewrite Nat2Z.inj_div; reflexivity).
  assert (Ezl : (Z.of_nat n + 1) / 2 = Z.of_nat l) by (unfold l; rewrite Nat2Z.inj_div, Nat2Z.inj_add; reflexivity).
  rewrite Ezh, Ezl. clearbody h l. clear Ezh Ezl. destruct Ehl as (En & Hhl & Hlh).
  rewrite (split_spec stack l) by lia. opt_simpl.
  rewrite (split_spec (drop l stack) l) by (rewrite ?length_drop; lia). opt_simpl.
  rewrite (split_spec (drop l (drop l stack)) (2 * l)) by (rewrite ?length_drop; lia). opt_simpl.
  rewrite (split_spec a l), (split_spec b l) by lia. opt_simpl.
  set (alh := take l stack). set (blh := take l (drop l stack)). set (tmp1 := take (2 * l) (drop l (drop l stack))).
  set (rest := drop (2 * l) (drop l (drop l stack))).
  assert (Hwr : words_wf rest) by (unfold rest; rewrite !drop_drop; apply Forall_drop, Hws).
  assert (Hlr : length rest = (length stack - 4 * l)%nat) by (unfold rest; rewrite !length_drop; lia).
  destruct (IH l o a b rest) as ([o1 rest1] & Hrun1 & Hl1 & Hw1 & Hd1 & Hp1 & Hlr1 & Hwr1); [lia..|assumption|assumption|assumption|assumption|].
  cbn [fst snd] in *. rewrite Hrun1. opt_simpl. rewrite (split_spec o1 (2 * l)) by lia. opt_simpl.
  destruct (IH h (drop (2 * l) o1) (drop l a) (drop l b) rest1) as ([t2 rest2] & Hrun2 & Hl2 & Hw2 & Hd2 & Hp2 & Hlr2 & Hwr2);
    [rewrite ?length_drop; lia..|apply Forall_drop; assumption|apply Forall_drop; assumption|apply Forall_drop; assumption|assumption|].
  cbn [fst snd] in *. rewrite !segment_drop, !Nat.add_0_r in Hp2. rewrite Hrun2. opt_simpl.
  destruct (add1_spec alh blh a b l h) as (alh' & blh' & Hrun3 & Hla & Hlb & Hwa' & Hwb' & Hpa & Hpb);
    [unfold alh; rewrite length_take; lia|unfold blh; rewrite length_take, length_drop; lia|lia|lia|lia|assumption|assumption|].
  rewrite Hrun3. opt_simpl.
  destruct (IH l tmp1 alh' blh' rest2) as ([tmp1' rest3] & Hrun4 & Hl4 & Hw4 & _ & Hp4 & Hlr4 & Hwr4);
    [unfold tmp1; rewrite ?length_take, ?length_drop; lia..|unfold tmp1; rewrite !drop_drop; apply Forall_take, Forall_drop, Hws|assumption|assumption|assumption|].
  cbn [fst snd] in *. assert (Hlt : length tmp1' = (2 * l)%nat) by (rewrite Hl4; unfold tmp1; rewrite length_take, !length_drop; lia).
  assert (Hall : forall (c : words) m, length c = m -> segment c 0 m = c) by (intros c m <-; unfold segment; rewrite drop_0; apply firstn_all).
  rewrite (Hall tmp1' _ Hlt), (Hall alh' _ Hla), (Hall blh' _ Hlb), Hpa, Hpb in Hp4. rewrite Hrun4. opt_simpl.
  destruct (karatsuba_combine o o1 t2 a b tmp1' l h n En ltac:(lia) Hlh Ho Ha Hb Hwa Hwb Hl1 Hw1 Hd1 Hp1 Hl2 Hw2 Hd2 Hp2 Hlt Hw4 Hp4)
    as (o' & tmp1'' & Hrun5 & Hlt' & Hwt' & Hlo' & Hwo' & Hdo' & Hpo').
  rewrite Hrun5. opt_simpl. eexists. split; [reflexivity|]. unfold multiplied. cbn [fst snd]. split_and!; try assumption.
  - rewrite !length_app. lia.
  - unfold words_wf. rewrite !Forall_app. split_and!; assumption.
Qed.

(** ** The reduction *)

Lemma poly_testbit l n : words_wf l -> 0 <= n -> Z.testbit (poly l) n = Z.testbit (default 0 (l !! Z.to_nat (n / 64))) (n mod 64).
Proof. apply pack_testbit. lia. Qed.

(** The cell [i] that the loop of [reduce] writes. *)
Definition reduced_cell (a : words) (i : Z) : Z :=
  let at_ k := default 0 (a !! Z.to_nat k) in
  Z.lxor (Z.lxor (at_ i) (Z.shiftr (at_ (i + 276)) 5)) (u64 (Z.shiftl (at_ (i + 277)) 59)).

Lemma reduced_cell_testbit a i j : words_wf a -> 0 <= i -> 0 <= j < 64 ->
  Z.testbit (reduced_cell a i) j = xorb (Z.testbit (poly a) (64 * i + j)) (Z.testbit (poly a) (64 * i + j + 17669)).
Proof.
  intros Ha Hi Hj. unfold reduced_cell, u64. rewrite !Z.lxor_spec, Z.shiftr_spec, Z.mod_pow2_bits_low by lia.
  rewrite !poly_testbit by (assumption || lia).
  replace (64 * i + j) with (j + i * 64) by lia. rewrite Z.div_add, Z.mod_add, Z.div_small, Z.mod_small by lia. rewrite Z.add_0_l, xorb_assoc. f_equal.
  assert (Hw : forall k, in_width 64 (default 0 (a !! k))).
  { intros k. destruct (a !! k) as [w|] eqn:E; [exact (proj1 (list.Forall_lookup _ _) Ha k w E)|apply width_0; lia]. }
  destruct (Z.ltb_spec (j + 5) 64).
  - rewrite Z.shiftl_spec_low by lia. rewrite xorb_false_r. replace (j + i * 64 + 17669) with (j + 5 + (i + 276) * 64) by lia.
    rewrite Z.div_add, Z.mod_add, Z.div_small, Z.mod_small by lia. reflexivity.
  - replace (j + i * 64 + 17669) with (j - 59 + (i + 277) * 64) by lia.
    rewrite Z.div_add, Z.mod_add, Z.div_small, Z.mod_small, Z.shiftl_spec by lia. rewrite Z.add_0_l.
    rewrite <- (Z.mod_small (default 0 (a !! Z.to_nat (i + 276))) (2 ^ 64)) by apply Hw.
    rewrite Z.mod_pow2_bits_high by lia. reflexivity.
Qed.

(** The loop writes the cells one after the other. *)
Lemma reduce_loop (o a : words) (n : nat) : (n <= 277)%nat -> length o = 277%nat -> length a = 555%nat ->
  ofor (upto (Z.of_nat n)) (fun i o =>
    x ← cell a (i + VEC_N_SIZE_64 - 1);
    let r := Z.shiftr x (Z.land PARAM_N 0x3F) in
    y ← cell a (i + VEC_N_SIZE_64);
    let carry := u64 (Z.shiftl y (64 - Z.land PARAM_N 0x3F)) in
    z ← cell a i;
    set_cell o i (Z.lxor (Z.lxor z r) carry)) o =
  Some ((reduced_cell a <$> upto (Z.of_nat n)) ++ drop n o).
Proof.
  intros Hn Ho Ha. induction n as [|n IH]; [reflexivity|].
  rewrite Nat2Z.inj_succ, <- Z.add_1_r, upto_snoc, ofor_app, IH by lia. opt_simpl. cbn [ofor].
  destruct (lookup_lt_is_Some_2 a (n + 276)) as [x Hx]; [lia|]. destruct (lookup_lt_is_Some_2 a (n + 277)) as [y Hy]; [lia|].
  destruct (lookup_lt_is_Some_2 a n) as [z Hz]; [lia|]. destruct (lookup_lt_is_Some_2 o n) as [w Hw]; [lia|].
  change VEC_N_SIZE_64 with 277. change (Z.land PARAM_N 0x3F) with 5. change (64 - 5) with 59.
  rewrite (cell_nat a (n + 276) (Z.of_nat n + 277 - 1)), Hx, (cell_nat a (n + 277) (Z.of_nat n + 277)), Hy, (cell_nat a n (Z.of_nat n)), Hz by lia. opt_simpl.
  rewrite (drop_S o w n Hw), set_cell_at by (rewrite length_fmap, length_upto; lia). opt_simpl.
  rewrite fmap_app, <- app_assoc. cbn [fmap list_fmap app]. f_equal. do 2 f_equal. unfold reduced_cell.
  rewrite !Nat2Z.id. replace (Z.to_nat (Z.of_nat n + 276)) with (n + 276)%nat by lia. replace (Z.to_nat (Z.of_nat n + 277)) with (n + 277)%nat by lia.
  rewrite Hx, Hy, Hz. reflexivity.
Qed.

Lemma reduced_cell_width a i : words_wf a -> in_width 64 (reduced_cell a i).
Proof.
  intros Ha. assert (Hw : forall k, in_width 64 (default 0 (a !! k))).
  { intros k. destruct (a !! k) as [w|] eqn:E; [exact (proj1 (list.Forall_lookup _ _) Ha k w E)|apply width_0; lia]. }
  unfold reduced_cell. apply width_lxor; [lia| |apply in_width_mod; lia]. apply width_lxor; [lia|apply Hw|].
  apply width_shiftr; [lia|lia|]. apply (width_mono 64); [lia|apply Hw].
Qed.

Lemma reduce_eq o a : length o = 277%nat -> length a = 555%nat ->
  reduce o a = Some ((reduced_cell a <$> upto 276) ++ [Z.land (reduced_cell a 276) RED_MASK]).
Proof.
  intros Ho Ha. unfold reduce. change (upto VEC_N_SIZE_64) with (upto (Z.of_nat 277)). rewrite reduce_loop by lia. opt_simpl.
  rewrite (drop_ge o), app_nil_r by lia. change (upto (Z.of_nat 277)) with (upto (276 + 1)). rewrite upto_snoc, fmap_app by lia.
  cbn [fmap list_fmap]. set (pre := reduced_cell a <$> upto 276).
  replace (VEC_N_SIZE_64 - 1) with (Z.of_nat (length pre)) by (unfold pre; rewrite length_fmap, length_upto; reflexivity).
  rewrite cell_middle. opt_simpl. apply set_cell_middle.
Qed.

Lemma reduce_spec o a : length o = 277%nat -> length a = 555%nat -> words_wf a -> exists o', reduce o a = Some o' /\
  length o' = 277%nat /\ words_wf o' /\ poly o' = Z.lxor (poly a mod 2 ^ 17669) (Z.shiftr (poly a) 17669 mod 2 ^ 17669).
Proof.
  intros Ho Ha Hw. rewrite reduce_eq by assumption. eexists. split; [reflexivity|]. set (pre := reduced_cell a <$> upto 276).
  assert (Hl : length pre = 276%nat) by (unfold pre; rewrite length_fmap, length_upto; reflexivity).
  change RED_MASK with (Z.ones 5). rewrite Z.land_ones by lia.
  assert (Hwf : words_wf (pre ++ [reduced_cell a 276 mod 2 ^ 5])).
  { apply Forall_app. split; [apply list.Forall_fmap, list.Forall_true; intros i; apply reduced_cell_width, Hw|].
    constructor; [|constructor]. apply (width_mono 5); [lia|]. apply in_width_mod. lia. }
  split; [rewrite length_app, Hl; reflexivity|]. split; [exact Hwf|]. apply Z.bits_inj'. intros n Hn.
  rewrite Z.lxor_spec, poly_testbit by (assumption || lia).
  assert (Hcell : Z.testbit (reduced_cell a (n / 64)) (n mod 64) = xorb (Z.testbit (poly a) n) (Z.testbit (poly a) (n + 17669))).
  { rewrite reduced_cell_testbit by (try apply Z.mod_pos_bound; try apply Z.div_pos; assumption || lia). rewrite <- Z.div_mod by lia. reflexivity. }
  pose proof (Z.div_mod n 64 ltac:(lia)) as Edm. pose proof (Z.mod_pos_bound n 64 ltac:(lia)) as Hm.
  destruct (Z.ltb_spec n 17669) as [Hlt|Hge].
  - rewrite !Z.mod_pow2_bits_low, Z.shiftr_spec, <- Hcell by lia. destruct (Z.ltb_spec (n / 64) 276).
    + rewrite lookup_app_l by lia. unfold pre. rewrite list_lookup_fmap, upto_lookup by lia. reflexivity.
    + assert (n / 64 = 276) as -> by lia. rewrite lookup_app_r, Hl by lia. change (Z.to_nat 276 - 276)%nat with 0%nat. cbn [lookup list_lookup default].
      apply Z.mod_pow2_bits_low. lia.
  - rewrite !Z.mod_pow2_bits_high by lia. cbn [xorb]. rewrite lookup_app_r, Hl by lia. destruct (Z.ltb_spec (n / 64) 277).
    + assert (n / 64 = 276) as -> by lia. change (Z.to_nat 276 - 276)%nat with 0%nat. cbn [lookup list_lookup default]. apply Z.mod_pow2_bits_high. lia.
    + destruct (Z.to_nat (n / 64) - 276)%nat as [|k] eqn:Ek; [lia|]. cbn. apply Z.testbit_0_l.
Qed.

(** ** The product *)

(** The modulus [X^17669 - 1]. *)
Definition modulus : Z := Z.lxor (2 ^ PARAM_N) 1.

(** An array of 277 words with no bit beyond the coefficients. *)
Definition is_vector (l : words) : Prop := length l = 277%nat /\ words_wf l /\ in_width PARAM_N (poly l).

Lemma clmul_modulus q : 0 <= q -> clmul q modulus = Z.lxor (Z.shiftl q PARAM_N) q.
Proof.
  intros Hq. unfold modulus. rewrite clmul_lxor_r by lia. f_equal.
  - replace (2 ^ PARAM_N) with (Z.shiftl 1 PARAM_N) by (rewrite Z.shiftl_mul_pow2; [lia|apply Z.leb_le; reflexivity]).
    rewrite clmul_shiftl_r, clmul_comm, clmul_1_l by (assumption || lia || (apply Z.leb_le; reflexivity)). reflexivity.
  - rewrite clmul_comm, clmul_1_l by lia. reflexivity.
Qed.

Lemma poly_segment_all l : poly (segment l 0 (length l)) = poly l.
Proof. unfold segment. rewrite drop_0, firstn_all. reflexivity. Qed.

(** Adding the two halves is the remainder by [X^n - 1]. *)
Lemma fold_remainder p : 0 <= p -> Z.shiftr p PARAM_N < 2 ^ PARAM_N ->
  remainder modulus PARAM_N p (Z.lxor (p mod 2 ^ PARAM_N) (Z.shiftr p PARAM_N)).
Proof.
  intros Hp Hlt. assert (Hn : 0 <= PARAM_N) by (apply Z.leb_le; reflexivity). pose proof (Z.shiftr_nonneg p PARAM_N) as Hs. split.
  - apply width_lxor; [exact Hn|apply in_width_mod, Hn|unfold in_width; lia].
  - exists (Z.shiftr p PARAM_N). split; [lia|]. rewrite clmul_modulus by lia. rewrite (split_low_high p PARAM_N) at 1 by exact Hn. lxor_solve.
Qed.

Lemma vect_mul_run o a1 a2 : length o = 277%nat -> length a1 = 277%nat -> length a2 = 277%nat -> words_wf a1 -> words_wf a2 ->
  exists o', vect_mul o a1 a2 = Some o' /\ length o' = 277%nat /\ words_wf o' /\
    poly o' = Z.lxor (clmul (poly a1) (poly a2) mod 2 ^ PARAM_N) (Z.shiftr (clmul (poly a1) (poly a2)) PARAM_N mod 2 ^ PARAM_N).
Proof.
  intros Ho H1 H2 Hw1 Hw2. unfold vect_mul. cbv zeta. change (Z.to_nat VEC_N_SIZE_64) with 277%nat. change VEC_N_SIZE_64 with (Z.of_nat 277) at 2.
  set (o_karat := zeros (Z.shiftl VEC_N_SIZE_64 1 + 1)). set (stack := zeros (Z.shiftl VEC_N_SIZE_64 3)).
  assert (Hlk : length o_karat = 555%nat) by apply length_zeros. assert (Hls : length stack = 2216%nat) by apply length_zeros.
  assert (Hz : forall n, words_wf (zeros n)) by (intros n; apply Forall_replicate, width_0; lia).
  destruct (karatsuba_spec 277 277 o_karat a1 a2 stack) as ([p stack'] & -> & Hl & Hwp & Hd & Hp & _);
    [lia|lia|lia|lia|lia|apply Hz|assumption|assumption|apply Hz|]. cbn [fst snd] in *. opt_simpl.
  destruct (reduce_spec o p Ho ltac:(lia) Hwp) as (o' & -> & Hlo & Hwo & Hpo). exists o'. split_and!; [reflexivity|assumption|assumption|].
  change 17669 with PARAM_N in Hpo. rewrite Hpo. clear Hpo. enough (poly p = clmul (poly a1) (poly a2)) as -> by reflexivity.
  rewrite <- (take_drop (2 * 277) p), poly_app, Hd. change (take (2 * 277) p) with (segment p 0 (2 * 277)). rewrite Hp.
  replace (segment a1 0 277) with a1 by (unfold segment; rewrite drop_0, take_ge by lia; reflexivity).
  replace (segment a2 0 277) with a2 by (unfold segment; rewrite drop_0, take_ge by lia; reflexivity).
  unfold o_karat, zeros. rewrite drop_replicate, poly_zeros, Z.shiftl_0_l. apply Z.lxor_0_r.
Qed.

(** C33. [vect_mul] multiplies modulo X^n - 1: on arrays of 277 words with no bit beyond
    the n coefficients, the recursion ends, no access leaves an array or the stack, and
    what it writes into [o] is the remainder of the product of the two polynomials by
    X^17669 - 1, again with no bit beyond the coefficients. *)
Theorem vect_mul_spec o a1 a2 : length o = 277%nat -> is_vector a1 -> is_vector a2 ->
  exists o', vect_mul o a1 a2 = Some o' /\ is_vector o' /\ remainder modulus PARAM_N (clmul (poly a1) (poly a2)) (poly o').
Proof.
  intros Ho (H1 & Hw1 & Hn1) (H2 & Hw2 & Hn2). assert (Hn : 0 <= PARAM_N) by (apply Z.leb_le; reflexivity).
  destruct (vect_mul_run o a1 a2 Ho H1 H2 Hw1 Hw2) as (o' & E & Hl & Hw & Hp). exists o'. split; [exact E|].
  pose proof (clmul_nonneg _ _ (poly_nonneg a1 Hw1) (poly_nonneg a2 Hw2)) as Hpos.
  assert (Hlt : in_width PARAM_N (Z.shiftr (clmul (poly a1) (poly a2)) PARAM_N)).
  { apply width_shiftr; [exact Hn|exact Hn|]. apply clmul_width; [exact Hn|exact Hn| |exact Hn2]. apply (width_mono PARAM_N); [lia|exact Hn1]. }
  rewrite (Z.mod_small (Z.shiftr _ _)) in Hp by exact Hlt.
  assert (Hr : remainder modulus PARAM_N (clmul (poly a1) (poly a2)) (poly o')) by (rewrite Hp; apply fold_remainder; [exact Hpos|apply Hlt]).
  split; [|exact Hr]. split_and!; [exact Hl|exact Hw|apply Hr].
Qed.

Lemma vect_mul_spec_witness : is_vector (zeros 277) /\
  exists o', vect_mul (zeros 277) (zeros 277) (zeros 277) = Some o' /\ is_vector o' /\
    remainder modulus PARAM_N (clmul (poly (zeros 277)) (poly (zeros 277))) (poly o').
Proof.
  assert (H : is_vector (zeros 277)).
  { split; [apply length_zeros|]. split; [apply Forall_replicate, width_0; lia|]. unfold zeros. rewrite poly_zeros. apply width_0. apply Z.leb_le. reflexivity. }
  split; [exact H|]. apply (vect_mul_spec (zeros 277)); [apply length_zeros|exact H|exact H].
Defined.
