(* ===== verification/Platform.v ===== *)
(** * The platform and the effects of the firmware

    What the program takes from Contiki-NG and the board (the tick rate and the
    width of [clock_time_t], the type of IPv6 addresses) is the class [Platform];
    what it observes and emits while it runs (clock readings, UDP datagrams,
    serial lines) is the ambient environment [env].  [M S A] is a C function that
    works on an object of type [S], returns an [A], may read the clock and emit
    output, and may run into undefined behaviour (an access outside an array). *)

From S2P Require Import Prelude.

(** [clock_time_t] is an unsigned type of [clock_bits] bits that ticks
    [CLOCK_SECOND] times a second; [uip_ipaddr_t] is an opaque address type with
    the all-zero value [memset] produces, a comparison and a printed form. *)
Class Platform := {
  CLOCK_SECOND : Z;
  clock_bits : Z;
  uip_ipaddr_t : Type;
  uip_ipaddr_zero : uip_ipaddr_t;
  uip_ipaddr_cmp : uip_ipaddr_t -> uip_ipaddr_t -> bool;
  uiplib_ipaddr_print : uip_ipaddr_t -> string;
}.

(** What the code relies on: a positive tick rate, at least the 32 bits that the
    metrics keep of a clock value, a tick rate for which the longest delay and the
    millisecond conversion stay in 32 bits, and a comparison of addresses that
    tells them apart. *)
Class PlatformLaws `{Platform} := {
  clock_second_pos : 0 < CLOCK_SECOND;
  clock_bits_32 : 32 <= clock_bits;
  clock_second_small : 2000 * CLOCK_SECOND < 2 ^ 32;
  uip_ipaddr_cmp_eq : forall a b, uip_ipaddr_cmp a b = true <-> a = b;
}.

(** A board to run examples on: 128 ticks a second, a 32-bit clock, addresses
    numbered. *)
Definition example_platform : Platform := {|
  CLOCK_SECOND := 128; clock_bits := 32; uip_ipaddr_t := Z; uip_ipaddr_zero := 0;
  uip_ipaddr_cmp := Z.eqb; uiplib_ipaddr_print := pretty |}.
Lemma example_platform_laws : @PlatformLaws example_platform.
Proof. split; [reflexivity|discriminate|reflexivity|exact Z.eqb_eq]. Qed.

Section Effects.
Context `{Platform}.

(** A cast to [clock_time_t]. *)
Definition uclk (x : Z) : Z := x mod 2 ^ clock_bits.

(** A datagram handed to [simple_udp_sendto] on connection [conn], or a piece of
    text written to the serial line. *)
Inductive output :=
| UdpSend (conn : nat) (data : bytes) (dest : uip_ipaddr_t)
| Serial (text : string).

(** The i-th call of [clock_time()] since boot reads [e_clock i]; no assumption
    is made on the readings. *)
Record env := mkenv { e_clock : nat -> Z; e_reads : nat; e_out : list output }.
#[export] Instance eta_env : Eta env := fun r => mkenv (e_clock r) (e_reads r) (e_out r).

(** Boot: no clock reading made, nothing emitted; the clock reads 0. *)
Definition example_env : env := mkenv (fun _ => 0) 0 [].

Definition M (S A : Type) : Type := env -> S -> option (A * env * S).

#[export] Instance M_ret {S} : MRet (M S) := fun A a e s => Some (a, e, s).
#[export] Instance M_bind {S} : MBind (M S) := fun A B f m e s =>
  match m e s with Some (a, e', s') => f a e' s' | None => None end.

Definition get {S} : M S S := fun e s => Some (s, e, s).
Definition put {S} (s' : S) : M S unit := fun e _ => Some (tt, e, s').
Definition modify {S} (f : S -> S) : M S unit := fun e s => Some (tt, e, f s).
Definition gets {S A} (f : S -> A) : M S A := fun e s => Some (f s, e, s).

(** Undefined behaviour of a pure computation. *)
Definition lift {S A} (o : option A) : M S A := fun e s =>
  match o with Some a => Some (a, e, s) | None => None end.
(** A pure computation on the object. *)
Definition lift_st {S A} (f : S -> option (A * S)) : M S A := fun e s =>
  match f s with Some (a, s') => Some (a, e, s') | None => None end.

Definition clock_time {S} : M S Z := fun e s =>
  Some (uclk (e_clock e (e_reads e)), e <| e_reads ::= Datatypes.S |>, s).
Definition emit {S} (o : output) : M S unit := fun e s =>
  Some (tt, e <| e_out ::= (fun l => l ++ [o]) |>, s).

(** Run a computation on a part of a larger object. *)
Definition zoom {W S A} (g : W -> S) (p : S -> W -> W) (m : M S A) : M W A := fun e w =>
  match m e (g w) with Some (a, e', s') => Some (a, e', p s' w) | None => None end.
(** Run a computation on cell [i] of an array of objects. *)
Definition zoom_at {S A} (i : nat) (m : M S A) : M (list S) A := fun e l =>
  match l !! i with
  | Some s => match m e s with Some (a, e', s') => Some (a, e', <[i := s']> l) | None => None end
  | None => None
  end.

(** A loop over index values whose body may return from the function. *)
Fixpoint for_each {S R I} (idxs : list I) (body : I -> M S (option R)) : M S (option R) :=
  match idxs with
  | [] => mret None
  | i :: idxs' => r ← body i; match r with Some x => mret (Some x) | None => for_each idxs' body end
  end.

(** ** Weakest preconditions

    [wp m Q e s]: from environment [e] and object [s] the computation [m] runs
    without undefined behaviour and ends in a result, an environment and an
    object that satisfy [Q]. *)

Definition wp {S A} (m : M S A) (Q : A -> env -> S -> Prop) (e : env) (s : S) : Prop :=
  match m e s with Some (a, e', s') => Q a e' s' | None => False end.

Section Rules.
Context {S : Type}.

Lemma wp_ret {A} (a : A) Q e (s : S) : Q a e s -> wp (mret a) Q e s.
Proof. exact id. Qed.

Lemma wp_bind {A B} (m : M S A) (f : A -> M S B) Q e s :
  wp m (fun a e' s' => wp (f a) Q e' s') e s -> wp (m ≫= f) Q e s.
Proof. unfold wp, mbind, M_bind. destruct (m e s) as [[[a e'] s']|]; auto. Qed.

Lemma wp_bind_iff {A B} (m : M S A) (f : A -> M S B) Q e s :
  wp (m ≫= f) Q e s <-> wp m (fun a e' s' => wp (f a) Q e' s') e s.
Proof. unfold wp, mbind, M_bind. destruct (m e s) as [[[a e'] s']|]; tauto. Qed.

Lemma wp_get Q e (s : S) : Q s e s -> wp get Q e s.
Proof. exact id. Qed.
Lemma wp_put Q e (s s' : S) : Q tt e s' -> wp (put s') Q e s.
Proof. exact id. Qed.
Lemma wp_modify f Q e (s : S) : Q tt e (f s) -> wp (modify f) Q e s.
Proof. exact id. Qed.
Lemma wp_gets {A} (f : S -> A) Q e (s : S) : Q (f s) e s -> wp (gets f) Q e s.
Proof. exact id. Qed.
Lemma wp_lift {A} (o : option A) Q e (s : S) :
  (exists a, o = Some a /\ Q a e s) -> wp (lift o) Q e s.
Proof. intros (a & -> & HQ). exact HQ. Qed.
Lemma wp_lift_st {A} (f : S -> option (A * S)) Q e (s : S) :
  (exists a s', f s = Some (a, s') /\ Q a e s') -> wp (lift_st f) Q e s.
Proof. intros (a & s' & Hf & HQ). unfold wp, lift_st. rewrite Hf. exact HQ. Qed.
Lemma wp_clock_time Q e (s : S) :
  Q (uclk (e_clock e (e_reads e))) (e <| e_reads ::= Datatypes.S |>) s -> wp clock_time Q e s.
Proof. exact id. Qed.
Lemma wp_emit o Q e (s : S) :
  Q tt (e <| e_out ::= (fun l => l ++ [o]) |>) s -> wp (emit o) Q e s.
Proof. exact id. Qed.

Lemma wp_zoom {W A} (g : W -> S) p (m : M S A) Q e (w : W) :
  wp m (fun a e' s' => Q a e' (p s' w)) e (g w) -> wp (zoom g p m) Q e w.
Proof. unfold wp, zoom. destruct (m e (g w)) as [[[a e'] s']|]; auto. Qed.

Lemma wp_zoom_at {A} i (m : M S A) Q e (l : list S) s :
  l !! i = Some s ->
  wp m (fun a e' s' => Q a e' (<[i := s']> l)) e s -> wp (zoom_at i m) Q e l.
Proof.
  unfold wp, zoom_at. intros ->. destruct (m e s) as [[[a e'] s']|]; auto.
Qed.

Lemma wp_mono {A} (m : M S A) (Q Q' : A -> env -> S -> Prop) e s :
  (forall a e' s', Q a e' s' -> Q' a e' s') -> wp m Q e s -> wp m Q' e s.
Proof. unfold wp. destruct (m e s) as [[[a e'] s']|]; auto. Qed.

Lemma wp_conj {A} (m : M S A) (Q Q' : A -> env -> S -> Prop) e s :
  wp m Q e s -> wp m Q' e s -> wp m (fun a e' s' => Q a e' s' /\ Q' a e' s') e s.
Proof. unfold wp. destruct (m e s) as [[[a e'] s']|]; auto. Qed.

(** What a run that satisfies [wp] returns. *)
Lemma wp_run {A} (m : M S A) Q e s :
  wp m Q e s <-> exists a e' s', m e s = Some (a, e', s') /\ Q a e' s'.
Proof.
  unfold wp. destruct (m e s) as [[[a e'] s']|]; split.
  - intros HQ. eauto 6.
  - intros (? & ? & ? & [= <- <- <-] & HQ). exact HQ.
  - intros [].
  - intros (? & ? & ? & [=] & _).
Qed.

(** The loop rule: [Inv done] holds before the iteration that follows [done]. *)
Lemma wp_for_each {R I} (Inv : list I -> env -> S -> Prop) (idxs : list I)
    (body : I -> M S (option R)) Q e s :
  Inv [] e s ->
  (forall done i rest, idxs = done ++ i :: rest -> forall e s, Inv done e s ->
    wp (body i) (fun r e' s' => match r with
                                | None => Inv (done ++ [i]) e' s'
                                | Some x => Q (Some x) e' s'
                                end) e s) ->
  (forall e s, Inv idxs e s -> Q None e s) ->
  wp (for_each idxs body) Q e s.
Proof.
  intros H0 Hbody Hend.
  enough (Hgen : forall rest done e s, idxs = done ++ rest -> Inv done e s ->
            wp (for_each rest body) Q e s) by (apply (Hgen idxs []); auto).
  induction rest as [|i rest IH]; intros done e' s' Heq Hinv; simpl.
  - apply wp_ret, Hend. rewrite app_nil_r in Heq. congruence.
  - apply wp_bind. eapply wp_mono; [|eapply Hbody; eauto].
    intros [x|] e'' s'' Hr; simpl in Hr.
    + apply wp_ret, Hr.
    + apply (IH (done ++ [i])); [rewrite <- app_assoc; exact Heq|exact Hr].
Qed.

(** The loop rule for a property every iteration preserves. *)
Lemma wp_for_each_inv {R I} (Inv : env -> S -> Prop) (idxs : list I)
    (body : I -> M S (option R)) Q e s :
  Inv e s ->
  (forall i e s, i ∈ idxs -> Inv e s ->
    wp (body i) (fun r e' s' => match r with
                                | None => Inv e' s'
                                | Some x => Q (Some x) e' s'
                                end) e s) ->
  (forall e s, Inv e s -> Q None e s) ->
  wp (for_each idxs body) Q e s.
Proof.
  intros H0 Hb Hend. apply (wp_for_each (fun _ => Inv)); auto.
  intros done i rest -> e' s' Hi. apply Hb; [|exact Hi].
  apply elem_of_app. right. left.
Qed.

End Rules.

(** ** Time

    A computation reads the clock some number of times; the readings themselves
    are given by the environment, and those it does not make do not matter to it. *)

Definition env_le (e e' : env) : Prop := e_clock e' = e_clock e /\ (e_reads e <= e_reads e')%nat.

Lemma env_le_refl e : env_le e e.
Proof. split; [reflexivity|lia]. Qed.
Lemma env_le_trans e1 e2 e3 : env_le e1 e2 -> env_le e2 e3 -> env_le e1 e3.
Proof. intros [E1 L1] [E2 L2]. split; [congruence|lia]. Qed.

(** The same environment with another clock. *)
Definition with_clock (clk : nat -> Z) (e : env) : env := e <| e_clock := clk |>.

(** From [e] to [e'] the two clocks give the same readings. *)
Definition same_readings (clk : nat -> Z) (e e' : env) : Prop :=
  forall n, (e_reads e <= n < e_reads e')%nat -> clk n = e_clock e n.

Definition timely {S A} (m : M S A) : Prop :=
  forall e s a e' s', m e s = Some (a, e', s') ->
    env_le e e' /\ forall clk, same_readings clk e e' -> m (with_clock clk e) s = Some (a, with_clock clk e', s').

Lemma wp_timely {S A} (m : M S A) Q e s :
  timely m -> wp m Q e s -> wp m (fun a e' s' => env_le e e' /\ Q a e' s') e s.
Proof.
  intros Hm. unfold wp. destruct (m e s) as [[[a e'] s']|] eqn:E; [|auto].
  intros HQ. split; [exact (proj1 (Hm _ _ _ _ _ E))|exact HQ].
Qed.

Lemma wp_env_le {S A} (m : M S A) Q e s :
  timely m -> wp m (fun a e' s' => env_le e e' -> Q a e' s') e s -> wp m Q e s.
Proof.
  intros Hm Hwp. eapply wp_mono; [|exact (wp_timely m _ e s Hm Hwp)]. intros a e' s' [Hle HQ]. exact (HQ Hle).
Qed.

Ltac timely_primitive := intros e s ? ? ? [= <- <- <-]; split; [apply env_le_refl|reflexivity].

Lemma timely_ret {S A} (a : A) : timely (S := S) (mret a).
Proof. timely_primitive. Qed.
Lemma timely_get {S} : timely (S := S) get.
Proof. timely_primitive. Qed.
Lemma timely_gets {S A} (f : S -> A) : timely (gets f).
Proof. timely_primitive. Qed.
Lemma timely_put {S} (s0 : S) : timely (put s0).
Proof. timely_primitive. Qed.
Lemma timely_modify {S} (f : S -> S) : timely (modify f).
Proof. timely_primitive. Qed.
Lemma timely_lift {S A} (o : option A) : timely (S := S) (lift o).
Proof. unfold lift. destruct o; [timely_primitive|discriminate]. Qed.
Lemma timely_clock_time {S} : timely (S := S) clock_time.
Proof.
  intros e s ? ? ? [= <- <- <-]. split; [split; [reflexivity|cbn; lia]|]. intros clk Hclk.
  unfold clock_time. cbn. rewrite (Hclk (e_reads e)) by (cbn; lia). reflexivity.
Qed.
Lemma timely_emit {S} o : timely (S := S) (emit o).
Proof. intros e s ? ? ? [= <- <- <-]. split; [split; [reflexivity|cbn; lia]|reflexivity]. Qed.
Lemma timely_bind {S A B} (m : M S A) (f : A -> M S B) :
  timely m -> (forall a, timely (f a)) -> timely (m ≫= f).
Proof.
  intros Hm Hf e s b e2 s2. unfold mbind, M_bind.
  destruct (m e s) as [[[a e1] s1]|] eqn:E; [|discriminate].
  intros E2. destruct (Hm _ _ _ _ _ E) as [Hle1 Hm1], (Hf _ _ _ _ _ _ E2) as [Hle2 Hf2].
  split; [exact (env_le_trans _ _ _ Hle1 Hle2)|]. intros clk Hclk. destruct Hle1 as [Ec1 Hr1], Hle2 as [_ Hr2].
  rewrite Hm1 by (intros n Hn; apply Hclk; lia). apply Hf2. intros n Hn. rewrite Ec1. apply Hclk. lia.
Qed.
Lemma timely_zoom {W S A} (g : W -> S) p (m : M S A) : timely m -> timely (zoom g p m).
Proof.
  intros Hm e w a e' w'. unfold zoom. destruct (m e (g w)) as [[[a1 e1] s1]|] eqn:E; [|discriminate].
  intros [= <- <- <-]. destruct (Hm _ _ _ _ _ E) as [Hle Hc]. split; [exact Hle|].
  intros clk Hclk. rewrite (Hc clk Hclk). reflexivity.
Qed.
Lemma timely_for_each {S R I} (idxs : list I) (body : I -> M S (option R)) :
  (forall i, timely (body i)) -> timely (for_each idxs body).
Proof.
  intros Hb. induction idxs as [|i idxs IH]; [apply timely_ret|]. cbn [for_each].
  apply timely_bind; [apply Hb|]. intros [x|]; [apply timely_ret|exact IH].
Qed.

(** What holds of a computation under every clock whose readings all satisfy [P] holds as
    soon as the readings that it makes do. *)
Lemma run_readings {S A} (m : M S A) (P : env -> Prop) (ok : env -> env -> Prop) (Q : A -> S -> Prop) e s :
  timely m -> wp m (fun _ _ _ => True) e s ->
  (forall e', env_le e e' -> ok e e' -> exists clk, same_readings clk e e' /\ P (with_clock clk e)) ->
  (forall e0, P e0 -> wp m (fun a _ s' => Q a s') e0 s) ->
  exists a e' s', m e s = Some (a, e', s') /\ (ok e e' -> Q a s').
Proof.
  intros Hm Htotal Hclk Hall. apply wp_run in Htotal as (a & e' & s' & Hrun & _). exists a, e', s'. split; [exact Hrun|].
  intros Hok. destruct (Hm _ _ _ _ _ Hrun) as [Hle Hlocal]. destruct (Hclk e' Hle Hok) as (clk & Hsame & HP).
  specialize (Hall _ HP). unfold wp in Hall. rewrite (Hlocal clk Hsame) in Hall. exact Hall.
Qed.

End Effects.

(** Shows that a computation is timely, by its syntax. *)
Create HintDb timely.
Ltac timely_step :=
  lazymatch goal with
  | |- timely (mbind _ _) => apply timely_bind; [|intros ?]
  | |- timely (mret _) => apply timely_ret
  | |- timely get => apply timely_get
  | |- timely (gets _) => apply timely_gets
  | |- timely (put _) => apply timely_put
  | |- timely (modify _) => apply timely_modify
  | |- timely (lift _) => apply timely_lift
  | |- timely clock_time => apply timely_clock_time
  | |- timely (emit _) => apply timely_emit
  | |- timely (zoom _ _ _) => apply timely_zoom
  | |- timely (for_each _ _) => apply timely_for_each; intros ?
  | |- timely (if ?b then _ else _) => destruct b
  | |- timely (match ?o with Some _ => _ | None => _ end) => destruct o
  | |- timely (let '(_, _) := ?p in _) => destruct p
  | |- timely _ => solve [auto with timely]
  end; cbv beta.
Ltac timely_tac := repeat timely_step.

(** A run that ends normally, as a boolean-free statement for examples. *)
Definition run {S A} `{Platform} (m : M S A) (e : env) (s : S) : option (A * S) :=
  match m e s with Some (a, _, s') => Some (a, s') | None => None end.

Create HintDb wpdb.

(** One step of symbolic execution.  Tests and matches on options are split;
    lemmas in [wpdb] are used for called functions. *)
Ltac wp_step :=
  lazymatch goal with
  | |- wp (mbind _ _) _ _ _ => apply wp_bind
  | |- wp (mret _) _ _ _ => apply wp_ret
  | |- wp get _ _ _ => apply wp_get
  | |- wp (put _) _ _ _ => apply wp_put
  | |- wp (modify _) _ _ _ => apply wp_modify
  | |- wp (gets _) _ _ _ => apply wp_gets
  | |- wp clock_time _ _ _ => apply wp_clock_time
  | |- wp (emit _) _ _ _ => apply wp_emit
  | |- wp (zoom _ _ _) _ _ _ => apply wp_zoom
  | |- wp (if ?b then _ else _) _ _ _ => destruct b eqn:?
  | |- wp (match ?o with Some _ => _ | None => _ end) _ _ _ => destruct o eqn:?
  | |- wp (let '(_, _) := ?p in _) _ _ _ => destruct p eqn:?
  end; cbv beta.
Ltac wp_steps := repeat wp_step.

(** Unfolds the monad in a computation that is being evaluated. *)
Ltac m_simpl := cbv beta iota delta
  [mbind M_bind mret M_ret modify get gets put lift lift_st clock_time emit zoom].
