(* ===== verification/Protocol.v ===== *)
(** * The wire header: [src/src/common/protocol.h]

    Constants of the protocol, the ten-byte header every datagram starts with,
    and the accessors of the header.  A pointer the code compares with [NULL] is
    an [option]. *)

From S2P Require Import Prelude.

(* src/src/common/protocol.h:15-15 PQC_PROTO_VERSION *)
Definition PQC_PROTO_VERSION : Z := 1.

(* src/src/common/protocol.h:17-17 PQC_MSG_PK *)
Definition PQC_MSG_PK : Z := 1.
(* src/src/common/protocol.h:18-18 PQC_MSG_CT *)
Definition PQC_MSG_CT : Z := 2.
(* src/src/common/protocol.h:19-19 PQC_MSG_ACK *)
Definition PQC_MSG_ACK : Z := 3.
(* src/src/common/protocol.h:20-20 PQC_MSG_TEMP *)
Definition PQC_MSG_TEMP : Z := 4.
(* src/src/common/protocol.h:21-21 PQC_MSG_METRICS *)
Definition PQC_MSG_METRICS : Z := 5.
(* src/src/common/protocol.h:22-22 PQC_MSG_GETPK *)
Definition PQC_MSG_GETPK : Z := 6.
(* src/src/common/protocol.h:23-23 PQC_MSG_NACK *)
Definition PQC_MSG_NACK : Z := 7.

(* src/src/common/protocol.h:25-25 PQC_FLAG_NONE *)
Definition PQC_FLAG_NONE : Z := 0.
(* src/src/common/protocol.h:26-26 PQC_FLAG_RETRY *)
Definition PQC_FLAG_RETRY : Z := 1.

(* src/src/common/protocol.h:29-29 PQC_HEADER_LEN *)
Definition PQC_HEADER_LEN : Z := 10.

(* src/src/common/protocol.h:31-31 PQC_HDR_VERSION *)
Definition PQC_HDR_VERSION : Z := 0.
(* src/src/common/protocol.h:32-32 PQC_HDR_MSG_TYPE *)
Definition PQC_HDR_MSG_TYPE : Z := 1.
(* src/src/common/protocol.h:33-33 PQC_HDR_NODE_ID_H *)
Definition PQC_HDR_NODE_ID_H : Z := 2.
(* src/src/common/protocol.h:34-34 PQC_HDR_NODE_ID_L *)
Definition PQC_HDR_NODE_ID_L : Z := 3.
(* src/src/common/protocol.h:35-35 PQC_HDR_MSG_ID *)
Definition PQC_HDR_MSG_ID : Z := 4.
(* src/src/common/protocol.h:36-36 PQC_HDR_FRAG_IDX *)
Definition PQC_HDR_FRAG_IDX : Z := 5.
(* src/src/common/protocol.h:37-37 PQC_HDR_TOTAL_FRAGS *)
Definition PQC_HDR_TOTAL_FRAGS : Z := 6.
(* src/src/common/protocol.h:38-38 PQC_HDR_PAYLOAD_LEN *)
Definition PQC_HDR_PAYLOAD_LEN : Z := 7.
(* src/src/common/protocol.h:39-39 PQC_HDR_FLAGS *)
Definition PQC_HDR_FLAGS : Z := 8.
(* src/src/common/protocol.h:40-40 PQC_HDR_RESERVED *)
Definition PQC_HDR_RESERVED : Z := 9.

(* src/src/common/protocol.h:45-45 UDP_CLIENT_PORT *)
Definition UDP_CLIENT_PORT : Z := 8765.
(* src/src/common/protocol.h:46-46 UDP_SERVER_PORT *)
Definition UDP_SERVER_PORT : Z := 5678.

#[export] Hint Unfold PQC_PROTO_VERSION PQC_MSG_PK PQC_MSG_CT PQC_MSG_ACK PQC_MSG_TEMP
  PQC_MSG_METRICS PQC_MSG_GETPK PQC_MSG_NACK PQC_FLAG_NONE PQC_FLAG_RETRY PQC_HEADER_LEN
  PQC_HDR_VERSION PQC_HDR_MSG_TYPE PQC_HDR_NODE_ID_H PQC_HDR_NODE_ID_L PQC_HDR_MSG_ID
  PQC_HDR_FRAG_IDX PQC_HDR_TOTAL_FRAGS PQC_HDR_PAYLOAD_LEN PQC_HDR_FLAGS
  PQC_HDR_RESERVED : c_consts.

(** The temperature record of a TEMP datagram; the two readings are signed. *)
(* src/src/common/protocol.h:50-54 pqc_temp_payload_t *)
Record pqc_temp_payload_t := mk_temp_payload {
  tp_counter : Z;
  tp_rh_milli : Z;
  tp_temp_milli : Z;
}.
#[export] Instance eta_temp_payload : Eta pqc_temp_payload_t :=
  fun r => mk_temp_payload (tp_counter r) (tp_rh_milli r) (tp_temp_milli r).

(** [linkaddr] is [linkaddr_node_addr.u8], of [LINKADDR_SIZE] bytes. *)
(* src/src/common/protocol.h:56-65 pqc_node_id_from_linkaddr *)
Definition pqc_node_id_from_linkaddr (linkaddr : bytes) : option Z :=
  let LINKADDR_SIZE := Z.of_nat (length linkaddr) in
  if 2 <=? LINKADDR_SIZE
  then hi ← cell linkaddr (LINKADDR_SIZE - 2);
       lo ← cell linkaddr (LINKADDR_SIZE - 1);
       Some (Z.lor (Z.shiftl hi 8) lo)
  else cell linkaddr 0.

(** The conjunction is evaluated left to right and stops at the first false. *)
(* src/src/common/protocol.h:67-74 pqc_header_valid *)
Definition pqc_header_valid (buf : option bytes) (len : Z) : option bool :=
  match buf with
  | None => Some false
  | Some b =>
      if negb (PQC_HEADER_LEN <=? len) then Some false else
      version ← cell b PQC_HDR_VERSION;
      if negb (version =? PQC_PROTO_VERSION) then Some false else
      payload_len ← cell b PQC_HDR_PAYLOAD_LEN;
      Some (u16 (PQC_HEADER_LEN + payload_len) <=? len)
  end.

(* src/src/common/protocol.h:76-80 pqc_header_get_node_id *)
Definition pqc_header_get_node_id (buf : bytes) : option Z :=
  hi ← cell buf PQC_HDR_NODE_ID_H;
  lo ← cell buf PQC_HDR_NODE_ID_L;
  Some (Z.lor (Z.shiftl hi 8) lo).

(* src/src/common/protocol.h:82-87 pqc_header_set_node_id *)
Definition pqc_header_set_node_id (buf : bytes) (node_id : Z) : option bytes :=
  buf ← set_cell buf PQC_HDR_NODE_ID_H (u8 (Z.shiftr node_id 8));
  set_cell buf PQC_HDR_NODE_ID_L (u8 node_id).

(* src/src/common/protocol.h:89-108 pqc_header_write *)
Definition pqc_header_write (buf : bytes) (msg_type node_id msg_id frag_idx total_frags
    payload_len flags : Z) : option bytes :=
  buf ← set_cell buf PQC_HDR_VERSION PQC_PROTO_VERSION;
  buf ← set_cell buf PQC_HDR_MSG_TYPE msg_type;
  buf ← pqc_header_set_node_id buf node_id;
  buf ← set_cell buf PQC_HDR_MSG_ID msg_id;
  buf ← set_cell buf PQC_HDR_FRAG_IDX frag_idx;
  buf ← set_cell buf PQC_HDR_TOTAL_FRAGS total_frags;
  buf ← set_cell buf PQC_HDR_PAYLOAD_LEN payload_len;
  buf ← set_cell buf PQC_HDR_FLAGS flags;
  set_cell buf PQC_HDR_RESERVED 0.

(** ** What the header operations compute *)

(** The ten bytes of a header. *)
Definition header_bytes (msg_type node_id msg_id frag_idx total_frags payload_len flags : Z)
    : bytes :=
  [1; msg_type; u8 (Z.shiftr node_id 8); u8 node_id; msg_id; frag_idx; total_frags;
   payload_len; flags; 0].

Lemma header_write_eq buf mt nid mid fi tf pl fl :
  10 <= Z.of_nat (length buf) ->
  pqc_header_write buf mt nid mid fi tf pl fl =
    Some (header_bytes mt nid mid fi tf pl fl ++ drop 10 buf).
Proof.
  intros Hlen. do 10 (destruct buf as [|? buf]; [simpl in Hlen; lia|]).
  unfold pqc_header_write, pqc_header_set_node_id. autounfold with c_consts.
  repeat (rewrite set_cell_total by (simpl length; lia); simpl).
  reflexivity.
Qed.

Lemma node_id_bytes nid :
  is_u16 nid -> Z.lor (Z.shiftl (u8 (Z.shiftr nid 8)) 8) (u8 nid) = nid.
Proof.
  intros Hn. unfold in_width in Hn.
  rewrite lor_shiftl_add by (try apply u8_range; lia).
  rewrite u8_shiftr by lia. unfold u8.
  rewrite (Z.mod_small (nid / 2 ^ 8)) by (split; [apply Z.div_pos; lia|apply Z.div_lt_upper_bound; lia]).
  pose proof (Z.div_mod nid (2 ^ 8) ltac:(lia)). lia.
Qed.

Lemma header_valid_eq mt nid mid fi tf pl fl rest len :
  is_u8 pl ->
  pqc_header_valid (Some (header_bytes mt nid mid fi tf pl fl ++ rest)) len =
    Some (10 + pl <=? len).
Proof.
  intros Hpl. unfold pqc_header_valid, header_bytes. autounfold with c_consts.
  rewrite !cell_lookup by lia. simpl.
  rewrite u16_id by (unfold in_width in *; lia).
  destruct (Z.leb_spec 10 len), (Z.leb_spec (10 + pl) len); simpl; try reflexivity.
  unfold in_width in *. lia.
Qed.

Lemma header_node_id_eq mt nid mid fi tf pl fl rest :
  is_u16 nid ->
  pqc_header_get_node_id (header_bytes mt nid mid fi tf pl fl ++ rest) = Some nid.
Proof.
  intros Hn. unfold pqc_header_get_node_id, header_bytes. autounfold with c_consts.
  rewrite !cell_lookup by lia. simpl. rewrite node_id_bytes by exact Hn. reflexivity.
Qed.

(** A datagram at least as long as it claims never makes the header check read
    outside it, and a datagram the check accepts carries its whole payload. *)
Lemma header_valid_total b len :
  len <= Z.of_nat (length b) -> is_Some (pqc_header_valid (Some b) len).
Proof.
  intros Hlen. unfold pqc_header_valid. case_if; [eauto|]. case_bools.
  destruct (cell_total b PQC_HDR_VERSION) as (v & -> & _); [clia|]. simpl.
  case_if; [eauto|].
  destruct (cell_total b PQC_HDR_PAYLOAD_LEN) as (p & -> & _); [clia|]. simpl. eauto.
Qed.

Lemma header_valid_true b len :
  pqc_header_valid (Some b) len = Some true ->
  10 <= len /\ exists pl, cell b PQC_HDR_PAYLOAD_LEN = Some pl /\ u16 (10 + pl) <= len.
Proof.
  unfold pqc_header_valid. case_if; [discriminate|]. case_bools.
  destruct (cell b PQC_HDR_VERSION) as [v|]; simpl; [|discriminate].
  case_if; [discriminate|].
  destruct (cell b PQC_HDR_PAYLOAD_LEN) as [p|]; simpl; [|discriminate].
  intros [= Hle]. case_bools. split; [clia|]. exists p. split; [reflexivity|clia].
Qed.
