(* ===== verification/Temperature.v ===== *)
(** * Temperature readings: [src/src/Temp/temp_measurement.c]

    The measurement as it is printed and read; the sensor's library call
    [SI7021_measure] is the pair of values it stores. *)

From S2P Require Import Prelude Platform Protocol.

(** [%03ld] of a number from 0 to 999. *)
Definition pad3 (n : Z) : string :=
  (if n <? 10 then "00" else if n <? 100 then "0" else "") ++ pretty n.

(** A number of thousandths, with its sign. *)
Definition decimal3 (x : Z) : string :=
  (if x <? 0 then "-" else "") ++ pretty (Z.abs x / 1000) ++ "." ++ pad3 (Z.abs x mod 1000).

(** [%ld.%03ld] of [x / 1000] and [(x >= 0 ? x : -x) % 1000]; the negation
    overflows for the least [int]. *)
(* src/src/Temp/temp_measurement.c:6-10 print_measurement *)
Definition print_milli (x : Z) : option string :=
  if x =? - 2 ^ 31 then None
  else Some (pretty (Z.quot x 1000) ++ "." ++ pad3 (Z.rem (if (0 <=? x)%Z then x else (- x)%Z) 1000))%string.

Section Temperature.
Context `{Platform}.

(* src/src/Temp/temp_measurement.c:4-13 print_measurement *)
Definition print_measurement {S} (rh_milli temp_milli : Z) : M S unit :=
  rh ← lift (print_milli rh_milli);
  t ← lift (print_milli temp_milli);
  emit (Serial ("RH:" ++ rh ++ " %,  T:" ++ t ++ " C")%string).

End Temperature.

(** The result is the object that [out] points to when the function returns: none for a
    [NULL] pointer, with which it returns at once.  The counter is left as it was;
    [hume] and [temper] are what the sensor stored. *)
(* src/src/Temp/temp_measurement.c:15-33 temp_measurement_read *)
Definition temp_measurement_read (out : option pqc_temp_payload_t) (hume temper : Z)
    : option pqc_temp_payload_t :=
  match out with
  | None => None
  | Some p => Some (p <| tp_rh_milli := s32 hume |> <| tp_temp_milli := temper |>)
  end.

(** ** Facts *)

Lemma print_milli_correct x :
  - 2 ^ 31 < x < 2 ^ 31 -> ~ (-1000 < x < 0) -> print_milli x = Some (decimal3 x).
Proof.
  intros Hx Hn. unfold print_milli, decimal3. rewrite (proj2 (Z.eqb_neq _ _)) by lia. f_equal.
  destruct (Z.leb_spec 0 x) as [Hp|Hp].
  - rewrite (proj2 (Z.ltb_ge _ _)), Z.abs_eq, Z.quot_div_nonneg, Z.rem_mod_nonneg by lia. reflexivity.
  - rewrite (proj2 (Z.ltb_lt _ _)), Z.abs_neq, Z.rem_mod_nonneg by lia.
    assert (E : Z.quot x 1000 = - (- x / 1000)).
    { rewrite <- (Z.opp_involutive x) at 1. rewrite Z.quot_opp_l, Z.quot_div_nonneg by lia. reflexivity. }
    rewrite E. pose proof (Z.div_le_lower_bound (- x) 1000 1 ltac:(lia) ltac:(lia)) as Hd.
    destruct (- x / 1000) as [|p|p] eqn:Eq; [lia| |lia]. reflexivity.
Qed.

(** The sign is lost between -1 and 0. *)
Lemma print_milli_unsigned x : -1000 < x < 0 -> print_milli x = Some (decimal3 (- x)).
Proof.
  intros Hx. unfold print_milli, decimal3. rewrite (proj2 (Z.eqb_neq _ _)) by lia. f_equal.
  rewrite (proj2 (Z.leb_gt _ _)), (proj2 (Z.ltb_ge _ _)), Z.abs_eq, Z.rem_mod_nonneg by lia.
  rewrite (Z.div_small (- x)) by lia.
  replace (Z.quot x 1000) with 0; [reflexivity|].
  rewrite <- (Z.opp_involutive x), Z.quot_opp_l, Z.quot_div_nonneg, Z.div_small by lia. reflexivity.
Qed.

(** What is shown of a value. *)
Definition shown3 (x : Z) : string := decimal3 (if (-1000 <? x) && (x <? 0) then - x else x).

Lemma print_milli_shown x : - 2 ^ 31 < x < 2 ^ 31 -> print_milli x = Some (shown3 x).
Proof.
  intros Hx. unfold shown3. case_if; case_bools; [apply print_milli_unsigned; lia|].
  apply print_milli_correct; [exact Hx|]. intros [Hl Hh].
  match goal with Hb : _ \/ _ |- _ => destruct Hb end; case_bools; lia.
Qed.

Lemma wp_print_measurement `{Platform} {S} rh t Q e (s : S) :
  - 2 ^ 31 < rh < 2 ^ 31 -> - 2 ^ 31 < t < 2 ^ 31 ->
  Q tt (e <| e_out ::= (fun l => l ++ [Serial ("RH:" ++ shown3 rh ++ " %,  T:" ++ shown3 t ++ " C")%string]) |>) s ->
  wp (print_measurement rh t) Q e s.
Proof.
  intros Hr Ht HQ. unfold print_measurement. apply wp_bind, wp_lift. eexists. split; [apply print_milli_shown, Hr|].
  apply wp_bind, wp_lift. eexists. split; [apply print_milli_shown, Ht|]. apply wp_emit, HQ.
Qed.

(** ** Properties *)

#[local] Existing Instance example_platform | 100.

(** What is printed of a reading: both values with three decimals, exactly,
    unless a value lies strictly between -1 and 0 degrees (or percent), which is
    printed as its absolute value, without the sign. *)
Theorem print_measurement_spec `{Platform} {S} rh t e (s : S) :
  - 2 ^ 31 < rh < 2 ^ 31 -> - 2 ^ 31 < t < 2 ^ 31 ->
  print_measurement rh t e s =
    Some (tt, e <| e_out ::= (fun l => l ++ [Serial ("RH:" ++ shown3 rh ++ " %,  T:" ++ shown3 t ++ " C")%string]) |>, s) /\
  (forall x, ~ (-1000 < x < 0) -> shown3 x = decimal3 x) /\ (forall x, -1000 < x < 0 -> shown3 x = decimal3 (- x)).
Proof.
  intros Hr Ht. split; [unfold print_measurement; rewrite (print_milli_shown rh Hr), (print_milli_shown t Ht); reflexivity|].
  unfold shown3. split; intros x Hx.
  - destruct (Z.ltb_spec (-1000) x), (Z.ltb_spec x 0); cbn [andb]; reflexivity || (exfalso; lia).
  - rewrite !(proj2 (Z.ltb_lt _ _)) by lia. reflexivity.
Qed.

Example print_measurement_spec_witness :
  print_measurement 55321 (-500) example_env tt =
    Some (tt, example_env <| e_out ::= (fun l => l ++ [Serial "RH:55.321 %,  T:0.500 C"]) |>, tt) /\
  (forall x, ~ (-1000 < x < 0) -> shown3 x = decimal3 x) /\ (forall x, -1000 < x < 0 -> shown3 x = decimal3 (- x)).
Proof. apply (print_measurement_spec 55321 (-500) example_env tt); lia. Defined.
