(* ===== verification/Radio.v ===== *)
(** * The radio driver: [radio_diver/efr32-radio_V2_corregido.c]

    The driver of the EFR32 radio for Contiki-NG's MAC.  Received packets are moved by
    the interrupt handler into a ring of four buffers, from which the process
    [radio_proc] hands them to the MAC; [transmit] starts a transmission and waits for
    the interrupt handler to say how it ended.  The vendor's RAIL library is not part of
    the program: its answers are arguments, its events a set, the calls to it are listed
    in [radio_out].  Interrupts may come between any two accesses of the foreground
    code to what it shares with the handler; where the code waits, each of its readings
    of a clock is an argument, together with the interrupts before it.

    When no packet has an empty payload the receive path is a queue of four packets; a
    packet with an empty payload desynchronises the ring. *)

From S2P Require Import Prelude Platform.

(** ** Data *)

(* src/radio_diver/efr32-radio_V2_corregido.c:87-87 IEEE802154_MAX_LENGTH *)
Definition IEEE802154_MAX_LENGTH : Z := 127.
(* src/radio_diver/efr32-radio_V2_corregido.c:92-92 IEEE802154_ACK_REQUEST *)
Definition IEEE802154_ACK_REQUEST : Z := Z.shiftl 1 5.
(* src/radio_diver/efr32-radio_V2_corregido.c:96-96 CHANNEL_MIN *)
Definition CHANNEL_MIN : Z := 11.
(* src/radio_diver/efr32-radio_V2_corregido.c:97-97 CHANNEL_MAX *)
Definition CHANNEL_MAX : Z := 26.
(* src/radio_diver/efr32-radio_V2_corregido.c:101-101 AUTOACK_WAIT_US *)
Definition AUTOACK_WAIT_US : Z := 1000.
(* src/radio_diver/efr32-radio_V2_corregido.c:102-102 AUTOACK_TIMEOUT_US *)
Definition AUTOACK_TIMEOUT_US : Z := 5000.
(* src/radio_diver/efr32-radio_V2_corregido.c:127-127 RX_BUF_COUNT *)
Definition RX_BUF_COUNT : Z := 4.
(* src/radio_diver/efr32-radio_V2_corregido.c:266-266 cca_threshold *)
Definition cca_threshold : Z := -85.

(* src/radio_diver/efr32-radio_V2_corregido.c:104-112 tx_status_t *)
Inductive tx_status_t := TX_IDLE | TX_SENDING | TX_SENT | TX_NO_ACK | TX_CHANNEL_BUSY | TX_ERROR.
#[export] Instance tx_status_eq : EqDecision tx_status_t.
Proof. solve_decision. Defined.

(* src/radio_diver/efr32-radio_V2_corregido.c:117-123 rx_buffer_t *)
Record rx_buffer_t := mk_rx_buffer { rb_rssi : Z; rb_lqi : Z; rb_len : Z; rb_buf : bytes }.
#[export] Instance eta_rx_buffer : Eta rx_buffer_t := fun b => mk_rx_buffer (rb_rssi b) (rb_lqi b) (rb_len b) (rb_buf b).

(** The events of RAIL that the driver enables. *)
Inductive rail_event :=
| RAIL_EVENT_RX_ACK_TIMEOUT | RAIL_EVENT_TX_PACKET_SENT | RAIL_EVENT_RX_PACKET_RECEIVED | RAIL_EVENT_TX_CHANNEL_BUSY
| RAIL_EVENT_TX_ABORTED | RAIL_EVENT_TX_BLOCKED | RAIL_EVENT_TX_UNDERFLOW | RAIL_EVENT_IEEE802154_DATA_REQUEST_COMMAND | RAIL_EVENT_CAL_NEEDED.
#[export] Instance rail_event_eq : EqDecision rail_event.
Proof. solve_decision. Defined.

Inductive tx_options := RAIL_TX_OPTIONS_DEFAULT | RAIL_TX_OPTION_WAIT_FOR_ACK.

(** What RAIL says of the oldest packet it has: whether there is one, whether it was
    received without error, how many bytes it holds with its length byte, the time, whether
    its details can be had and what they are, and the bytes. *)
Record rail_rx := mk_rail_rx {
  rx_handle : bool; rx_success : bool; packetBytes : Z; rx_now : Z;
  rx_details : bool; crcPassed : bool; rx_rssi : Z; rx_lqi : Z; rx_data : bytes;
}.

(** Calls to RAIL, to the process scheduler and to the MAC. *)
Inductive radio_cmd :=
| RailConfigure (events : list rail_event) (tx_power fifo_size : Z)
| RailStartRx (channel : Z)
| RailReleaseRxPacket
| RailCalibrate
| RailSetPanId (panid : Z)
| RailSetLongAddress (addr : bytes)
| RailWriteTxFifo (data : bytes) (reset : bool)
| RailStartCcaCsmaTx (channel : Z) (options : tx_options)
| RailIdle (abort : bool)
| ProcessStart
| ProcessPoll
| MacInput (payload : bytes) (rssi lqi : Z).

(* src/radio_diver/efr32-radio_V2_corregido.c:114-131 rx_buf *)
Record radio := mk_radio {
  tx_status : tx_status_t; last_rx_time : Z;
  rx_buf : list rx_buffer_t; next_read : Z; next_write : Z; radio_stage : Z;
  panid : Z; channel : Z; txOptions : tx_options;
  radio_out : list radio_cmd;
}.
#[export] Instance eta_radio : Eta radio := fun r =>
  mk_radio (tx_status r) (last_rx_time r) (rx_buf r) (next_read r) (next_write r) (radio_stage r) (panid r) (channel r) (txOptions r) (radio_out r).

(* src/radio_diver/efr32-radio_V2_corregido.c:264-267 panid *)
Definition radio_boot : radio :=
  mk_radio TX_IDLE 0 (replicate 4 (mk_rx_buffer 0 0 0 (zeros 128))) 0 0 0 0xabcd 26 RAIL_TX_OPTIONS_DEFAULT [].

Definition call (c : radio_cmd) (r : radio) : radio := r <| radio_out ::= (fun l => l ++ [c]) |>.

(** ** The ring of receive buffers *)

(* src/radio_diver/efr32-radio_V2_corregido.c:133-144 has_packet *)
Definition has_packet (r : radio) : option bool := b ← at_index (rx_buf r) (next_read r); Some (0 <? rb_len b).

(** The result is the index of the buffer, or nothing for [NULL]. *)
(* src/radio_diver/efr32-radio_V2_corregido.c:146-166 get_full_rx_buf *)
Definition get_full_rx_buf (r : radio) : option (option Z * radio) :=
  let nr := next_read r in
  b ← at_index (rx_buf r) nr;
  if 0 <? rb_len b then Some (Some nr, r <| next_read := (nr + 1) mod RX_BUF_COUNT |>) else Some (None, r).

(* src/radio_diver/efr32-radio_V2_corregido.c:168-186 get_empty_rx_buf *)
Definition get_empty_rx_buf (r : radio) : option (option Z * radio) :=
  let nw := next_write r in
  b ← at_index (rx_buf r) nw;
  if rb_len b =? 0 then Some (Some nw, r <| next_write := (nw + 1) mod RX_BUF_COUNT |>) else Some (None, r).

(** An assignment to the buffer with index [i]. *)
Definition on_buf (i : Z) (f : rx_buffer_t -> option rx_buffer_t) (r : radio) : option radio :=
  b ← at_index (rx_buf r) i; b ← f b; Some (r <| rx_buf ::= (fun l => <[Z.to_nat i := b]> l) |>).

(* src/radio_diver/efr32-radio_V2_corregido.c:188-197 free_rx_buf *)
Definition free_rx_buf (i : Z) (r : radio) : option radio := on_buf i (fun b => Some (b <| rb_len := 0 |>)) r.

(* src/radio_diver/efr32-radio_V2_corregido.c:426-434 move_to_rx_buffer *)
Definition release_packet (r : radio) : radio :=
  let r := call RailReleaseRxPacket r in
  if radio_stage r <? 0xE0 then r <| radio_stage := 0x17 |> else r.

(* src/radio_diver/efr32-radio_V2_corregido.c:321-435 move_to_rx_buffer *)
Definition move_to_rx_buffer (p : rail_rx) (r : radio) : option radio :=
  let r := r <| radio_stage := 0x12 |> in
  if negb (rx_handle p) then Some (r <| radio_stage := 0xE1 |>)
  else
    let r := r <| radio_stage := 0x13 |> <| last_rx_time := rx_now p |> in
    if negb (rx_success p) then Some (release_packet (r <| radio_stage := 0xE2 |>))
    else
      let raw_len := packetBytes p in
      if (raw_len <? 1) || (128 <? raw_len) then Some (release_packet (r <| radio_stage := 0xE3 |>))
      else
        let payload_len := raw_len - 1 in
        if 128 <? payload_len then Some (release_packet (r <| radio_stage := 0xE7 |>))
        else if negb (rx_details p) then Some (release_packet (r <| radio_stage := 0xE4 |>))
        else
          let r := r <| radio_stage := 0x14 |> in
          if negb (crcPassed p) then Some (release_packet (r <| radio_stage := 0xE5 |>))
          else
            '(dest, r) ← get_empty_rx_buf r;
            match dest with
            | None => Some (release_packet (r <| radio_stage := 0xE6 |>))
            | Some i =>
                let r := r <| radio_stage := 0x15 |> in
                r ← on_buf i (fun b => buf ← mem_write (rb_buf b) 0 (rx_data p); Some (b <| rb_buf := buf |>)) r;
                r ← (if 0 <? payload_len
                     then on_buf i (fun b => piece ← mem_read (rb_buf b) 1 payload_len; buf ← mem_write (rb_buf b) 0 piece; Some (b <| rb_buf := buf |>)) r
                     else Some r);
                let r := r <| radio_stage := 0x16 |> in
                r ← on_buf i (fun b => Some (b <| rb_rssi := rx_rssi p |> <| rb_lqi := rx_lqi p |> <| rb_len := u8 payload_len |>)) r;
                Some (release_packet r)
            end.

(** ** Interrupts *)

Definition has (e : rail_event) (events : list rail_event) : bool := bool_decide (e ∈ events).

(* src/radio_diver/efr32-radio_V2_corregido.c:437-472 RAILCb_Generic *)
Definition RAILCb_Generic (aEvents : list rail_event) (p : rail_rx) (r : radio) : option radio :=
  let r := if has RAIL_EVENT_TX_ABORTED aEvents || has RAIL_EVENT_TX_BLOCKED aEvents || has RAIL_EVENT_TX_UNDERFLOW aEvents
           then r <| tx_status := TX_ERROR |> else r in
  let r := if has RAIL_EVENT_RX_ACK_TIMEOUT aEvents then r <| tx_status := TX_NO_ACK |> else r in
  r ← (if has RAIL_EVENT_RX_PACKET_RECEIVED aEvents then r ← move_to_rx_buffer p r; Some (call ProcessPoll r) else Some r);
  let r := if has RAIL_EVENT_TX_PACKET_SENT aEvents then r <| tx_status := TX_SENT |> else r in
  let r := if has RAIL_EVENT_TX_CHANNEL_BUSY aEvents then r <| tx_status := TX_CHANNEL_BUSY |> else r in
  Some (if has RAIL_EVENT_CAL_NEEDED aEvents then call RailCalibrate r else r).

(** Interrupts that come one after the other, each with its events. *)
Definition irq : Type := list rail_event * rail_rx.
Definition interrupts (l : list irq) (r : radio) : option radio := ofor l (fun i r => RAILCb_Generic (fst i) (snd i) r) r.

(** ** Reception in the foreground *)

(** The result is the length and, when it is not 0, what was copied to the caller's buffer
    with the attributes of the packet buffer.  Interrupts come between taking the buffer
    and copying it, and between copying and freeing it. *)
(* src/radio_diver/efr32-radio_V2_corregido.c:726-754 read *)
Definition read (bufsize : Z) (before_copy before_free : list irq) (r : radio) : option (Z * option (bytes * Z * Z) * radio) :=
  if bufsize =? 0 then Some (0, None, r)
  else
    '(full, r) ← get_full_rx_buf r;
    match full with
    | None => Some (0, None, r)
    | Some i =>
        r ← interrupts before_copy r;
        b ← at_index (rx_buf r) i;
        let len := rb_len b in
        if bufsize <? len then r ← free_rx_buf i r; Some (0, None, r)
        else
          data ← mem_read (rb_buf b) 0 len;
          r ← interrupts before_free r;
          r ← free_rx_buf i r;
          Some (len, Some (data, rb_rssi b, rb_lqi b), r)
    end.

(* src/radio_diver/efr32-radio_V2_corregido.c:756-760 pending_packet *)
Definition pending_packet (r : radio) : option bool := has_packet r.

(** One turn of the process; [bufsize] is the size of the packet buffer. *)
(* src/radio_diver/efr32-radio_V2_corregido.c:762-791 radio_proc *)
Definition radio_proc (bufsize : Z) (before_copy before_free : list irq) (r : radio) : option radio :=
  full ← has_packet r;
  if (full : bool) then
    '(len, got, r) ← read bufsize before_copy before_free r;
    match got with
    | Some (data, rssi, lqi) => Some (if 0 <? len then call ProcessPoll (call (MacInput data rssi lqi) r) else r)
    | None => Some r
    end
  else Some r.

(** ** Parameters *)

Inductive radio_result_t := RADIO_RESULT_OK | RADIO_RESULT_NOT_SUPPORTED | RADIO_RESULT_INVALID_VALUE | RADIO_RESULT_ERROR.
Inductive radio_param_t := RADIO_PARAM_PAN_ID | RADIO_PARAM_CHANNEL | RADIO_PARAM_RSSI | RADIO_PARAM_64BIT_ADDR | RADIO_PARAM_OTHER (n : Z).

(** The value is what is stored through the pointer, which [is_null] says is not there;
    [rssi] is the reading of RAIL, which may be the constant for an invalid one. *)
(* src/radio_diver/efr32-radio_V2_corregido.c:475-501 get_value *)
Definition get_value (RAIL_RSSI_INVALID : Z) (param : radio_param_t) (is_null : bool) (rssi : Z) (r : radio) : radio_result_t * option Z :=
  if is_null then (RADIO_RESULT_INVALID_VALUE, None)
  else match param with
       | RADIO_PARAM_PAN_ID => (RADIO_RESULT_OK, Some (panid r))
       | RADIO_PARAM_CHANNEL => (RADIO_RESULT_OK, Some (channel r))
       | RADIO_PARAM_RSSI => if negb (rssi =? RAIL_RSSI_INVALID) then (RADIO_RESULT_OK, Some (Z.quot rssi 4)) else (RADIO_RESULT_ERROR, None)
       | _ => (RADIO_RESULT_NOT_SUPPORTED, None)
       end.

(* src/radio_diver/efr32-radio_V2_corregido.c:503-522 set_value *)
Definition set_value (param : radio_param_t) (value : Z) (r : radio) : radio_result_t * radio :=
  match param with
  | RADIO_PARAM_CHANNEL =>
      if (value <? CHANNEL_MIN) || (CHANNEL_MAX <? value) then (RADIO_RESULT_INVALID_VALUE, r)
      else let r := r <| channel := value |> in (RADIO_RESULT_OK, call (RailStartRx (channel r)) r)
  | RADIO_PARAM_PAN_ID => let r := r <| panid := Z.land value 0xffff |> in (RADIO_RESULT_OK, call (RailSetPanId (panid r)) r)
  | _ => (RADIO_RESULT_NOT_SUPPORTED, r)
  end.

(* src/radio_diver/efr32-radio_V2_corregido.c:524-528 get_object *)
Definition get_object (param : radio_param_t) : radio_result_t := RADIO_RESULT_NOT_SUPPORTED.

(* src/radio_diver/efr32-radio_V2_corregido.c:530-546 set_object *)
Definition set_object (param : radio_param_t) (src : option bytes) (size : Z) (r : radio) : option (radio_result_t * radio) :=
  match param with
  | RADIO_PARAM_64BIT_ADDR =>
      match src with
      | Some src =>
          if negb (size =? 8) then Some (RADIO_RESULT_INVALID_VALUE, r)
          else longAddr ← ofor (upto 8) (fun i longAddr => x ← cell src (7 - i); set_cell longAddr i x) (zeros 8);
               Some (RADIO_RESULT_OK, call (RailSetLongAddress longAddr) r)
      | None => Some (RADIO_RESULT_INVALID_VALUE, r)
      end
  | _ => Some (RADIO_RESULT_NOT_SUPPORTED, r)
  end.

(* src/radio_diver/efr32-radio_V2_corregido.c:548-555 channel_clear *)
Definition channel_clear (rssi : Z) : Z := if cca_threshold <? Z.quot rssi 4 then 0 else 1.

(** [handle] says whether RAIL gave a handle. *)
(* src/radio_diver/efr32-radio_V2_corregido.c:269-319 init *)
Definition init (handle : bool) (r : radio) : Z * radio :=
  if negb handle then (0, r)
  else
    let r := call (RailConfigure [RAIL_EVENT_RX_ACK_TIMEOUT; RAIL_EVENT_TX_PACKET_SENT; RAIL_EVENT_RX_PACKET_RECEIVED; RAIL_EVENT_TX_CHANNEL_BUSY;
      RAIL_EVENT_TX_ABORTED; RAIL_EVENT_TX_BLOCKED; RAIL_EVENT_TX_UNDERFLOW; RAIL_EVENT_IEEE802154_DATA_REQUEST_COMMAND; RAIL_EVENT_CAL_NEEDED]
      (-10 * 10) (1 + IEEE802154_MAX_LENGTH)) r in
    (0, call ProcessStart (call (RailStartRx (channel r)) r)).

(** [started] says whether RAIL started to receive. *)
(* src/radio_diver/efr32-radio_V2_corregido.c:706-710 on *)
Definition on (started : bool) (r : radio) : bool * radio := (started, call (RailStartRx (channel r)) r).
(* src/radio_diver/efr32-radio_V2_corregido.c:712-717 off *)
Definition off (r : radio) : Z * radio := (1, call (RailIdle false) r).
(* src/radio_diver/efr32-radio_V2_corregido.c:719-724 receiving_packet *)
Definition receiving_packet : Z := 0.

(** ** Transmission *)

(** What the MAC is told; [RADIO_TX_OK] is the value 0. *)
Inductive radio_tx_t := RADIO_TX_OK | RADIO_TX_ERR | RADIO_TX_COLLISION | RADIO_TX_NOACK.

(** [written1] and [written2] are the numbers of bytes that RAIL took. *)
(* src/radio_diver/efr32-radio_V2_corregido.c:557-592 prepare *)
Definition prepare (payload : option bytes) (payload_len written1 written2 : Z) (r : radio) : option (radio_tx_t * radio) :=
  match payload with
  | None => Some (RADIO_TX_ERR, r)
  | Some data =>
      if payload_len =? 0 then Some (RADIO_TX_ERR, r)
      else if IEEE802154_MAX_LENGTH - 2 <? payload_len then Some (RADIO_TX_ERR, r)
      else
        let plen := u8 (payload_len + 2) in
        let r := call (RailWriteTxFifo [plen] true) r in
        piece ← mem_read data 0 payload_len;
        let r := call (RailWriteTxFifo piece false) r in
        let written := written1 + written2 in
        if negb (written =? payload_len + 1) then Some (RADIO_TX_ERR, r)
        else
          first ← cell data 0;
          Some (RADIO_TX_OK, r <| txOptions := if negb (Z.land first IEEE802154_ACK_REQUEST =? 0) then RAIL_TX_OPTION_WAIT_FOR_ACK else RAIL_TX_OPTIONS_DEFAULT |>)
  end.

Section Transmission.
Context `{Platform}.

(** A reading of a clock and the interrupts before it. *)
Definition reading : Type := list irq * Z.

(* src/radio_diver/efr32-radio_V2_corregido.c:100-100 TX_TIMEOUT_TICKS *)
Definition TX_TIMEOUT_TICKS : Z := CLOCK_SECOND.

(** The wait for the acknowledgement of a packet just received: a turn reads the time for
    the condition and, if it goes on, for the timeout.  Nothing when the readings run out. *)
(* src/radio_diver/efr32-radio_V2_corregido.c:633-640 transmit *)
Fixpoint autoack_wait (readings : list (reading * reading)) (ack_wait_start : Z) (r : radio) : option radio :=
  match readings with
  | [] => None
  | ((irqs1, time1), (irqs2, time2)) :: readings =>
      r ← interrupts irqs1 r;
      if u32 (time1 - last_rx_time r) <? AUTOACK_WAIT_US then
        r ← interrupts irqs2 r;
        if AUTOACK_TIMEOUT_US <? u32 (time2 - ack_wait_start) then Some r else autoack_wait readings ack_wait_start r
      else Some r
  end.

(** The wait for the end of the transmission: a turn tests the status, after the first
    interrupts, and if it goes on reads the clock.  The result says whether it timed out. *)
(* src/radio_diver/efr32-radio_V2_corregido.c:660-672 transmit *)
Fixpoint tx_wait (readings : list (list irq * reading)) (tx_start : Z) (r : radio) : option (bool * radio) :=
  match readings with
  | [] => None
  | (irqs1, (irqs2, time)) :: readings =>
      r ← interrupts irqs1 r;
      if bool_decide (tx_status r = TX_SENDING) then
        r ← interrupts irqs2 r;
        if TX_TIMEOUT_TICKS <? uclk (time - tx_start) then Some (true, (call (RailIdle true) r) <| tx_status := TX_IDLE |>) else tx_wait readings tx_start r
      else Some (false, r)
  end.

(** What comes while a packet is sent, in the order of the code: interrupts before the
    test for a transmission under way, the first reading of the wait for the acknowledgement
    of what was received and the others, the interrupts before RAIL is asked to start,
    whether it accepted the transmission, the first reading of the wait for its end and the others, and the interrupts before each of the
    tests of the status after it. *)
Record tx_course := mk_tx_course {
  tx_entry : list irq;
  tx_ack_start : reading; tx_ack_readings : list (reading * reading);
  tx_begin : list irq; tx_started : bool;
  tx_start : reading; tx_readings : list (list irq * reading);
  tx_late1 : list irq; tx_late2 : list irq; tx_late3 : list irq;
}.

(** What the status after the wait is told to the MAC. *)
(* src/radio_diver/efr32-radio_V2_corregido.c:674-687 transmit *)
Definition tx_result (late1 late2 late3 : list irq) (r : radio) : option (radio_tx_t * radio) :=
  r ← interrupts late1 r;
  if bool_decide (tx_status r = TX_SENT) then Some (RADIO_TX_OK, r)
  else
    r ← interrupts late2 r;
    if bool_decide (tx_status r = TX_NO_ACK) then Some (RADIO_TX_NOACK, r)
    else
      r ← interrupts late3 r;
      if bool_decide (tx_status r = TX_CHANNEL_BUSY) then Some (RADIO_TX_COLLISION, r) else Some (RADIO_TX_ERR, r).

(* src/radio_diver/efr32-radio_V2_corregido.c:594-693 transmit *)
Definition transmit (x : tx_course) (r : radio) : option (radio_tx_t * radio) :=
  let r := if bool_decide (tx_status r = TX_SENT) || bool_decide (tx_status r = TX_NO_ACK) || bool_decide (tx_status r = TX_CHANNEL_BUSY) || bool_decide (tx_status r = TX_ERROR)
           then r <| tx_status := TX_IDLE |> else r in
  r ← interrupts (tx_entry x) r;
  if negb (bool_decide (tx_status r = TX_IDLE)) then Some (RADIO_TX_ERR, r)
  else
    r ← interrupts (fst (tx_ack_start x)) r;
    r ← autoack_wait (tx_ack_readings x) (snd (tx_ack_start x)) r;
    let r := r <| tx_status := TX_SENDING |> in
    r ← interrupts (tx_begin x) r;
    let r := call (RailStartCcaCsmaTx (channel r) (txOptions r)) r in
    if negb (tx_started x) then Some (RADIO_TX_ERR, r <| tx_status := TX_IDLE |>)
    else
      r ← interrupts (fst (tx_start x)) r;
      '(timeout, r) ← tx_wait (tx_readings x) (snd (tx_start x)) r;
      if (timeout : bool) then Some (RADIO_TX_ERR, r)
      else '(ret, r) ← tx_result (tx_late1 x) (tx_late2 x) (tx_late3 x) r; Some (ret, r <| tx_status := TX_IDLE |>).

(* src/radio_diver/efr32-radio_V2_corregido.c:695-704 send *)
Definition send (payload : option bytes) (payload_len written1 written2 : Z) (x : tx_course) (r : radio) : option (radio_tx_t * radio) :=
  '(ret, r) ← prepare payload payload_len written1 written2 r;
  match ret with RADIO_TX_OK => transmit x r | _ => Some (ret, r) end.

End Transmission.
