(* ===== verification/RadioRing.v ===== *)
(** * The receive ring is a queue, and transmissions end

    The ring of Radio against a list of at most four packets, under interrupts at every
    point where the foreground code can be interrupted; how a packet without payload
    breaks it; and what [transmit] returns. *)

From S2P Require Import Prelude Words Platform Radio.

(** ** Packets *)

(** Data, signal strength and quality, as the MAC gets them. *)
Definition packet : Type := bytes * Z * Z.

(** Whether the handler tries to store what RAIL has, and the packet that it is. *)
Definition accepted (p : rail_rx) : bool :=
  rx_handle p && rx_success p && (1 <=? packetBytes p) && (packetBytes p <=? 128) && rx_details p && crcPassed p.
Definition packet_of (p : rail_rx) : packet := (drop 1 (rx_data p), rx_rssi p, rx_lqi p).

(** RAIL copies as many bytes as it said; a packet has a payload. *)
Definition rail_ok (p : rail_rx) : Prop := accepted p = true -> Z.of_nat (length (rx_data p)) = packetBytes p.
Definition has_payload (p : rail_rx) : Prop := accepted p = true -> 2 <= packetBytes p.

(** What the MAC was given. *)
Definition mac_inputs (r : radio) : list packet := omap (fun c => match c with MacInput d a b => Some (d, a, b) | _ => None end) (radio_out r).

(** ** The handler *)

(** Four buffers of 128 bytes, with indices and lengths in range. *)
Definition ring_ok (r : radio) : Prop :=
  length (rx_buf r) = 4%nat /\ Forall (fun b => length (rb_buf b) = 128%nat /\ 0 <= rb_len b <= 127) (rx_buf r) /\ 0 <= next_read r < 4 /\ 0 <= next_write r < 4.

(** All but what the handler writes for a reception. *)
Record same_rest (r r' : radio) : Prop := {
  sr_read : next_read r' = next_read r; sr_status : tx_status r' = tx_status r; sr_panid : panid r' = panid r; sr_channel : channel r' = channel r;
  sr_options : txOptions r' = txOptions r; sr_mac : mac_inputs r' = mac_inputs r;
}.
#[export] Instance same_rest_refl : Reflexive same_rest.
Proof. intros r. constructor; reflexivity. Qed.
#[export] Instance same_rest_trans : Transitive same_rest.
Proof. intros a b c [] []. constructor; congruence. Qed.

(** The buffer holds the packet. *)
Definition holds (b : rx_buffer_t) (k : packet) : Prop :=
  let '(data, rssi, lqi) := k in rb_len b = Z.of_nat (length data) /\ take (length data) (rb_buf b) = data /\ rb_rssi b = rssi /\ rb_lqi b = lqi.

Lemma mac_inputs_call c r : (forall d a b, c <> MacInput d a b) -> mac_inputs (call c r) = mac_inputs r.
Proof.
  intros Hc. unfold mac_inputs, call. rsimpl. rewrite omap_app. destruct c; try apply app_nil_r. destruct (Hc payload rssi lqi eq_refl).
Qed.

Lemma release_rest r : same_rest r (release_packet r) /\ rx_buf (release_packet r) = rx_buf r /\ next_write (release_packet r) = next_write r.
Proof.
  unfold release_packet. set (r1 := call RailReleaseRxPacket r). assert (H : same_rest r r1) by (constructor; try reflexivity; apply mac_inputs_call; discriminate).
  case_if; (split; [|split; reflexivity]); [|exact H]. destruct H. constructor; assumption.
Qed.

(** A reception that stores nothing. *)
Definition unstored (r r' : radio) : Prop := same_rest r r' /\ rx_buf r' = rx_buf r /\ next_write r' = next_write r.
#[export] Instance unstored_trans : Transitive unstored.
Proof. intros a b c (H1 & H2 & H3) (H4 & H5 & H6). split; [etransitivity; eassumption|]. split; congruence. Qed.

Lemma unstored_release r r' : unstored r r' -> unstored r (release_packet r').
Proof. intros H. etransitivity; [exact H|]. destruct (release_rest r') as (H1 & H2 & H3). split; [exact H1|]. split; assumption. Qed.

Lemma on_buf_some i f r b b' : at_index (rx_buf r) i = Some b -> f b = Some b' -> on_buf i f r = Some (r <| rx_buf ::= (fun l => <[Z.to_nat i := b']> l) |>).
Proof. unfold on_buf. intros -> E. rewrite some_bind, E. reflexivity. Qed.

Lemma at_index_insert_eq {A} (l : list A) i x : 0 <= i < Z.of_nat (length l) -> at_index (<[Z.to_nat i := x]> l) i = Some x.
Proof. intros Hi. unfold at_index. destruct (Z.leb_spec 0 i); [|lia]. apply list_lookup_insert_eq. lia. Qed.

(** The bytes of a packet, moved over its length byte. *)
Lemma moved_bytes (buf data : bytes) : length buf = 128%nat -> (1 <= length data <= 128)%nat ->
  exists b1 b2, mem_write buf 0 data = Some b1 /\
    (if 0 <? Z.of_nat (length data) - 1 then piece ← mem_read b1 1 (Z.of_nat (length data) - 1); mem_write b1 0 piece else Some b1) = Some b2 /\
    length b2 = 128%nat /\ take (length (drop 1 data)) b2 = drop 1 data.
Proof.
  intros Hb Hd. rewrite mem_write_total by lia. set (b1 := take _ buf ++ _). exists b1. assert (L1 : length b1 = 128%nat) by (unfold b1; rewrite !length_app, length_take, length_drop; lia).
  rewrite length_drop. destruct (Z.ltb_spec 0 (Z.of_nat (length data) - 1)) as [Hn|Hn].
  - destruct (mem_read_total b1 1 (Z.of_nat (length data) - 1)) as (piece & -> & Lp & Ep); [lia..|]. rewrite some_bind.
    destruct (mem_write b1 0 piece) as [b2|] eqn:E; [|rewrite mem_write_total in E by lia; discriminate E]. exists b2. split; [reflexivity|]. split; [reflexivity|].
    split; [rewrite (mem_write_length _ _ _ _ E); exact L1|]. rewrite mem_write_total in E by lia. injection E as <-.
    rewrite take_app_length' by lia. rewrite Ep. unfold b1. change (take (Z.to_nat 0) buf) with (@nil Z). rewrite app_nil_l.
    change (Z.to_nat 1) with 1%nat. rewrite drop_app_le, take_app_length' by (rewrite ?length_drop; lia). reflexivity.
  - exists b1. split; [reflexivity|]. split; [reflexivity|]. split; [exact L1|]. destruct data as [|x [|]]; cbn in Hd, Hn; try lia. reflexivity.
Qed.

Lemma store_packet p r i b : rail_ok p -> accepted p = true -> length (rx_buf r) = 4%nat -> at_index (rx_buf r) i = Some b -> length (rb_buf b) = 128%nat ->
  exists b' r', (r ← on_buf i (fun b => buf ← mem_write (rb_buf b) 0 (rx_data p); Some (b <| rb_buf := buf |>)) r;
     r ← (if 0 <? packetBytes p - 1
          then on_buf i (fun b => piece ← mem_read (rb_buf b) 1 (packetBytes p - 1); buf ← mem_write (rb_buf b) 0 piece; Some (b <| rb_buf := buf |>)) r
          else Some r);
     let r := r <| radio_stage := 0x16 |> in
     on_buf i (fun b => Some (b <| rb_rssi := rx_rssi p |> <| rb_lqi := rx_lqi p |> <| rb_len := u8 (packetBytes p - 1) |>)) r) = Some r' /\
    same_rest r r' /\ next_write r' = next_write r /\ rx_buf r' = <[Z.to_nat i := b']> (rx_buf r) /\ holds b' (packet_of p) /\ length (rb_buf b') = 128%nat.
Proof.
  intros Hp Ha Lr Hi Lb. specialize (Hp Ha). unfold accepted in Ha. apply andb_true_iff in Ha as [Ha _]. apply andb_true_iff in Ha as [Ha _].
  apply andb_true_iff in Ha as [Ha H128]. apply andb_true_iff in Ha as [_ H1]. apply Z.leb_le in H1, H128.
  pose proof (at_index_some _ _ _ Hi) as [Hir _]. destruct (moved_bytes (rb_buf b) (rx_data p) Lb ltac:(lia)) as (b1 & b2 & E1 & E2 & L2 & T2). rewrite Hp in E2.
  rewrite (on_buf_some i _ r b (b <| rb_buf := b1 |>) Hi) by (rewrite E1; reflexivity). rewrite some_bind. set (r1 := r <| rx_buf ::= _ |>).
  assert (I1 : at_index (rx_buf r1) i = Some (b <| rb_buf := b1 |>)) by (unfold r1; rsimpl; apply at_index_insert_eq, Hir).
  assert (Hmid : exists r2, (if 0 <? packetBytes p - 1
          then on_buf i (fun b => piece ← mem_read (rb_buf b) 1 (packetBytes p - 1); buf ← mem_write (rb_buf b) 0 piece; Some (b <| rb_buf := buf |>)) r1
          else Some r1) = Some r2 /\ same_rest r r2 /\ next_write r2 = next_write r /\ rx_buf r2 = <[Z.to_nat i := b <| rb_buf := b2 |>]> (rx_buf r)).
  { assert (S1 : same_rest r r1) by (constructor; reflexivity). destruct (0 <? packetBytes p - 1).
    - destruct (mem_read b1 1 (packetBytes p - 1)) as [piece|] eqn:Er; [rewrite some_bind in E2|discriminate E2].
      rewrite (on_buf_some i _ r1 _ (b <| rb_buf := b2 |>) I1) by (rsimpl; rewrite Er, some_bind, E2; reflexivity).
      eexists. split; [reflexivity|]. split; [etransitivity; [exact S1|constructor; reflexivity]|]. split; [reflexivity|]. rsimpl. unfold r1. rsimpl. apply list_insert_insert_eq.
    - injection E2 as ->. exists r1. auto. }
  destruct Hmid as (r2 & -> & S2 & N2 & B2). rewrite some_bind. cbv zeta. set (r3 := r2 <| radio_stage := 0x16 |>).
  assert (I3 : at_index (rx_buf r3) i = Some (b <| rb_buf := b2 |>)) by (unfold r3; rsimpl; rewrite B2; apply at_index_insert_eq, Hir).
  erewrite on_buf_some; [|exact I3|reflexivity]. eexists _, _. split; [reflexivity|]. split; [etransitivity; [exact S2|constructor; reflexivity]|]. split; [exact N2|].
  split; [unfold r3; rsimpl; rewrite B2; apply list_insert_insert_eq|]. split; [|exact L2]. unfold holds, packet_of. rsimpl.
  rewrite length_drop, u8_id by (unfold is_u8, in_width; lia). split; [lia|]. split; [rewrite length_drop in T2; exact T2|]. auto.
Qed.

(** What the handler does with a packet: it stores it in the next buffer when that is empty. *)
Definition stored (p : rail_rx) (r r' : radio) : Prop := accepted p = true /\ exists b b',
  at_index (rx_buf r) (next_write r) = Some b /\ rb_len b = 0 /\ rx_buf r' = <[Z.to_nat (next_write r) := b']> (rx_buf r) /\
  next_write r' = (next_write r + 1) mod 4 /\ holds b' (packet_of p) /\ length (rb_buf b') = 128%nat.
Definition refused (p : rail_rx) (r r' : radio) : Prop := rx_buf r' = rx_buf r /\ next_write r' = next_write r /\
  (accepted p = true -> exists b, at_index (rx_buf r) (next_write r) = Some b /\ rb_len b <> 0).

Lemma ring_ok_at r i : ring_ok r -> 0 <= i < 4 -> exists b, at_index (rx_buf r) i = Some b /\ length (rb_buf b) = 128%nat /\ 0 <= rb_len b <= 127.
Proof.
  intros (Hl & Hf & _) Hi. destruct (at_index_total (rx_buf r) i) as [b Hb]; [lia|]. exists b. split; [exact Hb|].
  apply at_index_some in Hb as [_ Hb]. exact (proj1 (list.Forall_lookup _ _) Hf _ b Hb).
Qed.

Lemma refused_unstored p r r' : accepted p = false -> unstored r r' -> same_rest r r' /\ refused p r r'.
Proof. intros Ha (H1 & H2 & H3). split; [exact H1|]. split; [exact H2|]. split; [exact H3|]. rewrite Ha. discriminate. Qed.

Lemma move_spec p r : ring_ok r -> rail_ok p -> exists r', move_to_rx_buffer p r = Some r' /\ same_rest r r' /\ (stored p r r' \/ refused p r r').
Proof.
  intros Hr Hp. enough (H : exists r', move_to_rx_buffer p r = Some r' /\ ((accepted p = false /\ unstored r r') \/ (same_rest r r' /\ (stored p r r' \/ (accepted p = true /\ refused p r r'))))).
  { destruct H as (r' & E & [[Ha Hu]|[Hs [H|[_ H]]]]); exists r'; split; try exact E.
    - destruct (refused_unstored p r r' Ha Hu) as [H1 H2]. auto.
    - auto.
    - auto. }
  unfold move_to_rx_buffer. cbv zeta. set (r1 := r <| radio_stage := 0x12 |>). assert (U1 : unstored r r1) by (split; [constructor; reflexivity|split; reflexivity]).
  assert (Ustage : forall r' v, unstored r r' -> unstored r (r' <| radio_stage := v |>)).
  { intros r' v H. etransitivity; [exact H|]. split; [constructor; reflexivity|split; reflexivity]. }
  assert (Hacc : accepted p = rx_handle p && rx_success p && (1 <=? packetBytes p) && (packetBytes p <=? 128) && rx_details p && crcPassed p) by reflexivity.
  destruct (rx_handle p); cbn [negb andb] in *; [|eexists; split; [reflexivity|]; left; split; [exact Hacc|apply Ustage, U1]].
  set (r2 := r1 <| radio_stage := 0x13 |> <| last_rx_time := rx_now p |>). assert (U2 : unstored r r2).
  { etransitivity; [exact U1|]. split; [constructor; reflexivity|split; reflexivity]. }
  destruct (rx_success p); cbn [negb andb] in *; [|eexists; split; [reflexivity|]; left; split; [exact Hacc|apply unstored_release, Ustage, U2]].
  destruct (Z.ltb_spec (packetBytes p) 1) as [H1|H1]; cbn [orb]; [|destruct (Z.ltb_spec 128 (packetBytes p)) as [H2|H2]].
  1,2: eexists; (split; [reflexivity|]); left; (split; [|apply unstored_release, Ustage, U2]); rewrite Hacc;
    destruct (Z.leb_spec 1 (packetBytes p)), (Z.leb_spec (packetBytes p) 128); try lia; reflexivity.
  destruct (Z.leb_spec 1 (packetBytes p)), (Z.leb_spec (packetBytes p) 128); try lia. cbn [andb] in Hacc. destruct (Z.ltb_spec 128 (packetBytes p - 1)) as [H3|_]; [lia|].
  destruct (rx_details p); cbn [negb andb] in *; [|eexists; split; [reflexivity|]; left; split; [exact Hacc|apply unstored_release, Ustage, U2]].
  destruct (crcPassed p); cbn [negb andb] in *; [|eexists; split; [reflexivity|]; left; split; [exact Hacc|apply unstored_release, Ustage, Ustage, U2]].
  set (r3 := r2 <| radio_stage := 0x14 |>). assert (U3 : unstored r r3) by (apply Ustage, U2). destruct U3 as (S3 & B3 & N3).
  destruct (ring_ok_at r (next_write r) Hr ltac:(apply Hr)) as (b & Hb & Lb & Rb). unfold get_empty_rx_buf. cbv zeta. rewrite B3, N3, Hb, some_bind.
  destruct (Z.eqb_spec (rb_len b) 0) as [Hz|Hnz]; rewrite some_bind; cbv beta iota.
  - set (r4 := r3 <| next_write := _ |> <| radio_stage := _ |>).
    destruct (store_packet p r4 (next_write r) b Hp Hacc) as (b' & r' & E & S4 & N4 & B4 & Hh & L'); [unfold r4; rsimpl; rewrite B3; apply Hr|unfold r4; rsimpl; rewrite B3; exact Hb|exact Lb|].
    destruct (on_buf (next_write r) _ r4) as [x1|]; [rewrite some_bind in E |- *|discriminate E].
    destruct (if 0 <? packetBytes p - 1 then _ else _) as [x2|]; [rewrite some_bind in E |- *|discriminate E]. cbv zeta in E. rewrite E, some_bind.
    eexists. split; [reflexivity|]. right. destruct (release_rest r') as (Sr & Br & Nr). assert (S34 : same_rest r r4) by (etransitivity; [exact S3|constructor; reflexivity]).
    split; [etransitivity; [exact S34|etransitivity; [exact S4|exact Sr]]|]. left. split; [exact Hacc|]. exists b, b'. split; [exact Hb|]. split; [exact Hz|].
    split; [rewrite Br, B4; unfold r4; rsimpl; rewrite B3; reflexivity|]. split; [rewrite Nr, N4; unfold r4; rsimpl; reflexivity|]. auto.
  - eexists. split; [reflexivity|]. right. assert (U4 : unstored r (release_packet (r3 <| radio_stage := 0xE6 |>))) by (apply unstored_release, Ustage; split; [exact S3|auto]).
    destruct U4 as (S4 & B4 & N4). split; [exact S4|]. right. split; [exact Hacc|]. split; [exact B4|]. split; [exact N4|]. intros _. exists b. auto.
Qed.

(** ** Interrupts *)

(** What the events of one interrupt make of the status of the transmission. *)
Definition status_after (events : list rail_event) (s : tx_status_t) : tx_status_t :=
  if has RAIL_EVENT_TX_CHANNEL_BUSY events then TX_CHANNEL_BUSY
  else if has RAIL_EVENT_TX_PACKET_SENT events then TX_SENT
  else if has RAIL_EVENT_RX_ACK_TIMEOUT events then TX_NO_ACK
  else if has RAIL_EVENT_TX_ABORTED events || has RAIL_EVENT_TX_BLOCKED events || has RAIL_EVENT_TX_UNDERFLOW events then TX_ERROR
  else s.

(** What an interrupt leaves to the foreground code. *)
Record kept (r r' : radio) : Prop := {
  kept_read : next_read r' = next_read r; kept_panid : panid r' = panid r; kept_channel : channel r' = channel r;
  kept_options : txOptions r' = txOptions r; kept_mac : mac_inputs r' = mac_inputs r;
}.
#[export] Instance kept_refl : Reflexive kept.
Proof. intros r. constructor; reflexivity. Qed.
#[export] Instance kept_trans : Transitive kept.
Proof. intros a b c [] []. constructor; congruence. Qed.

Definition received (events : list rail_event) (p : rail_rx) (r r' : radio) : Prop :=
  if has RAIL_EVENT_RX_PACKET_RECEIVED events then stored p r r' \/ refused p r r' else rx_buf r' = rx_buf r /\ next_write r' = next_write r.

Definition irq_ok (i : irq) : Prop := rail_ok (snd i).

(** A step that changes the status, or calls something else than the MAC. *)
Lemma status_kept s r : kept r (r <| tx_status := s |>).
Proof. constructor; reflexivity. Qed.
Lemma call_kept c r : (forall d a b, c <> MacInput d a b) -> kept r (call c r).
Proof. intros Hc. constructor; try reflexivity. apply mac_inputs_call, Hc. Qed.

Lemma stored_ext p r1 r2 r1' r2' : rx_buf r1 = rx_buf r2 -> next_write r1 = next_write r2 -> rx_buf r1' = rx_buf r2' -> next_write r1' = next_write r2' ->
  stored p r1 r1' \/ refused p r1 r1' -> stored p r2 r2' \/ refused p r2 r2'.
Proof. unfold stored, refused. intros -> -> -> ->. auto. Qed.

Lemma irq_spec i r : ring_ok r -> irq_ok i -> exists r', RAILCb_Generic (fst i) (snd i) r = Some r' /\
  kept r r' /\ tx_status r' = status_after (fst i) (tx_status r) /\ received (fst i) (snd i) r r'.
Proof.
  destruct i as [events p]. intros Hr Hp. unfold irq_ok in Hp. cbn [fst snd] in *. unfold RAILCb_Generic, received, status_after. cbv zeta.
  set (bad := has RAIL_EVENT_TX_ABORTED events || has RAIL_EVENT_TX_BLOCKED events || has RAIL_EVENT_TX_UNDERFLOW events).
  set (r1 := if bad then r <| tx_status := TX_ERROR |> else r). set (r2 := if has RAIL_EVENT_RX_ACK_TIMEOUT events then r1 <| tx_status := TX_NO_ACK |> else r1).
  assert (K1 : kept r r1) by (unfold r1; destruct bad; [apply status_kept|reflexivity]).
  assert (K2 : kept r r2) by (etransitivity; [exact K1|]; unfold r2; case_if; [apply status_kept|reflexivity]).
  assert (R2 : ring_ok r2 /\ rx_buf r2 = rx_buf r /\ next_write r2 = next_write r) by (unfold r2, r1; destruct bad; case_if; (split; [exact Hr|split; reflexivity])).
  assert (T2 : tx_status r2 = if has RAIL_EVENT_RX_ACK_TIMEOUT events then TX_NO_ACK else if bad then TX_ERROR else tx_status r) by (unfold r2, r1; destruct bad; case_if; reflexivity).
  destruct R2 as (R2 & B2 & N2). clearbody r2. clear r1 K1.
  assert (Hmid : exists r3, (if has RAIL_EVENT_RX_PACKET_RECEIVED events then r ← move_to_rx_buffer p r2; Some (call ProcessPoll r) else Some r2) = Some r3 /\
    kept r r3 /\ tx_status r3 = tx_status r2 /\
    if has RAIL_EVENT_RX_PACKET_RECEIVED events then stored p r r3 \/ refused p r r3 else rx_buf r3 = rx_buf r /\ next_write r3 = next_write r).
  { destruct (has RAIL_EVENT_RX_PACKET_RECEIVED events); [|exists r2; auto]. destruct (move_spec p r2 R2 Hp) as (r3 & -> & [] & Hs). rewrite some_bind.
    eexists. split; [reflexivity|]. split; [|split; [exact sr_status0|]].
    - etransitivity; [exact K2|]. etransitivity; [constructor; eassumption|]. apply call_kept. discriminate.
    - exact (stored_ext p r2 r r3 _ B2 N2 eq_refl eq_refl Hs). }
  destruct Hmid as (r3 & -> & K3 & T3 & Hrec). rewrite some_bind. rewrite T2 in T3. clear T2.
  set (r4 := if has RAIL_EVENT_TX_PACKET_SENT events then r3 <| tx_status := TX_SENT |> else r3).
  set (r5 := if has RAIL_EVENT_TX_CHANNEL_BUSY events then r4 <| tx_status := TX_CHANNEL_BUSY |> else r4).
  assert (K5 : kept r r5 /\ rx_buf r5 = rx_buf r3 /\ next_write r5 = next_write r3).
  { unfold r5, r4. repeat case_if; (split; [repeat (etransitivity; [|apply status_kept]); exact K3|split; reflexivity]). }
  destruct K5 as (K5 & B5 & N5).
  eexists. split; [reflexivity|]. split; [case_if; [etransitivity; [exact K5|apply call_kept; discriminate]|exact K5]|]. split.
  - assert (T5 : tx_status (if has RAIL_EVENT_CAL_NEEDED events then call RailCalibrate r5 else r5) = tx_status r5) by (case_if; reflexivity).
    rewrite T5. unfold r5, r4. repeat case_if; try reflexivity; exact T3.
  - assert (E : forall b, rx_buf (if b : bool then call RailCalibrate r5 else r5) = rx_buf r3 /\ next_write (if b then call RailCalibrate r5 else r5) = next_write r3) by (intros []; auto).
    destruct (E (has RAIL_EVENT_CAL_NEEDED events)) as [E1 E2]. destruct (has RAIL_EVENT_RX_PACKET_RECEIVED events); [|rewrite E1, E2; exact Hrec].
    exact (stored_ext p r r r3 _ eq_refl eq_refl (eq_sym E1) (eq_sym E2) Hrec).
Qed.

Lemma stored_ring p r r' : ring_ok r -> next_read r' = next_read r -> stored p r r' \/ refused p r r' -> rail_ok p -> ring_ok r'.
Proof.
  intros (Hl & Hf & Hn & Hw) Hr [(Ha & b & b' & _ & _ & Eb & En & Hh & Lb)|(Eb & En & _)] Hp; unfold ring_ok; rewrite Eb, En, Hr; [|auto].
  specialize (Hp Ha). split; [rewrite length_insert; exact Hl|]. split; [|split; [exact Hn|apply Z.mod_pos_bound; lia]]. apply Forall_insert; [exact Hf|]. split; [exact Lb|].
  unfold holds, packet_of in Hh. destruct Hh as [-> _]. rewrite length_drop. unfold accepted in Ha. rewrite !andb_true_iff in Ha. destruct Ha as [[[_ H128] _] _]. apply Z.leb_le in H128. lia.
Qed.
Lemma received_ring i r r' : ring_ok r -> irq_ok i -> kept r r' -> received (fst i) (snd i) r r' -> ring_ok r'.
Proof.
  intros Hr Hp K Hrec. unfold received in Hrec. destruct (has _ _); [exact (stored_ring _ r r' Hr (kept_read _ _ K) Hrec Hp)|].
  destruct Hrec as [Eb En]. destruct Hr as (H1 & H2 & H3 & H4). unfold ring_ok. rewrite Eb, En, (kept_read _ _ K). auto.
Qed.

(** ** The queue *)

(** The buffers from [base] on hold the packets of the queue, the others are empty. *)
Record ring (base : Z) (q : list packet) (r : radio) : Prop := {
  rg_ok : ring_ok r;
  rg_base : 0 <= base < 4;
  rg_length : (length q <= 4)%nat;
  rg_write : next_write r = (base + Z.of_nat (length q)) mod 4;
  rg_full : forall k x, q !! k = Some x -> exists b, at_index (rx_buf r) ((base + Z.of_nat k) mod 4) = Some b /\ holds b x /\ 0 < rb_len b;
  rg_empty : forall k, (length q <= k < 4)%nat -> exists b, at_index (rx_buf r) ((base + Z.of_nat k) mod 4) = Some b /\ rb_len b = 0;
}.

Definition enqueue (p : rail_rx) (q : list packet) : list packet := if accepted p && (length q <? 4)%nat then q ++ [packet_of p] else q.
Definition enqueue_irq (q : list packet) (i : irq) : list packet := if has RAIL_EVENT_RX_PACKET_RECEIVED (fst i) then enqueue (snd i) q else q.
Definition enqueue_irqs (q : list packet) (l : list irq) : list packet := foldl enqueue_irq q l.

Lemma mod4_eq base j k : 0 <= j < 4 -> 0 <= k < 4 -> (base + j) mod 4 = (base + k) mod 4 -> j = k.
Proof. intros. Z.to_euclidean_division_equations; lia. Qed.

Lemma at_index_insert_ne {A} (l : list A) i j x : 0 <= i -> 0 <= j -> i <> j -> at_index (<[Z.to_nat i := x]> l) j = at_index l j.
Proof. intros Hi Hj Hne. unfold at_index. destruct (Z.leb_spec 0 j); [|lia]. apply list_lookup_insert_ne. lia. Qed.

Lemma enqueue_irqs_prefix q l : exists q', enqueue_irqs q l = q ++ q'.
Proof.
  revert q. induction l as [|i l IH]; intros q; [exists []; symmetry; apply app_nil_r|]. cbn [enqueue_irqs foldl]. destruct (IH (enqueue_irq q i)) as [q' Hq'].
  unfold enqueue_irqs in Hq'. rewrite Hq'. unfold enqueue_irq, enqueue. repeat case_match; [rewrite <- app_assoc|..]; eauto.
Qed.

Lemma ring_irq base q r r' i : ring base q r -> irq_ok i -> has_payload (snd i) -> kept r r' -> received (fst i) (snd i) r r' -> ring base (enqueue_irq q i) r'.
Proof.
  intros [Hok Hb Hl Hw Hf He] Hi Hpay K Hrec. pose proof (received_ring i r r' Hok Hi K Hrec) as Hok'. unfold received in Hrec. unfold enqueue_irq.
  destruct (has RAIL_EVENT_RX_PACKET_RECEIVED (fst i)); [|destruct Hrec as [Eb En]; constructor; rewrite ?Eb, ?En; assumption]. unfold enqueue.
  destruct Hrec as [(Ha & b & b' & Hat & Hz & Eb & En & Hh & _)|(Eb & En & Hacc)].
  - rewrite Ha. destruct (Nat.ltb_spec (length q) 4) as [Hlt|Hge]; cbn [andb].
    + assert (Hpos : 0 < rb_len b').
      { specialize (Hpay Ha). specialize (Hi Ha). unfold holds, packet_of in Hh. destruct Hh as [-> _]. rewrite length_drop. lia. }
      assert (Hlen : length (rx_buf r) = 4%nat) by apply Hok. pose proof (Z.mod_pos_bound (base + Z.of_nat (length q)) 4 ltac:(lia)) as Hm.
      assert (Hother : forall k, (k < 4)%nat -> k <> length q -> at_index (rx_buf r') ((base + Z.of_nat k) mod 4) = at_index (rx_buf r) ((base + Z.of_nat k) mod 4)).
      { intros k Hk Hne. rewrite Eb, Hw. apply at_index_insert_ne; [lia|apply Z.mod_pos_bound; lia|]. intros E. apply mod4_eq in E; lia. }
      constructor; [exact Hok'|exact Hb|rewrite length_app; cbn; lia| | |].
      * rewrite En, Hw, length_app. cbn [length]. rewrite Zplus_mod_idemp_l. f_equal. lia.
      * intros k x Hx. apply lookup_snoc_Some in Hx as [[Hk Hx]|[-> <-]]; [rewrite Hother by lia; exact (Hf k x Hx)|].
        exists b'. rewrite Eb, Hw, at_index_insert_eq by lia. auto.
      * intros k Hk. rewrite length_app in Hk. cbn in Hk. rewrite Hother by lia. apply He. lia.
    + exfalso. assert (Hq : exists x, q !! 0%nat = Some x) by (apply lookup_lt_is_Some_2; lia). destruct Hq as [x Hx]. destruct (Hf 0%nat x Hx) as (b0 & Hb0 & _ & Hpos).
      assert (E : (base + Z.of_nat 0) mod 4 = next_write r) by (rewrite Hw; Z.to_euclidean_division_equations; lia). rewrite E, Hat in Hb0. injection Hb0 as <-. lia.
  - assert (Hsame : ring base q r') by (constructor; rewrite ?Eb, ?En; assumption). destruct (accepted (snd i)) eqn:Ha; [|exact Hsame].
    destruct (Nat.ltb_spec (length q) 4) as [Hlt|Hge]; cbn [andb]; [|exact Hsame]. exfalso. destruct (Hacc eq_refl) as (b & Hat & Hnz).
    destruct (He (length q) ltac:(lia)) as (b0 & Hb0 & Hz). rewrite <- Hw, Hat in Hb0. injection Hb0 as <-. contradiction.
Qed.

Definition payload_irq (i : irq) : Prop := irq_ok i /\ has_payload (snd i).
Definition statuses (s : tx_status_t) (l : list irq) : tx_status_t := foldl (fun s i => status_after (fst i) s) s l.

Lemma interrupts_ok l : forall r, ring_ok r -> Forall irq_ok l -> exists r', interrupts l r = Some r' /\ kept r r' /\ ring_ok r' /\ tx_status r' = statuses (tx_status r) l.
Proof.
  induction l as [|i l IH]; intros r Hr Hl; [exists r; split; [reflexivity|]; split; [reflexivity|]; auto|]. apply list.Forall_cons in Hl as [Hi Hl].
  destruct (irq_spec i r Hr Hi) as (r1 & E1 & K1 & T1 & Hrec). pose proof (received_ring i r r1 Hr Hi K1 Hrec) as Hr1. destruct (IH r1 Hr1 Hl) as (r2 & E2 & K2 & Hr2 & T2).
  exists r2. cbn [interrupts ofor]. rewrite E1, some_bind. split; [exact E2|]. split; [etransitivity; eassumption|]. split; [exact Hr2|]. rewrite T2, T1. reflexivity.
Qed.

Lemma interrupts_ring base l : forall q r, ring base q r -> Forall payload_irq l -> exists r', interrupts l r = Some r' /\ kept r r' /\ ring base (enqueue_irqs q l) r'.
Proof.
  induction l as [|i l IH]; intros q r Hr Hl; [exists r; split; [reflexivity|]; split; [reflexivity|exact Hr]|]. apply list.Forall_cons in Hl as [[Hi Hp] Hl].
  destruct (irq_spec i r (rg_ok _ _ _ Hr) Hi) as (r1 & E1 & K1 & _ & Hrec). destruct (IH (enqueue_irq q i) r1 (ring_irq base q r r1 i Hr Hi Hp K1 Hrec) Hl) as (r2 & E2 & K2 & Hr2).
  exists r2. cbn [interrupts ofor]. rewrite E1, some_bind. split; [exact E2|]. split; [etransitivity; eassumption|exact Hr2].
Qed.

(** ** The process *)

Lemma ring_head base x q r : ring base (x :: q) r -> exists b, at_index (rx_buf r) base = Some b /\ holds b x /\ 0 < rb_len b.
Proof.
  intros Hr. destruct (rg_full _ _ _ Hr 0%nat x eq_refl) as (b & Hb & H). exists b. rewrite <- Hb. split; [|exact H]. f_equal.
  pose proof (rg_base _ _ _ Hr). change (Z.of_nat 0) with 0. rewrite Z.add_0_r, Z.mod_small by lia. reflexivity.
Qed.
Lemma ring_none base r : ring base [] r -> exists b, at_index (rx_buf r) base = Some b /\ rb_len b = 0.
Proof.
  intros Hr. destruct (rg_empty _ _ _ Hr 0%nat ltac:(cbn; lia)) as (b & Hb & H). exists b. rewrite <- Hb. split; [|exact H]. f_equal.
  pose proof (rg_base _ _ _ Hr). change (Z.of_nat 0) with 0. rewrite Z.add_0_r, Z.mod_small by lia. reflexivity.
Qed.

Lemma ring_pending q r : ring (next_read r) q r -> has_packet r = Some (negb (bool_decide (q = []))).
Proof.
  intros Hr. unfold has_packet. destruct q as [|x q].
  - destruct (ring_none _ _ Hr) as (b & -> & Hz). rewrite some_bind, Hz. reflexivity.
  - destruct (ring_head _ _ _ _ Hr) as (b & -> & _ & Hp). rewrite some_bind. destruct (Z.ltb_spec 0 (rb_len b)); [reflexivity|lia].
Qed.

(** Freeing the first buffer. *)
Lemma free_ring base x q r : ring base (x :: q) r -> next_read r = (base + 1) mod 4 -> exists r', free_rx_buf base r = Some r' /\ ring (next_read r') q r' /\ mac_inputs r' = mac_inputs r.
Proof.
  intros Hr Hn. destruct (ring_head _ _ _ _ Hr) as (b & Hb & _). pose proof (rg_ok _ _ _ Hr) as (Hlen & Hfor & Hnr & Hnw). pose proof (rg_base _ _ _ Hr) as Hbase.
  unfold free_rx_buf. rewrite (on_buf_some base _ r b (b <| rb_len := 0 |>) Hb eq_refl). eexists. split; [reflexivity|]. split; [|reflexivity]. rsimpl. rewrite Hn.
  pose proof (rg_length _ _ _ Hr) as Hl. cbn [length] in Hl. pose proof (proj2 (at_index_some _ _ _ Hb)) as Hlook.
  assert (Hmod : forall k, 0 <= k -> ((base + 1) mod 4 + k) mod 4 = (base + (k + 1)) mod 4) by (intros k Hk; rewrite Zplus_mod_idemp_l; f_equal; lia).
  assert (Hother : forall k, 1 <= k < 4 -> at_index (<[Z.to_nat base := b <| rb_len := 0 |>]> (rx_buf r)) ((base + k) mod 4) = at_index (rx_buf r) ((base + k) mod 4)).
  { intros k Hk. pose proof (Z.mod_pos_bound (base + k) 4 ltac:(lia)). apply at_index_insert_ne; [lia|lia|]. Z.to_euclidean_division_equations; lia. }
  constructor; rsimpl.
  - split; [rsimpl; rewrite length_insert; exact Hlen|]. rsimpl. split; [|split; assumption]. apply Forall_insert; [exact Hfor|]. rsimpl.
    pose proof (proj1 (list.Forall_lookup _ _) Hfor _ b Hlook) as [Lb _]. split; [exact Lb|lia].
  - apply Z.mod_pos_bound. lia.
  - lia.
  - rewrite (rg_write _ _ _ Hr). cbn [length]. rewrite Hmod by lia. f_equal. lia.
  - intros k y Hk. pose proof (lookup_lt_Some _ _ _ Hk). rewrite Hmod, Hother by lia. replace (Z.of_nat k + 1) with (Z.of_nat (S k)) by lia. apply (rg_full _ _ _ Hr (S k) y). exact Hk.
  - intros k Hk. rewrite Hmod by lia. replace (Z.of_nat k + 1) with (Z.of_nat (S k)) by lia. destruct (decide (S k = 4)%nat) as [E|Hne].
    + exists (b <| rb_len := 0 |>). split; [|reflexivity]. replace ((base + Z.of_nat (S k)) mod 4) with base by (rewrite E; Z.to_euclidean_division_equations; lia).
      apply at_index_insert_eq. lia.
    + rewrite Hother by lia. apply (rg_empty _ _ _ Hr). cbn [length]. lia.
Qed.

Lemma ring_call base q c r : ring base q r -> ring base q (call c r).
Proof. intros [A1 A2 A3 A4 A5 A6]. exact (Build_ring base q (call c r) A1 A2 A3 A4 A5 A6). Qed.

(** One turn: nothing when the queue is empty, else its first packet goes to the MAC. *)
Lemma radio_proc_spec bufsize l1 l2 q r : 127 <= bufsize -> ring (next_read r) q r -> Forall payload_irq l1 -> Forall payload_irq l2 ->
  exists r', radio_proc bufsize l1 l2 r = Some r' /\ match q with
    | [] => r' = r
    | x :: _ => ring (next_read r') (tail (enqueue_irqs (enqueue_irqs q l1) l2)) r' /\ mac_inputs r' = mac_inputs r ++ [x]
    end.
Proof.
  intros Hsize Hr H1 H2. unfold radio_proc. rewrite (ring_pending q r Hr), some_bind. destruct q as [|x q]; [exists r; auto|]. rewrite bool_decide_false by discriminate. cbn [negb].
  unfold read. destruct (Z.eqb_spec bufsize 0); [lia|]. unfold get_full_rx_buf. cbv zeta. set (base := next_read r) in *.
  destruct (ring_head _ _ _ _ Hr) as (b & Hb & Hh & Hp). rewrite Hb, some_bind. destruct (Z.ltb_spec 0 (rb_len b)); [|lia]. rewrite some_bind. cbv beta iota.
  set (r1 := r <| next_read := _ |>). assert (Hr1 : ring base (x :: q) r1).
  { destruct Hr as [(A1 & A2 & A3 & A4) A5 A6 A7 A8 A9]. constructor; try assumption. split; [exact A1|]. split; [exact A2|]. split; [apply Z.mod_pos_bound; reflexivity|exact A4]. }
  destruct (interrupts_ring base l1 _ r1 Hr1 H1) as (r2 & -> & K2 & Hr2). rewrite some_bind. destruct (enqueue_irqs_prefix (x :: q) l1) as (q1 & E1). rewrite E1 in *. cbn [app] in *.
  destruct (ring_head _ _ _ _ Hr2) as (b2 & Hb2 & Hh2 & Hp2). rewrite Hb2, some_bind. pose proof (rg_ok _ _ _ Hr2) as Hok2.
  pose proof (proj2 (at_index_some _ _ _ Hb2)) as Hlook2. pose proof (proj1 (list.Forall_lookup _ _) (proj1 (proj2 Hok2)) _ b2 Hlook2) as [Lb2 Rb2].
  destruct (Z.ltb_spec bufsize (rb_len b2)); [lia|]. destruct (mem_read_total (rb_buf b2) 0 (rb_len b2)) as (data & -> & _ & Ed); [lia..|]. rewrite some_bind.
  destruct (interrupts_ring base l2 _ r2 Hr2 H2) as (r3 & -> & K3 & Hr3). rewrite some_bind. destruct (enqueue_irqs_prefix (x :: q ++ q1) l2) as (q2 & E2). rewrite E2 in *. cbn [app] in *.
  assert (Hn3 : next_read r3 = (base + 1) mod 4) by (rewrite (kept_read _ _ K3), (kept_read _ _ K2); reflexivity).
  destruct (free_ring base x _ r3 Hr3 Hn3) as (r4 & -> & Hr4 & M4). rewrite !some_bind. cbv beta iota zeta. rewrite (proj2 (Z.ltb_lt 0 (rb_len b2)) Hp2).
  eexists. split; [reflexivity|]. cbn [tail]. split.
  - exact (ring_call (next_read r4) _ _ _ (ring_call (next_read r4) _ _ _ Hr4)).
  - rewrite mac_inputs_call by discriminate. unfold mac_inputs at 1, call. rsimpl. rewrite omap_app. fold (mac_inputs r4). cbn [omap list_omap].
    rewrite M4, (kept_mac _ _ K3), (kept_mac _ _ K2). change (mac_inputs r1) with (mac_inputs r). do 2 f_equal. destruct x as [[d a] c]. unfold holds in Hh2. destruct Hh2 as (El & Et & <- & <-).
    rewrite Ed, El, Nat2Z.id. change (Z.to_nat 0) with 0%nat. rewrite drop_0, Et. reflexivity.
Qed.

(** ** Runs *)

(** What happens: an interrupt, or a turn of the process with the interrupts that come inside it. *)
Inductive radio_input := Interrupt (i : irq) | Turn (before_copy before_free : list irq).
Definition input_irqs (x : radio_input) : list irq := match x with Interrupt i => [i] | Turn l1 l2 => l1 ++ l2 end.

Definition radio_step (bufsize : Z) (x : radio_input) (r : radio) : option radio :=
  match x with Interrupt i => RAILCb_Generic (fst i) (snd i) r | Turn l1 l2 => radio_proc bufsize l1 l2 r end.
Definition radio_run (bufsize : Z) (l : list radio_input) (r : radio) : option radio := ofor l (radio_step bufsize) r.

(** The same on a queue of four packets: what waits and what the MAC has been given. *)
Definition queue_step (s : list packet * list packet) (x : radio_input) : list packet * list packet :=
  let '(q, out) := s in
  match x with
  | Interrupt i => (enqueue_irq q i, out)
  | Turn l1 l2 => match q with [] => (q, out) | y :: _ => (tail (enqueue_irqs (enqueue_irqs q l1) l2), out ++ [y]) end
  end.
Definition queue_run (l : list radio_input) : list packet * list packet := foldl queue_step ([], []) l.

Lemma ring_boot : ring 0 [] radio_boot.
Proof.
  constructor; [|lia|cbn; lia|reflexivity|intros k x Hk; discriminate Hk|].
  - split; [reflexivity|]. split; [|split; split; reflexivity || discriminate]. apply Forall_replicate. split; [reflexivity|split; discriminate].
  - intros k Hk. cbn [length] in Hk. exists (mk_rx_buffer 0 0 0 (zeros 128)). split; [|reflexivity]. rewrite Z.add_0_l, Z.mod_small by lia. rewrite at_index_nat. apply lookup_replicate_2. lia.
Qed.

Lemma radio_run_ring bufsize l : 127 <= bufsize -> Forall (fun x => Forall payload_irq (input_irqs x)) l -> forall q out r, ring (next_read r) q r -> mac_inputs r = out ->
  exists r', radio_run bufsize l r = Some r' /\ ring (next_read r') (fst (foldl queue_step (q, out) l)) r' /\ mac_inputs r' = snd (foldl queue_step (q, out) l).
Proof.
  intros Hsize. induction l as [|x l IH]; intros Hl q out r Hr Ho; [exists r; auto|]. apply list.Forall_cons in Hl as [Hx Hl]. cbn [radio_run ofor foldl].
  assert (Hstep : exists r1, radio_step bufsize x r = Some r1 /\ ring (next_read r1) (fst (queue_step (q, out) x)) r1 /\ mac_inputs r1 = snd (queue_step (q, out) x)).
  { destruct x as [i|l1 l2]; cbn [input_irqs radio_step queue_step] in *.
    - apply list.Forall_cons in Hx as [[Hi Hp] _]. destruct (irq_spec i r (rg_ok _ _ _ Hr) Hi) as (r1 & E & K & _ & Hrec). exists r1. split; [exact E|]. cbn [fst snd]. split.
      + rewrite (kept_read _ _ K). exact (ring_irq _ q r r1 i Hr Hi Hp K Hrec).
      + rewrite (kept_mac _ _ K). exact Ho.
    - apply list.Forall_app in Hx as [H1 H2]. destruct (radio_proc_spec bufsize l1 l2 q r Hsize Hr H1 H2) as (r1 & E & H). exists r1. split; [exact E|].
      destruct q as [|y q]; [subst r1; auto|]. rewrite <- Ho. exact H. }
  destruct Hstep as (r1 & -> & Hr1 & Ho1). rewrite some_bind. destruct (queue_step (q, out) x) as [q1 out1]. exact (IH Hl q1 out1 r1 Hr1 Ho1).
Qed.

(** A turn without interrupts takes what the read index points at. *)
Lemma radio_proc_take bufsize r b x : 127 <= bufsize -> ring_ok r -> at_index (rx_buf r) (next_read r) = Some b -> holds b x -> 0 < rb_len b ->
  exists r', radio_proc bufsize [] [] r = Some r' /\ mac_inputs r' = mac_inputs r ++ [x].
Proof.
  intros Hsize Hok Hb Hh Hp. pose proof (proj2 (at_index_some _ _ _ Hb)) as Hlook. pose proof (proj1 (list.Forall_lookup _ _) (proj1 (proj2 Hok)) _ b Hlook) as [Lb Rb].
  unfold radio_proc, has_packet. rewrite Hb, some_bind, (proj2 (Z.ltb_lt 0 (rb_len b)) Hp), some_bind. unfold read. destruct (Z.eqb_spec bufsize 0); [lia|]. unfold get_full_rx_buf. cbv zeta.
  rewrite Hb, some_bind, (proj2 (Z.ltb_lt 0 (rb_len b)) Hp), some_bind. cbv beta iota. set (r1 := r <| next_read := _ |>). cbn [interrupts ofor]. rewrite some_bind.
  change (rx_buf r1) with (rx_buf r). rewrite Hb, some_bind. destruct (Z.ltb_spec bufsize (rb_len b)); [lia|].
  destruct (mem_read_total (rb_buf b) 0 (rb_len b)) as (data & -> & _ & Ed); [lia..|]. rewrite !some_bind. unfold free_rx_buf.
  rewrite (on_buf_some (next_read r) _ r1 b (b <| rb_len := 0 |>) Hb eq_refl), !some_bind. cbv beta iota zeta. rewrite (proj2 (Z.ltb_lt 0 (rb_len b)) Hp).
  eexists. split; [reflexivity|]. rewrite mac_inputs_call by discriminate. unfold mac_inputs at 1, call. rsimpl. rewrite omap_app. cbn [omap list_omap].
  change (omap _ (radio_out r1)) with (mac_inputs r). do 2 f_equal. destruct x as [[d a] c]. destruct Hh as (El & Et & <- & <-). rewrite Ed, El, Nat2Z.id. change (Z.to_nat 0) with 0%nat.
  rewrite drop_0, Et. reflexivity.
Qed.

(** ** Transmission *)

(** A status other than the first one was set by an interrupt. *)
Definition cause (s : tx_status_t) : option rail_event :=
  match s with TX_SENT => Some RAIL_EVENT_TX_PACKET_SENT | TX_NO_ACK => Some RAIL_EVENT_RX_ACK_TIMEOUT | TX_CHANNEL_BUSY => Some RAIL_EVENT_TX_CHANNEL_BUSY | _ => None end.

Lemma statuses_cause l : forall s e, cause (statuses s l) = Some e -> statuses s l = s \/ exists i, i ∈ l /\ has e (fst i) = true.
Proof.
  induction l as [|i l IH]; intros s e He; [left; reflexivity|]. cbn [statuses foldl] in *. fold (statuses (status_after (fst i) s) l) in *.
  destruct (IH _ e He) as [E|(j & Hj & Hh)]; [|right; exists j; split; [apply list_elem_of_further, Hj|exact Hh]]. rewrite E in *. revert He. unfold status_after.
  repeat (case_match; [intros He; right; exists i; split; [apply list_elem_of_here|]; cbn [cause] in He; congruence|]). intros _. left. reflexivity.
Qed.

Section Waits.
Context `{Platform}.

Lemma autoack_wait_returns start readings : forall r, ring_ok r ->
  Forall (fun x => Forall irq_ok (fst (fst x)) /\ Forall irq_ok (fst (snd x))) readings ->
  Exists (fun x => AUTOACK_TIMEOUT_US < u32 (snd (snd x) - start)) readings ->
  exists r', autoack_wait readings start r = Some r' /\ ring_ok r' /\ kept r r'.
Proof.
  induction readings as [|[[l1 t1] [l2 t2]] readings IH]; intros r Hr Hirq Hlate; [inversion Hlate|]. apply list.Forall_cons in Hirq as [[H1 H2] Hirq]. cbn [fst snd] in *.
  cbn [autoack_wait]. destruct (interrupts_ok l1 r Hr H1) as (r1 & -> & K1 & Hr1 & _). rewrite some_bind. case_if; [|exists r1; auto].
  destruct (interrupts_ok l2 r1 Hr1 H2) as (r2 & -> & K2 & Hr2 & _). rewrite some_bind. assert (K12 : kept r r2) by (etransitivity; eassumption).
  destruct (Z.ltb_spec AUTOACK_TIMEOUT_US (u32 (t2 - start))) as [Ht|Ht]; [exists r2; auto|]. apply Exists_cons in Hlate as [Hlate|Hlate]; [cbn [snd] in Hlate; lia|].
  destruct (IH r2 Hr2 Hirq Hlate) as (r3 & E & Hr3 & K3). exists r3. split; [exact E|]. split; [exact Hr3|]. etransitivity; eassumption.
Qed.

(** The interrupts of a wait, in order. *)
Definition wait_irqs (readings : list (list irq * reading)) : list irq := concat ((fun x => fst x ++ fst (snd x)) <$> readings).

Lemma statuses_app s l1 l2 : statuses s (l1 ++ l2) = statuses (statuses s l1) l2.
Proof. apply foldl_app. Qed.

Lemma tx_wait_returns start readings : forall r, ring_ok r -> Forall irq_ok (wait_irqs readings) ->
  Exists (fun x => TX_TIMEOUT_TICKS < uclk (snd (snd x) - start)) readings ->
  exists timeout r', tx_wait readings start r = Some (timeout, r') /\ ring_ok r' /\ kept r r' /\
    if (timeout : bool) then tx_status r' = TX_IDLE
    else tx_status r' <> TX_SENDING /\ exists l, l `prefix_of` wait_irqs readings /\ tx_status r' = statuses (tx_status r) l.
Proof.
  induction readings as [|[l1 [l2 t]] readings IH]; intros r Hr Hirq Hlate; [inversion Hlate|]. unfold wait_irqs in Hirq |- *. cbn [fmap list_fmap concat fst snd] in Hirq |- *.
  apply list.Forall_app in Hirq as [H12 Hirq]. apply list.Forall_app in H12 as [H1 H2]. fold (wait_irqs readings) in Hirq |- *.
  cbn [tx_wait]. destruct (interrupts_ok l1 r Hr H1) as (r1 & -> & K1 & Hr1 & T1). rewrite some_bind. case_bool_decide as Hs.
  - destruct (interrupts_ok l2 r1 Hr1 H2) as (r2 & -> & K2 & Hr2 & T2). rewrite some_bind. assert (K12 : kept r r2) by (etransitivity; eassumption).
    destruct (Z.ltb_spec TX_TIMEOUT_TICKS (uclk (t - start))) as [Ht|Ht].
    + eexists true, _. split; [reflexivity|]. split; [exact Hr2|]. split; [|reflexivity]. etransitivity; [exact K12|]. etransitivity; [apply (call_kept (RailIdle true)); discriminate|apply status_kept].
    + apply Exists_cons in Hlate as [Hlate|Hlate]; [cbn [snd] in Hlate; lia|]. destruct (IH r2 Hr2 Hirq Hlate) as (timeout & r3 & E & Hr3 & K3 & H3).
      exists timeout, r3. split; [exact E|]. split; [exact Hr3|]. split; [etransitivity; eassumption|]. destruct timeout; [exact H3|]. destruct H3 as (Hns & l & Hl & El).
      split; [exact Hns|]. exists ((l1 ++ l2) ++ l). split; [apply prefix_app, Hl|]. rewrite !statuses_app, <- T1, <- T2. exact El.
  - exists false, r1. split; [reflexivity|]. split; [exact Hr1|]. split; [exact K1|]. split; [exact Hs|]. exists l1. split; [rewrite <- app_assoc; apply prefix_app_r; reflexivity|exact T1].
Qed.

(** A terminal status, and what it was set by. *)
Definition answers (ret : radio_tx_t) (s : tx_status_t) : Prop :=
  match ret with RADIO_TX_OK => s = TX_SENT | RADIO_TX_NOACK => s = TX_NO_ACK | RADIO_TX_COLLISION => s = TX_CHANNEL_BUSY | RADIO_TX_ERR => True end.

Lemma tx_result_returns l1 l2 l3 r : ring_ok r -> Forall irq_ok (l1 ++ l2 ++ l3) ->
  exists ret r', tx_result l1 l2 l3 r = Some (ret, r') /\ ring_ok r' /\ kept r r' /\
    exists l, l `prefix_of` l1 ++ l2 ++ l3 /\ answers ret (statuses (tx_status r) l).
Proof.
  intros Hr Hl. apply list.Forall_app in Hl as [H1 Hl]. apply list.Forall_app in Hl as [H2 H3]. unfold tx_result.
  destruct (interrupts_ok l1 r Hr H1) as (r1 & -> & K1 & Hr1 & T1). rewrite some_bind. case_bool_decide as Hs1.
  { exists RADIO_TX_OK, r1. split; [reflexivity|]. split; [exact Hr1|]. split; [exact K1|]. exists l1. split; [apply prefix_app_r; reflexivity|]. cbn [answers]. congruence. }
  destruct (interrupts_ok l2 r1 Hr1 H2) as (r2 & -> & K2 & Hr2 & T2). rewrite some_bind. assert (K12 : kept r r2) by (etransitivity; eassumption). case_bool_decide as Hs2.
  { exists RADIO_TX_NOACK, r2. split; [reflexivity|]. split; [exact Hr2|]. split; [exact K12|]. exists (l1 ++ l2). split; [apply prefix_app, prefix_app_r; reflexivity|].
    cbn [answers]. rewrite statuses_app. congruence. }
  destruct (interrupts_ok l3 r2 Hr2 H3) as (r3 & -> & K3 & Hr3 & T3). rewrite some_bind. assert (K13 : kept r r3) by (etransitivity; eassumption).
  case_bool_decide as Hs3; eexists _, r3; (split; [reflexivity|]); (split; [exact Hr3|]); (split; [exact K13|]); exists (l1 ++ l2 ++ l3); (split; [reflexivity|]); cbn [answers];
    rewrite ?statuses_app; congruence || exact I.
Qed.

(** No interrupt makes the driver busy. *)
Lemma statuses_sending l : forall s, s <> TX_SENDING -> statuses s l <> TX_SENDING.
Proof.
  induction l as [|i l IH]; intros s Hs; [exact Hs|]. cbn [statuses foldl]. apply IH. unfold status_after. repeat case_match; congruence.
Qed.

End Waits.

(** ** Properties *)

(** C10. The receive path of the radio is a queue of four packets: under any sequence of
    interrupts and turns of the process, with interrupts also inside the turns, no access
    leaves a buffer, the MAC gets exactly what a list of at most four packets would give
    it, first in first out with the packets that find it full dropped, and a packet is
    pending exactly when that list is not empty.  RAIL copies as many bytes as it
    announces and no packet is without payload. *)
Theorem radio_rx_fifo bufsize inputs : 127 <= bufsize -> Forall (fun x => Forall payload_irq (input_irqs x)) inputs ->
  exists r, radio_run bufsize inputs radio_boot = Some r /\ mac_inputs r = snd (queue_run inputs) /\
    pending_packet r = Some (negb (bool_decide (fst (queue_run inputs) = []))).
Proof.
  intros Hsize Hl. destruct (radio_run_ring bufsize inputs Hsize Hl [] [] radio_boot ring_boot eq_refl) as (r & E & Hr & Ho).
  exists r. split; [exact E|]. split; [exact Ho|]. exact (ring_pending _ r Hr).
Qed.

(** A packet that RAIL announces, as an interrupt. *)
Definition example_rx (data : bytes) : rail_rx := mk_rail_rx true true (Z.of_nat (length data)) 0 true true (-40) 200 data.
Definition rx_irq (p : rail_rx) : irq := ([RAIL_EVENT_RX_PACKET_RECEIVED], p).

Lemma radio_rx_fifo_witness : 127 <= 128 /\
  exists r, radio_run 128 [Interrupt (rx_irq (example_rx [3; 1; 2])); Turn [rx_irq (example_rx [2; 7])] []; Turn [] []] radio_boot = Some r /\
    mac_inputs r = snd (queue_run [Interrupt (rx_irq (example_rx [3; 1; 2])); Turn [rx_irq (example_rx [2; 7])] []; Turn [] []]) /\
    pending_packet r = Some (negb (bool_decide (fst (queue_run [Interrupt (rx_irq (example_rx [3; 1; 2])); Turn [rx_irq (example_rx [2; 7])] []; Turn [] []]) = []))).
Proof.
  split; [discriminate|]. apply radio_rx_fifo; [discriminate|]. unfold payload_irq, irq_ok, rail_ok, has_payload.
  repeat first [apply List.Forall_nil | apply List.Forall_cons | split | intros _; (reflexivity || discriminate)].
Defined.

(** A packet that is stored when there is room. *)
Definition storable (p : rail_rx) : Prop := accepted p = true /\ rail_ok p /\ 2 <= packetBytes p.

Lemma storable_irqs l : Forall storable l -> Forall payload_irq (rx_irq <$> l).
Proof. intros Hl. apply list.Forall_fmap. eapply list.Forall_impl; [exact Hl|]. intros p (_ & Hok & Hp). split; [exact Hok|intros _; exact Hp]. Qed.

Lemma storable_queue l : forall q, Forall storable l -> (length q + length l <= 4)%nat -> enqueue_irqs q (rx_irq <$> l) = q ++ (packet_of <$> l).
Proof.
  induction l as [|p l IH]; intros q Hl Hlen; [symmetry; apply app_nil_r|]. apply list.Forall_cons in Hl as [(Hp & _) Hl]. cbn [length] in Hlen. cbn [fmap list_fmap enqueue_irqs foldl].
  unfold enqueue_irq at 2. change (has RAIL_EVENT_RX_PACKET_RECEIVED (fst (rx_irq p))) with true. cbv iota. unfold enqueue. cbn [rx_irq snd]. rewrite Hp.
  destruct (Nat.ltb_spec (length q) 4); [|lia]. cbn [andb]. fold (enqueue_irqs (q ++ [packet_of p]) (rx_irq <$> l)).
  rewrite IH, <- app_assoc by (assumption || (rewrite length_app; cbn; lia)). reflexivity.
Qed.

(** The ring after a packet without payload: the write index has moved, the read index has not. *)
Lemma empty_first e : accepted e = true -> packetBytes e = 1 -> rail_ok e ->
  exists r, RAILCb_Generic (fst (rx_irq e)) (snd (rx_irq e)) radio_boot = Some r /\ ring 1 [] r /\ next_read r = 0 /\ mac_inputs r = [].
Proof.
  intros Ha H1 He. pose proof (rg_ok _ _ _ ring_boot) as Hok. destruct (irq_spec (rx_irq e) radio_boot Hok He) as (r & E & K & _ & Hrec). exists r. split; [exact E|].
  split; [|split; [exact (kept_read _ _ K)|exact (kept_mac _ _ K)]]. pose proof (received_ring (rx_irq e) radio_boot r Hok He K Hrec) as Hok'.
  unfold received in Hrec. change (has RAIL_EVENT_RX_PACKET_RECEIVED (fst (rx_irq e))) with true in Hrec. cbv iota in Hrec. cbn [rx_irq snd] in Hrec.
  assert (Hslot : forall k, (k < 4)%nat -> at_index (rx_buf radio_boot) (Z.of_nat k) = Some (mk_rx_buffer 0 0 0 (zeros 128))) by (intros k Hk; rewrite at_index_nat; apply lookup_replicate_2, Hk).
  destruct Hrec as [(_ & b & b' & _ & _ & Eb & En & Hh & _)|(_ & _ & Hno)].
  - assert (Hz : rb_len b' = 0) by (unfold holds, packet_of in Hh; destruct Hh as [-> _]; rewrite length_drop; specialize (He Ha); lia).
    constructor; [exact Hok'|lia|cbn; lia|exact En|intros k x Hk; discriminate Hk|]. intros k Hk. cbn [length] in Hk. rewrite Eb. change (next_write radio_boot) with 0.
    pose proof (Z.mod_pos_bound (1 + Z.of_nat k) 4 ltac:(lia)) as Hm. destruct (Z.eq_dec ((1 + Z.of_nat k) mod 4) 0) as [E0|Hne].
    + exists b'. rewrite E0. split; [apply at_index_insert_eq; reflexivity || (split; [lia|reflexivity])|exact Hz].
    + rewrite at_index_insert_ne by lia. exists (mk_rx_buffer 0 0 0 (zeros 128)). split; [|reflexivity].
      rewrite <- (Z2Nat.id ((1 + Z.of_nat k) mod 4)) by lia. apply Hslot. lia.
  - destruct (Hno Ha) as (b & Hb & Hnz). pose proof (Hslot 0%nat ltac:(lia)) as H0. change (next_write radio_boot) with (Z.of_nat 0) in Hb. rewrite H0 in Hb. injection Hb as <-. contradiction.
Qed.

Lemma run_interrupts bufsize l : forall r, radio_run bufsize ((fun p => Interrupt (rx_irq p)) <$> l) r = interrupts (rx_irq <$> l) r.
Proof.
  induction l as [|p l IH]; intros r; [reflexivity|]. rewrite !fmap_cons. cbn [radio_run interrupts ofor radio_step].
  destruct (RAILCb_Generic (fst (rx_irq p)) (snd (rx_irq p)) r) as [r1|]; [rewrite !some_bind; apply IH|reflexivity].
Qed.

(** C11. A packet without payload stops reception: after a packet of one byte, the length, is
    accepted by a fresh driver, three packets that arrive next are stored but no number
    of turns gives any of them to the MAC, and when a fourth arrives the next turn gives
    that one first. *)
Theorem radio_empty_packet bufsize e p1 p2 p3 p4 n : 127 <= bufsize -> accepted e = true -> packetBytes e = 1 -> rail_ok e ->
  Forall storable [p1; p2; p3; p4] ->
  (exists r, radio_run bufsize ((fun p => Interrupt (rx_irq p)) <$> [e; p1; p2; p3]) radio_boot = Some r /\
    radio_run bufsize (replicate n (Turn [] [])) r = Some r /\ pending_packet r = Some false /\ mac_inputs r = []) /\
  (exists r, radio_run bufsize (((fun p => Interrupt (rx_irq p)) <$> [e; p1; p2; p3; p4]) ++ [Turn [] []]) radio_boot = Some r /\ mac_inputs r = [packet_of p4]).
Proof.
  intros Hsize Ha H1 He Hall. destruct (empty_first e Ha H1 He) as (r1 & E1 & Hr1 & N1 & M1).
  assert (Hall3 : Forall storable [p1; p2; p3]) by (change [p1; p2; p3] with (take 3 [p1; p2; p3; p4]); apply Forall_take, Hall).
  split.
  - destruct (interrupts_ring 1 _ [] r1 Hr1 (storable_irqs _ Hall3)) as (r2 & E2 & K2 & Hr2). rewrite storable_queue in Hr2 by (exact Hall3 || (cbn; lia)). exists r2.
    assert (Hpend : has_packet r2 = Some false).
    { unfold has_packet. rewrite (kept_read _ _ K2), N1. destruct (rg_empty _ _ _ Hr2 3%nat ltac:(cbn; lia)) as (b & Hb & Hz). change ((1 + Z.of_nat 3) mod 4) with 0 in Hb.
      rewrite Hb, some_bind, Hz. reflexivity. }
    split; [rewrite run_interrupts, fmap_cons; cbn [interrupts ofor]; rewrite E1, some_bind; exact E2|]. split; [|split; [exact Hpend|rewrite (kept_mac _ _ K2); exact M1]].
    induction n as [|n IH]; [reflexivity|]. cbn [replicate radio_run ofor radio_step]. unfold radio_proc at 1. rewrite Hpend, some_bind, some_bind. exact IH.
  - destruct (interrupts_ring 1 _ [] r1 Hr1 (storable_irqs _ Hall)) as (r2 & E2 & K2 & Hr2). rewrite storable_queue in Hr2 by (exact Hall || (cbn; lia)).
    destruct (rg_full _ _ _ Hr2 3%nat (packet_of p4) eq_refl) as (b & Hb & Hh & Hp). change ((1 + Z.of_nat 3) mod 4) with 0 in Hb.
    assert (Hb2 : at_index (rx_buf r2) (next_read r2) = Some b) by (rewrite (kept_read _ _ K2), N1; exact Hb).
    destruct (radio_proc_take bufsize r2 b (packet_of p4) Hsize (rg_ok _ _ _ Hr2) Hb2 Hh Hp) as (r3 & E3 & M3). exists r3. split.
    + unfold radio_run. rewrite ofor_app. fold (radio_run bufsize ((fun p => Interrupt (rx_irq p)) <$> [e; p1; p2; p3; p4]) radio_boot).
      rewrite run_interrupts, fmap_cons. cbn [interrupts ofor]. rewrite E1, some_bind. fold (interrupts (rx_irq <$> [p1; p2; p3; p4]) r1). rewrite E2, some_bind.
      cbn [radio_step]. rewrite E3. reflexivity.
    + rewrite M3, (kept_mac _ _ K2), M1. reflexivity.
Qed.

Lemma radio_empty_packet_witness : 127 <= 128 /\
  (exists r, radio_run 128 ((fun p => Interrupt (rx_irq p)) <$> [example_rx [1]; example_rx [2; 7]; example_rx [2; 8]; example_rx [2; 9]]) radio_boot = Some r /\
    radio_run 128 (replicate 1000 (Turn [] [])) r = Some r /\ pending_packet r = Some false /\ mac_inputs r = []) /\
  (exists r, radio_run 128 (((fun p => Interrupt (rx_irq p)) <$> [example_rx [1]; example_rx [2; 7]; example_rx [2; 8]; example_rx [2; 9]; example_rx [2; 10]]) ++ [Turn [] []]) radio_boot = Some r /\
    mac_inputs r = [packet_of (example_rx [2; 10])]).
Proof.
  split; [discriminate|]. apply radio_empty_packet; [discriminate|reflexivity|reflexivity|intros _; reflexivity|].
  repeat first [apply List.Forall_nil | apply List.Forall_cons | split | intros _; reflexivity]; discriminate.
Defined.

(** ** Sending *)

Section Sending.
Context `{Platform}.

(** The interrupts since the driver is busy. *)
Definition tx_irqs (x : tx_course) : list irq := tx_begin x ++ fst (tx_start x) ++ wait_irqs (tx_readings x) ++ tx_late1 x ++ tx_late2 x ++ tx_late3 x.

(** RAIL copies what it announces, and both waits read a time after their limit if they
    get that far. *)
Record course_ok (x : tx_course) : Prop := {
  co_entry : Forall irq_ok (tx_entry x);
  co_ack_start : Forall irq_ok (fst (tx_ack_start x));
  co_ack : Forall (fun y => Forall irq_ok (fst (fst y)) /\ Forall irq_ok (fst (snd y))) (tx_ack_readings x);
  co_ack_late : Exists (fun y => AUTOACK_TIMEOUT_US < u32 (snd (snd y) - snd (tx_ack_start x))) (tx_ack_readings x);
  co_irqs : Forall irq_ok (tx_irqs x);
  co_late : Exists (fun y => TX_TIMEOUT_TICKS < uclk (snd (snd y) - snd (tx_start x))) (tx_readings x);
}.

(** The event that an answer other than an error rests on. *)
Definition answer_event (ret : radio_tx_t) : option rail_event :=
  match ret with
  | RADIO_TX_OK => Some RAIL_EVENT_TX_PACKET_SENT | RADIO_TX_NOACK => Some RAIL_EVENT_RX_ACK_TIMEOUT | RADIO_TX_COLLISION => Some RAIL_EVENT_TX_CHANNEL_BUSY | RADIO_TX_ERR => None
  end.

Lemma answers_cause ret l e : answers ret (statuses TX_SENDING l) -> answer_event ret = Some e -> exists i, i ∈ l /\ has e (fst i) = true.
Proof.
  intros Ha He. destruct (statuses_cause l TX_SENDING e) as [E|H1]; [|rewrite E in Ha; destruct ret; cbn in Ha, He; congruence|exact H1].
  destruct ret; cbn [answers answer_event] in Ha, He; try discriminate He; rewrite Ha; exact He.
Qed.

(** From the start of the transmission on. *)
Definition transmission (x : tx_course) (r : radio) : option (radio_tx_t * radio) :=
  r ← interrupts (fst (tx_start x)) r;
  '(timeout, r) ← tx_wait (tx_readings x) (snd (tx_start x)) r;
  if (timeout : bool) then Some (RADIO_TX_ERR, r)
  else '(ret, r) ← tx_result (tx_late1 x) (tx_late2 x) (tx_late3 x) r; Some (ret, r <| tx_status := TX_IDLE |>).

Lemma transmission_returns x r : ring_ok r -> course_ok x -> tx_status r = statuses TX_SENDING (tx_begin x) ->
  exists ret r', transmission x r = Some (ret, r') /\ tx_status r' = TX_IDLE /\ ring_ok r' /\ kept r r' /\
    forall e, answer_event ret = Some e -> exists i, i ∈ tx_irqs x /\ has e (fst i) = true.
Proof.
  intros Hr [_ _ _ _ Hi Hlate] Hs. unfold tx_irqs in Hi |- *. apply list.Forall_app in Hi as [_ Hi]. apply list.Forall_app in Hi as [H1 Hi]. apply list.Forall_app in Hi as [H2 H3]. unfold transmission.
  destruct (interrupts_ok _ r Hr H1) as (r1 & -> & K1 & Hr1 & T1). rewrite some_bind, Hs in *.
  destruct (tx_wait_returns (snd (tx_start x)) (tx_readings x) r1 Hr1 H2 Hlate) as (timeout & r2 & -> & Hr2 & K2 & Hend). rewrite some_bind.
  assert (K12 : kept r r2) by (etransitivity; eassumption).
  destruct timeout; [exists RADIO_TX_ERR, r2; do 4 (split; [auto|]); discriminate|]. destruct Hend as (_ & l & [m Hm] & T2).
  destruct (tx_result_returns _ _ _ r2 Hr2 H3) as (ret & r3 & -> & Hr3 & K3 & l' & [m' Hm'] & Ha). rewrite some_bind. exists ret. eexists. split; [reflexivity|]. split; [reflexivity|].
  split; [exact Hr3|]. split; [etransitivity; [exact K12|]; etransitivity; [exact K3|apply status_kept]|]. intros e He.
  rewrite T2, T1, <- !statuses_app in Ha. destruct (answers_cause _ _ _ Ha He) as (i & Hin & Hh). exists i. split; [|exact Hh]. rewrite Hm, Hm'. set_solver.
Qed.

(** C12. Sending always ends and never leaves the driver busy: when the two waits are given a
    reading of their clock past their limit, [transmit] returns from every status but
    a transmission under way, leaves the receive ring well formed and hands the MAC
    nothing; and it says that the packet was sent, was not acknowledged or met a busy channel
    only if RAIL accepted the transmission and an interrupt since the driver became busy had that event. *)
Theorem radio_transmit_returns x r : ring_ok r -> course_ok x -> tx_status r <> TX_SENDING ->
  exists ret r', transmit x r = Some (ret, r') /\ tx_status r' <> TX_SENDING /\ ring_ok r' /\ mac_inputs r' = mac_inputs r /\
    forall e, answer_event ret = Some e -> tx_started x = true /\ exists i, i ∈ tx_irqs x /\ has e (fst i) = true.
Proof.
  intros Hr Hx Hs. unfold transmit. set (r0 := if _ || _ then _ else r). assert (H0 : ring_ok r0 /\ kept r r0 /\ tx_status r0 <> TX_SENDING).
  { unfold r0. case_if; [split; [exact Hr|split; [apply status_kept|discriminate]]|split; [exact Hr|split; [reflexivity|exact Hs]]]. }
  destruct H0 as (Hr0 & K0 & S0). clearbody r0. cbv zeta.
  destruct (interrupts_ok _ r0 Hr0 (co_entry _ Hx)) as (r1 & -> & K1 & Hr1 & T1). rewrite some_bind. assert (K01 : kept r r1) by (etransitivity; eassumption).
  destruct (bool_decide (tx_status r1 = TX_IDLE)); cbn [negb]; [|exists RADIO_TX_ERR, r1; split; [reflexivity|]; split; [rewrite T1; apply statuses_sending, S0|];
    split; [exact Hr1|]; split; [exact (kept_mac _ _ K01)|discriminate]].
  destruct (interrupts_ok _ r1 Hr1 (co_ack_start _ Hx)) as (r2 & -> & K2 & Hr2 & _). rewrite some_bind.
  destruct (autoack_wait_returns (snd (tx_ack_start x)) _ r2 Hr2 (co_ack _ Hx) (co_ack_late _ Hx)) as (r3 & -> & Hr3 & K3). rewrite some_bind.
  match goal with |- context [interrupts (tx_begin x) ?r0] => set (rs := r0) end.
  assert (Hb : Forall irq_ok (tx_begin x)) by exact (proj1 (proj1 (list.Forall_app _ _ _) (co_irqs _ Hx))).
  destruct (interrupts_ok _ rs Hr3 Hb) as (r3' & -> & K3' & Hr3' & T3). rewrite some_bind.
  set (r4 := call _ _). assert (K4 : kept r r4).
  { etransitivity; [exact K01|]. etransitivity; [exact K2|]. etransitivity; [exact K3|]. etransitivity; [apply (status_kept TX_SENDING)|]. etransitivity; [exact K3'|apply call_kept; discriminate]. }
  destruct (tx_started x) eqn:Est; cbn [negb].
  - fold (transmission x r4). destruct (transmission_returns x r4 Hr3' Hx T3) as (ret & r5 & -> & S5 & Hr5 & K5 & He). exists ret, r5. split; [reflexivity|].
    split; [rewrite S5; discriminate|]. split; [exact Hr5|]. split; [rewrite (kept_mac _ _ K5); exact (kept_mac _ _ K4)|]. intros e E. split; [reflexivity|exact (He e E)].
  - exists RADIO_TX_ERR. eexists. split; [reflexivity|]. split; [discriminate|]. split; [exact Hr3'|]. split; [exact (kept_mac _ _ K4)|discriminate].
Qed.

End Sending.

#[local] Existing Instance example_platform | 100.

(** A packet is received while the transmission runs, which then ends; the clocks tick on. *)
Definition example_course : tx_course :=
  mk_tx_course [] ([], 100) [(([], 200), ([], 300)); (([], 5200), ([], 5300))] [] true ([], 10)
    [([], ([rx_irq (example_rx [3; 1; 2])], 11)); ([([RAIL_EVENT_TX_PACKET_SENT], example_rx [])], ([], 12)); ([], ([], 140))] [] [] [].

Lemma radio_transmit_returns_witness :
  exists ret r', transmit example_course radio_boot = Some (ret, r') /\ tx_status r' <> TX_SENDING /\ ring_ok r' /\ mac_inputs r' = mac_inputs radio_boot /\
    forall e, answer_event ret = Some e -> tx_started example_course = true /\ exists i, i ∈ tx_irqs example_course /\ has e (fst i) = true.
Proof.
  apply radio_transmit_returns; [exact (rg_ok _ _ _ ring_boot)| |discriminate]. unfold irq_ok, rail_ok. constructor; cbn [example_course tx_entry tx_ack_start tx_ack_readings fst snd].
  - apply List.Forall_nil.
  - apply List.Forall_nil.
  - repeat first [apply List.Forall_nil | apply List.Forall_cons | split].
  - apply Exists_cons_tl, Exists_cons_hd. reflexivity.
  - unfold irq_ok, rail_ok. repeat first [apply List.Forall_nil | apply List.Forall_cons | intros _; reflexivity | discriminate].
  - do 2 apply Exists_cons_tl. apply Exists_cons_hd. reflexivity.
Defined.

Example example_course_sent : fst <$> transmit example_course radio_boot = Some RADIO_TX_OK.
Proof. reflexivity. Qed.
