(* ===== verification/Fragmentation.v ===== *)
(** * Fragmentation and reassembly: [src/src/PQC/fragmentation.c]

    A message of up to 4608 bytes travels as up to 72 datagrams of at most 64
    payload bytes.  [fragment_tx] cuts a message up and hands the datagrams to a
    send function; a [fragment_rx_ctx_t] collects the fragments of one message.
    The parser of a fragment's header, [parse_fragment_header] of
    [src/src/PQC/handshake_fsm.c], is here because it is the inverse of what
    [fragment_tx] writes.  Contexts are passed by the address of an existing
    object, so the [NULL] tests on them have no counterpart. *)

From S2P Require Import Prelude Platform Protocol.

(* src/src/PQC/fragmentation.h:8-8 FRAG_MAX_MESSAGE_LEN *)
Definition FRAG_MAX_MESSAGE_LEN : Z := 4608.
(* src/src/PQC/fragmentation.h:9-9 FRAG_MAX_PAYLOAD_LEN *)
Definition FRAG_MAX_PAYLOAD_LEN : Z := 64.
(* src/src/PQC/fragmentation.h:10-10 FRAG_MAX_FRAGS *)
Definition FRAG_MAX_FRAGS : Z :=
  (FRAG_MAX_MESSAGE_LEN + FRAG_MAX_PAYLOAD_LEN - 1) / FRAG_MAX_PAYLOAD_LEN.
(* src/src/PQC/fragmentation.h:11-11 FRAG_HEADER_LEN *)
Definition FRAG_HEADER_LEN : Z := PQC_HEADER_LEN.

#[export] Hint Unfold FRAG_MAX_MESSAGE_LEN FRAG_MAX_PAYLOAD_LEN FRAG_HEADER_LEN : c_consts.

Lemma FRAG_MAX_FRAGS_eq : FRAG_MAX_FRAGS = 72.
Proof. reflexivity. Qed.

(* src/src/PQC/fragmentation.h:13-23 fragment_rx_ctx_t *)
Record fragment_rx_ctx_t := mk_rx_ctx {
  rx_active : Z;
  rx_msg_type : Z;
  rx_node_id : Z;
  rx_msg_id : Z;
  rx_total_frags : Z;
  rx_received_frags : Z;
  rx_received_len : Z;
  rx_bitmap : bytes;
  rx_buffer : bytes;
}.
#[export] Instance eta_rx_ctx : Eta fragment_rx_ctx_t := fun r =>
  mk_rx_ctx (rx_active r) (rx_msg_type r) (rx_node_id r) (rx_msg_id r) (rx_total_frags r)
    (rx_received_frags r) (rx_received_len r) (rx_bitmap r) (rx_buffer r).

(** All bytes of the context cleared. *)
(* src/src/PQC/fragmentation.c:5-10 fragment_rx_init *)
Definition fragment_rx_init : fragment_rx_ctx_t :=
  mk_rx_ctx 0 0 0 0 0 0 0 (zeros FRAG_MAX_FRAGS) (zeros FRAG_MAX_MESSAGE_LEN).

(* src/src/PQC/fragmentation.c:12-15 fragment_rx_reset *)
Definition fragment_rx_reset : fragment_rx_ctx_t := fragment_rx_init.

(** The end of [fragment_rx_add]: a fragment that is not yet marked in the bitmap
    is copied and counted. *)
(* src/src/PQC/fragmentation.c:52-59 fragment_rx_add *)
Definition fragment_rx_store (ctx : fragment_rx_ctx_t) (frag_idx offset : Z) (d : bytes)
    (len : Z) : option (bool * fragment_rx_ctx_t) :=
  seen ← cell (rx_bitmap ctx) frag_idx;
  if seen =? 0
  then src ← mem_read d 0 len;
       buffer ← mem_write (rx_buffer ctx) offset src;
       bitmap ← set_cell (rx_bitmap ctx) frag_idx 1;
       Some (true, ctx <| rx_buffer := buffer |> <| rx_bitmap := bitmap |>
                     <| rx_received_frags ::= (fun n => u8 (n + 1)) |>
                     <| rx_received_len ::= (fun n => u16 (n + len)) |>)
  else Some (true, ctx).

(* src/src/PQC/fragmentation.c:17-60 fragment_rx_add *)
Definition fragment_rx_add (ctx : fragment_rx_ctx_t)
    (msg_type node_id msg_id frag_idx total_frags : Z) (data : option bytes) (len : Z)
    : option (bool * fragment_rx_ctx_t) :=
  match data with
  | None => Some (false, ctx)
  | Some d =>
      if (total_frags =? 0) || (total_frags <=? frag_idx) || (FRAG_MAX_FRAGS <? total_frags)
         || (FRAG_MAX_PAYLOAD_LEN <? len)
      then Some (false, ctx) else
      let offset := u16 (frag_idx * FRAG_MAX_PAYLOAD_LEN) in
      if FRAG_MAX_MESSAGE_LEN <? u32 (offset + len) then Some (false, ctx) else
      if rx_active ctx =? 0
      then fragment_rx_store
             (ctx <| rx_active := 1 |> <| rx_msg_type := msg_type |>
                <| rx_node_id := node_id |> <| rx_msg_id := msg_id |>
                <| rx_total_frags := total_frags |>) frag_idx offset d len
      else if negb (rx_msg_type ctx =? msg_type) || negb (rx_node_id ctx =? node_id)
              || negb (rx_msg_id ctx =? msg_id) || negb (rx_total_frags ctx =? total_frags)
      then Some (false, ctx)
      else fragment_rx_store ctx frag_idx offset d len
  end.

(* src/src/PQC/fragmentation.c:62-65 fragment_rx_complete *)
Definition fragment_rx_complete (ctx : fragment_rx_ctx_t) : bool :=
  negb (rx_active ctx =? 0) && (rx_received_frags ctx =? rx_total_frags ctx).

(* src/src/PQC/fragmentation.c:67-70 fragment_rx_data *)
Definition fragment_rx_data (ctx : fragment_rx_ctx_t) : option bytes :=
  if fragment_rx_complete ctx then Some (rx_buffer ctx) else None.

(* src/src/PQC/fragmentation.c:72-75 fragment_rx_len *)
Definition fragment_rx_len (ctx : fragment_rx_ctx_t) : Z :=
  if fragment_rx_complete ctx then rx_received_len ctx else 0.

(* src/src/PQC/fragmentation.c:77-91 fragment_tx_count *)
Definition fragment_tx_count (len : Z) : Z :=
  if len =? 0 then 0 else
  let total_frags := u16 ((len + FRAG_MAX_PAYLOAD_LEN - 1) / FRAG_MAX_PAYLOAD_LEN) in
  if (total_frags =? 0) || (FRAG_MAX_FRAGS <? total_frags) then 0 else u8 total_frags.

Section Tx.
Context `{Platform} {S : Type}.

(** A send function reads the first [len] bytes of the buffer it is given. *)
(* src/src/PQC/fragmentation.h:25-25 fragment_send_fn_t *)
Definition fragment_send_fn_t : Type := bytes -> Z -> M S bool.

(** The loop over [frag_idx]; the packet buffer [frag] is reused by every
    iteration. *)
(* src/src/PQC/fragmentation.c:115-134 fragment_tx *)
Fixpoint fragment_tx_loop (data : bytes) (len msg_type node_id msg_id flags total_frags : Z)
    (send_fn : fragment_send_fn_t) (frag_idxs : list Z) (frag : bytes) : M S bool :=
  match frag_idxs with
  | [] => mret true
  | frag_idx :: rest =>
      let offset := u16 (frag_idx * FRAG_MAX_PAYLOAD_LEN) in
      let remaining := u16 (len - offset) in
      let frag_len := u8 (if FRAG_MAX_PAYLOAD_LEN <? remaining
                          then FRAG_MAX_PAYLOAD_LEN else remaining) in
      frag ← lift (pqc_header_write frag msg_type node_id msg_id frag_idx total_frags
                     frag_len flags);
      payload ← lift (mem_read data offset frag_len);
      frag ← lift (mem_write frag FRAG_HEADER_LEN payload);
      sent ← send_fn frag (u16 (FRAG_HEADER_LEN + frag_len));
      if negb sent then mret false
      else fragment_tx_loop data len msg_type node_id msg_id flags total_frags send_fn rest frag
  end.

(* src/src/PQC/fragmentation.c:93-137 fragment_tx *)
Definition fragment_tx (data : option bytes) (len msg_type node_id msg_id flags : Z)
    (send_fn : option fragment_send_fn_t) : M S bool :=
  match data, send_fn with
  | Some data, Some send_fn =>
      if len =? 0 then mret false else
      let total_frags := fragment_tx_count len in
      if total_frags =? 0 then mret false else
      fragment_tx_loop data len msg_type node_id msg_id flags total_frags send_fn
        (upto total_frags) (zeros (FRAG_HEADER_LEN + FRAG_MAX_PAYLOAD_LEN))
  | _, _ => mret false
  end.

End Tx.
Arguments fragment_send_fn_t {_} S.

(** The fields of a fragment's header, in the order of the output parameters. *)
(* src/src/PQC/handshake_fsm.c:581-609 parse_fragment_header *)
Record fragment_header := mk_fragment_header {
  fh_msg_type : Z;
  fh_node_id : Z;
  fh_msg_id : Z;
  fh_frag_idx : Z;
  fh_total_frags : Z;
  fh_frag_len : Z;
}.

(** The parsed header on success, [Some None] where the function returns 0. *)
(* src/src/PQC/handshake_fsm.c:581-609 parse_fragment_header *)
Definition parse_fragment_header (data : option bytes) (len : Z)
    : option (option fragment_header) :=
  match data with
  | None => Some None
  | Some d =>
      if len <? FRAG_HEADER_LEN then Some None else
      version ← cell d PQC_HDR_VERSION;
      if negb (version =? PQC_PROTO_VERSION) then Some None else
      msg_type ← cell d PQC_HDR_MSG_TYPE;
      node_id ← pqc_header_get_node_id d;
      msg_id ← cell d PQC_HDR_MSG_ID;
      frag_idx ← cell d PQC_HDR_FRAG_IDX;
      total_frags ← cell d PQC_HDR_TOTAL_FRAGS;
      frag_len ← cell d PQC_HDR_PAYLOAD_LEN;
      if (total_frags =? 0) || (FRAG_MAX_FRAGS <? total_frags)
         || (total_frags <=? frag_idx) || (FRAG_MAX_PAYLOAD_LEN <? frag_len)
      then Some None else
      if u16 (FRAG_HEADER_LEN + frag_len) <=? len
      then Some (Some (mk_fragment_header msg_type node_id msg_id frag_idx total_frags frag_len))
      else Some None
  end.

(** ** The receive context *)

(** Cell [i] of the bitmap, as a number. *)
Definition rx_bit (ctx : fragment_rx_ctx_t) (i : Z) : Z := default 0 (cell (rx_bitmap ctx) i).

(** What every context the program reaches satisfies: the counters describe the
    bitmap, no fragment beyond the announced total is marked, and the length
    accounts for at most 64 bytes per fragment. *)
Record rx_wf (ctx : fragment_rx_ctx_t) : Prop := {
  wf_bitmap : Z.of_nat (length (rx_bitmap ctx)) = FRAG_MAX_FRAGS;
  wf_buffer : Z.of_nat (length (rx_buffer ctx)) = FRAG_MAX_MESSAGE_LEN;
  wf_bytes : all_bytes (rx_buffer ctx);
  wf_bits : forall i, 0 <= rx_bit ctx i <= 1;
  wf_total : 0 <= rx_total_frags ctx <= FRAG_MAX_FRAGS;
  wf_active : rx_active ctx = 0 /\ rx_total_frags ctx = 0 \/
              rx_active ctx = 1 /\ 0 < rx_total_frags ctx;
  wf_beyond : forall i, rx_total_frags ctx <= i < FRAG_MAX_FRAGS -> rx_bit ctx i = 0;
  wf_count : rx_received_frags ctx = zsum (rx_bit ctx) FRAG_MAX_FRAGS;
  wf_len : 0 <= rx_received_len ctx <= FRAG_MAX_PAYLOAD_LEN * rx_received_frags ctx;
}.

Lemma zeros_lookup n i : default 0 (cell (zeros n) i) = 0.
Proof.
  unfold cell, zeros. case_if; [|reflexivity].
  destruct (replicate (Z.to_nat n) 0 !! Z.to_nat i) as [v|] eqn:E; [|reflexivity].
  apply lookup_replicate_1 in E as [-> _]. reflexivity.
Qed.

Lemma rx_wf_init : rx_wf fragment_rx_init.
Proof.
  assert (Hz : forall i, rx_bit fragment_rx_init i = 0) by (intros; apply zeros_lookup).
  constructor; try (intros; rewrite ?Hz; rewrite ?FRAG_MAX_FRAGS_eq; simpl; lia).
  - unfold fragment_rx_init, rx_buffer. rewrite length_zeros. reflexivity.
  - apply all_bytes_zeros.
  - rewrite (zsum_ext _ (fun _ => 0)) by (rewrite ?FRAG_MAX_FRAGS_eq; lia || (intros; apply Hz)).
    rewrite zsum_const; reflexivity || (rewrite FRAG_MAX_FRAGS_eq; lia).
Qed.

Lemma rx_count_total ctx :
  rx_wf ctx -> rx_received_frags ctx = zsum (rx_bit ctx) (rx_total_frags ctx).
Proof.
  intros Hwf. rewrite (wf_count _ Hwf).
  apply zsum_split; [apply Hwf|]. intros. apply (wf_beyond _ Hwf). lia.
Qed.

Lemma rx_count_bound ctx :
  rx_wf ctx -> 0 <= rx_received_frags ctx <= rx_total_frags ctx.
Proof.
  intros Hwf. rewrite (rx_count_total _ Hwf). destruct (wf_total _ Hwf). split.
  - transitivity (zsum (fun _ => 0) (rx_total_frags ctx)); [rewrite zsum_const; lia|].
    apply zsum_le; [lia|]. intros. apply (wf_bits _ Hwf).
  - transitivity (zsum (fun _ => 1) (rx_total_frags ctx)); [|rewrite zsum_const; lia].
    apply zsum_le; [lia|]. intros. apply (wf_bits _ Hwf).
Qed.

(** [fragment_rx_complete] tells that every fragment of the message has been
    stored, and nothing less. *)
Lemma rx_complete_iff ctx :
  rx_wf ctx ->
  fragment_rx_complete ctx = true <->
  rx_active ctx = 1 /\ (forall i, 0 <= i < rx_total_frags ctx -> rx_bit ctx i = 1).
Proof.
  intros Hwf. unfold fragment_rx_complete. rewrite andb_true_iff, negb_true_iff, Z.eqb_eq, Z.eqb_neq.
  rewrite (rx_count_total _ Hwf). pose proof (wf_total _ Hwf) as Ht.
  pose proof (wf_active _ Hwf) as Ha.
  rewrite (zsum_full (rx_bit ctx) (rx_total_frags ctx)); [|lia|intros; apply (wf_bits _ Hwf)].
  intuition lia.
Qed.

(** The bitmap after marking fragment [k]. *)
Lemma rx_bit_set bitmap k i :
  0 <= k < Z.of_nat (length bitmap) ->
  default 0 (cell (<[Z.to_nat k := 1]> bitmap) i) =
    if i =? k then 1 else default 0 (cell bitmap i).
Proof.
  intros Hk. unfold cell. destruct (Z.leb_spec 0 i), (Z.eqb_spec i k); subst; try lia.
  - rewrite list_lookup_insert_eq by lia. reflexivity.
  - rewrite list_lookup_insert_ne by lia. reflexivity.
Qed.

(** Writing and reading a buffer. *)
Lemma mem_write_bytes l off src r :
  all_bytes l -> all_bytes src -> mem_write l off src = Some r -> all_bytes r.
Proof.
  intros Hl Hs. unfold mem_write. case_if; [|discriminate]. intros [= <-].
  apply Forall_app; split; [apply Forall_take, Hl|].
  apply Forall_app; split; [exact Hs|apply Forall_drop, Hl].
Qed.

Lemma mem_read_bytes l off len r :
  all_bytes l -> mem_read l off len = Some r -> all_bytes r.
Proof.
  intros Hl. rewrite mem_read_spec. intros (_ & _ & _ & ->).
  apply Forall_take, Forall_drop, Hl.
Qed.

(** The tests of [fragment_rx_add] on its arguments. *)
Definition rx_args_ok (frag_idx total_frags len : Z) : bool :=
  negb ((total_frags =? 0) || (total_frags <=? frag_idx) || (FRAG_MAX_FRAGS <? total_frags)
        || (FRAG_MAX_PAYLOAD_LEN <? len)).

(** The context an accepted fragment is stored in: a fresh context takes the
    identity of its first fragment. *)
Definition rx_claim (ctx : fragment_rx_ctx_t) (msg_type node_id msg_id total_frags : Z)
    : fragment_rx_ctx_t :=
  if rx_active ctx =? 0
  then ctx <| rx_active := 1 |> <| rx_msg_type := msg_type |> <| rx_node_id := node_id |>
         <| rx_msg_id := msg_id |> <| rx_total_frags := total_frags |>
  else ctx.

(** The identity test of an active context. *)
Definition rx_matches (ctx : fragment_rx_ctx_t) (msg_type node_id msg_id total_frags : Z) : bool :=
  (rx_active ctx =? 0) ||
  (rx_msg_type ctx =? msg_type) && (rx_node_id ctx =? node_id) &&
  (rx_msg_id ctx =? msg_id) && (rx_total_frags ctx =? total_frags).

Arguments fragment_rx_add : simpl never.
Arguments fragment_rx_store : simpl never.

Lemma rx_add_eq ctx mt nid mid fi tf d len :
  0 <= fi -> 0 <= len ->
  fragment_rx_add ctx mt nid mid fi tf (Some d) len =
    if rx_args_ok fi tf len && rx_matches ctx mt nid mid tf
    then fragment_rx_store (rx_claim ctx mt nid mid tf) fi (fi * 64) d len
    else Some (false, ctx).
Proof.
  intros Hfi Hlen. unfold fragment_rx_add, rx_args_ok, rx_matches, rx_claim.
  destruct (_ || (FRAG_MAX_PAYLOAD_LEN <? len)) eqn:Hargs; [reflexivity|].
  case_bools. rewrite FRAG_MAX_FRAGS_eq in *. autounfold with c_consts in *.
  rewrite u16_id by (unfold in_width; lia). rewrite u32_id by (unfold in_width; lia).
  destruct (Z.ltb_spec 4608 (fi * 64 + len)); [lia|].
  destruct (rx_active ctx =? 0); simpl; [reflexivity|].
  destruct (rx_msg_type ctx =? mt), (rx_node_id ctx =? nid), (rx_msg_id ctx =? mid),
    (rx_total_frags ctx =? tf); reflexivity.
Qed.

Lemma rx_claim_wf ctx mt nid mid tf :
  rx_wf ctx -> 0 < tf <= FRAG_MAX_FRAGS -> rx_matches ctx mt nid mid tf = true ->
  rx_wf (rx_claim ctx mt nid mid tf) /\ rx_active (rx_claim ctx mt nid mid tf) = 1 /\
  rx_total_frags (rx_claim ctx mt nid mid tf) = tf.
Proof.
  intros Hwf Htf Hm. unfold rx_claim, rx_matches in *.
  destruct (Z.eqb_spec (rx_active ctx) 0) as [Ha|Ha]; simpl in Hm.
  - split; [|split; reflexivity]. destruct (wf_active _ Hwf) as [[_ Ht]|[? _]]; [|lia].
    destruct Hwf. constructor; rsimpl; auto; try lia.
    intros i Hi. apply wf_beyond0. lia.
  - case_bools. destruct (wf_active _ Hwf) as [[? _]|[? _]]; [lia|]. auto.
Qed.

(** Storing a fragment. *)
Lemma rx_store_wf ctx fi d len :
  rx_wf ctx -> 0 <= fi < rx_total_frags ctx -> 0 <= len <= FRAG_MAX_PAYLOAD_LEN ->
  len <= Z.of_nat (length d) -> all_bytes d ->
  exists ctx', fragment_rx_store ctx fi (fi * 64) d len = Some (true, ctx') /\ rx_wf ctx' /\
    (forall i, rx_bit ctx' i = if i =? fi then 1 else rx_bit ctx i) /\
    (rx_active ctx', rx_msg_type ctx', rx_node_id ctx', rx_msg_id ctx', rx_total_frags ctx') =
    (rx_active ctx, rx_msg_type ctx, rx_node_id ctx, rx_msg_id ctx, rx_total_frags ctx) /\
    (rx_bit ctx fi = 1 -> ctx' = ctx) /\
    (rx_bit ctx fi = 0 ->
       rx_received_len ctx' = rx_received_len ctx + len /\
       rx_received_frags ctx' = rx_received_frags ctx + 1 /\
       mem_write (rx_buffer ctx) (fi * 64) (take (Z.to_nat len) d) = Some (rx_buffer ctx')).
Proof.
  intros Hwf Hfi Hlen Hd Hbytes. unfold fragment_rx_store.
  pose proof (wf_bitmap _ Hwf) as Hbm. pose proof (wf_buffer _ Hwf) as Hbuf.
  pose proof (wf_total _ Hwf) as Htot. rewrite FRAG_MAX_FRAGS_eq in *.
  destruct (cell_total (rx_bitmap ctx) fi) as (b & Hb & _); [lia|].
  pose proof (wf_bits _ Hwf fi) as Hbit. unfold rx_bit in Hbit at 1 2. rewrite Hb in Hbit.
  simpl in Hbit. assert (Hbeq : rx_bit ctx fi = b) by (unfold rx_bit; rewrite Hb; reflexivity).
  rewrite Hb. simpl. destruct (Z.eqb_spec b 0) as [->|Hb0].
  2: { exists ctx. split; [reflexivity|]. split; [exact Hwf|]. split.
       - intros i. destruct (Z.eqb_spec i fi) as [->|]; lia.
       - split; [reflexivity|]. split; [reflexivity|]. lia. }
  destruct (mem_read_total d 0 len) as (src & Hsrc & Hsl & Hsv); [lia..|].
  rewrite Hsrc. simpl. rewrite drop_0 in Hsv.
  destruct (mem_write (rx_buffer ctx) (fi * 64) src) as [buf|] eqn:Hw.
  2: { rewrite mem_write_total in Hw by (unfold FRAG_MAX_PAYLOAD_LEN, FRAG_MAX_MESSAGE_LEN in *; lia).
       discriminate. }
  simpl. rewrite set_cell_total by lia. simpl.
  eexists. split; [reflexivity|].
  assert (Hbits : forall i, rx_bit (ctx <| rx_buffer := buf |>
      <| rx_bitmap := <[Z.to_nat fi:=1]> (rx_bitmap ctx) |>
      <| rx_received_frags ::= (fun n => u8 (n + 1)) |>
      <| rx_received_len ::= (fun n => u16 (n + len)) |>) i =
      if i =? fi then 1 else rx_bit ctx i).
  { intros i. unfold rx_bit. rsimpl. apply rx_bit_set. lia. }
  pose proof (rx_count_bound _ Hwf) as Hcb.
  assert (Hlt : rx_received_frags ctx < rx_total_frags ctx).
  { destruct (Z.eq_dec (rx_received_frags ctx) (rx_total_frags ctx)) as [He|]; [|lia].
    rewrite (rx_count_total _ Hwf) in He.
    pose proof (proj1 (zsum_full (rx_bit ctx) (rx_total_frags ctx) ltac:(lia) ltac:(intros; apply (wf_bits _ Hwf))) He fi Hfi).
    lia. }
  pose proof (wf_len _ Hwf) as Hwl. unfold FRAG_MAX_PAYLOAD_LEN in *.
  split; [|split; [exact Hbits|split; [reflexivity|split; [lia|]]]].
  - constructor; rsimpl; try rewrite FRAG_MAX_FRAGS_eq.
    + rewrite length_insert. exact Hbm.
    + rewrite (mem_write_length _ _ _ _ Hw). exact Hbuf.
    + eapply mem_write_bytes; [apply (wf_bytes _ Hwf)| |exact Hw].
      rewrite Hsv. apply Forall_take, Hbytes.
    + intros i. rewrite Hbits. case_if; [lia|apply (wf_bits _ Hwf)].
    + lia.
    + apply (wf_active _ Hwf).
    + intros i Hi. rewrite Hbits. destruct (Z.eqb_spec i fi); [lia|].
      apply (wf_beyond _ Hwf). rewrite FRAG_MAX_FRAGS_eq. lia.
    + rewrite u8_id by (unfold in_width; lia).
      rewrite (zsum_upd (rx_bit ctx) _ 72 fi); [|lia|].
      * rewrite Hbits, Z.eqb_refl, Hbeq. rewrite (wf_count _ Hwf), FRAG_MAX_FRAGS_eq. lia.
      * intros i _ Hne. rewrite Hbits. destruct (Z.eqb_spec i fi); [contradiction|reflexivity].
    + unfold FRAG_MAX_PAYLOAD_LEN. rewrite u8_id, u16_id by (unfold in_width; lia). lia.
  - intros _. rsimpl. rewrite u8_id, u16_id by (unfold in_width; lia).
    rewrite <- Hsv. auto.
Qed.

(** Adding any fragment whose arguments passed the header parser. *)
Lemma rx_add_total ctx mt nid mid fi tf d len :
  rx_wf ctx -> 0 <= fi < tf -> tf <= FRAG_MAX_FRAGS -> 0 <= len <= FRAG_MAX_PAYLOAD_LEN ->
  len <= Z.of_nat (length d) -> all_bytes d ->
  exists added ctx', fragment_rx_add ctx mt nid mid fi tf (Some d) len = Some (added, ctx') /\ rx_wf ctx'.
Proof.
  intros Hwf Hfi Htf Hlen Hd Hb. rewrite rx_add_eq by lia. case_if; [|eauto].
  case_bools. destruct (rx_claim_wf ctx mt nid mid tf) as (Hc & _ & Ht); [assumption|lia|assumption|].
  destruct (rx_store_wf (rx_claim ctx mt nid mid tf) fi d len) as (c' & E & Hc' & _);
    [exact Hc|lia|exact Hlen|exact Hd|exact Hb|]. eauto.
Qed.

(** ** The datagrams of a message *)

(** The payload length of fragment [i] of a message of [len] bytes. *)
Definition frag_len (len i : Z) : Z := Z.min FRAG_MAX_PAYLOAD_LEN (len - FRAG_MAX_PAYLOAD_LEN * i).

Definition frag_payload (data : bytes) (len i : Z) : bytes :=
  take (Z.to_nat (frag_len len i)) (drop (Z.to_nat (FRAG_MAX_PAYLOAD_LEN * i)) data).

(** The datagram that carries fragment [i]. *)
Definition frag_packet (data : bytes) (len msg_type node_id msg_id flags i : Z) : bytes :=
  header_bytes msg_type node_id msg_id i (fragment_tx_count len) (frag_len len i) flags
    ++ frag_payload data len i.

Definition frag_packets (data : bytes) (len msg_type node_id msg_id flags : Z) : list bytes :=
  frag_packet data len msg_type node_id msg_id flags <$> upto (fragment_tx_count len).

Lemma tx_count_spec len :
  0 < len <= FRAG_MAX_MESSAGE_LEN ->
  fragment_tx_count len = (len + 63) / 64 /\ 1 <= fragment_tx_count len <= 72 /\
  64 * (fragment_tx_count len - 1) < len <= 64 * fragment_tx_count len.
Proof.
  intros Hlen. unfold FRAG_MAX_MESSAGE_LEN in Hlen.
  assert (Hq : 1 <= (len + 63) / 64 <= 72) by (split; [apply Z.div_le_lower_bound|
    apply Z.lt_succ_r, Z.div_lt_upper_bound]; lia).
  pose proof (Z.div_mod (len + 63) 64 ltac:(lia)) as Hdm.
  pose proof (Z.mod_pos_bound (len + 63) 64 ltac:(lia)) as Hmb.
  assert (Heq : fragment_tx_count len = (len + 63) / 64).
  { unfold fragment_tx_count, FRAG_MAX_PAYLOAD_LEN. rewrite FRAG_MAX_FRAGS_eq.
    destruct (Z.eqb_spec len 0); [lia|].
    replace (len + 64 - 1) with (len + 63) by lia.
    rewrite u16_id by (unfold in_width; lia).
    destruct (Z.eqb_spec ((len + 63) / 64) 0); [lia|].
    destruct (Z.ltb_spec 72 ((len + 63) / 64)); [lia|]. simpl.
    apply u8_id. unfold in_width; lia. }
  rewrite Heq. lia.
Qed.

Lemma frag_len_bounds len i :
  0 < len <= FRAG_MAX_MESSAGE_LEN -> 0 <= i < fragment_tx_count len ->
  0 < frag_len len i <= 64 /\ 64 * i + frag_len len i <= len.
Proof.
  intros Hlen Hi. destruct (tx_count_spec len Hlen) as (_ & ? & ?).
  unfold frag_len, FRAG_MAX_PAYLOAD_LEN. lia.
Qed.

Lemma frag_payload_length data len i :
  0 < len <= FRAG_MAX_MESSAGE_LEN -> 0 <= i < fragment_tx_count len ->
  len <= Z.of_nat (length data) ->
  Z.of_nat (length (frag_payload data len i)) = frag_len len i.
Proof.
  intros Hlen Hi Hd. pose proof (frag_len_bounds len i Hlen Hi).
  unfold frag_payload. rewrite length_take, length_drop. unfold FRAG_MAX_PAYLOAD_LEN. lia.
Qed.

Lemma frag_packet_length data len mt nid mid flags i :
  0 < len <= FRAG_MAX_MESSAGE_LEN -> 0 <= i < fragment_tx_count len ->
  len <= Z.of_nat (length data) ->
  Z.of_nat (length (frag_packet data len mt nid mid flags i)) = 10 + frag_len len i.
Proof.
  intros. unfold frag_packet. rewrite length_app, Nat2Z.inj_add, frag_payload_length by auto.
  reflexivity.
Qed.

(** The fragments' lengths add up to the message's. *)
Lemma frag_len_sum len n :
  0 <= n -> 0 < len -> zsum (frag_len len) n = Z.min (64 * n) len \/ len < 64 * (n - 1).
Proof.
  intros Hn Hlen. revert n Hn.
  apply (range_ind (fun n => zsum (frag_len len) n = Z.min (64 * n) len \/ len < 64 * (n - 1))).
  - left. rewrite zsum_0. lia.
  - intros n Hn [IH|IH]; [|right; lia].
    destruct (Z.ltb_spec len (64 * n)); [right; lia|left].
    rewrite zsum_succ, IH by lia. unfold frag_len, FRAG_MAX_PAYLOAD_LEN. lia.
Qed.

(** One iteration of the loop: the buffer it fills holds the datagram of the
    fragment, whatever the buffer held before. *)
Lemma tx_iteration data len mt nid mid flags i frag :
  0 < len <= FRAG_MAX_MESSAGE_LEN -> len <= Z.of_nat (length data) ->
  0 <= i < fragment_tx_count len -> length frag = 74%nat ->
  exists frag1 pay buf,
    pqc_header_write frag mt nid mid i (fragment_tx_count len) (frag_len len i) flags
      = Some frag1 /\
    mem_read data (i * 64) (frag_len len i) = Some pay /\
    mem_write frag1 10 pay = Some buf /\ length buf = 74%nat /\
    take (Z.to_nat (10 + frag_len len i)) buf = frag_packet data len mt nid mid flags i.
Proof.
  intros Hlen Hdata Hi Hfrag. pose proof (frag_len_bounds len i Hlen Hi) as [Hfl Hfle].
  destruct (mem_read_total data (i * 64) (frag_len len i)) as (pay & Hpay & Hpl & Hpv); [lia..|].
  rewrite header_write_eq by lia. do 3 eexists. split; [reflexivity|]. split; [exact Hpay|].
  rewrite mem_write_total.
  2: lia.
  2: { rewrite length_app, length_drop. unfold header_bytes. cbn [length]. lia. }
  split; [reflexivity|]. rewrite take_app_le by (simpl; lia). rewrite take_ge by (simpl; lia).
  rewrite drop_app_ge by (simpl; lia). rewrite drop_drop. split.
  - rewrite !length_app, length_drop. simpl. lia.
  - rewrite app_assoc, take_app_le by (rewrite length_app; simpl; lia).
    rewrite take_ge by (rewrite length_app; simpl; lia).
    unfold frag_packet, frag_payload. f_equal. rewrite Hpv. f_equal. f_equal.
    unfold FRAG_MAX_PAYLOAD_LEN. lia.
Qed.

(** Cutting a message up loses nothing. *)
Lemma frag_payloads_prefix data len n :
  0 < len <= FRAG_MAX_MESSAGE_LEN -> len <= Z.of_nat (length data) ->
  0 <= n -> n <= fragment_tx_count len ->
  concat (frag_payload data len <$> upto n) = take (Z.to_nat (Z.min (64 * n) len)) data.
Proof.
  intros Hlen Hd Hn. destruct (tx_count_spec len Hlen) as (_ & Htot & Hcov). revert n Hn.
  apply (range_ind (fun n => n <= _ -> concat (_ <$> upto n) = take _ data)).
  - intros _. rewrite Z.min_l by lia. reflexivity.
  - intros n Hn IH Hle. rewrite upto_snoc, fmap_app, concat_app, IH by lia. simpl.
    rewrite app_nil_r. unfold frag_payload, frag_len, FRAG_MAX_PAYLOAD_LEN.
    rewrite Z.min_l by lia. rewrite take_take_drop. f_equal. lia.
Qed.

Lemma frag_payloads_concat data len mt nid mid flags :
  0 < len <= FRAG_MAX_MESSAGE_LEN -> len <= Z.of_nat (length data) ->
  concat (drop 10 <$> frag_packets data len mt nid mid flags) = take (Z.to_nat len) data.
Proof.
  intros Hlen Hd. destruct (tx_count_spec len Hlen) as (_ & Htot & Hcov).
  unfold frag_packets. rewrite <- list_fmap_compose.
  rewrite (list_fmap_ext _ (frag_payload data len)) by reflexivity.
  rewrite frag_payloads_prefix by lia. f_equal. lia.
Qed.

Section TxSpec.
Context `{Platform} {S : Type}.

(** The rule for a transmission: [Inv sent] holds while the send function has
    accepted the datagrams [sent]; a refusal ends the transmission. *)
Lemma wp_fragment_tx (Inv : list bytes -> env -> S -> Prop) (send_fn : fragment_send_fn_t S)
    (Q : bool -> env -> S -> Prop) data len mt nid mid flags e s :
  0 < len <= FRAG_MAX_MESSAGE_LEN -> len <= Z.of_nat (length data) ->
  Inv [] e s ->
  (forall sent i buf n e s,
     0 <= i < fragment_tx_count len ->
     Z.of_nat (length sent) = i ->
     n = 10 + frag_len len i -> length buf = 74%nat ->
     take (Z.to_nat n) buf = frag_packet data len mt nid mid flags i ->
     Inv sent e s ->
     wp (send_fn buf n) (fun ok e' s' =>
       if ok then Inv (sent ++ [frag_packet data len mt nid mid flags i]) e' s'
       else Q false e' s') e s) ->
  (forall e s, Inv (frag_packets data len mt nid mid flags) e s -> Q true e s) ->
  wp (fragment_tx (Some data) len mt nid mid flags (Some send_fn)) Q e s.
Proof.
  intros Hlen Hdata H0 Hsend Hend. unfold fragment_tx.
  destruct (tx_count_spec len Hlen) as (_ & Htot & Hcov).
  destruct (Z.eqb_spec len 0); [lia|].
  destruct (Z.eqb_spec (fragment_tx_count len) 0); [lia|].
  set (P := frag_packet data len mt nid mid flags) in *.
  enough (Hgen : forall rest sent frag e s,
    upto (fragment_tx_count len) = upto (Z.of_nat (length sent)) ++ rest ->
    sent = P <$> upto (Z.of_nat (length sent)) ->
    length frag = 74%nat -> Inv sent e s ->
    wp (fragment_tx_loop data len mt nid mid flags (fragment_tx_count len) send_fn rest frag)
       Q e s).
  { apply (Hgen (upto (fragment_tx_count len)) []); auto. }
  clear H0. induction rest as [|i rest IH]; intros sent frag e' s' Hup Hsent Hfrag Hinv; simpl.
  - apply wp_ret, Hend. rewrite app_nil_r in Hup. unfold frag_packets. rewrite Hup.
    fold P. rewrite <- Hsent. exact Hinv.
  - assert (Hi : 0 <= i < fragment_tx_count len /\ i = Z.of_nat (length sent)).
    { assert (Hl : upto (fragment_tx_count len) !! length sent = Some i).
      { rewrite Hup, lookup_app_r by (rewrite length_upto; lia).
        rewrite length_upto, Nat2Z.id, Nat.sub_diag. reflexivity. }
      unfold upto in Hl. apply lookup_seqZ in Hl. lia. }
    destruct Hi as [Hi Hil].
    pose proof (frag_len_bounds len i Hlen Hi) as [Hfl Hfle].
    change FRAG_MAX_PAYLOAD_LEN with 64. change FRAG_HEADER_LEN with 10.
    pose proof Hlen as Hlen'. unfold FRAG_MAX_MESSAGE_LEN in Hlen'.
    rewrite (u16_id (i * 64)) by (unfold in_width; lia).
    rewrite (u16_id (len - i * 64)) by (unfold in_width; lia).
    replace (if 64 <? len - i * 64 then 64 else len - i * 64) with (frag_len len i).
    2: { unfold frag_len, FRAG_MAX_PAYLOAD_LEN. case_if; case_bools; lia. }
    rewrite u8_id by (unfold in_width; lia).
    destruct (tx_iteration data len mt nid mid flags i frag) as
      (frag1 & pay & buf & Hw & Hr & Hwr & Hbl & Hbuf); [assumption..|].
    apply wp_bind, wp_lift. exists frag1. split; [exact Hw|].
    apply wp_bind, wp_lift. exists pay. split; [exact Hr|].
    apply wp_bind, wp_lift. exists buf. split; [exact Hwr|].
    rewrite u16_id by (unfold in_width; lia).
    apply wp_bind. eapply wp_mono; [|apply (Hsend sent i buf _ e' s' Hi)].
    + intros [|] e'' s'' Hok; simpl; [|apply wp_ret, Hok].
      assert (Hsl : length (sent ++ [P i]) = Datatypes.S (length sent))
        by (rewrite length_app; simpl; lia).
      apply (IH (sent ++ [P i])); [| | |exact Hok].
      * rewrite Hsl, Nat2Z.inj_succ. rewrite Hup, <- Z.add_1_r, upto_snoc by lia.
        rewrite <- app_assoc, <- Hil. reflexivity.
      * rewrite Hsl, Nat2Z.inj_succ, <- Z.add_1_r, upto_snoc by lia.
        rewrite fmap_app, <- Hsent, <- Hil. reflexivity.
      * exact Hbl.
    + lia.
    + reflexivity.
    + exact Hbl.
    + exact Hbuf.
    + exact Hinv.
Qed.

End TxSpec.

(** ** Receiving *)

(** What the receive path of [hs_fsm_handle_fragment] does with a datagram: parse
    the header and add the payload behind it to the context. *)
Definition rx_packet (ctx : fragment_rx_ctx_t) (pkt : bytes)
    : option (bool * fragment_rx_ctx_t) :=
  h ← parse_fragment_header (Some pkt) (Z.of_nat (length pkt));
  match h with
  | None => Some (false, ctx)
  | Some h => fragment_rx_add ctx (fh_msg_type h) (fh_node_id h) (fh_msg_id h)
                (fh_frag_idx h) (fh_total_frags h) (Some (drop 10 pkt)) (fh_frag_len h)
  end.

(** A sequence of datagrams received one after the other. *)
Fixpoint rx_packets (ctx : fragment_rx_ctx_t) (pkts : list bytes) : option fragment_rx_ctx_t :=
  match pkts with
  | [] => Some ctx
  | pkt :: pkts => r ← rx_packet ctx pkt; rx_packets r.2 pkts
  end.

Lemma parse_packet data len mt nid mid flags i :
  0 < len <= FRAG_MAX_MESSAGE_LEN -> len <= Z.of_nat (length data) ->
  0 <= i < fragment_tx_count len -> is_u16 nid ->
  parse_fragment_header (Some (frag_packet data len mt nid mid flags i))
      (Z.of_nat (length (frag_packet data len mt nid mid flags i))) =
    Some (Some (mk_fragment_header mt nid mid i (fragment_tx_count len) (frag_len len i))).
Proof.
  intros Hlen Hd Hi Hn. rewrite frag_packet_length by assumption.
  pose proof (frag_len_bounds len i Hlen Hi) as [Hfl _].
  destruct (tx_count_spec len Hlen) as (_ & Htot & _).
  unfold parse_fragment_header, frag_packet. change FRAG_HEADER_LEN with 10.
  destruct (Z.ltb_spec (10 + frag_len len i) 10); [lia|].
  rewrite header_node_id_eq by exact Hn.
  unfold header_bytes. autounfold with c_consts.
  rewrite !cell_lookup by lia. simpl. rewrite FRAG_MAX_FRAGS_eq.
  destruct (Z.eqb_spec (fragment_tx_count len) 0); [lia|].
  destruct (Z.ltb_spec 72 (fragment_tx_count len)); [lia|].
  destruct (Z.leb_spec (fragment_tx_count len) i); [lia|].
  destruct (Z.ltb_spec 64 (frag_len len i)); [lia|]. simpl.
  rewrite u16_id by (unfold in_width; lia).
  destruct (Z.leb_spec (10 + frag_len len i) (10 + frag_len len i)); [reflexivity|lia].
Qed.

Section Reassembly.
Context (data : bytes) (len mt nid mid flags : Z).
Hypothesis Hlen : 0 < len <= FRAG_MAX_MESSAGE_LEN.
Hypothesis Hdata : len <= Z.of_nat (length data).
Hypothesis Hbytes : all_bytes data.
Hypothesis Hnid : is_u16 nid.

Let total := fragment_tx_count len.
Let packet := frag_packet data len mt nid mid flags.

(** The context after the fragments [seen] of the message have been received. *)
Record rx_seen (seen : list Z) (ctx : fragment_rx_ctx_t) : Prop := {
  seen_wf : rx_wf ctx;
  seen_id : seen = [] /\ rx_active ctx = 0 \/
            rx_active ctx = 1 /\ rx_msg_type ctx = mt /\ rx_node_id ctx = nid /\
            rx_msg_id ctx = mid /\ rx_total_frags ctx = total;
  seen_bits : forall i, 0 <= i < total -> rx_bit ctx i = if bool_decide (i ∈ seen) then 1 else 0;
  seen_len : rx_received_len ctx = zsum (fun i => rx_bit ctx i * frag_len len i) total;
  seen_data : forall k, (k < Z.to_nat len)%nat -> Z.of_nat k / 64 ∈ seen ->
              rx_buffer ctx !! k = data !! k;
}.

(** The buffer after storing fragment [i]. *)
Lemma rx_seen_data_step seen ctx c c' i :
  rx_seen seen ctx -> 0 <= i < total -> rx_buffer c = rx_buffer ctx ->
  rx_bit c i = rx_bit ctx i ->
  (rx_bit c i = 1 -> c' = c) ->
  (rx_bit c i = 0 ->
     mem_write (rx_buffer c) (i * 64)
       (take (Z.to_nat (frag_len len i)) (frag_payload data len i)) = Some (rx_buffer c')) ->
  forall k, (k < Z.to_nat len)%nat -> Z.of_nat k / 64 ∈ seen ++ [i] ->
            rx_buffer c' !! k = data !! k.
Proof.
  intros Hseen Hi Hbuf Hbit Hdup Hnew k Hk Hin. unfold total in Hi.
  pose proof (frag_len_bounds len i Hlen Hi) as [Hfl Hfle].
  destruct (tx_count_spec len Hlen) as (_ & Htot & Hcov).
  pose proof (Z.div_mod (Z.of_nat k) 64 ltac:(lia)) as Hdm.
  pose proof (Z.mod_pos_bound (Z.of_nat k) 64 ltac:(lia)) as Hmb.
  pose proof (frag_payload_length data len i Hlen Hi Hdata) as Hpl.
  pose proof (seen_bits _ _ Hseen i Hi) as Hb.
  destruct (decide (i ∈ seen)) as [Hs|Hs].
  - rewrite bool_decide_true in Hb by exact Hs. rewrite (Hdup ltac:(congruence)), Hbuf.
    apply (seen_data _ _ Hseen); [exact Hk|].
    apply elem_of_app in Hin as [Hin|Hin]; [exact Hin|].
    apply list_elem_of_singleton in Hin. rewrite Hin. exact Hs.
  - rewrite bool_decide_false in Hb by exact Hs. specialize (Hnew ltac:(congruence)).
    rewrite (mem_write_lookup _ _ _ _ k Hnew). rewrite take_ge by lia. rewrite Hpl.
    case_if; case_bools.
    + unfold frag_payload, FRAG_MAX_PAYLOAD_LEN.
      rewrite lookup_take_lt by lia. rewrite lookup_drop. f_equal. lia.
    + rewrite Hbuf. apply (seen_data _ _ Hseen); [exact Hk|].
      apply elem_of_app in Hin as [Hin|Hin]; [exact Hin|].
      apply list_elem_of_singleton in Hin. unfold frag_len, FRAG_MAX_PAYLOAD_LEN in *.
      match goal with Hd : _ \/ _ |- _ => destruct Hd end; case_bools; lia.
Qed.

(** A fragment of the message is accepted and stored in the claimed context. *)
Lemma rx_packet_store seen ctx i (c := rx_claim ctx mt nid mid total) :
  rx_seen seen ctx -> 0 <= i < total ->
  rx_packet ctx (packet i) =
    fragment_rx_store c i (i * 64) (frag_payload data len i) (frag_len len i) /\
  rx_wf c /\ rx_active c = 1 /\
  (rx_msg_type c, rx_node_id c, rx_msg_id c, rx_total_frags c) = (mt, nid, mid, total) /\
  (forall j, rx_bit c j = rx_bit ctx j) /\ rx_buffer c = rx_buffer ctx /\
  rx_received_len c = rx_received_len ctx.
Proof.
  intros Hseen Hi. unfold total in Hi. pose proof (frag_len_bounds len i Hlen Hi) as [Hfl _].
  destruct (tx_count_spec len Hlen) as (_ & Htot & _).
  assert (Hm : rx_matches ctx mt nid mid total = true).
  { unfold rx_matches. destruct (seen_id _ _ Hseen) as [[_ ->]|(-> & -> & -> & -> & ->)].
    - reflexivity.
    - rewrite !Z.eqb_refl. apply orb_true_r. }
  destruct (rx_claim_wf ctx mt nid mid total (seen_wf _ _ Hseen)) as (Hcwf & Hca & Hct);
    [unfold total; rewrite FRAG_MAX_FRAGS_eq; lia|exact Hm|].
  split; [|split; [exact Hcwf|split; [exact Hca|]]].
  - unfold rx_packet, packet. rewrite parse_packet by assumption. simpl.
    change (drop 10 (frag_packet data len mt nid mid flags i)) with (frag_payload data len i).
    rewrite rx_add_eq by lia. fold total. rewrite Hm.
    replace (rx_args_ok i total (frag_len len i)) with true; [reflexivity|].
    unfold rx_args_ok. rewrite FRAG_MAX_FRAGS_eq. symmetry. apply negb_true_iff.
    rewrite !orb_false_iff, Z.eqb_neq, Z.leb_gt, !Z.ltb_ge.
    unfold FRAG_MAX_PAYLOAD_LEN, total. lia.
  - unfold c, rx_claim in *. destruct (Z.eqb_spec (rx_active ctx) 0) as [Ha|Ha]; [auto|].
    destruct (seen_id _ _ Hseen) as [[_ ?]|(_ & -> & -> & -> & _)]; [contradiction|].
    rewrite Hct. auto.
Qed.

Lemma rx_seen_step seen ctx i :
  rx_seen seen ctx -> 0 <= i < total ->
  exists ctx', rx_packet ctx (packet i) = Some (true, ctx') /\ rx_seen (seen ++ [i]) ctx'.
Proof.
  intros Hseen Hi. destruct (rx_packet_store seen ctx i Hseen Hi)
    as (-> & Hcwf & Hca & Hcid & Hcb & Hcbuf & Hclen).
  set (c := rx_claim ctx mt nid mid total) in *. injection Hcid as Hcmt Hcni Hcmi Hctf.
  pose proof (frag_len_bounds len i Hlen Hi) as [Hfl _].
  pose proof (frag_payload_length data len i Hlen Hi Hdata) as Hpl.
  destruct (rx_store_wf c i (frag_payload data len i) (frag_len len i))
    as (c' & Hst & Hwf' & Hbits & Hid & Hdup & Hnew);
    [exact Hcwf|lia|unfold FRAG_MAX_PAYLOAD_LEN; lia|lia|apply Forall_take, Forall_drop, Hbytes|].
  exists c'. split; [exact Hst|]. injection Hid as Ha' Hmt' Hni' Hmi' Htf'.
  assert (Hb0 : rx_bit c i = 0 \/ rx_bit c i = 1) by (pose proof (wf_bits _ Hcwf i); lia).
  constructor.
  - exact Hwf'.
  - right. repeat split; congruence.
  - intros j Hj. rewrite Hbits, Hcb, (seen_bits _ _ Hseen j Hj).
    destruct (Z.eqb_spec j i) as [->|Hne].
    + rewrite bool_decide_true; [reflexivity|]. set_solver.
    + assert (Hiff : j ∈ seen <-> j ∈ seen ++ [i]) by set_solver.
      rewrite (bool_decide_ext _ _ Hiff). reflexivity.
  - pose proof (seen_len _ _ Hseen) as Hsl.
    rewrite (zsum_upd (fun j => rx_bit ctx j * frag_len len j) _ _ i Hi).
    + rewrite Hbits, Z.eqb_refl, <- (Hcb i). destruct Hb0 as [Hb|Hb]; rewrite Hb.
      * destruct (Hnew Hb) as (-> & _). rewrite Hclen, Hsl. lia.
      * rewrite (Hdup Hb), Hclen, Hsl. lia.
    + intros j Hj Hne. rewrite Hbits, Hcb. destruct (Z.eqb_spec j i); [contradiction|reflexivity].
  - apply (rx_seen_data_step seen ctx c c' i); auto. intros Hb. apply (Hnew Hb).
Qed.

Lemma rx_seen_packets idxs : Forall (fun i => 0 <= i < total) idxs ->
  forall seen ctx, rx_seen seen ctx ->
  exists ctx', rx_packets ctx (packet <$> idxs) = Some ctx' /\ rx_seen (seen ++ idxs) ctx'.
Proof.
  induction 1 as [|i idxs Hi _ IH]; intros seen ctx Hseen; simpl.
  - exists ctx. rewrite app_nil_r. auto.
  - destruct (rx_seen_step seen ctx i Hseen Hi) as (c1 & -> & Hs1). simpl.
    destruct (IH _ _ Hs1) as (c2 & Hc2 & Hs2). exists c2. rewrite <- app_assoc in Hs2. auto.
Qed.

Lemma rx_seen_all seen ctx :
  rx_seen seen ctx -> (forall i, 0 <= i < total -> i ∈ seen) ->
  fragment_rx_complete ctx = true /\ fragment_rx_len ctx = len /\
  take (Z.to_nat len) (rx_buffer ctx) = take (Z.to_nat len) data.
Proof.
  intros Hseen Hall. destruct (tx_count_spec len Hlen) as (_ & Htot & Hcov).
  assert (Hact : rx_active ctx = 1 /\ rx_total_frags ctx = total).
  { destruct (seen_id _ _ Hseen) as [[-> _]|(? & _ & _ & _ & ?)]; [|auto].
    destruct (not_elem_of_nil 0). apply Hall. unfold total. lia. }
  assert (Hbit : forall i, 0 <= i < total -> rx_bit ctx i = 1).
  { intros i Hi. rewrite (seen_bits _ _ Hseen i Hi).
    rewrite bool_decide_true by (apply Hall, Hi). reflexivity. }
  assert (Hcomp : fragment_rx_complete ctx = true).
  { unfold fragment_rx_complete. destruct Hact as [-> Ht]. simpl. apply Z.eqb_eq.
    rewrite (rx_count_total _ (seen_wf _ _ Hseen)), Ht.
    apply zsum_full; [unfold total; lia|intros; apply (wf_bits _ (seen_wf _ _ Hseen))|exact Hbit]. }
  split; [exact Hcomp|]. split.
  - unfold fragment_rx_len. rewrite Hcomp, (seen_len _ _ Hseen).
    rewrite (zsum_ext _ (frag_len len)); [|unfold total; lia|].
    + destruct (frag_len_sum len total) as [->|?]; unfold total in *; lia.
    + intros i Hi. rewrite Hbit by exact Hi. lia.
  - apply list_eq. intros k. destruct (Nat.lt_ge_cases k (Z.to_nat len)) as [Hk|Hk].
    + rewrite !lookup_take_lt by exact Hk. apply (seen_data _ _ Hseen); [exact Hk|].
      apply Hall. unfold total. split; [apply Z.div_pos; lia|]. apply Z.div_lt_upper_bound; lia.
    + rewrite !lookup_take_ge by exact Hk. reflexivity.
Qed.

Lemma rx_seen_init : rx_seen [] fragment_rx_init.
Proof.
  assert (Hz : forall i, rx_bit fragment_rx_init i = 0) by (intros; apply zeros_lookup).
  destruct (tx_count_spec len Hlen) as (_ & Htot & _).
  constructor.
  - apply rx_wf_init.
  - left. auto.
  - intros i _. rewrite Hz, bool_decide_false by set_solver. reflexivity.
  - rewrite (zsum_ext _ (fun _ => 0)); [|unfold total; lia|intros; rewrite Hz; lia].
    rewrite zsum_const by (unfold total; lia). reflexivity.
  - set_solver.
Qed.

End Reassembly.

(** ** Properties *)

#[local] Existing Instance example_platform | 100.

(** C6. A receive context that satisfies the invariant keeps it through any call
    of [fragment_rx_add]: for every header and every payload buffer at least as
    long as announced the call does not touch memory outside the context or the
    payload, a rejected fragment changes nothing, and the counters never
    overflow. *)
Theorem fragment_rx_add_safe ctx mt nid mid fi tf d len :
  rx_wf ctx -> is_u8 fi -> is_u8 tf -> is_u8 len -> all_bytes d ->
  len <= Z.of_nat (length d) ->
  exists ok ctx', fragment_rx_add ctx mt nid mid fi tf (Some d) len = Some (ok, ctx') /\
    rx_wf ctx' /\ (ok = false -> ctx' = ctx) /\
    (ok = rx_args_ok fi tf len && rx_matches ctx mt nid mid tf).
Proof.
  intros Hwf Hfi Htf Hl Hb Hd. unfold in_width in *.
  rewrite rx_add_eq by lia. destruct (rx_args_ok fi tf len) eqn:Hargs; simpl; [|eauto 10].
  destruct (rx_matches ctx mt nid mid tf) eqn:Hm; [|eauto 10].
  unfold rx_args_ok in Hargs. case_bools.
  destruct (rx_claim_wf ctx mt nid mid tf Hwf) as (Hc & _ & Ht); [lia|exact Hm|].
  destruct (rx_store_wf (rx_claim ctx mt nid mid tf) fi d len)
    as (ctx' & Hst & Hwf' & _); [exact Hc|lia..|exact Hb|].
  exists true, ctx'. rewrite Hst. split; [reflexivity|]. split; [exact Hwf'|]. split; [discriminate|reflexivity].
Qed.

Example fragment_rx_add_safe_witness :
  exists ok ctx', fragment_rx_add fragment_rx_init PQC_MSG_PK 7 1 3 36 (Some (zeros 64)) 64 = Some (ok, ctx') /\
    rx_wf ctx' /\ (ok = false -> ctx' = fragment_rx_init) /\
    (ok = rx_args_ok 3 36 64 && rx_matches fragment_rx_init PQC_MSG_PK 7 1 36).
Proof.
  apply (fragment_rx_add_safe fragment_rx_init); [apply rx_wf_init|decided..|].
  vm_compute. discriminate.
Defined.

(** C5. Reassembly inverts fragmentation on any network: when the datagrams of a
    message arrive in any order, with any duplicates, and each at least once, a
    fresh context ends complete, with the message's length and contents. *)
Theorem reassembly_any_order data len mt nid mid flags pkts :
  0 < len <= FRAG_MAX_MESSAGE_LEN -> len <= Z.of_nat (length data) ->
  all_bytes data -> is_u16 nid ->
  Forall (fun p => p ∈ frag_packets data len mt nid mid flags) pkts ->
  Forall (fun p => p ∈ pkts) (frag_packets data len mt nid mid flags) ->
  exists ctx, rx_packets fragment_rx_init pkts = Some ctx /\
    fragment_rx_complete ctx = true /\ fragment_rx_len ctx = len /\
    exists buf, fragment_rx_data ctx = Some buf /\
      take (Z.to_nat len) buf = take (Z.to_nat len) data.
Proof.
  intros Hlen Hd Hb Hn Hin Hall. unfold frag_packets in *.
  set (packet := frag_packet data len mt nid mid flags) in *.
  assert (Hex : exists idxs, pkts = packet <$> idxs /\
                  Forall (fun i => 0 <= i < fragment_tx_count len) idxs).
  { clear Hall. induction Hin as [|p pkts Hp _ (idxs & -> & IH)]; [exists []; auto|].
    apply list_elem_of_fmap in Hp as (i & -> & Hi). rewrite elem_of_upto in Hi.
    exists (i :: idxs). split; [reflexivity|]. constructor; assumption. }
  destruct Hex as (idxs & -> & Hidx).
  destruct (rx_seen_packets data len mt nid mid flags Hlen Hd Hb Hn idxs Hidx [] fragment_rx_init)
    as (ctx & Hrx & Hseen).
  { apply rx_seen_init; assumption. }
  exists ctx. split; [exact Hrx|].
  destruct (rx_seen_all data len mt nid mid Hlen idxs ctx Hseen) as (Hc & Hl & Hdata).
  { intros i Hi. rewrite list.Forall_forall in Hall.
    assert (Hpi : packet i ∈ packet <$> idxs).
    { apply Hall. apply list_elem_of_fmap_2. apply elem_of_upto. exact Hi. }
    apply list_elem_of_fmap in Hpi as (j & Heq & Hj). rewrite list.Forall_forall in Hidx.
    pose proof (f_equal (fun l => l !! 5%nat) Heq) as H5. injection H5 as ->. exact Hj. }
  split; [exact Hc|]. split; [exact Hl|]. exists (rx_buffer ctx). unfold fragment_rx_data.
  rewrite Hc. auto.
Qed.

(** Three fragments, the last one first and the middle one twice. *)
Example reassembly_any_order_witness :
  let pkts := frag_packets (upto 150) 150 PQC_MSG_PK 258 7 0 in
  exists ctx, rx_packets fragment_rx_init (rev pkts ++ take 2 pkts) = Some ctx /\
    fragment_rx_complete ctx = true /\ fragment_rx_len ctx = 150 /\
    exists buf, fragment_rx_data ctx = Some buf /\
      take (Z.to_nat 150) buf = take (Z.to_nat 150) (upto 150).
Proof.
  intros pkts. apply (reassembly_any_order (upto 150) 150 PQC_MSG_PK 258 7 0); decided.
Defined.

(** [fragment_tx] hands the send function exactly the datagrams of the
    message, in order and each at most 74 bytes long; their headers parse back to
    the message's identity and the fragment's index, and their payloads are the
    message. *)
Theorem fragment_tx_emits `{Platform} data len mt nid mid flags e :
  0 < len <= FRAG_MAX_MESSAGE_LEN -> len <= Z.of_nat (length data) -> is_u16 nid ->
  let record : fragment_send_fn_t (list bytes) :=
    fun buf n => modify (fun sent => sent ++ [take (Z.to_nat n) buf]);; mret true in
  let pkts := frag_packets data len mt nid mid flags in
  run (fragment_tx (Some data) len mt nid mid flags (Some record)) e [] = Some (true, pkts) /\
  Z.of_nat (length pkts) = (len + 63) / 64 /\
  concat (drop 10 <$> pkts) = take (Z.to_nat len) data /\
  (forall i, 0 <= i < (len + 63) / 64 -> exists p, pkts !! Z.to_nat i = Some p /\
     (length p <= 74)%nat /\
     parse_fragment_header (Some p) (Z.of_nat (length p)) =
       Some (Some (mk_fragment_header mt nid mid i ((len + 63) / 64) (frag_len len i)))).
Proof.
  intros Hlen Hd Hn record pkts. destruct (tx_count_spec len Hlen) as (Hcnt & Htot & Hcov).
  split; [|split; [|split]].
  - assert (Hwp : wp (fragment_tx (Some data) len mt nid mid flags (Some record))
                    (fun ok _ s => ok = true /\ s = pkts) e []).
    { apply (wp_fragment_tx (fun sent _ s => s = sent)); auto.
      intros sent i buf n e' s Hi Hs Hlb Hl Ht ->. unfold record.
      apply wp_bind, wp_modify, wp_ret. rewrite Ht. reflexivity. }
    apply wp_run in Hwp as (ok & e' & s' & Hrun & -> & ->). unfold run. rewrite Hrun. reflexivity.
  - unfold pkts, frag_packets. rewrite length_fmap, length_upto. lia.
  - unfold pkts. apply frag_payloads_concat; assumption.
  - intros i Hi. rewrite <- Hcnt in Hi |- *. exists (frag_packet data len mt nid mid flags i).
    unfold pkts, frag_packets. rewrite list_lookup_fmap, upto_lookup by lia.
    split; [reflexivity|]. split; [|apply parse_packet; assumption].
    pose proof (frag_packet_length data len mt nid mid flags i Hlen Hi Hd).
    pose proof (frag_len_bounds len i Hlen Hi). lia.
Qed.

Example fragment_tx_emits_witness :
  let record : fragment_send_fn_t (list bytes) :=
    fun buf n => modify (fun sent => sent ++ [take (Z.to_nat n) buf]);; mret true in
  let pkts := frag_packets (upto 150) 150 PQC_MSG_PK 258 7 0 in
  run (fragment_tx (Some (upto 150)) 150 PQC_MSG_PK 258 7 0 (Some record)) example_env [] = Some (true, pkts) /\
  Z.of_nat (length pkts) = (150 + 63) / 64 /\
  concat (drop 10 <$> pkts) = take (Z.to_nat 150) (upto 150) /\
  (forall i, 0 <= i < (150 + 63) / 64 -> exists p, pkts !! Z.to_nat i = Some p /\
     (length p <= 74)%nat /\
     parse_fragment_header (Some p) (Z.of_nat (length p)) =
       Some (Some (mk_fragment_header PQC_MSG_PK 258 7 i ((150 + 63) / 64) (frag_len 150 i)))).
Proof. apply (fragment_tx_emits (upto 150) 150 PQC_MSG_PK 258 7 0 example_env); decided. Defined.

(** A message that is empty or longer than 4608 bytes is refused before any
    datagram is sent. *)
Theorem fragment_tx_refuses `{Platform} data len mt nid mid flags e :
  is_u16 len -> len = 0 \/ FRAG_MAX_MESSAGE_LEN < len ->
  forall (S : Type) (send_fn : fragment_send_fn_t S) s,
    run (fragment_tx (Some data) len mt nid mid flags (Some send_fn)) e s = Some (false, s) /\
    fragment_tx_count len = 0.
Proof.
  intros Hw Hlen S send_fn s.
  assert (Hc : fragment_tx_count len = 0).
  { unfold fragment_tx_count. unfold FRAG_MAX_MESSAGE_LEN, FRAG_MAX_PAYLOAD_LEN, in_width in *.
    rewrite FRAG_MAX_FRAGS_eq. destruct (Z.eqb_spec len 0) as [|Hne]; [reflexivity|].
    assert (Hq : 73 <= (len + 64 - 1) / 64 < 2 ^ 16).
    { split; [apply Z.div_le_lower_bound|apply Z.div_lt_upper_bound]; lia. }
    rewrite u16_id by (unfold in_width; lia).
    destruct (Z.ltb_spec 72 ((len + 64 - 1) / 64)); [|lia]. rewrite orb_true_r. reflexivity. }
  split; [|exact Hc]. unfold run, fragment_tx. destruct (len =? 0); [reflexivity|].
  rewrite Hc. reflexivity.
Qed.

Example fragment_tx_refuses_witness :
  run (fragment_tx (Some (zeros 5000)) 5000 PQC_MSG_CT 7 1 0 (Some (fun _ _ => modify Datatypes.S;; mret true)))
    example_env 0%nat = Some (false, 0%nat) /\
  fragment_tx_count 5000 = 0.
Proof. apply (fragment_tx_refuses (zeros 5000) 5000 PQC_MSG_CT 7 1 0 example_env); decided. Defined.
