(* ===== verification/Nack.v ===== *)
(** * Negative acknowledgements: [src/src/common/nack.c]

    A receiver that holds an incomplete message names up to sixteen of the
    fragments it misses; the sender of the message sends those again.  The
    objects are passed by address, so the [NULL] tests on them have no
    counterpart; a payload pointer is an [option] where a caller can pass none. *)

From S2P Require Import Prelude Protocol Fragmentation.

(* src/src/common/nack.h:8-8 PQC_NACK_MAX_MISSING *)
Definition PQC_NACK_MAX_MISSING : Z := 16.
(* src/src/common/nack.h:9-9 PQC_NACK_FIXED_LEN *)
Definition PQC_NACK_FIXED_LEN : Z := 4.
(* src/src/common/nack.h:10-10 PQC_NACK_MAX_PAYLOAD_LEN *)
Definition PQC_NACK_MAX_PAYLOAD_LEN : Z := PQC_NACK_FIXED_LEN + PQC_NACK_MAX_MISSING.

#[export] Hint Unfold PQC_NACK_MAX_MISSING PQC_NACK_FIXED_LEN PQC_NACK_MAX_PAYLOAD_LEN : c_consts.

(* src/src/common/nack.h:12-18 pqc_nack_t *)
Record pqc_nack_t := mk_nack {
  missing_msg_type : Z;
  missing_msg_id : Z;
  nk_total_frags : Z;
  missing_count : Z;
  missing : bytes;
}.
#[export] Instance eta_nack : Eta pqc_nack_t := fun r =>
  mk_nack (missing_msg_type r) (missing_msg_id r) (nk_total_frags r) (missing_count r) (missing r).

(** All bytes cleared, [memset(nack, 0, sizeof( *nack))]. *)
Definition nack_zero : pqc_nack_t := mk_nack 0 0 0 0 (zeros PQC_NACK_MAX_MISSING).

(* src/src/common/nack.c:5-18 pqc_nack_init *)
Definition pqc_nack_init (msg_type msg_id total_frags : Z) : pqc_nack_t :=
  nack_zero <| missing_msg_type := msg_type |> <| missing_msg_id := msg_id |>
    <| nk_total_frags := total_frags |>.

(** The loop stops at the first index for which its test fails. *)
(* src/src/common/nack.c:41-45 pqc_nack_build_from_rx *)
Fixpoint nack_scan (bitmap : bytes) (max_missing : Z) (idxs : list Z) (nack : pqc_nack_t)
    : option pqc_nack_t :=
  match idxs with
  | [] => Some nack
  | i :: rest =>
      if missing_count nack <? max_missing
      then bit ← cell bitmap i;
           if bit =? 0
           then m ← set_cell (missing nack) (missing_count nack) i;
                nack_scan bitmap max_missing rest
                  (nack <| missing := m |> <| missing_count ::= (fun n => u8 (n + 1)) |>)
           else nack_scan bitmap max_missing rest nack
      else Some nack
  end.

(** The returned count, and the contents of [*nack] afterwards. *)
(* src/src/common/nack.c:20-48 pqc_nack_build_from_rx *)
Definition pqc_nack_build_from_rx (rx : fragment_rx_ctx_t) (nack : pqc_nack_t) (max_missing : Z)
    : option (Z * pqc_nack_t) :=
  if (rx_active rx =? 0) || (rx_total_frags rx =? 0) then Some (0, nack) else
  let max_missing := if (max_missing =? 0) || (PQC_NACK_MAX_MISSING <? max_missing)
                     then PQC_NACK_MAX_MISSING else max_missing in
  let nack := pqc_nack_init (rx_msg_type rx) (rx_msg_id rx) (rx_total_frags rx) in
  let limit := if FRAG_MAX_FRAGS <? rx_total_frags rx then FRAG_MAX_FRAGS
               else rx_total_frags rx in
  nack ← nack_scan (rx_bitmap rx) max_missing (upto limit) nack;
  Some (missing_count nack, nack).

(* src/src/common/nack.c:73-75 pqc_nack_encode *)
Fixpoint nack_copy_out (m : bytes) (idxs : list Z) (payload : bytes) : option bytes :=
  match idxs with
  | [] => Some payload
  | i :: rest =>
      v ← cell m i;
      payload ← set_cell payload (PQC_NACK_FIXED_LEN + i) v;
      nack_copy_out m rest payload
  end.

(** The encoded length, 0 on error, and the payload buffer afterwards. *)
(* src/src/common/nack.c:50-78 pqc_nack_encode *)
Definition pqc_nack_encode (nack : pqc_nack_t) (payload : bytes) (payload_max_len : Z)
    : option (Z * bytes) :=
  if (missing_count nack =? 0) || (PQC_NACK_MAX_MISSING <? missing_count nack)
  then Some (0, payload) else
  let len := u8 (PQC_NACK_FIXED_LEN + missing_count nack) in
  if payload_max_len <? len then Some (0, payload) else
  payload ← set_cell payload 0 (missing_msg_type nack);
  payload ← set_cell payload 1 (missing_msg_id nack);
  payload ← set_cell payload 2 (nk_total_frags nack);
  payload ← set_cell payload 3 (missing_count nack);
  payload ← nack_copy_out (missing nack) (upto (missing_count nack)) payload;
  Some (len, payload).

(* src/src/common/nack.c:101-109 pqc_nack_decode *)
Fixpoint nack_copy_in (payload : bytes) (idxs : list Z) (nack : pqc_nack_t)
    : option (bool * pqc_nack_t) :=
  match idxs with
  | [] => Some (true, nack)
  | i :: rest =>
      v ← cell payload (PQC_NACK_FIXED_LEN + i);
      if nk_total_frags nack <=? v then Some (false, nack_zero) else
      m ← set_cell (missing nack) i v;
      nack_copy_in payload rest (nack <| missing := m |>)
  end.

(* src/src/common/nack.c:80-110 pqc_nack_decode *)
Definition pqc_nack_decode (payload : option bytes) (payload_len : Z) (nack : pqc_nack_t)
    : option (bool * pqc_nack_t) :=
  match payload with
  | None => Some (false, nack)
  | Some p =>
      if payload_len <? PQC_NACK_FIXED_LEN then Some (false, nack) else
      count ← cell p 3;
      total ← cell p 2;
      if (count =? 0) || (PQC_NACK_MAX_MISSING <? count) || (total =? 0)
         || (FRAG_MAX_FRAGS <? total) || negb (payload_len =? u8 (PQC_NACK_FIXED_LEN + count))
      then Some (false, nack) else
      msg_type ← cell p 0;
      msg_id ← cell p 1;
      nack_copy_in p (upto count) ((pqc_nack_init msg_type msg_id total) <| missing_count := count |>)
  end.

(* src/src/common/nack.c:120-126 pqc_nack_contains *)
Fixpoint nack_search (m : bytes) (frag_idx : Z) (idxs : list Z) : option bool :=
  match idxs with
  | [] => Some false
  | i :: rest =>
      v ← cell m i;
      if v =? frag_idx then Some true else nack_search m frag_idx rest
  end.

(* src/src/common/nack.c:112-127 pqc_nack_contains *)
Definition pqc_nack_contains (nack : pqc_nack_t) (frag_idx : Z) : option bool :=
  nack_search (missing nack) frag_idx (upto (missing_count nack)).

(** ** The abstract NACK: an identity and a list of fragment indices *)

Definition nack_of (mt mid tf : Z) (l : list Z) : pqc_nack_t :=
  mk_nack mt mid tf (Z.of_nat (length l)) (l ++ zeros (PQC_NACK_MAX_MISSING - Z.of_nat (length l))).

(** The fragments a context still misses. *)
Definition rx_missing (rx : fragment_rx_ctx_t) : list Z :=
  filter (fun i => rx_bit rx i = 0) (upto (rx_total_frags rx)).

(** The payload of a NACK datagram. *)
Definition nack_payload (mt mid tf : Z) (l : list Z) : bytes :=
  [mt; mid; tf; Z.of_nat (length l)] ++ l.

(** Writing the cell behind the used part of a zeroed array. *)
Lemma set_cell_append l n v :
  Z.of_nat (length l) < n ->
  set_cell (l ++ zeros (n - Z.of_nat (length l))) (Z.of_nat (length l)) v =
    Some ((l ++ [v]) ++ zeros (n - Z.of_nat (length (l ++ [v])))).
Proof.
  intros Hl. rewrite set_cell_total by (rewrite length_app, length_zeros; lia).
  f_equal. rewrite Nat2Z.id, insert_app_r_alt, Nat.sub_diag, length_app by lia.
  unfold zeros. simpl length.
  replace (Z.to_nat (n - Z.of_nat (length l)))
    with (Datatypes.S (Z.to_nat (n - Z.of_nat (length l + 1)))) by lia.
  simpl. rewrite <- app_assoc. reflexivity.
Qed.

Lemma nack_scan_spec bitmap max mt mid tf idxs l :
  max <= PQC_NACK_MAX_MISSING ->
  Forall (fun i => 0 <= i < Z.of_nat (length bitmap)) idxs ->
  Z.of_nat (length l) <= max ->
  nack_scan bitmap max idxs (nack_of mt mid tf l) =
    Some (nack_of mt mid tf (l ++ take (Z.to_nat max - length l)
            (filter (fun i => default 0 (cell bitmap i) = 0) idxs))).
Proof.
  intros Hmax Hidx. autounfold with c_consts in Hmax.
  revert l. induction Hidx as [|i idxs Hi _ IH]; intros l Hl; simpl.
  - rewrite filter_nil, take_nil, app_nil_r. reflexivity.
  - destruct (Z.ltb_spec (Z.of_nat (length l)) max) as [Hlt|Hge].
    2: { replace (Z.to_nat max - length l)%nat with 0%nat by lia. rewrite app_nil_r. reflexivity. }
    destruct (cell_total bitmap i Hi) as (v & Hv & _). rewrite Hv. simpl.
    rewrite filter_cons, Hv. simpl. destruct (Z.eqb_spec v 0) as [->|Hv0].
    + rewrite set_cell_append by clia. rewrite decide_True by reflexivity. simpl.
      assert (Hlen : Z.of_nat (length (l ++ [i])) = Z.of_nat (length l) + 1)
        by (rewrite length_app; simpl; lia).
      replace (_ <| missing_count ::= _ |>) with (nack_of mt mid tf (l ++ [i])).
      2: { transitivity (mk_nack mt mid tf (u8 (Z.of_nat (length l) + 1))
             ((l ++ [i]) ++ zeros (PQC_NACK_MAX_MISSING - Z.of_nat (length (l ++ [i])))));
             [|reflexivity].
           rewrite u8_id, <- Hlen by clia. reflexivity. }
      rewrite IH by lia. f_equal. f_equal. rewrite <- app_assoc. f_equal.
      replace (Z.to_nat max - length l)%nat
        with (Datatypes.S (Z.to_nat max - length (l ++ [i]))) by lia. reflexivity.
    + rewrite decide_False by exact Hv0. apply IH. exact Hl.
Qed.

Lemma nack_build_eq rx nack max :
  rx_wf rx -> rx_active rx = 1 -> 0 <= max ->
  let n := if (max =? 0) || (16 <? max) then 16 else max in
  let l := take (Z.to_nat n) (rx_missing rx) in
  pqc_nack_build_from_rx rx nack max =
    Some (Z.of_nat (length l), nack_of (rx_msg_type rx) (rx_msg_id rx) (rx_total_frags rx) l).
Proof.
  intros Hwf Hact Hmax n l. unfold pqc_nack_build_from_rx. rewrite Hact.
  destruct (wf_active _ Hwf) as [[? _]|[_ Htot]]; [lia|].
  pose proof (wf_total _ Hwf) as Ht. pose proof (wf_bitmap _ Hwf) as Hbm.
  destruct (Z.eqb_spec (rx_total_frags rx) 0); [lia|]. simpl.
  destruct (Z.ltb_spec FRAG_MAX_FRAGS (rx_total_frags rx)); [lia|].
  assert (Hn : 0 <= n <= 16) by (unfold n; case_if; case_bools; lia).
  change (pqc_nack_init ?a ?b ?c) with (nack_of a b c []).
  rewrite (nack_scan_spec _ n); [|clia| |simpl; lia].
  - simpl. rewrite Nat.sub_0_r. reflexivity.
  - apply list.Forall_forall. intros i Hi. rewrite elem_of_upto in Hi. lia.
Qed.

Lemma nack_build_16 rx nack :
  rx_wf rx -> rx_active rx = 1 ->
  pqc_nack_build_from_rx rx nack PQC_NACK_MAX_MISSING =
    Some (Z.of_nat (length (take 16 (rx_missing rx))),
          nack_of (rx_msg_type rx) (rx_msg_id rx) (rx_total_frags rx) (take 16 (rx_missing rx))).
Proof. intros Hwf Hact. apply (nack_build_eq rx nack 16 Hwf Hact). lia. Qed.

(** ** Encoding and decoding *)

Lemma nack_copy_out_lookup m idxs p :
  Forall (fun i => 0 <= i < Z.of_nat (length m) /\ 4 + i < Z.of_nat (length p)) idxs ->
  exists p', nack_copy_out m idxs p = Some p' /\ length p' = length p /\
    forall k, p' !! k = if decide (Z.of_nat k - 4 ∈ idxs) then m !! (k - 4)%nat else p !! k.
Proof.
  revert p. induction idxs as [|i idxs IH]; intros p Hall; simpl.
  - exists p. split; [reflexivity|]. split; [reflexivity|]. intros k.
    reflexivity.
  - apply list.Forall_cons in Hall as [[Hi Hp] Hall]. destruct (cell_total m i Hi) as (v & -> & Hv).
    simpl. autounfold with c_consts. rewrite set_cell_total by lia. simpl.
    destruct (IH (<[Z.to_nat (4 + i) := v]> p)) as (p' & Hp' & Hl & Hk).
    { rewrite length_insert. exact Hall. }
    exists p'. rewrite length_insert in Hl. split; [exact Hp'|]. split; [exact Hl|].
    intros k. rewrite Hk. destruct (decide (Z.of_nat k - 4 ∈ idxs)).
    + rewrite decide_True by set_solver. reflexivity.
    + destruct (Z.eq_dec (Z.of_nat k - 4) i) as [He|Hne].
      * rewrite decide_True by set_solver.
        replace (Z.to_nat (4 + i)) with k by lia. rewrite list_lookup_insert_eq by lia.
        rewrite <- Hv. f_equal. lia.
      * rewrite decide_False by set_solver. apply list_lookup_insert_ne. lia.
Qed.

Lemma nack_encode_eq mt mid tf l p max :
  1 <= Z.of_nat (length l) <= 16 -> 4 + Z.of_nat (length l) <= max ->
  4 + Z.of_nat (length l) <= Z.of_nat (length p) ->
  pqc_nack_encode (nack_of mt mid tf l) p max =
    Some (4 + Z.of_nat (length l), nack_payload mt mid tf l ++ drop (4 + length l) p).
Proof.
  intros Hl Hmax Hp. unfold pqc_nack_encode, nack_of. cbn [missing_count missing_msg_type
    missing_msg_id nk_total_frags missing]. autounfold with c_consts.
  rewrite u8_id by clia.
  destruct (Z.eqb_spec (Z.of_nat (length l)) 0), (Z.ltb_spec 16 (Z.of_nat (length l))); try lia.
  destruct (Z.ltb_spec max (4 + Z.of_nat (length l))); [lia|]. simpl orb. cbv iota.
  do 4 (destruct p as [|? p]; [simpl in Hp; lia|]). simpl in Hp.
  do 4 (rewrite set_cell_total by (simpl length; lia); simpl).
  edestruct (nack_copy_out_lookup (l ++ zeros (16 - Z.of_nat (length l)))
    (upto (Z.of_nat (length l))) (mt :: mid :: tf :: Z.of_nat (length l) :: p))
    as (p' & -> & Hlen & Hk).
  { apply list.Forall_forall. intros i Hi. rewrite elem_of_upto in Hi.
    rewrite length_app, length_zeros. simpl length. lia. }
  simpl. f_equal. f_equal. apply list_eq. intros k. rewrite Hk. unfold nack_payload.
  do 4 (destruct k as [|k]; [rewrite decide_False by (rewrite elem_of_upto; lia); reflexivity|]).
  simpl. rewrite Nat.sub_0_r. destruct (decide _) as [Hin|Hin]; rewrite elem_of_upto in Hin.
  - rewrite !lookup_app_l by lia. reflexivity.
  - rewrite lookup_app_r, lookup_drop by lia. f_equal. lia.
Qed.

Lemma nack_copy_in_eq h l r t n :
  length h = 4%nat -> Z.of_nat (length l + length r) <= 16 -> missing n = l ++ zeros (16 - Z.of_nat (length l)) ->
  nack_copy_in (h ++ l ++ r ++ t) (seqZ (Z.of_nat (length l)) (Z.of_nat (length r))) n =
    Some (if forallb (fun v => v <? nk_total_frags n) r
          then (true, n <| missing := (l ++ r) ++ zeros (16 - Z.of_nat (length (l ++ r))) |>)
          else (false, nack_zero)).
Proof.
  intros Hh. revert l n. induction r as [|v r IH]; intros l n Hlen Hm.
  - simpl. rewrite app_nil_r, <- Hm. destruct n; reflexivity.
  - simpl length. rewrite seqZ_cons by lia. simpl.
    rewrite cell_lookup by clia. rewrite lookup_app_r by clia.
    rewrite lookup_app_r by clia. rewrite Hh.
    replace (Z.to_nat (PQC_NACK_FIXED_LEN + Z.of_nat (length l)) - 4 - length l)%nat
      with 0%nat by clia. simpl.
    rewrite Z.leb_antisym. destruct (v <? nk_total_frags n); simpl; [|reflexivity].
    rewrite Hm, set_cell_append by (simpl in Hlen; lia). simpl.
    specialize (IH (l ++ [v]) (n <| missing := (l ++ [v]) ++
      zeros (16 - Z.of_nat (length (l ++ [v]))) |>)).
    rewrite length_app in IH. simpl in IH. simpl in Hlen.
    rewrite <- !app_assoc in IH. simpl in IH.
    replace (Z.succ (Z.of_nat (length l))) with (Z.of_nat (length l + 1)) by lia.
    replace (Z.pred (Z.of_nat (Datatypes.S (length r)))) with (Z.of_nat (length r)) by lia.
    rewrite length_app. simpl length. rewrite <- !app_assoc. simpl.
    rewrite IH by (lia || reflexivity). reflexivity.
Qed.

(** What [pqc_nack_decode] computes on any payload buffer. *)
Lemma nack_decode_eq mt mid tf cnt rest len n :
  4 <= len <= Z.of_nat (length ([mt; mid; tf; cnt] ++ rest)) -> is_u8 cnt ->
  pqc_nack_decode (Some ([mt; mid; tf; cnt] ++ rest)) len n =
    Some (if negb (cnt =? 0) && (cnt <=? 16) && negb (tf =? 0) && (tf <=? 72) && (len =? 4 + cnt)
          then let l := take (Z.to_nat cnt) rest in
               if forallb (fun v => v <? tf) l then (true, nack_of mt mid tf l)
               else (false, nack_zero)
          else (false, n)).
Proof.
  intros Hlen Hb. unfold pqc_nack_decode.
  rewrite FRAG_MAX_FRAGS_eq. autounfold with c_consts in *.
  destruct (Z.ltb_spec len 4); [lia|]. rewrite !cell_lookup by lia. simpl.
  rewrite !Z.leb_antisym.
  destruct (Z.eqb_spec cnt 0), (Z.ltb_spec 16 cnt), (Z.eqb_spec tf 0), (Z.ltb_spec 72 tf);
    try reflexivity.
  rewrite u8_id by clia. simpl.
  destruct (Z.eqb_spec len (4 + cnt)) as [->|]; [|reflexivity]. simpl.
  set (l := take (Z.to_nat cnt) rest). unfold in_width in *. simpl length in Hlen.
  assert (Hl : length l = Z.to_nat cnt) by (unfold l; rewrite length_take; lia).
  rewrite <- (take_drop (Z.to_nat cnt) rest) at 1. fold l.
  pose proof (nack_copy_in_eq [mt; mid; tf; cnt] [] l (drop (Z.to_nat cnt) rest)
    ((pqc_nack_init mt mid tf) <| missing_count := cnt |>) eq_refl) as Heq.
  simpl in Heq. unfold upto. replace (Z.of_nat (length l)) with cnt in Heq by lia.
  change (Z.of_nat 0) with 0 in Heq.
  rewrite Heq by (lia || reflexivity). case_if; [|reflexivity].
  unfold nack_of. rewrite Hl, Z2Nat.id by lia. reflexivity.
Qed.

Lemma nack_decode_payload mt mid tf l tail n :
  is_u8 mt -> is_u8 mid -> 1 <= tf <= FRAG_MAX_FRAGS -> 1 <= Z.of_nat (length l) <= 16 ->
  (forall i, i ∈ l -> 0 <= i < tf) ->
  pqc_nack_decode (Some (nack_payload mt mid tf l ++ tail)) (4 + Z.of_nat (length l)) n =
    Some (true, nack_of mt mid tf l).
Proof.
  intros Hmt Hmid Htf Hl Hin. rewrite FRAG_MAX_FRAGS_eq in Htf.
  unfold nack_payload. rewrite <- app_assoc.
  rewrite nack_decode_eq; [|rewrite !length_app; simpl length; lia|clia].
  rewrite !(proj2 (Z.leb_le _ _)), Z.eqb_refl by lia.
  destruct (Z.eqb_spec (Z.of_nat (length l)) 0), (Z.eqb_spec tf 0); try lia.
  cbn -[take]. rewrite Nat2Z.id, take_app_length. case_if; [reflexivity|exfalso].
  apply not_true_iff_false in Heqb. apply Heqb. apply forallb_forall.
  intros v Hv. apply list_elem_of_In, Hin in Hv. lia.
Qed.

Lemma nack_contains_eq mt mid tf l f :
  Z.of_nat (length l) <= 16 ->
  pqc_nack_contains (nack_of mt mid tf l) f = Some (bool_decide (f ∈ l)).
Proof.
  intros Hl. unfold pqc_nack_contains, nack_of. cbn [missing missing_count].
  set (m := l ++ _).
  enough (H : forall r k, m = take k m ++ r ++ drop (length l) m ->
            (length r + k = length l)%nat ->
            nack_search m f (seqZ (Z.of_nat k) (Z.of_nat (length r))) =
              Some (bool_decide (f ∈ r))).
  { apply (H l 0%nat); [|lia]. unfold m. rewrite drop_app_length. reflexivity. }
  assert (Hml : (length l <= length m)%nat) by (unfold m; rewrite length_app; lia).
  induction r as [|v r IH]; intros k Hm Hk.
  - rewrite bool_decide_false by set_solver. reflexivity.
  - simpl length in *. rewrite seqZ_cons by lia. simpl.
    assert (Hv : m !! k = Some v).
    { rewrite Hm, lookup_app_r; rewrite length_take_le by lia; [|lia].
      rewrite Nat.sub_diag. reflexivity. }
    rewrite cell_lookup, Nat2Z.id, Hv by lia. simpl.
    destruct (Z.eqb_spec v f) as [->|Hne].
    + rewrite bool_decide_true by set_solver. reflexivity.
    + replace (Z.succ (Z.of_nat k)) with (Z.of_nat (Datatypes.S k)) by lia.
      replace (Z.pred (Z.of_nat (Datatypes.S (length r)))) with (Z.of_nat (length r)) by lia.
      rewrite IH; [|rewrite Hm at 1; rewrite (take_S_r _ _ v Hv), <- app_assoc; reflexivity|lia].
      f_equal. apply bool_decide_ext. set_solver.
Qed.

(** Decoding any received bytes is safe; what it accepts names fragments of the
    message. *)
Lemma nack_decode_total p len n :
  all_bytes p -> 0 <= len <= Z.of_nat (length p) ->
  exists ok nack, pqc_nack_decode (Some p) len n = Some (ok, nack) /\
    (ok = true -> exists mt mid tf l, nack = nack_of mt mid tf l /\ 1 <= Z.of_nat (length l) <= 16 /\
       1 <= tf <= FRAG_MAX_FRAGS /\ forall i, i ∈ l -> 0 <= i < tf).
Proof.
  intros Hb Hl. destruct (Z.ltb_spec len 4) as [Hlt|Hge].
  { exists false, n. split; [|discriminate]. unfold pqc_nack_decode.
    rewrite (proj2 (Z.ltb_lt _ _)) by clia. reflexivity. }
  do 4 (destruct p as [|? p]; [cbn in Hl; lia|]). pose proof Hb as Hb'.
  repeat apply list.Forall_cons in Hb' as [? Hb'].
  change (z :: z0 :: z1 :: z2 :: p) with ([z; z0; z1; z2] ++ p) in *.
  rewrite nack_decode_eq by (lia || assumption). case_if; [|eexists _, _; split; [reflexivity|discriminate]].
  cbv zeta. case_bools. pose proof (proj1 (forallb_forall (fun v => v <? z1) (take (Z.to_nat z2) p))) as Hf.
  case_if; [|eexists _, _; split; [reflexivity|discriminate]].
  eexists _, _. split; [reflexivity|]. intros _. exists z, z0, z1, (take (Z.to_nat z2) p).
  specialize (Hf ltac:(reflexivity)). unfold in_width in *. rewrite length_app in Hl. cbn [length] in Hl.
  split; [reflexivity|]. rewrite length_take, FRAG_MAX_FRAGS_eq. split; [lia|]. split; [lia|].
  intros i Hi. split; [|apply Z.ltb_lt, Hf, list_elem_of_In, Hi].
  assert (Hib : is_u8 i); [|clia]. apply (proj1 (list.Forall_forall _ _) Hb').
  apply list_elem_of_lookup in Hi as [k Hk]. apply lookup_take_Some in Hk as [Hk _].
  exact (list_elem_of_lookup_2 _ _ _ Hk).
Qed.

(** ** Recovery

    One exchange: the receiver of a message encodes a NACK for its context; the
    sender decodes the datagram's payload and sends each fragment the NACK names
    again, in the order in which it names them. *)

(** [missing[0]], ..., [missing[missing_count - 1]]. *)
Definition nack_named (nack : pqc_nack_t) : list Z :=
  take (Z.to_nat (missing_count nack)) (missing nack).

Lemma nack_named_of mt mid tf l : nack_named (nack_of mt mid tf l) = l.
Proof. unfold nack_named, nack_of. cbn [missing missing_count]. rewrite Nat2Z.id. apply take_app_length. Qed.

Definition nack_round (data : bytes) (len mt nid mid flags : Z) (rx : fragment_rx_ctx_t)
    : option fragment_rx_ctx_t :=
  '(count, nack) ← pqc_nack_build_from_rx rx nack_zero PQC_NACK_MAX_MISSING;
  if count =? 0 then Some rx else
  '(plen, payload) ← pqc_nack_encode nack (zeros PQC_NACK_MAX_PAYLOAD_LEN)
                       PQC_NACK_MAX_PAYLOAD_LEN;
  '(_, got) ← pqc_nack_decode (Some payload) plen nack_zero;
  rx_packets rx (frag_packet data len mt nid mid flags <$> nack_named got).

Fixpoint nack_rounds (n : nat) (data : bytes) (len mt nid mid flags : Z)
    (rx : fragment_rx_ctx_t) : option fragment_rx_ctx_t :=
  match n with
  | O => Some rx
  | S n => rx ← nack_round data len mt nid mid flags rx;
           nack_rounds n data len mt nid mid flags rx
  end.

Lemma rx_missing_nil rx :
  rx_missing rx = [] <-> (forall i, 0 <= i < rx_total_frags rx -> rx_bit rx i <> 0).
Proof.
  unfold rx_missing. split.
  - intros He i Hi Hb. apply (not_elem_of_nil i). rewrite <- He.
    apply list_elem_of_filter. rewrite elem_of_upto. auto.
  - intros Hb. destruct (filter _ _) as [|i l] eqn:E; [reflexivity|exfalso].
    assert (Hi : i ∈ i :: l) by left. rewrite <- E in Hi.
    apply list_elem_of_filter in Hi as [Hz Hi]. rewrite elem_of_upto in Hi.
    exact (Hb i Hi Hz).
Qed.

(** The context of a message of which at least one fragment was received, and what
    one exchange adds to it. *)
Section Recovery.
Context (data : bytes) (len mt nid mid flags : Z).
Hypothesis Hlen : 0 < len <= FRAG_MAX_MESSAGE_LEN.
Hypothesis Hdata : len <= Z.of_nat (length data).
Hypothesis Hbytes : all_bytes data.
Hypothesis Hnid : is_u16 nid.
Hypothesis Hmt : is_u8 mt.
Hypothesis Hmid : is_u8 mid.

Lemma seen_active seen rx :
  seen <> [] -> rx_seen data len mt nid mid seen rx ->
  rx_active rx = 1 /\ rx_msg_type rx = mt /\ rx_msg_id rx = mid /\
  rx_total_frags rx = fragment_tx_count len.
Proof.
  intros Hne Hseen. destruct (seen_id _ _ _ _ _ _ _ Hseen) as [[? _]|(? & ? & _ & ? & ?)];
    [contradiction|auto].
Qed.

Lemma seen_missing seen rx :
  seen <> [] -> rx_seen data len mt nid mid seen rx ->
  rx_missing rx = filter (fun i => i ∉ seen) (upto (fragment_tx_count len)).
Proof.
  intros Hne Hseen. unfold rx_missing. destruct (seen_active seen rx Hne Hseen) as (_ & _ & _ & ->).
  apply filter_ext_elem. intros i Hi. rewrite elem_of_upto in Hi.
  rewrite (seen_bits _ _ _ _ _ _ _ Hseen i Hi). case_bool_decide; split; (lia || tauto).
Qed.

Lemma nack_round_seen seen rx :
  seen <> [] -> rx_seen data len mt nid mid seen rx -> rx_missing rx <> [] ->
  exists rx' sel, nack_round data len mt nid mid flags rx = Some rx' /\
    rx_seen data len mt nid mid (seen ++ sel) rx' /\
    (forall i, i ∈ sel <-> i ∈ take 16 (rx_missing rx)).
Proof.
  intros Hne Hseen Hmiss. pose proof (seen_wf _ _ _ _ _ _ _ Hseen) as Hwf.
  destruct (seen_active seen rx Hne Hseen) as (Hact & Hrmt & Hrmid & Htf).
  destruct (tx_count_spec len Hlen) as (_ & Htot & _).
  unfold nack_round. rewrite nack_build_16 by auto. opt_simpl.
  set (l := take 16 (rx_missing rx)).
  assert (Hl : 1 <= Z.of_nat (length l) <= 16).
  { unfold l. rewrite length_take. destruct (rx_missing rx); [contradiction|]. simpl length. lia. }
  assert (Hin : forall i, i ∈ l -> 0 <= i < fragment_tx_count len).
  { intros i Hi. apply list_elem_of_lookup in Hi as (k & Hk).
    apply lookup_take_Some in Hk as [Hk _]. apply list_elem_of_lookup_2 in Hk.
    apply list_elem_of_filter in Hk as [_ Hk]. rewrite elem_of_upto, Htf in Hk. exact Hk. }
  destruct (Z.eqb_spec (Z.of_nat (length l)) 0); [lia|].
  rewrite nack_encode_eq by (rewrite ?length_zeros; clia). opt_simpl.
  rewrite Hrmt, Hrmid, Htf.
  rewrite nack_decode_payload; [|assumption..|rewrite FRAG_MAX_FRAGS_eq; lia|exact Hl|exact Hin].
  opt_simpl. rewrite nack_named_of.
  destruct (rx_seen_packets data len mt nid mid flags Hlen Hdata Hbytes Hnid l) with (2 := Hseen)
    as (rx' & Hrx' & Hseen').
  { apply list.Forall_forall. exact Hin. }
  exists rx', l. split_and!; [exact Hrx'|exact Hseen'|tauto].
Qed.

Lemma nack_rounds_seen n seen rx :
  seen <> [] -> rx_seen data len mt nid mid seen rx -> (length (rx_missing rx) <= 16 * n)%nat ->
  exists rx' seen', nack_rounds n data len mt nid mid flags rx = Some rx' /\
    rx_seen data len mt nid mid seen' rx' /\ seen' <> [] /\ rx_missing rx' = [].
Proof.
  revert seen rx. induction n as [|n IH]; intros seen rx Hne Hseen Hm; simpl.
  - exists rx, seen. destruct (rx_missing rx); [auto|simpl in Hm; lia].
  - destruct (decide (rx_missing rx = [])) as [He|Hm0].
    + destruct (seen_active seen rx Hne Hseen) as (Hact & _).
      unfold nack_round. rewrite nack_build_16; [|apply Hseen|exact Hact]. rewrite He. simpl.
      apply (IH seen); [exact Hne|exact Hseen|rewrite He; simpl; lia].
    + destruct (nack_round_seen seen rx Hne Hseen Hm0) as (rx' & sel & -> & Hseen' & Hsel).
      simpl. assert (Hne' : seen ++ sel <> []) by (destruct seen; [contradiction|discriminate]).
      apply (IH (seen ++ sel)); [exact Hne'|exact Hseen'|].
      rewrite (seen_missing _ _ Hne' Hseen').
      rewrite (seen_missing _ _ Hne Hseen) in Hsel, Hm.
      set (m := filter _ _) in Hsel, Hm.
      transitivity (length (drop 16 m)); [|rewrite length_drop; lia].
      rewrite <- (filter_notin_take 16 m) by apply NoDup_filter, NoDup_upto.
      apply Nat.eq_le_incl. f_equal.
      transitivity (filter (fun x => x ∉ take 16 m)
        (filter (fun i => i ∉ seen) (upto (fragment_tx_count len)))); [|reflexivity].
      rewrite list_filter_filter.
      apply filter_ext_elem. intros i _. rewrite elem_of_app, Hsel. tauto.
Qed.
End Recovery.

(** ** Properties *)

(** C18. NACK recovery terminates and repairs any loss: when at least one fragment
    of a message has reached a fresh context, in any order and number, five
    exchanges in which the sender resends what the NACK names complete the
    message with its length and contents. *)
Theorem nack_recovers data len mt nid mid flags idxs :
  0 < len <= FRAG_MAX_MESSAGE_LEN -> len <= Z.of_nat (length data) -> all_bytes data ->
  is_u16 nid -> is_u8 mt -> is_u8 mid ->
  idxs <> [] -> Forall (fun i => 0 <= i < fragment_tx_count len) idxs ->
  exists rx rx', rx_packets fragment_rx_init (frag_packet data len mt nid mid flags <$> idxs) = Some rx /\
    nack_rounds 5 data len mt nid mid flags rx = Some rx' /\
    fragment_rx_complete rx' = true /\ fragment_rx_len rx' = len /\
    exists buf, fragment_rx_data rx' = Some buf /\
      take (Z.to_nat len) buf = take (Z.to_nat len) data.
Proof.
  intros Hlen Hd Hb Hn Hmt Hmid Hne Hidx. destruct (tx_count_spec len Hlen) as (_ & Htot & _).
  destruct (rx_seen_packets data len mt nid mid flags Hlen Hd Hb Hn idxs Hidx [] fragment_rx_init)
    as (rx & Hrx & Hseen); [apply rx_seen_init; assumption|]. simpl in Hseen.
  destruct (nack_rounds_seen data len mt nid mid flags Hlen Hd Hb Hn Hmt Hmid 5 idxs rx)
    as (rx' & seen' & Hr & Hseen' & Hne' & Hm'); [exact Hne|exact Hseen| |].
  { rewrite (seen_missing data len mt nid mid Hlen idxs rx Hne Hseen).
    etransitivity; [apply length_filter|]. rewrite length_upto. lia. }
  exists rx, rx'. split; [exact Hrx|]. split; [exact Hr|].
  destruct (rx_seen_all data len mt nid mid Hlen seen' rx' Hseen') as (Hc & Hl & Hbuf).
  { intros i Hi. rewrite (seen_missing data len mt nid mid Hlen seen' rx' Hne' Hseen') in Hm'.
    destruct (decide (i ∈ seen')) as [|Hni]; [assumption|exfalso].
    apply (filter_nil_not_elem_of _ _ i Hm' Hni). apply elem_of_upto. exact Hi. }
  split; [exact Hc|]. split; [exact Hl|]. exists (rx_buffer rx').
  unfold fragment_rx_data. rewrite Hc. auto.
Qed.

(** A ciphertext of 71 fragments of which only the fourth arrived. *)
Example nack_recovers_witness :
  exists rx rx', rx_packets fragment_rx_init
      (frag_packet (zeros 4481) 4481 PQC_MSG_CT 258 9 0 <$> [3]) = Some rx /\
    nack_rounds 5 (zeros 4481) 4481 PQC_MSG_CT 258 9 0 rx = Some rx' /\
    fragment_rx_complete rx' = true /\ fragment_rx_len rx' = 4481 /\
    exists buf, fragment_rx_data rx' = Some buf /\
      take (Z.to_nat 4481) buf = take (Z.to_nat 4481) (zeros 4481).
Proof. apply (nack_recovers (zeros 4481) 4481 PQC_MSG_CT 258 9 0 [3]); decided. Defined.

(** A NACK is built exactly for an incomplete context: it names the first
    missing fragments in increasing order, at most sixteen of them and at most as
    many as asked for, carries the identity of the message, and is not built when
    nothing is missing. *)
Theorem nack_build_first_missing rx nack max :
  rx_wf rx -> rx_active rx = 1 -> is_u8 max ->
  let n := if (max =? 0) || (16 <? max) then 16 else max in
  exists nk, pqc_nack_build_from_rx rx nack max = Some (missing_count nk, nk) /\
    (missing_msg_type nk, missing_msg_id nk, nk_total_frags nk) =
      (rx_msg_type rx, rx_msg_id rx, rx_total_frags rx) /\
    take (Z.to_nat (missing_count nk)) (missing nk) = take (Z.to_nat n) (rx_missing rx) /\
    (missing_count nk = 0 <-> fragment_rx_complete rx = true).
Proof.
  intros Hwf Hact Hmax n. set (l := take (Z.to_nat n) (rx_missing rx)).
  exists (nack_of (rx_msg_type rx) (rx_msg_id rx) (rx_total_frags rx) l).
  rewrite nack_build_eq by (auto; clia). split; [reflexivity|]. split; [reflexivity|].
  unfold nack_of. cbn [missing_count missing]. rewrite Nat2Z.id, take_app_length.
  split; [reflexivity|]. rewrite (rx_complete_iff _ Hwf).
  assert (Hn : 1 <= n <= 16) by (unfold n; case_if; case_bools; clia).
  transitivity (rx_missing rx = []).
  - unfold l. rewrite length_take. rewrite <- length_zero_iff_nil. lia.
  - rewrite rx_missing_nil. pose proof (wf_bits _ Hwf). split.
    + intros Hb. split; [exact Hact|]. intros i Hi. specialize (Hb i Hi). specialize (H i). lia.
    + intros [_ Hb] i Hi. rewrite (Hb i Hi). lia.
Qed.

(** A context that has only fragment 1 of 3. *)
Definition example_rx : fragment_rx_ctx_t :=
  default fragment_rx_init
    (rx_packets fragment_rx_init (frag_packet (upto 150) 150 PQC_MSG_PK 258 7 0 <$> [1])).

Lemma example_rx_wf : rx_wf example_rx.
Proof.
  destruct (rx_seen_packets (upto 150) 150 PQC_MSG_PK 258 7 0 ltac:(decided) ltac:(decided)
    ltac:(decided) ltac:(decided) [1] ltac:(decided) [] fragment_rx_init)
    as (rx & Hrx & Hseen); [apply rx_seen_init; decided|].
  unfold example_rx. rewrite Hrx. apply Hseen.
Qed.

Example nack_build_first_missing_witness :
  exists nk, pqc_nack_build_from_rx example_rx nack_zero 1 = Some (missing_count nk, nk) /\
    (missing_msg_type nk, missing_msg_id nk, nk_total_frags nk) = (PQC_MSG_PK, 7, 3) /\
    take (Z.to_nat (missing_count nk)) (missing nk) = take (Z.to_nat 1) (rx_missing example_rx) /\
    (missing_count nk = 0 <-> fragment_rx_complete example_rx = true).
Proof. apply (nack_build_first_missing example_rx nack_zero 1); [apply example_rx_wf|decided..]. Defined.

(** Encoding a NACK and decoding the payload gives the NACK back, in every
    buffer that has room for it. *)
Theorem nack_roundtrip mt mid tf l p max n0 :
  is_u8 mt -> is_u8 mid -> 1 <= tf <= FRAG_MAX_FRAGS -> 1 <= Z.of_nat (length l) <= 16 ->
  (forall i, i ∈ l -> 0 <= i < tf) ->
  4 + Z.of_nat (length l) <= max -> 4 + Z.of_nat (length l) <= Z.of_nat (length p) ->
  exists plen p', pqc_nack_encode (nack_of mt mid tf l) p max = Some (plen, p') /\
    plen = 4 + Z.of_nat (length l) /\ length p' = length p /\
    pqc_nack_decode (Some p') plen n0 = Some (true, nack_of mt mid tf l).
Proof.
  intros Hmt Hmid Htf Hl Hin Hmax Hp. rewrite nack_encode_eq by assumption.
  do 2 eexists. split; [reflexivity|]. split; [reflexivity|]. split.
  - rewrite length_app, length_drop. unfold nack_payload. simpl length. lia.
  - apply nack_decode_payload; assumption.
Qed.

Example nack_roundtrip_witness :
  exists plen p', pqc_nack_encode (nack_of PQC_MSG_CT 9 71 [0; 5; 70]) (zeros 20) 20 = Some (plen, p') /\
    plen = 4 + Z.of_nat (length [0; 5; 70]) /\ length p' = length (zeros 20) /\
    pqc_nack_decode (Some p') plen nack_zero = Some (true, nack_of PQC_MSG_CT 9 71 [0; 5; 70]).
Proof.
  apply (nack_roundtrip PQC_MSG_CT 9 71 [0; 5; 70] (zeros 20) 20 nack_zero); try decided.
  intros i Hi. repeat (apply elem_of_cons in Hi as [->|Hi]; [lia|]). inversion Hi.
Defined.

(** Decoding is safe and canonical: on any payload at least as long as
    announced it reads nothing outside it, it accepts only NACKs whose fragment
    indices all lie in the message, and what it accepts encodes to the very bytes
    that were received. *)
Theorem nack_decode_canonical p len n0 :
  is_u8 len -> len <= Z.of_nat (length p) -> all_bytes p ->
  exists ok n, pqc_nack_decode (Some p) len n0 = Some (ok, n) /\
    (ok = true -> exists mt mid tf l, n = nack_of mt mid tf l /\
       1 <= Z.of_nat (length l) <= PQC_NACK_MAX_MISSING /\ 1 <= tf <= FRAG_MAX_FRAGS /\
       (forall i, i ∈ l -> 0 <= i < tf) /\
       pqc_nack_encode n (zeros PQC_NACK_MAX_PAYLOAD_LEN) PQC_NACK_MAX_PAYLOAD_LEN =
         Some (len, take (Z.to_nat len) p ++ zeros (PQC_NACK_MAX_PAYLOAD_LEN - len))).
Proof.
  intros Hw Hlen Hb. destruct (Z.ltb_spec len 4) as [Hlt|Hge].
  { exists false, n0. unfold pqc_nack_decode. autounfold with c_consts.
    destruct (Z.ltb_spec len 4); [|lia]. split; [reflexivity|discriminate]. }
  do 4 (destruct p as [|? p]; [simpl in Hlen; lia|]). do 4 apply list.Forall_cons in Hb as [? Hb].
  change (z :: z0 :: z1 :: z2 :: p) with ([z; z0; z1; z2] ++ p).
  rewrite (nack_decode_eq z z0 z1 z2 p len n0); [|simpl in *; lia|assumption].
  do 2 eexists. split; [f_equal; apply surjective_pairing|].
  case_if; [|discriminate]. case_bools. subst len. simpl in Hlen. cbv zeta.
  set (l := take (Z.to_nat z2) p).
  assert (Hl : Z.of_nat (length l) = z2) by (unfold l; rewrite length_take; clia).
  case_if; [|discriminate]. intros _. exists z, z0, z1, l. cbn [snd].
  rewrite FRAG_MAX_FRAGS_eq. autounfold with c_consts in *. unfold in_width in *.
  split; [reflexivity|]. split; [lia|]. split; [lia|]. split.
  - intros i Hi. split.
    + apply (Forall_take _ (Z.to_nat z2)), list.Forall_forall with (x := i) in Hb;
        [unfold in_width in Hb; lia|exact Hi].
    + match goal with H : forallb _ l = true |- _ => rewrite forallb_forall in H;
        specialize (H i (proj1 (list_elem_of_In _ _) Hi)) end. case_bools. assumption.
  - rewrite nack_encode_eq by (rewrite ?length_zeros; clia). rewrite Hl. f_equal. f_equal.
    unfold nack_payload. rewrite Hl. replace (Z.to_nat (4 + z2)) with (4 + Z.to_nat z2)%nat by lia.
    simpl take. fold l. cbn [app]. do 5 f_equal. unfold zeros. rewrite drop_replicate.
    f_equal. lia.
Qed.

Example nack_decode_canonical_witness :
  exists ok n, pqc_nack_decode (Some [2; 9; 71; 2; 5; 70]) 6 nack_zero = Some (ok, n) /\
    (ok = true -> exists mt mid tf l, n = nack_of mt mid tf l /\
       1 <= Z.of_nat (length l) <= PQC_NACK_MAX_MISSING /\ 1 <= tf <= FRAG_MAX_FRAGS /\
       (forall i, i ∈ l -> 0 <= i < tf) /\
       pqc_nack_encode n (zeros PQC_NACK_MAX_PAYLOAD_LEN) PQC_NACK_MAX_PAYLOAD_LEN =
         Some (6, take (Z.to_nat 6) [2; 9; 71; 2; 5; 70] ++ zeros (PQC_NACK_MAX_PAYLOAD_LEN - 6))).
Proof. apply (nack_decode_canonical [2; 9; 71; 2; 5; 70] 6 nack_zero); decided. Defined.
