(* ===== verification/Metrics.v ===== *)
(** * Metrics: [src/src/metrics/metrics.c] and [metrics_schema.h]

    The counters and timestamps a session keeps about its handshakes, and the
    26-byte reports in which a node sends groups of four of them to the root.
    Counters are 32-bit words that wrap.  Objects are passed by address, so the
    [NULL] tests on them have no counterpart; a received buffer is an [option]. *)

From S2P Require Import Prelude Platform.

(* src/src/metrics/metrics_schema.h:6-6 PQC_METRICS_SCHEMA_VERSION *)
Definition PQC_METRICS_SCHEMA_VERSION : Z := 1.
(* src/src/metrics/metrics_schema.h:8-8 PQC_METRICS_REPORT_LEN *)
Definition PQC_METRICS_REPORT_LEN : Z := 26.
(* src/src/metrics/metrics_schema.h:10-10 PQC_METRICS_GROUP_HS *)
Definition PQC_METRICS_GROUP_HS : Z := 1.
(* src/src/metrics/metrics_schema.h:11-11 PQC_METRICS_GROUP_PK *)
Definition PQC_METRICS_GROUP_PK : Z := 2.
(* src/src/metrics/metrics_schema.h:12-12 PQC_METRICS_GROUP_CT *)
Definition PQC_METRICS_GROUP_CT : Z := 3.
(* src/src/metrics/metrics_schema.h:13-13 PQC_METRICS_GROUP_CRYPTO *)
Definition PQC_METRICS_GROUP_CRYPTO : Z := 4.
(* src/src/metrics/metrics_schema.h:14-14 PQC_METRICS_GROUP_FRAG *)
Definition PQC_METRICS_GROUP_FRAG : Z := 5.
(* src/src/metrics/metrics_schema.h:15-15 PQC_METRICS_GROUP_TEMP *)
Definition PQC_METRICS_GROUP_TEMP : Z := 6.
(* src/src/metrics/metrics_schema.h:16-16 PQC_METRICS_GROUP_RES *)
Definition PQC_METRICS_GROUP_RES : Z := 7.
(* src/src/metrics/metrics_schema.h:17-17 PQC_METRICS_GROUP_COUNT *)
Definition PQC_METRICS_GROUP_COUNT : Z := 7.

#[export] Hint Unfold PQC_METRICS_SCHEMA_VERSION PQC_METRICS_REPORT_LEN PQC_METRICS_GROUP_HS
  PQC_METRICS_GROUP_PK PQC_METRICS_GROUP_CT PQC_METRICS_GROUP_CRYPTO PQC_METRICS_GROUP_FRAG
  PQC_METRICS_GROUP_TEMP PQC_METRICS_GROUP_RES PQC_METRICS_GROUP_COUNT : c_consts.

(* src/src/metrics/metrics_schema.h:19-51 pqc_metrics_handshake_t *)
Record pqc_metrics_handshake_t := mk_handshake {
  attempts : Z; success : Z; failure : Z;
  getpk_tx : Z; getpk_rx : Z; pk_tx : Z; pk_rx_complete : Z;
  ct_tx : Z; ct_rx_complete : Z; ack_tx : Z; ack_rx : Z;
  handshake_started_at : Z; pk_tx_started_at : Z; pk_rx_completed_at : Z;
  ct_tx_started_at : Z; ct_rx_started_at : Z; ct_rx_completed_at : Z; ack_rx_at : Z;
  pk_tx_ticks_last : Z; pk_rx_ticks_last : Z; ct_tx_ticks_last : Z; ct_rx_ticks_last : Z;
  ack_wait_ticks_last : Z; keypair_ticks_last : Z; encaps_ticks_last : Z;
  decaps_ticks_last : Z; handshake_ticks_last : Z; handshake_ticks_max : Z;
}.
#[export] Instance eta_handshake : Eta pqc_metrics_handshake_t := fun r =>
  mk_handshake (attempts r) (success r) (failure r) (getpk_tx r) (getpk_rx r) (pk_tx r)
    (pk_rx_complete r) (ct_tx r) (ct_rx_complete r) (ack_tx r) (ack_rx r)
    (handshake_started_at r) (pk_tx_started_at r) (pk_rx_completed_at r) (ct_tx_started_at r)
    (ct_rx_started_at r) (ct_rx_completed_at r) (ack_rx_at r) (pk_tx_ticks_last r)
    (pk_rx_ticks_last r) (ct_tx_ticks_last r) (ct_rx_ticks_last r) (ack_wait_ticks_last r)
    (keypair_ticks_last r) (encaps_ticks_last r) (decaps_ticks_last r)
    (handshake_ticks_last r) (handshake_ticks_max r).

(* src/src/metrics/metrics_schema.h:53-63 pqc_metrics_fragmentation_t *)
Record pqc_metrics_fragmentation_t := mk_fragmentation {
  fragments_tx : Z; fragments_rx : Z; fragments_duplicate : Z; fragments_rejected : Z;
  nack_tx : Z; nack_rx : Z; nack_rounds_count : Z; nack_recovered_fragments : Z;
}.
#[export] Instance eta_fragmentation : Eta pqc_metrics_fragmentation_t := fun r =>
  mk_fragmentation (fragments_tx r) (fragments_rx r) (fragments_duplicate r)
    (fragments_rejected r) (nack_tx r) (nack_rx r) (nack_rounds_count r)
    (nack_recovered_fragments r).

(* src/src/metrics/metrics_schema.h:65-72 pqc_metrics_temp_t *)
Record pqc_metrics_temp_t := mk_temp {
  temp_tx : Z; temp_tx_fail : Z; temp_rx : Z; temp_rx_ok : Z; temp_rx_fail : Z;
  temp_counter_resync : Z;
}.
#[export] Instance eta_temp : Eta pqc_metrics_temp_t := fun r =>
  mk_temp (temp_tx r) (temp_tx_fail r) (temp_rx r) (temp_rx_ok r) (temp_rx_fail r)
    (temp_counter_resync r).

(* src/src/metrics/metrics_schema.h:74-81 pqc_metrics_resource_t *)
Record pqc_metrics_resource_t := mk_resource {
  tx_queue_high_water : Z; tx_queue_full : Z; rx_slot_alloc_count : Z; rx_slot_full : Z;
  rx_slot_timeout : Z; retries : Z;
}.
#[export] Instance eta_resource : Eta pqc_metrics_resource_t := fun r =>
  mk_resource (tx_queue_high_water r) (tx_queue_full r) (rx_slot_alloc_count r) (rx_slot_full r)
    (rx_slot_timeout r) (retries r).

(* src/src/metrics/metrics_schema.h:83-93 pqc_metrics_snapshot_t *)
Record pqc_metrics_snapshot_t := mk_snapshot {
  m_version : Z;
  m_node_id : Z;
  m_seq : Z;
  m_uptime_ticks : Z;
  handshake : pqc_metrics_handshake_t;
  fragmentation : pqc_metrics_fragmentation_t;
  temp : pqc_metrics_temp_t;
  resource : pqc_metrics_resource_t;
}.
#[export] Instance eta_snapshot : Eta pqc_metrics_snapshot_t := fun r =>
  mk_snapshot (m_version r) (m_node_id r) (m_seq r) (m_uptime_ticks r) (handshake r)
    (fragmentation r) (temp r) (resource r).

(* src/src/metrics/metrics_schema.h:95-104 pqc_metrics_report_t *)
Record pqc_metrics_report_t := mk_report {
  rp_version : Z; rp_group : Z; rp_seq : Z; rp_uptime_ticks : Z;
  value0 : Z; value1 : Z; value2 : Z; value3 : Z;
}.
#[export] Instance eta_report : Eta pqc_metrics_report_t := fun r =>
  mk_report (rp_version r) (rp_group r) (rp_seq r) (rp_uptime_ticks r)
    (value0 r) (value1 r) (value2 r) (value3 r).

(** A snapshot of zero bytes, [memset(metrics, 0, sizeof( *metrics))]. *)
Definition snapshot_zero : pqc_metrics_snapshot_t :=
  mk_snapshot 0 0 0 0
    (mk_handshake 0 0 0 0 0 0 0 0 0 0 0 0 0 0 0 0 0 0 0 0 0 0 0 0 0 0 0 0)
    (mk_fragmentation 0 0 0 0 0 0 0 0) (mk_temp 0 0 0 0 0 0) (mk_resource 0 0 0 0 0 0).
Definition report_zero : pqc_metrics_report_t := mk_report 0 0 0 0 0 0 0 0.

(** [x++] on a [uint32_t]. *)
Definition inc32 (x : Z) : Z := u32 (x + 1).

(** [write_u32(&buf[off], value)]. *)
(* src/src/metrics/metrics.c:5-11 write_u32 *)
Definition write_u32 (buf : bytes) (off value : Z) : option bytes :=
  buf ← set_cell buf off (u8 (Z.shiftr value 24));
  buf ← set_cell buf (off + 1) (u8 (Z.shiftr value 16));
  buf ← set_cell buf (off + 2) (u8 (Z.shiftr value 8));
  set_cell buf (off + 3) (u8 value).

(** [read_u32(&buf[off])]. *)
(* src/src/metrics/metrics.c:13-19 read_u32 *)
Definition read_u32 (buf : bytes) (off : Z) : option Z :=
  b0 ← cell buf off;
  b1 ← cell buf (off + 1);
  b2 ← cell buf (off + 2);
  b3 ← cell buf (off + 3);
  Some (Z.lor (Z.lor (Z.lor (u32 (Z.shiftl b0 24)) (u32 (Z.shiftl b1 16)))
                (u32 (Z.shiftl b2 8))) b3).

(* src/src/metrics/metrics.c:21-30 pqc_metrics_init *)
Definition pqc_metrics_init (node_id : Z) : pqc_metrics_snapshot_t :=
  snapshot_zero <| m_version := PQC_METRICS_SCHEMA_VERSION |> <| m_node_id := node_id |>.

(* src/src/metrics/metrics.c:32-40 pqc_metrics_set_node_id *)
Definition pqc_metrics_set_node_id (metrics : pqc_metrics_snapshot_t) (node_id : Z)
    : pqc_metrics_snapshot_t :=
  metrics <| m_version := PQC_METRICS_SCHEMA_VERSION |> <| m_node_id := node_id |>.

(* src/src/metrics/metrics.c:93-113 pqc_metrics_group_name *)
Definition pqc_metrics_group_name (group : Z) : string :=
  if group =? PQC_METRICS_GROUP_HS then "NODE_HS"
  else if group =? PQC_METRICS_GROUP_PK then "NODE_PK"
  else if group =? PQC_METRICS_GROUP_CT then "NODE_CT"
  else if group =? PQC_METRICS_GROUP_CRYPTO then "NODE_CRYPTO"
  else if group =? PQC_METRICS_GROUP_FRAG then "NODE_FRAG"
  else if group =? PQC_METRICS_GROUP_TEMP then "NODE_TEMP"
  else if group =? PQC_METRICS_GROUP_RES then "NODE_RES"
  else "NODE_UNKNOWN".

(** The four values of a group; [None] is the [default] case. *)
(* src/src/metrics/metrics.c:134-179 pqc_metrics_build_report *)
Definition report_values (metrics : pqc_metrics_snapshot_t) (group : Z)
    : option (Z * Z * Z * Z) :=
  let hs := handshake metrics in
  let fr := fragmentation metrics in
  if group =? PQC_METRICS_GROUP_HS
  then Some (handshake_ticks_last hs, success hs, failure hs, attempts hs)
  else if group =? PQC_METRICS_GROUP_PK
  then Some (pk_tx_ticks_last hs, pk_rx_ticks_last hs, pk_tx hs, pk_rx_complete hs)
  else if group =? PQC_METRICS_GROUP_CT
  then Some (ct_tx_ticks_last hs, ct_rx_ticks_last hs, ct_tx hs, ct_rx_complete hs)
  else if group =? PQC_METRICS_GROUP_CRYPTO
  then Some (keypair_ticks_last hs, encaps_ticks_last hs, decaps_ticks_last hs,
             ack_wait_ticks_last hs)
  else if group =? PQC_METRICS_GROUP_FRAG
  then Some (fragments_tx fr, fragments_rx fr, nack_tx fr, nack_rx fr)
  else if group =? PQC_METRICS_GROUP_TEMP
  then Some (temp_tx (temp metrics), temp_tx_fail (temp metrics), temp_rx_ok (temp metrics),
             temp_counter_resync (temp metrics))
  else if group =? PQC_METRICS_GROUP_RES
  then Some (retries (resource metrics), tx_queue_full (resource metrics),
             rx_slot_full (resource metrics), rx_slot_timeout (resource metrics))
  else None.

(** The encoded length, 0 on error, and the buffer afterwards. *)
(* src/src/metrics/metrics.c:184-202 pqc_metrics_encode_report *)
Definition pqc_metrics_encode_report (report : pqc_metrics_report_t) (buf : bytes) (len : Z)
    : option (Z * bytes) :=
  if len <? PQC_METRICS_REPORT_LEN then Some (0, buf) else
  buf ← set_cell buf 0 (rp_version report);
  buf ← set_cell buf 1 (rp_group report);
  buf ← write_u32 buf 2 (rp_seq report);
  buf ← write_u32 buf 6 (rp_uptime_ticks report);
  buf ← write_u32 buf 10 (value0 report);
  buf ← write_u32 buf 14 (value1 report);
  buf ← write_u32 buf 18 (value2 report);
  buf ← write_u32 buf 22 (value3 report);
  Some (PQC_METRICS_REPORT_LEN, buf).

(** The decoded report, or [Some None] where the function returns 0 and leaves
    [*report] as it was. *)
(* src/src/metrics/metrics.c:204-224 pqc_metrics_decode_report *)
Definition pqc_metrics_decode_report (buf : option bytes) (len : Z)
    : option (option pqc_metrics_report_t) :=
  match buf with
  | None => Some None
  | Some b =>
      if negb (len =? PQC_METRICS_REPORT_LEN) then Some None else
      version ← cell b 0;
      if negb (version =? PQC_METRICS_SCHEMA_VERSION) then Some None else
      group ← cell b 1;
      if (group =? 0) || (PQC_METRICS_GROUP_COUNT <? group) then Some None else
      seq ← read_u32 b 2;
      uptime_ticks ← read_u32 b 6;
      v0 ← read_u32 b 10;
      v1 ← read_u32 b 14;
      v2 ← read_u32 b 18;
      v3 ← read_u32 b 22;
      Some (Some (mk_report version group seq uptime_ticks v0 v1 v2 v3))
  end.

Section Timed.
Context `{Platform}.

(* src/src/metrics/metrics.c:42-45 pqc_metrics_elapsed_since *)
Definition pqc_metrics_elapsed_since {S} (started_at : Z) : M S Z :=
  now ← clock_time;
  mret (u32 (uclk (now - uclk started_at))).

(* src/src/metrics/metrics.c:47-70 pqc_metrics_handshake_start *)
Definition pqc_metrics_handshake_start : M pqc_metrics_snapshot_t unit :=
  modify (fun m => m <| handshake ::= (fun h => h <| attempts ::= inc32 |>) |>);;
  now ← clock_time;
  modify (fun m => m <| handshake ::= (fun h =>
    h <| handshake_started_at := u32 now |>
      <| pk_tx_started_at := 0 |> <| pk_rx_completed_at := 0 |> <| ct_tx_started_at := 0 |>
      <| ct_rx_started_at := 0 |> <| ct_rx_completed_at := 0 |> <| ack_rx_at := 0 |>
      <| pk_tx_ticks_last := 0 |> <| pk_rx_ticks_last := 0 |> <| ct_tx_ticks_last := 0 |>
      <| ct_rx_ticks_last := 0 |> <| ack_wait_ticks_last := 0 |> <| keypair_ticks_last := 0 |>
      <| encaps_ticks_last := 0 |> <| decaps_ticks_last := 0 |>
      <| handshake_ticks_last := 0 |>) |>).

(** The end of [pqc_metrics_handshake_success] and of
    [pqc_metrics_handshake_failure], which is the same code in both. *)
(* src/src/metrics/metrics.c:82-90 pqc_metrics_handshake_success *)
Definition handshake_ticks_update : M pqc_metrics_snapshot_t unit :=
  m ← get;
  if handshake_started_at (handshake m) =? 0 then mret tt else
  elapsed ← pqc_metrics_elapsed_since (handshake_started_at (handshake m));
  modify (fun m => m <| handshake ::= (fun h =>
    let h := h <| handshake_ticks_last := elapsed |> in
    if handshake_ticks_max h <? elapsed then h <| handshake_ticks_max := elapsed |> else h) |>).

(* src/src/metrics/metrics.c:72-91 pqc_metrics_handshake_success *)
Definition pqc_metrics_handshake_success : M pqc_metrics_snapshot_t unit :=
  modify (fun m => m <| handshake ::= (fun h => h <| success ::= inc32 |>) |>);;
  handshake_ticks_update.

(* src/src/metrics/metrics.c:226-245 pqc_metrics_handshake_failure *)
Definition pqc_metrics_handshake_failure : M pqc_metrics_snapshot_t unit :=
  modify (fun m => m <| handshake ::= (fun h => h <| failure ::= inc32 |>) |>);;
  handshake_ticks_update.

(** The report, or [None] where the function returns 0. *)
(* src/src/metrics/metrics.c:115-182 pqc_metrics_build_report *)
Definition pqc_metrics_build_report (group : Z)
    : M pqc_metrics_snapshot_t (option pqc_metrics_report_t) :=
  if (group =? 0) || (PQC_METRICS_GROUP_COUNT <? group) then mret None else
  modify (fun m => m <| m_version := PQC_METRICS_SCHEMA_VERSION |> <| m_seq ::= inc32 |>);;
  now ← clock_time;
  modify (fun m => m <| m_uptime_ticks := u32 now |>);;
  m ← get;
  let report := mk_report (m_version m) group (m_seq m) (m_uptime_ticks m) 0 0 0 0 in
  match report_values m group with
  | Some (v0, v1, v2, v3) =>
      mret (Some (report <| value0 := v0 |> <| value1 := v1 |> <| value2 := v2 |>
                    <| value3 := v3 |>))
  | None => mret None
  end.

End Timed.

(** ** Words on the wire *)

(** The four bytes of a 32-bit word, most significant first. *)
Definition be32 (v : Z) : bytes := [v / 2 ^ 24; v / 2 ^ 16 mod 256; v / 2 ^ 8 mod 256; v mod 256].

Arguments be32 : simpl never.

Lemma be32_bytes v : is_u32 v -> all_bytes (be32 v).
Proof.
  intros Hv. unfold in_width in Hv. unfold be32, all_bytes, in_width.
  repeat (apply list.Forall_cons; split); try (apply Z.mod_pos_bound; lia).
  - split; [apply Z.div_pos|apply Z.div_lt_upper_bound]; lia.
  - apply list.Forall_nil. exact I.
Qed.

Lemma be32_value v :
  is_u32 v -> 2 ^ 24 * (v / 2 ^ 24) + 2 ^ 16 * (v / 2 ^ 16 mod 256) + 2 ^ 8 * (v / 2 ^ 8 mod 256)
              + v mod 256 = v.
Proof.
  intros Hv. change 256 with (2 ^ 8).
  replace (v / 2 ^ 24) with (v / 2 ^ 8 / 2 ^ 8 / 2 ^ 8) by (rewrite !Z.div_div by lia; reflexivity).
  replace (v / 2 ^ 16) with (v / 2 ^ 8 / 2 ^ 8) by (rewrite !Z.div_div by lia; reflexivity).
  pose proof (Z.div_mod v (2 ^ 8) ltac:(lia)).
  pose proof (Z.div_mod (v / 2 ^ 8) (2 ^ 8) ltac:(lia)).
  pose proof (Z.div_mod (v / 2 ^ 8 / 2 ^ 8) (2 ^ 8) ltac:(lia)). lia.
Qed.

Lemma be32_eq v :
  is_u32 v -> [u8 (Z.shiftr v 24); u8 (Z.shiftr v 16); u8 (Z.shiftr v 8); u8 v] = be32 v.
Proof.
  intros Hv. unfold in_width in Hv. unfold be32. rewrite !u8_shiftr by lia. unfold u8.
  rewrite (Z.mod_small (v / 2 ^ 24)); [reflexivity|].
  split; [apply Z.div_pos|apply Z.div_lt_upper_bound]; lia.
Qed.

Lemma write_u32_eq buf off v pre a b c d post :
  buf = pre ++ [a; b; c; d] ++ post -> off = Z.of_nat (length pre) -> is_u32 v ->
  write_u32 buf off v = Some (pre ++ be32 v ++ post).
Proof.
  intros -> -> Hv. unfold write_u32. rewrite <- be32_eq by exact Hv.
  rewrite <- (Z.add_0_r (Z.of_nat (length pre))) at 1. change 0 with (Z.of_nat 0).
  change 1 with (Z.of_nat 1). change 2 with (Z.of_nat 2). change 3 with (Z.of_nat 3).
  rewrite (set_cell_app _ _ 0%nat) by (simpl; lia). opt_simpl.
  rewrite (set_cell_app _ _ 1%nat) by (simpl; lia). opt_simpl.
  rewrite (set_cell_app _ _ 2%nat) by (simpl; lia). opt_simpl.
  rewrite (set_cell_app _ _ 3%nat) by (simpl; lia). reflexivity.
Qed.

(** The word that [read_u32] puts together. *)
Lemma word_of_bytes a0 a1 a2 a3 :
  is_u8 a0 -> is_u8 a1 -> is_u8 a2 -> is_u8 a3 ->
  Z.lor (Z.lor (Z.lor (u32 (Z.shiftl a0 24)) (u32 (Z.shiftl a1 16))) (u32 (Z.shiftl a2 8))) a3 =
  2 ^ 24 * a0 + 2 ^ 16 * a1 + 2 ^ 8 * a2 + a3.
Proof.
  intros H0 H1 H2 H3. unfold in_width in *.
  rewrite !u32_id by (unfold in_width; rewrite Z.shiftl_mul_pow2 by lia; lia).
  rewrite (lor_shiftl_add a0 (Z.shiftl a1 16) 24) by (rewrite ?Z.shiftl_mul_pow2; lia).
  replace (a0 * 2 ^ 24 + Z.shiftl a1 16) with (Z.shiftl (a0 * 2 ^ 8 + a1) 16)
    by (rewrite !Z.shiftl_mul_pow2 by lia; lia).
  rewrite (lor_shiftl_add _ (Z.shiftl a2 8) 16) by (rewrite ?Z.shiftl_mul_pow2; lia).
  replace ((a0 * 2 ^ 8 + a1) * 2 ^ 16 + Z.shiftl a2 8)
    with (Z.shiftl ((a0 * 2 ^ 8 + a1) * 2 ^ 8 + a2) 8)
    by (rewrite !Z.shiftl_mul_pow2 by lia; lia).
  rewrite lor_shiftl_add by lia. lia.
Qed.

Lemma word_range a0 a1 a2 a3 :
  is_u8 a0 -> is_u8 a1 -> is_u8 a2 -> is_u8 a3 ->
  is_u32 (2 ^ 24 * a0 + 2 ^ 16 * a1 + 2 ^ 8 * a2 + a3).
Proof. unfold in_width. lia. Qed.

Lemma be32_word a0 a1 a2 a3 :
  is_u8 a0 -> is_u8 a1 -> is_u8 a2 -> is_u8 a3 ->
  be32 (2 ^ 24 * a0 + 2 ^ 16 * a1 + 2 ^ 8 * a2 + a3) = [a0; a1; a2; a3].
Proof.
  intros H0 H1 H2 H3. unfold in_width in *. unfold be32. change 256 with (2 ^ 8).
  set (v := 2 ^ 24 * a0 + 2 ^ 16 * a1 + 2 ^ 8 * a2 + a3).
  assert (E3 : v / 2 ^ 24 = a0) by (symmetry; apply (Z.div_unique _ _ _ (v - 2 ^ 24 * a0)); unfold v; lia).
  assert (E2 : v / 2 ^ 16 = 2 ^ 8 * a0 + a1)
    by (symmetry; apply (Z.div_unique _ _ _ (2 ^ 8 * a2 + a3)); unfold v; lia).
  assert (E1 : v / 2 ^ 8 = 2 ^ 16 * a0 + 2 ^ 8 * a1 + a2)
    by (symmetry; apply (Z.div_unique _ _ _ a3); unfold v; lia).
  rewrite E1, E2, E3.
  rewrite <- (Z.mod_unique (2 ^ 8 * a0 + a1) (2 ^ 8) a0 a1) by lia.
  rewrite <- (Z.mod_unique (2 ^ 16 * a0 + 2 ^ 8 * a1 + a2) (2 ^ 8) (2 ^ 8 * a0 + a1) a2) by lia.
  rewrite <- (Z.mod_unique v (2 ^ 8) (2 ^ 16 * a0 + 2 ^ 8 * a1 + a2) a3) by (unfold v; lia).
  reflexivity.
Qed.

Lemma read_u32_total b off :
  0 <= off -> off + 4 <= Z.of_nat (length b) -> exists v, read_u32 b off = Some v.
Proof.
  intros. unfold read_u32.
  destruct (cell_total b off) as (? & -> & _); [lia|].
  destruct (cell_total b (off + 1)) as (? & -> & _); [lia|].
  destruct (cell_total b (off + 2)) as (? & -> & _); [lia|].
  destruct (cell_total b (off + 3)) as (? & -> & _); [lia|]. eexists. reflexivity.
Qed.

(** ** Reports on the wire *)

Definition report_wf (r : pqc_metrics_report_t) : Prop :=
  rp_version r = PQC_METRICS_SCHEMA_VERSION /\ 1 <= rp_group r <= PQC_METRICS_GROUP_COUNT /\
  Forall is_u32 [rp_seq r; rp_uptime_ticks r; value0 r; value1 r; value2 r; value3 r].

Definition report_bytes (r : pqc_metrics_report_t) : bytes :=
  [rp_version r; rp_group r] ++ be32 (rp_seq r) ++ be32 (rp_uptime_ticks r) ++ be32 (value0 r) ++
  be32 (value1 r) ++ be32 (value2 r) ++ be32 (value3 r).

Lemma report_bytes_length r : length (report_bytes r) = 26%nat.
Proof. reflexivity. Qed.

Lemma encode_report_eq r buf len :
  report_wf r -> 26 <= len <= Z.of_nat (length buf) ->
  pqc_metrics_encode_report r buf len = Some (26, report_bytes r ++ drop 26 buf).
Proof.
  intros (Hv & Hg & Hw) Hlen. repeat apply list.Forall_cons in Hw as [? Hw].
  unfold pqc_metrics_encode_report, report_bytes. autounfold with c_consts in *.
  destruct (Z.ltb_spec len 26); [lia|].
  do 26 (destruct buf as [|? buf]; [simpl in Hlen; lia|]).
  rewrite set_cell_0. opt_simpl. rewrite set_cell_1. opt_simpl.
  set (h := [rp_version r; rp_group r]).
  erewrite (write_u32_eq _ 2 _ (h))
    by (exact eq_refl || assumption). opt_simpl.
  erewrite (write_u32_eq _ 6 _ (h ++ be32 (rp_seq r)))
    by (exact eq_refl || assumption). opt_simpl.
  erewrite (write_u32_eq _ 10 _ (h ++ be32 (rp_seq r) ++ be32 (rp_uptime_ticks r)))
    by (exact eq_refl || assumption). opt_simpl.
  erewrite (write_u32_eq _ 14 _ (h ++ be32 (rp_seq r) ++ be32 (rp_uptime_ticks r) ++ be32 (value0 r)))
    by (exact eq_refl || assumption). opt_simpl.
  erewrite (write_u32_eq _ 18 _ (h ++ be32 (rp_seq r) ++ be32 (rp_uptime_ticks r) ++ be32 (value0 r) ++ be32 (value1 r)))
    by (exact eq_refl || assumption). opt_simpl.
  erewrite (write_u32_eq _ 22 _ (h ++ be32 (rp_seq r) ++ be32 (rp_uptime_ticks r) ++ be32 (value0 r) ++ be32 (value1 r) ++ be32 (value2 r)))
    by (exact eq_refl || assumption). exact eq_refl.
Qed.

(** What [pqc_metrics_decode_report] accepts is a report and its bytes. *)
Lemma decode_report_inv b len r :
  all_bytes b -> len <= Z.of_nat (length b) ->
  pqc_metrics_decode_report (Some b) len = Some (Some r) ->
  len = 26 /\ report_wf r /\ b = report_bytes r ++ drop 26 b.
Proof.
  intros Hb Hlen. unfold pqc_metrics_decode_report. autounfold with c_consts.
  destruct (Z.eqb_spec len 26) as [->|]; simpl; [|discriminate].
  do 26 (destruct b as [|? b]; [simpl in Hlen; lia|]).
  do 26 apply list.Forall_cons in Hb as [? Hb].
  unfold read_u32. rewrite !cell_lookup by lia. simpl.
  destruct (Z.eqb_spec z 1) as [->|]; simpl; [|discriminate].
  destruct (Z.eqb_spec z0 0), (Z.ltb_spec 7 z0); simpl; try discriminate.
  rewrite !word_of_bytes by assumption. intros Hr%(inj Some)%(inj Some). subst r. split; [reflexivity|]. split.
  - split; [reflexivity|]. split; [cbn in *; clia|]. simpl.
    repeat (apply list.Forall_cons; split; [apply word_range; assumption|]).
    apply list.Forall_nil. exact I.
  - transitivity (([1; z0] ++ be32 (2 ^ 24 * z1 + 2 ^ 16 * z2 + 2 ^ 8 * z3 + z4) ++
      be32 (2 ^ 24 * z5 + 2 ^ 16 * z6 + 2 ^ 8 * z7 + z8) ++
      be32 (2 ^ 24 * z9 + 2 ^ 16 * z10 + 2 ^ 8 * z11 + z12) ++
      be32 (2 ^ 24 * z13 + 2 ^ 16 * z14 + 2 ^ 8 * z15 + z16) ++
      be32 (2 ^ 24 * z17 + 2 ^ 16 * z18 + 2 ^ 8 * z19 + z20) ++
      be32 (2 ^ 24 * z21 + 2 ^ 16 * z22 + 2 ^ 8 * z23 + z24)) ++ b);
      [rewrite !be32_word by assumption|]; reflexivity.
Qed.

(** The decoder reads nothing outside the buffer. *)
Lemma decode_report_total b len :
  len <= Z.of_nat (length b) -> pqc_metrics_decode_report (Some b) len <> None.
Proof.
  intros Hlen. unfold pqc_metrics_decode_report. autounfold with c_consts.
  destruct (Z.eqb_spec len 26); simpl; [|discriminate].
  destruct (cell_total b 0) as (? & -> & _); [lia|]. simpl. case_if; [discriminate|].
  destruct (cell_total b 1) as (g & -> & _); [lia|]. simpl. case_if; [discriminate|].
  destruct (read_u32_total b 2) as [? ->]; [lia..|]. opt_simpl.
  destruct (read_u32_total b 6) as [? ->]; [lia..|]. opt_simpl.
  destruct (read_u32_total b 10) as [? ->]; [lia..|]. opt_simpl.
  destruct (read_u32_total b 14) as [? ->]; [lia..|]. opt_simpl.
  destruct (read_u32_total b 18) as [? ->]; [lia..|]. opt_simpl.
  destruct (read_u32_total b 22) as [? ->]; [lia..|]. opt_simpl.
  discriminate.
Qed.

Lemma decode_report_eq r tail :
  report_wf r ->
  pqc_metrics_decode_report (Some (report_bytes r ++ tail)) 26 = Some (Some r).
Proof.
  intros (Hv & Hg & Hw). repeat apply list.Forall_cons in Hw as [? Hw].
  unfold report_bytes, pqc_metrics_decode_report, read_u32. autounfold with c_consts in *.
  rewrite !cell_lookup by lia. simpl. rewrite Hv. simpl.
  destruct (Z.eqb_spec (rp_group r) 0), (Z.ltb_spec 7 (rp_group r)); try lia. simpl.
  assert (Hbe : forall v, is_u32 v ->
    Z.lor (Z.lor (Z.lor (u32 (Z.shiftl (v / 2 ^ 24) 24)) (u32 (Z.shiftl (v / 2 ^ 16 mod 256) 16)))
      (u32 (Z.shiftl (v / 2 ^ 8 mod 256) 8))) (v mod 256) = v).
  { intros v Hv'. pose proof (be32_bytes v Hv') as Hb. unfold be32 in Hb.
    repeat apply list.Forall_cons in Hb as [? Hb].
    rewrite word_of_bytes by assumption. apply be32_value, Hv'. }
  rewrite !Hbe by assumption. rewrite <- Hv. destruct r; reflexivity.
Qed.

(** ** The snapshot *)

(** The words of a snapshot. *)
Definition handshake_words (h : pqc_metrics_handshake_t) : list Z :=
  [attempts h; success h; failure h; getpk_tx h; getpk_rx h; pk_tx h; pk_rx_complete h; ct_tx h;
   ct_rx_complete h; ack_tx h; ack_rx h; handshake_started_at h; pk_tx_started_at h;
   pk_rx_completed_at h; ct_tx_started_at h; ct_rx_started_at h; ct_rx_completed_at h;
   ack_rx_at h; pk_tx_ticks_last h; pk_rx_ticks_last h; ct_tx_ticks_last h; ct_rx_ticks_last h;
   ack_wait_ticks_last h; keypair_ticks_last h; encaps_ticks_last h; decaps_ticks_last h;
   handshake_ticks_last h; handshake_ticks_max h].
Definition snapshot_words (m : pqc_metrics_snapshot_t) : list Z :=
  let f := fragmentation m in let t := temp m in let r := resource m in
  [m_seq m; m_uptime_ticks m] ++ handshake_words (handshake m) ++
  [fragments_tx f; fragments_rx f; fragments_duplicate f; fragments_rejected f; nack_tx f;
   nack_rx f; nack_rounds_count f; nack_recovered_fragments f] ++
  [temp_tx t; temp_tx_fail t; temp_rx t; temp_rx_ok t; temp_rx_fail t; temp_counter_resync t] ++
  [tx_queue_high_water r; tx_queue_full r; rx_slot_alloc_count r; rx_slot_full r;
   rx_slot_timeout r; retries r].

(** Every counter and timestamp is a 32-bit word. *)
Definition snapshot_wf (m : pqc_metrics_snapshot_t) : Prop := Forall is_u32 (snapshot_words m).

#[export] Instance snapshot_wf_dec m : Decision (snapshot_wf m).
Proof. unfold snapshot_wf. apply _. Defined.

Lemma inc32_range x : is_u32 (inc32 x).
Proof. apply u32_range. Qed.
Lemma is_u32_0 : is_u32 0.
Proof. unfold in_width. lia. Qed.
#[export] Hint Resolve inc32_range is_u32_0 : widths.

(** Proves that an updated snapshot is well formed, word by word. *)
Ltac snapshot_words_tac :=
  repeat match goal with H : Forall _ (_ :: _) |- _ => apply list.Forall_cons in H as [? H] end;
  repeat (apply list.Forall_cons; split; [first [assumption | solve [auto with widths]]|]);
  apply list.Forall_nil; exact I.
Ltac stat_words :=
  intros; match goal with H : snapshot_wf _ |- snapshot_wf _ =>
    unfold snapshot_wf in *; cbn in H |- *; snapshot_words_tac end.

Lemma report_values_some m g :
  1 <= g <= PQC_METRICS_GROUP_COUNT -> snapshot_wf m ->
  exists v0 v1 v2 v3, report_values m g = Some (v0, v1, v2, v3) /\ Forall is_u32 [v0; v1; v2; v3].
Proof.
  intros Hg Hm. unfold report_values. autounfold with c_consts in *.
  assert (g = 1 \/ g = 2 \/ g = 3 \/ g = 4 \/ g = 5 \/ g = 6 \/ g = 7) as Hc by lia.
  unfold snapshot_wf, snapshot_words, handshake_words in Hm. simpl in Hm.
  repeat apply list.Forall_cons in Hm as [? Hm].
  destruct Hc as [->|[->|[->|[->|[->|[->| ->]]]]]]; simpl; do 4 eexists;
    (split; [reflexivity|]); repeat (apply list.Forall_cons; split; [assumption|]);
    apply list.Forall_nil; exact I.
Qed.

Section TimedFacts.
Context `{PlatformLaws}.

(** Elapsed ticks are a difference modulo [2^32], whatever the width of the clock. *)
Lemma elapsed_mod now s : is_u32 s -> u32 (uclk (now - uclk s)) = u32 (now - s).
Proof.
  intros Hs. unfold uclk, u32. pose proof clock_bits_32.
  replace (2 ^ clock_bits) with (2 ^ 32 * 2 ^ (clock_bits - 32))
    by (rewrite <- Z.pow_add_r by lia; f_equal; lia).
  set (k := 2 ^ (clock_bits - 32)). assert (0 < k) by (unfold k; apply Z.pow_pos_nonneg; lia).
  rewrite (Z.mod_small s) by (unfold in_width in Hs; nia).
  rewrite Z.rem_mul_r by lia. rewrite Z.mul_comm, Z.mod_add by lia. apply Z.mod_mod. lia.
Qed.

Lemma wp_elapsed {S} (Q : Z -> env -> S -> Prop) s e st :
  is_u32 s ->
  (forall now e', now = uclk (e_clock e (e_reads e)) -> Q (u32 (now - s)) e' st) ->
  wp (pqc_metrics_elapsed_since s) Q e st.
Proof.
  intros Hs HQ. unfold pqc_metrics_elapsed_since. wp_steps. rewrite elapsed_mod by exact Hs.
  eapply HQ. reflexivity.
Qed.

(** A report is built exactly for the seven groups; the snapshot's version,
    sequence number and uptime are updated. *)
Lemma wp_build_report Q group e m :
  snapshot_wf m -> 0 <= group ->
  (~ 1 <= group <= PQC_METRICS_GROUP_COUNT -> Q None e m) ->
  (1 <= group <= PQC_METRICS_GROUP_COUNT -> forall e' r, report_wf r ->
     rp_group r = group -> rp_seq r = inc32 (m_seq m) ->
     report_values m group = Some (value0 r, value1 r, value2 r, value3 r) ->
     Q (Some r) e' (m <| m_version := PQC_METRICS_SCHEMA_VERSION |> <| m_seq ::= inc32 |>
                      <| m_uptime_ticks := rp_uptime_ticks r |>)) ->
  wp (pqc_metrics_build_report group) Q e m.
Proof.
  intros Hm Hg0 Hno Hyes. unfold pqc_metrics_build_report.
  destruct (Z.eqb_spec group 0), (Z.ltb_spec PQC_METRICS_GROUP_COUNT group); cbn [orb];
    try (apply wp_ret, Hno; clia).
  assert (Hg : 1 <= group <= PQC_METRICS_GROUP_COUNT) by clia.
  destruct (report_values_some m group Hg Hm) as (v0 & v1 & v2 & v3 & Hv & Hw).
  apply wp_bind, wp_modify, wp_bind, wp_clock_time, wp_bind, wp_modify, wp_bind, wp_get.
  cbv zeta. change (report_values _ group) with (report_values m group). rewrite Hv. apply wp_ret.
  set (now := u32 _). apply (Hyes Hg _ (mk_report 1 group (inc32 (m_seq m)) now v0 v1 v2 v3)); try reflexivity.
  - split; [reflexivity|]. split; [exact Hg|].
    do 2 (apply list.Forall_cons; split; [apply u32_range|]). exact Hw.
  - exact Hv.
Qed.

Lemma wp_handshake_start Q e m :
  Q tt (e <| e_reads ::= Datatypes.S |>)
    (m <| handshake ::= (fun h =>
       mk_handshake (inc32 (attempts h)) (success h) (failure h) (getpk_tx h) (getpk_rx h)
         (pk_tx h) (pk_rx_complete h) (ct_tx h) (ct_rx_complete h) (ack_tx h) (ack_rx h)
         (u32 (uclk (e_clock e (e_reads e)))) 0 0 0 0 0 0 0 0 0 0 0 0 0 0 0
         (handshake_ticks_max h)) |>) ->
  wp pqc_metrics_handshake_start Q e m.
Proof. intros HQ. unfold pqc_metrics_handshake_start. wp_steps. exact HQ. Qed.

Lemma wp_ticks_update Q e m (h := handshake m) (s := handshake_started_at h)
    (d := u32 (uclk (e_clock e (e_reads e)) - s)) :
  is_u32 s ->
  (s = 0 -> Q tt e m) ->
  (s <> 0 -> Q tt (e <| e_reads ::= Datatypes.S |>)
     (m <| handshake := h <| handshake_ticks_last := d |>
                          <| handshake_ticks_max := Z.max d (handshake_ticks_max h) |> |>)) ->
  wp handshake_ticks_update Q e m.
Proof.
  intros Hs Hz Hnz. unfold handshake_ticks_update. wp_steps; [apply Hz, Z.eqb_eq; assumption|].
  unfold pqc_metrics_elapsed_since. wp_steps. rewrite elapsed_mod by exact Hs. fold h s d.
  change (update handshake _ m) with (m <| handshake := 
    if handshake_ticks_max h <? d then h <| handshake_ticks_last := d |> <| handshake_ticks_max := d |>
    else h <| handshake_ticks_last := d |> |>).
  specialize (Hnz ltac:(apply Z.eqb_neq; assumption)).
  destruct (Z.ltb_spec (handshake_ticks_max h) d).
  - rewrite Z.max_l in Hnz by lia. exact Hnz.
  - rewrite Z.max_r in Hnz by lia. destruct h; exact Hnz.
Qed.

Lemma handshake_start_wf e m :
  snapshot_wf m -> wp pqc_metrics_handshake_start (fun _ _ m' => snapshot_wf m') e m.
Proof.
  intros Hm. unfold pqc_metrics_handshake_start. wp_steps.
  unfold snapshot_wf in *. cbn in Hm |- *. snapshot_words_tac.
Qed.
End TimedFacts.

(** ** Properties *)

#[local] Existing Instance example_platform | 100.
#[local] Existing Instance example_platform_laws | 100.

(** C19. A metrics report survives the wire: for each of the seven groups the report
    that is built carries the next sequence number, the clock and the group's four
    values, its 26-byte encoding fits any buffer of that size, and decoding the
    encoding gives the report back.  Building changes nothing else in the
    snapshot. *)
Theorem metrics_report_roundtrip `{Platform} group m e buf :
  1 <= group <= PQC_METRICS_GROUP_COUNT -> snapshot_wf m -> 26 <= Z.of_nat (length buf) ->
  exists r b now,
    let m' := m <| m_version := PQC_METRICS_SCHEMA_VERSION |> <| m_seq := inc32 (m_seq m) |>
                <| m_uptime_ticks := now |> in
    run (pqc_metrics_build_report group) e m = Some (Some r, m') /\
    now = u32 (uclk (e_clock e (e_reads e))) /\
    (rp_group r, rp_seq r, rp_uptime_ticks r) = (group, inc32 (m_seq m), now) /\
    report_values m group = Some (value0 r, value1 r, value2 r, value3 r) /\
    pqc_metrics_encode_report r buf 26 = Some (26, b) /\
    pqc_metrics_decode_report (Some b) 26 = Some (Some r).
Proof.
  intros Hg Hm Hbuf. destruct (report_values_some m group Hg Hm) as (v0 & v1 & v2 & v3 & Hv & Hw).
  pose (now := u32 (uclk (e_clock e (e_reads e)))).
  pose (r := mk_report PQC_METRICS_SCHEMA_VERSION group (inc32 (m_seq m)) now v0 v1 v2 v3).
  assert (Hr : report_wf r).
  { split; [reflexivity|]. split; [exact Hg|].
    do 2 (apply list.Forall_cons; split; [apply u32_range|]). exact Hw. }
  exists r, (report_bytes r ++ drop 26 buf), now. split.
  - unfold run, pqc_metrics_build_report. autounfold with c_consts in Hg.
    destruct (Z.eqb_spec group 0), (Z.ltb_spec PQC_METRICS_GROUP_COUNT group); try clia.
    cbv [orb]. m_simpl. change (report_values _ group) with (report_values m group). rewrite Hv. reflexivity.
  - split; [reflexivity|]. split; [reflexivity|]. split; [exact Hv|].
    split; [apply encode_report_eq; [exact Hr|lia]|apply decode_report_eq, Hr].
Qed.

Example metrics_report_roundtrip_witness :
  exists r b now,
    let m := pqc_metrics_init 7 in
    let m' := m <| m_version := PQC_METRICS_SCHEMA_VERSION |> <| m_seq := inc32 (m_seq m) |>
                <| m_uptime_ticks := now |> in
    run (pqc_metrics_build_report 3) example_env m = Some (Some r, m') /\
    now = u32 (uclk (e_clock example_env (e_reads example_env))) /\
    (rp_group r, rp_seq r, rp_uptime_ticks r) = (3, inc32 (m_seq m), now) /\
    report_values m 3 = Some (value0 r, value1 r, value2 r, value3 r) /\
    pqc_metrics_encode_report r (zeros 32) 26 = Some (26, b) /\
    pqc_metrics_decode_report (Some b) 26 = Some (Some r).
Proof.
  apply (metrics_report_roundtrip 3 (pqc_metrics_init 7) example_env (zeros 32)); decided.
Defined.

(** The report decoder is safe and canonical: on any buffer at least as long as
    announced it reads nothing outside it; what it accepts is a report of version 1
    of one of the seven groups whose encoding is the received bytes; and every
    length but 26 is refused. *)
Theorem metrics_decode_canonical b len :
  all_bytes b -> len <= Z.of_nat (length b) ->
  exists res, pqc_metrics_decode_report (Some b) len = Some res /\
    match res with
    | Some r => len = PQC_METRICS_REPORT_LEN /\ report_wf r /\
                pqc_metrics_encode_report r (zeros 26) 26 = Some (26, take 26 b)
    | None => len <> PQC_METRICS_REPORT_LEN \/
              cell b 0 <> Some PQC_METRICS_SCHEMA_VERSION \/
              exists g, cell b 1 = Some g /\ ~ 1 <= g <= PQC_METRICS_GROUP_COUNT
    end.
Proof.
  intros Hb Hlen. destruct (pqc_metrics_decode_report (Some b) len) as [[r|]|] eqn:E.
  - destruct (decode_report_inv b len r Hb Hlen E) as (-> & Hwf & Heq).
    exists (Some r). split; [reflexivity|]. split; [reflexivity|]. split; [exact Hwf|].
    rewrite encode_report_eq by (exact Hwf || (vm_compute; split; discriminate)).
    f_equal. f_equal. rewrite Heq at 1. rewrite take_app_length'; [|reflexivity].
    apply app_nil_r.
  - exists None. split; [reflexivity|]. revert E. unfold pqc_metrics_decode_report.
    destruct (Z.eqb_spec len PQC_METRICS_REPORT_LEN) as [He|]; simpl; [|auto].
    destruct (cell b 0) as [v|] eqn:Hc; simpl; [|discriminate].
    destruct (Z.eqb_spec v PQC_METRICS_SCHEMA_VERSION); simpl; [|intros _; right; left; congruence].
    destruct (cell b 1) as [g|] eqn:Hg; simpl; [|discriminate].
    destruct (Z.eqb_spec g 0), (Z.ltb_spec PQC_METRICS_GROUP_COUNT g); simpl;
      try (intros _; right; right; exists g; split; [reflexivity|lia]).
    destruct (read_u32 b 2); [opt_simpl|discriminate].
    destruct (read_u32 b 6); [opt_simpl|discriminate].
    destruct (read_u32 b 10); [opt_simpl|discriminate].
    destruct (read_u32 b 14); [opt_simpl|discriminate].
    destruct (read_u32 b 18); [opt_simpl|discriminate].
    destruct (read_u32 b 22); [opt_simpl|discriminate].
    discriminate.
  - exfalso. exact (decode_report_total b len Hlen E).
Qed.

Example metrics_decode_canonical_witness :
  exists res, pqc_metrics_decode_report (Some (1 :: 3 :: zeros 24)) 26 = Some res /\
    match res with
    | Some r => 26 = PQC_METRICS_REPORT_LEN /\ report_wf r /\
                pqc_metrics_encode_report r (zeros 26) 26 = Some (26, take 26 (1 :: 3 :: zeros 24))
    | None => 26 <> PQC_METRICS_REPORT_LEN \/
              cell (1 :: 3 :: zeros 24) 0 <> Some PQC_METRICS_SCHEMA_VERSION \/
              exists g, cell (1 :: 3 :: zeros 24) 1 = Some g /\ ~ 1 <= g <= PQC_METRICS_GROUP_COUNT
    end.
Proof. apply (metrics_decode_canonical (1 :: 3 :: zeros 24) 26); decided. Defined.

(** Handshake timing is exact across a wrap of the clock: a start followed by a
    success records the ticks between the two readings modulo [2^32], whatever the
    width of [clock_time_t], keeps the longest duration, and counts one attempt
    and one success; a start whose reading is 0 modulo [2^32] leaves the duration
    at 0. *)
Theorem handshake_timing `{PlatformLaws} e m :
  let t0 := uclk (e_clock e (e_reads e)) in
  let t1 := uclk (e_clock e (Datatypes.S (e_reads e))) in
  let d := if u32 t0 =? 0 then 0 else u32 (t1 - t0) in
  snapshot_wf m ->
  exists m', run (pqc_metrics_handshake_start;; pqc_metrics_handshake_success) e m = Some (tt, m') /\
    snapshot_wf m' /\
    handshake_started_at (handshake m') = u32 t0 /\
    handshake_ticks_last (handshake m') = d /\
    handshake_ticks_max (handshake m') = Z.max d (handshake_ticks_max (handshake m)) /\
    attempts (handshake m') = inc32 (attempts (handshake m)) /\
    success (handshake m') = inc32 (success (handshake m)) /\
    failure (handshake m') = failure (handshake m).
Proof.
  intros t0 t1 d Hm.
  assert (Hmax : is_u32 (handshake_ticks_max (handshake m))).
  { unfold snapshot_wf in Hm. cbn in Hm. repeat apply list.Forall_cons in Hm as [? Hm]. assumption. }
  assert (Hd : u32 (t1 - u32 t0) = u32 (t1 - t0)).
  { unfold u32. rewrite Zminus_mod_idemp_r. reflexivity. }
  assert (Hwp : wp (pqc_metrics_handshake_start;; pqc_metrics_handshake_success)
    (fun _ _ m' => snapshot_wf m' /\ handshake_started_at (handshake m') = u32 t0 /\
      handshake_ticks_last (handshake m') = d /\
      handshake_ticks_max (handshake m') = Z.max d (handshake_ticks_max (handshake m)) /\
      attempts (handshake m') = inc32 (attempts (handshake m)) /\
      success (handshake m') = inc32 (success (handshake m)) /\
      failure (handshake m') = failure (handshake m)) e m).
  2: { apply wp_run in Hwp as ([] & e' & m' & Hrun & HQ). exists m'. unfold run. rewrite Hrun. auto. }
  unfold pqc_metrics_handshake_success. wp_steps. apply wp_handshake_start. fold t0.
  wp_steps. apply wp_ticks_update; rsimpl; fold t0 t1.
  - apply u32_range.
  - intros E0. change (u32 t0 = 0) in E0.
    assert (Hd0 : d = 0) by (unfold d; rewrite E0; reflexivity).
    rewrite Hd0, Z.max_r by (unfold in_width in Hmax; lia).
    split; [|repeat split].
    unfold snapshot_wf in *. cbn in Hm |- *. snapshot_words_tac.
  - intros E0. change (u32 t0 <> 0) in E0.
    assert (Hd1 : d = u32 (t1 - u32 t0))
      by (unfold d; rewrite (proj2 (Z.eqb_neq _ _) E0), Hd; reflexivity).
    cbn [handshake_started_at handshake_ticks_max]. rewrite <- Hd1.
    split; [|repeat split].
    assert (Hx : is_u32 (Z.max d (handshake_ticks_max (handshake m))))
      by (apply Z.max_case; [rewrite Hd1; apply u32_range|exact Hmax]).
    assert (Hx' : is_u32 d) by (rewrite Hd1; apply u32_range). clearbody d.
    unfold snapshot_wf in *. cbn in Hm |- *. snapshot_words_tac.
Qed.

(** A clock that wraps between the two readings: 8 ticks. *)
Definition wrapping_env : env := mkenv (fun n => if (n =? 0)%nat then 2 ^ 32 - 5 else 3) 0 [].

Example handshake_timing_witness :
  exists m', run (pqc_metrics_handshake_start;; pqc_metrics_handshake_success) wrapping_env
               (pqc_metrics_init 7) = Some (tt, m') /\
    snapshot_wf m' /\
    handshake_started_at (handshake m') = 2 ^ 32 - 5 /\
    handshake_ticks_last (handshake m') = 8 /\
    handshake_ticks_max (handshake m') = 8 /\
    attempts (handshake m') = 1 /\ success (handshake m') = 1 /\ failure (handshake m') = 0.
Proof. apply (handshake_timing wrapping_env (pqc_metrics_init 7)). decided. Defined.
