(* ===== verification/Aes.v ===== *)
(** * AES-256: [src/extern/tiny_aes/aes.c]

    The block cipher and its ECB, CBC and CTR modes, as compiled with [AES256].
    A block, [state_t], is a list of 16 bytes in which [( *state)[i][j]] is cell
    [4 * i + j], the layout the cast of a buffer to [state_t *] gives; column [i]
    is the four cells from [4 * i].  The firmware uses the CTR mode. *)

From Stdlib Require Import Btauto.
From S2P Require Import Prelude.

(* src/extern/tiny_aes/aes.c:45-45 Nb *)
Definition Nb : Z := 4.
(* src/extern/tiny_aes/aes.c:48-48 Nk *)
Definition Nk : Z := 8.
(* src/extern/tiny_aes/aes.c:49-49 Nr *)
Definition Nr : Z := 14.
(* src/extern/tiny_aes/aes.h:31-31 AES_BLOCKLEN *)
Definition AES_BLOCKLEN : Z := 16.
(* src/extern/tiny_aes/aes.h:34-34 AES_KEYLEN *)
Definition AES_KEYLEN : Z := 32.
(* src/extern/tiny_aes/aes.h:35-35 AES_keyExpSize *)
Definition AES_keyExpSize : Z := 240.

#[export] Hint Unfold Nb Nk Nr AES_BLOCKLEN AES_KEYLEN AES_keyExpSize : c_consts.

(* src/extern/tiny_aes/aes.h:44-50 AES_ctx *)
Record AES_ctx := mk_aes_ctx { RoundKey : bytes; Iv : bytes }.
#[export] Instance eta_aes_ctx : Eta AES_ctx := fun r => mk_aes_ctx (RoundKey r) (Iv r).

(* src/extern/tiny_aes/aes.c:79-96 sbox *)
Definition sbox : bytes :=
  [0x63; 0x7c; 0x77; 0x7b; 0xf2; 0x6b; 0x6f; 0xc5; 0x30; 0x01; 0x67; 0x2b; 0xfe; 0xd7; 0xab; 0x76;
  0xca; 0x82; 0xc9; 0x7d; 0xfa; 0x59; 0x47; 0xf0; 0xad; 0xd4; 0xa2; 0xaf; 0x9c; 0xa4; 0x72; 0xc0;
  0xb7; 0xfd; 0x93; 0x26; 0x36; 0x3f; 0xf7; 0xcc; 0x34; 0xa5; 0xe5; 0xf1; 0x71; 0xd8; 0x31; 0x15;
  0x04; 0xc7; 0x23; 0xc3; 0x18; 0x96; 0x05; 0x9a; 0x07; 0x12; 0x80; 0xe2; 0xeb; 0x27; 0xb2; 0x75;
  0x09; 0x83; 0x2c; 0x1a; 0x1b; 0x6e; 0x5a; 0xa0; 0x52; 0x3b; 0xd6; 0xb3; 0x29; 0xe3; 0x2f; 0x84;
  0x53; 0xd1; 0x00; 0xed; 0x20; 0xfc; 0xb1; 0x5b; 0x6a; 0xcb; 0xbe; 0x39; 0x4a; 0x4c; 0x58; 0xcf;
  0xd0; 0xef; 0xaa; 0xfb; 0x43; 0x4d; 0x33; 0x85; 0x45; 0xf9; 0x02; 0x7f; 0x50; 0x3c; 0x9f; 0xa8;
  0x51; 0xa3; 0x40; 0x8f; 0x92; 0x9d; 0x38; 0xf5; 0xbc; 0xb6; 0xda; 0x21; 0x10; 0xff; 0xf3; 0xd2;
  0xcd; 0x0c; 0x13; 0xec; 0x5f; 0x97; 0x44; 0x17; 0xc4; 0xa7; 0x7e; 0x3d; 0x64; 0x5d; 0x19; 0x73;
  0x60; 0x81; 0x4f; 0xdc; 0x22; 0x2a; 0x90; 0x88; 0x46; 0xee; 0xb8; 0x14; 0xde; 0x5e; 0x0b; 0xdb;
  0xe0; 0x32; 0x3a; 0x0a; 0x49; 0x06; 0x24; 0x5c; 0xc2; 0xd3; 0xac; 0x62; 0x91; 0x95; 0xe4; 0x79;
  0xe7; 0xc8; 0x37; 0x6d; 0x8d; 0xd5; 0x4e; 0xa9; 0x6c; 0x56; 0xf4; 0xea; 0x65; 0x7a; 0xae; 0x08;
  0xba; 0x78; 0x25; 0x2e; 0x1c; 0xa6; 0xb4; 0xc6; 0xe8; 0xdd; 0x74; 0x1f; 0x4b; 0xbd; 0x8b; 0x8a;
  0x70; 0x3e; 0xb5; 0x66; 0x48; 0x03; 0xf6; 0x0e; 0x61; 0x35; 0x57; 0xb9; 0x86; 0xc1; 0x1d; 0x9e;
  0xe1; 0xf8; 0x98; 0x11; 0x69; 0xd9; 0x8e; 0x94; 0x9b; 0x1e; 0x87; 0xe9; 0xce; 0x55; 0x28; 0xdf;
  0x8c; 0xa1; 0x89; 0x0d; 0xbf; 0xe6; 0x42; 0x68; 0x41; 0x99; 0x2d; 0x0f; 0xb0; 0x54; 0xbb; 0x16].

(* src/extern/tiny_aes/aes.c:99-115 rsbox *)
Definition rsbox : bytes :=
  [0x52; 0x09; 0x6a; 0xd5; 0x30; 0x36; 0xa5; 0x38; 0xbf; 0x40; 0xa3; 0x9e; 0x81; 0xf3; 0xd7; 0xfb;
  0x7c; 0xe3; 0x39; 0x82; 0x9b; 0x2f; 0xff; 0x87; 0x34; 0x8e; 0x43; 0x44; 0xc4; 0xde; 0xe9; 0xcb;
  0x54; 0x7b; 0x94; 0x32; 0xa6; 0xc2; 0x23; 0x3d; 0xee; 0x4c; 0x95; 0x0b; 0x42; 0xfa; 0xc3; 0x4e;
  0x08; 0x2e; 0xa1; 0x66; 0x28; 0xd9; 0x24; 0xb2; 0x76; 0x5b; 0xa2; 0x49; 0x6d; 0x8b; 0xd1; 0x25;
  0x72; 0xf8; 0xf6; 0x64; 0x86; 0x68; 0x98; 0x16; 0xd4; 0xa4; 0x5c; 0xcc; 0x5d; 0x65; 0xb6; 0x92;
  0x6c; 0x70; 0x48; 0x50; 0xfd; 0xed; 0xb9; 0xda; 0x5e; 0x15; 0x46; 0x57; 0xa7; 0x8d; 0x9d; 0x84;
  0x90; 0xd8; 0xab; 0x00; 0x8c; 0xbc; 0xd3; 0x0a; 0xf7; 0xe4; 0x58; 0x05; 0xb8; 0xb3; 0x45; 0x06;
  0xd0; 0x2c; 0x1e; 0x8f; 0xca; 0x3f; 0x0f; 0x02; 0xc1; 0xaf; 0xbd; 0x03; 0x01; 0x13; 0x8a; 0x6b;
  0x3a; 0x91; 0x11; 0x41; 0x4f; 0x67; 0xdc; 0xea; 0x97; 0xf2; 0xcf; 0xce; 0xf0; 0xb4; 0xe6; 0x73;
  0x96; 0xac; 0x74; 0x22; 0xe7; 0xad; 0x35; 0x85; 0xe2; 0xf9; 0x37; 0xe8; 0x1c; 0x75; 0xdf; 0x6e;
  0x47; 0xf1; 0x1a; 0x71; 0x1d; 0x29; 0xc5; 0x89; 0x6f; 0xb7; 0x62; 0x0e; 0xaa; 0x18; 0xbe; 0x1b;
  0xfc; 0x56; 0x3e; 0x4b; 0xc6; 0xd2; 0x79; 0x20; 0x9a; 0xdb; 0xc0; 0xfe; 0x78; 0xcd; 0x5a; 0xf4;
  0x1f; 0xdd; 0xa8; 0x33; 0x88; 0x07; 0xc7; 0x31; 0xb1; 0x12; 0x10; 0x59; 0x27; 0x80; 0xec; 0x5f;
  0x60; 0x51; 0x7f; 0xa9; 0x19; 0xb5; 0x4a; 0x0d; 0x2d; 0xe5; 0x7a; 0x9f; 0x93; 0xc9; 0x9c; 0xef;
  0xa0; 0xe0; 0x3b; 0x4d; 0xae; 0x2a; 0xf5; 0xb0; 0xc8; 0xeb; 0xbb; 0x3c; 0x83; 0x53; 0x99; 0x61;
  0x17; 0x2b; 0x04; 0x7e; 0xba; 0x77; 0xd6; 0x26; 0xe1; 0x69; 0x14; 0x63; 0x55; 0x21; 0x0c; 0x7d].

(* src/extern/tiny_aes/aes.c:120-121 Rcon *)
Definition Rcon : bytes :=
  [0x8d; 0x01; 0x02; 0x04; 0x08; 0x10; 0x20; 0x40; 0x80; 0x1b; 0x36].

(** A byte always indexes its table; the default is never taken on one. *)
(* src/extern/tiny_aes/aes.c:143-143 getSBoxValue *)
Definition getSBoxValue (num : Z) : Z := default 0 (cell sbox num).
(* src/extern/tiny_aes/aes.c:345-345 getSBoxInvert *)
Definition getSBoxInvert (num : Z) : Z := default 0 (cell rsbox num).

Definition xor_bytes (a b : bytes) : bytes := zip_with Z.lxor a b.

(** The first [Nk] words of the round key. *)
(* src/extern/tiny_aes/aes.c:152-158 KeyExpansion *)
Fixpoint key_copy (Key : bytes) (idxs : list Z) (rk : bytes) {struct idxs} : option bytes :=
  match idxs with
  | [] => Some rk
  | i :: rest => w ← mem_read Key (i * 4) 4; rk ← mem_write rk (i * 4) w; key_copy Key rest rk
  end.

(** The word [tempa] that is mixed into word [i]: rotated, substituted and
    combined with a round constant every [Nk] words, substituted every fourth
    word between. *)
(* src/extern/tiny_aes/aes.c:163-210 KeyExpansion *)
Definition key_temp (rk : bytes) (i : Z) : option bytes :=
  tempa ← mem_read rk ((i - 1) * 4) 4;
  if i mod Nk =? 0
  then rcon ← cell Rcon (i / Nk);
       let rot := drop 1 tempa ++ take 1 tempa in
       let sub := getSBoxValue <$> rot in
       Some (xor_bytes sub [rcon; 0; 0; 0])
  else if i mod Nk =? 4 then Some (getSBoxValue <$> tempa)
  else Some tempa.

(* src/extern/tiny_aes/aes.c:161-216 KeyExpansion *)
Fixpoint key_expand (idxs : list Z) (rk : bytes) {struct idxs} : option bytes :=
  match idxs with
  | [] => Some rk
  | i :: rest =>
      tempa ← key_temp rk i;
      w ← mem_read rk ((i - Nk) * 4) 4;
      rk ← mem_write rk (i * 4) (xor_bytes w tempa);
      key_expand rest rk
  end.

(** [rk] is the array the round key is written to. *)
(* src/extern/tiny_aes/aes.c:146-217 KeyExpansion *)
Definition KeyExpansion (rk Key : bytes) : option bytes :=
  rk ← key_copy Key (upto Nk) rk;
  key_expand (seqZ Nk (Nb * (Nr + 1) - Nk)) rk.

(* src/extern/tiny_aes/aes.c:219-222 AES_init_ctx *)
Definition AES_init_ctx (ctx : AES_ctx) (key : bytes) : option AES_ctx :=
  rk ← KeyExpansion (RoundKey ctx) key;
  Some (ctx <| RoundKey := rk |>).

(* src/extern/tiny_aes/aes.c:229-232 AES_ctx_set_iv *)
Definition AES_ctx_set_iv (ctx : AES_ctx) (iv : bytes) : option AES_ctx :=
  v ← mem_read iv 0 AES_BLOCKLEN;
  Some (ctx <| Iv := v |>).

(* src/extern/tiny_aes/aes.c:224-228 AES_init_ctx_iv *)
Definition AES_init_ctx_iv (ctx : AES_ctx) (key iv : bytes) : option AES_ctx :=
  ctx ← AES_init_ctx ctx key;
  AES_ctx_set_iv ctx iv.

(** ** The round functions *)

(* src/extern/tiny_aes/aes.c:237-247 AddRoundKey *)
Definition AddRoundKey (round : Z) (state rk : bytes) : bytes :=
  xor_bytes state (drop (Z.to_nat (round * Nb * 4)) rk).

(* src/extern/tiny_aes/aes.c:251-261 SubBytes *)
Definition SubBytes (state : bytes) : bytes := getSBoxValue <$> state.

(** [( *state)[i][j]] and its assignment. *)
Definition st (s : bytes) (i j : nat) : Z := default 0 (s !! (4 * i + j)%nat).
Definition st_set (s : bytes) (i j : nat) (v : Z) : bytes := <[(4 * i + j)%nat := v]> s.

(* src/extern/tiny_aes/aes.c:266-292 ShiftRows *)
Definition ShiftRows (s : bytes) : bytes :=
  let temp := st s 0 1 in
  let s := st_set s 0 1 (st s 1 1) in
  let s := st_set s 1 1 (st s 2 1) in
  let s := st_set s 2 1 (st s 3 1) in
  let s := st_set s 3 1 temp in
  let temp := st s 0 2 in
  let s := st_set s 0 2 (st s 2 2) in
  let s := st_set s 2 2 temp in
  let temp := st s 1 2 in
  let s := st_set s 1 2 (st s 3 2) in
  let s := st_set s 3 2 temp in
  let temp := st s 0 3 in
  let s := st_set s 0 3 (st s 3 3) in
  let s := st_set s 3 3 (st s 2 3) in
  let s := st_set s 2 3 (st s 1 3) in
  st_set s 1 3 temp.

(* src/extern/tiny_aes/aes.c:294-297 xtime *)
Definition xtime (x : Z) : Z :=
  u8 (Z.lxor (Z.shiftl x 1) (Z.land (Z.shiftr x 7) 1 * 0x1b)).

(** The body of the loop over the columns. *)
(* src/extern/tiny_aes/aes.c:306-311 MixColumns *)
Definition mix_column (a b c d : Z) : bytes :=
  let t := a in
  let Tmp := Z.lxor (Z.lxor (Z.lxor a b) c) d in
  let Tm := xtime (Z.lxor a b) in let a' := Z.lxor a (Z.lxor Tm Tmp) in
  let Tm := xtime (Z.lxor b c) in let b' := Z.lxor b (Z.lxor Tm Tmp) in
  let Tm := xtime (Z.lxor c d) in let c' := Z.lxor c (Z.lxor Tm Tmp) in
  let Tm := xtime (Z.lxor d t) in let d' := Z.lxor d (Z.lxor Tm Tmp) in
  [a'; b'; c'; d'].

(** A function of the four cells of a column, on every column. *)
Fixpoint columns (f : Z -> Z -> Z -> Z -> bytes) (s : bytes) : bytes :=
  match s with
  | a :: b :: c :: d :: s => f a b c d ++ columns f s
  | _ => []
  end.

(* src/extern/tiny_aes/aes.c:300-313 MixColumns *)
Definition MixColumns (state : bytes) : bytes := columns mix_column state.

(* src/extern/tiny_aes/aes.c:329-334 Multiply *)
Definition Multiply (x y : Z) : Z :=
  Z.lxor (Z.lxor (Z.lxor (Z.lxor
    (Z.land y 1 * x)
    (Z.land (Z.shiftr y 1) 1 * xtime x))
    (Z.land (Z.shiftr y 2) 1 * xtime (xtime x)))
    (Z.land (Z.shiftr y 3) 1 * xtime (xtime (xtime x))))
    (Z.land (Z.shiftr y 4) 1 * xtime (xtime (xtime (xtime x)))).

(* src/extern/tiny_aes/aes.c:356-364 InvMixColumns *)
Definition inv_mix_column (a b c d : Z) : bytes :=
  let x4 p q r s := Z.lxor (Z.lxor (Z.lxor p q) r) s in
  [x4 (Multiply a 0x0e) (Multiply b 0x0b) (Multiply c 0x0d) (Multiply d 0x09);
   x4 (Multiply a 0x09) (Multiply b 0x0e) (Multiply c 0x0b) (Multiply d 0x0d);
   x4 (Multiply a 0x0d) (Multiply b 0x09) (Multiply c 0x0e) (Multiply d 0x0b);
   x4 (Multiply a 0x0b) (Multiply b 0x0d) (Multiply c 0x09) (Multiply d 0x0e)].

(* src/extern/tiny_aes/aes.c:350-366 InvMixColumns *)
Definition InvMixColumns (state : bytes) : bytes := columns inv_mix_column state.

(* src/extern/tiny_aes/aes.c:371-381 InvSubBytes *)
Definition InvSubBytes (state : bytes) : bytes := getSBoxInvert <$> state.

(* src/extern/tiny_aes/aes.c:383-409 InvShiftRows *)
Definition InvShiftRows (s : bytes) : bytes :=
  let temp := st s 3 1 in
  let s := st_set s 3 1 (st s 2 1) in
  let s := st_set s 2 1 (st s 1 1) in
  let s := st_set s 1 1 (st s 0 1) in
  let s := st_set s 0 1 temp in
  let temp := st s 0 2 in
  let s := st_set s 0 2 (st s 2 2) in
  let s := st_set s 2 2 temp in
  let temp := st s 1 2 in
  let s := st_set s 1 2 (st s 3 2) in
  let s := st_set s 3 2 temp in
  let temp := st s 0 3 in
  let s := st_set s 0 3 (st s 1 3) in
  let s := st_set s 1 3 (st s 2 3) in
  let s := st_set s 2 3 (st s 3 3) in
  st_set s 3 3 temp.

(** The loop over the rounds; [n] is the number of iterations left before the
    loop would have run past [Nr], so it never reaches 0. *)
(* src/extern/tiny_aes/aes.c:424-433 Cipher *)
Fixpoint cipher_rounds (n : nat) (round : Z) (state rk : bytes) : bytes :=
  match n with
  | O => state
  | S n =>
      let state := SubBytes state in
      let state := ShiftRows state in
      if round =? Nr then state else
      let state := MixColumns state in
      let state := AddRoundKey round state rk in
      cipher_rounds n (round + 1) state rk
  end.

(* src/extern/tiny_aes/aes.c:413-436 Cipher *)
Definition Cipher (state rk : bytes) : bytes :=
  let state := AddRoundKey 0 state rk in
  let state := cipher_rounds (Z.to_nat Nr) 1 state rk in
  AddRoundKey Nr state rk.

(* src/extern/tiny_aes/aes.c:450-459 InvCipher *)
Fixpoint inv_cipher_rounds (round : nat) (state rk : bytes) : bytes :=
  let state := InvShiftRows state in
  let state := InvSubBytes state in
  let state := AddRoundKey (Z.of_nat round) state rk in
  match round with
  | O => state
  | S round => inv_cipher_rounds round (InvMixColumns state) rk
  end.

(* src/extern/tiny_aes/aes.c:439-461 InvCipher *)
Definition InvCipher (state rk : bytes) : bytes :=
  let state := AddRoundKey Nr state rk in
  inv_cipher_rounds (Z.to_nat (Nr - 1)) state rk.

(** ** Modes

    Each works in place on the caller's buffer; an access outside it is [None]. *)

(** The block at [off] replaced by its image. *)
Definition on_block (f : bytes -> bytes) (buf : bytes) (off : Z) : option bytes :=
  block ← mem_read buf off AES_BLOCKLEN;
  mem_write buf off (f block).

(* src/extern/tiny_aes/aes.c:470-474 AES_ECB_encrypt *)
Definition AES_ECB_encrypt (ctx : AES_ctx) (buf : bytes) : option bytes :=
  on_block (fun b => Cipher b (RoundKey ctx)) buf 0.

(* src/extern/tiny_aes/aes.c:476-480 AES_ECB_decrypt *)
Definition AES_ECB_decrypt (ctx : AES_ctx) (buf : bytes) : option bytes :=
  on_block (fun b => InvCipher b (RoundKey ctx)) buf 0.

(* src/extern/tiny_aes/aes.c:492-499 XorWithIv *)
Definition XorWithIv (buf iv : bytes) : bytes := xor_bytes buf iv.

(** The block offsets of the loops [for(i = 0; i < length; i += AES_BLOCKLEN)]. *)
Definition block_offsets (length : Z) : list Z :=
  (fun i => i * AES_BLOCKLEN) <$> upto ((length + AES_BLOCKLEN - 1) / AES_BLOCKLEN).

(* src/extern/tiny_aes/aes.c:505-511 AES_CBC_encrypt_buffer *)
Fixpoint cbc_encrypt_blocks (rk iv : bytes) (offs : list Z) (buf : bytes) {struct offs}
    : option (bytes * bytes) :=
  match offs with
  | [] => Some (iv, buf)
  | off :: rest =>
      block ← mem_read buf off AES_BLOCKLEN;
      let block := Cipher (XorWithIv block iv) rk in
      buf ← mem_write buf off block;
      cbc_encrypt_blocks rk block rest buf
  end.

(* src/extern/tiny_aes/aes.c:501-514 AES_CBC_encrypt_buffer *)
Definition AES_CBC_encrypt_buffer (ctx : AES_ctx) (buf : bytes) (length : Z)
    : option (AES_ctx * bytes) :=
  '(iv, buf) ← cbc_encrypt_blocks (RoundKey ctx) (Iv ctx) (block_offsets length) buf;
  Some (ctx <| Iv := iv |>, buf).

(* src/extern/tiny_aes/aes.c:520-527 AES_CBC_decrypt_buffer *)
Fixpoint cbc_decrypt_blocks (rk iv : bytes) (offs : list Z) (buf : bytes) {struct offs}
    : option (bytes * bytes) :=
  match offs with
  | [] => Some (iv, buf)
  | off :: rest =>
      storeNextIv ← mem_read buf off AES_BLOCKLEN;
      buf ← mem_write buf off (XorWithIv (InvCipher storeNextIv rk) iv);
      cbc_decrypt_blocks rk storeNextIv rest buf
  end.

(* src/extern/tiny_aes/aes.c:516-529 AES_CBC_decrypt_buffer *)
Definition AES_CBC_decrypt_buffer (ctx : AES_ctx) (buf : bytes) (length : Z)
    : option (AES_ctx * bytes) :=
  '(iv, buf) ← cbc_decrypt_blocks (RoundKey ctx) (Iv ctx) (block_offsets length) buf;
  Some (ctx <| Iv := iv |>, buf).

(** The loop that increments the counter block, from its last byte: [bis] are the
    indices still to visit. *)
(* src/extern/tiny_aes/aes.c:553-563 AES_CTR_xcrypt_buffer *)
Fixpoint iv_increment (bis : list Z) (iv : bytes) {struct bis} : option bytes :=
  match bis with
  | [] => Some iv
  | bi :: rest =>
      v ← cell iv bi;
      if v =? 255
      then iv ← set_cell iv bi 0; iv_increment rest iv
      else set_cell iv bi (u8 (v + 1))
  end.

(** The loop over the buffer; [buffer] holds the current keystream block and [bi]
    the next byte of it. *)
(* src/extern/tiny_aes/aes.c:544-568 AES_CTR_xcrypt_buffer *)
Fixpoint ctr_loop (rk : bytes) (idxs : list Z) (bi : Z) (buffer iv buf : bytes) {struct idxs}
    : option (bytes * bytes) :=
  match idxs with
  | [] => Some (iv, buf)
  | i :: rest =>
      '(bi, buffer, iv) ←
        (if bi =? AES_BLOCKLEN
         then block ← mem_read iv 0 AES_BLOCKLEN;
              iv ← iv_increment (rev (upto AES_BLOCKLEN)) iv;
              Some (0, Cipher block rk, iv)
         else Some (bi, buffer, iv));
      b ← cell buf i;
      k ← cell buffer bi;
      buf ← set_cell buf i (Z.lxor b k);
      ctr_loop rk rest (bi + 1) buffer iv buf
  end.

(* src/extern/tiny_aes/aes.c:538-569 AES_CTR_xcrypt_buffer *)
Definition AES_CTR_xcrypt_buffer (ctx : AES_ctx) (buf : bytes) (length : Z)
    : option (AES_ctx * bytes) :=
  '(iv, buf) ← ctr_loop (RoundKey ctx) (upto length) AES_BLOCKLEN (zeros AES_BLOCKLEN)
                 (Iv ctx) buf;
  Some (ctx <| Iv := iv |>, buf).

(** A context of zero bytes. *)
Definition aes_ctx_zero : AES_ctx := mk_aes_ctx (zeros AES_keyExpSize) (zeros AES_BLOCKLEN).

(** The vector of FIPS 197, appendix C.3. *)
Example fips197_c3 :
  (ctx ← AES_init_ctx aes_ctx_zero (upto 32);
   AES_ECB_encrypt ctx [0x00; 0x11; 0x22; 0x33; 0x44; 0x55; 0x66; 0x77; 0x88; 0x99; 0xaa; 0xbb;
                        0xcc; 0xdd; 0xee; 0xff]) =
  Some [0x8e; 0xa2; 0xb7; 0xca; 0x51; 0x67; 0x45; 0xbf; 0xea; 0xfc; 0x49; 0x90; 0x4b; 0x49; 0x60; 0x89].
Proof. vm_compute. reflexivity. Qed.

(** ** Bytes and blocks *)

Definition is_block (s : bytes) : Prop := length s = 16%nat /\ all_bytes s.

(** A property of all bytes, by evaluation. *)
Lemma byte_cases (P : Z -> bool) x : is_u8 x -> forallb P (upto 256) = true -> P x = true.
Proof.
  intros Hx Hall. rewrite forallb_forall in Hall. apply Hall, list_elem_of_In, elem_of_upto.
  unfold in_width in Hx. lia.
Qed.

Lemma lxor_byte x y : is_u8 x -> is_u8 y -> is_u8 (Z.lxor x y).
Proof.
  unfold in_width. intros Hx Hy. split; [apply Z.lxor_nonneg; lia|].
  destruct (Z.eq_dec (Z.lxor x y) 0) as [->|Hne]; [lia|].
  apply Z.log2_lt_pow2; [pose proof (proj2 (Z.lxor_nonneg x y)); lia|].
  eapply Z.le_lt_trans; [apply Z.log2_lxor; lia|].
  destruct (Z.eq_dec x 0) as [->|], (Z.eq_dec y 0) as [->|]; simpl Z.log2;
    try (apply Z.max_lub_lt); try lia; try (apply Z.log2_lt_pow2; lia).
Qed.

Lemma xtime_byte x : is_u8 (xtime x).
Proof. apply u8_range. Qed.

Lemma sbox_byte x : is_u8 x -> is_u8 (getSBoxValue x).
Proof.
  intros Hx. apply (byte_cases (fun x => bool_decide (is_u8 (getSBoxValue x)))) in Hx.
  - apply bool_decide_eq_true in Hx. exact Hx.
  - vm_compute. reflexivity.
Qed.

Lemma rsbox_sbox x : is_u8 x -> getSBoxInvert (getSBoxValue x) = x.
Proof.
  intros Hx. apply Z.eqb_eq.
  apply (byte_cases (fun x => getSBoxInvert (getSBoxValue x) =? x) x Hx). vm_compute. reflexivity.
Qed.

Lemma xor_bytes_length a b : (length a <= length b)%nat -> length (xor_bytes a b) = length a.
Proof. intros. unfold xor_bytes. rewrite length_zip_with. lia. Qed.

Lemma xor_bytes_bytes a b : all_bytes a -> all_bytes b -> all_bytes (xor_bytes a b).
Proof.
  intros Ha. revert b. induction Ha as [|x a Hx _ IH]; intros b Hb; [apply list.Forall_nil, I|].
  destruct Hb as [|y b Hy Hb]; [apply list.Forall_nil, I|].
  apply list.Forall_cons. split; [apply lxor_byte; assumption|apply IH, Hb].
Qed.

Lemma xor_bytes_inv a b : (length a <= length b)%nat -> xor_bytes (xor_bytes a b) b = a.
Proof.
  revert b. induction a as [|x a IH]; intros [|y b] Hl; simpl in *; try reflexivity; [lia|].
  f_equal; [|apply IH; lia]. rewrite Z.lxor_assoc, Z.lxor_nilpotent. apply Z.lxor_0_r.
Qed.

(** A block, cell by cell. *)
Ltac block_cases s H :=
  do 16 (destruct s as [|? s]; [discriminate H|]); destruct s; [|discriminate H].

Lemma columns_length f s :
  (forall a b c d, length (f a b c d) = 4%nat) -> length s = 16%nat -> length (columns f s) = 16%nat.
Proof. intros Hf Hs. block_cases s Hs. simpl. rewrite !length_app, !Hf. reflexivity. Qed.

Lemma columns_bytes f s :
  (forall a b c d, is_u8 a -> is_u8 b -> is_u8 c -> is_u8 d -> all_bytes (f a b c d)) ->
  length s = 16%nat -> all_bytes s -> all_bytes (columns f s).
Proof.
  intros Hf Hs Hb. block_cases s Hs. repeat apply list.Forall_cons in Hb as [? Hb]. simpl.
  repeat (apply Forall_app; split; [apply Hf; assumption|]). apply list.Forall_nil, I.
Qed.

Lemma columns_inv f g s :
  (forall a b c d, is_u8 a -> is_u8 b -> is_u8 c -> is_u8 d ->
     exists a' b' c' d', f a b c d = [a'; b'; c'; d'] /\ g a' b' c' d' = [a; b; c; d]) ->
  length s = 16%nat -> all_bytes s -> columns g (columns f s) = s.
Proof.
  intros Hf Hs Hb. block_cases s Hs. repeat apply list.Forall_cons in Hb as [? Hb]. simpl.
  repeat match goal with |- context [f ?a ?b ?c ?d] =>
    destruct (Hf a b c d) as (? & ? & ? & ? & -> & Hg); [assumption..|]; simpl; rewrite ?Hg; clear Hg
  end.
  reflexivity.
Qed.

Lemma sub_bytes_block s : is_block s -> is_block (SubBytes s).
Proof.
  intros [Hl Hb]. split; [unfold SubBytes; rewrite length_fmap; exact Hl|].
  apply Forall_fmap. eapply Forall_impl; [exact Hb|]. intros x Hx. apply sbox_byte, Hx.
Qed.

Lemma shift_rows_block s : is_block s -> is_block (ShiftRows s).
Proof.
  intros [Hl Hb]. block_cases s Hl. repeat apply list.Forall_cons in Hb as [? Hb].
  split; [reflexivity|]. unfold ShiftRows, st_set, st. simpl.
  repeat (apply list.Forall_cons; split; [assumption|]). apply list.Forall_nil, I.
Qed.

Lemma mix_columns_block s : is_block s -> is_block (MixColumns s).
Proof.
  intros [Hl Hb]. split; [apply columns_length; [reflexivity|exact Hl]|].
  apply columns_bytes; [|exact Hl|exact Hb]. intros. unfold mix_column.
  repeat (apply list.Forall_cons; split; [auto 7 using lxor_byte, xtime_byte|]).
  apply list.Forall_nil, I.
Qed.

(** A round key of [AES_keyExpSize] bytes. *)
Definition is_round_key (rk : bytes) : Prop :=
  Z.of_nat (length rk) = AES_keyExpSize /\ all_bytes rk.

Lemma add_round_key_block r s rk :
  is_block s -> is_round_key rk -> 0 <= r <= Nr -> is_block (AddRoundKey r s rk).
Proof.
  intros [Hl Hb] [Hrl Hrb] Hr. autounfold with c_consts in *. unfold AddRoundKey.
  autounfold with c_consts. split.
  - rewrite xor_bytes_length; [exact Hl|]. rewrite length_drop. lia.
  - apply xor_bytes_bytes; [exact Hb|apply Forall_drop, Hrb].
Qed.

Lemma add_round_key_inv r s rk :
  is_block s -> is_round_key rk -> 0 <= r <= Nr -> AddRoundKey r (AddRoundKey r s rk) rk = s.
Proof.
  intros [Hl Hb] [Hrl Hrb] Hr. autounfold with c_consts in *. unfold AddRoundKey.
  autounfold with c_consts. apply xor_bytes_inv. rewrite length_drop. lia.
Qed.

Lemma inv_sub_bytes_sub_bytes s : all_bytes s -> InvSubBytes (SubBytes s) = s.
Proof.
  induction 1 as [|x s Hx _ IH]; [reflexivity|].
  change (getSBoxInvert (getSBoxValue x) :: InvSubBytes (SubBytes s) = x :: s).
  rewrite rsbox_sbox, IH by exact Hx. reflexivity.
Qed.

Lemma inv_shift_rows_shift_rows s : length s = 16%nat -> InvShiftRows (ShiftRows s) = s.
Proof. intros Hl. block_cases s Hl. reflexivity. Qed.

(** Multiplication by [x] in GF(2^8) is linear. *)
Lemma xtime_lxor x y : is_u8 x -> is_u8 y -> xtime (Z.lxor x y) = Z.lxor (xtime x) (xtime y).
Proof.
  intros Hx Hy. apply Z.eqb_eq.
  apply (byte_cases (fun x => xtime (Z.lxor x y) =? Z.lxor (xtime x) (xtime y)) x Hx).
  apply (byte_cases (fun y => forallb (fun x => xtime (Z.lxor x y) =? Z.lxor (xtime x) (xtime y))
    (upto 256)) y Hy).
  vm_compute. reflexivity.
Qed.

Lemma multiply_xtime x :
  is_u8 x ->
  Multiply x 0x09 = Z.lxor (xtime (xtime (xtime x))) x /\
  Multiply x 0x0b = Z.lxor (Z.lxor (xtime (xtime (xtime x))) (xtime x)) x /\
  Multiply x 0x0d = Z.lxor (Z.lxor (xtime (xtime (xtime x))) (xtime (xtime x))) x /\
  Multiply x 0x0e = Z.lxor (Z.lxor (xtime (xtime (xtime x))) (xtime (xtime x))) (xtime x).
Proof.
  intros Hx. repeat split; apply Z.eqb_eq; revert x Hx;
    match goal with |- forall x, is_u8 x -> ?b = true =>
      intros x Hx; pattern x in |- *; match goal with |- ?P x => idtac end end;
    match goal with |- (fun y => ?b = true) x =>
      exact (byte_cases (fun y => b) x Hx ltac:(vm_compute; reflexivity)) end.
Qed.

Create HintDb gf.
#[export] Hint Resolve lxor_byte xtime_byte : gf.

(** An equality of sums in GF(2^8). *)
Ltac gf_sum := apply Z.bits_inj'; intros ? ?; rewrite !Z.lxor_spec; btauto.

Lemma inv_mix_column_mix_column a b c d :
  is_u8 a -> is_u8 b -> is_u8 c -> is_u8 d ->
  exists a' b' c' d', mix_column a b c d = [a'; b'; c'; d'] /\
    inv_mix_column a' b' c' d' = [a; b; c; d].
Proof.
  intros Ha Hb Hc Hd. do 4 eexists. split; [reflexivity|]. unfold inv_mix_column.
  repeat f_equal;
    (repeat match goal with |- context [Multiply ?x _] =>
       let H := fresh in assert (H : is_u8 x) by auto 8 with gf;
       destruct (multiply_xtime x H) as (E9 & Eb & Ed & Ee);
       rewrite ?E9, ?Eb, ?Ed, ?Ee; clear H E9 Eb Ed Ee end);
    rewrite !xtime_lxor by auto 12 with gf; gf_sum.
Qed.

Lemma inv_mix_columns_mix_columns s : is_block s -> InvMixColumns (MixColumns s) = s.
Proof. intros [Hl Hb]. apply columns_inv; [apply inv_mix_column_mix_column|assumption..]. Qed.

(** ** The cipher *)

(** The block after the key additions of rounds 0 to [r]. *)
Fixpoint cipher_state (rk s : bytes) (r : nat) : bytes :=
  match r with
  | O => AddRoundKey 0 s rk
  | S r' => AddRoundKey (Z.of_nat r) (MixColumns (ShiftRows (SubBytes (cipher_state rk s r')))) rk
  end.

Arguments AddRoundKey : simpl never.
Arguments MixColumns : simpl never.
Arguments InvMixColumns : simpl never.
Arguments SubBytes : simpl never.
Arguments InvSubBytes : simpl never.
Arguments ShiftRows : simpl never.
Arguments InvShiftRows : simpl never.

Lemma cipher_state_block rk s r :
  is_block s -> is_round_key rk -> (r <= 14)%nat -> is_block (cipher_state rk s r).
Proof.
  intros Hs Hrk. induction r as [|r IH]; intros Hr; simpl cipher_state.
  - apply add_round_key_block; [assumption..|clia].
  - apply add_round_key_block; [|assumption|clia].
    apply mix_columns_block, shift_rows_block, sub_bytes_block, IH. lia.
Qed.

Lemma cipher_rounds_eq rk s n r :
  (Z.of_nat n + r = 14 + 1)%Z -> 1 <= r <= 14 ->
  cipher_rounds n r (cipher_state rk s (Z.to_nat (r - 1))) rk =
    ShiftRows (SubBytes (cipher_state rk s 13)).
Proof.
  revert r. induction n as [|n IH]; intros r Hn Hr; [lia|]. simpl cipher_rounds.
  unfold Nr. destruct (Z.eqb_spec r 14) as [->|Hne]; [reflexivity|].
  replace (AddRoundKey r _ rk) with (cipher_state rk s (Z.to_nat (r + 1 - 1))); [apply IH; lia|].
  replace (Z.to_nat (r + 1 - 1)) with (Datatypes.S (Z.to_nat (r - 1))) by lia. simpl cipher_state.
  f_equal. lia.
Qed.

Lemma cipher_eq rk s :
  Cipher s rk = AddRoundKey Nr (ShiftRows (SubBytes (cipher_state rk s 13))) rk.
Proof. unfold Cipher. rewrite <- (cipher_rounds_eq rk s 14 1) by lia. reflexivity. Qed.

Lemma cipher_block rk s : is_block s -> is_round_key rk -> is_block (Cipher s rk).
Proof.
  intros Hs Hrk. rewrite cipher_eq. apply add_round_key_block; [|assumption|clia].
  apply shift_rows_block, sub_bytes_block, cipher_state_block; [assumption..|lia].
Qed.

Lemma inv_cipher_rounds_unfold r s rk :
  inv_cipher_rounds r s rk =
    let s' := AddRoundKey (Z.of_nat r) (InvSubBytes (InvShiftRows s)) rk in
    match r with O => s' | S r' => inv_cipher_rounds r' (InvMixColumns s') rk end.
Proof. destruct r; reflexivity. Qed.

Lemma cipher_state_S rk s r :
  cipher_state rk s (Datatypes.S r) =
    AddRoundKey (Z.of_nat (Datatypes.S r))
      (MixColumns (ShiftRows (SubBytes (cipher_state rk s r)))) rk.
Proof. reflexivity. Qed.

Lemma inv_cipher_rounds_eq rk s r :
  is_block s -> is_round_key rk -> (r <= 13)%nat ->
  inv_cipher_rounds r (ShiftRows (SubBytes (cipher_state rk s r))) rk = s.
Proof.
  intros Hs Hrk. induction r as [|r IH]; intros Hr; rewrite inv_cipher_rounds_unfold; cbv zeta.
  - pose proof (cipher_state_block rk s 0 Hs Hrk ltac:(lia)) as Hc.
    rewrite inv_shift_rows_shift_rows by apply (sub_bytes_block _ Hc).
    rewrite inv_sub_bytes_sub_bytes by apply Hc.
    apply (add_round_key_inv 0); [assumption..|clia].
  - pose proof (cipher_state_block rk s (Datatypes.S r) Hs Hrk ltac:(lia)) as Hc.
    pose proof (cipher_state_block rk s r Hs Hrk ltac:(lia)) as Hc'.
    rewrite inv_shift_rows_shift_rows by apply (sub_bytes_block _ Hc).
    rewrite inv_sub_bytes_sub_bytes by apply Hc. rewrite cipher_state_S.
    rewrite add_round_key_inv; [|apply mix_columns_block, shift_rows_block, sub_bytes_block, Hc'|assumption|clia].
    rewrite inv_mix_columns_mix_columns by apply shift_rows_block, sub_bytes_block, Hc'.
    apply IH. lia.
Qed.

Lemma inv_cipher_cipher rk s : is_block s -> is_round_key rk -> InvCipher (Cipher s rk) rk = s.
Proof.
  intros Hs Hrk. unfold InvCipher. rewrite cipher_eq.
  rewrite add_round_key_inv; [|apply shift_rows_block, sub_bytes_block, cipher_state_block; [assumption..|lia]|assumption|clia].
  apply (inv_cipher_rounds_eq rk s 13); [assumption..|lia].
Qed.

(** ** The key schedule *)

Lemma mem_write_total_len l off src :
  0 <= off -> off + Z.of_nat (length src) <= Z.of_nat (length l) -> all_bytes l -> all_bytes src ->
  exists r, mem_write l off src = Some r /\ length r = length l /\ all_bytes r.
Proof.
  intros Ho Hl Hb Hs. rewrite mem_write_total by assumption. eexists. split; [reflexivity|]. split.
  - rewrite !length_app, length_take, length_drop. lia.
  - apply Forall_app; split; [apply Forall_take, Hb|].
    apply Forall_app; split; [exact Hs|apply Forall_drop, Hb].
Qed.

Lemma mem_read_total_bytes l off len :
  0 <= off -> 0 <= len -> off + len <= Z.of_nat (length l) -> all_bytes l ->
  exists r, mem_read l off len = Some r /\ Z.of_nat (length r) = len /\ all_bytes r.
Proof.
  intros Ho Hl Hle Hb. destruct (mem_read_total l off len) as (r & Hr & Hlen & Hv); [assumption..|].
  exists r. split; [exact Hr|]. split; [lia|]. rewrite Hv. apply Forall_take, Forall_drop, Hb.
Qed.

Lemma key_copy_total Key idxs rk :
  Z.of_nat (length Key) = AES_KEYLEN -> all_bytes Key -> is_round_key rk ->
  Forall (fun i => 0 <= i < Nk) idxs ->
  exists rk', key_copy Key idxs rk = Some rk' /\ is_round_key rk'.
Proof.
  intros Hkl Hkb Hrk Hidx. revert rk Hrk. autounfold with c_consts in *.
  induction Hidx as [|i idxs Hi _ IH]; intros rk [Hl Hb]; simpl; [unfold is_round_key; eauto|].
  autounfold with c_consts in *.
  destruct (mem_read_total_bytes Key (i * 4) 4) as (w & -> & Hwl & Hwb); [lia..|exact Hkb|]. simpl.
  destruct (mem_write_total_len rk (i * 4) w) as (rk1 & -> & Hl1 & Hb1); [lia..|assumption|assumption|].
  simpl. apply IH. split; [clia|exact Hb1].
Qed.

Lemma rcon_total i : 8 <= i < 4 * (14 + 1) -> exists rc, cell Rcon (i / 8) = Some rc /\ is_u8 rc.
Proof.
  intros Hi. destruct (cell_total Rcon (i / 8)) as (rc & Hrc & Hrc').
  - change (Z.of_nat (length Rcon)) with 11.
    split; [apply Z.div_pos; lia|apply Z.div_lt_upper_bound; lia].
  - exists rc. split; [exact Hrc|]. assert (Hb : all_bytes Rcon) by decided.
    exact (Forall_lookup_1 _ _ _ _ Hb Hrc').
Qed.

Lemma key_temp_total rk i :
  is_round_key rk -> Nk <= i < Nb * (Nr + 1) ->
  exists t, key_temp rk i = Some t /\ length t = 4%nat /\ all_bytes t.
Proof.
  intros [Hl Hb] Hi. unfold key_temp. autounfold with c_consts in *.
  destruct (mem_read_total_bytes rk ((i - 1) * 4) 4) as (t & -> & Htl & Htb); [lia..|exact Hb|].
  opt_simpl. destruct t as [|a [|b [|c [|d [|]]]]]; simpl in Htl; try lia.
  repeat apply list.Forall_cons in Htb as [? Htb].
  destruct (i mod 8 =? 0).
  - destruct (rcon_total i Hi) as (rc & -> & Hrc). opt_simpl. eexists.
    split; [reflexivity|]. split; [reflexivity|].
    repeat (apply list.Forall_cons; split; [apply lxor_byte; [apply sbox_byte; assumption|assumption || apply byte_0]|]).
    apply list.Forall_nil, I.
  - destruct (i mod 8 =? 4); (eexists; split; [reflexivity|]; split; [reflexivity|]);
      repeat (apply list.Forall_cons; split; [try apply sbox_byte; assumption|]);
      apply list.Forall_nil, I.
Qed.

Lemma key_expand_total idxs rk :
  is_round_key rk -> Forall (fun i => Nk <= i < Nb * (Nr + 1)) idxs ->
  exists rk', key_expand idxs rk = Some rk' /\ is_round_key rk'.
Proof.
  intros Hrk Hidx. revert rk Hrk. induction Hidx as [|i idxs Hi _ IH]; intros rk Hrk; [simpl; eauto|].
  cbn [key_expand]. destruct (key_temp_total rk i Hrk Hi) as (t & -> & Htl & Htb). opt_simpl.
  destruct Hrk as [Hl Hb]. autounfold with c_consts in *.
  destruct (mem_read_total_bytes rk ((i - 8) * 4) 4) as (w & -> & Hwl & Hwb); [lia..|exact Hb|].
  opt_simpl. assert (Hxl : length (xor_bytes w t) = 4%nat) by (rewrite xor_bytes_length; lia).
  destruct (mem_write_total_len rk (i * 4) (xor_bytes w t)) as (rk1 & -> & Hl1 & Hb1);
    [lia..|assumption|apply xor_bytes_bytes; assumption|].
  opt_simpl. apply IH. split; [clia|exact Hb1].
Qed.

Lemma key_expansion_total rk Key :
  is_round_key rk -> Z.of_nat (length Key) = AES_KEYLEN -> all_bytes Key ->
  exists rk', KeyExpansion rk Key = Some rk' /\ is_round_key rk'.
Proof.
  intros Hrk Hkl Hkb. unfold KeyExpansion.
  destruct (key_copy_total Key (upto Nk) rk Hkl Hkb Hrk) as (rk1 & -> & Hrk1).
  { apply list.Forall_forall. intros i Hi. apply elem_of_upto in Hi. exact Hi. }
  apply key_expand_total; [exact Hrk1|]. apply list.Forall_forall. intros i Hi.
  apply elem_of_seqZ in Hi. autounfold with c_consts in *. lia.
Qed.

(** ** Counter mode *)

(** A byte string as a number, most significant byte first. *)
Definition be_value (l : bytes) : Z := foldl (fun acc b => 256 * acc + b) 0 l.

(** The next counter block, and the one [n] blocks later. *)
Definition iv_next (iv : bytes) : bytes :=
  default iv (iv_increment (rev (upto AES_BLOCKLEN)) iv).
Definition iv_at (iv : bytes) (n : nat) : bytes := Nat.iter n iv_next iv.

(** Byte [i] of the keystream. *)
Definition keystream (rk iv : bytes) (i : Z) : Z :=
  default 0 (cell (Cipher (iv_at iv (Z.to_nat (i / 16))) rk) (i mod 16)).

Lemma be_value_snoc l v : be_value (l ++ [v]) = 256 * be_value l + v.
Proof. unfold be_value. rewrite foldl_app. reflexivity. Qed.

Lemma be_value_range l : all_bytes l -> 0 <= be_value l < 256 ^ Z.of_nat (length l).
Proof.
  induction l as [|v l IH] using rev_ind; intros Hb; [unfold be_value; simpl; lia|].
  apply Forall_app in Hb as [Hl Hv]. apply list.Forall_cons in Hv as [Hv _]. unfold in_width in Hv.
  specialize (IH Hl). rewrite be_value_snoc, length_app, Nat2Z.inj_add, Z.pow_add_r by lia.
  change (256 ^ Z.of_nat (length [v])) with 256. lia.
Qed.

(** The loop over the last [length l] indices touches only the prefix [l]. *)
Lemma iv_increment_spec l t :
  all_bytes l ->
  exists l', iv_increment (rev (upto (Z.of_nat (length l)))) (l ++ t) = Some (l' ++ t) /\
    length l' = length l /\ all_bytes l' /\
    be_value l' = (be_value l + 1) mod 256 ^ Z.of_nat (length l).
Proof.
  revert t. induction l as [|v l IH] using rev_ind; intros t Hb.
  - exists []. split; [reflexivity|]. split; [reflexivity|]. split; [apply list.Forall_nil, I|]. reflexivity.
  - apply Forall_app in Hb as [Hl Hv]. apply list.Forall_cons in Hv as [Hv _].
    pose proof (be_value_range l Hl) as Hr. unfold in_width in Hv.
    rewrite length_app, Nat2Z.inj_add. change (Z.of_nat (length [v])) with 1.
    rewrite upto_snoc, rev_app_distr by lia. simpl. rewrite <- app_assoc. simpl.
    rewrite cell_middle. simpl.
    destruct (Z.eqb_spec v 255) as [->|Hne].
    + rewrite set_cell_middle. simpl.
      destruct (IH (0 :: t) Hl) as (l' & Heq & Hl' & Hb' & Hv').
      exists (l' ++ [0]). rewrite Heq, <- app_assoc. split; [reflexivity|].
      split; [rewrite !length_app; simpl; lia|].
      split; [apply Forall_app; split; [exact Hb'|apply list.Forall_cons; split; [apply byte_0|apply list.Forall_nil, I]]|].
      rewrite !be_value_snoc, Hv', Z.pow_add_r, Z.pow_1_r by lia.
      replace (256 * be_value l + 255 + 1) with (256 * (be_value l + 1)) by lia.
      rewrite (Z.mul_comm (256 ^ _) 256), Z.mul_mod_distr_l by lia. lia.
    + rewrite set_cell_middle. simpl.
      exists (l ++ [u8 (v + 1)]). rewrite <- app_assoc. split; [reflexivity|].
      split; [rewrite !length_app; reflexivity|].
      split; [apply Forall_app; split; [exact Hl|apply list.Forall_cons; split; [apply u8_range|apply list.Forall_nil, I]]|].
      rewrite !be_value_snoc, u8_id by (unfold in_width; lia).
      rewrite Z.pow_add_r, Z.pow_1_r by lia. rewrite Z.mod_small; lia.
Qed.

Lemma iv_next_spec iv :
  is_block iv -> iv_increment (rev (upto AES_BLOCKLEN)) iv = Some (iv_next iv) /\
  is_block (iv_next iv) /\ be_value (iv_next iv) = (be_value iv + 1) mod 2 ^ 128.
Proof.
  intros [Hl Hb]. destruct (iv_increment_spec iv [] Hb) as (iv' & Heq & Hl' & Hb' & Hv).
  rewrite Hl in *. rewrite !app_nil_r in Heq. change (Z.of_nat 16) with AES_BLOCKLEN in Heq.
  unfold iv_next. rewrite Heq. split; [reflexivity|]. split; [split; assumption|exact Hv].
Qed.

Lemma iv_at_block iv n : is_block iv -> is_block (iv_at iv n).
Proof. intros Hb. induction n as [|n IH]; [exact Hb|]. apply (iv_next_spec _ IH). Qed.

Lemma iv_at_value iv n :
  is_block iv -> be_value (iv_at iv n) = (be_value iv + Z.of_nat n) mod 2 ^ 128.
Proof.
  intros Hb. induction n as [|n IH].
  - simpl. rewrite Z.add_0_r, Z.mod_small; [reflexivity|].
    destruct Hb as [Hl Hb]. pose proof (be_value_range iv Hb) as Hr. rewrite Hl in Hr. exact Hr.
  - simpl. destruct (iv_next_spec _ (iv_at_block iv n Hb)) as (_ & _ & ->). rewrite IH.
    rewrite Zplus_mod_idemp_l. f_equal. lia.
Qed.

Lemma ctr_loop_spec rk iv0 m : forall i q r buffer buf,
  is_block iv0 -> is_round_key rk ->
  0 <= i -> 0 <= q -> i = 16 * q + r - 16 -> 0 < r <= 16 ->
  (r < 16 -> buffer = Cipher (iv_at iv0 (Z.to_nat (q - 1))) rk) ->
  i + Z.of_nat m <= Z.of_nat (length buf) ->
  exists buf', ctr_loop rk (seqZ i (Z.of_nat m)) r buffer (iv_at iv0 (Z.to_nat q)) buf =
      Some (iv_at iv0 (Z.to_nat ((i + Z.of_nat m + 15) / 16)), buf') /\
    length buf' = length buf /\
    forall k : nat, buf' !! k = if (i <=? Z.of_nat k) && (Z.of_nat k <? i + Z.of_nat m)
                         then (fun b => Z.lxor b (keystream rk iv0 (Z.of_nat k))) <$> buf !! k
                         else buf !! k.
Proof.
  induction m as [|m IH]; intros i q r buffer buf Hiv Hrk Hi Hq Hiq Hr Hbuf Hlen.
  - exists buf. simpl. split.
    + f_equal. f_equal. f_equal. f_equal. apply (Z.div_unique _ _ _ (r - 1)); lia.
    + split; [reflexivity|]. intros k. case_if; [case_bools; lia|reflexivity].
  - rewrite seqZ_cons by lia. cbn [ctr_loop].
    replace (Z.pred (Z.of_nat (Datatypes.S m))) with (Z.of_nat m) by lia.
    replace (Z.succ i) with (i + 1) by lia.
    set (iv := iv_at iv0 (Z.to_nat q)).
    set (q' := if r =? 16 then q + 1 else q).
    set (r' := if r =? 16 then 0 else r).
    assert (Hstep : (if r =? AES_BLOCKLEN
         then block ← mem_read iv 0 AES_BLOCKLEN;
              iv ← iv_increment (rev (upto AES_BLOCKLEN)) iv;
              Some (0, Cipher block rk, iv)
         else Some (r, buffer, iv)) =
      Some (r', Cipher (iv_at iv0 (Z.to_nat (q' - 1))) rk, iv_at iv0 (Z.to_nat q'))).
    { unfold q', r'. change AES_BLOCKLEN with 16 at 1. destruct (Z.eqb_spec r 16) as [->|Hne].
      - destruct (iv_at_block iv0 (Z.to_nat q) Hiv) as [Hl Hb]. fold iv in Hl, Hb.
        rewrite mem_read_all by (rewrite Hl; reflexivity). opt_simpl.
        destruct (iv_next_spec iv (conj Hl Hb)) as (-> & _). opt_simpl.
        replace (Z.to_nat (q + 1)) with (Datatypes.S (Z.to_nat q)) by lia.
        rewrite Z.add_simpl_r. reflexivity.
      - rewrite Hbuf by lia. reflexivity. }
    rewrite Hstep. opt_simpl.
    pose proof (cipher_block rk _ (iv_at_block iv0 (Z.to_nat (q' - 1)) Hiv) Hrk) as [Hcl Hcb].
    assert (Hr' : 0 <= r' < 16 /\ i = 16 * (q' - 1) + r') by (unfold q', r'; destruct (Z.eqb_spec r 16); lia).
    destruct (cell_total buf i) as (b & -> & Hb); [lia|]. opt_simpl.
    destruct (cell_total (Cipher (iv_at iv0 (Z.to_nat (q' - 1))) rk) r') as (kb & Hkb & _); [lia|].
    rewrite Hkb. opt_simpl. rewrite set_cell_total by lia. opt_simpl.
    assert (Hks : keystream rk iv0 i = kb).
    { unfold keystream. rewrite <- (Z.div_unique i 16 (q' - 1) r'), <- (Z.mod_unique i 16 (q' - 1) r') by lia.
      rewrite Hkb. reflexivity. }
    destruct (IH (i + 1) q' (r' + 1) (Cipher (iv_at iv0 (Z.to_nat (q' - 1))) rk)
      (<[Z.to_nat i := Z.lxor b kb]> buf)) as (buf' & Heq & Hl' & Hk);
      [assumption|assumption|lia..|reflexivity|rewrite length_insert; lia|].
    exists buf'. rewrite Heq. 
    replace (i + Z.of_nat (Datatypes.S m)) with (i + 1 + Z.of_nat m) by lia.
    split; [reflexivity|].
    rewrite length_insert in Hl'. split; [exact Hl'|]. intros k. rewrite Hk.
    destruct (Z.eq_dec (Z.of_nat k) i) as [He|Hne].
    + replace k with (Z.to_nat i) by lia. rewrite list_lookup_insert_eq by lia.
      rewrite Z2Nat.id, Hb by lia. rewrite (proj2 (Z.leb_gt (i + 1) i)), Z.leb_refl by lia.
      rewrite (proj2 (Z.ltb_lt _ _)) by lia. simpl. rewrite Hks. reflexivity.
    + rewrite list_lookup_insert_ne by lia.
      destruct (Z.leb_spec (i + 1) (Z.of_nat k)), (Z.leb_spec i (Z.of_nat k)); try lia; reflexivity.
Qed.

Lemma ctr_xcrypt_eq ctx buf len :
  is_block (Iv ctx) -> is_round_key (RoundKey ctx) -> 0 <= len <= Z.of_nat (length buf) ->
  exists buf', AES_CTR_xcrypt_buffer ctx buf len =
      Some (ctx <| Iv := iv_at (Iv ctx) (Z.to_nat ((len + 15) / 16)) |>, buf') /\
    length buf' = length buf /\
    forall k : nat, buf' !! k = if Z.of_nat k <? len
      then (fun b => Z.lxor b (keystream (RoundKey ctx) (Iv ctx) (Z.of_nat k))) <$> buf !! k
      else buf !! k.
Proof.
  intros Hiv Hrk Hlen. unfold AES_CTR_xcrypt_buffer, upto.
  destruct (ctr_loop_spec (RoundKey ctx) (Iv ctx) (Z.to_nat len) 0 0 16 (zeros AES_BLOCKLEN) buf)
    as (buf' & Heq & Hl & Hk); [assumption..|lia|lia|lia|lia|lia|lia|].
  rewrite Z2Nat.id in Heq by lia. change AES_BLOCKLEN with 16 at 1.
  change (iv_at (Iv ctx) (Z.to_nat 0)) with (Iv ctx) in Heq. rewrite Heq. opt_simpl.
  exists buf'. split; [reflexivity|]. split; [exact Hl|]. intros k. rewrite Hk, Z2Nat.id by lia.
  rewrite (proj2 (Z.leb_le 0 _)) by lia. reflexivity.
Qed.

Lemma zero_round_key : is_round_key (zeros AES_keyExpSize).
Proof. split; [reflexivity|apply Forall_replicate, byte_0]. Qed.

Lemma init_ctx_iv_total ctx key iv :
  is_round_key (RoundKey ctx) -> Z.of_nat (length key) = AES_KEYLEN -> all_bytes key -> is_block iv ->
  exists ctx', AES_init_ctx_iv ctx key iv = Some ctx' /\ is_round_key (RoundKey ctx') /\ Iv ctx' = iv.
Proof.
  intros Hrk Hkl Hkb [Hil Hib]. unfold AES_init_ctx_iv, AES_init_ctx, AES_ctx_set_iv.
  destruct (key_expansion_total (RoundKey ctx) key Hrk Hkl Hkb) as (rk & -> & Hrk'). opt_simpl.
  rewrite mem_read_all by (rewrite Hil; reflexivity). opt_simpl. eexists. split; [reflexivity|].
  split; [exact Hrk'|reflexivity].
Qed.

(** Applying the keystream twice. *)
Lemma ctr_xcrypt_twice ctx buf len :
  is_block (Iv ctx) -> is_round_key (RoundKey ctx) -> 0 <= len <= Z.of_nat (length buf) ->
  exists c1 c2 buf', AES_CTR_xcrypt_buffer ctx buf len = Some (c1, buf') /\
    length buf' = length buf /\ AES_CTR_xcrypt_buffer ctx buf' len = Some (c2, buf).
Proof.
  intros Hiv Hrk Hlen.
  destruct (ctr_xcrypt_eq ctx buf len Hiv Hrk Hlen) as (b1 & Heq1 & Hl1 & Hk1).
  destruct (ctr_xcrypt_eq ctx b1 len Hiv Hrk ltac:(lia)) as (b2 & Heq2 & Hl2 & Hk2).
  assert (b2 = buf) as ->; [|eauto 10].
  apply list_eq. intros k. rewrite Hk2, Hk1. case_if; [|reflexivity].
  destruct (buf !! k) as [b|]; simpl; [|reflexivity].
  rewrite Z.lxor_assoc, Z.lxor_nilpotent, Z.lxor_0_r. reflexivity.
Qed.

(** ** Properties *)

(** C20. Counter mode decrypts what it encrypts: for every 32-byte key, 16-byte
    counter block and buffer, setting up a context and applying
    [AES_CTR_xcrypt_buffer] touches only the announced bytes of the buffer, and
    applying it again under the same key and counter block restores the buffer. *)
Theorem aes_ctr_involutive key iv buf len :
  Z.of_nat (length key) = AES_KEYLEN -> all_bytes key -> is_block iv ->
  0 <= len <= Z.of_nat (length buf) ->
  exists ctx c1 c2 buf', AES_init_ctx_iv aes_ctx_zero key iv = Some ctx /\
    AES_CTR_xcrypt_buffer ctx buf len = Some (c1, buf') /\
    length buf' = length buf /\ drop (Z.to_nat len) buf' = drop (Z.to_nat len) buf /\
    AES_CTR_xcrypt_buffer ctx buf' len = Some (c2, buf).
Proof.
  intros Hkl Hkb Hiv Hlen.
  destruct (init_ctx_iv_total aes_ctx_zero key iv zero_round_key Hkl Hkb Hiv) as (ctx & Hctx & Hrk & Heq).
  rewrite <- Heq in Hiv. destruct (ctr_xcrypt_twice ctx buf len Hiv Hrk Hlen) as (c1 & c2 & b' & H1 & Hl & H2).
  exists ctx, c1, c2, b'. split; [exact Hctx|]. split; [exact H1|]. split; [exact Hl|]. split; [|exact H2].
  destruct (ctr_xcrypt_eq ctx buf len Hiv Hrk Hlen) as (b1 & Heq1 & _ & Hk1).
  rewrite H1 in Heq1. injection Heq1 as -> <-. apply list_eq. intros k. rewrite !lookup_drop, Hk1.
  rewrite (proj2 (Z.ltb_ge _ _)) by lia. reflexivity.
Qed.

Example aes_ctr_involutive_witness :
  exists ctx c1 c2 buf', AES_init_ctx_iv aes_ctx_zero (upto 32) (zeros 16) = Some ctx /\
    AES_CTR_xcrypt_buffer ctx (upto 40) 37 = Some (c1, buf') /\
    length buf' = length (upto 40) /\
    drop (Z.to_nat 37) buf' = drop (Z.to_nat 37) (upto 40) /\
    AES_CTR_xcrypt_buffer ctx buf' 37 = Some (c2, upto 40).
Proof.
  apply (aes_ctr_involutive (upto 32) (zeros 16) (upto 40) 37);
    [reflexivity|decided|split; [reflexivity|decided]|vm_compute; split; discriminate].
Defined.

(** The keystream of counter mode is the cipher on consecutive counter values:
    byte [k] of the result is byte [k] of the buffer combined with byte
    [k mod 16] of the encryption of a counter block whose value, most significant
    byte first, is that of the initial block plus [k / 16] modulo [2^128]. *)
Theorem aes_ctr_counter_blocks ctx buf len (k : nat) :
  is_block (Iv ctx) -> is_round_key (RoundKey ctx) -> Z.of_nat k < len <= Z.of_nat (length buf) ->
  exists c' buf' b block, AES_CTR_xcrypt_buffer ctx buf len = Some (c', buf') /\
    buf !! k = Some b /\ is_block block /\
    be_value block = (be_value (Iv ctx) + Z.of_nat k / 16) mod 2 ^ 128 /\
    exists ks, cell (Cipher block (RoundKey ctx)) (Z.of_nat k mod 16) = Some ks /\
      buf' !! k = Some (Z.lxor b ks).
Proof.
  intros Hiv Hrk Hk. destruct (ctr_xcrypt_eq ctx buf len Hiv Hrk ltac:(lia)) as (b' & Heq & _ & Hks).
  pose proof (Z.div_pos (Z.of_nat k) 16 ltac:(lia) ltac:(lia)) as Hdiv.
  pose proof (Z.mod_pos_bound (Z.of_nat k) 16 ltac:(lia)) as Hmod.
  destruct (lookup_lt_is_Some_2 buf k) as [b Hb]; [lia|].
  set (block := iv_at (Iv ctx) (Z.to_nat (Z.of_nat k / 16))).
  assert (Hbl : is_block block) by apply iv_at_block, Hiv.
  destruct (cell_total (Cipher block (RoundKey ctx)) (Z.of_nat k mod 16)) as (ks & Hcell & _).
  { destruct (cipher_block _ _ Hbl Hrk) as [Hl _]. lia. }
  eexists _, b', b, block. split; [exact Heq|]. split; [exact Hb|]. split; [exact Hbl|]. split.
  - unfold block. rewrite iv_at_value by exact Hiv. rewrite Z2Nat.id by lia. reflexivity.
  - exists ks. split; [exact Hcell|]. rewrite Hks, Hb.
    rewrite (proj2 (Z.ltb_lt _ _)) by lia. simpl. unfold keystream. fold block. rewrite Hcell. reflexivity.
Qed.

(** The counter block that wraps. *)
Example aes_ctr_counter_blocks_witness :
  let ctx := mk_aes_ctx (zeros 240) (replicate 16 255) in
  exists c' buf' b block, AES_CTR_xcrypt_buffer ctx (zeros 40) 40 = Some (c', buf') /\
    zeros 40 !! 20%nat = Some b /\ is_block block /\
    be_value block = (be_value (Iv ctx) + Z.of_nat 20 / 16) mod 2 ^ 128 /\
    exists ks, cell (Cipher block (RoundKey ctx)) (Z.of_nat 20 mod 16) = Some ks /\
      buf' !! 20%nat = Some (Z.lxor b ks).
Proof.
  apply (aes_ctr_counter_blocks (mk_aes_ctx (zeros 240) (replicate 16 255)) (zeros 40) 40 20);
    [split; [reflexivity|decided]..|decided].
Defined.

(** The inverse cipher inverts the cipher: for every 32-byte key and every
    block, [AES_ECB_decrypt] after [AES_ECB_encrypt] in place gives the block back. *)
Theorem aes_ecb_roundtrip key block :
  Z.of_nat (length key) = AES_KEYLEN -> all_bytes key -> is_block block ->
  exists ctx c, AES_init_ctx aes_ctx_zero key = Some ctx /\
    AES_ECB_encrypt ctx block = Some c /\ is_block c /\ AES_ECB_decrypt ctx c = Some block.
Proof.
  intros Hkl Hkb Hb. unfold AES_init_ctx.
  destruct (key_expansion_total (zeros AES_keyExpSize) key zero_round_key Hkl Hkb) as (rk & Hrk & Hwf).
  cbn [RoundKey aes_ctx_zero]. rewrite Hrk. opt_simpl.
  set (ctx := aes_ctx_zero <| RoundKey := rk |>).
  exists ctx, (Cipher block rk). split; [reflexivity|].
  pose proof (cipher_block rk block Hb Hwf) as Hc.
  assert (Hon : forall f s, is_block s -> is_block (f s) -> on_block f s 0 = Some (f s)).
  { intros f s [Hs _] [Hf _]. unfold on_block.
    rewrite mem_read_all by (rewrite Hs; reflexivity). opt_simpl.
    rewrite mem_write_total by lia. simpl. rewrite Hf, skipn_all2 by lia. simpl.
    rewrite app_nil_r. reflexivity. }
  unfold AES_ECB_encrypt, AES_ECB_decrypt. change (RoundKey ctx) with rk.
  rewrite Hon by assumption. split; [reflexivity|]. split; [exact Hc|].
  rewrite (Hon (fun b => InvCipher b rk) _ Hc)
    by (cbv beta; rewrite inv_cipher_cipher by assumption; exact Hb).
  rewrite inv_cipher_cipher by assumption. reflexivity.
Qed.

Example aes_ecb_roundtrip_witness :
  exists ctx c, AES_init_ctx aes_ctx_zero (upto 32) = Some ctx /\
    AES_ECB_encrypt ctx (upto 16) = Some c /\ is_block c /\ AES_ECB_decrypt ctx c = Some (upto 16).
Proof.
  apply (aes_ecb_roundtrip (upto 32) (upto 16)); [reflexivity|decided|split; [reflexivity|decided]].
Defined.
