(* ===== verification/Fips202.v ===== *)
(** * SHA-3: [lib/fips202/fips202.c] of the HQC sources

    Keccak-f[1600], the sponge in its one-shot and incremental forms, SHAKE and
    SHA3.  The state is a list of 25 words of 64 bits, with the count of pending
    bytes as a 26th in the incremental contexts.  Output buffers are arguments
    that come back written; a wrong state length or a buffer access out of range
    is [None].  The permutation's two half-iterations transcribe the C statements
    one by one. *)

From S2P Require Import Prelude.

(* src/extern/HQC-Round4/Additional_Implementation/hqc-128/lib/fips202/fips202.h:7-7 SHAKE128_RATE *)
Definition SHAKE128_RATE : Z := 168.
(* src/extern/HQC-Round4/Additional_Implementation/hqc-128/lib/fips202/fips202.h:8-8 SHAKE256_RATE *)
Definition SHAKE256_RATE : Z := 136.
(* src/extern/HQC-Round4/Additional_Implementation/hqc-128/lib/fips202/fips202.h:9-9 SHA3_256_RATE *)
Definition SHA3_256_RATE : Z := 136.
(* src/extern/HQC-Round4/Additional_Implementation/hqc-128/lib/fips202/fips202.h:10-10 SHA3_384_RATE *)
Definition SHA3_384_RATE : Z := 104.
(* src/extern/HQC-Round4/Additional_Implementation/hqc-128/lib/fips202/fips202.h:11-11 SHA3_512_RATE *)
Definition SHA3_512_RATE : Z := 72.

(* src/extern/HQC-Round4/Additional_Implementation/hqc-128/lib/fips202/fips202.c:15-15 NROUNDS *)
Definition NROUNDS : Z := 24.

(* src/extern/HQC-Round4/Additional_Implementation/hqc-128/lib/fips202/fips202.c:16-16 ROL *)
Definition ROL (a offset : Z) : Z :=
  Z.lxor (u64 (Z.shiftl a offset)) (Z.shiftr a (64 - offset)).

(** [~x] on a [uint64_t]. *)
Definition not64 (x : Z) : Z := u64 (Z.lnot x).

(** Loads the eight bytes from [off]. *)
(* src/extern/HQC-Round4/Additional_Implementation/hqc-128/lib/fips202/fips202.c:27-34 load64 *)
Definition load64 (x : bytes) (off : Z) : option Z :=
  ofor (upto 8) (fun i r => b ← cell x (off + i); Some (Z.lor r (u64 (Z.shiftl b (8 * i))))) 0.

(** Stores eight bytes from [off]. *)
(* src/extern/HQC-Round4/Additional_Implementation/hqc-128/lib/fips202/fips202.c:44-48 store64 *)
Definition store64 (x : bytes) (off u : Z) : option bytes :=
  ofor (upto 8) (fun i x => set_cell x (off + i) (u8 (Z.shiftr u (8 * i)))) x.

(* src/extern/HQC-Round4/Additional_Implementation/hqc-128/lib/fips202/fips202.c:51-64 KeccakF_RoundConstants *)
Definition KeccakF_RoundConstants : list Z :=
  [0x0000000000000001; 0x0000000000008082; 0x800000000000808a;
   0x8000000080008000; 0x000000000000808b; 0x0000000080000001;
   0x8000000080008081; 0x8000000000008009; 0x000000000000008a;
   0x0000000000000088; 0x0000000080008009; 0x000000008000000a;
   0x000000008000808b; 0x800000000000008b; 0x8000000000008089;
   0x8000000000008003; 0x8000000000008002; 0x8000000000000080;
   0x000000000000800a; 0x800000008000000a; 0x8000000080008081;
   0x8000000000008080; 0x0000000080000001; 0x8000000080008008].

(* src/extern/HQC-Round4/Additional_Implementation/hqc-128/lib/fips202/fips202.c:117-210 KeccakF1600_StatePermute *)
Definition keccak_round_AE (rc : Z) (state : list Z) : option (list Z) :=
  match state with
  | [Aba; Abe; Abi; Abo; Abu;
     Aga; Age; Agi; Ago; Agu;
     Aka; Ake; Aki; Ako; Aku;
     Ama; Ame; Ami; Amo; Amu;
     Asa; Ase; Asi; Aso; Asu] =>
      let BCa := Z.lxor (Z.lxor (Z.lxor (Z.lxor Aba Aga) Aka) Ama) Asa in
      let BCe := Z.lxor (Z.lxor (Z.lxor (Z.lxor Abe Age) Ake) Ame) Ase in
      let BCi := Z.lxor (Z.lxor (Z.lxor (Z.lxor Abi Agi) Aki) Ami) Asi in
      let BCo := Z.lxor (Z.lxor (Z.lxor (Z.lxor Abo Ago) Ako) Amo) Aso in
      let BCu := Z.lxor (Z.lxor (Z.lxor (Z.lxor Abu Agu) Aku) Amu) Asu in
      let Da := Z.lxor BCu (ROL BCe 1) in
      let De := Z.lxor BCa (ROL BCi 1) in
      let Di := Z.lxor BCe (ROL BCo 1) in
      let Do := Z.lxor BCi (ROL BCu 1) in
      let Du := Z.lxor BCo (ROL BCa 1) in
      let Aba := Z.lxor Aba Da in
      let BCa := Aba in
      let Age := Z.lxor Age De in
      let BCe := ROL Age 44 in
      let Aki := Z.lxor Aki Di in
      let BCi := ROL Aki 43 in
      let Amo := Z.lxor Amo Do in
      let BCo := ROL Amo 21 in
      let Asu := Z.lxor Asu Du in
      let BCu := ROL Asu 14 in
      let Eba := Z.lxor BCa (Z.land (not64 BCe) BCi) in
      let Eba := Z.lxor Eba rc in
      let Ebe := Z.lxor BCe (Z.land (not64 BCi) BCo) in
      let Ebi := Z.lxor BCi (Z.land (not64 BCo) BCu) in
      let Ebo := Z.lxor BCo (Z.land (not64 BCu) BCa) in
      let Ebu := Z.lxor BCu (Z.land (not64 BCa) BCe) in
      let Abo := Z.lxor Abo Do in
      let BCa := ROL Abo 28 in
      let Agu := Z.lxor Agu Du in
      let BCe := ROL Agu 20 in
      let Aka := Z.lxor Aka Da in
      let BCi := ROL Aka 3 in
      let Ame := Z.lxor Ame De in
      let BCo := ROL Ame 45 in
      let Asi := Z.lxor Asi Di in
      let BCu := ROL Asi 61 in
      let Ega := Z.lxor BCa (Z.land (not64 BCe) BCi) in
      let Ege := Z.lxor BCe (Z.land (not64 BCi) BCo) in
      let Egi := Z.lxor BCi (Z.land (not64 BCo) BCu) in
      let Ego := Z.lxor BCo (Z.land (not64 BCu) BCa) in
      let Egu := Z.lxor BCu (Z.land (not64 BCa) BCe) in
      let Abe := Z.lxor Abe De in
      let BCa := ROL Abe 1 in
      let Agi := Z.lxor Agi Di in
      let BCe := ROL Agi 6 in
      let Ako := Z.lxor Ako Do in
      let BCi := ROL Ako 25 in
      let Amu := Z.lxor Amu Du in
      let BCo := ROL Amu 8 in
      let Asa := Z.lxor Asa Da in
      let BCu := ROL Asa 18 in
      let Eka := Z.lxor BCa (Z.land (not64 BCe) BCi) in
      let Eke := Z.lxor BCe (Z.land (not64 BCi) BCo) in
      let Eki := Z.lxor BCi (Z.land (not64 BCo) BCu) in
      let Eko := Z.lxor BCo (Z.land (not64 BCu) BCa) in
      let Eku := Z.lxor BCu (Z.land (not64 BCa) BCe) in
      let Abu := Z.lxor Abu Du in
      let BCa := ROL Abu 27 in
      let Aga := Z.lxor Aga Da in
      let BCe := ROL Aga 36 in
      let Ake := Z.lxor Ake De in
      let BCi := ROL Ake 10 in
      let Ami := Z.lxor Ami Di in
      let BCo := ROL Ami 15 in
      let Aso := Z.lxor Aso Do in
      let BCu := ROL Aso 56 in
      let Ema := Z.lxor BCa (Z.land (not64 BCe) BCi) in
      let Eme := Z.lxor BCe (Z.land (not64 BCi) BCo) in
      let Emi := Z.lxor BCi (Z.land (not64 BCo) BCu) in
      let Emo := Z.lxor BCo (Z.land (not64 BCu) BCa) in
      let Emu := Z.lxor BCu (Z.land (not64 BCa) BCe) in
      let Abi := Z.lxor Abi Di in
      let BCa := ROL Abi 62 in
      let Ago := Z.lxor Ago Do in
      let BCe := ROL Ago 55 in
      let Aku := Z.lxor Aku Du in
      let BCi := ROL Aku 39 in
      let Ama := Z.lxor Ama Da in
      let BCo := ROL Ama 41 in
      let Ase := Z.lxor Ase De in
      let BCu := ROL Ase 2 in
      let Esa := Z.lxor BCa (Z.land (not64 BCe) BCi) in
      let Ese := Z.lxor BCe (Z.land (not64 BCi) BCo) in
      let Esi := Z.lxor BCi (Z.land (not64 BCo) BCu) in
      let Eso := Z.lxor BCo (Z.land (not64 BCu) BCa) in
      let Esu := Z.lxor BCu (Z.land (not64 BCa) BCe) in
      Some [Eba; Ebe; Ebi; Ebo; Ebu;
            Ega; Ege; Egi; Ego; Egu;
            Eka; Eke; Eki; Eko; Eku;
            Ema; Eme; Emi; Emo; Emu;
            Esa; Ese; Esi; Eso; Esu]
  | _ => None
  end.

(* src/extern/HQC-Round4/Additional_Implementation/hqc-128/lib/fips202/fips202.c:212-305 KeccakF1600_StatePermute *)
Definition keccak_round_EA (rc : Z) (state : list Z) : option (list Z) :=
  match state with
  | [Eba; Ebe; Ebi; Ebo; Ebu;
     Ega; Ege; Egi; Ego; Egu;
     Eka; Eke; Eki; Eko; Eku;
     Ema; Eme; Emi; Emo; Emu;
     Esa; Ese; Esi; Eso; Esu] =>
      let BCa := Z.lxor (Z.lxor (Z.lxor (Z.lxor Eba Ega) Eka) Ema) Esa in
      let BCe := Z.lxor (Z.lxor (Z.lxor (Z.lxor Ebe Ege) Eke) Eme) Ese in
      let BCi := Z.lxor (Z.lxor (Z.lxor (Z.lxor Ebi Egi) Eki) Emi) Esi in
      let BCo := Z.lxor (Z.lxor (Z.lxor (Z.lxor Ebo Ego) Eko) Emo) Eso in
      let BCu := Z.lxor (Z.lxor (Z.lxor (Z.lxor Ebu Egu) Eku) Emu) Esu in
      let Da := Z.lxor BCu (ROL BCe 1) in
      let De := Z.lxor BCa (ROL BCi 1) in
      let Di := Z.lxor BCe (ROL BCo 1) in
      let Do := Z.lxor BCi (ROL BCu 1) in
      let Du := Z.lxor BCo (ROL BCa 1) in
      let Eba := Z.lxor Eba Da in
      let BCa := Eba in
      let Ege := Z.lxor Ege De in
      let BCe := ROL Ege 44 in
      let Eki := Z.lxor Eki Di in
      let BCi := ROL Eki 43 in
      let Emo := Z.lxor Emo Do in
      let BCo := ROL Emo 21 in
      let Esu := Z.lxor Esu Du in
      let BCu := ROL Esu 14 in
      let Aba := Z.lxor BCa (Z.land (not64 BCe) BCi) in
      let Aba := Z.lxor Aba rc in
      let Abe := Z.lxor BCe (Z.land (not64 BCi) BCo) in
      let Abi := Z.lxor BCi (Z.land (not64 BCo) BCu) in
      let Abo := Z.lxor BCo (Z.land (not64 BCu) BCa) in
      let Abu := Z.lxor BCu (Z.land (not64 BCa) BCe) in
      let Ebo := Z.lxor Ebo Do in
      let BCa := ROL Ebo 28 in
      let Egu := Z.lxor Egu Du in
      let BCe := ROL Egu 20 in
      let Eka := Z.lxor Eka Da in
      let BCi := ROL Eka 3 in
      let Eme := Z.lxor Eme De in
      let BCo := ROL Eme 45 in
      let Esi := Z.lxor Esi Di in
      let BCu := ROL Esi 61 in
      let Aga := Z.lxor BCa (Z.land (not64 BCe) BCi) in
      let Age := Z.lxor BCe (Z.land (not64 BCi) BCo) in
      let Agi := Z.lxor BCi (Z.land (not64 BCo) BCu) in
      let Ago := Z.lxor BCo (Z.land (not64 BCu) BCa) in
      let Agu := Z.lxor BCu (Z.land (not64 BCa) BCe) in
      let Ebe := Z.lxor Ebe De in
      let BCa := ROL Ebe 1 in
      let Egi := Z.lxor Egi Di in
      let BCe := ROL Egi 6 in
      let Eko := Z.lxor Eko Do in
      let BCi := ROL Eko 25 in
      let Emu := Z.lxor Emu Du in
      let BCo := ROL Emu 8 in
      let Esa := Z.lxor Esa Da in
      let BCu := ROL Esa 18 in
      let Aka := Z.lxor BCa (Z.land (not64 BCe) BCi) in
      let Ake := Z.lxor BCe (Z.land (not64 BCi) BCo) in
      let Aki := Z.lxor BCi (Z.land (not64 BCo) BCu) in
      let Ako := Z.lxor BCo (Z.land (not64 BCu) BCa) in
      let Aku := Z.lxor BCu (Z.land (not64 BCa) BCe) in
      let Ebu := Z.lxor Ebu Du in
      let BCa := ROL Ebu 27 in
      let Ega := Z.lxor Ega Da in
      let BCe := ROL Ega 36 in
      let Eke := Z.lxor Eke De in
      let BCi := ROL Eke 10 in
      let Emi := Z.lxor Emi Di in
      let BCo := ROL Emi 15 in
      let Eso := Z.lxor Eso Do in
      let BCu := ROL Eso 56 in
      let Ama := Z.lxor BCa (Z.land (not64 BCe) BCi) in
      let Ame := Z.lxor BCe (Z.land (not64 BCi) BCo) in
      let Ami := Z.lxor BCi (Z.land (not64 BCo) BCu) in
      let Amo := Z.lxor BCo (Z.land (not64 BCu) BCa) in
      let Amu := Z.lxor BCu (Z.land (not64 BCa) BCe) in
      let Ebi := Z.lxor Ebi Di in
      let BCa := ROL Ebi 62 in
      let Ego := Z.lxor Ego Do in
      let BCe := ROL Ego 55 in
      let Eku := Z.lxor Eku Du in
      let BCi := ROL Eku 39 in
      let Ema := Z.lxor Ema Da in
      let BCo := ROL Ema 41 in
      let Ese := Z.lxor Ese De in
      let BCu := ROL Ese 2 in
      let Asa := Z.lxor BCa (Z.land (not64 BCe) BCi) in
      let Ase := Z.lxor BCe (Z.land (not64 BCi) BCo) in
      let Asi := Z.lxor BCi (Z.land (not64 BCo) BCu) in
      let Aso := Z.lxor BCo (Z.land (not64 BCu) BCa) in
      let Asu := Z.lxor BCu (Z.land (not64 BCa) BCe) in
      Some [Aba; Abe; Abi; Abo; Abu;
            Aga; Age; Agi; Ago; Agu;
            Aka; Ake; Aki; Ako; Aku;
            Ama; Ame; Ami; Amo; Amu;
            Asa; Ase; Asi; Aso; Asu]
  | _ => None
  end.

(** The loop over the rounds, two at a time. *)
(* src/extern/HQC-Round4/Additional_Implementation/hqc-128/lib/fips202/fips202.c:116-306 KeccakF1600_StatePermute *)
Definition keccak_rounds (rounds : list Z) (A : list Z) : option (list Z) :=
  ofor rounds (fun round A =>
    rc0 ← cell KeccakF_RoundConstants round;
    E ← keccak_round_AE rc0 A;
    rc1 ← cell KeccakF_RoundConstants (round + 1);
    keccak_round_EA rc1 E) A.

(** The values of [for(round = 0; round < NROUNDS; round += 2)]. *)
(* src/extern/HQC-Round4/Additional_Implementation/hqc-128/lib/fips202/fips202.c:73-334 KeccakF1600_StatePermute *)
Definition KeccakF1600_StatePermute (state : list Z) : option (list Z) :=
  keccak_rounds ((fun k => 2 * k) <$> upto (NROUNDS / 2)) state.

(** [s[i] ^= v]. *)
Definition xor_word (s : list Z) (i v : Z) : option (list Z) :=
  w ← cell s i; set_cell s i (Z.lxor w v).

(** The first 25 words through the permutation. *)
Definition permute (s : list Z) : option (list Z) :=
  p ← KeccakF1600_StatePermute (take 25 s);
  Some (p ++ drop 25 s).

(** [for(i = 0; i < r / 8; ++i) s[i] ^= load64(m + off + 8 * i)]. *)
(* src/extern/HQC-Round4/Additional_Implementation/hqc-128/lib/fips202/fips202.c:360-362 keccak_absorb *)
Definition absorb_block (s : list Z) (r : Z) (m : bytes) (off : Z) : option (list Z) :=
  ofor (upto (r / 8)) (fun i s => w ← load64 m (off + 8 * i); xor_word s i w) s.

(** The loop over whole blocks; returns the state and what is left of the input. *)
(* src/extern/HQC-Round4/Additional_Implementation/hqc-128/lib/fips202/fips202.c:359-367 keccak_absorb *)
Fixpoint absorb_blocks (fuel : nat) (s : list Z) (r : Z) (m : bytes) (off mlen : Z) {struct fuel}
    : option (list Z * Z * Z) :=
  match fuel with
  | O => None
  | S fuel =>
      if r <=? mlen
      then s ← absorb_block s r m off;
           s ← KeccakF1600_StatePermute s;
           absorb_blocks fuel s r m (off + r) (mlen - r)
      else Some (s, off, mlen)
  end.

(** The cells of [t] from [r] on are indeterminate in C; they are not read. *)
(* src/extern/HQC-Round4/Additional_Implementation/hqc-128/lib/fips202/fips202.c:349-380 keccak_absorb *)
Definition keccak_absorb (r : Z) (m : bytes) (mlen p : Z) : option (list Z) :=
  '(s, off, mlen) ← absorb_blocks (S (Z.to_nat (mlen / r))) (zeros 25) r m 0 mlen;
  rest ← mem_read m off mlen;
  t ← mem_write (zeros 200) 0 rest;
  t ← set_cell t mlen p;
  last ← cell t (r - 1);
  t ← set_cell t (r - 1) (Z.lor last 128);
  absorb_block s r t 0.

(** Writes [r] bytes of the state from [off]. *)
(* src/extern/HQC-Round4/Additional_Implementation/hqc-128/lib/fips202/fips202.c:399-401 keccak_squeezeblocks *)
Definition squeeze_block (h : bytes) (off : Z) (s : list Z) (r : Z) : option bytes :=
  ofor (upto (Z.shiftr r 3)) (fun i h => w ← cell s i; store64 h (off + 8 * i) w) h.

(* src/extern/HQC-Round4/Additional_Implementation/hqc-128/lib/fips202/fips202.c:395-405 keccak_squeezeblocks *)
Fixpoint keccak_squeezeblocks (h : bytes) (off : Z) (nblocks : nat) (s : list Z) (r : Z)
    {struct nblocks} : option (bytes * list Z) :=
  match nblocks with
  | O => Some (h, s)
  | S nblocks =>
      s ← permute s;
      h ← squeeze_block h off s r;
      keccak_squeezeblocks h (off + r) nblocks s r
  end.

(** Squeezing [outlen] bytes into [output]: whole blocks, then the head of one more. *)
(* src/extern/HQC-Round4/Additional_Implementation/hqc-128/lib/fips202/fips202.c:660-678 shake256 *)
Definition squeeze_out (output : bytes) (outlen : Z) (s : list Z) (rate : Z) : option bytes :=
  let nblocks := outlen / rate in
  '(output, s) ← keccak_squeezeblocks output 0 (Z.to_nat nblocks) s rate;
  let left := outlen - nblocks * rate in
  if left =? 0 then Some output else
  '(t, _) ← keccak_squeezeblocks (zeros rate) 0 1 s rate;
  head ← mem_read t 0 left;
  mem_write output (nblocks * rate) head.

(* src/extern/HQC-Round4/Additional_Implementation/hqc-128/lib/fips202/fips202.c:569-571 shake128_absorb *)
Definition shake128_absorb (input : bytes) (inlen : Z) : option (list Z) :=
  keccak_absorb SHAKE128_RATE input inlen 0x1F.
(* src/extern/HQC-Round4/Additional_Implementation/hqc-128/lib/fips202/fips202.c:600-602 shake256_absorb *)
Definition shake256_absorb (input : bytes) (inlen : Z) : option (list Z) :=
  keccak_absorb SHAKE256_RATE input inlen 0x1F.
(* src/extern/HQC-Round4/Additional_Implementation/hqc-128/lib/fips202/fips202.c:585-587 shake128_squeezeblocks *)
Definition shake128_squeezeblocks (output : bytes) (off : Z) (nblocks : nat) (s : list Z) :=
  keccak_squeezeblocks output off nblocks s SHAKE128_RATE.
(* src/extern/HQC-Round4/Additional_Implementation/hqc-128/lib/fips202/fips202.c:616-618 shake256_squeezeblocks *)
Definition shake256_squeezeblocks (output : bytes) (off : Z) (nblocks : nat) (s : list Z) :=
  keccak_squeezeblocks output off nblocks s SHAKE256_RATE.

(* src/extern/HQC-Round4/Additional_Implementation/hqc-128/lib/fips202/fips202.c:630-649 shake128 *)
Definition shake128 (output : bytes) (outlen : Z) (input : bytes) (inlen : Z) : option bytes :=
  s ← shake128_absorb input inlen;
  squeeze_out output outlen s SHAKE128_RATE.

(* src/extern/HQC-Round4/Additional_Implementation/hqc-128/lib/fips202/fips202.c:660-678 shake256 *)
Definition shake256 (output : bytes) (outlen : Z) (input : bytes) (inlen : Z) : option bytes :=
  s ← shake256_absorb input inlen;
  squeeze_out output outlen s SHAKE256_RATE.

(** The one-shot hashes: one block squeezed, its head copied. *)
Definition sha3 (rate outlen : Z) (output input : bytes) (inlen : Z) : option bytes :=
  s ← keccak_absorb rate input inlen 0x06;
  '(t, _) ← keccak_squeezeblocks (zeros rate) 0 1 s rate;
  head ← mem_read t 0 outlen;
  mem_write output 0 head.
(* src/extern/HQC-Round4/Additional_Implementation/hqc-128/lib/fips202/fips202.c:708-721 sha3_256 *)
Definition sha3_256 := sha3 SHA3_256_RATE 32.
(* src/extern/HQC-Round4/Additional_Implementation/hqc-128/lib/fips202/fips202.c:751-764 sha3_384 *)
Definition sha3_384 := sha3 SHA3_384_RATE 48.
(* src/extern/HQC-Round4/Additional_Implementation/hqc-128/lib/fips202/fips202.c:794-807 sha3_512 *)
Definition sha3_512 := sha3 SHA3_512_RATE 64.

(** ** The incremental interface *)

(** The count of pending bytes, [s_inc[25]]. *)
Definition inc_count (s : list Z) : option Z := cell s 25.

(** [s_inc[pos >> 3] ^= (uint64_t)b << (8 * (pos & 0x07))]. *)
Definition xor_byte_at (s : list Z) (pos b : Z) : option (list Z) :=
  xor_word s (Z.shiftr pos 3) (u64 (Z.shiftl b (8 * Z.land pos 0x07))).

(** [(uint8_t)(s_inc[pos >> 3] >> (8 * (pos & 0x07)))]. *)
Definition byte_at (s : list Z) (pos : Z) : option Z :=
  w ← cell s (Z.shiftr pos 3); Some (u8 (Z.shiftr w (8 * Z.land pos 0x07))).

(* src/extern/HQC-Round4/Additional_Implementation/hqc-128/lib/fips202/fips202.c:417-424 keccak_inc_init *)
Definition keccak_inc_init : list Z := zeros 26.

(** [n] bytes of [m] from [off] go to the positions from [count]. *)
(* src/extern/HQC-Round4/Additional_Implementation/hqc-128/lib/fips202/fips202.c:446-450 keccak_inc_absorb *)
Definition xor_bytes_at (s : list Z) (count : Z) (m : bytes) (off n : Z) : option (list Z) :=
  ofor (upto n) (fun i s => b ← cell m (off + i); xor_byte_at s (count + i) b) s.

(* src/extern/HQC-Round4/Additional_Implementation/hqc-128/lib/fips202/fips202.c:440-462 keccak_inc_absorb *)
Fixpoint keccak_inc_absorb_from (fuel : nat) (s : list Z) (r : Z) (m : bytes) (off mlen : Z)
    {struct fuel} : option (list Z) :=
  match fuel with
  | O => None
  | S fuel =>
      count ← inc_count s;
      if r <=? mlen + count
      then s ← xor_bytes_at s count m off (r - count);
           s ← set_cell s 25 0;
           s ← permute s;
           keccak_inc_absorb_from fuel s r m (off + (r - count)) (mlen - (r - count))
      else s ← xor_bytes_at s count m off mlen;
           set_cell s 25 (count + mlen)
  end.

(** Each iteration but the first absorbs [r] bytes, so [mlen / r + 2] iterations
    are enough. *)
(* src/extern/HQC-Round4/Additional_Implementation/hqc-128/lib/fips202/fips202.c:440-462 keccak_inc_absorb *)
Definition keccak_inc_absorb (s : list Z) (r : Z) (m : bytes) (mlen : Z) : option (list Z) :=
  keccak_inc_absorb_from (S (S (Z.to_nat (mlen / r)))) s r m 0 mlen.

(* src/extern/HQC-Round4/Additional_Implementation/hqc-128/lib/fips202/fips202.c:477-483 keccak_inc_finalize *)
Definition keccak_inc_finalize (s : list Z) (r p : Z) : option (list Z) :=
  count ← inc_count s;
  s ← xor_byte_at s count p;
  s ← xor_byte_at s (r - 1) 128;
  set_cell s 25 0.

(** Copies [n] state bytes from position [pos] to [h] from [off]. *)
(* src/extern/HQC-Round4/Additional_Implementation/hqc-128/lib/fips202/fips202.c:516-518 keccak_inc_squeeze *)
Definition copy_bytes_at (h : bytes) (off : Z) (s : list Z) (pos n : Z) : option bytes :=
  ofor (upto n) (fun i h => b ← byte_at s (pos + i); set_cell h (off + i) b) h.

(* src/extern/HQC-Round4/Additional_Implementation/hqc-128/lib/fips202/fips202.c:513-522 keccak_inc_squeeze *)
Fixpoint inc_squeeze_blocks (fuel : nat) (h : bytes) (off outlen : Z) (s : list Z) (r : Z)
    {struct fuel} : option (bytes * list Z) :=
  match fuel with
  | O => None
  | S fuel =>
      if 0 <? outlen
      then s ← permute s;
           let i := Z.min outlen r in
           h ← copy_bytes_at h off s 0 i;
           s ← set_cell s 25 (r - i);
           inc_squeeze_blocks fuel h (off + i) (outlen - i) s r
      else Some (h, s)
  end.

(* src/extern/HQC-Round4/Additional_Implementation/hqc-128/lib/fips202/fips202.c:498-523 keccak_inc_squeeze *)
Definition keccak_inc_squeeze (h : bytes) (outlen : Z) (s : list Z) (r : Z)
    : option (bytes * list Z) :=
  count ← inc_count s;
  let i := Z.min outlen count in
  h ← copy_bytes_at h 0 s (r - count) i;
  s ← set_cell s 25 (count - i);
  inc_squeeze_blocks (S (S (Z.to_nat (outlen / r)))) h i (outlen - i) s r.

(* src/extern/HQC-Round4/Additional_Implementation/hqc-128/lib/fips202/fips202.c:541-543 shake256_inc_init *)
Definition shake256_inc_init : list Z := keccak_inc_init.
(* src/extern/HQC-Round4/Additional_Implementation/hqc-128/lib/fips202/fips202.c:545-547 shake256_inc_absorb *)
Definition shake256_inc_absorb (s : list Z) (input : bytes) (inlen : Z) :=
  keccak_inc_absorb s SHAKE256_RATE input inlen.
(* src/extern/HQC-Round4/Additional_Implementation/hqc-128/lib/fips202/fips202.c:549-551 shake256_inc_finalize *)
Definition shake256_inc_finalize (s : list Z) := keccak_inc_finalize s SHAKE256_RATE 0x1F.
(* src/extern/HQC-Round4/Additional_Implementation/hqc-128/lib/fips202/fips202.c:553-555 shake256_inc_squeeze *)
Definition shake256_inc_squeeze (output : bytes) (outlen : Z) (s : list Z) :=
  keccak_inc_squeeze output outlen s SHAKE256_RATE.
(* src/extern/HQC-Round4/Additional_Implementation/hqc-128/lib/fips202/fips202.c:525-527 shake128_inc_init *)
Definition shake128_inc_init : list Z := keccak_inc_init.
(* src/extern/HQC-Round4/Additional_Implementation/hqc-128/lib/fips202/fips202.c:529-531 shake128_inc_absorb *)
Definition shake128_inc_absorb (s : list Z) (input : bytes) (inlen : Z) :=
  keccak_inc_absorb s SHAKE128_RATE input inlen.
(* src/extern/HQC-Round4/Additional_Implementation/hqc-128/lib/fips202/fips202.c:533-535 shake128_inc_finalize *)
Definition shake128_inc_finalize (s : list Z) := keccak_inc_finalize s SHAKE128_RATE 0x1F.
(* src/extern/HQC-Round4/Additional_Implementation/hqc-128/lib/fips202/fips202.c:537-539 shake128_inc_squeeze *)
Definition shake128_inc_squeeze (output : bytes) (outlen : Z) (s : list Z) :=
  keccak_inc_squeeze output outlen s SHAKE128_RATE.

(** The incremental SHA3: finalize, squeeze one block, copy its head. *)
Definition sha3_inc_finalize (rate outlen : Z) (output : bytes) (s : list Z)
    : option (bytes * list Z) :=
  s ← keccak_inc_finalize s rate 0x06;
  '(t, s) ← keccak_squeezeblocks (zeros rate) 0 1 s rate;
  head ← mem_read t 0 outlen;
  output ← mem_write output 0 head;
  Some (output, s).
(* src/extern/HQC-Round4/Additional_Implementation/hqc-128/lib/fips202/fips202.c:680-682 sha3_256_inc_init *)
Definition sha3_256_inc_init : list Z := keccak_inc_init.
(* src/extern/HQC-Round4/Additional_Implementation/hqc-128/lib/fips202/fips202.c:684-686 sha3_256_inc_absorb *)
Definition sha3_256_inc_absorb (s : list Z) (input : bytes) (inlen : Z) :=
  keccak_inc_absorb s SHA3_256_RATE input inlen.
(* src/extern/HQC-Round4/Additional_Implementation/hqc-128/lib/fips202/fips202.c:688-697 sha3_256_inc_finalize *)
Definition sha3_256_inc_finalize := sha3_inc_finalize SHA3_256_RATE 32.
(* src/extern/HQC-Round4/Additional_Implementation/hqc-128/lib/fips202/fips202.c:723-725 sha3_384_inc_init *)
Definition sha3_384_inc_init : list Z := keccak_inc_init.
(* src/extern/HQC-Round4/Additional_Implementation/hqc-128/lib/fips202/fips202.c:727-729 sha3_384_inc_absorb *)
Definition sha3_384_inc_absorb (s : list Z) (input : bytes) (inlen : Z) :=
  keccak_inc_absorb s SHA3_384_RATE input inlen.
(* src/extern/HQC-Round4/Additional_Implementation/hqc-128/lib/fips202/fips202.c:731-740 sha3_384_inc_finalize *)
Definition sha3_384_inc_finalize := sha3_inc_finalize SHA3_384_RATE 48.
(* src/extern/HQC-Round4/Additional_Implementation/hqc-128/lib/fips202/fips202.c:766-768 sha3_512_inc_init *)
Definition sha3_512_inc_init : list Z := keccak_inc_init.
(* src/extern/HQC-Round4/Additional_Implementation/hqc-128/lib/fips202/fips202.c:770-772 sha3_512_inc_absorb *)
Definition sha3_512_inc_absorb (s : list Z) (input : bytes) (inlen : Z) :=
  keccak_inc_absorb s SHA3_512_RATE input inlen.
(* src/extern/HQC-Round4/Additional_Implementation/hqc-128/lib/fips202/fips202.c:774-783 sha3_512_inc_finalize *)
Definition sha3_512_inc_finalize := sha3_inc_finalize SHA3_512_RATE 64.

(** SHAKE256 and SHA3-256 of the empty message. *)
Example shake256_empty :
  shake256 (zeros 16) 16 [] 0 =
    Some [0x46; 0xb9; 0xdd; 0x2b; 0x0b; 0xa8; 0x8d; 0x13; 0x23; 0x3b; 0x3f; 0xeb; 0x74; 0x3e; 0xeb; 0x24].
Proof. vm_compute. reflexivity. Qed.
Example sha3_256_empty :
  take 8 <$> sha3_256 (zeros 32) [] 0 = Some [0xa7; 0xff; 0xc6; 0xf8; 0xbf; 0x1e; 0xd7; 0x66].
Proof. vm_compute. reflexivity. Qed.
Example shake256_inc_agrees :
  (s ← shake256_inc_absorb shake256_inc_init (upto 100) 100;
   s ← shake256_inc_absorb s (upto 200) 200;
   s ← shake256_inc_finalize s;
   fst <$> shake256_inc_squeeze (zeros 150) 150 s) =
  shake256 (zeros 150) 150 (upto 100 ++ upto 200) 300.
Proof. vm_compute. reflexivity. Qed.

(** ** Keccak-f[1600] by lanes

    The permutation as FIPS 202 defines it: the lane at ([x], [y]) is word
    [x + 5 * y]. *)

Module Keccak.

Definition lane (A : list Z) (x y : Z) : Z := default 0 (A !! Z.to_nat (x mod 5 + 5 * (y mod 5))).
Definition lanes (f : Z -> Z -> Z) : list Z := (fun i => f (i mod 5) (i / 5)) <$> upto 25.

Definition column_parity (A : list Z) (x : Z) : Z :=
  Z.lxor (Z.lxor (Z.lxor (Z.lxor (lane A x 0) (lane A x 1)) (lane A x 2)) (lane A x 3)) (lane A x 4).

Definition theta (A : list Z) : list Z :=
  lanes (fun x y => Z.lxor (lane A x y)
    (Z.lxor (column_parity A (x - 1)) (ROL (column_parity A (x + 1)) 1))).

(** The rotation offsets, in the order of the words. *)
Definition rho_offsets : list Z :=
  [0; 1; 62; 28; 27; 36; 44; 6; 55; 20; 3; 10; 43; 25; 39; 41; 45; 15; 21; 8; 18; 2; 61; 56; 14].

(** Rotation by the lane's offset; the lane at the origin does not rotate. *)
Definition rho (A : list Z) : list Z :=
  lanes (fun x y => let o := lane rho_offsets x y in
                    if o =? 0 then lane A x y else ROL (lane A x y) o).

Definition pi (A : list Z) : list Z := lanes (fun x y => lane A (x + 3 * y) x).

Definition chi (A : list Z) : list Z :=
  lanes (fun x y => Z.lxor (lane A x y) (Z.land (not64 (lane A (x + 1) y)) (lane A (x + 2) y))).

Definition iota (rc : Z) (A : list Z) : list Z :=
  match A with a :: A => Z.lxor a rc :: A | [] => [] end.

Definition keccak_round_spec (rc : Z) (A : list Z) : list Z := iota rc (chi (pi (rho (theta A)))).

End Keccak.

Ltac words_cases A H :=
  do 25 (destruct A as [|? A]; [discriminate H|]); destruct A; [|discriminate H].

Lemma keccak_round_AE_eq rc A : length A = 25%nat -> keccak_round_AE rc A = Some (Keccak.keccak_round_spec rc A).
Proof. intros H. words_cases A H. cbv -[Z.lxor Z.land ROL not64]. reflexivity. Qed.

Lemma keccak_round_EA_eq rc A : length A = 25%nat -> keccak_round_EA rc A = Some (Keccak.keccak_round_spec rc A).
Proof. intros H. words_cases A H. cbv -[Z.lxor Z.land ROL not64]. reflexivity. Qed.

Lemma round_spec_length rc A :
  length A = 25%nat -> length (Keccak.keccak_round_spec rc A) = 25%nat.
Proof. intros H. words_cases A H. reflexivity. Qed.

(** The 24 rounds in order. *)
Definition keccak_f (A : list Z) : list Z :=
  foldl (fun A rc => Keccak.keccak_round_spec rc A) A KeccakF_RoundConstants.

Lemma foldl_rounds_length rcs A :
  length A = 25%nat ->
  length (foldl (fun A rc => Keccak.keccak_round_spec rc A) A rcs) = 25%nat.
Proof. revert A. induction rcs as [|rc rcs IH]; intros A H; simpl; [exact H|]. apply IH, round_spec_length, H. Qed.

Lemma keccak_rounds_eq k A :
  length A = 25%nat -> (k <= 12)%nat ->
  keccak_rounds ((fun i => 2 * i) <$> upto (Z.of_nat k)) A =
    Some (foldl (fun A rc => Keccak.keccak_round_spec rc A) A (take (2 * k) KeccakF_RoundConstants)).
Proof.
  intros HA. induction k as [|k IH]; intros Hk; [reflexivity|].
  replace (Z.of_nat (Datatypes.S k)) with (Z.of_nat k + 1) by lia.
  unfold keccak_rounds in *. rewrite upto_snoc, fmap_app, ofor_app, IH by lia. opt_simpl. simpl ofor.
  assert (Hl : (length KeccakF_RoundConstants = 24)%nat) by reflexivity.
  destruct (cell_total KeccakF_RoundConstants (2 * Z.of_nat k)) as (rc0 & -> & H0); [lia|].
  destruct (cell_total KeccakF_RoundConstants (2 * Z.of_nat k + 1)) as (rc1 & Hrc1 & H1); [lia|].
  opt_simpl. rewrite keccak_round_AE_eq by apply foldl_rounds_length, HA. opt_simpl.
  replace (2 * Z.of_nat k + 1) with (2 * Z.of_nat k + 1) in Hrc1 by lia. rewrite Hrc1. opt_simpl.
  rewrite keccak_round_EA_eq by apply round_spec_length, foldl_rounds_length, HA. opt_simpl.
  replace (2 * Datatypes.S k)%nat with (Datatypes.S (Datatypes.S (2 * k))) by lia.
  erewrite (take_S_r _ (Datatypes.S (2 * k))) by (rewrite <- H1; f_equal; lia).
  erewrite (take_S_r _ (2 * k)) by (rewrite <- H0; f_equal; lia).
  rewrite !foldl_app. reflexivity.
Qed.

Lemma permute_state_eq A :
  length A = 25%nat -> KeccakF1600_StatePermute A = Some (keccak_f A) /\ length (keccak_f A) = 25%nat.
Proof.
  intros HA. split; [|apply foldl_rounds_length, HA].
  apply (keccak_rounds_eq 12 A HA). lia.
Qed.

(** ** Totality of the sponge *)

Lemma xor_word_total s i v :
  0 <= i < Z.of_nat (length s) -> exists s', xor_word s i v = Some s' /\ length s' = length s.
Proof.
  intros Hi. unfold xor_word. destruct (cell_total s i Hi) as (w & -> & _). opt_simpl.
  rewrite set_cell_total by exact Hi. eexists. split; [reflexivity|]. apply length_insert.
Qed.

Lemma load64_total x off :
  0 <= off -> off + 8 <= Z.of_nat (length x) -> exists w, load64 x off = Some w.
Proof.
  intros Ho Hl. unfold load64.
  destruct (ofor_inv (fun _ => True) (upto 8)
    (fun i r => b ← cell x (off + i); Some (Z.lor r (u64 (Z.shiftl b (8 * i))))) 0 I) as (w & Hw & _).
  - intros i r Hi _. rewrite elem_of_upto in Hi.
    destruct (cell_total x (off + i)) as (b & -> & _); [lia|]. opt_simpl. eauto.
  - eauto.
Qed.

(** A rate: a whole number of words that leaves some capacity. *)
Definition is_rate (r : Z) : Prop := 0 < r <= 192 /\ r = 8 * (r / 8).

Lemma absorb_block_total s r m off :
  is_rate r -> length s = 25%nat -> 0 <= off -> off + r <= Z.of_nat (length m) ->
  exists s', absorb_block s r m off = Some s' /\ length s' = 25%nat.
Proof.
  intros [Hr Hr8] Hs Ho Hl. unfold absorb_block. apply (ofor_inv (fun s => length s = 25%nat)); [exact Hs|].
  intros i s' Hi Hs'. rewrite elem_of_upto in Hi.
  destruct (load64_total m (off + 8 * i)) as (w & ->); [lia..|]. opt_simpl.
  destruct (xor_word_total s' i w) as (s2 & -> & Hl2); [lia|]. rewrite Hs' in Hl2. eauto.
Qed.

Lemma absorb_blocks_total fuel s r m off mlen :
  is_rate r -> length s = 25%nat -> 0 <= off -> 0 <= mlen -> off + mlen <= Z.of_nat (length m) ->
  mlen < r * Z.of_nat fuel ->
  exists s' off' mlen', absorb_blocks fuel s r m off mlen = Some (s', off', mlen') /\
    length s' = 25%nat /\ 0 <= off' /\ 0 <= mlen' < r /\ off' + mlen' = off + mlen.
Proof.
  intros Hr. revert s off mlen. induction fuel as [|fuel IH]; intros s off mlen Hs Ho Hm Hl Hf; [lia|].
  simpl. destruct (Z.leb_spec r mlen) as [Hle|Hlt].
  - destruct (absorb_block_total s r m off Hr Hs) as (s1 & -> & Hs1); [lia..|]. opt_simpl.
    destruct (permute_state_eq s1 Hs1) as [-> Hs2]. opt_simpl.
    destruct (IH (keccak_f s1) (off + r) (mlen - r)) as (s3 & o3 & m3 & -> & Hs3 & H1 & H2 & H3);
      [exact Hs2|destruct Hr; lia..|]. eexists _, _, _. split; [reflexivity|]. split; [exact Hs3|]. lia.
  - eexists _, _, _. split; [reflexivity|]. split; [exact Hs|]. lia.
Qed.

Lemma keccak_absorb_total r m mlen p :
  is_rate r -> 0 <= mlen <= Z.of_nat (length m) ->
  exists s, keccak_absorb r m mlen p = Some s /\ length s = 25%nat.
Proof.
  intros Hr Hm. unfold keccak_absorb.
  pose proof (Z.div_mod mlen r ltac:(destruct Hr; lia)). pose proof (Z.mod_pos_bound mlen r ltac:(destruct Hr; lia)).
  pose proof (Z.div_pos mlen r ltac:(lia) ltac:(destruct Hr; lia)).
  destruct (absorb_blocks_total (Datatypes.S (Z.to_nat (mlen / r))) (zeros 25) r m 0 mlen Hr)
    as (s1 & off & ml & -> & Hs1 & Ho & Hml & Hsum); [reflexivity|lia|lia|lia|nia|]. opt_simpl.
  destruct (mem_read_total m off ml) as (rest & -> & Hrl & _); [lia..|]. opt_simpl.
  destruct Hr as [Hr1 Hr8].
  rewrite mem_write_total by (rewrite ?length_zeros; lia). opt_simpl.
  set (t := take _ _ ++ _). assert (Ht : length t = 200%nat).
  { unfold t. rewrite !length_app, length_take, length_drop, length_zeros. lia. }
  rewrite set_cell_total by lia. opt_simpl.
  destruct (cell_total (<[Z.to_nat ml:=p]> t) (r - 1)) as (v & -> & _); [rewrite length_insert; lia|].
  opt_simpl. rewrite set_cell_total by (rewrite length_insert; lia). opt_simpl.
  apply absorb_block_total; [split; lia|exact Hs1|lia|rewrite !length_insert; lia].
Qed.

(** ** What the sponge squeezes *)

Definition word_bytes (u : Z) : bytes := (fun i => u8 (Z.shiftr u (8 * i))) <$> upto 8.

(** The first [r] bytes of a state. *)
Definition state_bytes (s : list Z) (r : Z) : bytes :=
  concat ((fun i => word_bytes (default 0 (cell s i))) <$> upto (r / 8)).

(** The blocks of the [n] states that follow [s], and the last of these. *)
Fixpoint squeeze_blocks_spec (n : nat) (s : list Z) (r : Z) : bytes :=
  match n with
  | O => []
  | S n => state_bytes (keccak_f s) r ++ squeeze_blocks_spec n (keccak_f s) r
  end.

Lemma concat_singletons {A B} (f : A -> B) l : concat ((fun x => [f x]) <$> l) = f <$> l.
Proof. induction l as [|x l IH]; simpl; [reflexivity|]. f_equal. exact IH. Qed.

Lemma store64_eq x off u :
  0 <= off -> off + 8 <= Z.of_nat (length x) -> store64 x off u = mem_write x off (word_bytes u).
Proof.
  intros Ho Hl. unfold store64, word_bytes. rewrite <- concat_singletons.
  apply (ofor_writes (fun i => [u8 (Z.shiftr u (8 * i))]) 1); [lia..|reflexivity|].
  intros i h' Hi Hh. rewrite set_cell_mem_write. f_equal. lia.
Qed.

Lemma word_bytes_length u : Z.of_nat (length (word_bytes u)) = 8.
Proof. unfold word_bytes. rewrite length_fmap, length_upto. reflexivity. Qed.

Lemma all_bytes_fmap_u8 {A} (f : A -> Z) l : all_bytes ((fun x => u8 (f x)) <$> l).
Proof. apply Forall_fmap, Forall_true. intros x. apply u8_range. Qed.

Lemma all_bytes_concat (l : list bytes) : Forall all_bytes l -> all_bytes (concat l).
Proof.
  induction 1 as [|x l Hx _ IH]; [apply list.Forall_nil, I|].
  apply Forall_app. split; assumption.
Qed.

Lemma squeeze_block_eq h off s r :
  is_rate r -> length s = 25%nat -> 0 <= off -> off + r <= Z.of_nat (length h) ->
  squeeze_block h off s r = mem_write h off (state_bytes s r).
Proof.
  intros [Hr Hr8] Hs Ho Hl. unfold squeeze_block, state_bytes.
  replace (Z.shiftr r 3) with (r / 8) by (rewrite Z.shiftr_div_pow2 by lia; reflexivity).
  apply (ofor_writes (fun i => word_bytes (default 0 (cell s i))) 8); [lia..| |].
  - intros. apply word_bytes_length.
  - intros i h' Hi Hh. destruct (cell_total s i) as (w & -> & _); [lia|]. opt_simpl.
    rewrite store64_eq by lia. reflexivity.
Qed.

Lemma state_bytes_length s r : is_rate r -> Z.of_nat (length (state_bytes s r)) = r.
Proof.
  intros [Hr Hr8]. unfold state_bytes.
  rewrite (concat_upto_length _ 8); [lia|lia|]. intros. apply word_bytes_length.
Qed.

Lemma state_bytes_bytes s r : all_bytes (state_bytes s r).
Proof. apply all_bytes_concat, Forall_fmap, Forall_true. intros. apply all_bytes_fmap_u8. Qed.

Lemma permute_25 s : length s = 25%nat -> permute s = Some (keccak_f s).
Proof.
  intros Hs. unfold permute. rewrite <- Hs, firstn_all, skipn_all.
  destruct (permute_state_eq s Hs) as [-> _]. opt_simpl. rewrite app_nil_r. reflexivity.
Qed.

Lemma squeeze_spec_length n s r :
  is_rate r -> Z.of_nat (length (squeeze_blocks_spec n s r)) = r * Z.of_nat n.
Proof.
  intros Hr. revert s. induction n as [|n IH]; intros s; simpl; [lia|].
  rewrite length_app, Nat2Z.inj_add, IH, state_bytes_length by exact Hr. lia.
Qed.

Lemma squeeze_spec_bytes n s r : all_bytes (squeeze_blocks_spec n s r).
Proof.
  revert s. induction n as [|n IH]; intros s; [apply list.Forall_nil, I|].
  apply Forall_app. split; [apply state_bytes_bytes|apply IH].
Qed.

(** The state after [n] permutations. *)
Definition keccak_iter (n : nat) (s : list Z) : list Z := Nat.iter n keccak_f s.

Lemma keccak_iter_length n s : length s = 25%nat -> length (keccak_iter n s) = 25%nat.
Proof. intros Hs. induction n as [|n IH]; [exact Hs|]. apply (permute_state_eq _ IH). Qed.

Lemma squeezeblocks_eq n : forall h off s r,
  is_rate r -> length s = 25%nat -> 0 <= off -> off + r * Z.of_nat n <= Z.of_nat (length h) ->
  exists h', mem_write h off (squeeze_blocks_spec n s r) = Some h' /\
    keccak_squeezeblocks h off n s r = Some (h', keccak_iter n s).
Proof.
  induction n as [|n IH]; intros h off s r Hr Hs Ho Hl; simpl.
  - exists h. split; [|reflexivity]. rewrite mem_write_total by (simpl; lia). simpl.
    rewrite Nat.add_0_r, take_drop. reflexivity.
  - rewrite permute_25 by exact Hs. opt_simpl.
    destruct (permute_state_eq s Hs) as [_ Hs']. destruct Hr as [Hr1 Hr2].
    rewrite squeeze_block_eq by (try split; lia || assumption).
    pose proof (state_bytes_length (keccak_f s) r (conj Hr1 Hr2)) as Hsl.
    destruct (mem_write h off (state_bytes (keccak_f s) r)) as [h1|] eqn:E.
    2: { rewrite mem_write_total in E by lia. discriminate. }
    opt_simpl. pose proof (mem_write_length _ _ _ _ E) as Hhl.
    destruct (IH h1 (off + r) (keccak_f s) r (conj Hr1 Hr2) Hs') as (h' & Hw & ->); [lia|lia|].
    exists h'. split.
    + pose proof (mem_write_adjacent _ _ _ (squeeze_blocks_spec n (keccak_f s) r) _ E) as Ha.
      rewrite Hsl in Ha. rewrite <- Ha; [exact Hw|].
      rewrite squeeze_spec_length by (split; assumption). lia.
    + f_equal. f_equal. unfold keccak_iter. simpl. rewrite <- Nat.iter_succ_r. reflexivity.
Qed.

(** The output stream of a sponge whose input is absorbed in [s]. *)
Definition sponge_output (s : list Z) (outlen r : Z) : bytes :=
  take (Z.to_nat outlen) (squeeze_blocks_spec (S (Z.to_nat (outlen / r))) s r).

Lemma squeeze_spec_S n s r :
  squeeze_blocks_spec (S n) s r =
    squeeze_blocks_spec n s r ++ state_bytes (keccak_f (keccak_iter n s)) r.
Proof.
  revert s. induction n as [|n IH]; intros s; [simpl; rewrite app_nil_r; reflexivity|].
  change (squeeze_blocks_spec (S (S n)) s r)
    with (state_bytes (keccak_f s) r ++ squeeze_blocks_spec (S n) (keccak_f s) r).
  rewrite IH. simpl. rewrite <- app_assoc. unfold keccak_iter. rewrite <- Nat.iter_succ_r. reflexivity.
Qed.

Lemma squeeze_out_eq output outlen s r :
  is_rate r -> length s = 25%nat -> 0 <= outlen <= Z.of_nat (length output) ->
  squeeze_out output outlen s r = mem_write output 0 (sponge_output s outlen r).
Proof.
  intros Hr Hs Hl. unfold squeeze_out, sponge_output. destruct Hr as [Hr1 Hr2].
  set (n := outlen / r). pose proof (Z.div_mod outlen r ltac:(lia)) as Hdm. fold n in Hdm.
  pose proof (Z.mod_pos_bound outlen r ltac:(lia)) as Hmb.
  pose proof (Z.div_pos outlen r ltac:(lia) ltac:(lia)) as Hn. fold n in Hn.
  destruct (squeezeblocks_eq (Z.to_nat n) output 0 s r (conj Hr1 Hr2) Hs) as (h1 & Hw & ->); [lia|lia|].
  opt_simpl. pose proof (squeeze_spec_length (Z.to_nat n) s r (conj Hr1 Hr2)) as Hsl.
  rewrite squeeze_spec_S. set (st' := keccak_iter (Z.to_nat n) s) in *.
  set (bs := squeeze_blocks_spec (Z.to_nat n) s r) in *.
  assert (Hst : length st' = 25%nat) by (apply keccak_iter_length, Hs).
  pose proof (state_bytes_length (keccak_f st') r (conj Hr1 Hr2)) as Hbl.
  rewrite take_app, take_ge by lia.
  replace (Z.to_nat outlen - length bs)%nat with (Z.to_nat (outlen - n * r)) by lia.
  destruct (Z.eqb_spec (outlen - n * r) 0) as [->|Hne].
  - rewrite app_nil_r. symmetry. exact Hw.
  - destruct (squeezeblocks_eq 1 (zeros r) 0 st' r (conj Hr1 Hr2) Hst) as (t & Ht & ->);
      [lia|rewrite length_zeros; lia|]. opt_simpl.
    simpl squeeze_blocks_spec in Ht. rewrite app_nil_r in Ht.
    assert (t = state_bytes (keccak_f st') r) as ->.
    { rewrite mem_write_total in Ht by (rewrite ?length_zeros; lia). injection Ht as <-.
      simpl. rewrite skipn_all2, app_nil_r; [reflexivity|]. rewrite length_zeros. lia. }
    destruct (mem_read_total (state_bytes (keccak_f st') r) 0 (outlen - n * r)) as (hd & Hh & Hhl & Hhv);
      [lia..|]. rewrite Hh. opt_simpl. rewrite drop_0 in Hhv. subst hd.
    pose proof (mem_write_adjacent _ _ _ (take (Z.to_nat (outlen - n * r))
      (state_bytes (keccak_f st') r)) _ Hw) as Ha.
    rewrite <- Ha; [f_equal; lia|lia].
Qed.

Lemma sponge_output_length s outlen r :
  is_rate r -> 0 <= outlen -> length (sponge_output s outlen r) = Z.to_nat outlen.
Proof.
  intros Hr Ho. unfold sponge_output. rewrite length_take.
  pose proof (squeeze_spec_length (S (Z.to_nat (outlen / r))) s r Hr) as Hl. destruct Hr as [Hr _].
  pose proof (Z.div_mod outlen r ltac:(lia)). pose proof (Z.mod_pos_bound outlen r ltac:(lia)).
  pose proof (Z.div_pos outlen r ltac:(lia) ltac:(lia)). nia.
Qed.

Lemma sponge_output_bytes s outlen r : all_bytes (sponge_output s outlen r).
Proof. apply Forall_take, squeeze_spec_bytes. Qed.

Lemma shake256_rate : is_rate SHAKE256_RATE.
Proof. split; [split|]; reflexivity || discriminate. Qed.

(** What SHAKE256 writes does not depend on what the buffer held. *)
Lemma shake256_eq input inlen outlen :
  0 <= inlen <= Z.of_nat (length input) -> 0 <= outlen ->
  exists out, length out = Z.to_nat outlen /\ all_bytes out /\
    forall output, outlen <= Z.of_nat (length output) ->
      shake256 output outlen input inlen = mem_write output 0 out.
Proof.
  intros Hi Ho. unfold shake256, shake256_absorb.
  destruct (keccak_absorb_total SHAKE256_RATE input inlen 0x1F shake256_rate Hi) as (s & -> & Hs).
  exists (sponge_output s outlen SHAKE256_RATE).
  split; [apply sponge_output_length; [apply shake256_rate|exact Ho]|].
  split; [apply sponge_output_bytes|]. intros output Hl. opt_simpl.
  apply squeeze_out_eq; [apply shake256_rate|exact Hs|lia].
Qed.

(** ** Properties *)

(** C29. The unrolled permutation is Keccak-f[1600]: on every 25-word state
    [KeccakF1600_StatePermute] computes the 24 rounds theta, rho, pi, chi and iota
    of FIPS 202 with its round constants, in order. *)
Theorem keccak_permutation_correct A :
  length A = 25%nat ->
  KeccakF1600_StatePermute A =
    Some (foldl (fun A rc => Keccak.iota rc (Keccak.chi (Keccak.pi (Keccak.rho (Keccak.theta A)))))
            A KeccakF_RoundConstants).
Proof.
  intros HA. rewrite (proj1 (permute_state_eq A HA)).
  unfold keccak_f, Keccak.keccak_round_spec. reflexivity.
Qed.

Example keccak_permutation_correct_witness :
  KeccakF1600_StatePermute (zeros 25) =
    Some (foldl (fun A rc => Keccak.iota rc (Keccak.chi (Keccak.pi (Keccak.rho (Keccak.theta A)))))
            (zeros 25) KeccakF_RoundConstants).
Proof. apply (keccak_permutation_correct (zeros 25)). reflexivity. Defined.

(** SHAKE256 is total and a function of its input: for every input and output
    length it runs inside its buffers, writes exactly the first [outlen] bytes of
    the output buffer, and what it writes depends on the input alone. *)
Theorem shake256_deterministic input inlen outlen :
  0 <= inlen <= Z.of_nat (length input) -> 0 <= outlen ->
  exists out, length out = Z.to_nat outlen /\ all_bytes out /\
    forall output, outlen <= Z.of_nat (length output) ->
      shake256 output outlen input inlen = Some (out ++ drop (Z.to_nat outlen) output).
Proof.
  intros Hi Ho. destruct (shake256_eq input inlen outlen Hi Ho) as (out & Hl & Hb & Heq).
  exists out. split; [exact Hl|]. split; [exact Hb|]. intros output Hout.
  rewrite Heq, mem_write_total by lia. simpl. rewrite Hl. reflexivity.
Qed.

Example shake256_deterministic_witness :
  exists out, length out = Z.to_nat 32 /\ all_bytes out /\
    forall output, 32 <= Z.of_nat (length output) ->
      shake256 output 32 (upto 64) 64 = Some (out ++ drop (Z.to_nat 32) output).
Proof. apply (shake256_deterministic (upto 64) 64 32); decided. Defined.
