(* ===== verification/Sponge.v ===== *)
(** * The incremental sponge is the one-shot sponge

    [shake256_inc_*] of [fips202.c] absorb and squeeze byte by byte, with a count of
    pending bytes in word 25 of the state; [shake256] absorbs whole blocks of words.
    Both are described by one pure sponge, [absorb_bytes], [pad_state] and
    [squeezed], so that the pieces in which the input is given do not matter. *)

From S2P Require Import Prelude Carryless Words Fips202.

(** A state of the permutation: 25 words. *)
Definition state_wf (A : list Z) : Prop := length A = 25%nat /\ Forall (in_width 64) A.

(** [n] bytes from [off] on. *)
Definition slice (m : bytes) (off n : Z) : bytes := take (Z.to_nat n) (drop (Z.to_nat off) m).

Lemma length_slice m off n : 0 <= off -> 0 <= n -> off + n <= Z.of_nat (length m) -> length (slice m off n) = Z.to_nat n.
Proof. intros. unfold slice. rewrite length_take, length_drop. lia. Qed.
Lemma slice_bytes m off n : all_bytes m -> all_bytes (slice m off n).
Proof. intros Hm. apply Forall_take, Forall_drop, Hm. Qed.
Lemma slice_split m off n k : 0 <= off -> 0 <= n -> 0 <= k -> slice m off (n + k) = slice m off n ++ slice m (off + n) k.
Proof.
  intros. unfold slice. rewrite !Z2Nat.inj_add by lia. rewrite <- drop_drop. symmetry. apply take_take_drop.
Qed.
Lemma slice_snoc m off n b : 0 <= off -> 0 <= n -> cell m (off + n) = Some b -> slice m off (n + 1) = slice m off n ++ [b].
Proof.
  intros Ho Hn Hb. unfold slice. rewrite Z2Nat.inj_add, Nat.add_1_r by lia. apply take_S_r. rewrite lookup_drop.
  rewrite cell_lookup, Z2Nat.inj_add in Hb by lia. exact Hb.
Qed.

Lemma one_byte b : is_u8 b -> all_bytes [b].
Proof. intros Hb. constructor; [exact Hb|constructor]. Qed.

(** ** Adding bytes to a state *)

Lemma pack_insert k (A : list Z) i w v : 0 <= k -> A !! i = Some w ->
  pack k (<[i := Z.lxor w v]> A) = Z.lxor (pack k A) (Z.shiftl v (k * Z.of_nat i)).
Proof.
  intros Hk Hi. pose proof (lookup_lt_Some _ _ _ Hi) as Hlt. rewrite insert_take_drop by exact Hlt.
  rewrite <- (take_drop_middle A i w Hi) at 3. rewrite !pack_app, length_take, Nat.min_l by lia. cbn [pack].
  rewrite !Z.shiftl_lxor. lxor_solve.
Qed.

(** The bytes [bs] are added from position [pos] on. *)
Definition xor_at (A : list Z) (pos : Z) (bs : bytes) : list Z :=
  unpack 64 25 (Z.lxor (pack 64 A) (Z.shiftl (pack 8 bs) (8 * pos))).

Lemma pack_xor_at A pos bs : state_wf A -> all_bytes bs -> 0 <= pos -> pos + Z.of_nat (length bs) <= 200 ->
  state_wf (xor_at A pos bs) /\ pack 64 (xor_at A pos bs) = Z.lxor (pack 64 A) (Z.shiftl (pack 8 bs) (8 * pos)).
Proof.
  intros [Hl Hw] Hb Hp Hs. split; [split; [apply length_unpack|apply unpack_wf; lia]|].
  unfold xor_at. apply pack_unpack; [lia|lia|]. apply width_lxor; [lia| |].
  - pose proof (pack_width 64 A ltac:(lia) Hw) as H. rewrite Hl in H. exact H.
  - apply (width_mono (8 * Z.of_nat (length bs) + 8 * pos)); [lia|]. apply width_shiftl; [lia|lia|]. apply pack_width; [lia|exact Hb].
Qed.

Lemma state_eq A B : state_wf A -> state_wf B -> pack 64 A = pack 64 B -> A = B.
Proof. intros [Hl Hw] [Hl' Hw'] E. apply (pack_inj 64); try assumption; lia. Qed.

Lemma xor_at_app A pos b1 b2 : state_wf A -> all_bytes b1 -> all_bytes b2 -> 0 <= pos -> pos + Z.of_nat (length (b1 ++ b2)) <= 200 ->
  xor_at (xor_at A pos b1) (pos + Z.of_nat (length b1)) b2 = xor_at A pos (b1 ++ b2).
Proof.
  intros HA H1 H2 Hp Hs. rewrite length_app in Hs.
  destruct (pack_xor_at A pos b1 HA H1 Hp ltac:(lia)) as [HA1 E1].
  destruct (pack_xor_at _ (pos + Z.of_nat (length b1)) b2 HA1 H2 ltac:(lia) ltac:(lia)) as [HA2 E2].
  destruct (pack_xor_at A pos (b1 ++ b2) HA (proj2 (Forall_app _ _ _) (conj H1 H2)) Hp ltac:(rewrite length_app; lia)) as [HA3 E3].
  apply state_eq; [exact HA2|exact HA3|]. rewrite E2, E1, E3, pack_app, Z.shiftl_lxor, Z.shiftl_shiftl, Z.lxor_assoc by lia.
  do 3 f_equal. lia.
Qed.

Lemma xor_at_nil A pos : state_wf A -> 0 <= pos -> pos <= 200 -> xor_at A pos [] = A.
Proof.
  intros HA Hp Hs. destruct (pack_xor_at A pos [] HA (List.Forall_nil _) Hp ltac:(cbn; lia)) as [HB E].
  apply state_eq; [exact HB|exact HA|]. rewrite E. cbn [pack]. rewrite Z.shiftl_0_l. apply Z.lxor_0_r.
Qed.

Lemma xor_word_eq A t i v : state_wf A -> in_width 64 v -> 0 <= i < 25 ->
  exists A', xor_word (A ++ t) i v = Some (A' ++ t) /\ state_wf A' /\ pack 64 A' = Z.lxor (pack 64 A) (Z.shiftl v (64 * i)).
Proof.
  intros [Hl Hw] Hv Hi. unfold xor_word. rewrite cell_lookup, lookup_app_l by lia.
  destruct (lookup_lt_is_Some_2 A (Z.to_nat i) ltac:(lia)) as [w Hi']. rewrite Hi'. opt_simpl.
  rewrite set_cell_total, insert_app_l by (rewrite ?length_app; lia). eexists. split; [reflexivity|]. split.
  - split; [rewrite length_insert; exact Hl|]. apply Forall_insert; [exact Hw|].
    apply width_lxor; [lia|exact (proj1 (list.Forall_lookup _ _) Hw _ w Hi')|exact Hv].
  - rewrite pack_insert, Z2Nat.id by (assumption || lia). reflexivity.
Qed.

Lemma xor_byte_at_eq A c pos b : state_wf A -> is_u8 b -> 0 <= pos < 200 ->
  xor_byte_at (A ++ [c]) pos b = Some (xor_at A pos [b] ++ [c]).
Proof.
  intros HA Hb Hp. unfold xor_byte_at. change 0x07 with (Z.ones 3). rewrite Z.shiftr_div_pow2, Z.land_ones by lia. change (2 ^ 3) with 8.
  pose proof (Z.div_mod pos 8 ltac:(lia)) as Edm. pose proof (Z.mod_pos_bound pos 8 ltac:(lia)) as Hm.
  assert (Hv : in_width 64 (Z.shiftl b (8 * (pos mod 8)))).
  { apply (width_mono (8 + 8 * (pos mod 8))); [lia|]. apply width_shiftl; [lia|lia|exact Hb]. }
  unfold u64. rewrite Z.mod_small by exact Hv.
  destruct (xor_word_eq A [c] (pos / 8) _ HA Hv ltac:(lia)) as (A' & -> & HA' & E'). do 2 f_equal.
  destruct (pack_xor_at A pos [b] HA) as [HB E]; [apply one_byte, Hb|lia|cbn; lia|].
  apply state_eq; [exact HA'|exact HB|]. rewrite E, E'. cbn [pack].
  rewrite Z.shiftl_0_l, Z.lxor_0_r, Z.shiftl_shiftl by lia. do 2 f_equal. lia.
Qed.

Lemma xor_bytes_at_eq A c count m off n : state_wf A -> all_bytes m -> 0 <= count -> 0 <= off -> 0 <= n ->
  count + n <= 200 -> off + n <= Z.of_nat (length m) ->
  xor_bytes_at (A ++ [c]) count m off n = Some (xor_at A count (slice m off n) ++ [c]).
Proof.
  intros HA Hm Hc Ho Hn. unfold xor_bytes_at. pattern n. revert n Hn. apply range_ind.
  - intros H1 _. change (slice m off 0) with (@nil Z). rewrite xor_at_nil by (assumption || lia). reflexivity.
  - intros n Hn IH H1 H2. rewrite upto_snoc, ofor_app, IH by lia. opt_simpl. cbn [ofor].
    destruct (cell_total m (off + n)) as (b & Hb & Hbl); [lia|]. rewrite Hb. opt_simpl.
    assert (Hub : is_u8 b) by exact (proj1 (list.Forall_lookup _ _) Hm _ _ Hbl).
    assert (Hsl : Z.of_nat (length (slice m off n)) = n) by (rewrite length_slice by lia; lia).
    pose proof (slice_bytes m off n Hm) as Hsb.
    destruct (pack_xor_at A count (slice m off n) HA Hsb Hc ltac:(lia)) as [HA' _].
    rewrite xor_byte_at_eq by (assumption || lia). opt_simpl. rewrite (slice_snoc m off n b) by assumption. do 2 f_equal.
    rewrite <- xor_at_app, Hsl by (try assumption; rewrite ?length_app, ?Nat2Z.inj_add, ?Hsl; cbn; try lia; repeat constructor; apply Hub).
    reflexivity.
Qed.

(** ** The permutation keeps the words in range *)

Lemma rol_width a n : 0 <= n <= 64 -> in_width 64 a -> in_width 64 (ROL a n).
Proof.
  intros Hn Ha. unfold ROL. apply width_lxor; [lia|apply in_width_mod; lia|].
  apply (width_mono n); [lia|]. apply width_shiftr; [lia|lia|]. replace (n + (64 - n)) with 64 by lia. exact Ha.
Qed.

Lemma lane_width A x y : Forall (in_width 64) A -> in_width 64 (Keccak.lane A x y).
Proof.
  intros HA. unfold Keccak.lane. destruct (A !! _) as [w|] eqn:E; [exact (proj1 (list.Forall_lookup _ _) HA _ _ E)|apply width_0; lia].
Qed.
Lemma lanes_wf f : (forall x y, in_width 64 (f x y)) -> state_wf (Keccak.lanes f).
Proof.
  intros Hf. split; [unfold Keccak.lanes; rewrite length_fmap; apply length_upto|].
  apply list.Forall_fmap, list.Forall_true. intros i. apply Hf.
Qed.
Lemma rho_offset_range x y : 0 <= Keccak.lane Keccak.rho_offsets x y <= 64.
Proof.
  unfold Keccak.lane. destruct (_ !! _) as [o|] eqn:E; [|cbn; lia].
  assert (H : Forall (fun o => 0 <= o <= 64) Keccak.rho_offsets) by (apply (bool_decide_unpack _); vm_compute; exact I).
  exact (proj1 (list.Forall_lookup _ _) H _ _ E).
Qed.

Lemma round_spec_wf rc A : state_wf A -> in_width 64 rc -> state_wf (Keccak.keccak_round_spec rc A).
Proof.
  intros HA Hrc. assert (H1 : state_wf (Keccak.theta A)).
  { apply lanes_wf. intros x y. assert (Hc : forall x, in_width 64 (Keccak.column_parity A x))
      by (intros z; unfold Keccak.column_parity; repeat (apply width_lxor; [lia| |]); apply lane_width, HA).
    apply width_lxor; [lia|apply lane_width, HA|]. apply width_lxor; [lia|apply Hc|]. apply rol_width; [lia|apply Hc]. }
  assert (H2 : state_wf (Keccak.rho (Keccak.theta A))).
  { apply lanes_wf. intros x y. cbv zeta. case_if; [apply lane_width, H1|apply rol_width; [apply rho_offset_range|apply lane_width, H1]]. }
  assert (H3 : state_wf (Keccak.pi (Keccak.rho (Keccak.theta A)))) by (apply lanes_wf; intros x y; apply lane_width, H2).
  assert (H4 : state_wf (Keccak.chi (Keccak.pi (Keccak.rho (Keccak.theta A))))).
  { apply lanes_wf. intros x y. apply width_lxor; [lia|apply lane_width, H3|]. apply land_width; [lia|apply in_width_mod; lia|apply lane_width, H3]. }
  unfold Keccak.keccak_round_spec, Keccak.iota. destruct H4 as [Hl Hw]. destruct (Keccak.chi _) as [|a B]; [discriminate Hl|].
  inversion_clear Hw as [|? ? Ha HB]. split; [exact Hl|]. constructor; [apply width_lxor; [lia|assumption..]|exact HB].
Qed.

Lemma keccak_f_wf A : state_wf A -> state_wf (keccak_f A).
Proof.
  intros HA. unfold keccak_f. assert (Hrc : Forall (in_width 64) KeccakF_RoundConstants) by (apply (bool_decide_unpack _); vm_compute; exact I).
  revert A HA. induction Hrc as [|rc rcs H _ IH]; intros A HA; [exact HA|]. cbn [foldl]. apply IH, round_spec_wf; assumption.
Qed.

Lemma permute_26 A c : length A = 25%nat -> permute (A ++ [c]) = Some (keccak_f A ++ [c]).
Proof.
  intros Hl. unfold permute. rewrite <- Hl, take_app_length, drop_app_length.
  destruct (permute_state_eq A Hl) as [-> _]. reflexivity.
Qed.

(** ** Absorbing *)

(** A sponge with [r] bytes of rate takes a byte; it has a state and a count. *)
Definition absorb_byte (r : Z) (st : list Z * Z) (b : Z) : list Z * Z :=
  let A := xor_at (fst st) (snd st) [b] in if snd st + 1 =? r then (keccak_f A, 0) else (A, snd st + 1).
Definition absorb_bytes (r : Z) (st : list Z * Z) (bs : bytes) : list Z * Z := foldl (absorb_byte r) st bs.

Lemma absorb_bytes_app r st b1 b2 : absorb_bytes r st (b1 ++ b2) = absorb_bytes r (absorb_bytes r st b1) b2.
Proof. apply foldl_app. Qed.

Section absorbing.
Context (r : Z).
Context (Hr : is_rate r).

Definition sponge_wf (st : list Z * Z) : Prop := state_wf (fst st) /\ 0 <= snd st < r.

Lemma absorb_partial A c bs : sponge_wf (A, c) -> all_bytes bs -> c + Z.of_nat (length bs) < r ->
  absorb_bytes r (A, c) bs = (xor_at A c bs, c + Z.of_nat (length bs)).
Proof using Hr.
  intros [HA Hc] Hb. cbn [fst snd] in *. assert (Hr' : r <= 192) by apply Hr. induction bs as [|b bs IH] using rev_ind; intros Hl.
  - cbn. rewrite xor_at_nil, Z.add_0_r by (assumption || cbn in Hl; lia). reflexivity.
  - apply Forall_app in Hb. destruct Hb as [Hb Hb1]. rewrite length_app, Nat2Z.inj_add in *. cbn [length] in *.
    unfold absorb_bytes in *. rewrite foldl_app, IH by (assumption || lia). cbn [foldl]. unfold absorb_byte. cbn [fst snd].
    destruct (Z.eqb_spec (c + Z.of_nat (length bs) + 1) r); [lia|].
    rewrite xor_at_app by (try assumption; rewrite ?length_app; cbn; lia). f_equal. lia.
Qed.

Lemma absorb_full A c bs : sponge_wf (A, c) -> all_bytes bs -> c + Z.of_nat (length bs) = r ->
  absorb_bytes r (A, c) bs = (keccak_f (xor_at A c bs), 0).
Proof using Hr.
  intros HA Hb Hl. destruct bs as [|b bs] using rev_ind; [cbn in Hl; destruct HA; cbn in *; lia|]. clear IHbs.
  apply Forall_app in Hb. destruct Hb as [Hb Hb1]. rewrite length_app, Nat2Z.inj_add in *. cbn [length] in *.
  unfold absorb_bytes. rewrite foldl_app. fold (absorb_bytes r (A, c) bs). rewrite absorb_partial by (assumption || lia).
  cbn [foldl]. unfold absorb_byte. cbn [fst snd]. destruct (Z.eqb_spec (c + Z.of_nat (length bs) + 1) r); [|lia].
  rewrite xor_at_app by (try apply HA; try assumption; rewrite ?length_app; destruct Hr, HA; cbn in *; lia). reflexivity.
Qed.

Lemma absorb_byte_wf st b : sponge_wf st -> is_u8 b -> sponge_wf (absorb_byte r st b).
Proof using Hr.
  intros [HA Hc] Hb. unfold absorb_byte. destruct (pack_xor_at (fst st) (snd st) [b] HA) as [HB _];
    [apply one_byte, Hb|lia|destruct Hr; cbn; lia|].
  destruct (Z.eqb_spec (snd st + 1) r); split; cbn [fst snd]; [apply keccak_f_wf, HB|lia|exact HB|lia].
Qed.
Lemma absorb_bytes_wf bs : forall st, sponge_wf st -> all_bytes bs -> sponge_wf (absorb_bytes r st bs).
Proof using Hr.
  induction bs as [|b bs IH]; intros st Hst Hb; [exact Hst|]. inversion_clear Hb as [|? ? Hb1 Hb2].
  apply IH; [apply absorb_byte_wf|]; assumption.
Qed.

(** The state in memory: 25 words and the count. *)
Definition inc_state (st : list Z * Z) : list Z := fst st ++ [snd st].

Lemma inc_state_pair A c : inc_state (A, c) = A ++ [c].
Proof using Type. reflexivity. Qed.
Lemma inc_count_eq A c : length A = 25%nat -> inc_count (A ++ [c]) = Some c.
Proof using Type. intros Hl. unfold inc_count. change 25 with (Z.of_nat 25). rewrite <- Hl. apply cell_middle. Qed.
Lemma set_count_eq A c c' : length A = 25%nat -> set_cell (A ++ [c]) 25 c' = Some (A ++ [c']).
Proof using Type. intros Hl. change 25 with (Z.of_nat 25). rewrite <- Hl. apply set_cell_middle. Qed.

Lemma keccak_inc_absorb_from_eq m : all_bytes m -> forall fuel st off mlen, sponge_wf st ->
  0 <= off -> 0 <= mlen -> off + mlen <= Z.of_nat (length m) -> mlen + snd st < r * Z.of_nat fuel ->
  keccak_inc_absorb_from fuel (inc_state st) r m off mlen = Some (inc_state (absorb_bytes r st (slice m off mlen))).
Proof using Hr.
  intros Hm. induction fuel as [|fuel IH]; intros [A c] off mlen Hst Ho Hml Hl Hf; [destruct Hst; cbn in *; lia|].
  pose proof Hst as [HA Hc]. cbn [fst snd] in *. pose proof (proj1 HA) as HlA. cbn [keccak_inc_absorb_from]. rewrite inc_state_pair, inc_count_eq by exact HlA. opt_simpl. assert (Hr' : r <= 192) by apply Hr.
  assert (Hsl : forall n, 0 <= n -> off + n <= Z.of_nat (length m) -> Z.of_nat (length (slice m off n)) = n) by (intros n H1 H2; rewrite length_slice by lia; lia).
  destruct (Z.leb_spec r (mlen + c)) as [Hge|Hlt].
  - rewrite xor_bytes_at_eq by (assumption || lia). opt_simpl.
    destruct (pack_xor_at A c (slice m off (r - c)) HA (slice_bytes _ _ _ Hm)) as [HB _]; [lia|rewrite Hsl by lia; lia|].
    rewrite set_count_eq by apply HB. rewrite some_bind, permute_26 by apply HB. rewrite some_bind.
    rewrite <- inc_state_pair. rewrite IH by (first [cbn [snd]; nia | split; cbn [fst snd]; [apply keccak_f_wf, HB|lia]]). apply (f_equal (fun st => Some (inc_state st))).
    replace (slice m off mlen) with (slice m off (r - c) ++ slice m (off + (r - c)) (mlen - (r - c))) by (rewrite <- slice_split by lia; f_equal; lia).
    rewrite absorb_bytes_app, (absorb_full A c _ Hst (slice_bytes _ _ _ Hm)) by (rewrite Hsl by lia; lia). reflexivity.
  - rewrite xor_bytes_at_eq by (assumption || lia). opt_simpl.
    destruct (pack_xor_at A c (slice m off mlen) HA (slice_bytes _ _ _ Hm)) as [HB _]; [lia|rewrite Hsl by lia; lia|].
    rewrite set_count_eq by apply HB. rewrite (absorb_partial A c _ Hst (slice_bytes _ _ _ Hm)) by (rewrite Hsl by lia; lia).
    rewrite Hsl, inc_state_pair by lia. reflexivity.
Qed.

Lemma keccak_inc_absorb_eq st m mlen : sponge_wf st -> all_bytes m -> 0 <= mlen <= Z.of_nat (length m) ->
  keccak_inc_absorb (inc_state st) r m mlen = Some (inc_state (absorb_bytes r st (take (Z.to_nat mlen) m))).
Proof using Hr.
  intros Hst Hm Hl. assert (H0r : 0 < r) by apply Hr. unfold keccak_inc_absorb.
  rewrite keccak_inc_absorb_from_eq; try assumption; try lia; [unfold slice; rewrite drop_0; reflexivity|].
  pose proof (Z.div_mod mlen r ltac:(lia)). pose proof (Z.mod_pos_bound mlen r ltac:(lia)). pose proof (Z.div_pos mlen r ltac:(lia) ltac:(lia)).
  destruct Hst. nia.
Qed.

(** ** Padding *)

Definition pad_state (p : Z) (st : list Z * Z) : list Z := xor_at (xor_at (fst st) (snd st) [p]) (r - 1) [128].

Lemma pad_state_wf p st : sponge_wf st -> is_u8 p -> state_wf (pad_state p st).
Proof using Hr.
  intros [HA Hc] Hp. assert (Hr' : r <= 192) by apply Hr. destruct (pack_xor_at (fst st) (snd st) [p] HA) as [HB _]; [apply one_byte, Hp|lia|cbn; lia|].
  refine (proj1 (pack_xor_at _ (r - 1) [128] HB _ _ _)); [apply one_byte; split; lia|destruct Hr; lia|cbn; lia].
Qed.

Lemma keccak_inc_finalize_eq st p : sponge_wf st -> is_u8 p ->
  keccak_inc_finalize (inc_state st) r p = Some (inc_state (pad_state p st, 0)).
Proof using Hr.
  intros [HA Hc] Hp. assert (Hr' : r <= 192) by apply Hr. unfold keccak_inc_finalize, inc_state. rewrite inc_count_eq by apply HA. opt_simpl.
  rewrite xor_byte_at_eq by (assumption || lia). opt_simpl.
  destruct (pack_xor_at (fst st) (snd st) [p] HA) as [HB _]; [apply one_byte, Hp|lia|cbn; lia|].
  rewrite xor_byte_at_eq by (try assumption; try lia; split; lia). opt_simpl.
  rewrite set_count_eq by apply (pad_state_wf p st (conj HA Hc) Hp). reflexivity.
Qed.
End absorbing.

(** ** The one-shot sponge *)

Lemma load64_eq m off : all_bytes m -> 0 <= off -> off + 8 <= Z.of_nat (length m) -> load64 m off = Some (pack 8 (slice m off 8)).
Proof.
  intros Hm Ho Hl. unfold load64. enough (H : forall n, 0 <= n -> n <= 8 ->
    ofor (upto n) (fun i r => b ← cell m (off + i); Some (Z.lor r (u64 (Z.shiftl b (8 * i))))) 0 = Some (pack 8 (slice m off n))) by (apply H; lia).
  apply (range_ind (fun n => n <= 8 -> _)); [reflexivity|]. intros n Hn IH H8. rewrite upto_snoc, ofor_app, IH by lia. opt_simpl. cbn [ofor].
  destruct (cell_total m (off + n)) as (b & Hb & Hbl); [lia|]. rewrite Hb. opt_simpl.
  assert (Hub : is_u8 b) by exact (proj1 (list.Forall_lookup _ _) Hm _ _ Hbl).
  rewrite (slice_snoc m off n b), pack_app, length_slice, Z2Nat.id by (assumption || lia). cbn [pack]. rewrite Z.shiftl_0_l, Z.lxor_0_r.
  unfold u64. rewrite Z.mod_small.
  - rewrite lor_disjoint; [reflexivity|lia|]. pose proof (pack_width 8 (slice m off n) ltac:(lia) (slice_bytes _ _ _ Hm)) as H.
    rewrite length_slice, Z2Nat.id in H by lia. exact H.
  - apply (width_mono (8 + 8 * n)); [lia|]. apply width_shiftl; [lia|lia|exact Hub].
Qed.

Lemma absorb_block_eq A r m off : state_wf A -> all_bytes m -> is_rate r -> 0 <= off -> off + r <= Z.of_nat (length m) ->
  absorb_block A r m off = Some (xor_at A 0 (slice m off r)).
Proof.
  intros HA Hm [Hr Hr8] Ho Hl. unfold absorb_block. replace (slice m off r) with (slice m off (8 * (r / 8))) by (f_equal; lia).
  enough (H : forall n, 0 <= n -> n <= r / 8 ->
    ofor (upto n) (fun i s => w ← load64 m (off + 8 * i); xor_word s i w) A = Some (xor_at A 0 (slice m off (8 * n)))) by (apply H; lia).
  apply (range_ind (fun n => n <= r / 8 -> _)).
  - intros _. change (slice m off (8 * 0)) with (@nil Z). rewrite xor_at_nil by (assumption || lia). reflexivity.
  - intros n Hn IH H8. rewrite upto_snoc, ofor_app, IH, some_bind by lia. cbn [ofor].
    rewrite load64_eq, some_bind by (assumption || lia).
    assert (Hsl : forall o k, 0 <= o -> 0 <= k -> o + k <= Z.of_nat (length m) -> Z.of_nat (length (slice m o k)) = k) by (intros o k H1 H2 H3; rewrite length_slice; lia).
    destruct (pack_xor_at A 0 (slice m off (8 * n)) HA (slice_bytes _ _ _ Hm)) as [HB E]; [lia|rewrite Hsl; lia|].
    assert (Hv : in_width 64 (pack 8 (slice m (off + 8 * n) 8))).
    { pose proof (pack_width 8 (slice m (off + 8 * n) 8) ltac:(lia) (slice_bytes _ _ _ Hm)) as H. rewrite Hsl in H by lia. exact H. }
    destruct (xor_word_eq _ [] n _ HB Hv ltac:(lia)) as (B & EB & HB' & EB'). rewrite !app_nil_r in EB. rewrite EB, some_bind. f_equal.
    destruct (pack_xor_at A 0 (slice m off (8 * (n + 1))) HA (slice_bytes _ _ _ Hm)) as [HC EC]; [lia|rewrite Hsl; lia|].
    apply state_eq; [exact HB'|exact HC|]. rewrite EB', E, EC. replace (8 * (n + 1)) with (8 * n + 8) by lia.
    rewrite slice_split, pack_app, Hsl, Z.shiftl_lxor, Z.shiftl_shiftl, Z.lxor_assoc by lia. do 3 f_equal. lia.
Qed.

Lemma absorb_blocks_eq r m : is_rate r -> all_bytes m -> forall fuel A off mlen, state_wf A ->
  0 <= off -> 0 <= mlen -> off + mlen <= Z.of_nat (length m) -> mlen < r * Z.of_nat fuel ->
  exists A' off' mlen', absorb_blocks fuel A r m off mlen = Some (A', off', mlen') /\ state_wf A' /\ 0 <= off' /\ 0 <= mlen' < r /\
    off' + mlen' = off + mlen /\ absorb_bytes r (A, 0) (slice m off mlen) = (xor_at A' 0 (slice m off' mlen'), mlen').
Proof.
  intros Hr Hm. assert (Hr' : 0 < r <= 192) by apply Hr. induction fuel as [|fuel IH]; intros A off mlen HA Ho Hml Hl Hf; [lia|].
  assert (Hsl : forall o k, 0 <= o -> 0 <= k -> o + k <= Z.of_nat (length m) -> Z.of_nat (length (slice m o k)) = k) by (intros o k H1 H2 H3; rewrite length_slice; lia).
  cbn [absorb_blocks]. destruct (Z.leb_spec r mlen) as [Hle|Hlt].
  - rewrite absorb_block_eq, some_bind by (assumption || lia).
    destruct (pack_xor_at A 0 (slice m off r) HA (slice_bytes _ _ _ Hm)) as [HB _]; [lia|rewrite Hsl by lia; lia|].
    destruct (permute_state_eq _ (proj1 HB)) as [-> _]. rewrite some_bind.
    destruct (IH (keccak_f (xor_at A 0 (slice m off r))) (off + r) (mlen - r)) as (A' & off' & mlen' & E & HA' & Ho' & Hm' & Hs & Ha); [apply keccak_f_wf, HB|lia..|].
    exists A', off', mlen'. split_and!; [exact E|exact HA'|lia|lia|lia|lia|].
    replace (slice m off mlen) with (slice m off r ++ slice m (off + r) (mlen - r)) by (rewrite <- slice_split by lia; f_equal; lia).
    rewrite absorb_bytes_app, (absorb_full r Hr A 0 (slice m off r)); [exact Ha|split; cbn; [exact HA|lia]|apply slice_bytes, Hm|rewrite Hsl; lia].
  - exists A, off, mlen. split_and!; [reflexivity|exact HA|lia|lia|lia|lia|].
    rewrite (absorb_partial r Hr); [rewrite Hsl by lia; reflexivity|split; cbn; [exact HA|lia]|apply slice_bytes, Hm|rewrite Hsl; lia].
Qed.

(** The last block: what is left of the input, the domain byte and the final bit. *)
Lemma padded_block rest p r : all_bytes rest -> is_u8 p -> p < 128 -> 0 < r <= 192 -> Z.of_nat (length rest) < r ->
  exists t, (t ← mem_write (zeros 200) 0 rest; t ← set_cell t (Z.of_nat (length rest)) p; last ← cell t (r - 1);
             set_cell t (r - 1) (Z.lor last 128)) = Some t /\ all_bytes t /\ length t = 200%nat /\
    pack 8 (slice t 0 r) = Z.lxor (Z.lxor (pack 8 rest) (Z.shiftl p (8 * Z.of_nat (length rest)))) (Z.shiftl 128 (8 * (r - 1))).
Proof.
  intros Hb Hp Hp7 Hr Hl. set (n := length rest) in *. rewrite mem_write_total by (rewrite ?length_zeros; lia). rewrite some_bind.
  set (t0 := take _ _ ++ _). assert (Et0 : t0 = rest ++ replicate (200 - n) 0).
  { unfold t0. cbn [take Z.to_nat app]. unfold zeros. rewrite drop_replicate. f_equal. }
  clearbody t0. subst t0. set (t0 := rest ++ replicate (200 - n) 0). assert (Hl0 : length t0 = 200%nat) by (unfold t0; rewrite length_app, length_replicate; lia).
  assert (Hz : forall i, (n <= i < 200)%nat -> t0 !! i = Some 0).
  { intros i Hi. unfold t0. rewrite lookup_app_r by lia. apply lookup_replicate. split; [reflexivity|lia]. }
  assert (Hb0 : all_bytes t0) by (apply Forall_app; split; [exact Hb|apply all_bytes_replicate; split; lia]).
  rewrite set_cell_total, some_bind, Nat2Z.id by lia. set (t1 := <[n := p]> t0). assert (Hl1 : length t1 = 200%nat) by (unfold t1; rewrite length_insert; exact Hl0).
  assert (Hlast : exists v, t1 !! Z.to_nat (r - 1) = Some v /\ is_u8 v /\ v < 128).
  { destruct (decide (Z.to_nat (r - 1) = n)) as [->|Hne]; [exists p; split; [apply list_lookup_insert_eq; lia|auto]|].
    exists 0. split; [unfold t1; rewrite list_lookup_insert_ne by lia; apply Hz; lia|split; [split; lia|lia]]. }
  destruct Hlast as (v & Hv & Hvb & Hv7). rewrite cell_lookup, Hv, some_bind, set_cell_total by lia.
  assert (Elor : Z.lor v 128 = Z.lxor v 128).
  { change 128 with (Z.shiftl 1 7). apply lor_disjoint; [lia|]. split; [apply Hvb|exact Hv7]. }
  rewrite Elor. eexists. split; [reflexivity|]. set (t2 := <[_ := _]> t1).
  assert (Hb2 : all_bytes t2) by (apply Forall_insert; [apply Forall_insert; assumption|apply width_lxor; [lia|exact Hvb|split; lia]]).
  assert (Hl2 : length t2 = 200%nat) by (unfold t2; rewrite length_insert; exact Hl1). split; [exact Hb2|]. split; [exact Hl2|].
  assert (E1 : pack 8 t1 = Z.lxor (pack 8 t0) (Z.shiftl p (8 * Z.of_nat n))).
  { unfold t1. rewrite <- (pack_insert 8 t0 n 0 p) by (lia || apply Hz; lia). rewrite Z.lxor_0_l. reflexivity. }
  assert (E2 : pack 8 t2 = Z.lxor (pack 8 t1) (Z.shiftl 128 (8 * (r - 1)))).
  { unfold t2. rewrite (pack_insert 8 t1 _ v) by (lia || exact Hv). do 2 f_equal. lia. }
  assert (E0 : pack 8 t0 = pack 8 rest) by (unfold t0; rewrite pack_app, pack_zeros, Z.shiftl_0_l by lia; apply Z.lxor_0_r).
  rewrite <- E0, <- E1, <- E2. unfold slice. rewrite drop_0. rewrite <- (take_drop (Z.to_nat r) t2) at 2. rewrite pack_app by lia.
  assert (Ed : drop (Z.to_nat r) t2 = replicate (200 - Z.to_nat r) 0).
  { unfold t2, t1. rewrite !drop_insert_lt by lia. unfold t0. rewrite drop_app_ge by lia. rewrite drop_replicate. f_equal. lia. }
  rewrite Ed, pack_zeros, Z.shiftl_0_l, Z.lxor_0_r by lia. reflexivity.
Qed.

Lemma state_zeros : state_wf (zeros 25).
Proof. split; [reflexivity|]. apply Forall_replicate, width_0. lia. Qed.

Lemma keccak_absorb_eq r m mlen p : is_rate r -> all_bytes m -> 0 <= mlen <= Z.of_nat (length m) -> is_u8 p -> p < 128 ->
  keccak_absorb r m mlen p = Some (pad_state r p (absorb_bytes r (zeros 25, 0) (take (Z.to_nat mlen) m))).
Proof.
  intros Hr Hm Hl Hp Hp7. assert (Hr' : 0 < r <= 192) by apply Hr. unfold keccak_absorb.
  pose proof (Z.div_mod mlen r ltac:(lia)). pose proof (Z.mod_pos_bound mlen r ltac:(lia)). pose proof (Z.div_pos mlen r ltac:(lia) ltac:(lia)).
  destruct (absorb_blocks_eq r m Hr Hm (S (Z.to_nat (mlen / r))) (zeros 25) 0 mlen state_zeros) as (A & off & ml & -> & HA & Ho & Hml & Hs & Ha); [lia|lia|lia|nia|].
  opt_simpl. destruct (mem_read_total m off ml) as (rest & -> & Hrl & Hrv); [lia..|]. rewrite some_bind.
  change rest with rest in Hrv. fold (slice m off ml) in Hrv. subst rest. set (rest := slice m off ml) in *.
  assert (Hrb : all_bytes rest) by apply slice_bytes, Hm. assert (El : Z.of_nat (length rest) = ml) by lia.
  destruct (padded_block rest p r Hrb Hp Hp7 Hr' ltac:(lia)) as (t & Et & Htb & Htl & Hpack). rewrite El in *.
  destruct (mem_write (zeros 200) 0 rest) as [t0|]; [|discriminate Et]. rewrite some_bind in Et |- *.
  destruct (set_cell t0 ml p) as [t1|]; [|discriminate Et]. rewrite some_bind in Et |- *.
  destruct (cell t1 (r - 1)) as [v|]; [|discriminate Et]. rewrite some_bind in Et |- *. rewrite Et, some_bind.
  rewrite absorb_block_eq by (assumption || lia). f_equal. change (take (Z.to_nat mlen) m) with (slice m 0 mlen). rewrite Ha.
  assert (Hlt : Z.of_nat (length (slice t 0 r)) = r) by (rewrite length_slice; lia).
  destruct (pack_xor_at A 0 (slice t 0 r) HA (slice_bytes _ _ _ Htb)) as [HW1 E1]; [lia|lia|].
  destruct (pack_xor_at A 0 rest HA Hrb) as [HW2 E2]; [lia|lia|].
  assert (Hwf : sponge_wf r (xor_at A 0 rest, ml)) by (split; cbn [fst snd]; [exact HW2|lia]).
  apply state_eq; [exact HW1|exact (pad_state_wf r Hr p _ Hwf Hp)|]. unfold pad_state. cbn [fst snd].
  destruct (pack_xor_at _ ml [p] HW2 (one_byte _ Hp)) as [HW3 E3]; [lia|cbn; lia|].
  destruct (pack_xor_at _ (r - 1) [128] HW3) as [HW4 E4]; [apply one_byte; split; lia|lia|cbn; lia|].
  rewrite E4, E3, E2, E1, Hpack. cbn [pack]. rewrite !Z.shiftl_0_l, !Z.lxor_0_r, !Z.mul_0_r, !Z.shiftl_0_r. lxor_solve.
Qed.

(** ** Squeezing *)

Lemma as_cells_lookup k n l i j w : 0 <= n -> l !! i = Some w -> 0 <= j < n ->
  as_cells k n l !! (Z.to_nat n * i + Z.to_nat j)%nat = Some (Z.shiftr w (k * j) mod 2 ^ k).
Proof.
  intros Hn Hi Hj. rewrite <- (take_drop_middle l i w Hi). rewrite as_cells_app.
  pose proof (lookup_lt_Some _ _ _ Hi). assert (Hl : length (as_cells k n (take i l)) = (Z.to_nat n * i)%nat) by (rewrite length_as_cells, length_take; lia).
  rewrite lookup_app_r, Hl by lia. replace (Z.to_nat n * i + Z.to_nat j - Z.to_nat n * i)%nat with (Z.to_nat j) by lia.
  unfold as_cells. cbn [fmap list_fmap concat]. rewrite lookup_app_l by (rewrite length_unpack; lia). unfold unpack. rewrite list_lookup_fmap, upto_lookup by lia. reflexivity.
Qed.

Lemma state_bytes_eq A r : length A = 25%nat -> is_rate r -> state_bytes A r = slice (as_bytes A) 0 r.
Proof.
  intros Hl [Hr Hr8]. unfold state_bytes, slice. rewrite drop_0.
  assert (E : (fun i => word_bytes (default 0 (cell A i))) <$> upto (r / 8) = unpack 8 8 <$> take (Z.to_nat (r / 8)) A).
  { apply list_eq. intros i. rewrite !list_lookup_fmap. destruct (decide (i < Z.to_nat (r / 8))%nat) as [Hi|Hi].
    - replace i with (Z.to_nat (Z.of_nat i)) at 1 by lia. rewrite upto_lookup by lia. cbn [fmap option_fmap option_map].
      rewrite cell_lookup, Nat2Z.id, lookup_take_lt by lia. destruct (lookup_lt_is_Some_2 A i ltac:(lia)) as [w ->]. reflexivity.
    - rewrite (proj2 (lookup_ge_None _ _)) by (rewrite length_upto; lia). rewrite lookup_take_ge by lia. reflexivity. }
  rewrite E. clear E. fold (as_cells 8 8 (take (Z.to_nat (r / 8)) A)).
  rewrite <- (take_drop (Z.to_nat (r / 8)) A) at 2. unfold as_bytes. rewrite as_cells_app.
  rewrite take_app_le; [|rewrite (length_as_cells 8 8), length_take; lia]. symmetry. apply take_ge.
  rewrite (length_as_cells 8 8), length_take. lia.
Qed.

Lemma byte_at_eq A c pos : length A = 25%nat -> 0 <= pos < 200 -> byte_at (A ++ [c]) pos = as_bytes A !! Z.to_nat pos.
Proof.
  intros Hl Hp. unfold byte_at. change 0x07 with (Z.ones 3). rewrite Z.shiftr_div_pow2, Z.land_ones by lia. change (2 ^ 3) with 8.
  pose proof (Z.div_mod pos 8 ltac:(lia)) as Edm. pose proof (Z.mod_pos_bound pos 8 ltac:(lia)) as Hm.
  rewrite cell_lookup, lookup_app_l by lia. destruct (lookup_lt_is_Some_2 A (Z.to_nat (pos / 8)) ltac:(lia)) as [w Hw]. rewrite Hw. opt_simpl.
  pose proof (as_cells_lookup 8 8 A _ (pos mod 8) w ltac:(lia) Hw Hm) as E. unfold as_bytes. unfold u8. rewrite <- E. f_equal. lia.
Qed.

Lemma copy_bytes_at_eq A c h off pos n : length A = 25%nat -> 0 <= pos -> 0 <= n -> pos + n <= 200 -> 0 <= off -> off + n <= Z.of_nat (length h) ->
  copy_bytes_at h off (A ++ [c]) pos n = mem_write h off (slice (as_bytes A) pos n).
Proof.
  intros Hl Hp Hn Hs Ho Hh. unfold copy_bytes_at.
  rewrite (ofor_writes (fun i => [default 0 (as_bytes A !! Z.to_nat (pos + i))]) 1 _ n h off); try lia; try reflexivity.
  - f_equal. rewrite concat_singletons. apply list_eq. intros i. unfold slice. rewrite list_lookup_fmap.
    destruct (decide (i < Z.to_nat n)%nat) as [Hi|Hi].
    + replace i with (Z.to_nat (Z.of_nat i)) at 1 by lia. rewrite upto_lookup by lia. cbn [fmap option_fmap option_map].
      rewrite lookup_take_lt, lookup_drop by lia. replace (Z.to_nat pos + i)%nat with (Z.to_nat (pos + Z.of_nat i)) by lia.
      destruct (lookup_lt_is_Some_2 (as_bytes A) (Z.to_nat (pos + Z.of_nat i)) ltac:(rewrite length_as_bytes; lia)) as [w ->]. reflexivity.
    + rewrite (proj2 (lookup_ge_None _ _)) by (rewrite length_upto; lia). rewrite lookup_take_ge by lia. reflexivity.
  - intros i h' Hi Hh'. rewrite byte_at_eq by lia.
    destruct (lookup_lt_is_Some_2 (as_bytes A) (Z.to_nat (pos + i)) ltac:(rewrite length_as_bytes; lia)) as [w ->]. opt_simpl. cbn [default].
    rewrite set_cell_mem_write. f_equal. lia.
Qed.

Section squeezing.
Context (r : Z).
Context (Hr : is_rate r).

Lemma take_squeeze_stable n m k A : (Z.of_nat k <= r * Z.of_nat n) -> (n <= m)%nat -> take k (squeeze_blocks_spec m A r) = take k (squeeze_blocks_spec n A r).
Proof using Hr.
  intros Hk Hm. induction Hm as [|m Hm IH]; [reflexivity|]. rewrite squeeze_spec_S, take_app_le; [exact IH|].
  pose proof (squeeze_spec_length m A r Hr). destruct Hr. nia.
Qed.

Lemma mem_write_nil h off : 0 <= off <= Z.of_nat (length h) -> mem_write h off [] = Some h.
Proof using Type. intros Ho. rewrite mem_write_total by (cbn; lia). cbn [length app]. rewrite Nat.add_0_r, take_drop. reflexivity. Qed.

(** What is written does not depend on what the buffer held. *)
Lemma inc_squeeze_blocks_eq fuel : forall A c outlen, state_wf A -> 0 <= c < r -> 0 <= outlen -> outlen <= r * (Z.of_nat fuel - 1) ->
  exists st, sponge_wf r st /\ forall h off, 0 <= off -> off + outlen <= Z.of_nat (length h) ->
    inc_squeeze_blocks fuel h off outlen (A ++ [c]) r =
      h' ← mem_write h off (take (Z.to_nat outlen) (squeeze_blocks_spec fuel A r)); Some (h', inc_state st).
Proof using Hr.
  assert (Hr' : 0 < r <= 192) by apply Hr. induction fuel as [|fuel IH]; intros A c outlen HA Hc Ho Hf; [lia|].
  destruct (Z.ltb_spec 0 outlen) as [Hpos|Hz].
  - pose proof (keccak_f_wf A HA) as HA'. assert (Hlb : length (as_bytes (keccak_f A)) = 200%nat) by (rewrite length_as_bytes, (proj1 HA'); reflexivity).
    assert (Hsl : Z.of_nat (length (slice (as_bytes (keccak_f A)) 0 (Z.min outlen r))) = Z.min outlen r) by (rewrite length_slice; lia).
    assert (Hfr : outlen - Z.min outlen r <= r * (Z.of_nat fuel - 1)).
    { rewrite Nat2Z.inj_succ in Hf. destruct (Z.min_spec outlen r) as [[Hm ->]|[Hm ->]]; [|lia]. destruct fuel; nia. }
    destruct (IH (keccak_f A) (r - Z.min outlen r) (outlen - Z.min outlen r) HA') as (st & Hst & E); [lia|lia|exact Hfr|].
    exists st. split; [exact Hst|]. intros h off Hoff Hh. cbn [inc_squeeze_blocks]. rewrite (proj2 (Z.ltb_lt 0 outlen)) by lia.
    rewrite permute_26, some_bind by apply HA. cbv zeta.
    rewrite copy_bytes_at_eq by (first [apply HA' | lia]).
    destruct (mem_write h off (slice (as_bytes (keccak_f A)) 0 (Z.min outlen r))) as [h1|] eqn:Eh1.
    2: { rewrite mem_write_total in Eh1 by lia. discriminate. }
    rewrite some_bind, set_count_eq, some_bind by apply HA'. pose proof (mem_write_length _ _ _ _ Eh1) as Hlh.
    rewrite E by lia. apply (f_equal (fun o => h' ← o; Some (h', inc_state st))).
    pose proof (mem_write_adjacent h off _ (take (Z.to_nat (outlen - Z.min outlen r)) (squeeze_blocks_spec fuel (keccak_f A) r)) _ Eh1) as Ha.
    rewrite Hsl in Ha. rewrite Ha by (rewrite length_take; lia). apply (f_equal (mem_write h off)).
    change (squeeze_blocks_spec (S fuel) A r) with (state_bytes (keccak_f A) r ++ squeeze_blocks_spec fuel (keccak_f A) r).
    rewrite take_app, state_bytes_eq by (apply HA' || exact Hr). unfold slice. rewrite drop_0, take_take, length_take, Hlb.
    f_equal; f_equal; lia.
  - exists (A, c). split; [split; assumption|]. intros h off Hoff Hh. cbn [inc_squeeze_blocks]. rewrite (proj2 (Z.ltb_ge 0 outlen)) by lia.
    assert (outlen = 0) as -> by lia. change (Z.to_nat 0) with 0%nat. rewrite take_0, mem_write_nil by lia. reflexivity.
Qed.

(** The bytes that follow: what is pending, then the blocks of the next states. *)
Definition inc_stream (st : list Z * Z) (n : Z) : bytes :=
  take (Z.to_nat n) (slice (as_bytes (fst st)) (r - snd st) (snd st) ++ squeeze_blocks_spec (S (S (Z.to_nat (n / r)))) (fst st) r).

Lemma inc_stream_fresh A n : 0 <= n -> inc_stream (A, 0) n = sponge_output A n r.
Proof using Hr.
  intros Hn. assert (Hr' : 0 < r <= 192) by apply Hr. unfold inc_stream, sponge_output. cbn [fst snd].
  change (slice (as_bytes A) (r - 0) 0) with (@nil Z). cbn [app]. apply take_squeeze_stable; [|lia].
  pose proof (Z.div_mod n r ltac:(lia)). pose proof (Z.mod_pos_bound n r ltac:(lia)). pose proof (Z.div_pos n r ltac:(lia) ltac:(lia)). nia.
Qed.

Lemma inc_stream_bytes st n : all_bytes (inc_stream st n).
Proof using Type. apply Forall_take, Forall_app. split; [apply slice_bytes, as_bytes_bytes|apply squeeze_spec_bytes]. Qed.

Lemma length_inc_stream st n : sponge_wf r st -> 0 <= n -> Z.of_nat (length (inc_stream st n)) = n.
Proof using Hr.
  intros [HA Hc] Hn. assert (Hr' : 0 < r <= 192) by apply Hr. unfold inc_stream. rewrite length_take, length_app.
  pose proof (squeeze_spec_length (S (S (Z.to_nat (n / r)))) (fst st) r Hr) as Hl.
  pose proof (Z.div_mod n r ltac:(lia)). pose proof (Z.mod_pos_bound n r ltac:(lia)). pose proof (Z.div_pos n r ltac:(lia) ltac:(lia)). nia.
Qed.

(** Squeezing writes the bytes that follow and leaves a state that does not depend on
    what the buffer held. *)
Lemma keccak_inc_squeeze_eq st n : sponge_wf r st -> 0 <= n ->
  exists st', sponge_wf r st' /\ forall h, n <= Z.of_nat (length h) ->
    keccak_inc_squeeze h n (inc_state st) r = h' ← mem_write h 0 (inc_stream st n); Some (h', inc_state st').
Proof using Hr.
  destruct st as [A c]. intros [HA Hc] Hn. cbn [fst snd] in *. assert (Hr' : 0 < r <= 192) by apply Hr.
  pose proof (Z.div_mod n r ltac:(lia)) as Hdm. pose proof (Z.mod_pos_bound n r ltac:(lia)) as Hmb. pose proof (Z.div_pos n r ltac:(lia) ltac:(lia)) as Hdp.
  set (i := Z.min n c). set (fuel := S (S (Z.to_nat (n / r)))).
  destruct (inc_squeeze_blocks_eq fuel A (c - i) (n - i) HA) as (st & Hst & E); [lia|lia|unfold fuel; nia|].
  exists st. split; [exact Hst|]. intros h Hh. unfold keccak_inc_squeeze. rewrite inc_state_pair, inc_count_eq, some_bind by apply HA. cbv zeta. fold i fuel.
  assert (Hlb : length (as_bytes A) = 200%nat) by (rewrite length_as_bytes, (proj1 HA); reflexivity).
  rewrite copy_bytes_at_eq by (first [apply HA | lia]).
  assert (Hsl : Z.of_nat (length (slice (as_bytes A) (r - c) i)) = i) by (rewrite length_slice; lia).
  destruct (mem_write h 0 (slice (as_bytes A) (r - c) i)) as [h1|] eqn:Eh1.
  2: { rewrite mem_write_total in Eh1 by lia. discriminate. }
  rewrite some_bind, set_count_eq, some_bind by apply HA. pose proof (mem_write_length _ _ _ _ Eh1) as Hlh. rewrite E by lia.
  apply (f_equal (fun o => h' ← o; Some (h', inc_state st))).
  pose proof (mem_write_adjacent h 0 _ (take (Z.to_nat (n - i)) (squeeze_blocks_spec fuel A r)) _ Eh1) as Ha.
  rewrite Hsl in Ha. change (0 + i) with i in Ha. rewrite Ha by (rewrite length_take; lia). apply (f_equal (mem_write h 0)).
  unfold inc_stream. cbn [fst snd]. fold fuel. rewrite take_app. unfold slice at 2 3. rewrite take_take.
  assert (Hlc : length (slice (as_bytes A) (r - c) c) = Z.to_nat c) by (rewrite length_slice; lia). unfold slice in Hlc. rewrite Hlc.
  unfold slice. f_equal; f_equal; lia.
Qed.
End squeezing.

(** ** Pieces *)

(** A message given in pieces. *)
Definition absorb_pieces (s : list Z) (pieces : list bytes) : option (list Z) :=
  ofor pieces (fun m s => shake256_inc_absorb s m (Z.of_nat (length m))) s.

(** The sponge that has taken all the bytes of a message. *)
Definition absorbed (m : bytes) : list Z * Z := absorb_bytes SHAKE256_RATE (zeros 25, 0) m.

Lemma absorbed_wf m : all_bytes m -> sponge_wf SHAKE256_RATE (absorbed m).
Proof. intros Hm. apply absorb_bytes_wf; [exact shake256_rate|split; [exact state_zeros|cbn; unfold SHAKE256_RATE; lia]|exact Hm]. Qed.

Lemma inc_init_eq : shake256_inc_init = inc_state (absorbed []).
Proof. reflexivity. Qed.

Lemma shake256_inc_absorb_eq m1 m : all_bytes m1 -> all_bytes m ->
  shake256_inc_absorb (inc_state (absorbed m1)) m (Z.of_nat (length m)) = Some (inc_state (absorbed (m1 ++ m))).
Proof.
  intros H1 Hm. unfold shake256_inc_absorb. rewrite (keccak_inc_absorb_eq SHAKE256_RATE shake256_rate) by (first [apply absorbed_wf, H1 | exact Hm | lia]).
  rewrite Nat2Z.id, firstn_all. unfold absorbed. rewrite absorb_bytes_app. reflexivity.
Qed.

Lemma absorb_pieces_eq pieces : forall m, all_bytes m -> Forall all_bytes pieces ->
  absorb_pieces (inc_state (absorbed m)) pieces = Some (inc_state (absorbed (m ++ concat pieces))).
Proof.
  induction pieces as [|p pieces IH]; intros m Hm Hp; [cbn; rewrite app_nil_r; reflexivity|]. inversion_clear Hp as [|? ? Hp1 Hp2].
  unfold absorb_pieces in *. cbn [ofor concat]. rewrite shake256_inc_absorb_eq, some_bind by assumption.
  rewrite IH, app_assoc by (try apply Forall_app; auto). reflexivity.
Qed.

(** The state that is squeezed once the message [m] is padded. *)
Definition finalized (m : bytes) : list Z * Z := (pad_state SHAKE256_RATE 0x1F (absorbed m), 0).

Lemma finalized_wf m : all_bytes m -> sponge_wf SHAKE256_RATE (finalized m).
Proof.
  intros Hm. split; [|cbn; unfold SHAKE256_RATE; lia]. apply pad_state_wf; [exact shake256_rate|apply absorbed_wf, Hm|split; lia].
Qed.
Lemma shake256_inc_finalize_eq m : all_bytes m -> shake256_inc_finalize (inc_state (absorbed m)) = Some (inc_state (finalized m)).
Proof. intros Hm. apply keccak_inc_finalize_eq; [exact shake256_rate|apply absorbed_wf, Hm|split; lia]. Qed.

Lemma shake256_absorbed m mlen : all_bytes m -> 0 <= mlen <= Z.of_nat (length m) ->
  shake256_absorb m mlen = Some (fst (finalized (take (Z.to_nat mlen) m))).
Proof. intros Hm Hl. apply keccak_absorb_eq; [exact shake256_rate|exact Hm|exact Hl|split; lia|lia]. Qed.

(** C30. The incremental SHAKE256 is SHAKE256: initialise, absorb a message in any pieces,
    finalize and squeeze [outlen] bytes never leaves an array and gives what the one-shot
    function gives for the pieces put together. *)
Theorem shake256_inc_oneshot output outlen pieces :
  Forall all_bytes pieces -> 0 <= outlen <= Z.of_nat (length output) ->
  exists out, (s ← absorb_pieces shake256_inc_init pieces; s ← shake256_inc_finalize s; fst <$> shake256_inc_squeeze output outlen s) = Some out /\
    shake256 output outlen (concat pieces) (Z.of_nat (length (concat pieces))) = Some out.
Proof.
  intros Hp Ho. assert (Hm : all_bytes (concat pieces)) by (apply Forall_concat, Hp).
  rewrite inc_init_eq, absorb_pieces_eq, some_bind, shake256_inc_finalize_eq, some_bind by (exact Hp || exact Hm || constructor). cbn [app].
  unfold shake256. rewrite shake256_absorbed, Nat2Z.id, firstn_all, some_bind by (exact Hm || lia).
  destruct (keccak_inc_squeeze_eq SHAKE256_RATE shake256_rate (finalized (concat pieces)) outlen) as (st & _ & E); [apply finalized_wf, Hm|lia|].
  unfold shake256_inc_squeeze. rewrite E by lia. rewrite squeeze_out_eq by (first [exact shake256_rate | apply (finalized_wf _ Hm) | lia]).
  unfold finalized at 1. rewrite inc_stream_fresh by (exact shake256_rate || lia).
  pose proof (sponge_output_length (fst (finalized (concat pieces))) outlen SHAKE256_RATE shake256_rate ltac:(lia)) as Hl.
  change (pad_state SHAKE256_RATE 0x1F (absorbed (concat pieces))) with (fst (finalized (concat pieces))).
  rewrite mem_write_total by lia. eexists. split; reflexivity.
Qed.

Lemma shake256_inc_oneshot_witness :
  exists out, (s ← absorb_pieces shake256_inc_init [[1; 2]; [3]]; s ← shake256_inc_finalize s; fst <$> shake256_inc_squeeze (zeros 40) 40 s) = Some out /\
    shake256 (zeros 40) 40 (concat [[1; 2]; [3]]) (Z.of_nat (length (concat [[1; 2]; [3]]))) = Some out.
Proof. apply (shake256_inc_oneshot (zeros 40) 40 [[1; 2]; [3]]); decided. Defined.
