(* ===== verification/Prng.v ===== *)
(** * Hashing and randomness of HQC: [shake_ds.c], [shake_prng.c]

    Everything HQC hashes or draws comes from the incremental SHAKE256: hashes with a
    last byte that separates their domains, a generator in a global state, and seed
    expanders, which squeeze in multiples of eight bytes. *)

From S2P Require Import Prelude Carryless Words Fips202 Sponge.

(* src/extern/HQC-Round4/Additional_Implementation/hqc-128/src/domains.h:10-10 PRNG_DOMAIN *)
Definition PRNG_DOMAIN : Z := 1.
(* src/extern/HQC-Round4/Additional_Implementation/hqc-128/src/domains.h:11-11 SEEDEXPANDER_DOMAIN *)
Definition SEEDEXPANDER_DOMAIN : Z := 2.
(* src/extern/HQC-Round4/Additional_Implementation/hqc-128/src/domains.h:12-12 G_FCT_DOMAIN *)
Definition G_FCT_DOMAIN : Z := 3.
(* src/extern/HQC-Round4/Additional_Implementation/hqc-128/src/domains.h:13-13 H_FCT_DOMAIN *)
Definition H_FCT_DOMAIN : Z := 4.
(* src/extern/HQC-Round4/Additional_Implementation/hqc-128/src/domains.h:14-14 K_FCT_DOMAIN *)
Definition K_FCT_DOMAIN : Z := 5.

(** The state that the caller provides is initialised here: only its value after the call
    is part of the result, with the output. *)
(* src/extern/HQC-Round4/Additional_Implementation/hqc-128/src/shake_ds.c:21-36 shake256_512_ds *)
Definition shake256_512_ds (output input : bytes) (inlen domain : Z) : option (bytes * list Z) :=
  let state := shake256_inc_init in
  state ← shake256_inc_absorb state input inlen;
  state ← shake256_inc_absorb state [domain] 1;
  state ← shake256_inc_finalize state;
  shake256_inc_squeeze output (512 / 8) state.

(** The new value of [shake_prng_state]. *)
(* src/extern/HQC-Round4/Additional_Implementation/hqc-128/src/shake_prng.c:22-29 shake_prng_init *)
Definition shake_prng_init (entropy_input personalization_string : bytes) (enlen perlen : Z) : option (list Z) :=
  let domain := PRNG_DOMAIN in
  let shake_prng_state := shake256_inc_init in
  shake_prng_state ← shake256_inc_absorb shake_prng_state entropy_input enlen;
  shake_prng_state ← shake256_inc_absorb shake_prng_state personalization_string perlen;
  shake_prng_state ← shake256_inc_absorb shake_prng_state [domain] 1;
  shake256_inc_finalize shake_prng_state.

(* src/extern/HQC-Round4/Additional_Implementation/hqc-128/src/shake_prng.c:41-43 shake_prng *)
Definition shake_prng (shake_prng_state : list Z) (output : bytes) (outlen : Z) : option (bytes * list Z) :=
  shake256_inc_squeeze output outlen shake_prng_state.

(* src/extern/HQC-Round4/Additional_Implementation/hqc-128/src/shake_prng.c:56-62 seedexpander_init *)
Definition seedexpander_init (seed : bytes) (seedlen : Z) : option (list Z) :=
  let domain := SEEDEXPANDER_DOMAIN in
  let state := shake256_inc_init in
  state ← shake256_inc_absorb state seed seedlen;
  state ← shake256_inc_absorb state [domain] 1;
  shake256_inc_finalize state.

(** The array [tmp] is filled before it is read. *)
(* src/extern/HQC-Round4/Additional_Implementation/hqc-128/src/shake_prng.c:76-88 seedexpander *)
Definition seedexpander (state : list Z) (output : bytes) (outlen : Z) : option (bytes * list Z) :=
  let bsize := 8 in
  let remainder := outlen mod bsize in
  '(output, state) ← shake256_inc_squeeze output (outlen - remainder) state;
  if negb (remainder =? 0) then
    '(tmp, state) ← shake256_inc_squeeze (zeros bsize) bsize state;
    output ← ofor (upto remainder) (fun i output => t ← cell tmp i; set_cell output (outlen - remainder + i) t) output;
    Some (output, state)
  else Some (output, state).

(** ** What they compute *)

Lemma mem_write_head (h src : bytes) : (length src <= length h)%nat -> mem_write h 0 src = Some (src ++ drop (length src) h).
Proof. intros Hl. rewrite mem_write_total by lia. reflexivity. Qed.

(** A state between calls. *)
Definition expander (s : list Z) : Prop := exists st, s = inc_state st /\ sponge_wf SHAKE256_RATE st.

Lemma one_byte_absorbed m b : all_bytes m -> is_u8 b ->
  shake256_inc_absorb (inc_state (absorbed m)) [b] 1 = Some (inc_state (absorbed (m ++ [b]))).
Proof. intros Hm Hb. apply (shake256_inc_absorb_eq m [b] Hm), one_byte, Hb. Qed.

Lemma absorb_prefix m n : all_bytes m -> 0 <= n <= Z.of_nat (length m) ->
  shake256_inc_absorb shake256_inc_init m n = Some (inc_state (absorbed (take (Z.to_nat n) m))).
Proof.
  intros Hm Hn. rewrite inc_init_eq. unfold shake256_inc_absorb.
  apply (keccak_inc_absorb_eq SHAKE256_RATE shake256_rate); [apply absorbed_wf; constructor|exact Hm|exact Hn].
Qed.

(** Squeezing from an expander: the output and the next state do not depend on the buffer. *)
Lemma squeeze_total s n : expander s -> 0 <= n -> exists out s', Z.of_nat (length out) = n /\ all_bytes out /\ expander s' /\
  forall h, n <= Z.of_nat (length h) -> shake256_inc_squeeze h n s = Some (out ++ drop (Z.to_nat n) h, s').
Proof.
  intros (st & -> & Hst) Hn. destruct (keccak_inc_squeeze_eq SHAKE256_RATE shake256_rate st n Hst Hn) as (st' & Hst' & E).
  pose proof (length_inc_stream SHAKE256_RATE shake256_rate st n Hst Hn) as Hl.
  exists (inc_stream SHAKE256_RATE st n), (inc_state st'). split; [exact Hl|]. split; [apply inc_stream_bytes|]. split; [exists st'; auto|].
  intros h Hh. unfold shake256_inc_squeeze. rewrite E, mem_write_head, some_bind by lia.
  replace (length _) with (Z.to_nat n) by lia. reflexivity.
Qed.

Lemma seedexpander_init_total seed n : all_bytes seed -> 0 <= n <= Z.of_nat (length seed) ->
  exists s, seedexpander_init seed n = Some s /\ expander s.
Proof.
  intros Hs Hn. unfold seedexpander_init. cbv zeta. rewrite absorb_prefix, some_bind by assumption.
  assert (Ht : all_bytes (take (Z.to_nat n) seed)) by apply Forall_take, Hs.
  rewrite one_byte_absorbed, some_bind by (exact Ht || (split; unfold SEEDEXPANDER_DOMAIN; lia)).
  assert (Hd : all_bytes (take (Z.to_nat n) seed ++ [SEEDEXPANDER_DOMAIN])).
  { apply Forall_app. split; [exact Ht|apply one_byte; split; unfold SEEDEXPANDER_DOMAIN; lia]. }
  rewrite shake256_inc_finalize_eq by exact Hd. exists (inc_state (finalized (take (Z.to_nat n) seed ++ [SEEDEXPANDER_DOMAIN]))). split; [reflexivity|].
  eexists. split; [reflexivity|apply finalized_wf, Hd].
Qed.

Lemma seedexpander_total s n : expander s -> 0 <= n -> exists out s', Z.of_nat (length out) = n /\ all_bytes out /\ expander s' /\
  forall h, n <= Z.of_nat (length h) -> seedexpander s h n = Some (out ++ drop (Z.to_nat n) h, s').
Proof.
  intros Hs Hn. pose proof (Z.mod_pos_bound n 8 ltac:(lia)) as Hm. pose proof (Z.mod_le n 8 Hn ltac:(lia)) as Hle.
  destruct (squeeze_total s (n - n mod 8) Hs ltac:(lia)) as (out1 & s1 & Hl1 & Hb1 & Hs1 & E1).
  destruct (Z.eqb_spec (n mod 8) 0) as [Hz|Hnz].
  - exists out1, s1. split_and!; [lia|exact Hb1|exact Hs1|]. intros h Hh. unfold seedexpander. cbv zeta. rewrite E1, some_bind, Hz by lia.
    cbn [negb Z.eqb]. replace (n - 0) with n by lia. reflexivity.
  - destruct (squeeze_total s1 8 Hs1 ltac:(lia)) as (tmp & s2 & Hl2 & Hb2 & Hs2 & E2).
    exists (out1 ++ take (Z.to_nat (n mod 8)) tmp), s2. split_and!; [rewrite length_app, length_take; lia|apply Forall_app; split; [exact Hb1|apply Forall_take, Hb2]|exact Hs2|].
    intros h Hh. unfold seedexpander. cbv zeta. rewrite E1, some_bind by lia. destruct (Z.eqb_spec (n mod 8) 0); [lia|]. cbn [negb].
    rewrite E2, some_bind by (rewrite length_zeros; lia). change (drop (Z.to_nat 8) (zeros 8)) with (@nil Z). rewrite app_nil_r.
    assert (Hw : mem_write (out1 ++ drop (Z.to_nat (n - n mod 8)) h) (n - n mod 8) (take (Z.to_nat (n mod 8)) tmp) =
      Some ((out1 ++ take (Z.to_nat (n mod 8)) tmp) ++ drop (Z.to_nat n) h)).
    { rewrite mem_write_total by (rewrite ?length_take, ?length_app, ?length_drop; lia). rewrite take_app_le, take_ge by lia.
      rewrite drop_app_ge, drop_drop, length_take, <- app_assoc by (rewrite ?length_take; lia). do 4 f_equal. lia. }
    rewrite (ofor_writes (fun i => [default 0 (tmp !! Z.to_nat i)]) 1 _ (n mod 8) _ (n - n mod 8));
      [|lia|lia|lia|rewrite length_app, length_drop; lia|reflexivity|].
    + assert (Et : concat ((fun i => [default 0 (tmp !! Z.to_nat i)]) <$> upto (n mod 8)) = take (Z.to_nat (n mod 8)) tmp).
      { rewrite concat_singletons. apply list_eq. intros i. rewrite list_lookup_fmap. destruct (decide (i < Z.to_nat (n mod 8))%nat) as [Hi|Hi].
        - replace i with (Z.to_nat (Z.of_nat i)) at 1 by lia. rewrite upto_lookup by lia. cbn [fmap option_fmap option_map].
          rewrite Nat2Z.id, lookup_take_lt by lia. destruct (lookup_lt_is_Some_2 tmp i ltac:(lia)) as [w ->]. reflexivity.
        - rewrite (proj2 (lookup_ge_None _ _)) by (rewrite length_upto; lia). rewrite lookup_take_ge by lia. reflexivity. }
      rewrite Et, Hw, some_bind. reflexivity.
    + intros i h' Hi Hh'. rewrite cell_lookup by lia. destruct (lookup_lt_is_Some_2 tmp (Z.to_nat i) ltac:(lia)) as [w ->]. opt_simpl. cbn [default].
      rewrite set_cell_mem_write. f_equal. lia.
Qed.

(** The hashes of HQC are SHAKE256 with a domain byte: [shake256_512_ds] writes the
    first 64 bytes of SHAKE256 of its input followed by the domain byte. *)
Theorem shake256_512_ds_spec output input inlen domain :
  all_bytes input -> is_u8 domain -> 0 <= inlen <= Z.of_nat (length input) -> 64 <= Z.of_nat (length output) ->
  exists out state, shake256_512_ds output input inlen domain = Some (out, state) /\
    shake256 output 64 (take (Z.to_nat inlen) input ++ [domain]) (inlen + 1) = Some out.
Proof.
  intros Hi Hd Hl Ho. unfold shake256_512_ds. cbv zeta. rewrite absorb_prefix, some_bind by assumption.
  assert (Ht : all_bytes (take (Z.to_nat inlen) input)) by apply Forall_take, Hi.
  assert (Hm : all_bytes (take (Z.to_nat inlen) input ++ [domain])) by (apply Forall_app; split; [exact Ht|apply one_byte, Hd]).
  rewrite one_byte_absorbed, some_bind, shake256_inc_finalize_eq, some_bind by assumption.
  destruct (keccak_inc_squeeze_eq SHAKE256_RATE shake256_rate (finalized (take (Z.to_nat inlen) input ++ [domain])) 64) as (st & _ & E);
    [apply finalized_wf, Hm|lia|].
  unfold shake256_inc_squeeze. change (512 / 8) with 64. rewrite E by lia. unfold shake256.
  assert (Hlm : Z.of_nat (length (take (Z.to_nat inlen) input ++ [domain])) = inlen + 1) by (rewrite length_app, length_take; cbn; lia).
  rewrite shake256_absorbed, some_bind, (take_ge (take _ input ++ [domain])) by (exact Hm || lia).
  rewrite squeeze_out_eq by (first [exact shake256_rate | apply (finalized_wf _ Hm) | lia]).
  unfold finalized at 1. rewrite inc_stream_fresh by (exact shake256_rate || lia). cbn [finalized fst].
  rewrite mem_write_total by (try rewrite sponge_output_length by (exact shake256_rate || lia); lia). rewrite some_bind. eexists _, _. split; reflexivity.
Qed.

Lemma shake256_512_ds_spec_witness :
  exists out state, shake256_512_ds (zeros 64) (zeros 16) 16 G_FCT_DOMAIN = Some (out, state) /\
    shake256 (zeros 64) 64 (take (Z.to_nat 16) (zeros 16) ++ [G_FCT_DOMAIN]) (16 + 1) = Some out.
Proof. apply (shake256_512_ds_spec (zeros 64) (zeros 16) 16 G_FCT_DOMAIN); decided. Defined.
