(* ===== verification/Vector.v ===== *)
(** * Vectors of HQC: [vector.c]

    Sampling of vectors, addition, comparison and resizing.  A vector of fixed weight
    is drawn by rejection: candidates of three bytes from a seed expander, those above
    a threshold and those already drawn thrown away, until there are enough.  How many
    candidates that takes depends on the seed; the theorem says that the loops end as
    soon as enough candidates are good, and what they leave. *)

From S2P Require Import Prelude Carryless Words Fips202 Sponge Prng Gf Gf2x.

(* src/extern/HQC-Round4/Additional_Implementation/hqc-128/src/parameters.h:61-61 PARAM_N1 *)
Definition PARAM_N1 : Z := 46.
(* src/extern/HQC-Round4/Additional_Implementation/hqc-128/src/parameters.h:62-62 PARAM_N2 *)
Definition PARAM_N2 : Z := 384.
(* src/extern/HQC-Round4/Additional_Implementation/hqc-128/src/parameters.h:63-63 PARAM_N1N2 *)
Definition PARAM_N1N2 : Z := 17664.
(* src/extern/HQC-Round4/Additional_Implementation/hqc-128/src/parameters.h:64-64 PARAM_OMEGA *)
Definition PARAM_OMEGA : Z := 66.
(* src/extern/HQC-Round4/Additional_Implementation/hqc-128/src/parameters.h:65-65 PARAM_OMEGA_E *)
Definition PARAM_OMEGA_E : Z := 75.
(* src/extern/HQC-Round4/Additional_Implementation/hqc-128/src/parameters.h:66-66 PARAM_OMEGA_R *)
Definition PARAM_OMEGA_R : Z := 75.
(* src/extern/HQC-Round4/Additional_Implementation/hqc-128/src/parameters.h:92-92 PARAM_K *)
Definition PARAM_K : Z := 16.
(* src/extern/HQC-Round4/Additional_Implementation/hqc-128/src/parameters.h:75-75 UTILS_REJECTION_THRESHOLD *)
Definition UTILS_REJECTION_THRESHOLD : Z := 16767881.
(* src/extern/HQC-Round4/Additional_Implementation/hqc-128/src/parameters.h:76-76 VEC_N_SIZE_BYTES *)
Definition VEC_N_SIZE_BYTES : Z := CEIL_DIVIDE PARAM_N 8.
(* src/extern/HQC-Round4/Additional_Implementation/hqc-128/src/parameters.h:77-77 VEC_K_SIZE_BYTES *)
Definition VEC_K_SIZE_BYTES : Z := PARAM_K.
(* src/extern/HQC-Round4/Additional_Implementation/hqc-128/src/parameters.h:78-78 VEC_N1_SIZE_BYTES *)
Definition VEC_N1_SIZE_BYTES : Z := PARAM_N1.
(* src/extern/HQC-Round4/Additional_Implementation/hqc-128/src/parameters.h:79-79 VEC_N1N2_SIZE_BYTES *)
Definition VEC_N1N2_SIZE_BYTES : Z := CEIL_DIVIDE PARAM_N1N2 8.
(* src/extern/HQC-Round4/Additional_Implementation/hqc-128/src/parameters.h:82-82 VEC_K_SIZE_64 *)
Definition VEC_K_SIZE_64 : Z := CEIL_DIVIDE PARAM_K 8.
(* src/extern/HQC-Round4/Additional_Implementation/hqc-128/src/parameters.h:83-83 VEC_N1_SIZE_64 *)
Definition VEC_N1_SIZE_64 : Z := CEIL_DIVIDE PARAM_N1 8.
(* src/extern/HQC-Round4/Additional_Implementation/hqc-128/src/parameters.h:84-84 VEC_N1N2_SIZE_64 *)
Definition VEC_N1N2_SIZE_64 : Z := CEIL_DIVIDE PARAM_N1N2 64.

(** ** Sampling *)

(** What the body of the inner loop changes, [support] apart. *)
Record draw_state := DrawState { ds_ctx : list Z; ds_rand_bytes : bytes; ds_j : Z }.

(** One turn of the inner loop: the value it stores in [support[i]]. *)
(* src/extern/HQC-Round4/Additional_Implementation/hqc-128/src/vector.c:43-50 vect_set_random_fixed_weight *)
Definition draw (random_bytes_size : Z) (st : draw_state) : option (Z * draw_state) :=
  st ← (if ds_j st =? random_bytes_size
        then '(rand_bytes, ctx) ← seedexpander (ds_ctx st) (ds_rand_bytes st) random_bytes_size; Some (DrawState ctx rand_bytes 0)
        else Some st);
  let j := ds_j st in
  b0 ← cell (ds_rand_bytes st) j;
  b1 ← cell (ds_rand_bytes st) (j + 1);
  b2 ← cell (ds_rand_bytes st) (j + 2);
  Some (Z.lor (Z.lor (Z.shiftl b0 16) (Z.shiftl b1 8)) b2, DrawState (ds_ctx st) (ds_rand_bytes st) (j + 3)).

(** The inner loop. *)
(* src/extern/HQC-Round4/Additional_Implementation/hqc-128/src/vector.c:42-52 vect_set_random_fixed_weight *)
Fixpoint draw_accepted (fuel : nat) (random_bytes_size : Z) (support : list Z) (i : Z) (st : draw_state) : option (list Z * draw_state) :=
  match fuel with
  | O => None
  | S fuel =>
      '(x, st) ← draw random_bytes_size st;
      support ← set_cell support i x;
      s ← cell support i;
      if UTILS_REJECTION_THRESHOLD <=? s then draw_accepted fuel random_bytes_size support i st else Some (support, st)
  end.

(** The outer loop. *)
(* src/extern/HQC-Round4/Additional_Implementation/hqc-128/src/vector.c:41-63 vect_set_random_fixed_weight *)
Fixpoint draw_support (fuel : nat) (weight random_bytes_size : Z) (support : list Z) (i : Z) (st : draw_state) : option (list Z * draw_state) :=
  if i <? weight then
    match fuel with
    | O => None
    | S fuel =>
        '(support, st) ← draw_accepted (S fuel) random_bytes_size support i st;
        s ← cell support i;
        support ← set_cell support i (s mod PARAM_N);
        inc ← ofor (upto i) (fun k inc => a ← cell support k; b ← cell support i; Some (if a =? b then 0 else inc)) 1;
        draw_support fuel weight random_bytes_size support (i + inc) st
    end
  else Some (support, st).

(** The word [i] of the vector with the given positions. *)
(* src/extern/HQC-Round4/Additional_Implementation/hqc-128/src/vector.c:73-78 vect_set_random_fixed_weight *)
Definition support_word (weight : Z) (index_tab bit_tab : list Z) (i : Z) : option Z :=
  ofor (upto weight) (fun j val =>
    index ← cell index_tab j;
    let tmp := u32 (i - index) in
    let val1 := Z.lxor 1 (Z.shiftr (Z.lor tmp (u32 (- tmp))) 31) in
    let mask := u64 (- val1) in
    bit ← cell bit_tab j;
    Some (Z.lor val (Z.land bit mask))) 0.

(** [fuel] bounds the number of candidates. *)
(* src/extern/HQC-Round4/Additional_Implementation/hqc-128/src/vector.c:30-82 vect_set_random_fixed_weight *)
Definition vect_set_random_fixed_weight (fuel : nat) (ctx : list Z) (v : words) (weight : Z) : option (words * list Z) :=
  let support := zeros PARAM_OMEGA_R in
  let index_tab := zeros PARAM_OMEGA_R in
  let bit_tab := zeros PARAM_OMEGA_R in
  let random_bytes_size := 3 * weight in
  let rand_bytes := zeros (3 * PARAM_OMEGA_R) in
  '(support, st) ← draw_support fuel weight random_bytes_size support 0 (DrawState ctx rand_bytes random_bytes_size);
  '(index_tab, bit_tab) ← ofor (upto weight) (fun i '(index_tab, bit_tab) =>
    s ← cell support i;
    index_tab ← set_cell index_tab i (Z.shiftr s 6);
    let pos := Z.land s 0x3f in
    bit_tab ← set_cell bit_tab i (Z.shiftl 1 pos);
    Some (index_tab, bit_tab)) (index_tab, bit_tab);
  v ← ofor (upto VEC_N_SIZE_64) (fun i v =>
    val ← support_word weight index_tab bit_tab i;
    vi ← cell v i;
    set_cell v i (Z.lor vi val)) v;
  Some (v, ds_ctx st).

(* src/extern/HQC-Round4/Additional_Implementation/hqc-128/src/vector.c:95-102 vect_set_random *)
Definition vect_set_random (ctx : list Z) (v : words) : option (words * list Z) :=
  let rand_bytes := zeros VEC_N_SIZE_BYTES in
  '(rand_bytes, ctx) ← seedexpander ctx rand_bytes VEC_N_SIZE_BYTES;
  v ← memcpy_to_words v 0 rand_bytes VEC_N_SIZE_BYTES;
  last ← cell v (VEC_N_SIZE_64 - 1);
  v ← set_cell v (VEC_N_SIZE_64 - 1) (Z.land last (BITMASK PARAM_N 64));
  Some (v, ctx).

(* src/extern/HQC-Round4/Additional_Implementation/hqc-128/src/vector.c:113-118 vect_set_random_from_prng *)
Definition vect_set_random_from_prng (shake_prng_state : list Z) (v : words) : option (words * list Z) :=
  let rand_bytes := zeros VEC_K_SIZE_BYTES in
  '(rand_bytes, shake_prng_state) ← shake_prng shake_prng_state rand_bytes VEC_K_SIZE_BYTES;
  v ← memcpy_to_words v 0 rand_bytes VEC_K_SIZE_BYTES;
  Some (v, shake_prng_state).

(** ** Operations *)

(** [o] may be [v1] or [v2]: each cell is read before it is written and never again. *)
(* src/extern/HQC-Round4/Additional_Implementation/hqc-128/src/vector.c:130-134 vect_add *)
Definition vect_add (o v1 v2 : words) (size : Z) : option words :=
  ofor (upto size) (fun i o => x ← cell v1 i; y ← cell v2 i; set_cell o i (Z.lxor x y)) o.

(* src/extern/HQC-Round4/Additional_Implementation/hqc-128/src/vector.c:146-155 vect_compare *)
Definition vect_compare (v1 v2 : bytes) (size : Z) : option Z :=
  r ← ofor (upto size) (fun i r => x ← cell v1 i; y ← cell v2 i; Some (Z.lor r (Z.lxor x y))) 0;
  let r := Z.shiftr (u64 (u64 (Z.lnot r) + 1)) 63 in
  Some (u8 r).

(* src/extern/HQC-Round4/Additional_Implementation/hqc-128/src/vector.c:167-184 vect_resize *)
Definition vect_resize (o : words) (size_o : Z) (v : words) (size_v : Z) : option words :=
  let mask := 0x7FFFFFFFFFFFFFFF in
  if size_o <? size_v then
    let val := if negb (size_o mod 64 =? 0) then 64 - size_o mod 64 else 0 in
    o ← memcpy_words o v VEC_N1N2_SIZE_BYTES;
    ofor (upto val) (fun i o => last ← cell o (VEC_N1N2_SIZE_64 - 1); set_cell o (VEC_N1N2_SIZE_64 - 1) (Z.land last (Z.shiftr mask i))) o
  else memcpy_words o v (CEIL_DIVIDE size_v 8).

(** ** The candidates *)

Definition draw_wf (w : Z) (st : draw_state) : Prop :=
  expander (ds_ctx st) /\ length (ds_rand_bytes st) = 225%nat /\ all_bytes (ds_rand_bytes st) /\ exists k, 0 <= k <= w /\ ds_j st = 3 * k.

Lemma draw_total w st : 1 <= w <= 75 -> draw_wf w st -> exists x st', draw (3 * w) st = Some (x, st') /\ draw_wf w st' /\ 0 <= x.
Proof.
  intros Hw (He & Hl & Hb & k & Hk & Hj). unfold draw.
  assert (Hready : exists st1, (if ds_j st =? 3 * w then '(rand_bytes, ctx) ← seedexpander (ds_ctx st) (ds_rand_bytes st) (3 * w); Some (DrawState ctx rand_bytes 0)
    else Some st) = Some st1 /\ expander (ds_ctx st1) /\ length (ds_rand_bytes st1) = 225%nat /\ all_bytes (ds_rand_bytes st1) /\
      exists k, 0 <= k < w /\ ds_j st1 = 3 * k).
  { destruct (Z.eqb_spec (ds_j st) (3 * w)) as [E|E].
    - destruct (seedexpander_total (ds_ctx st) (3 * w) He ltac:(lia)) as (out & s' & Hlo & Hbo & Hs' & Eout). rewrite Eout, some_bind by lia.
      eexists. split; [reflexivity|]. cbn [ds_ctx ds_rand_bytes ds_j]. split_and!; [exact Hs'|rewrite length_app, length_drop; lia| |exists 0; lia].
      apply Forall_app. split; [exact Hbo|apply Forall_drop, Hb].
    - exists st. split_and!; [reflexivity|exact He|exact Hl|exact Hb|]. exists k. lia. }
  destruct Hready as (st1 & -> & He1 & Hl1 & Hb1 & k1 & Hk1 & Hj1). rewrite some_bind. cbv zeta.
  destruct (cell_total (ds_rand_bytes st1) (ds_j st1)) as (b0 & -> & Hb0); [lia|].
  destruct (cell_total (ds_rand_bytes st1) (ds_j st1 + 1)) as (b1 & -> & Hb1'); [lia|].
  destruct (cell_total (ds_rand_bytes st1) (ds_j st1 + 2)) as (b2 & -> & Hb2'); [lia|]. rewrite !some_bind.
  eexists _, _. split; [reflexivity|]. split.
  - split_and!; cbn [ds_ctx ds_rand_bytes ds_j]; [exact He1|exact Hl1|exact Hb1|]. exists (k1 + 1). lia.
  - assert (Hu : forall i b, ds_rand_bytes st1 !! i = Some b -> 0 <= b) by (intros i b H; exact (proj1 (proj1 (list.Forall_lookup _ _) Hb1 i b H))).
    apply Hu in Hb0, Hb1', Hb2'. rewrite !Z.lor_nonneg, !Z.shiftl_nonneg. auto.
Qed.

(** The first [n] candidates from a state on. *)
Fixpoint draws (n : nat) (size : Z) (st : draw_state) : list Z :=
  match n with O => [] | S n => match draw size st with Some (x, st) => x :: draws n size st | None => [] end end.

(** The distinct positions that good candidates give, in the order they come. *)
Definition pick (acc : list Z) (x : Z) : list Z :=
  if x <? UTILS_REJECTION_THRESHOLD then if bool_decide (x mod PARAM_N ∈ acc) then acc else acc ++ [x mod PARAM_N] else acc.
Definition picked (acc : list Z) (xs : list Z) : list Z := foldl pick acc xs.

Lemma pick_prefix acc x : exists more, pick acc x = acc ++ more.
Proof. unfold pick. repeat case_match; (exists []; rewrite app_nil_r; reflexivity) || (eexists; reflexivity). Qed.
Lemma picked_prefix xs : forall acc, exists more, picked acc xs = acc ++ more.
Proof.
  induction xs as [|x xs IH]; intros acc; [exists []; cbn; rewrite app_nil_r; reflexivity|].
  unfold picked in *. cbn [foldl]. destruct (IH (pick acc x)) as [m1 ->], (pick_prefix acc x) as [m2 ->]. exists (m2 ++ m1). rewrite app_assoc. reflexivity.
Qed.
Lemma picked_rejected rej acc : Forall (fun x => UTILS_REJECTION_THRESHOLD <= x) rej -> picked acc rej = acc.
Proof.
  intros Hr. induction Hr as [|x rej Hx Hr IH]; [reflexivity|]. unfold picked in *. cbn [foldl]. unfold pick at 2.
  rewrite (proj2 (Z.ltb_ge _ _) Hx). exact IH.
Qed.

Definition support_wf (acc : list Z) : Prop := NoDup acc /\ Forall (fun p => 0 <= p < PARAM_N) acc.

Lemma pick_wf acc x : support_wf acc -> support_wf (pick acc x).
Proof.
  intros [Hn Hf]. unfold pick. case_match; [|split; assumption]. case_match eqn:E; [split; assumption|]. apply bool_decide_eq_false in E. split.
  - apply NoDup_app. split_and!; [exact Hn| |apply NoDup_singleton]. intros y Hy Hy1. apply list_elem_of_singleton in Hy1. subst y. contradiction.
  - apply Forall_app. split; [exact Hf|]. constructor; [|constructor]. apply Z.mod_pos_bound. reflexivity.
Qed.

(** The inner loop ends with the first good candidate. *)
Lemma draw_accepted_spec w i : 1 <= w <= 75 -> forall n fuel st support acc, (n <= fuel)%nat -> draw_wf w st -> 0 <= i < Z.of_nat (length support) ->
  (length acc < length (picked acc (draws n (3 * w) st)))%nat ->
  exists m x support' st', (m < n)%nat /\ draw_accepted fuel (3 * w) support i st = Some (support', st') /\ draw_wf w st' /\ x < UTILS_REJECTION_THRESHOLD /\
    support' = <[Z.to_nat i := x]> support /\ picked acc (draws n (3 * w) st) = picked (pick acc x) (draws m (3 * w) st').
Proof.
  intros Hw. induction n as [|n IH]; intros fuel st support acc Hf Hst Hi Hp; [cbn in Hp; lia|]. destruct fuel as [|fuel]; [lia|].
  destruct (draw_total w st Hw Hst) as (x & st' & Ed & Hst' & Hx). cbn [draws draw_accepted] in *. rewrite Ed, some_bind in *.
  rewrite set_cell_total, some_bind by exact Hi. rewrite cell_lookup, list_lookup_insert_eq, some_bind by lia.
  destruct (Z.leb_spec UTILS_REJECTION_THRESHOLD x) as [Hr|Ha].
  - assert (Ep : picked acc (x :: draws n (3 * w) st') = picked acc (draws n (3 * w) st')).
    { change (x :: draws n (3 * w) st') with ([x] ++ draws n (3 * w) st'). unfold picked. rewrite foldl_app. fold (picked acc [x]).
      rewrite (picked_rejected [x]) by (constructor; [exact Hr|constructor]). reflexivity. }
    rewrite Ep in *. destruct (IH fuel st' (<[Z.to_nat i:=x]> support) acc) as (m & y & sup & st2 & Hm & E & Hst2 & Hy & Hsup & Hpk);
      [lia|exact Hst'|rewrite length_insert; exact Hi|exact Hp|].
    exists m, y, sup, st2. split_and!; [lia|exact E|exact Hst2|exact Hy|rewrite Hsup; apply list_insert_insert_eq|exact Hpk].
  - exists n, x, (<[Z.to_nat i:=x]> support), st'. split_and!; try reflexivity; [lia|exact Hst'|exact Ha].
Qed.

(** The loop that looks for a repetition. *)
Lemma repetition_spec support i s : 0 <= i < Z.of_nat (length support) -> support !! Z.to_nat i = Some s ->
  ofor (upto i) (fun k inc => a ← cell support k; b ← cell support i; Some (if a =? b then 0 else inc)) 1 =
    Some (if bool_decide (s ∈ take (Z.to_nat i) support) then 0 else 1).
Proof.
  intros Hi Hs. enough (H : forall m, 0 <= m -> m <= i ->
    ofor (upto m) (fun k inc => a ← cell support k; b ← cell support i; Some (if a =? b then 0 else inc)) 1 =
    Some (if bool_decide (s ∈ take (Z.to_nat m) support) then 0 else 1)) by (apply H; lia).
  apply (range_ind (fun m => m <= i -> _)); [reflexivity|]. intros m Hm IH Hle. rewrite upto_snoc, ofor_app, IH, some_bind by lia. cbn [ofor].
  destruct (cell_total support m) as (a & Ea & Ha); [lia|]. rewrite Ea, some_bind, cell_lookup, Hs, some_bind by lia.
  assert (Et : take (Z.to_nat (m + 1)) support = take (Z.to_nat m) support ++ [a]).
  { replace (Z.to_nat (m + 1)) with (S (Z.to_nat m)) by lia. apply take_S_r, Ha. }
  rewrite Et. cbn [mbind option_bind]. f_equal. destruct (Z.eqb_spec a s) as [->|Hne].
  - rewrite bool_decide_true; [reflexivity|]. apply elem_of_app. right. apply list_elem_of_singleton. reflexivity.
  - rewrite (bool_decide_ext (s ∈ take (Z.to_nat m) support ++ [a]) (s ∈ take (Z.to_nat m) support)); [reflexivity|].
    rewrite elem_of_app, list_elem_of_singleton. split; [intros [H|H]; [exact H|congruence]|auto].
Qed.

(** One turn of the outer loop, after the inner loop has left the candidate [x]. *)
Lemma draw_support_turn fuel w support acc x st st1 : length support = 75%nat -> take (length acc) support = acc -> Z.of_nat (length acc) < w -> w <= 75 ->
  x < UTILS_REJECTION_THRESHOLD -> draw_accepted (S fuel) (3 * w) support (Z.of_nat (length acc)) st = Some (<[length acc := x]> support, st1) ->
  let sup2 := <[length acc := x mod PARAM_N]> support in
  draw_support (S fuel) w (3 * w) support (Z.of_nat (length acc)) st = draw_support fuel w (3 * w) sup2 (Z.of_nat (length (pick acc x))) st1 /\
  length sup2 = 75%nat /\ take (length (pick acc x)) sup2 = pick acc x /\ Z.of_nat (length (pick acc x)) <= w.
Proof.
  intros Hl Ht Hlt Hw Hx E sup2. cbn [draw_support]. rewrite (proj2 (Z.ltb_lt _ _)) by lia. rewrite E.
  rewrite some_bind, cell_lookup, Nat2Z.id, list_lookup_insert_eq, some_bind by lia.
  rewrite set_cell_total, some_bind, Nat2Z.id, list_insert_insert_eq by (rewrite length_insert; lia). fold sup2.
  assert (Hl2 : length sup2 = 75%nat) by (unfold sup2; rewrite length_insert; exact Hl).
  assert (Hat : sup2 !! length acc = Some (x mod PARAM_N)) by (apply list_lookup_insert_eq; lia).
  assert (Ht2 : take (length acc) sup2 = acc) by (unfold sup2; rewrite take_insert_ge by lia; exact Ht).
  rewrite (repetition_spec _ _ (x mod PARAM_N)), some_bind, Nat2Z.id, Ht2 by (rewrite ?Nat2Z.id; exact Hat || lia).
  unfold pick. rewrite (proj2 (Z.ltb_lt _ _) Hx). destruct (bool_decide_reflect (x mod PARAM_N ∈ acc)).
  - rewrite Z.add_0_r. auto with lia.
  - rewrite length_app, Nat.add_1_r. rewrite (take_S_r _ _ _ Hat), Ht2. split_and!; [f_equal; lia|exact Hl2|reflexivity|lia].
Qed.

(** The outer loop ends with the positions of the first good candidates. *)
Lemma draw_support_spec w : 1 <= w <= 75 -> forall fuel n st support acc, (n <= fuel)%nat -> draw_wf w st ->
  length support = 75%nat -> take (length acc) support = acc -> Z.of_nat (length acc) <= w ->
  w <= Z.of_nat (length (picked acc (draws n (3 * w) st))) ->
  exists support' st', draw_support fuel w (3 * w) support (Z.of_nat (length acc)) st = Some (support', st') /\ expander (ds_ctx st') /\
    length support' = 75%nat /\ take (Z.to_nat w) support' = take (Z.to_nat w) (picked acc (draws n (3 * w) st)).
Proof.
  intros Hw. induction fuel as [|fuel IH]; intros n st support acc Hf Hst Hl Ht Hle Hp.
  all: destruct (Z.ltb_spec (Z.of_nat (length acc)) w) as [Hlt|Hge].
  2, 4: cbn [draw_support]; rewrite (proj2 (Z.ltb_ge _ _)) by lia; assert (Ew : Z.to_nat w = length acc) by lia; rewrite Ew; exists support, st;
    split_and!; [reflexivity|apply Hst|exact Hl|]; destruct (picked_prefix (draws n (3 * w) st) acc) as [more ->]; rewrite take_app_length; exact Ht.
  - destruct n; [cbn in Hp; lia|lia].
  - destruct (draw_accepted_spec w (Z.of_nat (length acc)) Hw n (S fuel) st support acc) as (m & x & sup & st1 & Hm & E & Hst1 & Hx & -> & Hpk); [lia|exact Hst|lia|lia|].
    rewrite Nat2Z.id in E. destruct (draw_support_turn fuel w support acc x st st1 Hl Ht Hlt ltac:(lia) Hx E) as (-> & Hl2 & Ht2 & Hle2).
    rewrite Hpk in Hp |- *. apply IH; try assumption. lia.
Qed.

(** Whatever the fuel, what the loops return is good. *)
Lemma draw_accepted_some w i : 1 <= w <= 75 -> forall fuel st support support' st', draw_wf w st -> 0 <= i < Z.of_nat (length support) ->
  draw_accepted fuel (3 * w) support i st = Some (support', st') ->
  draw_wf w st' /\ exists x, x < UTILS_REJECTION_THRESHOLD /\ support' = <[Z.to_nat i := x]> support.
Proof.
  intros Hw. induction fuel as [|fuel IH]; intros st support support' st' Hst Hi E; [discriminate|]. cbn [draw_accepted] in E.
  destruct (draw_total w st Hw Hst) as (x & st1 & Ed & Hst1 & _). rewrite Ed, some_bind, set_cell_total, some_bind in E by exact Hi.
  rewrite cell_lookup, list_lookup_insert_eq, some_bind in E by lia. destruct (Z.leb_spec UTILS_REJECTION_THRESHOLD x) as [Hr|Ha].
  - apply IH in E as (H1 & y & Hy & ->); [|exact Hst1|rewrite length_insert; exact Hi]. split; [exact H1|]. exists y. rewrite list_insert_insert_eq. auto.
  - injection E as <- <-. split; [exact Hst1|]. exists x. auto.
Qed.

Lemma draw_support_some w : 1 <= w <= 75 -> forall fuel st support acc support' st', draw_wf w st ->
  length support = 75%nat -> take (length acc) support = acc -> support_wf acc -> Z.of_nat (length acc) <= w ->
  draw_support fuel w (3 * w) support (Z.of_nat (length acc)) st = Some (support', st') ->
  expander (ds_ctx st') /\ length support' = 75%nat /\ support_wf (take (Z.to_nat w) support').
Proof.
  intros Hw. induction fuel as [|fuel IH]; intros st support acc support' st' Hst Hl Ht Hwf Hle E.
  all: destruct (Z.ltb_spec (Z.of_nat (length acc)) w) as [Hlt|Hge].
  2, 4: cbn [draw_support] in E; rewrite (proj2 (Z.ltb_ge _ _)) in E by lia; injection E as <- <-;
    replace (Z.to_nat w) with (length acc) by lia; rewrite Ht; split_and!; [apply Hst|exact Hl|exact Hwf].
  - cbn [draw_support] in E. rewrite (proj2 (Z.ltb_lt _ _)) in E by lia. discriminate.
  - destruct (draw_accepted (S fuel) (3 * w) support (Z.of_nat (length acc)) st) as [[sup st1]|] eqn:Ea.
    2: { cbn [draw_support] in E. rewrite (proj2 (Z.ltb_lt _ _)), Ea in E by lia. discriminate. }
    destruct (draw_accepted_some w (Z.of_nat (length acc)) Hw (S fuel) st support sup st1 Hst ltac:(lia) Ea) as (Hst1 & x & Hx & ->). rewrite Nat2Z.id in Ea.
    destruct (draw_support_turn fuel w support acc x st st1 Hl Ht Hlt ltac:(lia) Hx Ea) as (Et & Hl2 & Ht2 & Hle2). rewrite Et in E.
    apply (IH st1 (<[length acc := x mod PARAM_N]> support) (pick acc x) support' st'); try assumption. apply pick_wf, Hwf.
Qed.

(** ** The words *)

Lemma equal_bit a b : 0 <= a < 2 ^ 31 -> 0 <= b < 2 ^ 31 ->
  Z.lxor 1 (Z.shiftr (Z.lor (u32 (a - b)) (u32 (- u32 (a - b)))) 31) = if a =? b then 1 else 0.
Proof.
  intros Ha Hb. destruct (Z.eqb_spec a b) as [->|Hne]; [rewrite Z.sub_diag; reflexivity|].
  assert (Ht : 0 < u32 (a - b) < 2 ^ 32).
  { pose proof (u32_range (a - b)) as H. unfold is_u32, in_width in H. enough (u32 (a - b) <> 0) by lia. unfold u32. intros E.
    apply Z.mod_divide in E; [|lia]. destruct E as [q Eq]. assert (q = 0) by nia. lia. }
  set (t := u32 (a - b)) in *. assert (Et : u32 (- t) = 2 ^ 32 - t).
  { unfold u32. replace (- t) with (2 ^ 32 - t + (-1) * 2 ^ 32) by lia. rewrite Z.mod_add by lia. apply Z.mod_small. lia. }
  rewrite Et, Z.shiftr_lor, !Z.shiftr_div_pow2 by lia.
  assert (Hd : forall x, 0 <= x < 2 ^ 32 -> x / 2 ^ 31 = if 2 ^ 31 <=? x then 1 else 0).
  { intros x Hx. destruct (Z.leb_spec (2 ^ 31) x); [|apply Z.div_small; lia]. symmetry. apply (Z.div_unique x (2 ^ 31) 1 (x - 2 ^ 31)); lia. }
  rewrite !Hd by lia. destruct (Z.leb_spec (2 ^ 31) t), (Z.leb_spec (2 ^ 31) (2 ^ 32 - t)); reflexivity || lia.
Qed.

(** The two tables of positions. *)
Definition tables (acc index_tab bit_tab : list Z) : Prop :=
  forall j p, acc !! j = Some p -> index_tab !! j = Some (Z.shiftr p 6) /\ bit_tab !! j = Some (Z.shiftl 1 (Z.land p 0x3f)).

Lemma tables_spec w support : 0 <= w <= 75 -> length support = 75%nat ->
  exists index_tab bit_tab, ofor (upto w) (fun i '(index_tab, bit_tab) =>
    s ← cell support i;
    index_tab ← set_cell index_tab i (Z.shiftr s 6);
    let pos := Z.land s 0x3f in
    bit_tab ← set_cell bit_tab i (Z.shiftl 1 pos);
    Some (index_tab, bit_tab)) (zeros PARAM_OMEGA_R, zeros PARAM_OMEGA_R) = Some (index_tab, bit_tab) /\
    tables (take (Z.to_nat w) support) index_tab bit_tab.
Proof.
  intros Hw Hl. set (P := fun (m : Z) (t : list Z * list Z) => length (fst t) = 75%nat /\ length (snd t) = 75%nat /\ tables (take (Z.to_nat m) support) (fst t) (snd t)).
  edestruct (ofor_upto_ind P w) as ([idx bit] & -> & _ & _ & H); [lia| | |exists idx, bit; split; [reflexivity|exact H]].
  - split_and!; [reflexivity|reflexivity|]. intros j p Hj. discriminate Hj.
  - intros i [idx bit] Hi (H1 & H2 & H3). cbn [fst snd] in *. destruct (cell_total support i) as (s & Es & Hs); [lia|]. rewrite Es, some_bind.
    rewrite !set_cell_total, some_bind, some_bind by lia. eexists. split; [reflexivity|]. unfold P. cbn [fst snd]. rewrite !length_insert. split_and!; [lia|lia|].
    intros j p Hj. apply lookup_take_Some in Hj. destruct Hj as [Hj Hlt]. destruct (decide (j = Z.to_nat i)) as [->|Hne].
    + rewrite Hs in Hj. injection Hj as <-. rewrite !list_lookup_insert_eq by lia. auto.
    + rewrite !list_lookup_insert_ne by lia. apply H3. apply lookup_take_Some. split; [exact Hj|lia].
Qed.

Lemma testbit_shiftl_1 k n : 0 <= k -> 0 <= n -> Z.testbit (Z.shiftl 1 k) n = (n =? k).
Proof.
  intros Hk Hn. rewrite Z.shiftl_spec by lia. destruct (Z.eqb_spec n k) as [->|Hne]; [rewrite Z.sub_diag; reflexivity|].
  destruct (Z.ltb_spec n k); [apply Z.testbit_neg_r; lia|]. apply Z.bits_above_log2; cbn; lia.
Qed.

Lemma support_word_spec w acc idx bit i : length acc = Z.to_nat w -> 0 <= w -> tables acc idx bit -> Forall (fun p => 0 <= p < PARAM_N) acc -> 0 <= i < 277 ->
  exists val, support_word w idx bit i = Some val /\ in_width 64 val /\ forall n, 0 <= n < 64 -> Z.testbit val n = bool_decide (64 * i + n ∈ acc).
Proof.
  intros Hl Hw Ht Hf Hi. unfold support_word.
  set (P := fun (m : Z) (val : Z) => in_width 64 val /\ forall n, 0 <= n < 64 -> Z.testbit val n = bool_decide (64 * i + n ∈ take (Z.to_nat m) acc)).
  edestruct (ofor_upto_ind P w) as (val & -> & Hv & Hb); [exact Hw| | |].
  - split; [apply width_0; lia|]. intros n Hn. rewrite Z.testbit_0_l. symmetry. apply bool_decide_false. apply not_elem_of_nil.
  - intros j val Hj (Hv & Hb). destruct (lookup_lt_is_Some_2 acc (Z.to_nat j) ltac:(lia)) as [p Hp]. destruct (Ht _ p Hp) as [Hidx Hbit].
    pose proof (proj1 (list.Forall_lookup _ _) Hf _ p Hp) as Hpr. cbn in Hpr. unfold PARAM_N in Hpr.
    rewrite !cell_lookup, Hidx, some_bind, Hbit, some_bind by lia. cbv zeta. eexists. split; [reflexivity|].
    change 0x3f with (Z.ones 6). rewrite (Z.shiftr_div_pow2 p 6), Z.land_ones by lia. change (2 ^ 6) with 64.
    pose proof (Z.div_mod p 64 ltac:(lia)) as Edm. pose proof (Z.mod_pos_bound p 64 ltac:(lia)) as Hm.
    rewrite equal_bit by lia.
    assert (Hone : in_width 64 (Z.shiftl 1 (p mod 64))) by (apply (width_mono (1 + p mod 64)); [lia|]; apply width_shiftl; [lia|lia|split; lia]).
    assert (Em : Z.land (Z.shiftl 1 (p mod 64)) (u64 (- (if i =? p / 64 then 1 else 0))) = if i =? p / 64 then Z.shiftl 1 (p mod 64) else 0).
    { destruct (i =? p / 64); [|apply Z.land_0_r]. change (u64 (- (1))) with (2 ^ 64 - 1). apply land_mask; [lia|exact Hone]. }
    rewrite Em. split.
    + apply lor_width; [lia|exact Hv|]. case_if; [exact Hone|apply width_0; lia].
    + intros n Hn. rewrite Z.lor_spec, Hb by exact Hn. replace (Z.to_nat (j + 1)) with (S (Z.to_nat j)) by lia. rewrite (take_S_r _ _ p Hp).
      rewrite (bool_decide_ext (64 * i + n ∈ take (Z.to_nat j) acc ++ [p]) (64 * i + n ∈ take (Z.to_nat j) acc \/ 64 * i + n = p))
        by (rewrite elem_of_app, list_elem_of_singleton; reflexivity).
      rewrite bool_decide_or. f_equal. destruct (Z.eqb_spec i (p / 64)) as [->|Hne].
      * rewrite testbit_shiftl_1 by lia. destruct (Z.eqb_spec n (p mod 64)); symmetry; [apply bool_decide_true|apply bool_decide_false]; lia.
      * rewrite Z.testbit_0_l. symmetry. apply bool_decide_false. lia.
  - exists val. split; [reflexivity|]. split; [exact Hv|]. intros n Hn. rewrite Hb by exact Hn. rewrite <- Hl, firstn_all. reflexivity.
Qed.

(** The loop over the words. *)
Lemma set_bits_spec w acc idx bit v : length acc = Z.to_nat w -> 0 <= w -> tables acc idx bit -> Forall (fun p => 0 <= p < PARAM_N) acc ->
  length v = 277%nat -> words_wf v ->
  exists v', ofor (upto VEC_N_SIZE_64) (fun i v => val ← support_word w idx bit i; vi ← cell v i; set_cell v i (Z.lor vi val)) v = Some v' /\
    length v' = 277%nat /\ words_wf v' /\ forall n, 0 <= n -> Z.testbit (poly v') n = Z.testbit (poly v) n || bool_decide (n ∈ acc).
Proof.
  intros Hl Hw Ht Hf Hlv Hwv. change VEC_N_SIZE_64 with 277.
  set (P := fun (m : Z) (v' : list Z) => length v' = 277%nat /\ words_wf v' /\
    forall n, 0 <= n -> Z.testbit (poly v') n = Z.testbit (poly v) n || (bool_decide (n < 64 * m) && bool_decide (n ∈ acc))).
  edestruct (ofor_upto_ind P 277) as (v' & -> & Hl' & Hw' & Hb'); [lia| | |].
  - split_and!; [exact Hlv|exact Hwv|]. intros n Hn. rewrite bool_decide_false by lia. rewrite orb_false_r. reflexivity.
  - intros i v1 Hi (Hl1 & Hw1 & Hb1). destruct (support_word_spec w acc idx bit i Hl Hw Ht Hf Hi) as (val & -> & Hval & Hbits). rewrite some_bind.
    destruct (cell_total v1 i) as (x & Ex & Hx); [lia|]. rewrite Ex, some_bind, set_cell_total by lia. eexists. split; [reflexivity|].
    assert (Hxw : in_width 64 x) by exact (proj1 (list.Forall_lookup _ _) Hw1 _ x Hx).
    assert (Hw2 : words_wf (<[Z.to_nat i:=Z.lor x val]> v1)) by (apply Forall_insert; [exact Hw1|apply lor_width; [lia|exact Hxw|exact Hval]]).
    split_and!; [rewrite length_insert; exact Hl1|exact Hw2|]. intros n Hn. pose proof (Hb1 n Hn) as E. rewrite poly_testbit in E |- * by assumption.
    pose proof (Z.div_mod n 64 ltac:(lia)) as Edm. pose proof (Z.mod_pos_bound n 64 ltac:(lia)) as Hm.
    destruct (decide (n / 64 = i)) as [Eq|Hne].
    + rewrite Eq, Hx in E. rewrite Eq, list_lookup_insert_eq by lia. cbn [from_option id] in *. rewrite Z.lor_spec, E, Hbits by exact Hm.
      rewrite (bool_decide_false (n < 64 * i)), (bool_decide_true (n < 64 * (i + 1))) by lia. cbn [andb]. rewrite orb_false_r.
      f_equal. f_equal. replace (64 * i + n mod 64) with n by lia. reflexivity.
    + rewrite list_lookup_insert_ne by (pose proof (Z.div_pos n 64); lia). rewrite E. f_equal. f_equal.
      apply bool_decide_ext. lia.
  - exists v'. split_and!; [reflexivity|exact Hl'|exact Hw'|]. intros n Hn. rewrite Hb' by exact Hn. f_equal.
    destruct (bool_decide_reflect (n ∈ acc)) as [Hin|]; [|apply andb_false_r]. rewrite bool_decide_true; [reflexivity|].
    apply list_elem_of_In, (proj1 (List.Forall_forall _ _) Hf) in Hin. unfold PARAM_N in Hin. lia.
Qed.

(** ** The other operations *)

Lemma is_vector_masked v x : length v = 276%nat -> words_wf v -> in_width 5 x -> is_vector (v ++ [x]).
Proof.
  intros Hl Hw Hx. split; [rewrite length_app, Hl; reflexivity|]. split; [apply Forall_app; split; [exact Hw|constructor; [apply (width_mono 5); [lia|exact Hx]|constructor]]|].
  rewrite poly_app, Hl. cbn [pack]. rewrite Z.shiftl_0_l, Z.lxor_0_r. change PARAM_N with (5 + 64 * Z.of_nat 276).
  apply width_lxor; [lia|apply (width_mono (64 * Z.of_nat 276)); [lia|]|apply width_shiftl; [lia|lia|exact Hx]].
  rewrite <- Hl. apply poly_width, Hw.
Qed.

(** A random vector has no bit beyond the coefficients. *)
Lemma vect_set_random_total ctx : expander ctx -> exists v' ctx', expander ctx' /\ is_vector v' /\ vect_set_random ctx (zeros VEC_N_SIZE_64) = Some (v', ctx').
Proof.
  intros Hctx. unfold vect_set_random. cbv zeta. destruct (seedexpander_total ctx VEC_N_SIZE_BYTES Hctx) as (out & s' & Hlo & Hbo & Hs' & E); [decided|].
  rewrite E, some_bind by decided. change (drop (Z.to_nat VEC_N_SIZE_BYTES) (zeros VEC_N_SIZE_BYTES)) with (@nil Z). rewrite app_nil_r.
  change VEC_N_SIZE_BYTES with 2209 in *. change VEC_N_SIZE_64 with 277. change (277 - 1) with 276.
  destruct (memcpy_to_words_eq (zeros 277) 0 out 2209) as (d & -> & Hl & Hw & _); [apply Forall_replicate, width_0; lia|exact Hbo|lia|lia|decided|].
  rewrite some_bind. change (length (zeros 277)) with 277%nat in Hl. destruct d as [|x d _] using rev_ind; [discriminate Hl|].
  rewrite length_app in Hl. cbn [length] in Hl. assert (Hd : length d = 276%nat) by lia. apply Forall_app in Hw. destruct Hw as [Hw _].
  change 276 with (Z.of_nat 276). rewrite <- Hd, cell_middle, some_bind, set_cell_middle, some_bind.
  eexists _, _. split; [exact Hs'|]. split; [|reflexivity]. apply is_vector_masked; [exact Hd|exact Hw|].
  change (BITMASK PARAM_N 64) with (Z.ones 5). rewrite Z.land_ones by lia. apply in_width_mod. lia.
Qed.

Lemma vect_set_random_from_prng_total g : expander g -> exists m g', expander g' /\ length m = 2%nat /\ words_wf m /\
  vect_set_random_from_prng g (zeros VEC_K_SIZE_64) = Some (m, g').
Proof.
  intros Hg. unfold vect_set_random_from_prng. cbv zeta. destruct (squeeze_total g VEC_K_SIZE_BYTES Hg) as (out & s' & Hlo & Hbo & Hs' & E); [decided|].
  unfold shake_prng. rewrite E, some_bind by decided. change (drop (Z.to_nat VEC_K_SIZE_BYTES) (zeros VEC_K_SIZE_BYTES)) with (@nil Z). rewrite app_nil_r.
  change VEC_K_SIZE_BYTES with 16 in *. change VEC_K_SIZE_64 with 2.
  destruct (memcpy_to_words_eq (zeros 2) 0 out 16) as (d & -> & Hl & Hw & _); [apply Forall_replicate, width_0; lia|exact Hbo|lia|lia|decided|].
  rewrite some_bind. exists d, s'. split_and!; [exact Hs'|exact Hl|exact Hw|reflexivity].
Qed.

Lemma vect_add_eq o v1 v2 n : Z.of_nat (length o) = n -> Z.of_nat (length v1) = n -> Z.of_nat (length v2) = n ->
  vect_add o v1 v2 n = Some (xor_words v1 v2).
Proof.
  intros Ho H1 H2. unfold vect_add. assert (Hn : 0 <= n) by lia.
  set (P := fun (m : Z) (o' : list Z) => o' = take (Z.to_nat m) (xor_words v1 v2) ++ drop (Z.to_nat m) o).
  assert (Hlx : length (xor_words v1 v2) = length v1) by (apply length_xor_words; lia).
  edestruct (ofor_upto_ind P n) as (o' & -> & HP); [exact Hn|reflexivity| |].
  - intros i o' Hi ->. destruct (lookup_lt_is_Some_2 v1 (Z.to_nat i) ltac:(lia)) as [x Hx], (lookup_lt_is_Some_2 v2 (Z.to_nat i) ltac:(lia)) as [y Hy].
    destruct (lookup_lt_is_Some_2 o (Z.to_nat i) ltac:(lia)) as [z Hz].
    rewrite !cell_lookup, Hx, some_bind, Hy, some_bind by lia. rewrite (drop_S o z _ Hz).
    assert (El : i = Z.of_nat (length (take (Z.to_nat i) (xor_words v1 v2)))) by (rewrite length_take; lia).
    rewrite (set_cell_at _ _ _ _ i El). eexists. split; [reflexivity|]. unfold P. replace (Z.to_nat (i + 1)) with (S (Z.to_nat i)) by lia.
    rewrite (take_S_r _ _ (Z.lxor x y)); [rewrite <- app_assoc; reflexivity|]. unfold xor_words. rewrite lookup_zip_with, Hx, Hy. reflexivity.
  - unfold P in HP. rewrite HP, drop_ge, app_nil_r, take_ge by lia. reflexivity.
Qed.

Lemma lor_bytes a b : is_u8 a -> is_u8 b -> is_u8 (Z.lor a b).
Proof. intros Ha Hb. apply lor_width; [lia|assumption..]. Qed.

(** The comparison is 0 when the first bytes agree and 1 when they do not. *)
Lemma vect_compare_eq v1 v2 n : all_bytes v1 -> all_bytes v2 -> 0 <= n <= Z.of_nat (length v1) -> n <= Z.of_nat (length v2) ->
  vect_compare v1 v2 n = Some (if bool_decide (take (Z.to_nat n) v1 = take (Z.to_nat n) v2) then 0 else 1).
Proof.
  intros Hb1 Hb2 H1 H2. unfold vect_compare.
  set (P := fun (m : Z) (r : Z) => is_u8 r /\ (r = 0 <-> take (Z.to_nat m) v1 = take (Z.to_nat m) v2)).
  edestruct (ofor_upto_ind P n) as (r & -> & Hr & Hz); [lia|split; [split; lia|split; reflexivity]| |].
  - intros i r Hi [Hr Hz]. destruct (lookup_lt_is_Some_2 v1 (Z.to_nat i) ltac:(lia)) as [x Hx], (lookup_lt_is_Some_2 v2 (Z.to_nat i) ltac:(lia)) as [y Hy].
    rewrite !cell_lookup, Hx, some_bind, Hy, some_bind by lia. eexists. split; [reflexivity|].
    assert (Hxb : is_u8 x) by exact (proj1 (list.Forall_lookup _ _) Hb1 _ x Hx). assert (Hyb : is_u8 y) by exact (proj1 (list.Forall_lookup _ _) Hb2 _ y Hy).
    split; [apply lor_bytes; [exact Hr|apply width_lxor; [lia|assumption..]]|].
    replace (Z.to_nat (i + 1)) with (S (Z.to_nat i)) by lia. rewrite (take_S_r v1 _ x Hx), (take_S_r v2 _ y Hy), Z.lor_eq_0_iff, Hz, Z.lxor_eq_0_iff.
    split; [intros [-> ->]; reflexivity|]. intros E. apply app_inj_2 in E; [|reflexivity]. destruct E as [E1 E2]. injection E2 as ->. auto.
  - rewrite some_bind. f_equal. rewrite (bool_decide_ext _ (r = 0)) by (symmetry; exact Hz). destruct (bool_decide_reflect (r = 0)) as [->|Hne]; [reflexivity|].
    assert (Er : u64 (u64 (Z.lnot r) + 1) = 2 ^ 64 - r).
    { unfold u64. rewrite Z.add_mod_idemp_l by lia. unfold Z.lnot. replace (Z.pred (- r) + 1) with (2 ^ 64 - r + (-1) * 2 ^ 64) by lia.
      rewrite Z.mod_add by lia. apply Z.mod_small. unfold is_u8, in_width in Hr. lia. }
    rewrite Er, Z.shiftr_div_pow2 by lia. unfold is_u8, in_width in Hr.
    rewrite <- (Z.div_unique (2 ^ 64 - r) (2 ^ 63) 1 (2 ^ 63 - r)) by lia. reflexivity.
Qed.

(** From 17664 bits to 17669: the first 276 words are copied. *)
Lemma vect_resize_up o v : length o = 277%nat -> length v = 276%nat -> words_wf o -> words_wf v ->
  vect_resize o PARAM_N v PARAM_N1N2 = Some (v ++ drop 276 o).
Proof.
  intros Ho Hv Hwo Hwv. unfold vect_resize. change (PARAM_N <? PARAM_N1N2) with false. cbv iota zeta.
  rewrite (memcpy_words_eq o v _ 276) by (assumption || lia || reflexivity). rewrite take_ge by lia. reflexivity.
Qed.
(** From 17669 bits to 17664: the last word is dropped and nothing is masked. *)
Lemma vect_resize_down o v : length o = 276%nat -> (276 <= length v)%nat -> words_wf o -> words_wf v ->
  vect_resize o PARAM_N1N2 v PARAM_N = Some (take 276 v).
Proof.
  intros Ho Hv Hwo Hwv. unfold vect_resize. change (PARAM_N1N2 <? PARAM_N) with true. change (PARAM_N1N2 mod 64) with 0. cbv iota zeta. cbn [negb Z.eqb].
  rewrite (memcpy_words_eq o v _ 276) by (assumption || lia || reflexivity). rewrite (drop_ge o), app_nil_r by lia. reflexivity.
Qed.

(** ** Properties *)

(** The positions that the first [n] candidates of an expander give. *)
Definition sample (n : nat) (ctx : list Z) (w : Z) : list Z := picked [] (draws n (3 * w) (DrawState ctx (zeros 225) (3 * w))).

Lemma picked_wf xs : forall acc, support_wf acc -> support_wf (picked acc xs).
Proof. induction xs as [|x xs IH]; intros acc Ha; [exact Ha|]. apply IH, pick_wf, Ha. Qed.
Lemma sample_wf n ctx w k : support_wf (take k (sample n ctx w)).
Proof.
  assert (H : support_wf (sample n ctx w)) by (apply picked_wf; split; constructor).
  rewrite <- (take_drop k (sample n ctx w)) in H. destruct H as [Hn Hf]. apply NoDup_app in Hn. apply Forall_app in Hf. split; [apply Hn|apply Hf].
Qed.

(** The state before the first candidate. *)
Definition draw_start (ctx : list Z) (w : Z) : draw_state := DrawState ctx (zeros (3 * PARAM_OMEGA_R)) (3 * w).
Lemma draw_start_wf ctx w : 1 <= w <= 75 -> expander ctx -> draw_wf w (draw_start ctx w).
Proof.
  intros Hw Hctx. split_and!; cbn [draw_start ds_ctx ds_rand_bytes ds_j]; [exact Hctx|reflexivity|apply all_bytes_zeros|exists w; lia].
Qed.

(** The sampler, once the positions are chosen. *)
Lemma fixed_weight_finish fuel ctx v w sup st : 1 <= w <= 75 -> length v = 277%nat -> words_wf v -> length sup = 75%nat ->
  support_wf (take (Z.to_nat w) sup) -> draw_support fuel w (3 * w) (zeros PARAM_OMEGA_R) 0 (draw_start ctx w) = Some (sup, st) ->
  exists v', vect_set_random_fixed_weight fuel ctx v w = Some (v', ds_ctx st) /\ length v' = 277%nat /\ words_wf v' /\
    forall i, 0 <= i -> Z.testbit (poly v') i = Z.testbit (poly v) i || bool_decide (i ∈ take (Z.to_nat w) sup).
Proof.
  intros Hw Hlv Hwv Hl Hwf E. unfold vect_set_random_fixed_weight. cbv zeta. fold (draw_start ctx w). rewrite E, some_bind.
  destruct (tables_spec w sup ltac:(lia) Hl) as (idx & bit & Et & Htab). cbv zeta in Et. rewrite Et, some_bind.
  destruct (set_bits_spec w (take (Z.to_nat w) sup) idx bit v) as (v' & Ev & Hlv' & Hwv' & Hbits);
    [rewrite length_take; lia|lia|exact Htab|apply Hwf|exact Hlv|exact Hwv|]. rewrite Ev, some_bind. exists v'. auto.
Qed.

(** A run of the sampler with enough fuel. *)
Lemma fixed_weight_run fuel n ctx v w :
  1 <= w <= PARAM_OMEGA_R -> expander ctx -> length v = 277%nat -> words_wf v ->
  (n <= fuel)%nat -> w <= Z.of_nat (length (sample n ctx w)) ->
  exists v' ctx', vect_set_random_fixed_weight fuel ctx v w = Some (v', ctx') /\ expander ctx' /\ length v' = 277%nat /\ words_wf v' /\
    forall i, 0 <= i -> Z.testbit (poly v') i = Z.testbit (poly v) i || bool_decide (i ∈ take (Z.to_nat w) (sample n ctx w)).
Proof.
  intros Hw Hctx Hlv Hwv Hn Hs. unfold PARAM_OMEGA_R in Hw.
  destruct (draw_support_spec w ltac:(lia) fuel n (draw_start ctx w) (zeros PARAM_OMEGA_R) [] Hn) as (sup & st & E & He & Hl & Ht);
    [apply draw_start_wf; [lia|exact Hctx]|reflexivity|reflexivity|cbn; lia|exact Hs|]. fold (sample n ctx w) in Ht.
  destruct (fixed_weight_finish fuel ctx v w sup st ltac:(lia) Hlv Hwv Hl) as (v' & Er & Hlv' & Hwv' & Hbits);
    [rewrite Ht; apply sample_wf|exact E|]. exists v', (ds_ctx st). rewrite Ht in Hbits. auto.
Qed.

(** Whatever the fuel, a vector that is returned has weight [w]. *)
Lemma fixed_weight_some fuel ctx v w v' ctx' : 1 <= w <= PARAM_OMEGA_R -> expander ctx -> length v = 277%nat -> words_wf v ->
  vect_set_random_fixed_weight fuel ctx v w = Some (v', ctx') -> expander ctx' /\ length v' = 277%nat /\ words_wf v' /\
  exists ps, support_wf ps /\ Z.of_nat (length ps) = w /\ forall i, 0 <= i -> Z.testbit (poly v') i = Z.testbit (poly v) i || bool_decide (i ∈ ps).
Proof.
  intros Hw Hctx Hlv Hwv Er. unfold PARAM_OMEGA_R in Hw. pose proof (draw_start_wf ctx w ltac:(lia) Hctx) as Hst.
  destruct (draw_support fuel w (3 * w) (zeros PARAM_OMEGA_R) 0 (draw_start ctx w)) as [[sup st]|] eqn:E.
  2: { unfold vect_set_random_fixed_weight in Er. cbv zeta in Er. fold (draw_start ctx w) in Er. rewrite E in Er. discriminate Er. }
  destruct (draw_support_some w ltac:(lia) fuel _ (zeros PARAM_OMEGA_R) [] sup st Hst) as (He & Hl & Hwf);
    [reflexivity|reflexivity|split; constructor|cbn; lia|exact E|].
  destruct (fixed_weight_finish fuel ctx v w sup st ltac:(lia) Hlv Hwv Hl Hwf E) as (v2 & Er2 & Hlv' & Hwv' & Hbits).
  rewrite Er in Er2. injection Er2 as -> ->. split_and!; [exact He|exact Hlv'|exact Hwv'|]. exists (take (Z.to_nat w) sup).
  split; [exact Hwf|]. split; [rewrite length_take; lia|exact Hbits].
Qed.

(** C32. Sampling by rejection: if among the first [n] candidates of three bytes that the
    expander gives at least [w] distinct positions are good (below the threshold, reduced
    modulo 17669), then both loops end within [n] candidates, no access leaves an array,
    and the vector gets exactly the bits at the first [w] of those positions, which are
    distinct and below 17669. *)
Theorem vect_set_random_fixed_weight_spec fuel n ctx v w :
  1 <= w <= PARAM_OMEGA_R -> expander ctx -> length v = 277%nat -> words_wf v ->
  (n <= fuel)%nat -> w <= Z.of_nat (length (sample n ctx w)) ->
  exists v' ctx' positions, vect_set_random_fixed_weight fuel ctx v w = Some (v', ctx') /\ expander ctx' /\
    positions = take (Z.to_nat w) (sample n ctx w) /\ Z.of_nat (length positions) = w /\
    NoDup positions /\ Forall (fun p => 0 <= p < PARAM_N) positions /\
    length v' = 277%nat /\ words_wf v' /\
    forall i, 0 <= i -> Z.testbit (poly v') i = Z.testbit (poly v) i || bool_decide (i ∈ positions).
Proof.
  intros Hw Hctx Hlv Hwv Hn Hs. destruct (fixed_weight_run fuel n ctx v w Hw Hctx Hlv Hwv Hn Hs) as (v' & ctx' & E & He & Hl & Hwf & Hb).
  destruct (sample_wf n ctx w (Z.to_nat w)) as [Hnd Hr]. exists v', ctx', (take (Z.to_nat w) (sample n ctx w)).
  split_and!; [exact E|exact He|reflexivity|rewrite length_take; lia|exact Hnd|exact Hr|exact Hl|exact Hwf|exact Hb].
Qed.

(** A seed expander, one bit. *)
Definition example_ctx : list Z := default [] (seedexpander_init (zeros 40) 40).
Lemma example_expander : expander example_ctx.
Proof.
  unfold example_ctx. destruct (seedexpander_init_total (zeros 40) 40 (all_bytes_zeros 40)) as (s & -> & Hs); [split; discriminate|exact Hs].
Qed.
Lemma vect_set_random_fixed_weight_spec_witness :
  1 <= Z.of_nat (length (sample 1 example_ctx 1)) /\
  exists v' ctx' positions, vect_set_random_fixed_weight 1 example_ctx (zeros 277) 1 = Some (v', ctx') /\ expander ctx' /\
    positions = take (Z.to_nat 1) (sample 1 example_ctx 1) /\ Z.of_nat (length positions) = 1 /\
    NoDup positions /\ Forall (fun p => 0 <= p < PARAM_N) positions /\
    length v' = 277%nat /\ words_wf v' /\
    forall i, 0 <= i -> Z.testbit (poly v') i = Z.testbit (poly (zeros 277)) i || bool_decide (i ∈ positions).
Proof.
  assert (H : 1 <= Z.of_nat (length (sample 1 example_ctx 1))) by decided. split; [exact H|].
  apply (vect_set_random_fixed_weight_spec 1 1 example_ctx (zeros 277) 1);
    [split; discriminate|exact example_expander|reflexivity|apply Forall_replicate, width_0; lia|lia|exact H].
Defined.
