(* ===== verification/Cyclic.v ===== *)
(** * The ring of HQC: polynomials modulo [X^n - 1]

    [vect_mul] reduces the product of two vectors modulo [X^17669 - 1].  The laws of
    that multiplication are what makes decryption cancel the terms of the key. *)

From S2P Require Import Prelude Carryless Words Sponge Prng Gf Gf2x Vector.

(** The value that [vect_mul] writes, as a function of the two operands. *)
Definition cmul (a b : Z) : Z := Z.lxor (clmul a b mod 2 ^ PARAM_N) (Z.shiftr (clmul a b) PARAM_N mod 2 ^ PARAM_N).

Abbreviation reduced := (in_width PARAM_N).

Lemma n_nonneg : 0 <= PARAM_N.
Proof. apply Z.leb_le. reflexivity. Qed.
Lemma n_pow_pos : 0 < 2 ^ PARAM_N.
Proof. apply Z.pow_pos_nonneg; [lia|exact n_nonneg]. Qed.
#[export] Hint Resolve n_nonneg n_pow_pos : core.

Lemma modulus_range : 2 ^ PARAM_N <= modulus < 2 ^ (PARAM_N + 1).
Proof. split; [apply Z.leb_le|apply Z.ltb_lt]; vm_compute; reflexivity. Qed.

Lemma reduced_nonneg a : reduced a -> 0 <= a.
Proof. intros [Ha _]. exact Ha. Qed.
#[export] Hint Resolve reduced_nonneg : core.

Lemma cmul_reduced a b : reduced (cmul a b).
Proof. apply width_lxor; [exact n_nonneg|apply in_width_mod, n_nonneg|apply in_width_mod, n_nonneg]. Qed.
#[export] Hint Resolve cmul_reduced : core.
Lemma reduced_lxor a b : reduced a -> reduced b -> reduced (Z.lxor a b).
Proof. apply width_lxor, n_nonneg. Qed.
#[export] Hint Resolve reduced_lxor : core.

Lemma cmul_remainder a b : reduced a -> reduced b -> remainder modulus PARAM_N (clmul a b) (cmul a b).
Proof.
  intros Ha Hb. pose proof (clmul_nonneg a b ltac:(auto) ltac:(auto)) as Hpos.
  assert (Hlt : reduced (Z.shiftr (clmul a b) PARAM_N)).
  { apply width_shiftr; [exact n_nonneg|exact n_nonneg|]. apply clmul_width; [exact n_nonneg|exact n_nonneg| |exact Hb]. apply (width_mono PARAM_N); [pose proof n_nonneg; lia|exact Ha]. }
  unfold cmul. rewrite (Z.mod_small (Z.shiftr _ _)) by exact Hlt. apply fold_remainder; [exact Hpos|apply Hlt].
Qed.

Lemma cmul_comm a b : 0 <= a -> 0 <= b -> cmul a b = cmul b a.
Proof. intros Ha Hb. unfold cmul. rewrite (clmul_comm a b Ha Hb). reflexivity. Qed.

Lemma cmul_lxor_r a b c : 0 <= a -> cmul a (Z.lxor b c) = Z.lxor (cmul a b) (cmul a c).
Proof. intros Ha. unfold cmul. rewrite clmul_lxor_r, Z.shiftr_lxor, !lxor_mod_pow2 by auto. lxor_solve. Qed.

Lemma cmul_assoc a b c : reduced a -> reduced b -> reduced c -> cmul a (cmul b c) = cmul (cmul a b) c.
Proof.
  intros Ha Hb Hc. pose proof modulus_range as Hm. assert (Hm0 : 0 <= modulus) by (pose proof n_pow_pos; lia).
  apply (remainder_unique modulus PARAM_N (clmul a (clmul b c))); [exact n_nonneg|exact Hm| |].
  - destruct (cmul_remainder a (cmul b c) Ha ltac:(auto)) as [Hw Hr]. split; [exact Hw|]. refine (congruent_trans _ _ _ _ _ Hr).
    apply congruent_clmul; [auto|exact Hm0|]. apply cmul_remainder; assumption.
  - destruct (cmul_remainder (cmul a b) c ltac:(auto) Hc) as [Hw Hr]. split; [exact Hw|]. refine (congruent_trans _ _ _ _ _ Hr).
    rewrite clmul_assoc, (clmul_comm (clmul a b) c), (clmul_comm (cmul a b) c) by auto using clmul_nonneg.
    apply congruent_clmul; [auto|exact Hm0|]. apply cmul_remainder; assumption.
Qed.

(** What is left of [s r2 + e + u y] when [s = x + y h] and [u = r1 + r2 h]. *)
Definition hqc_noise (x y r1 r2 e : Z) : Z := Z.lxor (Z.lxor (cmul x r2) (cmul r1 y)) e.

Lemma noise_left h x y r1 r2 e : reduced h -> reduced x -> reduced y -> reduced r1 -> reduced r2 -> reduced e ->
  let s := Z.lxor x (cmul y h) in let u := Z.lxor r1 (cmul r2 h) in
  Z.lxor (Z.lxor e (cmul r2 s)) (cmul y u) = hqc_noise x y r1 r2 e.
Proof.
  intros Hh Hx Hy Hr1 Hr2 He s u. unfold s, u, hqc_noise. rewrite !cmul_lxor_r by auto.
  assert (E : cmul r2 (cmul y h) = cmul y (cmul r2 h)) by (rewrite !cmul_assoc, (cmul_comm r2 y) by auto; reflexivity).
  rewrite E, (cmul_comm r2 x), (cmul_comm y r1) by auto. lxor_solve.
Qed.

(** ** Vectors *)

Lemma vector_reduced v : is_vector v -> reduced (poly v).
Proof. intros (_ & _ & Hr). exact Hr. Qed.
#[export] Hint Resolve vector_reduced : core.

(** An array of the size of a vector. *)
Definition is_array (l : words) : Prop := length l = 277%nat /\ words_wf l.
Lemma vector_array v : is_vector v -> is_array v.
Proof. intros (L & W & _). split; assumption. Qed.
#[export] Hint Resolve vector_array : core.

Lemma vect_mul_eq o a b : length o = 277%nat -> is_array a -> is_array b -> exists o', vect_mul o a b = Some o' /\ is_vector o' /\ poly o' = cmul (poly a) (poly b).
Proof.
  intros Ho (La & Wa) (Lb & Wb). destruct (vect_mul_run o a b Ho La Lb Wa Wb) as (o' & E & L & W & Hp). exists o'.
  split; [exact E|]. split; [|exact Hp]. split_and!; [exact L|exact W|]. rewrite Hp. apply (cmul_reduced (poly a) (poly b)).
Qed.

Lemma vect_add_vector o a b : length o = 277%nat -> is_vector a -> is_vector b ->
  exists o', vect_add o a b VEC_N_SIZE_64 = Some o' /\ is_vector o' /\ poly o' = Z.lxor (poly a) (poly b).
Proof.
  intros Ho (La & Wa & Ra) (Lb & Wb & Rb). exists (xor_words a b). rewrite vect_add_eq by (rewrite ?Ho, ?La, ?Lb; reflexivity).
  assert (E : poly (xor_words a b) = Z.lxor (poly a) (poly b)) by (apply poly_xor; congruence). split; [reflexivity|]. split; [|exact E].
  split_and!; [rewrite length_xor_words; congruence|apply xor_words_wf; assumption|rewrite E; auto].
Qed.

Lemma is_vector_zeros : is_vector (zeros 277).
Proof. split_and!; [reflexivity|apply Forall_replicate, width_0; lia|]. unfold zeros. rewrite poly_zeros. apply width_0, n_nonneg. Qed.

(** A number without high bits. *)
Lemma width_of_bits w p : 0 <= w -> 0 <= p -> (forall i, w <= i -> Z.testbit p i = false) -> in_width w p.
Proof.
  intros Hw Hp Hb. assert (E : p mod 2 ^ w = p); [|rewrite <- E; apply in_width_mod, Hw].
  apply Z.bits_inj'. intros i Hi. destruct (Z.ltb_spec i w); [apply Z.mod_pow2_bits_low; lia|].
  rewrite Z.mod_pow2_bits_high by lia. symmetry. apply Hb. lia.
Qed.

Lemma bits_reduced v ps : words_wf v -> Forall (fun p => 0 <= p < PARAM_N) ps -> (forall i, 0 <= i -> Z.testbit (poly v) i = bool_decide (i ∈ ps)) -> reduced (poly v).
Proof.
  intros Hw Hp Hb. apply width_of_bits; [exact n_nonneg|apply poly_nonneg, Hw|]. intros i Hi. pose proof n_nonneg. rewrite Hb by lia.
  apply bool_decide_eq_false. intros Hin. apply (proj1 (list.Forall_forall _ _) Hp) in Hin. lia.
Qed.

(** A vector with exactly [w] ones. *)
Definition sparse (w : Z) (v : words) : Prop := is_vector v /\
  exists ps, NoDup ps /\ Z.of_nat (length ps) = w /\ forall i, 0 <= i -> Z.testbit (poly v) i = bool_decide (i ∈ ps).
Lemma sparse_vector w v : sparse w v -> is_vector v.
Proof. intros [Hv _]. exact Hv. Qed.
#[export] Hint Resolve sparse_vector : core.

(** What the sampler returns. *)
Lemma fixed_weight_vector fuel ctx w v ctx' : 1 <= w <= PARAM_OMEGA_R -> expander ctx ->
  vect_set_random_fixed_weight fuel ctx (zeros VEC_N_SIZE_64) w = Some (v, ctx') -> expander ctx' /\ sparse w v.
Proof.
  intros Hw Hctx E. destruct (fixed_weight_some fuel ctx (zeros VEC_N_SIZE_64) w v ctx' Hw Hctx) as (He & Hl & Hwf & ps & [Hnd Hps] & Hlen & Hb);
    [reflexivity|apply Forall_replicate, width_0; lia|exact E|]. split; [exact He|].
  assert (Hbits : forall i, 0 <= i -> Z.testbit (poly v) i = bool_decide (i ∈ ps)).
  { intros i Hi. rewrite Hb by exact Hi. unfold zeros. rewrite poly_zeros, Z.testbit_0_l. reflexivity. }
  split; [|exists ps; auto]. split_and!; [exact Hl|exact Hwf|exact (bits_reduced v ps Hwf Hps Hbits)].
Qed.
