(* ===== verification/ReedMuller.v ===== *)
(** * The duplicated Reed-Muller code: [reed_muller.c]

    A byte is encoded into 128 bits by RM(1,7) and the 128 bits are repeated three
    times; decoding adds the copies, takes the Hadamard transform of the 128 counts
    and looks for the entry of greatest absolute value.  What that entry means for the
    distances between words is in RmDistance. *)

From S2P Require Import Prelude Carryless Words Gf Gf2x Vector.

(* src/extern/HQC-Round4/Additional_Implementation/hqc-128/src/reed_muller.c:12-12 MULTIPLICITY *)
Definition MULTIPLICITY : Z := CEIL_DIVIDE PARAM_N2 128.

(** An [int32_t] that only sees bitwise operations is held by its 32 bits. *)
(* src/extern/HQC-Round4/Additional_Implementation/hqc-128/src/reed_muller.c:24-24 BIT0MASK *)
Definition BIT0MASK (x : Z) : Z := u32 (- Z.land x 1).

(** A value stored in an [int16_t]. *)
Definition s16 (x : Z) : Z := let y := u16 x in if y <? 2 ^ 15 then y else y - 2 ^ 16.

(** The codeword [pos] of an array of codewords, seen as 32-bit cells, four to a codeword. *)
(* src/extern/HQC-Round4/Additional_Implementation/hqc-128/src/reed_muller.c:51-71 encode *)
Definition encode (codeArray : list Z) (pos message : Z) : option (list Z) :=
  let first_word := BIT0MASK (Z.shiftr message 7) in
  let first_word := Z.lxor first_word (Z.land (BIT0MASK (Z.shiftr message 0)) 0xaaaaaaaa) in
  let first_word := Z.lxor first_word (Z.land (BIT0MASK (Z.shiftr message 1)) 0xcccccccc) in
  let first_word := Z.lxor first_word (Z.land (BIT0MASK (Z.shiftr message 2)) 0xf0f0f0f0) in
  let first_word := Z.lxor first_word (Z.land (BIT0MASK (Z.shiftr message 3)) 0xff00ff00) in
  let first_word := Z.lxor first_word (Z.land (BIT0MASK (Z.shiftr message 4)) 0xffff0000) in
  codeArray ← set_cell codeArray (4 * pos) first_word;
  let first_word := Z.lxor first_word (BIT0MASK (Z.shiftr message 5)) in
  codeArray ← set_cell codeArray (4 * pos + 1) first_word;
  let first_word := Z.lxor first_word (BIT0MASK (Z.shiftr message 6)) in
  codeArray ← set_cell codeArray (4 * pos + 3) first_word;
  let first_word := Z.lxor first_word (BIT0MASK (Z.shiftr message 5)) in
  set_cell codeArray (4 * pos + 2) first_word.

(** One pass, from [p1] to [p2]. *)
(* src/extern/HQC-Round4/Additional_Implementation/hqc-128/src/reed_muller.c:91-94 hadamard *)
Definition hadamard_pass (p1 p2 : list Z) : option (list Z) :=
  ofor (upto 64) (fun i p2 =>
    a ← cell p1 (2 * i); b ← cell p1 (2 * i + 1);
    p2 ← set_cell p2 i (s16 (a + b));
    set_cell p2 (i + 64) (s16 (a - b))) p2.

(** The pair is ([p1], [p2]); after seven swaps [p1] is [dst] and [p2] is [src]. *)
(* src/extern/HQC-Round4/Additional_Implementation/hqc-128/src/reed_muller.c:84-100 hadamard *)
Definition hadamard (src dst : list Z) : option (list Z * list Z) :=
  '(p1, p2) ← ofor (upto 7) (fun _ '(p1, p2) => p2 ← hadamard_pass p1 p2; Some (p2, p1)) (src, dst);
  Some (p2, p1).

(** [src] is the array of 32-bit cells from the first codeword on; [first] is its index. *)
(* src/extern/HQC-Round4/Additional_Implementation/hqc-128/src/reed_muller.c:117-132 expand_and_sum *)
Definition expand_and_sum (dest : list Z) (codeArray : list Z) (first : Z) : option (list Z) :=
  dest ← ofor (upto 4) (fun part dest => ofor (upto 32) (fun bit dest =>
    x ← cell codeArray (4 * first + part);
    set_cell dest (part * 32 + bit) (Z.land (Z.shiftr x bit) 1)) dest) dest;
  ofor (seqZ 1 (MULTIPLICITY - 1)) (fun copy dest => ofor (upto 4) (fun part dest => ofor (upto 32) (fun bit dest =>
    x ← cell codeArray (4 * (first + copy) + part);
    d ← cell dest (part * 32 + bit);
    set_cell dest (part * 32 + bit) (s16 (d + Z.land (Z.shiftr x bit) 1))) dest) dest) dest.

(* src/extern/HQC-Round4/Additional_Implementation/hqc-128/src/reed_muller.c:145-162 find_peaks *)
Definition find_peaks (transform : list Z) : option Z :=
  '(peak_abs_value, peak_value, peak_pos) ← ofor (upto 128) (fun i '(peak_abs_value, peak_value, peak_pos) =>
    t ← cell transform i;
    let pos_mask := - (if 0 <? t then 1 else 0) in
    let absolute := Z.lor (Z.land pos_mask t) (Z.land (Z.lnot pos_mask) (- t)) in
    let peak_value := if peak_abs_value <? absolute then t else peak_value in
    let peak_pos := if peak_abs_value <? absolute then i else peak_pos in
    let peak_abs_value := if peak_abs_value <? absolute then absolute else peak_abs_value in
    Some (peak_abs_value, peak_value, peak_pos)) (0, 0, 0);
  Some (Z.lor peak_pos (128 * (if 0 <? peak_value then 1 else 0))).

(* src/extern/HQC-Round4/Additional_Implementation/hqc-128/src/reed_muller.c:175-189 reed_muller_encode *)
Definition reed_muller_encode (cdw msg : words) : option words :=
  let message_array := as_bytes msg in
  codeArray ← ofor (upto VEC_N1_SIZE_BYTES) (fun i codeArray =>
    let pos := i * MULTIPLICITY in
    m ← cell message_array i;
    codeArray ← encode codeArray pos m;
    ofor (seqZ 1 (MULTIPLICITY - 1)) (fun copy codeArray =>
      word ← mem_read codeArray (4 * pos) 4;
      mem_write codeArray (4 * (pos + copy)) word) codeArray) (as_u32 cdw);
  Some (of_u32 codeArray).

(** The local arrays [expanded] and [transform] are filled before they are read. *)
(* src/extern/HQC-Round4/Additional_Implementation/hqc-128/src/reed_muller.c:202-217 reed_muller_decode *)
Definition reed_muller_decode (msg cdw : words) : option words :=
  let codeArray := as_u32 cdw in
  message_array ← ofor (upto VEC_N1_SIZE_BYTES) (fun i message_array =>
    expanded ← expand_and_sum (zeros 128) codeArray (i * MULTIPLICITY);
    '(_, transform) ← hadamard expanded (zeros 128);
    t0 ← cell transform 0;
    transform ← set_cell transform 0 (s16 (t0 - 64 * MULTIPLICITY));
    peak ← find_peaks transform;
    set_cell message_array i (u8 peak)) (as_bytes msg);
  Some (of_bytes message_array).

(** ** Passes over lists *)

Fixpoint pairs {A} (f : A -> A -> A) (l : list A) : list A := match l with a :: b :: l => f a b :: pairs f l | _ => [] end.
(** One pass without wrap-around. *)
Definition pass (l : list Z) : list Z := pairs Z.add l ++ pairs Z.sub l.
Definition transformed (l : list Z) : list Z := Nat.iter 7 pass l.

(** Induction on lists, two elements at a time. *)
Lemma pair_ind {A} (P : list A -> Prop) : P [] -> (forall a, P [a]) -> (forall a b l, P l -> P (a :: b :: l)) -> forall l, P l.
Proof.
  intros H0 H1 H2. enough (H : forall l, P l /\ forall a, P (a :: l)) by (intros l; apply H).
  induction l as [|b l [IH IH1]]; [auto|]. split; [apply IH1|]. intros a. apply H2, IH.
Qed.

Lemma length_pairs {A} (f : A -> A -> A) l : (2 * length (pairs f l) <= length l < 2 * length (pairs f l) + 2)%nat.
Proof. induction l as [|a|a b l IH] using pair_ind; cbn [pairs length]; lia. Qed.
Lemma pairs_lookup {A} (f : A -> A -> A) l : forall i a b, l !! (2 * i)%nat = Some a -> l !! (2 * i + 1)%nat = Some b -> pairs f l !! i = Some (f a b).
Proof.
  induction l as [|x|x y l IH] using pair_ind; intros i a b Ha Hb; [discriminate|apply lookup_lt_Some in Hb; cbn in Hb; lia|].
  destruct i as [|i]; [cbn in Ha, Hb; injection Ha as <-; injection Hb as <-; reflexivity|]. cbn [pairs lookup list_lookup]. apply IH.
  - replace (2 * S i)%nat with (S (S (2 * i))) in Ha by lia. exact Ha.
  - replace (2 * S i + 1)%nat with (S (S (2 * i + 1))) in Hb by lia. exact Hb.
Qed.
Lemma pairs_app {A} (f : A -> A -> A) l1 l2 : Nat.Even (length l1) -> pairs f (l1 ++ l2) = pairs f l1 ++ pairs f l2.
Proof.
  induction l1 as [|a|a b l1 IH] using pair_ind; intros He; [reflexivity|destruct He as [k Hk]; cbn in Hk; lia|].
  cbn [app pairs]. f_equal. apply IH. destruct He as [k Hk]. exists (k - 1)%nat. cbn in Hk. lia.
Qed.
Lemma pairs_Forall {A} (P Q : A -> Prop) (f : A -> A -> A) : (forall a b, P a -> P b -> Q (f a b)) -> forall l, Forall P l -> Forall Q (pairs f l).
Proof.
  intros Hf. induction l as [|a|a b l IH] using pair_ind; intros Hl; [constructor|constructor|].
  inversion_clear Hl as [|? ? Ha Hl1]. inversion_clear Hl1 as [|? ? Hb Hl2]. constructor; auto.
Qed.

Lemma length_pass l : Nat.Even (length l) -> length (pass l) = length l.
Proof.
  intros [k Hk]. unfold pass. rewrite length_app. pose proof (length_pairs Z.add l). pose proof (length_pairs Z.sub l). lia.
Qed.
Lemma length_passes n l : length l = 128%nat -> length (Nat.iter n pass l) = 128%nat.
Proof.
  intros Hl. induction n as [|n IH]; [exact Hl|]. rewrite !Nat.iter_succ. rewrite length_pass; [exact IH|]. exists 64%nat. exact IH.
Qed.
Lemma length_transformed l : length l = 128%nat -> length (transformed l) = 128%nat.
Proof. apply length_passes. Qed.

(** ** No entry exceeds the sum of the absolute values *)

Definition lsum (l : list Z) : Z := foldr Z.add 0 l.
Definition bounded_by : list Z -> list Z -> Prop := Forall2 (fun x y => Z.abs x <= y).
Definition half : list Z -> list Z := pairs Z.add.
Definition copies (n : nat) (l : list Z) : list Z := concat (replicate n l).

Lemma pairs_bounded f l m : (forall a b, Z.abs (f a b) <= Z.abs a + Z.abs b) -> bounded_by l m -> bounded_by (pairs f l) (half m).
Proof.
  intros Hf. revert m. induction l as [|a|a b l IH] using pair_ind; intros m H.
  - inversion H. constructor.
  - inversion_clear H as [|? ? ? ? H1 H2]. inversion_clear H2. constructor.
  - inversion_clear H as [|? x ? m' H1 H2]. inversion_clear H2 as [|? y ? m'' H3 H4]. constructor; [specialize (Hf a b); lia|apply IH, H4].
Qed.
Lemma pass_bounded l m : bounded_by l m -> bounded_by (pass l) (half m ++ half m).
Proof. intros H. apply Forall2_app; apply pairs_bounded; try exact H; intros; lia. Qed.

Lemma lsum_half l : Nat.Even (length l) -> lsum (half l) = lsum l.
Proof.
  induction l as [|a|a b l IH] using pair_ind; intros [k Hk]; [reflexivity|cbn in Hk; lia|].
  cbn [half pairs lsum foldr]. fold (half l) (lsum (half l)) (lsum l). rewrite IH by (exists (k - 1)%nat; cbn in Hk; lia). lia.
Qed.
Lemma length_half l n : length l = (2 * n)%nat -> length (half l) = n.
Proof. intros Hl. pose proof (length_pairs Z.add l). unfold half. lia. Qed.

Lemma half_copies n l : Nat.Even (length l) -> half (copies n l) = copies n (half l).
Proof.
  intros He. unfold copies. induction n as [|n IH]; [reflexivity|]. cbn [replicate concat]. unfold half in *. rewrite pairs_app by exact He. rewrite IH. reflexivity.
Qed.
Lemma copies_double n l : copies n l ++ copies n l = copies (2 * n) l.
Proof. unfold copies. replace (2 * n)%nat with (n + n)%nat by lia. rewrite replicate_add, concat_app. reflexivity. Qed.

Lemma iterated_bound k : forall m, length m = (2 ^ k)%nat -> exists s, Nat.iter k (fun m => half m ++ half m) m = copies (2 ^ k) [s] /\ s = lsum m.
Proof.
  (* after [j] passes there are 2^j copies of the list halved [j] times *)
  intros m Hm. enough (H : forall j, (j <= k)%nat -> Nat.iter j (fun m => half m ++ half m) m = copies (2 ^ j) (Nat.iter j half m) /\
    length (Nat.iter j half m) = (2 ^ (k - j))%nat /\ lsum (Nat.iter j half m) = lsum m).
  { destruct (H k ltac:(lia)) as (E & Hl & Hs). rewrite Nat.sub_diag in Hl. destruct (Nat.iter k half m) as [|s [|]]; try discriminate Hl.
    exists s. split; [exact E|]. cbn in Hs. lia. }
  induction j as [|j IH]; intros Hj; [cbn; rewrite Nat.sub_0_r; unfold copies; cbn; rewrite app_nil_r; auto|].
  destruct (IH ltac:(lia)) as (E & Hl & Hs). rewrite !Nat.iter_succ.
  assert (Hl2 : length (Nat.iter j half m) = (2 * 2 ^ (k - S j))%nat) by (rewrite Hl; replace (k - j)%nat with (S (k - S j)) by lia; cbn; lia).
  assert (He : Nat.Even (length (Nat.iter j half m))) by (exists (2 ^ (k - S j))%nat; exact Hl2).
  rewrite E, half_copies, copies_double by exact He. split_and!; [reflexivity|apply length_half, Hl2|rewrite lsum_half by exact He; exact Hs].
Qed.

Lemma transformed_bound d k x : length d = 128%nat -> transformed d !! k = Some x -> Z.abs x <= lsum (Z.abs <$> d).
Proof.
  intros Hd Hx. assert (H : forall n, bounded_by (Nat.iter n pass d) (Nat.iter n (fun m => half m ++ half m) (Z.abs <$> d))).
  { induction n as [|n IH]; [|rewrite !Nat.iter_succ; apply pass_bounded, IH]. cbn [Nat.iter].
    clear. induction d as [|a d IH]; constructor; [lia|exact IH]. }
  destruct (iterated_bound 7 (Z.abs <$> d)) as (s & E & ->); [rewrite length_fmap; exact Hd|].
  specialize (H 7%nat). rewrite E in H. apply Forall2_lookup_l with (i := k) (x := x) in H; [|exact Hx]. destruct H as (y & Hy & Hxy).
  unfold copies in Hy. assert (y ∈ concat (replicate (2 ^ 7) [lsum (Z.abs <$> d)])) as Hin by (apply list_elem_of_lookup; eauto).
  apply list_elem_of_In in Hin. apply in_concat in Hin. destruct Hin as (c & Hc & Hyc).
  apply repeat_spec in Hc || apply list_elem_of_In, elem_of_replicate in Hc.
  destruct Hc as [-> _]. destruct Hyc as [<-|[]]. exact Hxy.
Qed.

(** ** The code computes the transform *)

Lemma s16_id x : - 2 ^ 15 <= x < 2 ^ 15 -> s16 x = x.
Proof.
  intros Hx. unfold s16, u16. cbv zeta. destruct (Z.ltb_spec x 0).
  - assert (E : x mod 2 ^ 16 = x + 2 ^ 16) by (symmetry; apply (Z.mod_unique_pos x (2 ^ 16) (-1)); lia).
    rewrite E. destruct (Z.ltb_spec (x + 2 ^ 16) (2 ^ 15)); lia.
  - rewrite Z.mod_small by lia. destruct (Z.ltb_spec x (2 ^ 15)); lia.
Qed.

Definition below (B : Z) : list Z -> Prop := Forall (fun x => Z.abs x <= B).

Lemma pass_below B l : below B l -> below (2 * B) (pass l).
Proof. intros Hl. apply Forall_app. split; apply (pairs_Forall (fun x => Z.abs x <= B)); try exact Hl; intros; lia. Qed.

Lemma hadamard_pass_eq B p1 p2 : length p1 = 128%nat -> length p2 = 128%nat -> below B p1 -> 2 * B < 2 ^ 15 -> hadamard_pass p1 p2 = Some (pass p1).
Proof.
  intros H1 H2 HB Hlt. unfold hadamard_pass.
  set (P := fun (m : Z) (p : list Z) => length p = 128%nat /\
    forall k, (k < Z.to_nat m)%nat -> p !! k = pairs Z.add p1 !! k /\ p !! (64 + k)%nat = pairs Z.sub p1 !! k).
  edestruct (ofor_upto_ind P 64) as (p & -> & Hl & Hp); [lia|split; [exact H2|intros k Hk; cbn in Hk; lia]| |].
  - intros i p Hi [Hl Hp].
    destruct (lookup_lt_is_Some_2 p1 (2 * Z.to_nat i) ltac:(lia)) as [a Ha], (lookup_lt_is_Some_2 p1 (2 * Z.to_nat i + 1) ltac:(lia)) as [b Hb].
    assert (Hab : Z.abs a <= B /\ Z.abs b <= B) by (split; [exact (proj1 (list.Forall_lookup _ _) HB _ a Ha)|exact (proj1 (list.Forall_lookup _ _) HB _ b Hb)]).
    rewrite (cell_nat p1 (2 * Z.to_nat i) (2 * i)), Ha, some_bind, (cell_nat p1 (2 * Z.to_nat i + 1) (2 * i + 1)), Hb, some_bind by lia.
    rewrite !s16_id by lia. rewrite set_cell_total, some_bind, set_cell_total by (rewrite ?length_insert; lia).
    eexists. split; [reflexivity|]. split; [rewrite !length_insert; exact Hl|]. intros k Hk.
    pose proof (pairs_lookup Z.add p1 (Z.to_nat i) a b Ha Hb) as Ea. pose proof (pairs_lookup Z.sub p1 (Z.to_nat i) a b Ha Hb) as Es.
    replace (Z.to_nat (i + 64)) with (64 + Z.to_nat i)%nat by lia. destruct (decide (k = Z.to_nat i)) as [->|Hne].
    + rewrite (list_lookup_insert_ne _ (64 + Z.to_nat i)), !list_lookup_insert_eq by (rewrite ?length_insert; lia). auto.
    + rewrite !list_lookup_insert_ne by lia. apply Hp. lia.
  - f_equal. pose proof (length_pairs Z.add p1). pose proof (length_pairs Z.sub p1). unfold pass. apply list_eq. intros k.
    destruct (decide (k < 64)%nat); [rewrite lookup_app_l by lia; apply Hp; lia|]. rewrite lookup_app_r by lia. replace (length (pairs Z.add p1)) with 64%nat by lia.
    destruct (decide (k < 128)%nat); [|rewrite !lookup_ge_None_2 by lia; reflexivity]. replace k with (64 + (k - 64))%nat at 1 by lia. apply Hp. lia.
Qed.

Lemma hadamard_eq src dst : length src = 128%nat -> length dst = 128%nat -> below 3 src -> exists s, hadamard src dst = Some (s, transformed src).
Proof.
  intros Hs Hd Hb. unfold hadamard. change (upto 7) with [0; 1; 2; 3; 4; 5; 6].
  assert (Hl : forall n, length (Nat.iter n pass src) = 128%nat) by (intros n; apply length_passes, Hs).
  assert (HB : forall n, below (3 * 2 ^ Z.of_nat n) (Nat.iter n pass src)).
  { induction n as [|n IH]; [exact Hb|]. rewrite Nat.iter_succ, Nat2Z.inj_succ, Z.pow_succ_r by lia. replace (3 * (2 * 2 ^ Z.of_nat n)) with (2 * (3 * 2 ^ Z.of_nat n)) by lia. apply pass_below, IH. }
  assert (Hstep : forall n p2, (n < 7)%nat -> length p2 = 128%nat -> hadamard_pass (Nat.iter n pass src) p2 = Some (Nat.iter (S n) pass src)).
  { intros n p2 Hn H2. rewrite Nat.iter_succ. apply (hadamard_pass_eq (3 * 2 ^ Z.of_nat n)); [apply Hl|exact H2|apply HB|].
    assert (2 ^ Z.of_nat n <= 2 ^ 6) by (apply Z.pow_le_mono_r; lia). lia. }
  cbn [ofor]. change src with (Nat.iter 0 pass src) at 1 2.
  rewrite Hstep by (try apply Hl; try exact Hd; lia). rewrite !some_bind. rewrite Hstep by (try apply Hl; lia). rewrite !some_bind.
  rewrite Hstep by (try apply Hl; lia). rewrite !some_bind. rewrite Hstep by (try apply Hl; lia). rewrite !some_bind.
  rewrite Hstep by (try apply Hl; lia). rewrite !some_bind. rewrite Hstep by (try apply Hl; lia). rewrite !some_bind.
  rewrite Hstep by (try apply Hl; lia). rewrite !some_bind. eexists. reflexivity.
Qed.

(** ** The peak *)

Lemma absolute_eq t : let pos_mask := - (if 0 <? t then 1 else 0) in Z.lor (Z.land pos_mask t) (Z.land (Z.lnot pos_mask) (- t)) = Z.abs t.
Proof.
  cbv zeta. destruct (Z.ltb_spec 0 t).
  - change (Z.lnot (- (1))) with 0. rewrite Z.land_0_l, Z.lor_0_r. change (- (1)) with (-1). rewrite Z.land_m1_l. lia.
  - change (Z.lnot (- 0)) with (-1). rewrite Z.land_0_l, Z.lor_0_l, Z.land_m1_l. lia.
Qed.

(** The value found, without its sign: 128 is added when the entry is positive. *)
Definition peak_of (k t : Z) : Z := k + 128 * (if 0 <? t then 1 else 0).

Lemma peak_lor k b : 0 <= k < 128 -> Z.lor k (128 * (if (b : bool) then 1 else 0)) = k + 128 * (if b then 1 else 0).
Proof.
  intros Hk. destruct b; [|rewrite Z.lor_0_r, Z.add_0_r; reflexivity]. change (128 * 1) with (Z.shiftl 1 7). rewrite Z.lor_comm, lor_shiftl_add by lia. change (Z.shiftl 1 7) with 128. lia.
Qed.

(** The byte comes from an entry of greatest absolute value. *)
Lemma find_peaks_spec transform : length transform = 128%nat -> exists r, find_peaks transform = Some r /\ 0 <= r < 256 /\
  exists k0 t0, transform !! k0 = Some t0 /\ (forall k t, transform !! k = Some t -> Z.abs t <= Z.abs t0) /\ r = peak_of (Z.of_nat k0) t0.
Proof.
  intros Hl. unfold find_peaks.
  set (P := fun (m : Z) (s : Z * Z * Z) => let '(a, v, pos) := s in 0 <= a /\ 0 <= pos < 128 /\ (forall k t, (k < Z.to_nat m)%nat -> transform !! k = Some t -> Z.abs t <= a) /\
    ((a = 0 /\ v = 0 /\ pos = 0) \/ exists k, (k < Z.to_nat m)%nat /\ transform !! k = Some v /\ a = Z.abs v /\ pos = Z.of_nat k)).
  edestruct (ofor_upto_ind P 128) as ([[a v] pos] & -> & Ha & Hpos & Hle & Hex); [lia| | |].
  - split_and!; [lia|lia|lia|intros k t Hk; cbn in Hk; lia|left; auto].
  - intros i [[a v] pos] Hi (Ha & Hpos & Hle & Hex). destruct (lookup_lt_is_Some_2 transform (Z.to_nat i) ltac:(lia)) as [t Ht].
    rewrite cell_lookup, Ht, some_bind by lia. cbv zeta. rewrite absolute_eq. eexists. split; [reflexivity|]. unfold P.
    assert (Hk : forall k, (k < Z.to_nat (i + 1))%nat -> (k < Z.to_nat i)%nat \/ k = Z.to_nat i) by lia.
    destruct (Z.ltb_spec a (Z.abs t)) as [Hlt|Hge].
    + split_and!; [lia|lia|lia| |right; exists (Z.to_nat i); split_and!; [lia|exact Ht|reflexivity|lia]].
      intros k u Hku Hu. destruct (Hk k Hku) as [Hlow| ->]; [specialize (Hle k u Hlow Hu); lia|]. rewrite Ht in Hu. injection Hu as ->. lia.
    + split_and!; [lia|lia|lia| |destruct Hex as [H0|(k & Hk1 & Hk2 & Hk3)]; [left; exact H0|right; exists k; split; [lia|auto]]].
      intros k u Hku Hu. destruct (Hk k Hku) as [Hlow| ->]; [exact (Hle k u Hlow Hu)|]. rewrite Ht in Hu. injection Hu as <-. exact Hge.
  - rewrite some_bind, peak_lor by lia. eexists. split; [reflexivity|]. split; [case_if; lia|]. unfold peak_of.
    assert (Hall : forall k t, transform !! k = Some t -> Z.abs t <= a) by (intros k t Ht; pose proof (lookup_lt_Some _ _ _ Ht); apply (Hle k t); [lia|exact Ht]).
    destruct Hex as [(-> & -> & ->)|(k & _ & Hv & -> & ->)]; [|exists k, v; auto].
    destruct (lookup_lt_is_Some_2 transform 0%nat ltac:(lia)) as [t Ht]. exists 0%nat, t. specialize (Hall 0%nat t Ht) as H0. replace t with 0 in * by lia. auto.
Qed.

(** ** The codewords *)

(** The four cells of the codeword of a byte. *)
Definition encode_cells (message : Z) : list Z :=
  let bit i := BIT0MASK (Z.shiftr message i) in
  let w := Z.lxor (Z.lxor (Z.lxor (Z.lxor (Z.lxor (bit 7) (Z.land (bit 0) 0xaaaaaaaa)) (Z.land (bit 1) 0xcccccccc))
    (Z.land (bit 2) 0xf0f0f0f0)) (Z.land (bit 3) 0xff00ff00)) (Z.land (bit 4) 0xffff0000) in
  [w; Z.lxor w (bit 5); Z.lxor (Z.lxor (Z.lxor w (bit 5)) (bit 6)) (bit 5); Z.lxor (Z.lxor w (bit 5)) (bit 6)].

Definition cell_bit (cells : list Z) (p : Z) : bool := Z.testbit (default 0 (cells !! Z.to_nat (p / 32))) (p mod 32).
(** The entry at 0 counts the 384 bits without signs: it is 192 too high. *)
Definition lowered (l : list Z) : list Z := match l with x :: l => x - 64 * MULTIPLICITY :: l | [] => [] end.

Lemma bit0mask_width x : in_width 32 (BIT0MASK x).
Proof. apply in_width_mod. lia. Qed.
Lemma encode_cells_wf message : Forall (in_width 32) (encode_cells message).
Proof.
  assert (Hm : forall x c, in_width 32 c -> in_width 32 (Z.land (BIT0MASK x) c)) by (intros; apply land_width; [lia|apply bit0mask_width|assumption]).
  assert (Hc : forall c, 0 <= c < 2 ^ 32 -> in_width 32 c) by auto.
  unfold encode_cells. cbv zeta. repeat first [apply List.Forall_nil | apply List.Forall_cons];
    repeat (apply width_lxor; [lia| |]); first [apply bit0mask_width | apply Hm, Hc; lia].
Qed.

(** [encode] writes the four cells of its codeword and no other. *)
Lemma encode_eq codeArray pos message : 0 <= pos -> 4 * pos + 4 <= Z.of_nat (length codeArray) ->
  exists arr, encode codeArray pos message = Some arr /\ length arr = length codeArray /\
    (forall q, 0 <= q < 4 -> arr !! Z.to_nat (4 * pos + q) = encode_cells message !! Z.to_nat q) /\
    (forall k, (Z.of_nat k < 4 * pos \/ 4 * pos + 4 <= Z.of_nat k) -> arr !! k = codeArray !! k).
Proof.
  intros Hp Hl. unfold encode. cbv zeta.
  rewrite set_cell_total, some_bind by lia. rewrite set_cell_total, some_bind by (rewrite ?length_insert; lia).
  rewrite set_cell_total, some_bind by (rewrite ?length_insert; lia). rewrite set_cell_total by (rewrite ?length_insert; lia).
  eexists. split; [reflexivity|]. rewrite !length_insert. split; [reflexivity|]. split.
  - intros q Hq. assert (q = 0 \/ q = 1 \/ q = 2 \/ q = 3) as [->|[->|[->| ->]]] by lia; rewrite ?Z.add_0_r.
    + rewrite !list_lookup_insert_ne, list_lookup_insert_eq by (rewrite ?length_insert; lia). reflexivity.
    + rewrite !(list_lookup_insert_ne _ (Z.to_nat (4 * pos + 2))), !(list_lookup_insert_ne _ (Z.to_nat (4 * pos + 3))), list_lookup_insert_eq by (rewrite ?length_insert; lia). reflexivity.
    + rewrite list_lookup_insert_eq by (rewrite ?length_insert; lia). reflexivity.
    + rewrite !(list_lookup_insert_ne _ (Z.to_nat (4 * pos + 2))), list_lookup_insert_eq by (rewrite ?length_insert; lia). reflexivity.
  - intros k Hk. rewrite !list_lookup_insert_ne by lia. reflexivity.
Qed.

(** The first three codewords of a block are those of the byte. *)
Definition block_of (arr : list Z) (i message : Z) : Prop :=
  forall c q, 0 <= c < 3 -> 0 <= q < 4 -> arr !! Z.to_nat (4 * (3 * i + c) + q) = encode_cells message !! Z.to_nat q.

(** The copy of a codeword. *)
Lemma copy_word_eq arr src dst : 0 <= src -> 4 * src + 4 <= Z.of_nat (length arr) -> 0 <= dst -> 4 * dst + 4 <= Z.of_nat (length arr) ->
  exists arr', (word ← mem_read arr (4 * src) 4; mem_write arr (4 * dst) word) = Some arr' /\ length arr' = length arr /\
    (forall q, 0 <= q < 4 -> arr' !! Z.to_nat (4 * dst + q) = arr !! Z.to_nat (4 * src + q)) /\
    (forall k, (Z.of_nat k < 4 * dst \/ 4 * dst + 4 <= Z.of_nat k) -> arr' !! k = arr !! k).
Proof.
  intros Hs Hsl Hd Hdl. destruct (mem_read_total arr (4 * src) 4) as (word & -> & Hwl & Hw); [lia..|]. rewrite some_bind.
  destruct (mem_write arr (4 * dst) word) as [arr'|] eqn:E; [|rewrite mem_write_total in E by lia; discriminate].
  exists arr'. split; [reflexivity|]. split; [exact (mem_write_length _ _ _ _ E)|]. split.
  - intros q Hq. rewrite (mem_write_lookup _ _ _ _ _ E). rewrite !Z2Nat.id by lia.
    destruct (Z.leb_spec (4 * dst) (4 * dst + q)), (Z.ltb_spec (4 * dst + q) (4 * dst + Z.of_nat (length word))); try lia. cbn [andb].
    subst word. rewrite lookup_take_lt, lookup_drop by lia. f_equal. lia.
  - intros k Hk. rewrite (mem_write_lookup _ _ _ _ _ E).
    destruct (Z.leb_spec (4 * dst) (Z.of_nat k)), (Z.ltb_spec (Z.of_nat k) (4 * dst + Z.of_nat (length word))); try lia; reflexivity.
Qed.

(** One block. *)
Lemma encode_block_eq arr i message : 0 <= i -> 12 * i + 12 <= Z.of_nat (length arr) ->
  exists arr', (codeArray ← encode arr (i * MULTIPLICITY) message;
      ofor (seqZ 1 (MULTIPLICITY - 1)) (fun copy codeArray =>
        word ← mem_read codeArray (4 * (i * MULTIPLICITY)) 4;
        mem_write codeArray (4 * (i * MULTIPLICITY + copy)) word) codeArray) = Some arr' /\
    length arr' = length arr /\ block_of arr' i message /\
    (forall k, (Z.of_nat k < 12 * i \/ 12 * i + 12 <= Z.of_nat k) -> arr' !! k = arr !! k).
Proof.
  intros Hi Hl. change MULTIPLICITY with 3. change (seqZ 1 (3 - 1)) with [1; 2].
  destruct (encode_eq arr (i * 3) message) as (a1 & -> & Hl1 & Hw1 & Hf1); [lia..|]. rewrite some_bind. cbn [ofor].
  destruct (copy_word_eq a1 (i * 3) (i * 3 + 1)) as (a2 & -> & Hl2 & Hw2 & Hf2); [lia..|]. rewrite some_bind.
  destruct (copy_word_eq a2 (i * 3) (i * 3 + 2)) as (a3 & -> & Hl3 & Hw3 & Hf3); [lia..|]. rewrite some_bind.
  exists a3. split; [reflexivity|]. split; [lia|]. split.
  - intros c q Hc Hq. assert (c = 0 \/ c = 1 \/ c = 2) as [->|[->| ->]] by lia.
    + rewrite Hf3, Hf2 by lia. rewrite <- Hw1 by exact Hq. f_equal. lia.
    + rewrite Hf3 by lia. replace (4 * (3 * i + 1) + q) with (4 * (i * 3 + 1) + q) by lia. rewrite Hw2, <- Hw1 by exact Hq. reflexivity.
    + replace (4 * (3 * i + 2) + q) with (4 * (i * 3 + 2) + q) by lia. rewrite Hw3, Hf2, <- Hw1 by (exact Hq || lia). reflexivity.
  - intros k Hk. rewrite Hf3, Hf2, Hf1 by lia. reflexivity.
Qed.

Lemma Forall_by_lookup {A} (P : A -> Prop) (l : list A) : (forall k x, l !! k = Some x -> P x) -> Forall P l.
Proof. intros H. apply list.Forall_lookup. exact H. Qed.

(** What encoding leaves, bit by bit. *)
Lemma reed_muller_encode_eq cdw msg : length cdw = 276%nat -> length msg = 6%nat -> words_wf cdw -> words_wf msg ->
  exists code, reed_muller_encode cdw msg = Some code /\ length code = 276%nat /\ words_wf code /\
    forall i c p m, 0 <= i < 46 -> 0 <= c < 3 -> 0 <= p < 128 -> as_bytes msg !! Z.to_nat i = Some m ->
      Z.testbit (poly code) (384 * i + 128 * c + p) = cell_bit (encode_cells m) p.
Proof.
  intros Hlc Hlm Hwc Hwm. unfold reed_muller_encode. cbv zeta. change VEC_N1_SIZE_BYTES with 46.
  assert (Hl0 : length (as_u32 cdw) = 552%nat) by (unfold as_u32; rewrite length_as_cells; lia).
  set (P := fun (n : Z) (arr : list Z) => length arr = 552%nat /\
    (forall j m, 0 <= j < n -> as_bytes msg !! Z.to_nat j = Some m -> block_of arr j m) /\
    (forall k, 12 * n <= Z.of_nat k -> arr !! k = as_u32 cdw !! k)).
  edestruct (ofor_upto_ind P 46) as (arr & -> & Hla & Hblocks & _); [lia|split_and!; [exact Hl0|lia|auto]| |].
  - intros i arr Hi (Hla & Hb & Hf). destruct (cell_total (as_bytes msg) i) as (m & -> & Hm); [rewrite length_as_bytes; lia|]. rewrite some_bind.
    destruct (encode_block_eq arr i m) as (arr' & E & Hla' & Hblk & Hf'); [lia..|]. rewrite E. eexists. split; [reflexivity|].
    split_and!; [lia| |intros k Hk; rewrite Hf', Hf by lia; reflexivity]. intros j mj Hj Hmj. destruct (decide (j = i)) as [->|Hne].
    + rewrite Hm in Hmj. injection Hmj as <-. exact Hblk.
    + intros c q Hc Hq. rewrite Hf' by lia. apply (Hb j mj); [lia|exact Hmj|exact Hc|exact Hq].
  - rewrite some_bind. assert (Hwa : Forall (in_width 32) arr).
    { apply Forall_by_lookup. intros k x Hx. pose proof (lookup_lt_Some _ _ _ Hx) as Hk.
      set (j := Z.of_nat k / 12). set (c := (Z.of_nat k / 4) mod 3). set (q := Z.of_nat k mod 4).
      assert (Hj : 0 <= j < 46 /\ 0 <= c < 3 /\ 0 <= q < 4 /\ Z.of_nat k = 4 * (3 * j + c) + q) by (unfold j, c, q; Z.to_euclidean_division_equations; lia).
      destruct Hj as (Hj & Hc & Hq & Ek). destruct (lookup_lt_is_Some_2 (as_bytes msg) (Z.to_nat j)) as [m Hm]; [rewrite length_as_bytes; lia|].
      pose proof (Hblocks j m Hj Hm c q Hc Hq) as E. replace (Z.to_nat (4 * (3 * j + c) + q)) with k in E by lia. rewrite Hx in E. symmetry in E.
      exact (proj1 (list.Forall_lookup _ _) (encode_cells_wf m) _ x E). }
    destruct (of_cells_spec 32 2 ltac:(lia) ltac:(lia) arr 276 ltac:(lia) Hwa) as (H1 & H2 & H3).
    exists (of_u32 arr). split_and!; [reflexivity|exact H1|exact H2|]. intros i c p m Hi Hc Hp Hm.
    change (poly (of_u32 arr)) with (pack (32 * 2) (of_cells 32 2 arr)). rewrite H3, pack_testbit by (assumption || lia). unfold cell_bit.
    assert (Ed : (384 * i + 128 * c + p) / 32 = 4 * (3 * i + c) + p / 32) by (Z.to_euclidean_division_equations; lia).
    assert (Em : (384 * i + 128 * c + p) mod 32 = p mod 32) by (Z.to_euclidean_division_equations; lia).
    rewrite Ed, Em, (Hblocks i m Hi Hm c (p / 32) Hc) by (Z.to_euclidean_division_equations; lia). reflexivity.
Qed.

(** ** The counts *)

(** A double loop over the 128 cells that updates each of them. *)
Lemma grid_update (g : Z -> Z -> Z) (body : Z -> Z -> list Z -> option (list Z)) dest : length dest = 128%nat ->
  (forall part bit l d, 0 <= part < 4 -> 0 <= bit < 32 -> length l = 128%nat -> l !! Z.to_nat (part * 32 + bit) = Some d ->
    body part bit l = Some (<[Z.to_nat (part * 32 + bit) := g (part * 32 + bit) d]> l)) ->
  exists out, ofor (upto 4) (fun part l => ofor (upto 32) (body part) l) dest = Some out /\ length out = 128%nat /\
    forall p d, 0 <= p < 128 -> dest !! Z.to_nat p = Some d -> out !! Z.to_nat p = Some (g p d).
Proof.
  intros Hl Hbody. set (P := fun (n : Z) (l : list Z) => length l = 128%nat /\
    forall p d, 0 <= p < 128 -> dest !! Z.to_nat p = Some d -> l !! Z.to_nat p = Some (if p <? n then g p d else d)).
  edestruct (ofor_upto_ind (fun part => P (32 * part)) 4) as (out & -> & Hlo & Hout); [lia| | |].
  - split; [exact Hl|]. intros p d Hp Hd. destruct (Z.ltb_spec p (32 * 0)); [lia|exact Hd].
  - intros part l Hpart Hpl. destruct (ofor_upto_ind (fun bit => P (32 * part + bit)) 32 (body part) l) as (l' & El & Hl'); [lia|rewrite Z.add_0_r; exact Hpl| |].
    + intros bit l1 Hbit [Hl1 H1]. destruct (lookup_lt_is_Some_2 dest (Z.to_nat (part * 32 + bit)) ltac:(lia)) as [d Hd].
      pose proof (H1 (part * 32 + bit) d ltac:(lia) Hd) as E1. destruct (Z.ltb_spec (part * 32 + bit) (32 * part + bit)); [lia|].
      rewrite (Hbody part bit l1 d) by assumption. eexists. split; [reflexivity|]. split; [rewrite length_insert; exact Hl1|].
      intros p e Hp He. destruct (Z.eq_dec p (part * 32 + bit)) as [->|Hne].
      * rewrite list_lookup_insert_eq by lia. rewrite Hd in He. injection He as <-. destruct (Z.ltb_spec (part * 32 + bit) (32 * part + (bit + 1))); [reflexivity|lia].
      * rewrite list_lookup_insert_ne, (H1 p e Hp He) by lia. do 2 f_equal.
        destruct (Z.ltb_spec p (32 * part + bit)), (Z.ltb_spec p (32 * part + (bit + 1))); reflexivity || lia.
    + exists l'. split; [exact El|]. replace (32 * (part + 1)) with (32 * part + 32) by lia. exact Hl'.
  - exists out. split; [reflexivity|]. split; [exact Hlo|]. intros p d Hp Hd. rewrite (Hout p d Hp Hd). destruct (Z.ltb_spec p (32 * 4)); [reflexivity|lia].
Qed.

Lemma shiftr_land_1 x bit : 0 <= bit -> Z.land (Z.shiftr x bit) 1 = Z.b2z (Z.testbit x bit).
Proof.
  intros Hb. rewrite (Z.land_ones _ 1) by lia. change (2 ^ 1) with 2. rewrite <- Z.bit0_mod, Z.shiftr_spec by lia. f_equal.
Qed.

(** How many of the three copies of bit [p] of block [i] are set. *)
Definition copies_set (w : Z) (i p : Z) : Z := zsum (fun c => Z.b2z (Z.testbit w (384 * i + 128 * c + p))) 3.

Lemma copies_set_range w i p : 0 <= copies_set w i p <= 3.
Proof.
  unfold copies_set, zsum. change (upto 3) with [0; 1; 2]. cbn [foldr].
  destruct (Z.testbit w (384 * i + 128 * 0 + p)), (Z.testbit w (384 * i + 128 * 1 + p)), (Z.testbit w (384 * i + 128 * 2 + p)); cbn; lia.
Qed.

Lemma expand_and_sum_eq arr i : Forall (in_width 32) arr -> 0 <= i -> 12 * i + 12 <= Z.of_nat (length arr) ->
  expand_and_sum (zeros 128) arr (i * MULTIPLICITY) = Some (copies_set (pack 32 arr) i <$> upto 128).
Proof.
  intros Hwf Hi Hl. unfold expand_and_sum. change MULTIPLICITY with 3. change (seqZ 1 (3 - 1)) with [1; 2].
  assert (Hcell : forall c part bit, 0 <= c < 3 -> 0 <= part < 4 -> 0 <= bit < 32 ->
    exists x, cell arr (4 * (i * 3 + c) + part) = Some x /\ Z.land (Z.shiftr x bit) 1 = Z.b2z (Z.testbit (pack 32 arr) (384 * i + 128 * c + (part * 32 + bit)))).
  { intros c part bit Hc Hpart Hbit. destruct (cell_total arr (4 * (i * 3 + c) + part)) as (x & Ex & Hx); [lia|]. exists x. split; [exact Ex|].
    rewrite shiftr_land_1, pack_testbit by (assumption || lia). f_equal.
    assert (Ed : (384 * i + 128 * c + (part * 32 + bit)) / 32 = 4 * (i * 3 + c) + part) by (Z.to_euclidean_division_equations; lia).
    assert (Em : (384 * i + 128 * c + (part * 32 + bit)) mod 32 = bit) by (Z.to_euclidean_division_equations; lia).
    rewrite Ed, Em, Hx. reflexivity. }
  set (b := fun c p => Z.b2z (Z.testbit (pack 32 arr) (384 * i + 128 * c + p))).
  assert (Hb : forall c p, 0 <= b c p <= 1) by (intros c p; unfold b; destruct (Z.testbit _ _); cbn; lia).
  destruct (grid_update (fun p d => b 0 p) (fun part bit dest => x ← cell arr (4 * (i * 3) + part); set_cell dest (part * 32 + bit) (Z.land (Z.shiftr x bit) 1)) (zeros 128))
    as (d0 & -> & Hl0 & H0); [reflexivity| |].
  { intros part bit l d Hpart Hbit Hll _. destruct (Hcell 0 part bit) as (x & Ex & Hx); [lia..|]. rewrite Z.add_0_r in Ex. rewrite Ex, some_bind, Hx. apply set_cell_total. lia. }
  rewrite some_bind. cbn [ofor].
  assert (Hadd : forall c dest, 1 <= c < 3 -> length dest = 128%nat -> (forall p d, 0 <= p < 128 -> dest !! Z.to_nat p = Some d -> 0 <= d <= c) ->
    exists out, ofor (upto 4) (fun part dest => ofor (upto 32) (fun bit dest => x ← cell arr (4 * (i * 3 + c) + part); d ← cell dest (part * 32 + bit);
      set_cell dest (part * 32 + bit) (s16 (d + Z.land (Z.shiftr x bit) 1))) dest) dest = Some out /\ length out = 128%nat /\
      forall p d, 0 <= p < 128 -> dest !! Z.to_nat p = Some d -> out !! Z.to_nat p = Some (d + b c p)).
  { intros c dest Hc Hld Hd. destruct (grid_update (fun p d => s16 (d + b c p)) (fun part bit dest => x ← cell arr (4 * (i * 3 + c) + part); d ← cell dest (part * 32 + bit);
      set_cell dest (part * 32 + bit) (s16 (d + Z.land (Z.shiftr x bit) 1))) dest Hld) as (out & E & Hlo & Ho).
    - intros part bit l d Hpart Hbit Hll Hld'. destruct (Hcell c part bit) as (x & Ex & Hx); [lia..|].
      rewrite Ex, some_bind, Hx, cell_lookup, Hld', some_bind by lia. apply set_cell_total. lia.
    - exists out. split; [exact E|]. split; [exact Hlo|]. intros p d Hp Hdp. rewrite (Ho p d Hp Hdp), s16_id; [reflexivity|].
      specialize (Hb c p). specialize (Hd p d Hp Hdp). lia. }
  assert (Hz : forall p, 0 <= p < 128 -> zeros 128 !! Z.to_nat p = Some 0) by (intros p Hp; apply lookup_replicate; split; [reflexivity|lia]).
  destruct (Hadd 1 d0) as (d1 & -> & Hl1 & H1); [lia|exact Hl0| |].
  { intros p d Hp Hd. rewrite (H0 p 0 Hp (Hz p Hp)) in Hd. injection Hd as <-. apply Hb. }
  rewrite some_bind. destruct (Hadd 2 d1) as (d2 & -> & Hl2 & H2); [lia|exact Hl1| |].
  { intros p d Hp Hd. rewrite (H1 p _ Hp (H0 p 0 Hp (Hz p Hp))) in Hd. injection Hd as <-. pose proof (Hb 0 p). pose proof (Hb 1 p). lia. }
  rewrite some_bind. f_equal. apply list_eq. intros k. destruct (decide (k < 128)%nat) as [Hk|Hk].
  - set (p := Z.of_nat k). assert (Hp : 0 <= p < 128) by lia. pose proof (H2 p _ Hp (H1 p _ Hp (H0 p 0 Hp (Hz p Hp)))) as E.
    replace k with (Z.to_nat p) by lia. rewrite E, list_lookup_fmap, upto_lookup by lia. cbn [fmap option_fmap option_map]. f_equal.
    unfold copies_set, zsum. change (upto 3) with [0; 1; 2]. cbn [foldr]. unfold b. lia.
  - rewrite !lookup_ge_None_2 by (rewrite ?length_fmap, ?length_upto; lia). reflexivity.
Qed.

(** ** One block decoded *)

Lemma zsum_plus f n m : 0 <= n -> 0 <= m -> zsum f (n + m) = zsum f n + zsum (fun i => f (n + i)) m.
Proof.
  intros Hn. revert m. apply range_ind; [rewrite Z.add_0_r, zsum_0; lia|]. intros m Hm IH.
  rewrite Z.add_assoc, zsum_succ, IH, zsum_succ by lia. lia.
Qed.
Lemma lsum_fmap f n : lsum (f <$> upto n) = zsum f n.
Proof. unfold lsum, zsum. induction (upto n) as [|i l IH]; [reflexivity|]. cbn [fmap list_fmap foldr]. f_equal. exact IH. Qed.
Lemma zsum_add f g n : 0 <= n -> zsum (fun i => f i + g i) n = zsum f n + zsum g n.
Proof. revert n. apply range_ind; [reflexivity|]. intros n Hn IH. rewrite !zsum_succ by lia. lia. Qed.

Lemma set_lowered l t0 : length l = 128%nat -> l !! 0%nat = Some t0 -> set_cell l 0 (t0 - 64 * MULTIPLICITY) = Some (lowered l).
Proof. intros Hl H0. destruct l as [|x l]; [discriminate|]. injection H0 as ->. apply set_cell_0. Qed.

(** The peak that block [i] of a word gives. *)
Definition block_peak (w i : Z) : option Z := find_peaks (lowered (transformed (copies_set w i <$> upto 128))).

(** One turn of the decoder. *)
Lemma decode_block_eq arr i : Forall (in_width 32) arr -> 0 <= i -> 12 * i + 12 <= Z.of_nat (length arr) ->
  exists peak, (expanded ← expand_and_sum (zeros 128) arr (i * MULTIPLICITY);
    '(_, transform) ← hadamard expanded (zeros 128);
    t0 ← cell transform 0;
    transform ← set_cell transform 0 (s16 (t0 - 64 * MULTIPLICITY));
    find_peaks transform) = Some peak /\ 0 <= peak < 256 /\
    block_peak (pack 32 arr) i = Some peak.
Proof.
  intros Hwf Hi Hl. unfold block_peak. rewrite expand_and_sum_eq, some_bind by assumption. set (e := copies_set (pack 32 arr) i <$> upto 128).
  assert (Hle : length e = 128%nat) by (unfold e; rewrite length_fmap; apply length_upto).
  assert (Hbe : below 3 e).
  { unfold e. apply list.Forall_fmap, list.Forall_true. intros p. pose proof (copies_set_range (pack 32 arr) i p). cbn. lia. }
  destruct (hadamard_eq e (zeros 128) Hle eq_refl Hbe) as (s & ->). rewrite some_bind. pose proof (length_transformed e Hle) as Hlt.
  destruct (lookup_lt_is_Some_2 (transformed e) 0%nat ltac:(lia)) as [t0 Ht0]. rewrite (cell_nat _ 0 0), Ht0, some_bind by reflexivity.
  assert (Hs : lsum (Z.abs <$> e) <= 384).
  { unfold e. rewrite <- list_fmap_compose, lsum_fmap. etransitivity; [apply (zsum_le _ (fun _ => 3)); [lia|]|rewrite zsum_const; lia].
    intros p Hp. unfold compose. pose proof (copies_set_range (pack 32 arr) i p). lia. }
  pose proof (transformed_bound e 0 t0 Hle Ht0). change (64 * MULTIPLICITY) with 192 at 1. rewrite s16_id by lia. change 192 with (64 * MULTIPLICITY).
  rewrite (set_lowered _ _ Hlt Ht0), some_bind.
  destruct (find_peaks_spec (lowered (transformed e))) as (r & E & Hr & _).
  { destruct (transformed e); [discriminate Hlt|exact Hlt]. }
  exists r. auto.
Qed.

(** What is decoded, block by block. *)
Lemma reed_muller_decode_eq received out : (276 <= length received)%nat -> words_wf received -> length out = 6%nat -> words_wf out ->
  exists out', reed_muller_decode out received = Some out' /\ length out' = 6%nat /\ words_wf out' /\
    forall i, 0 <= i < 46 -> as_bytes out' !! Z.to_nat i = block_peak (poly received) i.
Proof.
  intros Hlr Hwr Hlo Hwo. unfold reed_muller_decode. cbv zeta. change VEC_N1_SIZE_BYTES with 46.
  assert (Hla : length (as_u32 received) = (2 * length received)%nat) by (unfold as_u32; rewrite length_as_cells; lia).
  assert (Hwa : Forall (in_width 32) (as_u32 received)) by (apply (as_cells_wf 32 2); lia).
  assert (Epoly : pack 32 (as_u32 received) = poly received) by (apply (pack_as_cells 32 2); [lia|lia|exact Hwr]).
  set (P := fun (n : Z) (b : list Z) => length b = 48%nat /\ all_bytes b /\
    forall i, 0 <= i < n -> b !! Z.to_nat i = block_peak (poly received) i).
  edestruct (ofor_upto_ind P 46) as (b & -> & Hlb & Hbb & Hb); [lia|split_and!; [rewrite length_as_bytes; lia|apply as_bytes_bytes|lia]| |].
  - intros i b Hi (Hlb & Hbb & Hb). destruct (decode_block_eq (as_u32 received) i Hwa) as (peak & Ed & Hpk & Ef); [lia|lia|]. rewrite Epoly in Ef.
    destruct (expand_and_sum (zeros 128) (as_u32 received) (i * MULTIPLICITY)) as [e|]; [|discriminate Ed]. rewrite some_bind in Ed. rewrite some_bind.
    destruct (hadamard e (zeros 128)) as [[s t]|]; [|discriminate Ed]. rewrite some_bind in Ed. rewrite some_bind.
    destruct (cell t 0) as [t0|]; [|discriminate Ed]. rewrite some_bind in Ed. rewrite some_bind.
    destruct (set_cell t 0 (s16 (t0 - 64 * MULTIPLICITY))) as [t1|]; [|discriminate Ed]. rewrite some_bind in Ed. rewrite some_bind. rewrite Ed, some_bind.
    rewrite u8_id by exact Hpk. rewrite set_cell_total by lia. eexists. split; [reflexivity|].
    split_and!; [rewrite length_insert; exact Hlb|apply Forall_insert; [exact Hbb|exact Hpk]|]. intros j Hj.
    destruct (Z.eq_dec j i) as [->|Hne]; [|rewrite list_lookup_insert_ne by lia; apply Hb; lia].
    rewrite list_lookup_insert_eq by lia. symmetry. exact Ef.
  - rewrite some_bind. destruct (of_cells_spec 8 8 ltac:(lia) ltac:(lia) b 6 ltac:(lia) Hbb) as (H1 & H2 & _).
    exists (of_bytes b). split_and!; [reflexivity|exact H1|exact H2|]. intros i Hi. unfold as_bytes at 1, of_bytes.
    rewrite (as_of_cells 8 8 ltac:(lia) ltac:(lia) b 6) by (lia || exact Hbb). apply Hb, Hi.
Qed.

(** [code] carries the bytes of [msg], each in three copies of 128 bits. *)
Definition is_rm_code (code msg : words) : Prop := forall i c p m, 0 <= i < 46 -> 0 <= c < 3 -> 0 <= p < 128 -> as_bytes msg !! Z.to_nat i = Some m ->
  Z.testbit (poly code) (384 * i + 128 * c + p) = cell_bit (encode_cells m) p.
