(* ===== verification/RmDistance.v ===== *)
(** * What the duplicated Reed-Muller decoder finds

    The entry [k] of the transformed counts is the distance of the received block to
    the code word of [k] less 192, and minus the distance to the code word of [k + 128]
    plus 192: the entry of greatest absolute value gives a nearest code word.  So every
    received block is decoded to a byte at minimum distance, and to the byte that was
    sent when the errors are nearer to the zero word than to any other code word; that
    is so when at most 95 of the 384 bits are wrong, and for most words with more. *)

From S2P Require Import Prelude Carryless Words Gf Gf2x Vector ReedMuller.

(** ** Distances *)

(** How many bits of block [i] of [w] differ from the three copies of the code word of a byte. *)
Definition distance (message w i : Z) : Z :=
  zsum (fun n => Z.b2z (xorb (cell_bit (encode_cells message) (n mod 128)) (Z.testbit w (384 * i + n)))) 384.

(** The code word of [message] is nearer to the block than any other. *)
Definition nearest (message w i : Z) : Prop := forall other, is_u8 other -> other <> message -> distance message w i < distance other w i.

Definition nearest_b (message w i : Z) : bool := forallb (fun other => (other =? message) || (distance message w i <? distance other w i)) (upto 256).

Lemma nearest_b_spec message w i : nearest_b message w i = true <-> nearest message w i.
Proof.
  unfold nearest_b. split.
  - intros H other Ho Hne. pose proof (check_upto 256 _ H other Ho) as Hc. apply orb_true_iff in Hc as [Hc|Hc]; [apply Z.eqb_eq in Hc; contradiction|apply Z.ltb_lt, Hc].
  - intros H. apply forallb_forall. intros other Ho. apply list_elem_of_In, elem_of_upto in Ho. destruct (Z.eqb_spec other message) as [->|Hne]; [reflexivity|].
    apply Z.ltb_lt, H; [exact Ho|exact Hne].
Qed.
#[export] Instance nearest_dec message w i : Decision (nearest message w i).
Proof. destruct (nearest_b message w i) eqn:E; [left|right]; rewrite <- nearest_b_spec, E; [reflexivity|discriminate]. Defined.

Lemma nearest_ext m e e' i : (forall n, 0 <= n < 384 -> Z.testbit e (384 * i + n) = Z.testbit e' (384 * i + n)) -> nearest m e i <-> nearest m e' i.
Proof.
  intros H. assert (E : forall b, distance b e i = distance b e' i) by (intros b; apply zsum_ext; [lia|]; intros n Hn; rewrite H by exact Hn; reflexivity).
  split; intros Hn other Ho Hne; specialize (Hn other Ho Hne); rewrite !E in *; assumption.
Qed.

(** The cost of one bit of the code word against the three received copies. *)
Definition bit_cost (b : bool) (count : Z) : Z := if b then MULTIPLICITY - count else count.

Lemma distance_counts message w i : distance message w i = zsum (fun p => bit_cost (cell_bit (encode_cells message) p) (copies_set w i p)) 128.
Proof.
  unfold distance. set (f := fun n => Z.b2z _). change (zsum f 384) with (zsum f (128 + (128 + 128))).
  rewrite !zsum_plus, <- !zsum_add by lia. apply zsum_ext; [lia|]. intros p Hp. unfold f, copies_set, zsum. change (upto 3) with [0; 1; 2]. cbn [foldr].
  assert (E0 : p mod 128 = p) by (apply Z.mod_small; lia). assert (E1 : (128 + p) mod 128 = p) by (rewrite <- Zplus_mod_idemp_l; exact E0).
  assert (E2 : (128 + (128 + p)) mod 128 = p) by (rewrite <- Zplus_mod_idemp_l; exact E1). rewrite E0, E1, E2. unfold bit_cost. change MULTIPLICITY with 3.
  replace (384 * i + 128 * 0 + p) with (384 * i + p) by lia. replace (384 * i + (128 + p)) with (384 * i + 128 * 1 + p) by lia.
  replace (384 * i + (128 + (128 + p))) with (384 * i + 128 * 2 + p) by lia.
  destruct (cell_bit _ p), (Z.testbit w (384 * i + p)), (Z.testbit w (384 * i + 128 * 1 + p)), (Z.testbit w (384 * i + 128 * 2 + p)); reflexivity.
Qed.

(** ** The transform as a matrix *)

Definition dot (v l : list Z) : Z := lsum (zip_with Z.mul v l).
Definition vpass (rows : list (list Z)) : list (list Z) := pairs (zip_with Z.add) rows ++ pairs (zip_with Z.sub) rows.

(** The rows of the transform: the signs of the code words of the bytes below 128. *)
Definition sign_row (k : Z) : list Z := let cells := encode_cells k in (fun p => 1 - 2 * Z.b2z (cell_bit cells p)) <$> upto 128.
Definition unit_row (p : Z) : list Z := (fun q => if q =? p then 1 else 0) <$> upto 128.

Lemma transform_rows : Nat.iter 7 vpass (unit_row <$> upto 128) = sign_row <$> upto 128.
Proof. vm_compute. reflexivity. Qed.

Definition square (rows : list (list Z)) : Prop := Forall (fun v => length v = 128%nat) rows.

Lemma dot_add u v l : length u = length v -> length v = length l -> dot (zip_with Z.add u v) l = dot u l + dot v l.
Proof.
  unfold dot. revert v l. induction u as [|x u IH]; intros [|y v] [|z l] H1 H2; try discriminate; [reflexivity|]. cbn [zip_with lsum foldr].
  injection H1 as H1. injection H2 as H2. specialize (IH v l H1 H2). unfold lsum in IH. rewrite IH. lia.
Qed.
Lemma dot_sub u v l : length u = length v -> length v = length l -> dot (zip_with Z.sub u v) l = dot u l - dot v l.
Proof.
  unfold dot. revert v l. induction u as [|x u IH]; intros [|y v] [|z l] H1 H2; try discriminate; [reflexivity|]. cbn [zip_with lsum foldr].
  injection H1 as H1. injection H2 as H2. specialize (IH v l H1 H2). unfold lsum in IH. rewrite IH. lia.
Qed.

Lemma pairs_fmap {A B} (P : A -> Prop) (f : A -> A -> A) (g : B -> B -> B) (h : A -> B) :
  (forall a b, P a -> P b -> h (f a b) = g (h a) (h b)) -> forall l, Forall P l -> h <$> pairs f l = pairs g (h <$> l).
Proof.
  intros Hf. induction l as [|a|a b l IH] using pair_ind; intros H; [reflexivity|reflexivity|].
  inversion_clear H as [|? ? Ha H1]. inversion_clear H1 as [|? ? Hb H2]. cbn [pairs fmap list_fmap]. f_equal; [apply Hf; assumption|apply IH, H2].
Qed.

Lemma vpass_square rows : square rows -> square (vpass rows).
Proof.
  intros H. apply Forall_app. split; apply (pairs_Forall (fun v => length v = 128%nat)); try exact H; intros a b Ha Hb; rewrite length_zip_with; lia.
Qed.
Lemma vpass_dot rows l : square rows -> length l = 128%nat -> (fun v => dot v l) <$> vpass rows = pass ((fun v => dot v l) <$> rows).
Proof.
  intros Hs Hl. unfold vpass, pass. rewrite fmap_app. f_equal; apply (pairs_fmap (fun v => length v = 128%nat)); try exact Hs; intros a b Ha Hb;
    [apply dot_add|apply dot_sub]; congruence.
Qed.

Lemma dot_upto f g : dot (f <$> upto 128) (g <$> upto 128) = zsum (fun p => f p * g p) 128.
Proof. unfold dot. rewrite zip_with_fmap_l, zip_with_fmap_r, zip_with_diag. apply lsum_fmap. Qed.

Lemma zsum_single g p n : 0 <= p < n -> zsum (fun q => (if q =? p then 1 else 0) * g q) n = g p.
Proof.
  intros Hp. rewrite (zsum_upd (fun _ => 0) _ n p Hp), zsum_const by first [lia | intros i Hi Hne; destruct (Z.eqb_spec i p); [contradiction|reflexivity]].
  rewrite Z.eqb_refl. lia.
Qed.

(** Every entry of the transform is a signed sum of the counts. *)
Lemma transformed_signs g : transformed (g <$> upto 128) = (fun k => zsum (fun p => (1 - 2 * Z.b2z (cell_bit (encode_cells k) p)) * g p) 128) <$> upto 128.
Proof.
  set (l := g <$> upto 128). assert (Hl : length l = 128%nat) by (unfold l; rewrite length_fmap; apply length_upto).
  assert (Hn : forall n, square (Nat.iter n vpass (unit_row <$> upto 128)) /\
    (fun v => dot v l) <$> Nat.iter n vpass (unit_row <$> upto 128) = Nat.iter n pass l).
  { induction n as [|n [Hs IH]]; [|rewrite !Nat.iter_succ; split; [apply vpass_square, Hs|rewrite vpass_dot, IH by assumption; reflexivity]]. split.
    - apply list.Forall_fmap, list.Forall_true. intros p. unfold compose, unit_row. rewrite length_fmap. apply length_upto.
    - change ((fun v => dot v l) <$> (unit_row <$> upto 128) = l). rewrite <- list_fmap_compose. apply list_fmap_ext. intros k p Hp. unfold compose, unit_row, l. rewrite dot_upto. apply zsum_single. apply elem_of_upto, (list_elem_of_lookup_2 _ _ _ Hp). }
  unfold transformed. destruct (Hn 7%nat) as [_ <-]. rewrite transform_rows, <- list_fmap_compose. apply list_fmap_ext. intros k p _. unfold compose, sign_row. cbv zeta.
  apply dot_upto.
Qed.

(** ** Entries and distances *)

Definition weight (k : Z) : Z := let cells := encode_cells k in zsum (fun p => Z.b2z (cell_bit cells p)) 128.

Lemma weight_low k : 0 <= k < 128 -> weight k = if k =? 0 then 0 else 64.
Proof.
  intros Hk. assert (H : forallb (fun k => weight k =? if k =? 0 then 0 else 64) (upto 128) = true) by (vm_compute; reflexivity).
  apply Z.eqb_eq, (check_upto 128 _ H k Hk).
Qed.

(** The code word of [k + 128] is the complement of that of [k]. *)
Lemma cell_bit_complement k p : 0 <= k < 128 -> 0 <= p < 128 -> cell_bit (encode_cells (k + 128)) p = negb (cell_bit (encode_cells k) p).
Proof.
  intros Hk Hp. assert (H : forallb (fun k => let a := encode_cells (k + 128) in let b := encode_cells k in forallb (fun p => eqb (cell_bit a p) (negb (cell_bit b p))) (upto 128)) (upto 128) = true)
    by (vm_compute; reflexivity).
  pose proof (check_upto 128 _ H k Hk) as Hc. cbv zeta in Hc. apply eqb_prop, (check_upto 128 _ Hc p Hp).
Qed.

Lemma distance_complement k w i : 0 <= k < 128 -> distance (k + 128) w i = 384 - distance k w i.
Proof.
  intros Hk. rewrite !distance_counts. enough (E : forall s t, s + t = 384 -> s = 384 - t); [apply E|lia].
  rewrite <- zsum_add by lia. rewrite (zsum_ext _ (fun _ => 3)), zsum_const; [lia|lia|lia|]. intros p Hp. rewrite cell_bit_complement by assumption.
  unfold bit_cost. change MULTIPLICITY with 3. destruct (cell_bit (encode_cells k) p); cbn [negb]; lia.
Qed.

Lemma distance_entry k w i : 0 <= k < 128 ->
  zsum (fun p => (1 - 2 * Z.b2z (cell_bit (encode_cells k) p)) * copies_set w i p) 128 = distance k w i - MULTIPLICITY * weight k.
Proof.
  intros Hk. rewrite distance_counts. unfold weight. cbv zeta. enough (E : forall s t u, s + u = t -> s = t - u); [apply E|lia]. rewrite <- zsum_scale, <- zsum_add by lia.
  apply zsum_ext; [lia|]. intros p Hp. unfold bit_cost. change MULTIPLICITY with 3. destruct (cell_bit (encode_cells k) p); cbn [Z.b2z]; lia.
Qed.

(** The entries that the decoder compares. *)
Lemma entries_eq w i : lowered (transformed (copies_set w i <$> upto 128)) = (fun k => distance k w i - 192) <$> upto 128.
Proof.
  rewrite transformed_signs. set (g := fun k => zsum _ 128). assert (Hg : forall k, 0 <= k < 128 -> g k = distance k w i - if k =? 0 then 0 else 192).
  { intros k Hk. unfold g. rewrite distance_entry, weight_low by exact Hk. change MULTIPLICITY with 3. destruct (k =? 0); lia. }
  change (upto 128) with (0 :: seqZ 1 127). rewrite !fmap_cons. cbn [lowered]. change (64 * MULTIPLICITY) with 192. f_equal; [rewrite (Hg 0) by lia; cbn; lia|].
  apply list_fmap_ext. intros j k Hk. apply list_elem_of_lookup_2, elem_of_seqZ in Hk. rewrite Hg by lia. destruct (Z.eqb_spec k 0); lia.
Qed.

(** ** What is decoded *)

Lemma byte_low_high b : is_u8 b -> exists k, 0 <= k < 128 /\ (b = k \/ b = k + 128).
Proof. unfold is_u8, in_width. intros Hb. destruct (Z.ltb_spec b 128); [exists b|exists (b - 128)]; lia. Qed.

(** Every block is decoded to a byte whose code word is at minimum distance. *)
Lemma block_peak_min w i : exists b, block_peak w i = Some b /\ is_u8 b /\ forall other, is_u8 other -> distance b w i <= distance other w i.
Proof.
  unfold block_peak. rewrite entries_eq. set (l := (fun k => distance k w i - 192) <$> upto 128).
  assert (Hl : length l = 128%nat) by (unfold l; rewrite length_fmap; apply length_upto).
  assert (Hk : forall k, 0 <= k < 128 -> l !! Z.to_nat k = Some (distance k w i - 192)) by (intros k Hk; unfold l; rewrite list_lookup_fmap, upto_lookup by exact Hk; reflexivity).
  destruct (find_peaks_spec l Hl) as (b & -> & Hb & k0 & t0 & Ht0 & Hmax & Eb). exists b. split; [reflexivity|]. split; [exact Hb|].
  pose proof (lookup_lt_Some _ _ _ Ht0) as Hlt. pose proof (Hk (Z.of_nat k0) ltac:(lia)) as E0. rewrite Nat2Z.id, Ht0 in E0. injection E0 as ->.
  assert (Hm : distance b w i = 192 - Z.abs (distance (Z.of_nat k0) w i - 192)).
  { rewrite Eb. unfold peak_of. destruct (Z.ltb_spec 0 (distance (Z.of_nat k0) w i - 192)); [rewrite Z.mul_1_r, distance_complement by lia; lia|]. rewrite Z.mul_0_r, Z.add_0_r. lia. }
  intros other Ho. destruct (byte_low_high other Ho) as (k & Hkr & Ek). pose proof (Hmax _ _ (Hk k Hkr)) as Hle.
  destruct Ek as [-> | ->]; [|rewrite distance_complement by exact Hkr]; lia.
Qed.

Lemma block_peak_nearest m w i : is_u8 m -> nearest m w i -> block_peak w i = Some m.
Proof.
  intros Hm Hn. destruct (block_peak_min w i) as (b & -> & Hb & Hmin). f_equal. destruct (decide (b = m)) as [E|Hne]; [exact E|].
  specialize (Hn b Hb Hne). specialize (Hmin m Hm). lia.
Qed.

(** ** Errors *)

Lemma BIT0MASK_lxor x y : BIT0MASK (Z.lxor x y) = Z.lxor (BIT0MASK x) (BIT0MASK y).
Proof.
  assert (E : forall x, BIT0MASK x = if Z.testbit x 0 then 0xffffffff else 0).
  { intros z. unfold BIT0MASK. change 1 with (Z.ones 1) at 1. rewrite Z.land_ones by lia. change (2 ^ 1) with 2. rewrite <- Z.bit0_mod. destruct (Z.testbit z 0); reflexivity. }
  rewrite !E, Z.lxor_spec. destruct (Z.testbit x 0), (Z.testbit y 0); reflexivity.
Qed.
Lemma land_lxor_l a b c : Z.land (Z.lxor a b) c = Z.lxor (Z.land a c) (Z.land b c).
Proof. apply Z.bits_inj'. intros n Hn. rewrite !Z.lxor_spec, !Z.land_spec, !Z.lxor_spec. destruct (Z.testbit a n), (Z.testbit b n), (Z.testbit c n); reflexivity. Qed.

(** The code is linear. *)
Lemma cells_lxor w w' x y x' y' :
  [Z.lxor w w'; Z.lxor (Z.lxor w w') (Z.lxor x x'); Z.lxor (Z.lxor (Z.lxor (Z.lxor w w') (Z.lxor x x')) (Z.lxor y y')) (Z.lxor x x');
    Z.lxor (Z.lxor (Z.lxor w w') (Z.lxor x x')) (Z.lxor y y')] =
  zip_with Z.lxor [w; Z.lxor w x; Z.lxor (Z.lxor (Z.lxor w x) y) x; Z.lxor (Z.lxor w x) y] [w'; Z.lxor w' x'; Z.lxor (Z.lxor (Z.lxor w' x') y') x'; Z.lxor (Z.lxor w' x') y'].
Proof.
  cbn [zip_with]. rewrite (lxor_swap w w' x x'), (lxor_swap (Z.lxor w x) _ y y'), (lxor_swap (Z.lxor (Z.lxor w x) y) _ x x'). reflexivity.
Qed.
Lemma first_lxor a a' b b' c c' d d' e e' f f' :
  Z.lxor (Z.lxor (Z.lxor (Z.lxor (Z.lxor (Z.lxor a a') (Z.lxor b b')) (Z.lxor c c')) (Z.lxor d d')) (Z.lxor e e')) (Z.lxor f f') =
  Z.lxor (Z.lxor (Z.lxor (Z.lxor (Z.lxor (Z.lxor a b) c) d) e) f) (Z.lxor (Z.lxor (Z.lxor (Z.lxor (Z.lxor a' b') c') d') e') f').
Proof. rewrite (lxor_swap a a' b b'), (lxor_swap _ _ c c'), (lxor_swap _ _ d d'), (lxor_swap _ _ e e'), (lxor_swap _ _ f f'). reflexivity. Qed.

Lemma encode_cells_lxor a b : encode_cells (Z.lxor a b) = zip_with Z.lxor (encode_cells a) (encode_cells b).
Proof. unfold encode_cells. cbv zeta. rewrite !Z.shiftr_lxor, !BIT0MASK_lxor, !land_lxor_l, first_lxor. apply cells_lxor. Qed.
Lemma cell_bit_lxor a b p : 0 <= p < 128 -> cell_bit (encode_cells (Z.lxor a b)) p = xorb (cell_bit (encode_cells a) p) (cell_bit (encode_cells b) p).
Proof.
  intros Hp. unfold cell_bit. rewrite encode_cells_lxor, lookup_zip_with.
  assert (H : forall c, exists x, encode_cells c !! Z.to_nat (p / 32) = Some x).
  { intros c. apply lookup_lt_is_Some_2. change (length (encode_cells c)) with 4%nat. Z.to_euclidean_division_equations; lia. }
  destruct (H a) as (x & ->), (H b) as (y & ->). apply Z.lxor_spec.
Qed.

(** [w] carries in block [i] the code word of [m], up to the errors [e]. *)
Definition errs (m w e i : Z) : Prop := forall n, 0 <= n < 384 -> Z.testbit w (384 * i + n) = xorb (cell_bit (encode_cells m) (n mod 128)) (Z.testbit e (384 * i + n)).

Lemma distance_errs m w e i b : errs m w e i -> distance b w i = distance (Z.lxor b m) e i.
Proof.
  intros H. unfold distance. apply zsum_ext; [lia|]. intros n Hn. rewrite (H n Hn), cell_bit_lxor by (apply Z.mod_pos_bound; lia).
  destruct (cell_bit (encode_cells b) _), (cell_bit (encode_cells m) _), (Z.testbit e _); reflexivity.
Qed.

(** Whether the errors are harmless does not depend on what was sent. *)
Lemma nearest_errs m w e i : is_u8 m -> errs m w e i -> nearest 0 e i -> nearest m w i.
Proof.
  intros Hm H Hn other Ho Hne. rewrite !(distance_errs m w e i) by exact H. rewrite Z.lxor_nilpotent. apply Hn; [apply width_lxor; [lia|exact Ho|exact Hm]|].
  intros E. apply lxor_eq_iff in E. apply Hne. rewrite Z.lxor_0_l in E. exact E.
Qed.

(** Two code words differ in 192 bits at least, so 95 errors are always harmless. *)
Lemma cell_bit_zero p : 0 <= p < 128 -> cell_bit (encode_cells 0) p = false.
Proof. intros Hp. pose proof (cell_bit_lxor 0 0 p Hp) as E. rewrite Z.lxor_nilpotent, xorb_nilpotent in E. exact E. Qed.
Lemma distance_zero e i : distance 0 e i = zsum (fun p => copies_set e i p) 128.
Proof. rewrite distance_counts. apply zsum_ext; [lia|]. intros p Hp. rewrite cell_bit_zero by exact Hp. reflexivity. Qed.

Lemma few_errors e i : distance 0 e i <= 95 -> nearest 0 e i.
Proof.
  intros H0 other Ho Hne. destruct (byte_low_high other Ho) as (k & Hk & Ek).
  assert (Hlow : k <> 0 -> 192 - distance 0 e i <= distance k e i /\ distance k e i <= 192 + distance 0 e i).
  { intros Hk0. pose proof (weight_low k Hk) as Hw. destruct (Z.eqb_spec k 0); [contradiction|]. unfold weight in Hw. cbv zeta in Hw.
    assert (E : zsum (fun p => MULTIPLICITY * Z.b2z (cell_bit (encode_cells k) p)) 128 = 192) by (rewrite zsum_scale, Hw by lia; reflexivity).
    rewrite distance_zero, distance_counts. split.
    - enough (192 <= zsum (fun p => bit_cost (cell_bit (encode_cells k) p) (copies_set e i p)) 128 + zsum (fun p => copies_set e i p) 128) by lia.
      rewrite <- E, <- zsum_add by lia. apply zsum_le; [lia|]. intros p Hp. pose proof (copies_set_range e i p). unfold bit_cost. change MULTIPLICITY with 3.
      destruct (cell_bit (encode_cells k) p); cbn [Z.b2z]; lia.
    - rewrite <- E, <- zsum_add by lia. apply zsum_le; [lia|]. intros p Hp. pose proof (copies_set_range e i p). unfold bit_cost. change MULTIPLICITY with 3.
      destruct (cell_bit (encode_cells k) p); cbn [Z.b2z]; lia. }
  destruct Ek as [->| ->]; [specialize (Hlow Hne); lia|]. rewrite distance_complement by exact Hk. destruct (Z.eq_dec k 0) as [->|Hk0]; [lia|specialize (Hlow Hk0); lia].
Qed.

(** How many of the 384 bits of block [i] differ. *)
Definition wrong_bits (p q i : Z) : Z := zsum (fun n => Z.b2z (xorb (Z.testbit p (384 * i + n)) (Z.testbit q (384 * i + n)))) 384.

Lemma wrong_bits_distance p q i : wrong_bits p q i = distance 0 (Z.lxor p q) i.
Proof. apply zsum_ext; [lia|]. intros n Hn. rewrite cell_bit_zero, Z.lxor_spec by (apply Z.mod_pos_bound; lia). reflexivity. Qed.

(** The errors between a code word and what is received. *)
Lemma code_errs code msg received i m : is_rm_code code msg -> 0 <= i < 46 -> as_bytes msg !! Z.to_nat i = Some m ->
  errs m (poly received) (Z.lxor (poly code) (poly received)) i.
Proof.
  intros Hrm Hi Hm n Hn. assert (E : n = 128 * (n / 128) + n mod 128) by (apply Z.div_mod; lia).
  pose proof (Hrm i (n / 128) (n mod 128) m Hi ltac:(Z.to_euclidean_division_equations; lia) ltac:(apply Z.mod_pos_bound; lia) Hm) as H.
  replace (384 * i + 128 * (n / 128) + n mod 128) with (384 * i + n) in H by lia. rewrite <- H, Z.lxor_spec.
  destruct (Z.testbit (poly code) _), (Z.testbit (poly received) _); reflexivity.
Qed.

(** A block whose errors are harmless gives the byte that was encoded. *)
Lemma sent_byte code msg received i m : is_rm_code code msg -> 0 <= i < 46 -> as_bytes msg !! Z.to_nat i = Some m ->
  nearest 0 (Z.lxor (poly code) (poly received)) i -> block_peak (poly received) i = Some m.
Proof.
  intros Hrm Hi Hm Hn. assert (Hb : is_u8 m) by exact (proj1 (list.Forall_lookup _ _) (as_bytes_bytes msg) _ m Hm).
  apply block_peak_nearest; [exact Hb|]. apply (nearest_errs m _ (Z.lxor (poly code) (poly received))); [exact Hb| |exact Hn].
  apply (code_errs code msg); assumption.
Qed.

(** ** Properties *)

(** C31. The repeated Reed-Muller code is decoded to a nearest code word: encoding and decoding
    stay inside their arrays, and whatever the received words are, each of the 46 decoded
    bytes is one whose code word differs from its block in the least number of bits of all
    bytes; it is the byte that was encoded when at most 95 of the 384 bits are wrong, and
    more generally when the errors are nearer to zero than to every other code word. *)
Theorem reed_muller_corrects cdw msg : length cdw = 276%nat -> words_wf cdw -> length msg = 6%nat -> words_wf msg ->
  exists code, reed_muller_encode cdw msg = Some code /\ length code = 276%nat /\ words_wf code /\
    forall received out, (276 <= length received)%nat -> words_wf received -> length out = 6%nat -> words_wf out ->
    exists out', reed_muller_decode out received = Some out' /\ length out' = 6%nat /\ words_wf out' /\
      forall i, 0 <= i < 46 -> exists b, as_bytes out' !! Z.to_nat i = Some b /\
        (forall other, is_u8 other -> distance b (poly received) i <= distance other (poly received) i) /\
        (wrong_bits (poly code) (poly received) i <= 95 \/ nearest 0 (Z.lxor (poly code) (poly received)) i -> as_bytes msg !! Z.to_nat i = Some b).
Proof.
  intros Hlc Hwc Hlm Hwm. destruct (reed_muller_encode_eq cdw msg Hlc Hlm Hwc Hwm) as (code & E & Hl & Hw & Hbits).
  exists code. split_and!; [exact E|exact Hl|exact Hw|]. intros received out Hlr Hwr Hlo Hwo.
  destruct (reed_muller_decode_eq received out Hlr Hwr Hlo Hwo) as (out' & Ed & Hl' & Hw' & Hb'). exists out'. split_and!; [exact Ed|exact Hl'|exact Hw'|].
  intros i Hi. destruct (block_peak_min (poly received) i) as (b & Eb & _ & Hmin). exists b. rewrite Hb' by exact Hi. split; [exact Eb|]. split; [exact Hmin|].
  intros Hwi. destruct (lookup_lt_is_Some_2 (as_bytes msg) (Z.to_nat i)) as [m Hm]; [rewrite length_as_bytes; lia|]. rewrite Hm, <- Eb. symmetry.
  apply (sent_byte code msg); [exact Hbits|exact Hi|exact Hm|]. destruct Hwi as [Hwi|Hn]; [|exact Hn]. apply few_errors. rewrite <- wrong_bits_distance. exact Hwi.
Qed.

Lemma reed_muller_corrects_witness : words_wf (zeros 276) /\ words_wf (zeros 6) /\
  exists code, reed_muller_encode (zeros 276) (zeros 6) = Some code /\ length code = 276%nat /\ words_wf code /\
    forall received out, (276 <= length received)%nat -> words_wf received -> length out = 6%nat -> words_wf out ->
    exists out', reed_muller_decode out received = Some out' /\ length out' = 6%nat /\ words_wf out' /\
      forall i, 0 <= i < 46 -> exists b, as_bytes out' !! Z.to_nat i = Some b /\
        (forall other, is_u8 other -> distance b (poly received) i <= distance other (poly received) i) /\
        (wrong_bits (poly code) (poly received) i <= 95 \/ nearest 0 (Z.lxor (poly code) (poly received)) i -> as_bytes (zeros 6) !! Z.to_nat i = Some b).
Proof.
  assert (H : forall n, words_wf (zeros n)) by (intros n; apply Forall_replicate, width_0; lia). split; [apply H|]. split; [apply H|].
  apply (reed_muller_corrects (zeros 276) (zeros 6)); [reflexivity|apply H|reflexivity|apply H].
Defined.
