(* ===== verification/ReedSolomon.v ===== *)
(** * The Reed-Solomon code: [reed_solomon.c]

    Messages of 16 bytes are encoded into 46 bytes, and up to 15 wrong bytes are
    corrected: the encoder is a shift register, the decoder computes 30 syndromes, the
    error locator by the Berlekamp-Massey iteration, its roots by the FFT, and the
    values of the errors.  The theorems here are on the encoder; the decoder is proved
    in [RsDecode]. *)

From S2P Require Import Prelude Carryless Words Gf GfRing Locator Gf2x Vector Fft.
From Stdlib Require Import Ring.

(* src/extern/HQC-Round4/Additional_Implementation/hqc-128/src/parameters.h:86-86 PARAM_DELTA *)
Definition PARAM_DELTA : Z := 15.
(* src/extern/HQC-Round4/Additional_Implementation/hqc-128/src/parameters.h:93-93 PARAM_G *)
Definition PARAM_G : Z := 31.
(* src/extern/HQC-Round4/Additional_Implementation/hqc-128/src/parameters.h:95-95 RS_POLY_COEFS *)
Definition RS_POLY_COEFS : list Z :=
  [89; 69; 153; 116; 176; 117; 111; 75; 73; 233; 242; 233; 65; 210; 21; 139;
   103; 173; 67; 118; 105; 210; 174; 110; 74; 69; 228; 82; 255; 181; 1].

(* src/extern/HQC-Round4/Additional_Implementation/hqc-128/src/reed_solomon.h:13-13 alpha_ij_pow *)
Definition alpha_ij_pow : list (list Z) :=
  [[2; 4; 8; 16; 32; 64; 128; 29; 58; 116; 232; 205; 135; 19; 38; 76; 152; 45; 90; 180; 117; 234; 201;
    143; 3; 6; 12; 24; 48; 96; 192; 157; 39; 78; 156; 37; 74; 148; 53; 106; 212; 181; 119; 238; 193];
   [4; 16; 64; 29; 116; 205; 19; 76; 45; 180; 234; 143; 6; 24; 96; 157; 78; 37; 148; 106; 181; 238; 159;
    70; 5; 20; 80; 93; 105; 185; 222; 95; 97; 153; 94; 101; 137; 30; 120; 253; 211; 107; 177; 254; 223];
   [8; 64; 58; 205; 38; 45; 117; 143; 12; 96; 39; 37; 53; 181; 193; 70; 10; 80; 186; 185; 161; 97; 47;
    101; 15; 120; 231; 107; 127; 223; 182; 217; 134; 68; 26; 208; 206; 62; 237; 59; 197; 102; 23; 184; 169];
   [16; 29; 205; 76; 180; 143; 24; 157; 37; 106; 238; 70; 20; 93; 185; 95; 153; 101; 30; 253; 107; 254; 91;
    217; 17; 13; 208; 129; 248; 59; 151; 133; 184; 79; 132; 168; 82; 73; 228; 230; 198; 252; 123; 227; 150];
   [32; 116; 38; 180; 3; 96; 156; 106; 193; 5; 160; 185; 190; 94; 15; 253; 214; 223; 226; 17; 26; 103; 124;
    59; 51; 46; 169; 132; 77; 85; 114; 230; 145; 215; 255; 150; 55; 174; 100; 28; 167; 89; 239; 172; 36];
   [64; 205; 45; 143; 96; 37; 181; 70; 80; 185; 97; 101; 120; 107; 223; 217; 68; 208; 62; 59; 102; 184; 33;
    168; 85; 228; 191; 252; 241; 150; 110; 130; 7; 221; 89; 195; 138; 61; 251; 44; 207; 173; 8; 58; 38];
   [128; 19; 117; 24; 156; 181; 140; 93; 161; 94; 60; 107; 163; 67; 26; 129; 147; 102; 109; 132; 41; 57; 209;
    252; 255; 98; 87; 200; 224; 89; 155; 18; 245; 11; 233; 173; 16; 232; 45; 3; 157; 53; 159; 40; 185];
   [29; 76; 143; 157; 106; 70; 93; 95; 101; 253; 254; 217; 13; 129; 59; 133; 79; 168; 73; 230; 252; 227; 149;
    130; 28; 81; 195; 18; 247; 44; 27; 2; 58; 152; 3; 39; 212; 140; 186; 190; 202; 231; 225; 175; 26];
   [58; 45; 12; 37; 193; 80; 161; 101; 231; 223; 134; 208; 237; 102; 169; 168; 146; 191; 179; 150; 87; 7; 166;
    195; 36; 251; 125; 173; 64; 38; 143; 39; 181; 10; 185; 47; 120; 127; 217; 26; 62; 197; 184; 21; 85];
   [116; 180; 96; 106; 5; 185; 94; 253; 223; 17; 103; 59; 46; 132; 85; 230; 215; 150; 174; 28; 89; 172; 244;
    44; 108; 32; 38; 3; 156; 193; 160; 190; 15; 214; 226; 26; 124; 51; 169; 77; 114; 145; 255; 55; 100];
   [232; 234; 39; 238; 160; 97; 60; 254; 134; 103; 118; 184; 84; 57; 145; 227; 220; 7; 162; 172; 245; 176; 71;
    58; 180; 192; 181; 40; 95; 15; 177; 175; 208; 147; 46; 21; 73; 99; 241; 55; 200; 166; 43; 122; 44];
   [205; 143; 37; 70; 185; 101; 107; 217; 208; 59; 184; 168; 228; 252; 150; 130; 221; 195; 61; 44; 173; 58; 117;
    39; 193; 186; 47; 231; 182; 26; 237; 23; 21; 146; 145; 219; 87; 56; 242; 36; 139; 54; 64; 45; 96];
   [135; 6; 53; 20; 190; 120; 163; 13; 237; 46; 84; 228; 229; 98; 100; 81; 69; 251; 131; 32; 45; 192; 238;
    186; 94; 187; 217; 189; 236; 169; 82; 209; 241; 220; 28; 242; 72; 22; 173; 116; 201; 37; 140; 222; 15];
   [19; 24; 181; 93; 94; 107; 67; 129; 102; 132; 57; 252; 98; 200; 89; 18; 11; 173; 232; 3; 53; 40; 194;
    231; 226; 189; 197; 158; 170; 145; 75; 25; 166; 69; 235; 54; 29; 234; 37; 5; 95; 120; 91; 52; 59];
   [38; 96; 193; 185; 15; 223; 26; 59; 169; 85; 145; 150; 100; 89; 36; 44; 1; 38; 96; 193; 185; 15; 223;
    26; 59; 169; 85; 145; 150; 100; 89; 36; 44; 1; 38; 96; 193; 185; 15; 223; 26; 59; 169; 85; 145];
   [76; 157; 70; 95; 253; 217; 129; 133; 168; 230; 227; 130; 81; 18; 44; 2; 152; 39; 140; 190; 231; 175; 31;
    23; 77; 209; 219; 25; 162; 36; 88; 4; 45; 78; 5; 97; 211; 67; 62; 46; 154; 191; 171; 50; 89];
   [152; 78; 10; 153; 214; 68; 147; 79; 146; 215; 220; 221; 69; 11; 1; 152; 78; 10; 153; 214; 68; 147; 79;
    146; 215; 220; 221; 69; 11; 1; 152; 78; 10; 153; 214; 68; 147; 79; 146; 215; 220; 221; 69; 11; 1];
   [45; 37; 80; 101; 223; 208; 102; 168; 191; 150; 7; 195; 251; 173; 38; 39; 10; 47; 127; 26; 197; 21; 115;
    219; 100; 242; 245; 54; 205; 96; 70; 97; 107; 68; 59; 33; 228; 241; 130; 89; 61; 207; 58; 12; 193];
   [90; 148; 186; 30; 226; 62; 109; 73; 179; 174; 162; 61; 131; 232; 96; 140; 153; 127; 52; 51; 168; 99; 98;
    56; 172; 22; 8; 234; 212; 185; 240; 67; 237; 79; 114; 241; 25; 121; 245; 108; 19; 39; 20; 188; 223];
   [180; 106; 185; 253; 17; 59; 132; 230; 150; 28; 172; 44; 32; 3; 193; 190; 214; 26; 51; 77; 145; 55; 167;
    36; 233; 116; 96; 5; 94; 223; 103; 46; 85; 215; 174; 89; 244; 108; 38; 156; 160; 15; 226; 124; 169];
   [117; 181; 161; 107; 26; 102; 41; 252; 87; 89; 245; 173; 45; 53; 185; 231; 68; 197; 168; 145; 110; 166; 61;
    54; 38; 37; 186; 120; 134; 59; 21; 191; 196; 221; 36; 207; 205; 39; 80; 15; 217; 237; 33; 115; 150];
   [234; 238; 97; 254; 103; 184; 57; 227; 7; 172; 176; 58; 192; 40; 15; 175; 147; 21; 99; 55; 166; 122; 216;
    45; 106; 222; 107; 52; 133; 85; 123; 50; 195; 11; 32; 12; 140; 188; 182; 124; 158; 115; 49; 224; 36];
   [201; 159; 47; 91; 124; 33; 209; 149; 166; 244; 71; 117; 238; 194; 223; 31; 79; 115; 98; 167; 61; 216; 90;
    181; 190; 254; 206; 218; 213; 150; 224; 72; 54; 152; 106; 161; 177; 189; 184; 114; 171; 56; 18; 131; 38];
   [143; 70; 101; 217; 59; 168; 252; 130; 195; 44; 58; 39; 186; 231; 26; 23; 146; 219; 56; 36; 54; 45; 181;
    97; 223; 62; 33; 191; 110; 89; 251; 8; 12; 10; 15; 134; 197; 41; 179; 100; 86; 125; 205; 37; 185];
   [3; 5; 15; 17; 51; 85; 255; 28; 36; 108; 180; 193; 94; 226; 59; 77; 215; 100; 172; 233; 38; 106; 190;
    223; 124; 132; 145; 174; 239; 44; 116; 156; 185; 214; 103; 169; 230; 55; 89; 235; 32; 96; 160; 253; 26];
   [6; 20; 120; 13; 46; 228; 98; 81; 251; 32; 192; 186; 187; 189; 169; 209; 220; 242; 22; 116; 37; 222; 254;
    62; 132; 63; 130; 43; 250; 38; 212; 194; 182; 147; 77; 179; 141; 9; 54; 180; 159; 101; 67; 151; 85];
   [12; 80; 231; 208; 169; 191; 87; 195; 125; 38; 181; 47; 217; 197; 85; 219; 221; 245; 8; 96; 186; 107; 206;
    33; 145; 130; 86; 207; 45; 193; 101; 134; 102; 146; 150; 166; 251; 64; 39; 185; 127; 62; 21; 252; 100];
   [24; 93; 107; 129; 132; 252; 200; 18; 173; 3; 40; 231; 189; 158; 145; 25; 69; 54; 234; 5; 120; 52; 218;
    191; 174; 43; 207; 90; 35; 15; 136; 92; 115; 220; 239; 125; 76; 238; 101; 17; 133; 228; 149; 121; 44];
   [48; 105; 127; 248; 77; 241; 224; 247; 64; 156; 95; 182; 236; 170; 150; 162; 11; 205; 212; 94; 134; 133; 213;
    110; 239; 250; 45; 35; 30; 26; 218; 99; 130; 69; 108; 143; 40; 211; 206; 132; 229; 7; 144; 2; 96];
   [96; 185; 223; 59; 85; 150; 89; 44; 38; 193; 15; 26; 169; 145; 100; 36; 1; 96; 185; 223; 59; 85; 150;
    89; 44; 38; 193; 15; 26; 169; 145; 100; 36; 1; 96; 185; 223; 59; 85; 150; 89; 44; 38; 193; 15]].

(** ** The operations *)

(* src/extern/HQC-Round4/Additional_Implementation/hqc-128/src/reed_solomon.c:35-42 mod *)
Definition mod_ (i modulus : Z) : Z :=
  let tmp := u16 (i - modulus) in
  let mask := - Z.shiftr tmp 15 in
  u16 (tmp + Z.land mask modulus).

(** The polynomial and the text printed. *)
(* src/extern/HQC-Round4/Additional_Implementation/hqc-128/src/reed_solomon.c:56-76 compute_generator_poly *)
Definition compute_generator_poly (poly : list Z) : option (list Z * string) :=
  let times_root (i x : Z) := l ← cell gf_log x; cell gf_exp (mod_ (u16 (l + i)) PARAM_GF_MUL_ORDER) in
  poly ← set_cell poly 0 1;
  '(poly, _) ← ofor (seqZ 1 (2 * PARAM_DELTA)) (fun i '(poly, tmp_degree) =>
    poly ← ofor (rev (seqZ 1 tmp_degree)) (fun j poly =>
      x ← cell poly j; a ← times_root i x; b ← cell poly (j - 1); set_cell poly j (Z.lxor a b)) poly;
    x ← cell poly 0; a ← times_root i x; poly ← set_cell poly 0 a;
    let tmp_degree := tmp_degree + 1 in
    poly ← set_cell poly tmp_degree 1;
    Some (poly, tmp_degree)) (poly, 0);
  let newline := String (Ascii.ascii_of_nat 10) EmptyString in
  text ← ofor (upto PARAM_G) (fun i text => x ← cell poly i; Some (text ++ pretty x ++ ", "))%string newline;
  Some (poly, (text ++ newline)%string).

(** One turn of the shift register. *)
(* src/extern/HQC-Round4/Additional_Implementation/hqc-128/src/reed_solomon.c:102-114 reed_solomon_encode *)
Definition encode_byte (msg_bytes : bytes) (i : Z) '(tmp, cdw_bytes) : option (list Z * bytes) :=
  m ← cell msg_bytes (PARAM_K - 1 - i);
  top ← cell cdw_bytes (PARAM_N1 - PARAM_K - 1);
  let gate_value := Z.lxor m top in
  tmp ← ofor (upto PARAM_G) (fun j tmp => g ← cell RS_POLY_COEFS j; set_cell tmp j (gf_mul gate_value g)) tmp;
  cdw_bytes ← ofor (rev (seqZ 1 (PARAM_N1 - PARAM_K - 1))) (fun k cdw_bytes =>
    b ← cell cdw_bytes (k - 1); t ← cell tmp k; set_cell cdw_bytes k (u8 (Z.lxor b t))) cdw_bytes;
  t ← cell tmp 0;
  cdw_bytes ← set_cell cdw_bytes 0 (u8 t);
  Some (tmp, cdw_bytes).

(* src/extern/HQC-Round4/Additional_Implementation/hqc-128/src/reed_solomon.c:90-118 reed_solomon_encode *)
Definition reed_solomon_encode (cdw msg : words) : option words :=
  msg_bytes ← memcpy_from_words (zeros PARAM_K) 0 msg PARAM_K;
  '(_, cdw_bytes) ← ofor (upto PARAM_K) (encode_byte msg_bytes) (zeros PARAM_G, zeros PARAM_N1);
  cdw_bytes ← mem_write cdw_bytes (PARAM_N1 - PARAM_K) msg_bytes;
  memcpy_to_words cdw 0 cdw_bytes PARAM_N1.

(* src/extern/HQC-Round4/Additional_Implementation/hqc-128/src/reed_solomon.c:128-135 compute_syndromes *)
Definition compute_syndromes (syndromes : list Z) (cdw : bytes) : option (list Z) :=
  ofor (upto (2 * PARAM_DELTA)) (fun i syndromes =>
    syndromes ← ofor (seqZ 1 (PARAM_N1 - 1)) (fun j syndromes =>
      s ← cell syndromes i; c ← cell cdw j; row ← at_index alpha_ij_pow i; a ← cell row (j - 1);
      set_cell syndromes i (Z.lxor s (gf_mul c a))) syndromes;
    s ← cell syndromes i; c ← cell cdw 0; set_cell syndromes i (Z.lxor s c)) syndromes.

(** The variables of [compute_elp] that live from one turn to the next. *)
(* src/extern/HQC-Round4/Additional_Implementation/hqc-128/src/reed_solomon.c:156-168 compute_elp *)
Record elp_state := ElpState { el_sigma : list Z; el_sigma_copy : list Z; el_X_sigma_p : list Z; el_deg_sigma : Z; el_deg_sigma_p : Z; el_pp : Z; el_d_p : Z; el_d : Z }.

(** One turn of the loop; the last one stops before the state is prepared for another. *)
(* src/extern/HQC-Round4/Additional_Implementation/hqc-128/src/reed_solomon.c:173-213 compute_elp *)
Definition elp_turn (syndromes : list Z) (mu : Z) (s : elp_state) : option elp_state :=
  let '(ElpState sigma sigma_copy X_sigma_p deg_sigma deg_sigma_p pp d_p d) := s in
  sigma_copy ← memcpy16 sigma_copy 0 sigma 0 (2 * PARAM_DELTA);
  let deg_sigma_copy := deg_sigma in
  let dd := gf_mul d (gf_inverse d_p) in
  sigma ← ofor (seqZ 1 (Z.min (mu + 1) PARAM_DELTA)) (fun i sigma =>
    x ← cell sigma i; p ← cell X_sigma_p i; set_cell sigma i (Z.lxor x (gf_mul dd p))) sigma;
  let deg_X := u16 (mu - pp) in
  let deg_X_sigma_p := u16 (deg_X + deg_sigma_p) in
  let mask1 := u16 (- Z.shiftr (u16 (- d)) 15) in
  let mask2 := u16 (- Z.shiftr (u16 (deg_sigma - deg_X_sigma_p)) 15) in
  let mask12 := Z.land mask1 mask2 in
  let deg_sigma := Z.lxor deg_sigma (Z.land mask12 (Z.lxor deg_X_sigma_p deg_sigma)) in
  if mu =? 2 * PARAM_DELTA - 1 then Some (ElpState sigma sigma_copy X_sigma_p deg_sigma deg_sigma_p pp d_p d) else
  let pp := Z.lxor pp (Z.land mask12 (Z.lxor mu pp)) in
  let d_p := Z.lxor d_p (Z.land mask12 (Z.lxor d d_p)) in
  X_sigma_p ← ofor (rev (seqZ 1 PARAM_DELTA)) (fun i X_sigma_p =>
    c ← cell sigma_copy (i - 1); p ← cell X_sigma_p (i - 1);
    set_cell X_sigma_p i (Z.lxor (Z.land mask12 c) (Z.land (Z.lnot mask12) p))) X_sigma_p;
  let deg_sigma_p := Z.lxor deg_sigma_p (Z.land mask12 (Z.lxor deg_sigma_copy deg_sigma_p)) in
  d ← cell syndromes (mu + 1);
  d ← ofor (seqZ 1 (Z.min (mu + 1) PARAM_DELTA)) (fun i d =>
    x ← cell sigma i; y ← cell syndromes (mu + 1 - i); Some (Z.lxor d (gf_mul x y))) d;
  Some (ElpState sigma sigma_copy X_sigma_p deg_sigma deg_sigma_p pp d_p d).

(* src/extern/HQC-Round4/Additional_Implementation/hqc-128/src/reed_solomon.c:155-216 compute_elp *)
Definition compute_elp (sigma syndromes : list Z) : option (list Z * Z) :=
  d ← cell syndromes 0;
  sigma ← set_cell sigma 0 1;
  s ← ofor (upto (2 * PARAM_DELTA)) (elp_turn syndromes)
    (ElpState sigma (zeros (PARAM_DELTA + 1)) (0 :: 1 :: zeros (PARAM_DELTA - 1)) 0 0 (u16 (-1)) 1 d);
  Some (el_sigma s, el_deg_sigma s).

(* src/extern/HQC-Round4/Additional_Implementation/hqc-128/src/reed_solomon.c:229-234 compute_roots *)
Definition compute_roots (error sigma : list Z) : option (list Z) :=
  w ← fft (zeros (Z.shiftl 1 PARAM_M)) sigma (PARAM_DELTA + 1);
  fft_retrieve_error_poly error w.

(* src/extern/HQC-Round4/Additional_Implementation/hqc-128/src/reed_solomon.c:248-269 compute_z_poly *)
Definition compute_z_poly (z sigma : list Z) (degree : Z) (syndromes : list Z) : option (list Z) :=
  let mask i := u16 (- Z.shiftr (u16 (i - degree - 1)) 15) in
  z ← set_cell z 0 1;
  z ← ofor (seqZ 1 PARAM_DELTA) (fun i z => x ← cell sigma i; set_cell z i (Z.land (mask i) x)) z;
  z1 ← cell z 1; s0 ← cell syndromes 0;
  z ← set_cell z 1 (Z.lxor z1 s0);
  ofor (seqZ 2 (PARAM_DELTA - 1)) (fun i z =>
    x ← cell z i; y ← cell syndromes (i - 1);
    z ← set_cell z i (Z.lxor x (Z.land (mask i) y));
    ofor (seqZ 1 (i - 1)) (fun j z =>
      x ← cell z i; s ← cell sigma j; y ← cell syndromes (i - j - 1);
      set_cell z i (Z.lxor x (Z.land (mask i) (gf_mul s y)))) z) z.

(** [(uint16_t) (-((int32_t) x) >> 31)] and the mask of [j == delta_counter]. *)
(* src/extern/HQC-Round4/Additional_Implementation/hqc-128/src/reed_solomon.c:301-303 compute_error_values *)
Definition nonzero_mask (x : Z) : Z := u16 (Z.shiftr (- x) 31).
(* src/extern/HQC-Round4/Additional_Implementation/hqc-128/src/reed_solomon.c:303-303 compute_error_values *)
Definition same_mask (j delta_counter : Z) : Z := u16 (Z.lnot (u16 (Z.shiftr (- Z.lxor j delta_counter) 31))).

(** The locators of the errors, and their number. *)
(* src/extern/HQC-Round4/Additional_Implementation/hqc-128/src/reed_solomon.c:297-309 compute_error_values *)
Definition error_locators (error : bytes) : option (list Z * Z) :=
  ofor (upto PARAM_N1) (fun i '(beta_j, delta_counter) =>
    e ← cell error i;
    let mask1 := nonzero_mask e in
    '(beta_j, found) ← ofor (upto PARAM_DELTA) (fun j '(beta_j, found) =>
      let mask2 := same_mask j delta_counter in
      b ← cell beta_j j; a ← cell gf_exp i;
      beta_j ← set_cell beta_j j (u16 (b + Z.land (Z.land mask1 mask2) a));
      Some (beta_j, u16 (found + Z.land (Z.land mask1 mask2) 1))) (beta_j, 0);
    Some (beta_j, u16 (delta_counter + found))) (zeros PARAM_DELTA, 0).

(** The value of the error [i] of the list. *)
(* src/extern/HQC-Round4/Additional_Implementation/hqc-128/src/reed_solomon.c:312-327 compute_error_values *)
Definition error_value (beta_j z : list Z) (delta_real_value i : Z) : option Z :=
  b ← cell beta_j i;
  let inverse := gf_inverse b in
  '(tmp1, _) ← ofor (seqZ 1 PARAM_DELTA) (fun j '(tmp1, inverse_power_j) =>
    let inverse_power_j := gf_mul inverse_power_j inverse in
    zj ← cell z j; Some (Z.lxor tmp1 (gf_mul inverse_power_j zj), inverse_power_j)) (1, 1);
  tmp2 ← ofor (seqZ 1 (PARAM_DELTA - 1)) (fun k tmp2 =>
    bk ← cell beta_j ((i + k) mod PARAM_DELTA); Some (gf_mul tmp2 (Z.lxor 1 (gf_mul inverse bk)))) 1;
  let mask1 := u16 (Z.shiftr (i - delta_real_value) 15) in
  Some (Z.land mask1 (gf_mul tmp1 (gf_inverse tmp2))).

(** The values of the list at the positions of the errors. *)
(* src/extern/HQC-Round4/Additional_Implementation/hqc-128/src/reed_solomon.c:329-340 compute_error_values *)
Definition place_errors (error_values e_j : list Z) (error : bytes) : option (list Z * Z) :=
  ofor (upto PARAM_N1) (fun i '(error_values, delta_counter) =>
    e ← cell error i;
    let mask1 := nonzero_mask e in
    '(error_values, found) ← ofor (upto PARAM_DELTA) (fun j '(error_values, found) =>
      let mask2 := same_mask j delta_counter in
      v ← cell error_values i; x ← cell e_j j;
      error_values ← set_cell error_values i (u16 (v + Z.land (Z.land mask1 mask2) x));
      Some (error_values, u16 (found + Z.land (Z.land mask1 mask2) 1))) (error_values, 0);
    Some (error_values, u16 (delta_counter + found))) (error_values, 0).

(* src/extern/HQC-Round4/Additional_Implementation/hqc-128/src/reed_solomon.c:283-341 compute_error_values *)
Definition compute_error_values (error_values z : list Z) (error : bytes) : option (list Z) :=
  '(beta_j, delta_real_value) ← error_locators error;
  e_j ← ofor (upto PARAM_DELTA) (fun i e_j => v ← error_value beta_j z delta_real_value i; set_cell e_j i v) (zeros PARAM_DELTA);
  '(error_values, _) ← place_errors error_values e_j error;
  Some error_values.

(* src/extern/HQC-Round4/Additional_Implementation/hqc-128/src/reed_solomon.c:352-356 correct_errors *)
Definition correct_errors (cdw error_values : list Z) : option (list Z) :=
  ofor (upto PARAM_N1) (fun i cdw => c ← cell cdw i; v ← cell error_values i; set_cell cdw i (u8 (Z.lxor c v))) cdw.

(* src/extern/HQC-Round4/Additional_Implementation/hqc-128/src/reed_solomon.c:377-409 reed_solomon_decode *)
Definition reed_solomon_decode (msg cdw : words) : option words :=
  cdw_bytes ← memcpy_from_words (zeros PARAM_N1) 0 cdw PARAM_N1;
  syndromes ← compute_syndromes (zeros (2 * PARAM_DELTA)) cdw_bytes;
  '(sigma, deg) ← compute_elp (zeros (Z.shiftl 1 PARAM_FFT)) syndromes;
  error ← compute_roots (zeros (Z.shiftl 1 PARAM_M)) sigma;
  z ← compute_z_poly (zeros PARAM_N1) sigma deg syndromes;
  error_values ← compute_error_values (zeros PARAM_N1) z error;
  cdw_bytes ← correct_errors cdw_bytes error_values;
  piece ← mem_read cdw_bytes (PARAM_G - 1) PARAM_K;
  memcpy_to_words msg 0 piece PARAM_K.

(** ** The generator polynomial *)

#[local] Open Scope gf_scope.

Definition rs_poly : list gf := of_byte <$> RS_POLY_COEFS.
Lemma RS_POLY_COEFS_gfs : RS_POLY_COEFS = gfs rs_poly.
Proof. symmetry. apply gfs_of_bytes. decided. Qed.

Lemma eval_horner l x : eval (coef l) (length l) x = foldr (fun c acc => c + x * acc) 0 l.
Proof.
  induction l as [|c l IH]; [reflexivity|]. cbn [foldr length]. rewrite <- IH. unfold eval. rewrite gsum_first, <- gsum_mul. f_equal; [cbn; ring|].
  apply gsum_ext. intros i Hi. change (coef (c :: l) (S i)) with (coef l i). cbn [gpow]. ring.
Qed.

(** Its value on bytes. *)
Definition byte_horner (l : bytes) (x : Z) : Z := foldr (fun c acc => Z.lxor c (gf_mul x acc)) 0%Z l.
Lemma byte_horner_eq l x : byte_horner (gfs l) (gfv x) = gfv (foldr (fun c acc => c + x * acc) 0 l).
Proof. induction l as [|c l IH]; [reflexivity|]. cbn [foldr]. change (byte_horner (gfs (c :: l)) (gfv x)) with (Z.lxor (gfv c) (gf_mul (gfv x) (byte_horner (gfs l) (gfv x)))). rewrite gfv_add, gfv_mul, <- IH. reflexivity. Qed.

(** Its roots are the first 30 powers of alpha. *)
Lemma rs_poly_root i : (1 <= i <= 30)%nat -> eval (coef rs_poly) 31 (alpha ^ i) = 0.
Proof.
  intros Hi. pose proof (check_nat 31 (fun i => (i =? 0)%nat || (byte_horner RS_POLY_COEFS (gf_pow (Z.of_nat i mod 255)) =? 0)%Z) ltac:(vm_compute; reflexivity) i ltac:(lia)) as H.
  cbv beta in H. apply orb_true_iff in H as [H|H]; [apply Nat.eqb_eq in H; lia|]. apply Z.eqb_eq in H. rewrite <- gfv_alpha, RS_POLY_COEFS_gfs, byte_horner_eq in H.
  apply gf_eq. change 31%nat with (length rs_poly). rewrite eval_horner, H. reflexivity.
Qed.

(** ** The encoder *)

(** A word of the code vanishes at the first 30 powers of alpha. *)
Definition is_codeword (c : list gf) : Prop := length c = 46%nat /\ forall i, (1 <= i <= 30)%nat -> eval (coef c) 46 (alpha ^ i) = 0.

Lemma eval_app a b n x : eval (coef (a ++ b)) (length a + n) x = eval (coef a) (length a) x + x ^ length a * eval (coef b) n x.
Proof.
  induction n as [|n IH].
  - rewrite Nat.add_0_r. unfold eval. cbn [gsum]. rewrite (gsum_ext (fun i => coef (a ++ b) i * _) (fun i => coef a i * x ^ i)); [ring|].
    intros k Hk. rewrite coef_app. case_decide; [reflexivity|lia].
  - rewrite Nat.add_succ_r. unfold eval in *. cbn [gsum]. rewrite IH, coef_app, gpow_add. case_decide; [lia|].
    replace (length a + n - length a)%nat with n by lia. ring.
Qed.

(** What a turn of the register does to the parity cells. *)
Lemma encode_byte_gfs m i tmp r : length m = 16%nat -> length tmp = 31%nat -> length r = 46%nat -> (i < 16)%nat ->
  exists tmp' r', encode_byte (gfs m) (Z.of_nat i) (gfs tmp, gfs r) = Some (gfs tmp', gfs r') /\ length tmp' = 31%nat /\ length r' = 46%nat /\
    forall k, (k < 30)%nat -> coef r' k = shifted (coef r) k + (coef m (15 - i) + coef r 29) * coef rs_poly k.
Proof.
  intros Hm Ht Hr Hi. unfold encode_byte. change (PARAM_K - 1)%Z with 15%Z. change (PARAM_N1 - PARAM_K - 1)%Z with 29%Z.
  rewrite (cell_gfs (15 - i) m), some_bind, (cell_gfs 29 r), some_bind, <- gfv_add by lia. set (gate := coef m (15 - i) + coef r 29).
  rewrite RS_POLY_COEFS_gfs. cbv zeta.
  destruct (ofor_fill (fun j => gate * coef rs_poly j) 0 31 (fun j tmp => g ← cell (gfs rs_poly) j; set_cell tmp j (gf_mul (gfv gate) g)) tmp) as (tmp' & E & T1 & T2 & _).
  { lia. }
  { intros j l' Hj _ _ _. cbv beta. rewrite (cell_gfs j rs_poly), some_bind, <- gfv_mul by (cbn; lia). reflexivity. }
  change (Z.of_nat 31) with PARAM_G in E. rewrite E, some_bind. cbn [Nat.add] in T2. clear E.
  destruct (ofor_shift (fun k => coef r (k - 1) + coef tmp' k) 29 (fun k cdw_bytes => b ← cell cdw_bytes (k - 1); t ← cell (gfs tmp') k; set_cell cdw_bytes k (u8 (Z.lxor b t))) r)
    as (r1 & E & R1 & R2); [lia| |].
  { intros k l' Hk Hl Hsame. cbv beta. rewrite (cell_gfs (k - 1) l' (Z.of_nat k - 1)), some_bind, (cell_gfs k tmp' (Z.of_nat k)), some_bind, Hsame, <- gfv_add by lia.
    rewrite u8_id by apply gfv_u8. reflexivity. }
  change (Z.of_nat 29) with 29%Z in E. rewrite E, some_bind, (cell_gfs 0 tmp'), some_bind, u8_id by (lia || apply gfv_u8). clear E.
  rewrite (set_cell_gfs 0 r1), some_bind by lia. eexists tmp', _. split; [reflexivity|]. rewrite length_insert. split_and!; [lia|lia|].
  intros k Hk. rewrite coef_insert, R2 by lia. destruct k as [|k].
  - case_decide; [|lia]. rewrite T2 by lia. cbn [shifted]. ring.
  - repeat case_decide; try lia. rewrite T2 by lia. cbn [shifted]. replace (S k - 1)%nat with k by lia. reflexivity.
Qed.

(** The register multiplies by x and adds, modulo the generator polynomial. *)
Lemma register_step (r r' : nat -> gf) c x : eval (coef rs_poly) 31 x = 0 ->
  (forall k, (k < 30)%nat -> r' k = shifted r k + (c + r 29%nat) * coef rs_poly k) -> eval r' 30 x = x * eval r 30 x + c * x ^ 30.
Proof.
  intros Hx H. rewrite (eval_ext r' (fun k => shifted r k + (c + r 29%nat) * coef rs_poly k)) by exact H. rewrite eval_add, eval_mul, eval_shifted.
  assert (Eg : eval (coef rs_poly) 30 x = x ^ 30).
  { apply gadd_eq. rewrite <- Hx. unfold eval. cbn [gsum]. change (coef rs_poly 30) with 1. ring. }
  assert (Er : eval r 30 x = eval r 29 x + r 29%nat * x ^ 29) by reflexivity. rewrite Eg, Er. change (x ^ 30) with (x * x ^ 29). ring.
Qed.

(** The parity cells after [n] turns, at a root of the generator polynomial. *)
Lemma register_spec m n : length m = 16%nat -> (n <= 16)%nat -> exists tmp r,
  ofor (upto (Z.of_nat n)) (encode_byte (gfs m)) (zeros PARAM_G, zeros PARAM_N1) = Some (gfs tmp, gfs r) /\ length tmp = 31%nat /\ length r = 46%nat /\
  forall x, eval (coef rs_poly) 31 x = 0 -> eval (coef r) 30 x = x ^ 30 * eval (fun k => coef m (16 - n + k)) n x.
Proof.
  intros Hm Hn. set (P := fun (j : Z) (s : list Z * bytes) => exists tmp r, s = (gfs tmp, gfs r) /\ length tmp = 31%nat /\ length r = 46%nat /\
    forall x, eval (coef rs_poly) 31 x = 0 -> eval (coef r) 30 x = x ^ 30 * eval (fun k => coef m (16 - Z.to_nat j + k)) (Z.to_nat j) x).
  edestruct (ofor_upto_ind P (Z.of_nat n)) as (s & -> & tmp & r & -> & H1 & H2 & H3); [lia| | |].
  - exists (replicate 31 0), (replicate 46 0). split_and!; try reflexivity. intros x _. unfold eval at 2. cbn [gsum Z.to_nat].
    rewrite gmul_0_r. apply gsum_zero. intros k Hk. rewrite coef_replicate. ring.
  - intros j s Hj (tmp & r & -> & H1 & H2 & H3).
    destruct (encode_byte_gfs m (Z.to_nat j) tmp r Hm H1 H2 ltac:(lia)) as (tmp' & r' & Eb & T & R & E). rewrite Z2Nat.id in Eb by lia. rewrite Eb. eexists. split; [reflexivity|].
    exists tmp', r'. split_and!; [reflexivity|exact T|exact R|]. intros x Hx. rewrite (register_step (coef r) (coef r') _ x Hx E), H3 by exact Hx.
    replace (Z.to_nat (j + 1)) with (S (Z.to_nat j)) by lia. unfold eval. rewrite gsum_first. replace (16 - S (Z.to_nat j) + 0)%nat with (15 - Z.to_nat j)%nat by lia.
    rewrite (gsum_ext (fun k => coef m (16 - S (Z.to_nat j) + S k) * x ^ S k) (fun k => x * (coef m (16 - Z.to_nat j + k) * x ^ k))).
    + rewrite gsum_mul. cbn [gpow]. ring.
    + intros k Hk. replace (16 - S (Z.to_nat j) + S k)%nat with (16 - Z.to_nat j + k)%nat by lia. cbn [gpow]. ring.
  - exists tmp, r. rewrite Nat2Z.id in H3. auto.
Qed.

(** The code word of a message: 30 parity bytes before it. *)
Lemma encode_codeword m : length m = 16%nat -> exists tmp r, ofor (upto PARAM_K) (encode_byte (gfs m)) (zeros PARAM_G, zeros PARAM_N1) = Some (gfs tmp, gfs r) /\
  length r = 46%nat /\ is_codeword (take 30 r ++ m).
Proof.
  intros Hm. destruct (register_spec m 16 Hm ltac:(lia)) as (tmp & r & E & H1 & H2 & H3). exists tmp, r. split; [exact E|]. split; [exact H2|].
  assert (Hl : length (take 30 r) = 30%nat) by (rewrite length_take; lia). split; [rewrite length_app; lia|]. intros i Hi.
  pose proof (eval_app (take 30 r) m 16 (alpha ^ i)) as Ea. rewrite Hl in Ea. change (30 + 16)%nat with 46%nat in Ea. rewrite Ea.
  specialize (H3 _ (rs_poly_root i Hi)). apply gadd_eq. rewrite (eval_ext (coef (take 30 r)) (coef r)); [exact H3|].
  intros k Hk. unfold coef. rewrite lookup_take_lt by exact Hk. reflexivity.
Qed.

(** ** The syndromes *)

Definition alpha_entry_ok (i j : nat) : bool :=
  match alpha_ij_pow !! i with
  | Some row => match row !! j with Some a => (a =? gf_pow (Z.of_nat (S i * S j) mod 255))%Z | None => false end
  | None => false
  end.
Lemma alpha_table_ok : forallb (fun i => forallb (alpha_entry_ok i) (seq 0 45)) (seq 0 30) = true.
Proof. vm_compute. reflexivity. Qed.

Lemma alpha_ij_pow_spec i j : (i < 30)%nat -> (j < 45)%nat ->
  exists row, at_index alpha_ij_pow (Z.of_nat i) = Some row /\ cell row (Z.of_nat j) = Some (gfv ((alpha ^ S i) ^ S j)).
Proof.
  intros Hi Hj. rewrite gpow_gpow, gfv_alpha, at_index_nat. pose proof (check_nat 30 _ alpha_table_ok i Hi) as H. pose proof (check_nat 45 _ H j Hj) as H1.
  unfold alpha_entry_ok in H1. destruct (alpha_ij_pow !! i) as [row|]; [|discriminate]. exists row. split; [reflexivity|].
  rewrite cell_lookup, Nat2Z.id by lia. destruct (row !! j); [|discriminate]. apply Z.eqb_eq in H1. congruence.
Qed.

Definition syndrome (c : list gf) (i : nat) : gf := eval (coef c) 46 (alpha ^ S i).

Lemma compute_syndromes_eq c : length c = 46%nat -> compute_syndromes (zeros (2 * PARAM_DELTA)) (gfs c) = Some (gfs (syndrome c <$> seq 0 30)).
Proof.
  intros Hc. unfold compute_syndromes. change (zeros (2 * PARAM_DELTA)) with (gfs (replicate 30 0)).
  set (P := fun (m : Z) (s : list Z) => exists l, s = gfs l /\ length l = 30%nat /\ forall i, coef l i = if decide (i < Z.to_nat m)%nat then syndrome c i else 0).
  edestruct (ofor_upto_ind P (2 * PARAM_DELTA)) as (s & -> & l & -> & L & H); [decided| | |].
  - exists (replicate 30 0). split_and!; try reflexivity. intros i. rewrite coef_replicate. case_decide; [lia|reflexivity].
  - intros m s Hm (l & -> & L & H). change (2 * PARAM_DELTA)%Z with 30%Z in Hm. set (i := Z.to_nat m) in *. assert (Em : m = Z.of_nat i) by (unfold i; lia).
    pose proof (ofor_sum (fun acc => gfs (<[i := acc]> l)) (fun j => coef c j * (alpha ^ S i) ^ j) 1 45 (fun j syndromes =>
      s ← cell syndromes m; c ← cell (gfs c) j; row ← at_index alpha_ij_pow m; a ← cell row (j - 1); set_cell syndromes m (Z.lxor s (gf_mul c a))) 0) as E.
    change (Z.of_nat 1) with 1%Z in E. change (Z.of_nat 45) with (PARAM_N1 - 1)%Z in E.
    assert (Ei : <[i := 0]> l = l).
    { apply coef_eq; [apply length_insert|]. intros k Hk. rewrite length_insert in Hk. rewrite coef_insert, H by lia. repeat case_decide; (reflexivity || lia). }
    cbv beta in E. rewrite Ei in E. rewrite E; clear E.
    + rewrite some_bind, (cell_gfs i _ m), some_bind, (cell_gfs 0 c 0), some_bind, <- gfv_add, (set_cell_gfs i _ m) by (rewrite ?length_insert; lia).
      eexists. split; [reflexivity|]. eexists. split; [reflexivity|]. rewrite !length_insert. split; [exact L|]. intros k.
      replace (Z.to_nat (m + 1)) with (S i) by lia. rewrite !coef_insert by (rewrite ?length_insert; lia).
      destruct (decide (i = i)); [|lia]. destruct (decide (k = i)) as [->|]; [|rewrite H; repeat case_decide; (reflexivity || lia)].
      case_decide; [|lia]. unfold syndrome, eval. rewrite (gsum_first _ 45). cbn [gpow Nat.add]. ring.
    + intros j acc Hj. cbv beta. destruct (alpha_ij_pow_spec i (j - 1)) as (row & Er & Ec); [lia|lia|].
      rewrite (cell_gfs i _ m), some_bind, (cell_gfs j c (Z.of_nat j)), some_bind by (rewrite ?length_insert; lia). rewrite Em, Er, some_bind.
      replace (Z.of_nat j - 1)%Z with (Z.of_nat (j - 1)) by lia. rewrite Ec, some_bind. replace (S (j - 1)) with j by lia.
      rewrite <- gfv_mul, <- gfv_add, (set_cell_gfs i) by (rewrite ?length_insert; lia). rewrite list_insert_insert_eq, coef_insert by lia.
      case_decide; [reflexivity|lia].
  - f_equal. f_equal. apply coef_eq; [rewrite length_fmap, length_seq; exact L|]. intros i Hi. rewrite L in Hi. rewrite H, coef_fmap_seq by exact Hi.
    change (Z.to_nat (2 * PARAM_DELTA)) with 30%nat. case_decide; [reflexivity|lia].
Qed.

(** ** Properties *)

(** The polynomial in the header is the one that [compute_generator_poly] computes. *)
Lemma generator_poly : fst <$> compute_generator_poly (zeros PARAM_G) = Some RS_POLY_COEFS.
Proof. vm_compute. reflexivity. Qed.

(** What [reed_solomon_encode] writes. *)
Lemma reed_solomon_encode_eq cdw msg : length cdw = 6%nat -> length msg = 2%nat -> Forall (in_width 64) cdw ->
  exists d parity, reed_solomon_encode cdw msg = Some d /\ length d = 6%nat /\ Forall (in_width 64) d /\
    as_bytes d = gfs parity ++ as_bytes msg ++ drop 46 (as_bytes cdw) /\ length parity = 30%nat /\ is_codeword (parity ++ (of_byte <$> as_bytes msg)).
Proof.
  intros Hc Hm Wc. unfold reed_solomon_encode, memcpy_from_words.
  assert (Hmb : length (as_bytes msg) = 16%nat) by (rewrite length_as_bytes; lia).
  destruct (mem_read_total (as_bytes msg) 0 PARAM_K) as (p & -> & _ & ->); [decided|decided|rewrite Hmb; decided|]. rewrite some_bind, drop_0.
  change (Z.to_nat PARAM_K) with 16%nat. rewrite (take_ge (as_bytes msg)) by lia. set (m := of_byte <$> as_bytes msg).
  assert (Em : as_bytes msg = gfs m) by (symmetry; apply gfs_of_bytes, as_bytes_bytes). rewrite Em. assert (Lm : length m = 16%nat) by (rewrite <- length_gfs, <- Em; exact Hmb).
  rewrite mem_write_total by (rewrite ?length_gfs, ?Lm; decided). rewrite some_bind. change (Z.to_nat 0) with 0%nat. rewrite take_0, length_gfs, Lm.
  change (drop (0 + 16) (zeros PARAM_K)) with (@nil Z). rewrite app_nil_r, app_nil_l.
  destruct (encode_codeword m Lm) as (tmp & r & -> & Lr & Hcw). rewrite some_bind. change (PARAM_N1 - PARAM_K)%Z with 30%Z.
  rewrite mem_write_total by (rewrite ?length_gfs, ?Lm, ?Lr; decided). rewrite some_bind, length_gfs, Lm. change (Z.to_nat 30) with 30%nat. change (30 + 16)%nat with 46%nat.
  rewrite (drop_ge (gfs r)), app_nil_r by (rewrite length_gfs; lia).
  assert (Lt : length (take 30 (gfs r)) = 30%nat) by (rewrite length_take, length_gfs; lia).
  assert (L46 : length (take 30 (gfs r) ++ gfs m) = 46%nat) by (rewrite length_app, length_gfs; lia).
  destruct (memcpy_to_words_eq cdw 0 (take 30 (gfs r) ++ gfs m) PARAM_N1) as (d & -> & Ld & Wd & Ed); [exact Wc| |rewrite L46; decided|lia|rewrite Hc; decided|].
  { apply Forall_app. split; [apply Forall_take|]; apply gfs_bytes. }
  exists d, (take 30 r). split_and!; [reflexivity|lia|exact Wd| |rewrite length_take; lia|exact Hcw].
  rewrite Ed. change (Z.to_nat 0) with 0%nat. change (Z.to_nat PARAM_N1) with 46%nat. change (Z.to_nat (0 + PARAM_N1)) with 46%nat.
  rewrite take_0, app_nil_l, (take_ge (_ ++ _)), <- app_assoc by lia. unfold gfs. rewrite fmap_take. reflexivity.
Qed.
