(* ===== verification/RsDecode.v ===== *)
(** * Decoding of the Reed-Solomon code

    The decoder of [reed_solomon.c] corrects every word that differs from a code word
    in at most 15 of its 46 bytes.  Each of its steps is shown to compute what the
    algebra of [Locator] speaks of: the power sums of the errors, their locator, its
    roots, the polynomial z and the values. *)

From S2P Require Import Prelude Carryless Words Gf GfRing Locator Gf2x Vector Fft ReedSolomon.
From Stdlib Require Import Ring.

#[local] Open Scope gf_scope.

(** ** The errors of a word *)

(** The positions in front of [n] where the word [e] is not zero. *)
Definition positions (e : list gf) (n : nat) : list nat := filter (fun i => coef e i <> 0) (seq 0 n).
Definition locators (e : list gf) : list gf := (fun i => alpha ^ i) <$> positions e 46.
Definition dlog (x : gf) : nat := Z.to_nat (gf_dlog (gfv x)).
Definition value_at (e : list gf) (x : gf) : gf := coef e (dlog x).

Lemma dlog_alpha i : (i < 255)%nat -> dlog (alpha ^ i) = i.
Proof.
  intros Hi. unfold dlog. rewrite gfv_alpha.
  pose proof (check_nat 255 (fun i => Z.to_nat (gf_dlog (gf_pow (Z.of_nat i mod 255))) =? i)%nat ltac:(vm_compute; reflexivity) i Hi) as H.
  apply Nat.eqb_eq, H.
Qed.
Lemma alpha_inj i j : (i < 255)%nat -> (j < 255)%nat -> alpha ^ i = alpha ^ j -> i = j.
Proof. intros Hi Hj E. rewrite <- (dlog_alpha i Hi), <- (dlog_alpha j Hj), E. reflexivity. Qed.

Lemma elem_of_positions e n i : i ∈ positions e n <-> (i < n)%nat /\ coef e i <> 0.
Proof. unfold positions. rewrite list_elem_of_filter, elem_of_seq. intuition lia. Qed.
Lemma positions_S e n : positions e (S n) = positions e n ++ (if decide (coef e n = 0) then [] else [n]).
Proof.
  unfold positions. rewrite seq_S, filter_app, Nat.add_0_l. f_equal. cbn. destruct (decide (coef e n = 0)) as [E|E]; case_decide; tauto.
Qed.
Lemma elem_of_locators e x : x ∈ locators e <-> exists i, (i < 46)%nat /\ coef e i <> 0 /\ x = alpha ^ i.
Proof.
  unfold locators. rewrite list_elem_of_fmap. split.
  - intros (i & -> & Hi). apply elem_of_positions in Hi. exists i. tauto.
  - intros (i & H1 & H2 & ->). exists i. split; [reflexivity|apply elem_of_positions; auto].
Qed.
Lemma locators_NoDup e : NoDup (locators e).
Proof.
  unfold locators. assert (H : forall n, (n <= 46)%nat -> NoDup ((fun i => alpha ^ i) <$> positions e n)); [|apply H; lia].
  induction n as [|n IH]; intros Hn; [constructor|]. rewrite positions_S, fmap_app. apply list.NoDup_app. split; [apply IH; lia|]. split.
  - intros x Hx. apply list_elem_of_fmap in Hx as (i & -> & Hi). apply elem_of_positions in Hi. case_decide; [set_solver|].
    intros Hin. apply list_elem_of_singleton in Hin. apply alpha_inj in Hin; lia.
  - case_decide; [constructor|apply NoDup_singleton].
Qed.
Lemma locators_nonzero e x : x ∈ locators e -> x <> 0.
Proof. intros Hx. apply elem_of_locators in Hx as (i & _ & _ & ->). apply alpha_nonzero. Qed.
Lemma value_at_locator e i : (i < 46)%nat -> value_at e (alpha ^ i) = coef e i.
Proof. intros Hi. unfold value_at. rewrite dlog_alpha by lia. reflexivity. Qed.
Lemma value_at_nonzero e x : x ∈ locators e -> value_at e x <> 0.
Proof. intros Hx. apply elem_of_locators in Hx as (i & Hi & He & ->). rewrite value_at_locator by exact Hi. exact He. Qed.

Lemma gsums_app {A} (f : A -> gf) l1 l2 : gsums f (l1 ++ l2) = gsums f l1 + gsums f l2.
Proof.
  induction l1 as [|x l1 IH]; cbn [gsums foldr app]; [fold (gsums f l2); ring|]. fold (gsums f l1) (gsums f (l1 ++ l2)). rewrite IH. ring.
Qed.
Lemma gsums_fmap {A B} (f : B -> gf) (g : A -> B) l : gsums f (g <$> l) = gsums (fun x => f (g x)) l.
Proof.
  induction l as [|x l IH]; [reflexivity|]. cbn [gsums foldr fmap list_fmap]. change (list_fmap _ _ g l) with (g <$> l).
  fold (gsums f (g <$> l)) (gsums (fun x => f (g x)) l). rewrite IH. reflexivity.
Qed.

(** The syndromes of a word that differs from a code word by [e] are the power sums of [e]. *)
Lemma syndrome_errors c e c' i : is_codeword c -> length c' = 46%nat -> (forall k, (k < 46)%nat -> coef c' k = coef c k + coef e k) ->
  (i < 30)%nat -> syndrome c' i = psum (locators e) (value_at e) (S i).
Proof.
  intros [_ Hc] _ H Hi. unfold syndrome. rewrite (eval_ext _ (fun k => coef c k + coef e k)), eval_add, Hc by (exact H || lia).
  unfold psum, locators. rewrite gsums_fmap, gadd_0_l. unfold eval.
  rewrite (gsums_ext _ (fun k => coef e k * (alpha ^ S i) ^ k)).
  - generalize 46%nat. induction n as [|n IH]; [reflexivity|]. rewrite positions_S, gsums_app, <- IH. cbn [gsum]. f_equal.
    case_decide as E; [rewrite E; cbn; ring|]. cbn [gsums foldr]. ring.
  - intros k Hk. apply elem_of_positions in Hk as [Hk _]. rewrite value_at_locator, !gpow_gpow by exact Hk. do 2 f_equal. lia.
Qed.

(** ** The locator *)

Definition mask_of (b : bool) : Z := if b then 0xffff else 0.

Lemma sign_mask x : (- 2 ^ 15 <= x < 2 ^ 15)%Z -> u16 (- Z.shiftr (u16 x) 15) = mask_of (x <? 0)%Z.
Proof.
  intros Hx. destruct (Z.ltb_spec x 0) as [Hn|Hn].
  - assert (E : u16 x = (2 ^ 16 + x)%Z) by (unfold u16; symmetry; apply (Z.mod_unique_pos _ _ (-1)); lia).
    rewrite E, Z.shiftr_div_pow2 by lia. replace ((2 ^ 16 + x) / 2 ^ 15)%Z with 1%Z by (apply (Z.div_unique_pos _ _ _ (2 ^ 15 + x)); lia). reflexivity.
  - rewrite (u16_id x), Z.shiftr_div_pow2, Z.div_small by (unfold in_width; lia). reflexivity.
Qed.
Lemma mask_land a b : Z.land (mask_of a) (mask_of b) = mask_of (a && b).
Proof. destruct a, b; reflexivity. Qed.
Lemma land_mask_of b x : is_u16 x -> Z.land (mask_of b) x = if b then x else 0%Z.
Proof. intros Hx. destruct b; cbn [mask_of]; [change 0xffff%Z with (Z.ones 16); rewrite Z.land_comm, Z.land_ones by lia; apply u16_id, Hx|apply Z.land_0_l]. Qed.
Lemma mask_select b x y : is_u16 x -> is_u16 y -> Z.lxor x (Z.land (mask_of b) (Z.lxor y x)) = if b then y else x.
Proof.
  intros Hx Hy. rewrite land_mask_of by (apply width_lxor; (lia || assumption)). destruct b; [|apply Z.lxor_0_r].
  rewrite (Z.lxor_comm y), <- Z.lxor_assoc, Z.lxor_nilpotent. apply Z.lxor_0_l.
Qed.
Lemma mask_choose b x y : is_u16 x -> is_u16 y -> Z.lxor (Z.land (mask_of b) x) (Z.land (Z.lnot (mask_of b)) y) = if b then x else y.
Proof.
  intros Hx Hy. rewrite land_mask_of by exact Hx. destruct b; cbn [mask_of].
  - replace (Z.land (Z.lnot 0xffff) y) with 0%Z; [apply Z.lxor_0_r|]. rewrite Z.land_comm. change 0xffff%Z with (Z.ones 16).
    symmetry. change (Z.land y (Z.lnot (Z.ones 16))) with (Z.ldiff y (Z.ones 16)) || rewrite <- Z.ldiff_land.
    rewrite Z.ldiff_ones_r by lia. rewrite Z.shiftr_div_pow2, Z.div_small by (exact Hy || lia). apply Z.shiftl_0_l.
  - change (Z.lnot 0) with (-1)%Z. rewrite Z.land_m1_l. apply Z.lxor_0_l.
Qed.
Lemma gfv_u16 a : is_u16 (gfv a).
Proof. apply (width_mono 8); [lia|apply gfv_u8]. Qed.
Lemma gfv_if (b : bool) x y : (if b then gfv x else gfv y) = gfv (if b then x else y).
Proof. destruct b; reflexivity. Qed.
Lemma nonzero_neg x : (- gfv x <? 0)%Z = bool_decide (x <> 0).
Proof.
  destruct (decide (x = 0)) as [->|Hne]; [reflexivity|]. pose proof (nonzero_range x Hne). rewrite bool_decide_eq_true_2 by exact Hne. apply Z.ltb_lt. lia.
Qed.

Section elp.
Context (pts : list gf) (Y : gf -> gf) (syn : list gf).
Context (Hnd : NoDup pts) (Hpts : forall x, x ∈ pts -> x <> 0) (HY : forall x, x ∈ pts -> Y x <> 0).
Context (Hlen : (length pts <= 15)%nat) (Hsyn : length syn = 30%nat) (Hval : forall i, (i < 30)%nat -> coef syn i = psum pts Y (S i)).

(** The state before turn [mu] and the polynomials it holds the first 16 coefficients of. *)
Definition elp_inv (mu : nat) (s : elp_state) : Prop :=
  exists sl cl xl sigma B L Lp dp, s = ElpState (gfs sl) (gfs cl) (gfs xl) (Z.of_nat L) (Z.of_nat Lp) (u16 (Z.of_nat (Lp + L) - 1)) (gfv dp) (gfv (conv sigma (psum pts Y) (S mu))) /\
    length sl = 16%nat /\ length cl = 16%nat /\ length xl = 16%nat /\ (Lp + L <= mu)%nat /\
    (forall i, (i < 16)%nat -> coef sl i = sigma i) /\ (forall i, (i < 16)%nat -> coef xl i = B i) /\ bm pts Y mu sigma B L dp.

(** The loop that corrects sigma. *)
Lemma sigma_loop mu sl xl sigma B L dp (c : gf) : length sl = 16%nat -> length xl = 16%nat ->
  (forall i, (i < 16)%nat -> coef sl i = sigma i) -> (forall i, (i < 16)%nat -> coef xl i = B i) -> bm pts Y mu sigma B L dp ->
  exists sl', ofor (seqZ 1 (Z.min (Z.of_nat mu + 1) PARAM_DELTA)) (fun i sigma => x ← cell sigma i; p ← cell (gfs xl) i; set_cell sigma i (Z.lxor x (gf_mul (gfv c) p))) (gfs sl) = Some (gfs sl') /\
    length sl' = 16%nat /\ forall i, (i < 16)%nat -> coef sl' i = corrected sigma B c i.
Proof using Hlen Hsyn.
  intros Hs Hx Es Ex H. set (n := Z.min (Z.of_nat mu + 1) PARAM_DELTA). assert (Hn : (0 <= n <= 15)%Z) by (unfold n; change PARAM_DELTA with 15%Z; lia).
  set (P := fun (j : Z) (s : list Z) => exists l, s = gfs l /\ length l = 16%nat /\ forall i, coef l i = if decide (1 <= i < Z.to_nat j)%nat then coef sl i + c * coef xl i else coef sl i).
  edestruct (ofor_seqZ_ind P 1 n) as (s & -> & l & -> & Ll & Hl); [lia| | |].
  - exists sl. split_and!; [reflexivity|exact Hs|]. intros i. change (Z.to_nat 1) with 1%nat. case_decide; [lia|reflexivity].
  - intros j s Hj (l & -> & Ll & Hl). rewrite (cell_gfs (Z.to_nat j) l j), some_bind, (cell_gfs (Z.to_nat j) xl j), some_bind by lia.
    rewrite <- gfv_mul, <- gfv_add, (set_cell_gfs (Z.to_nat j)) by lia. eexists. split; [reflexivity|]. eexists. split; [reflexivity|].
    rewrite length_insert. split; [exact Ll|]. intros i. rewrite coef_insert, !Hl by lia. replace (Z.to_nat (j + 1)) with (S (Z.to_nat j)) by lia.
    repeat case_decide; subst; try lia; reflexivity.
  - exists l. split; [reflexivity|]. split; [exact Ll|]. intros i Hi. rewrite Hl, Es, Ex by lia. unfold corrected. case_decide as Hd; [reflexivity|].
    destruct i as [|i]; [rewrite (bm_B_0 _ _ _ _ _ _ _ H); ring|]. rewrite (bm_B_degree _ _ _ _ _ _ _ H); [ring|].
    assert (n < Z.of_nat (S i))%Z by lia. unfold n in *. change PARAM_DELTA with 15%Z in *. lia.
Qed.

(** The loop that computes the next discrepancy. *)
Lemma next_loop mu sl sigma : (mu < 29)%nat -> length sl = 16%nat -> (forall i, (i < 16)%nat -> coef sl i = sigma i) -> sigma 0%nat = 1 -> degree_le sigma 15 ->
  exists d, cell (gfs syn) (Z.of_nat mu + 1) = Some d /\
   ofor (seqZ 1 (Z.min (Z.of_nat mu + 1) PARAM_DELTA)) (fun i d => x ← cell (gfs sl) i; y ← cell (gfs syn) (Z.of_nat mu + 1 - i); Some (Z.lxor d (gf_mul x y))) d
   = Some (gfv (conv sigma (psum pts Y) (S (S mu)))).
Proof using Hlen Hsyn Hval.
  intros Hmu Hs Es H0 Hd. exists (gfv (coef syn (S mu))). split; [apply cell_gfs; lia|]. set (n := Nat.min (S mu) 15).
  replace (Z.min (Z.of_nat mu + 1) PARAM_DELTA) with (Z.of_nat n) by (change PARAM_DELTA with 15%Z; unfold n; lia). change 1%Z with (Z.of_nat 1) at 1.
  rewrite (ofor_sum gfv (fun i => sigma i * psum pts Y (S (S mu) - i)) 1 n).
  - do 2 f_equal. unfold conv. rewrite gsum_first, Hval, H0 by lia. replace (S (S mu) - 0)%nat with (S (S mu)) by lia. rewrite gmul_1_l. f_equal.
    symmetry. apply (gsum_extend _ n); [unfold n; lia|]. intros k Hk. rewrite Hd by (unfold n in Hk; lia). ring.
  - intros i acc Hi. assert (Hn : (n <= 15)%nat /\ (n <= S mu)%nat) by (unfold n; lia).
    rewrite (cell_gfs i sl), some_bind, (cell_gfs (S mu - i) syn (Z.of_nat mu + 1 - Z.of_nat i)), some_bind, Es, Hval, <- gfv_mul, <- gfv_add by lia.
    do 4 f_equal. f_equal. lia.
Qed.

Lemma next_degree mu L Lp : (Lp + L <= mu)%nat -> (mu <= 29)%nat -> u16 (u16 (Z.of_nat mu - u16 (Z.of_nat (Lp + L) - 1)) + Z.of_nat Lp) = Z.of_nat (S mu - L).
Proof using Type.
  clear Hlen Hsyn. intros H1 H2. unfold u16. rewrite Zminus_mod_idemp_r, Zplus_mod_idemp_l. replace (Z.of_nat mu - (Z.of_nat (Lp + L) - 1) + Z.of_nat Lp)%Z with (Z.of_nat (S mu - L)) by lia.
  apply Z.mod_small. lia.
Qed.

(** The next correcting polynomial: the old locator or the old one, moved up. *)
Lemma X_loop (grow : bool) cl xl : length cl = 16%nat -> length xl = 16%nat -> exists xl',
  ofor (rev (seqZ 1 PARAM_DELTA)) (fun i X_sigma_p => c ← cell (gfs cl) (i - 1); p ← cell X_sigma_p (i - 1);
    set_cell X_sigma_p i (Z.lxor (Z.land (mask_of grow) c) (Z.land (Z.lnot (mask_of grow)) p))) (gfs xl) = Some (gfs xl') /\ length xl' = 16%nat /\
  coef xl' 0 = coef xl 0 /\ forall i, (i < 15)%nat -> coef xl' (S i) = if grow then coef cl i else coef xl i.
Proof using Type.
  clear Hlen Hsyn. intros Hc Hx.
  destruct (ofor_shift (fun i => if grow then coef cl (i - 1) else coef xl (i - 1)) 15 (fun i X_sigma_p => c ← cell (gfs cl) (i - 1); p ← cell X_sigma_p (i - 1);
    set_cell X_sigma_p i (Z.lxor (Z.land (mask_of grow) c) (Z.land (Z.lnot (mask_of grow)) p))) xl) as (xl' & E & L' & H); [lia| |].
  - intros i l' Hi Hl Hsame. cbv beta. rewrite (cell_gfs (i - 1) cl), some_bind, (cell_gfs (i - 1) l'), some_bind by lia.
    rewrite mask_choose, gfv_if, Hsame by (apply gfv_u16 || lia). reflexivity.
  - change (Z.of_nat 15) with PARAM_DELTA in E. exists xl'. split; [exact E|]. split; [lia|]. split; [rewrite H; case_decide; [lia|reflexivity]|].
    intros i Hi. rewrite H. case_decide; [|lia]. replace (S i - 1)%nat with i by lia. reflexivity.
Qed.

Definition elp_done (s : elp_state) : Prop :=
  exists sl, el_sigma s = gfs sl /\ length sl = 16%nat /\ (forall i, (i < 16)%nat -> coef sl i = locator pts i) /\ el_deg_sigma s = Z.of_nat (length pts).

Lemma elp_turn_spec mu s : elp_inv mu s -> (mu <= 29)%nat ->
  exists s', elp_turn (gfs syn) (Z.of_nat mu) s = Some s' /\ if decide (mu = 29%nat) then elp_done s' else elp_inv (S mu) s'.
Proof using Hnd Hpts HY Hlen Hsyn Hval.
  intros (sl & cl & xl & sigma & B & L & Lp & dp & -> & Ls & Lc & Lx & HL & Es & Ex & H) Hmu.
  set (dg := conv sigma (psum pts Y) (S mu)). pose proof (bm_errors _ _ _ _ _ _ _ H) as HLe. unfold elp_turn.
  destruct (memcpy16_gfs cl sl 0 15 ltac:(lia) ltac:(lia)) as (cl' & Ec & Lc' & Hcl). change (Z.of_nat 0) with 0%Z in Ec. change (2 * Z.of_nat 15)%Z with (2 * PARAM_DELTA)%Z in Ec.
  rewrite Ec, some_bind, <- gfv_inv, <- gfv_mul. clear Ec. cbv zeta.
  destruct (sigma_loop mu sl xl sigma B L dp (dg * ginv dp) Ls Lx Es Ex H) as (sl' & -> & Ls' & Es'). rewrite some_bind, next_degree by lia.
  pose proof (gfv_u8 dg) as Hdg. unfold in_width in Hdg. rewrite !sign_mask by lia. rewrite mask_land, nonzero_neg. set (grow := bool_decide (dg <> 0) && _).
  rewrite (mask_select grow (Z.of_nat L) (Z.of_nat (S mu - L))) by (unfold in_width; lia). rewrite (mask_select grow (gfv dp) (gfv dg)), gfv_if by apply gfv_u16.
  rewrite (mask_select grow (Z.of_nat Lp) (Z.of_nat L)) by (unfold in_width; lia).
  assert (Hpp : is_u16 (u16 (Z.of_nat (Lp + L) - 1))) by apply u16_range. rewrite (mask_select grow _ (Z.of_nat mu)) by (exact Hpp || (unfold in_width; lia)).
  (* the state of the next turn *)
  set (B' := if grow then shifted sigma else shifted B). set (L' := if grow then (S mu - L)%nat else L). set (dp' := if grow then dg else dp).
  assert (Hnext : bm pts Y (S mu) (corrected sigma B (dg * ginv dp)) B' L' dp' /\ if grow then (L < S mu - L)%nat else True).
  { unfold B', L', dp'. destruct grow eqn:Eg; unfold grow in Eg.
    - apply andb_true_iff in Eg as [E1 E2]. apply bool_decide_eq_true in E1. apply Z.ltb_lt in E2. split; [|lia]. apply (bm_grow pts Y Hnd Hpts HY); [exact H|exact E1|lia].
    - split; [|exact I]. apply (bm_keep pts Y); [exact H|]. apply andb_false_iff in Eg as [E1|E2]; [left; apply bool_decide_eq_false in E1; apply dec_stable, E1|right].
      apply Z.ltb_ge in E2. lia. }
  destruct Hnext as [Hnext Hgrow]. change (2 * PARAM_DELTA - 1)%Z with 29%Z. destruct (Z.eqb_spec (Z.of_nat mu) 29) as [E|Hne].
  { assert (mu = 29)%nat as -> by lia. eexists. split; [reflexivity|]. case_decide; [|lia]. destruct (bm_end pts Y 30 _ _ _ _ Hnd Hpts HY Hnext ltac:(lia)) as [E1 E2].
    exists sl'. split_and!; [reflexivity|exact Ls'| |]; [intros i Hi; rewrite Es' by exact Hi; apply E1|]. cbn [el_deg_sigma]. unfold L' in E2. rewrite <- E2. destruct grow; reflexivity. }
  destruct (X_loop grow cl' xl ltac:(lia) Lx) as (xl' & -> & Lx' & Ex0 & Ex'). rewrite some_bind.
  assert (HB0 := bm_sigma_0 _ _ _ _ _ _ _ Hnext). pose proof (next_loop mu sl' (corrected sigma B (dg * ginv dp)) ltac:(lia) Ls' Es' HB0) as En.
  assert (HL' : (L' <= length pts)%nat) by apply Hnext.
  specialize (En (degree_mono _ L' 15 ltac:(lia) (bm_sigma_degree _ _ _ _ _ _ _ Hnext))).
  destruct En as (d0 & -> & En). rewrite some_bind, En, some_bind. eexists. split; [reflexivity|].
  case_decide; [lia|]. exists sl', cl', xl', (corrected sigma B (dg * ginv dp)), B', L', (if grow then L else Lp), dp'.
  split_and!; [|exact Ls'|lia|exact Lx'| |exact Es'| |exact Hnext].
  - unfold L', dp'. destruct grow; [|reflexivity]. f_equal. replace (Z.of_nat (L + (S mu - L)) - 1)%Z with (Z.of_nat mu) by lia. rewrite u16_id by (unfold in_width; lia). reflexivity.
  - unfold L'. destruct grow; lia.
  - intros [|i] Hi; [rewrite Ex0, Ex by lia; rewrite (bm_B_0 _ _ _ _ _ _ _ H); unfold B'; destruct grow; reflexivity|].
    rewrite Ex' by lia. unfold B'. destruct grow; cbn [shifted]; [|apply Ex; lia]. rewrite Hcl. case_decide; [|lia]. replace (i - 0)%nat with i by lia. apply Es. lia.
Qed.

Lemma compute_elp_eq : exists sl, compute_elp (zeros (Z.shiftl 1 PARAM_FFT)) (gfs syn) = Some (gfs sl, Z.of_nat (length pts)) /\
  length sl = 16%nat /\ forall i, (i < 16)%nat -> coef sl i = locator pts i.
Proof using Hnd Hpts HY Hlen Hsyn Hval.
  unfold compute_elp. rewrite (cell_gfs 0 syn), some_bind by lia. change (zeros (Z.shiftl 1 PARAM_FFT)) with (gfs (replicate 16 0)).
  assert (E0 : set_cell (gfs (replicate 16 0)) 0 1 = Some (gfs (<[0%nat := 1]> (replicate 16 0)))).
  { apply (set_cell_gfs 0 _ 0 1); [reflexivity|rewrite length_replicate; lia]. }
  rewrite E0, some_bind.
  set (P := fun (m : Z) s => if decide (m = 30)%Z then elp_done s else elp_inv (Z.to_nat m) s).
  edestruct (ofor_upto_ind P (2 * PARAM_DELTA)) as (s & -> & Hs); [decided| | |].
  - exists (<[0%nat := 1]> (replicate 16 0)), (replicate 16 0), (0 :: 1 :: replicate 14 0), one_poly, (shifted one_poly), 0%nat, 0%nat, 1.
    split_and!; try reflexivity; try lia; [| | |apply bm_start].
    + f_equal. rewrite Hval by lia. unfold conv. cbn [gsum one_poly Nat.sub]. f_equal. change (Z.to_nat 0) with 0%nat. cbn [gsum one_poly Nat.sub]. ring.
    + intros i Hi. rewrite coef_insert, coef_replicate by (rewrite length_replicate; lia). destruct i; case_decide; (reflexivity || lia).
    + intros [|[|i]] Hi; [reflexivity|reflexivity|]. unfold coef. cbn [lookup list_lookup shifted one_poly]. change (default 0 (replicate 14 0 !! i)) with (coef (replicate 14 0) i). apply coef_replicate.
  - intros m s Hm Hs. change (2 * PARAM_DELTA)%Z with 30%Z in Hm. unfold P in Hs |- *. case_decide; [lia|].
    destruct (elp_turn_spec (Z.to_nat m) s Hs ltac:(lia)) as (s' & E & Hs'). rewrite Z2Nat.id in E by lia. exists s'. split; [exact E|].
    repeat case_decide; try lia; [exact Hs'|]. replace (Z.to_nat (m + 1)) with (S (Z.to_nat m)) by lia. exact Hs'.
  - rewrite some_bind. unfold P in Hs. case_decide as Hd; [|destruct Hd; reflexivity]. destruct Hs as (sl & -> & Ll & Hl & ->). exists sl. auto.
Qed.

(** ** The polynomial z *)

Definition z_term (n : nat) : gf := if decide (n <= length pts)%nat then z_poly pts Y n else 0.

Lemma degree_mask (i : nat) : (i <= 15)%nat -> u16 (- Z.shiftr (u16 (Z.of_nat i - Z.of_nat (length pts) - 1)) 15) = mask_of (bool_decide (i <= length pts)%nat).
Proof using Hlen.
  clear Hsyn. intros Hi. rewrite sign_mask by lia. f_equal. case_bool_decide; [apply Z.ltb_lt|apply Z.ltb_ge]; lia.
Qed.

Lemma compute_z_poly_eq sl : length sl = 16%nat -> (forall i, (i < 16)%nat -> coef sl i = locator pts i) ->
  exists z, compute_z_poly (zeros PARAM_N1) (gfs sl) (Z.of_nat (length pts)) (gfs syn) = Some (gfs z) /\ length z = 46%nat /\
    forall i, (i < 16)%nat -> coef z i = z_term i.
Proof using Hnd Hpts HY Hlen Hsyn Hval.
  intros Ls Es. unfold compute_z_poly. change (zeros PARAM_N1) with (gfs (replicate 46 0)). cbv zeta.
  assert (E0 : set_cell (gfs (replicate 46 0)) 0 1 = Some (gfs (<[0%nat := 1]> (replicate 46 0)))) by (apply (set_cell_gfs 0 _ 0 1); [reflexivity|rewrite length_replicate; lia]).
  rewrite E0, some_bind. clear E0.
  set (sg := fun i => if decide (i <= length pts)%nat then locator pts i else 0).
  set (P := fun (j : Z) (s : list Z) => exists z, s = gfs z /\ length z = 46%nat /\ forall i, (i < 16)%nat -> coef z i = if decide (i < Z.to_nat j)%nat then sg i else 0).
  edestruct (ofor_seqZ_ind P 1 PARAM_DELTA) as (s & -> & z & -> & Lz & Hz); [decided| | |].
  { eexists. split; [reflexivity|]. rewrite length_insert. split; [reflexivity|]. intros i Hi. change (Z.to_nat 1) with 1%nat.
    rewrite coef_insert, coef_replicate by (rewrite length_replicate; lia). repeat case_decide; try lia; [|reflexivity]. subst i. unfold sg. rewrite locator_0. reflexivity. }
  { intros j s Hj (z & -> & Lz & Hz). change PARAM_DELTA with 15%Z in Hj. set (n := Z.to_nat j) in *. assert (Ej : j = Z.of_nat n) by (unfold n; lia).
    rewrite (cell_gfs n sl), some_bind by lia. rewrite Ej, degree_mask, land_mask_of, Es by (apply gfv_u16 || lia).
    change 0%Z with (gfv 0). rewrite gfv_if. rewrite (set_cell_gfs n) by lia. eexists. split; [reflexivity|]. eexists. split; [reflexivity|]. rewrite length_insert. split; [exact Lz|].
    intros i Hi. rewrite coef_insert, Hz by lia. replace (Z.to_nat (Z.of_nat n + 1)) with (S n) by lia. unfold sg.
    destruct (decide (i = n)) as [->|]; [case_bool_decide|]; repeat case_decide; try lia; reflexivity. }
  rewrite some_bind. change (Z.to_nat (1 + PARAM_DELTA)) with 16%nat in Hz.
  rewrite (cell_gfs 1 z), some_bind, (cell_gfs 0 syn), some_bind, <- gfv_add, (set_cell_gfs 1), some_bind by lia.
  assert (Hterm : forall n, (2 <= n <= 15)%nat -> (n <= length pts)%nat ->
    z_term n = sg n + coef syn (n - 1) + gsum (fun k => locator pts (1 + k) * psum pts Y (n - (1 + k))) (n - 1)).
  { intros n Hn Hle. unfold z_term, sg, z_poly, conv. repeat case_decide; try lia. replace n with (S (n - 1)) at 2 by lia. rewrite gsum_first, Hval, locator_0 by lia.
    replace (S (n - 1)) with n by lia. rewrite Nat.sub_0_r. rewrite gmul_1_l, gadd_assoc. reflexivity. }
  set (Q := fun (j : Z) (s : list Z) => exists z, s = gfs z /\ length z = 46%nat /\ forall i, (i < 16)%nat -> coef z i = if decide (i < Z.to_nat j)%nat then z_term i else sg i).
  edestruct (ofor_seqZ_ind Q 2 (PARAM_DELTA - 1)) as (s & -> & z' & -> & Lz' & Hz'); [decided| | |exists z'; split_and!; [reflexivity|exact Lz'|]].
  { eexists. split; [reflexivity|]. rewrite length_insert. split; [exact Lz|]. intros i Hi. change (Z.to_nat 2) with 2%nat. rewrite coef_insert, !Hz by lia.
    destruct i as [|[|i]]; repeat case_decide; try lia; [unfold sg, z_term, z_poly, conv; cbn [gsum]; repeat case_decide; try lia; ring| |reflexivity].
    rewrite Hval by lia. unfold sg, z_term, z_poly, conv. cbn [gsum]. change (1 - 0)%nat with 1%nat. rewrite locator_0. case_decide as Hd; [ring|].
    destruct pts as [|x l]; [cbn; ring|destruct Hd; cbn; lia]. }
  { intros j s Hj (z1 & -> & Lz1 & Hz1). change (PARAM_DELTA - 1)%Z with 14%Z in Hj. set (n := Z.to_nat j) in *. assert (Ej : j = Z.of_nat n) by (unfold n; lia).
    rewrite (cell_gfs n z1 j), some_bind, (cell_gfs (n - 1) syn), some_bind by lia. rewrite Ej, degree_mask, land_mask_of by (apply gfv_u16 || lia).
    change 0%Z with (gfv 0). rewrite gfv_if, <- gfv_add, (set_cell_gfs n), some_bind by lia. set (b := bool_decide (n <= length pts)%nat).
    pose proof (ofor_sum (fun acc => gfs (<[n := acc]> z1)) (fun k => if b then locator pts k * psum pts Y (n - k) else 0) 1 (n - 1) (fun j z =>
      x ← cell z (Z.of_nat n); s ← cell (gfs sl) j; y ← cell (gfs syn) (Z.of_nat n - j - 1); set_cell z (Z.of_nat n) (Z.lxor x (Z.land (mask_of b) (gf_mul s y))))
      (coef z1 n + (if b then coef syn (n - 1) else 0))) as E. change (Z.of_nat 1) with 1%Z in E. replace (Z.of_nat (n - 1)) with (Z.of_nat n - 1)%Z in E by lia. cbv beta in E.
    rewrite E; clear E.
    - eexists. split; [reflexivity|]. eexists. split; [reflexivity|]. rewrite length_insert. split; [exact Lz1|]. intros i Hi. rewrite coef_insert, !Hz1 by lia.
      replace (Z.to_nat (Z.of_nat n + 1)) with (S n) by lia. destruct (decide (i = n)) as [->|]; [|repeat case_decide; try lia; reflexivity].
      repeat case_decide; try lia. unfold b. case_bool_decide as Hle; [rewrite Hterm by lia; reflexivity|].
      unfold z_term, sg. rewrite (gsum_zero _ (n - 1)) by reflexivity. repeat case_decide; try lia. ring.
    - intros k acc Hk. cbv beta. rewrite (cell_gfs n _ (Z.of_nat n)), some_bind, (cell_gfs k sl), some_bind, (cell_gfs (n - k - 1) syn), some_bind by (rewrite ?length_insert; lia).
      rewrite <- gfv_mul, land_mask_of by apply gfv_u16. change 0%Z with (gfv 0). rewrite gfv_if, <- gfv_add, (set_cell_gfs n) by (rewrite ?length_insert; lia).
      rewrite list_insert_insert_eq, coef_insert, Es, Hval by lia. replace (S (n - k - 1)) with (n - k)%nat by lia. case_decide; [reflexivity|lia]. }
  intros i Hi. rewrite Hz' by exact Hi. change (Z.to_nat (2 + (PARAM_DELTA - 1))) with 16%nat. case_decide; [reflexivity|lia].
Qed.

(** ** The roots *)

Lemma inverse_power_eq k : (k < 255)%nat -> inverse_power k = ginv (alpha ^ k).
Proof using Type.
  clear Hlen Hsyn. intros Hk. apply ginv_unique. apply gf_eq. rewrite gfv_mul. unfold inverse_power. rewrite gfv_of_byte by (apply gf_pow_u8; pose proof (Z.mod_pos_bound (255 - Z.of_nat k) 255); lia).
  rewrite gfv_alpha, gf_pow_add by (pose proof (Z.mod_pos_bound (255 - Z.of_nat k) 255); pose proof (Z.mod_pos_bound (Z.of_nat k) 255); lia).
  rewrite <- Zplus_mod. replace (Z.of_nat k + (255 - Z.of_nat k))%Z with 255%Z by lia. reflexivity.
Qed.

Lemma compute_roots_eq sl : length sl = 16%nat -> (forall i, (i < 16)%nat -> coef sl i = locator pts i) ->
  exists e, compute_roots (zeros (Z.shiftl 1 PARAM_M)) (gfs sl) = Some (gfs e) /\ length e = 256%nat /\
    forall k, (k < 255)%nat -> coef e k = if decide (alpha ^ k ∈ pts) then 1 else 0.
Proof using Hpts Hlen.
  clear Hsyn. intros Ls Es. unfold compute_roots. change (PARAM_DELTA + 1)%Z with 16%Z. change (zeros (Z.shiftl 1 PARAM_M)) with (zeros 256).
  destruct (fft_spec (replicate 256 0) sl ltac:(apply length_replicate) Ls) as (w & E & Lw & Hw). change (gfs (replicate 256 0)) with (zeros 256) in E.
  rewrite E, some_bind. clear E. set (F := eval (locator pts) (S (length pts))).
  assert (HF : forall x, eval (coef sl) 16 x = F x).
  { intros x. rewrite (eval_ext _ (locator pts)) by exact Es. apply eval_extend; [apply degree_locator|lia]. }
  destruct (fft_retrieve_spec F w Lw) as (e & -> & Le & He).
  - intros i Hi. rewrite Hw, HF by exact Hi. reflexivity.
  - unfold F. rewrite eval_locator. apply gprods_nonzero. intros x _. rewrite gmul_0_r, gadd_comm, gadd_0_l. exact gone_nonzero.
  - exists e. split; [reflexivity|]. split; [exact Le|]. intros k Hk. rewrite He, inverse_power_eq by exact Hk. unfold root, F.
    pose proof (alpha_nonzero k) as Hne. case_decide as H1; case_decide as H2; try reflexivity.
    + destruct (locator_nonroot pts (alpha ^ k) Hne H2 H1).
    + destruct H1. apply locator_root; assumption.
Qed.
End elp.

(** ** The values *)

Lemma nonzero_mask_eq e : is_u8 e -> nonzero_mask e = mask_of (negb (e =? 0)%Z).
Proof.
  intros He. unfold in_width in He. unfold nonzero_mask. destruct (Z.eqb_spec e 0) as [->|Hne]; [reflexivity|].
  rewrite Z.shiftr_div_pow2 by lia. replace (- e / 2 ^ 31)%Z with (-1)%Z by (apply (Z.div_unique_pos _ _ _ (2 ^ 31 - e)); lia). reflexivity.
Qed.
Lemma same_mask_eq j c : is_u16 j -> is_u16 c -> same_mask j c = mask_of (j =? c)%Z.
Proof.
  intros Hj Hc. unfold same_mask. pose proof (width_lxor 16 j c ltac:(lia) Hj Hc) as Hx. unfold in_width in Hx. destruct (Z.eqb_spec j c) as [->|Hne].
  - rewrite Z.lxor_nilpotent. reflexivity.
  - assert (Hxne : Z.lxor j c <> 0%Z) by (rewrite Z.lxor_eq_0_iff; exact Hne). rewrite Z.shiftr_div_pow2 by lia.
    replace (- Z.lxor j c / 2 ^ 31)%Z with (-1)%Z by (apply (Z.div_unique_pos _ _ _ (2 ^ 31 - Z.lxor j c)); lia). reflexivity.
Qed.

(** The flag of position [i]: whether it is an error. *)
Definition flag (e : list gf) (i : nat) : bool := negb (gfv (coef e i) =? 0)%Z.

Lemma flag_mask e i : nonzero_mask (gfv (coef e i)) = mask_of (flag e i).
Proof. apply nonzero_mask_eq, gfv_u8. Qed.
Lemma gf_exp_cell i : (i < 46)%nat -> cell gf_exp (Z.of_nat i) = Some (gfv (alpha ^ i)).
Proof.
  intros Hi. rewrite gfv_alpha, Z.mod_small, cell_lookup by lia. unfold gf_pow. destruct (lookup_lt_is_Some_2 gf_exp (Z.to_nat (Z.of_nat i))) as [x ->]; [|reflexivity].
  change (length gf_exp) with 258%nat. lia.
Qed.

(** A loop over the 15 slots in which only the slot [c] changes something. *)
Lemma slot_loop {S} (b : bool) (c : nat) (s0 s1 : S) (body : Z -> S * Z -> option (S * Z)) : (c <= 15)%nat -> (b = true -> (c < 15)%nat) ->
  (forall (j : nat) s f, (j < 15)%nat -> b && (j =? c)%nat = false -> s = s0 \/ (b = true /\ s = s1) -> is_u16 f -> body (Z.of_nat j) (s, f) = Some (s, f)) ->
  (b = true -> body (Z.of_nat c) (s0, 0%Z) = Some (s1, 1%Z)) ->
  ofor (upto PARAM_DELTA) body (s0, 0%Z) = Some (if b then (s1, 1%Z) else (s0, 0%Z)).
Proof.
  intros Hc Hb Hskip Hhit. set (P := fun (m : Z) (s : S * Z) => s = if b && (Z.of_nat c <? m)%Z then (s1, 1%Z) else (s0, 0%Z)).
  edestruct (ofor_upto_ind P PARAM_DELTA) as (s & -> & ->); [decided| | |].
  - unfold P. destruct (Z.ltb_spec (Z.of_nat c) 0); [lia|]. rewrite andb_false_r. reflexivity.
  - intros j s Hj ->. change PARAM_DELTA with 15%Z in Hj. replace j with (Z.of_nat (Z.to_nat j)) by lia. set (n := Z.to_nat j). assert (Hn : (n < 15)%nat) by (unfold n; lia).
    unfold P. destruct (Nat.eqb_spec n c) as [->|Hne].
    + destruct (Z.ltb_spec (Z.of_nat c) (Z.of_nat c)); [lia|]. destruct (Z.ltb_spec (Z.of_nat c) (Z.of_nat c + 1)); [|lia]. rewrite andb_false_r, andb_true_r.
      destruct b eqn:Eb; [eexists; split; [apply Hhit; reflexivity|reflexivity]|]. eexists. split; [apply Hskip; [lia|reflexivity|auto|decided]|reflexivity].
    + assert (E : (Z.of_nat c <? Z.of_nat n + 1)%Z = (Z.of_nat c <? Z.of_nat n)%Z) by (destruct (Z.ltb_spec (Z.of_nat c) (Z.of_nat n + 1)), (Z.ltb_spec (Z.of_nat c) (Z.of_nat n)); lia || reflexivity).
      rewrite E. destruct (b && (Z.of_nat c <? Z.of_nat n)%Z) eqn:Ebl; eexists; (split; [apply Hskip|reflexivity]); try exact Hn; try decided;
        try (rewrite (proj2 (Nat.eqb_neq n c) Hne); apply andb_false_r); [right|left; reflexivity]. apply andb_true_iff in Ebl. tauto.
  - f_equal. change PARAM_DELTA with 15%Z. destruct b; [|reflexivity]. destruct (Z.ltb_spec (Z.of_nat c) 15); [reflexivity|]. specialize (Hb eq_refl). lia.
Qed.

(** The mask of slot [j] when the next free one is [c]. *)
Lemma slot_mask e i (j c : nat) : (j < 15)%nat -> (c <= 15)%nat ->
  Z.land (nonzero_mask (gfv (coef e i))) (same_mask (Z.of_nat j) (Z.of_nat c)) = mask_of (flag e i && (j =? c)%nat).
Proof.
  intros Hj Hc. rewrite flag_mask, same_mask_eq, mask_land by (unfold in_width; lia). do 2 f_equal.
  destruct (Z.eqb_spec (Z.of_nat j) (Z.of_nat c)), (Nat.eqb_spec j c); lia || reflexivity.
Qed.

(** The list of locators: those of the first [n] positions, then zeros. *)
Definition locator_slots (e : list gf) (n : nat) : list gf :=
  let l := (fun i => alpha ^ i) <$> positions e n in l ++ replicate (15 - length l) 0.

Lemma flag_spec e i : flag e i = bool_decide (coef e i <> 0).
Proof.
  unfold flag. destruct (decide (coef e i = 0)) as [->|Hne]; [reflexivity|]. rewrite bool_decide_eq_true_2 by exact Hne.
  destruct (Z.eqb_spec (gfv (coef e i)) 0) as [E|]; [|reflexivity]. destruct Hne. apply gf_eq. exact E.
Qed.
Lemma locator_slots_S e n : (length (positions e (S n)) <= 15)%nat ->
  locator_slots e (S n) = if flag e n then <[length (positions e n) := alpha ^ n]> (locator_slots e n) else locator_slots e n.
Proof.
  intros Hl. unfold locator_slots. rewrite positions_S in *. rewrite flag_spec. rewrite length_app in Hl. case_decide as E; cbn [length] in Hl.
  - rewrite bool_decide_eq_false_2 by tauto. rewrite app_nil_r. reflexivity.
  - rewrite bool_decide_eq_true_2 by exact E. rewrite fmap_app, length_app, length_fmap. cbn [fmap list_fmap length].
    rewrite <- (length_fmap (fun i => alpha ^ i)). rewrite <- (Nat.add_0_r (length _)) at 2. rewrite insert_app_r. rewrite length_fmap, <- app_assoc. f_equal.
    replace (15 - length (positions e n))%nat with (S (15 - (length (positions e n) + 1))) by lia. reflexivity.
Qed.
Lemma length_locator_slots e n : (length (positions e n) <= 15)%nat -> length (locator_slots e n) = 15%nat.
Proof. intros Hl. unfold locator_slots. rewrite length_app, length_replicate, length_fmap. lia. Qed.
Lemma coef_locator_slots e n k : (length (positions e n) <= k)%nat -> coef (locator_slots e n) k = 0.
Proof. intros Hk. unfold locator_slots. rewrite coef_app. case_decide as Hd; [rewrite length_fmap in Hd; lia|]. apply coef_replicate. Qed.
Lemma length_positions_mono e n m : (n <= m)%nat -> (length (positions e n) <= length (positions e m))%nat.
Proof. induction 1 as [|m Hm IH]; [lia|]. rewrite positions_S, length_app. lia. Qed.

Lemma error_locators_eq e : (46 <= length e)%nat -> (length (positions e 46) <= 15)%nat ->
  error_locators (gfs e) = Some (gfs (locator_slots e 46), Z.of_nat (length (positions e 46))).
Proof.
  intros Le Hl. unfold error_locators. set (P := fun (m : Z) (s : list Z * Z) => s = (gfs (locator_slots e (Z.to_nat m)), Z.of_nat (length (positions e (Z.to_nat m))))).
  edestruct (ofor_upto_ind P PARAM_N1) as (s & -> & ->); [decided|reflexivity| |reflexivity].
  intros m s Hm ->. change PARAM_N1 with 46%Z in Hm. set (i := Z.to_nat m). assert (Em : m = Z.of_nat i) by (unfold i; lia).
  pose proof (length_positions_mono e (S i) 46 ltac:(lia)) as Hl1. pose proof (length_positions_mono e i (S i) ltac:(lia)) as Hl2.
  pose proof (positions_S e i) as Ep. apply (f_equal length) in Ep. rewrite length_app in Ep.
  assert (Ef : flag e i = true -> length (positions e (S i)) = S (length (positions e i))).
  { intros Ef. rewrite flag_spec in Ef. apply bool_decide_eq_true in Ef. rewrite Ep. case_decide; [tauto|cbn; lia]. }
  assert (Ef0 : flag e i = false -> length (positions e (S i)) = length (positions e i)).
  { intros Ef0. rewrite flag_spec in Ef0. apply bool_decide_eq_false in Ef0. rewrite Ep. case_decide; [cbn; lia|tauto]. }
  rewrite Em, (cell_gfs i e), some_bind by lia. set (c := length (positions e i)) in *. set (bl := locator_slots e i).
  assert (Lbl : length bl = 15%nat) by (apply length_locator_slots; lia). cbv zeta.
  rewrite (slot_loop (flag e i) c (gfs bl) (gfs (<[c := alpha ^ i]> bl))).
  - rewrite some_bind. unfold P. replace (Z.to_nat (Z.of_nat i + 1)) with (S i) by lia.
    rewrite locator_slots_S by lia. fold c. fold bl. destruct (flag e i) eqn:E; [rewrite Ef by reflexivity|rewrite Ef0 by reflexivity]; (eexists; split; [reflexivity|]).
    + rewrite u16_id by (unfold in_width; lia). f_equal. lia.
    + rewrite Z.add_0_r, u16_id by (unfold in_width; lia). reflexivity.
  - lia.
  - intros E. specialize (Ef E). lia.
  - intros j s f Hj Hskip Hs Hf. cbv beta iota. rewrite slot_mask, Hskip by lia. cbn [mask_of].
    assert (Hl' : exists l, s = gfs l /\ length l = 15%nat) by (destruct Hs as [->|[_ ->]]; eexists; (split; [reflexivity|]); [exact Lbl|rewrite length_insert; exact Lbl]).
    destruct Hl' as (l & -> & Ll). rewrite (cell_gfs j l), some_bind, gf_exp_cell, some_bind, !Z.land_0_l, !Z.add_0_r, !u16_id, (set_cell_self j l), some_bind by (lia || apply gfv_u16 || assumption). reflexivity.
  - intros E. pose proof (Ef E) as Ef1. cbv beta iota. rewrite slot_mask, E, Nat.eqb_refl by lia. cbn [andb].
    rewrite (cell_gfs c bl), some_bind, gf_exp_cell, some_bind by lia. unfold bl at 2. rewrite coef_locator_slots by apply Nat.le_refl.
    rewrite !land_mask_of by (apply gfv_u16 || decided). change (gfv 0) with 0%Z. rewrite !Z.add_0_l, !u16_id, (set_cell_gfs c), some_bind by (apply gfv_u16 || lia || decided). reflexivity.
Qed.

(** The other slots, from slot [i] on and round. *)
Lemma rotate_slots (l1 l2 : list gf) X : length (l1 ++ X :: l2) = 15%nat ->
  (fun k => coef (l1 ++ X :: l2) ((length l1 + k) mod 15)) <$> seq 1 14 = l2 ++ l1.
Proof.
  intros Hl. rewrite length_app in Hl. cbn [length] in Hl. apply coef_eq; [rewrite length_fmap, length_seq, length_app; lia|].
  intros k Hk. rewrite length_fmap, length_seq in Hk. unfold coef at 1. rewrite list_lookup_fmap, lookup_seq_lt by exact Hk. cbn [fmap option_fmap option_map default from_option id].
  rewrite !coef_app. destruct (decide (k < length l2)%nat) as [H2|H2].
  - rewrite Nat.mod_small by lia. case_decide; [lia|]. replace (length l1 + (1 + k) - length l1)%nat with (S k) by lia. reflexivity.
  - replace ((length l1 + (1 + k)) mod 15)%nat with (k - length l2)%nat by (apply (Nat.mod_unique _ _ 1); lia). case_decide; [reflexivity|lia].
Qed.

Lemma gprods_ones {A} (f : A -> gf) l : (forall x, x ∈ l -> f x = 1) -> gprods f l = 1.
Proof.
  induction l as [|x l IH]; intros H; [reflexivity|]. cbn [gprods foldr]. fold (gprods f l). rewrite H, IH by (intros; try apply H; set_solver). ring.
Qed.
Lemma gprods_fmap {A B} (f : B -> gf) (g : A -> B) l : gprods f (g <$> l) = gprods (fun x => f (g x)) l.
Proof. induction l as [|x l IH]; [reflexivity|]. cbn [gprods foldr fmap list_fmap]. f_equal. exact IH. Qed.

Lemma error_value_loops bl z (i : nat) (v : nat) : (i < 15)%nat -> length bl = 15%nat -> (16 <= length z)%nat -> coef z 0 = 1 -> (v <= 15)%nat ->
  let inv := ginv (coef bl i) in
  error_value (gfs bl) (gfs z) (Z.of_nat v) (Z.of_nat i) =
    Some (gfv (if (i <? v)%nat then eval (coef z) 16 inv * ginv (gprods (fun k => 1 + inv * coef bl ((i + k) mod 15)) (seq 1 14)) else 0)).
Proof.
  intros Hi Hb Hz Hz0 Hv inv. unfold error_value. rewrite (cell_gfs i bl), some_bind, <- gfv_inv by lia. fold inv. cbv zeta.
  set (P := fun (j : Z) (s : Z * Z) => s = (gfv (eval (coef z) (Z.to_nat j) inv), gfv (inv ^ (Z.to_nat j - 1)))).
  edestruct (ofor_seqZ_ind P 1 PARAM_DELTA) as (s & -> & ->); [decided| | |].
  { unfold P. change (Z.to_nat 1) with 1%nat. unfold eval. cbn [gsum gpow Nat.sub]. rewrite Hz0. replace (0 + 1 * 1) with 1 by ring. reflexivity. }
  { intros j s Hj ->. change PARAM_DELTA with 15%Z in Hj. cbv beta iota. rewrite <- gfv_mul, (cell_gfs (Z.to_nat j) z), some_bind, <- gfv_mul, <- gfv_add by lia.
    eexists. split; [reflexivity|]. unfold P. replace (Z.to_nat (j + 1)) with (S (Z.to_nat j)) by lia. replace (S (Z.to_nat j) - 1)%nat with (Z.to_nat j) by lia.
    rewrite <- (gpow_pred inv (Z.to_nat j)) by lia. unfold eval. cbn [gsum]. f_equal. f_equal. ring. }
  rewrite some_bind. cbv beta iota. change (Z.to_nat (1 + PARAM_DELTA)) with 16%nat.
  set (Q := fun (j : Z) (s : Z) => s = gfv (gprods (fun k => 1 + inv * coef bl ((i + k) mod 15)) (seq 1 (Z.to_nat j - 1)))).
  edestruct (ofor_seqZ_ind Q 1 (PARAM_DELTA - 1)) as (s & -> & ->); [decided|reflexivity| |].
  { intros j s Hj ->. change (PARAM_DELTA - 1)%Z with 14%Z in Hj. cbv beta.
    rewrite (cell_gfs ((i + Z.to_nat j) mod 15) bl), some_bind by (change PARAM_DELTA with (Z.of_nat 15); (rewrite Nat2Z.inj_mod; f_equal; lia) || (rewrite Hb; apply Nat.mod_upper_bound; lia)).
    change 1%Z with (gfv 1). rewrite <- gfv_mul, <- gfv_add, <- gfv_mul. eexists. split; [reflexivity|]. unfold Q.
    replace (Z.to_nat (j + gfv 1) - 1)%nat with (S (Z.to_nat j - 1)) by (change (gfv 1) with 1%Z; lia). rewrite seq_S, gprods_app. replace (1 + (Z.to_nat j - 1))%nat with (Z.to_nat j) by lia.
    cbn [gprods foldr]. f_equal. ring. }
  rewrite some_bind. change (Z.to_nat (1 + (PARAM_DELTA - 1)) - 1)%nat with 14%nat. rewrite <- gfv_inv, <- gfv_mul.
  assert (Em : u16 (Z.shiftr (Z.of_nat i - Z.of_nat v) 15) = mask_of (i <? v)%nat).
  { rewrite Z.shiftr_div_pow2 by lia. destruct (Nat.ltb_spec i v).
    - replace ((Z.of_nat i - Z.of_nat v) / 2 ^ 15)%Z with (-1)%Z by (apply (Z.div_unique_pos _ _ _ (2 ^ 15 + (Z.of_nat i - Z.of_nat v))); lia). reflexivity.
    - rewrite Z.div_small by lia. reflexivity. }
  rewrite Em, land_mask_of by apply gfv_u16. destruct (i <? v)%nat; reflexivity.
Qed.

(** Forney's formula: the value of the error at a locator. *)
Lemma error_value_eq e z (i : nat) : let pts := locators e in let Y := value_at e in
  (length pts <= 15)%nat -> (16 <= length z)%nat -> (forall k, (k < 16)%nat -> coef z k = z_term pts Y k) -> (i < 15)%nat ->
  error_value (gfs (locator_slots e 46)) (gfs z) (Z.of_nat (length pts)) (Z.of_nat i) = Some (gfv (if (i <? length pts)%nat then Y (coef pts i) else 0)).
Proof.
  intros pts Y Hl Lz Hz Hi. assert (Hpos : (length (positions e 46) <= 15)%nat) by (unfold pts, locators in Hl; rewrite length_fmap in Hl; exact Hl).
  assert (Hz0 : coef z 0 = 1).
  { rewrite Hz by lia. unfold z_term, z_poly, conv. cbn [gsum]. rewrite locator_0. case_decide; [ring|lia]. }
  rewrite error_value_loops by (apply length_locator_slots, Hpos || exact Hz0 || lia). do 2 f_equal. destruct (Nat.ltb_spec i (length pts)) as [Hip|]; [|reflexivity].
  set (X := coef pts i). assert (Es : pts = take i pts ++ X :: drop (S i) pts).
  { symmetry. apply take_drop_middle. unfold X, coef. destruct (lookup_lt_is_Some_2 pts i Hip) as [x Hx]. rewrite Hx. reflexivity. }
  set (l1 := take i pts) in *. set (l2 := drop (S i) pts) in *. assert (L1 : length l1 = i) by (unfold l1; rewrite length_take; lia).
  assert (HX : X <> 0) by (apply (locators_nonzero e); fold pts; rewrite Es; apply elem_of_app; right; left).
  set (zs := replicate (15 - length pts) 0). assert (Eb : locator_slots e 46 = l1 ++ X :: (l2 ++ zs)).
  { unfold locator_slots. change ((fun i => alpha ^ i) <$> positions e 46) with pts. rewrite Es at 1. rewrite <- app_assoc. reflexivity. }
  assert (EX : coef (locator_slots e 46) i = X) by (rewrite Eb, coef_app; case_decide; [lia|]; rewrite L1, Nat.sub_diag; reflexivity). rewrite EX.
  transitivity (Y X * (gprods (fun x => 1 + x * ginv X) (l1 ++ l2) * ginv (gprods (fun x => 1 + x * ginv X) (l1 ++ l2)))).
  - rewrite gmul_assoc. f_equal.
    + rewrite <- (z_poly_value l1 X l2 Y), <- Es by (intros x Hx; rewrite <- Es in Hx; apply (locators_nonzero e x Hx)).
      transitivity (eval (z_term pts Y) 16 (ginv X)); [apply eval_ext, Hz|]. rewrite (eval_extend (z_term pts Y) (length pts)) by (lia || (intros k Hk; unfold z_term; case_decide; [lia|reflexivity])).
      apply eval_ext. intros k Hk. unfold z_term. case_decide; [reflexivity|lia].
    + f_equal. transitivity (gprods (fun x => 1 + ginv X * x) ((fun k => coef (locator_slots e 46) ((i + k) mod 15)) <$> seq 1 14)); [symmetry; apply (gprods_fmap (fun x => 1 + ginv X * x))|].
      assert (Er : (fun k => coef (locator_slots e 46) ((i + k) mod 15)) <$> seq 1 14 = (l2 ++ zs) ++ l1).
      { rewrite Eb, <- (rotate_slots l1 (l2 ++ zs) X), L1 by (rewrite <- Eb; apply length_locator_slots, Hpos). reflexivity. }
      rewrite Er, !gprods_app, (gprods_ones _ zs).
      * assert (Ec : forall l, gprods (fun x => 1 + ginv X * x) l = gprods (fun x => 1 + x * ginv X) l).
        { induction l as [|x l IH]; [reflexivity|]. cbn [gprods foldr]. fold (gprods (fun x => 1 + ginv X * x) l) (gprods (fun x => 1 + x * ginv X) l). rewrite IH. ring. }
        rewrite !Ec. ring.
      * intros x Hx. apply elem_of_replicate in Hx as [-> _]. ring.
  - rewrite ginv_r; [ring|]. apply gprods_nonzero. intros x Hx E. apply (proj1 (gadd_eq _ _)) in E.
    pose proof (locators_NoDup e) as Hnd. fold pts in Hnd. rewrite Es in Hnd. apply list.NoDup_app in Hnd as (_ & Hd & Hnd2). apply list.NoDup_cons in Hnd2 as [Hn2 _].
    assert (x = X) as ->. { apply (gmul_cancel (ginv X)); [apply ginv_nonzero, HX|]. rewrite gmul_comm, <- E, gmul_comm, ginv_r by exact HX. reflexivity. }
    apply elem_of_app in Hx as [Hx|Hx]; [apply (Hd X Hx); left|apply Hn2, Hx].
Qed.

(** The values are placed at the positions in order. *)
Lemma place_errors_eq ej e : length ej = 15%nat -> (46 <= length e)%nat -> (length (positions e 46) <= 15)%nat ->
  exists ev c, place_errors (zeros PARAM_N1) (gfs ej) (gfs e) = Some (gfs ev, c) /\ length ev = 46%nat /\
    forall i, (i < 46)%nat -> coef ev i = if flag e i then coef ej (length (positions e i)) else 0.
Proof.
  intros Lj Le Hl. unfold place_errors. change (zeros PARAM_N1) with (gfs (replicate 46 0)).
  set (P := fun (m : Z) (s : list Z * Z) => exists ev, s = (gfs ev, Z.of_nat (length (positions e (Z.to_nat m)))) /\ length ev = 46%nat /\
    forall i, (i < 46)%nat -> coef ev i = if (i <? Z.to_nat m)%nat && flag e i then coef ej (length (positions e i)) else 0).
  edestruct (ofor_upto_ind P PARAM_N1) as (s & -> & ev & -> & Lv & Hv); [decided| | |].
  { exists (replicate 46 0). split_and!; [reflexivity|reflexivity|]. intros i Hi. apply coef_replicate. }
  - intros m s Hm (ev & -> & Lv & Hv). change PARAM_N1 with 46%Z in Hm. set (i := Z.to_nat m) in *. assert (Em : m = Z.of_nat i) by (unfold i; lia).
    pose proof (length_positions_mono e (S i) 46 ltac:(lia)) as Hl1. pose proof (length_positions_mono e i (S i) ltac:(lia)) as Hl2.
    pose proof (positions_S e i) as Ep. apply (f_equal length) in Ep. rewrite length_app in Ep.
    assert (Ef : length (positions e (S i)) = if flag e i then S (length (positions e i)) else length (positions e i)).
    { rewrite flag_spec, Ep. case_decide; case_bool_decide; try tauto; cbn [length]; lia. }
    rewrite Em, (cell_gfs i e), some_bind by lia. set (c := length (positions e i)) in *. cbv zeta.
    assert (Hvi : coef ev i = 0) by (rewrite Hv by lia; destruct (Nat.ltb_spec i i); [lia|reflexivity]).
    rewrite (slot_loop (flag e i) c (gfs ev) (gfs (<[i := coef ej c]> ev))).
    + assert (Hnext : P (Z.of_nat i + 1)%Z (gfs (if flag e i then <[i := coef ej c]> ev else ev), Z.of_nat (length (positions e (S i))))).
      { exists (if flag e i then <[i := coef ej c]> ev else ev). replace (Z.to_nat (Z.of_nat i + 1)) with (S i) by lia. split; [reflexivity|].
        split; [destruct (flag e i); rewrite ?length_insert; exact Lv|]. intros k Hk. destruct (flag e i) eqn:E.
        - rewrite coef_insert by lia. destruct (decide (k = i)) as [->|]; [rewrite E; destruct (Nat.ltb_spec i (S i)); [reflexivity|lia]|].
          rewrite Hv by exact Hk. destruct (Nat.ltb_spec k i), (Nat.ltb_spec k (S i)); try lia; reflexivity.
        - rewrite Hv by exact Hk. destruct (decide (k = i)) as [->|]; [rewrite E, !andb_false_r; reflexivity|].
          destruct (Nat.ltb_spec k i), (Nat.ltb_spec k (S i)); try lia; reflexivity. }
      rewrite Ef in Hnext. destruct (flag e i) eqn:E; rewrite some_bind; (eexists; split; [reflexivity|]).
      * rewrite u16_id by (unfold in_width; lia). replace (Z.of_nat c + 1)%Z with (Z.of_nat (S c)) by lia. exact Hnext.
      * rewrite Z.add_0_r, u16_id by (unfold in_width; lia). exact Hnext.
    + lia.
    + intros E. rewrite E in Ef. lia.
    + intros j s f Hj Hskip Hs Hf. cbv beta iota. rewrite slot_mask, Hskip by lia. cbn [mask_of].
      assert (Hl' : exists l, s = gfs l /\ length l = 46%nat) by (destruct Hs as [->|[_ ->]]; eexists; (split; [reflexivity|]); [exact Lv|rewrite length_insert; exact Lv]).
      destruct Hl' as (l & -> & Ll). rewrite (cell_gfs i l), some_bind, (cell_gfs j ej), some_bind, !Z.land_0_l, !Z.add_0_r, !u16_id, (set_cell_self i l), some_bind by (lia || apply gfv_u16 || assumption). reflexivity.
    + intros E. rewrite E in Ef. cbv beta iota. rewrite slot_mask, E, Nat.eqb_refl by lia. cbn [andb].
      rewrite (cell_gfs i ev), some_bind, (cell_gfs c ej), some_bind, Hvi by lia. rewrite !land_mask_of by (apply gfv_u16 || decided). change (gfv 0) with 0%Z.
      rewrite !Z.add_0_l, !u16_id, (set_cell_gfs i), some_bind by (apply gfv_u16 || lia || decided). reflexivity.
  - eexists ev, _. split; [reflexivity|]. split; [exact Lv|]. intros i Hi. rewrite Hv by exact Hi. change (Z.to_nat PARAM_N1) with 46%nat.
    destruct (Nat.ltb_spec i 46); [reflexivity|lia].
Qed.

Lemma positions_ext e e' n : (forall i, (i < n)%nat -> coef e i = 0 <-> coef e' i = 0) -> positions e n = positions e' n.
Proof.
  induction n as [|n IH]; intros H; [reflexivity|]. rewrite !positions_S, IH by (intros; apply H; lia). f_equal. specialize (H n ltac:(lia)).
  repeat case_decide; tauto.
Qed.

(** The place of a position in the list. *)
Lemma coef_locators e i : (i < 46)%nat -> coef e i <> 0 -> (length (positions e i) < length (locators e))%nat /\ coef (locators e) (length (positions e i)) = alpha ^ i.
Proof.
  intros Hi He. assert (H : exists rest, positions e 46 = positions e i ++ i :: rest).
  { assert (Hn : forall n, (S i <= n)%nat -> exists rest, positions e n = positions e i ++ i :: rest); [|apply Hn; lia].
    induction 1 as [|n Hn (rest & IH)]; [exists []; rewrite positions_S; case_decide; [tauto|reflexivity]|].
    rewrite positions_S, IH, <- app_assoc. cbn [app]. eexists. reflexivity. }
  destruct H as (rest & E). unfold locators. rewrite length_fmap, E, length_app. split; [cbn; lia|].
  unfold coef. rewrite list_lookup_fmap, list_lookup_middle by reflexivity. reflexivity.
Qed.

Lemma compute_error_values_eq e e' z : let pts := locators e in (length pts <= 15)%nat -> (46 <= length e')%nat -> length z = 46%nat ->
  (forall k, (k < 46)%nat -> coef e' k = if decide (alpha ^ k ∈ pts) then 1 else 0) -> (forall k, (k < 16)%nat -> coef z k = z_term pts (value_at e) k) ->
  exists ev, compute_error_values (zeros PARAM_N1) (gfs z) (gfs e') = Some (gfs ev) /\ length ev = 46%nat /\ forall i, (i < 46)%nat -> coef ev i = coef e i.
Proof.
  intros pts Hl Le' Lz He' Hz.
  assert (Hsame : forall i, (i < 46)%nat -> coef e' i = 0 <-> coef e i = 0).
  { intros i Hi. rewrite He' by exact Hi. case_decide as Hd.
    - apply elem_of_locators in Hd as (j & Hj & Hne & E). apply alpha_inj in E; [subst j|lia|lia]. split; [intros E1; destruct (gone_nonzero E1)|tauto].
    - split; [intros _|reflexivity]. destruct (decide (coef e i = 0)) as [|Hne]; [assumption|]. destruct Hd. apply elem_of_locators. eauto. }
  assert (Hp : forall n, (n <= 46)%nat -> positions e' n = positions e n) by (intros n Hn; apply positions_ext; intros i Hi; apply Hsame; lia).
  assert (Hpos : length (positions e 46) = length pts) by (unfold pts, locators; rewrite length_fmap; reflexivity).
  unfold compute_error_values. rewrite error_locators_eq, some_bind by (rewrite ?Hp; lia). cbv beta iota.
  assert (Es : locator_slots e' 46 = locator_slots e 46) by (unfold locator_slots; rewrite Hp by lia; reflexivity). rewrite Es, Hp, Hpos by lia.
  change (zeros PARAM_DELTA) with (gfs (replicate 15 0)).
  destruct (ofor_fill (fun i => if (i <? length pts)%nat then value_at e (coef pts i) else 0) 0 15
    (fun i e_j => v ← error_value (gfs (locator_slots e 46)) (gfs z) (Z.of_nat (length pts)) i; set_cell e_j i v) (replicate 15 0)) as (ej & E & Lj & Hj & _).
  { rewrite length_replicate. lia. }
  { intros i l' Hi Hl' _ _. cbv beta. pose proof (error_value_eq e z i Hl ltac:(lia) Hz Hi) as Ev. fold pts in Ev. rewrite Ev, some_bind. reflexivity. }
  change (Z.of_nat 15) with PARAM_DELTA in E. rewrite E, some_bind. rewrite length_replicate in Lj. cbn [Nat.add] in Hj.
  destruct (place_errors_eq ej e' Lj Le' ltac:(rewrite Hp; lia)) as (ev & c & -> & Lv & Hv). rewrite some_bind. cbv beta iota.
  exists ev. split; [reflexivity|]. split; [exact Lv|]. intros i Hi. rewrite Hv, flag_spec, Hp by (exact Hi || lia).
  case_bool_decide as Hf; [|symmetry; apply Hsame; assumption].
  assert (Hne : coef e i <> 0) by (intros E0; apply Hf, Hsame; assumption). destruct (coef_locators e i Hi Hne) as [H1 H2]. fold pts in H1, H2.
  rewrite Hj, H2 by lia. destruct (Nat.ltb_spec (length (positions e i)) (length pts)); [|lia]. apply value_at_locator, Hi.
Qed.

(** ** The decoder *)

Lemma correct_errors_eq c ev : length c = 46%nat -> length ev = 46%nat ->
  exists c', correct_errors (gfs c) (gfs ev) = Some (gfs c') /\ length c' = 46%nat /\ forall i, (i < 46)%nat -> coef c' i = coef c i + coef ev i.
Proof.
  intros Lc Lv. unfold correct_errors.
  destruct (ofor_fill (fun i => coef c i + coef ev i) 0 46 (fun i cdw => x ← cell cdw i; v ← cell (gfs ev) i; set_cell cdw i (u8 (Z.lxor x v))) c) as (c' & E & L & H & _); [lia| |].
  - intros i l' Hi Hl' _ Hsame. cbv beta. rewrite (cell_gfs i l'), some_bind, (cell_gfs i ev), some_bind, Hsame, <- gfv_add, u8_id by (lia || apply gfv_u8). reflexivity.
  - change (Z.of_nat 46) with PARAM_N1 in E. exists c'. split; [exact E|]. split; [lia|exact H].
Qed.

(** The steps of the decoder on a word with at most 15 wrong bytes: the code word. *)
Lemma decode_steps c e r : is_codeword c -> length r = 46%nat -> (forall k, (k < 46)%nat -> coef r k = coef c k + coef e k) -> (length (positions e 46) <= 15)%nat ->
  (syndromes ← compute_syndromes (zeros (2 * PARAM_DELTA)) (gfs r);
   '(sigma, deg) ← compute_elp (zeros (Z.shiftl 1 PARAM_FFT)) syndromes;
   error ← compute_roots (zeros (Z.shiftl 1 PARAM_M)) sigma;
   z ← compute_z_poly (zeros PARAM_N1) sigma deg syndromes;
   error_values ← compute_error_values (zeros PARAM_N1) z error;
   correct_errors (gfs r) error_values) = Some (gfs c).
Proof.
  intros Hc Lr Hr Hpos. set (pts := locators e). set (Y := value_at e).
  assert (Hlen : (length pts <= 15)%nat) by (unfold pts, locators; rewrite length_fmap; exact Hpos).
  pose proof (locators_NoDup e) as Hnd. pose proof (locators_nonzero e) as Hne. pose proof (value_at_nonzero e) as HY. fold pts Y in Hnd, Hne, HY.
  rewrite compute_syndromes_eq, some_bind by exact Lr. set (syn := syndrome r <$> seq 0 30). assert (Ls : length syn = 30%nat) by (unfold syn; rewrite length_fmap, length_seq; reflexivity).
  assert (Hsyn : forall i, (i < 30)%nat -> coef syn i = psum pts Y (S i)) by (intros i Hi; unfold syn; rewrite coef_fmap_seq by exact Hi; apply (syndrome_errors c); assumption).
  destruct (compute_elp_eq pts Y syn Hnd Hne HY Hlen Ls Hsyn) as (sl & -> & Lsl & Hsl). rewrite some_bind. cbv beta iota.
  destruct (compute_roots_eq pts Hne Hlen sl Lsl Hsl) as (err & -> & Lerr & Herr). rewrite some_bind.
  destruct (compute_z_poly_eq pts Y syn Hnd Hne HY Hlen Ls Hsyn sl Lsl Hsl) as (z & -> & Lz & Hz). rewrite some_bind.
  destruct (compute_error_values_eq e err z Hlen ltac:(lia) Lz) as (ev & -> & Lev & Hev); [intros k Hk; apply Herr; lia|exact Hz|]. rewrite some_bind.
  destruct (correct_errors_eq r ev Lr Lev) as (c' & -> & Lc' & Hc'). do 2 f_equal. apply coef_eq; [destruct Hc; lia|]. intros i Hi. rewrite Lc' in Hi. rewrite Hc', Hr, Hev by exact Hi. ring.
Qed.

(** ** Properties *)

(** How many of the 46 bytes of two words differ. *)
Definition wrong_bytes (a b : bytes) : nat := length (filter (fun i => a !! i <> b !! i) (seq 0 46)).

Lemma lookup_gfs l i : (i < length l)%nat -> gfs l !! i = Some (gfv (coef l i)).
Proof. intros Hi. unfold gfs, coef. rewrite list_lookup_fmap. destruct (lookup_lt_is_Some_2 l i Hi) as [x ->]. reflexivity. Qed.

Lemma wrong_positions a b c r : length c = 46%nat -> length r = 46%nat -> take 46 a = gfs c -> take 46 b = gfs r ->
  wrong_bytes a b = length (positions ((fun i => coef c i + coef r i) <$> seq 0 46) 46).
Proof.
  intros Lc Lr Ea Eb. unfold wrong_bytes, positions. f_equal. apply filter_ext_elem. intros i Hi. apply elem_of_seq in Hi.
  rewrite coef_fmap_seq by lia. rewrite <- (lookup_take_lt a 46 i), <- (lookup_take_lt b 46 i), Ea, Eb, !lookup_gfs by lia.
  split; intros H E; apply H.
  - apply (proj1 (gadd_eq _ _)) in E. rewrite E. reflexivity.
  - injection E as E. apply gf_eq in E. apply gadd_eq, E.
Qed.

Lemma reed_solomon_decode_eq msg c e r out received : is_codeword c -> length r = 46%nat -> (forall k, (k < 46)%nat -> coef r k = coef c k + coef e k) ->
  (length (positions e 46) <= 15)%nat -> take 46 (as_bytes received) = gfs r -> length received = 6%nat -> length out = 2%nat -> length msg = 2%nat ->
  Forall (in_width 64) out -> Forall (in_width 64) msg -> drop 30 (gfs c) = as_bytes msg -> reed_solomon_decode out received = Some msg.
Proof.
  intros Hc Lr Hr Hpos Er Lrec Lo Lm Wo Wm Em. pose proof (decode_steps c e r Hc Lr Hr Hpos) as E. unfold reed_solomon_decode, memcpy_from_words.
  destruct (mem_read_total (as_bytes received) 0 PARAM_N1) as (p & -> & _ & ->); [decided|decided|rewrite length_as_bytes, Lrec; decided|].
  rewrite some_bind, drop_0. change (Z.to_nat PARAM_N1) with 46%nat. rewrite Er.
  rewrite mem_write_total by (rewrite ?length_gfs, ?Lr; decided). change (Z.to_nat 0) with 0%nat. rewrite take_0, length_gfs, Lr, app_nil_l, drop_ge, app_nil_r, some_bind by (change (length (zeros PARAM_N1)) with 46%nat; lia).
  revert E. destruct (compute_syndromes _ (gfs r)) as [syn|]; [rewrite !some_bind|discriminate]. destruct (compute_elp _ syn) as [[sg deg]|]; [rewrite !some_bind; cbv beta iota|discriminate].
  destruct (compute_roots _ sg) as [er|]; [rewrite !some_bind|discriminate]. destruct (compute_z_poly _ sg deg syn) as [z|]; [rewrite !some_bind|discriminate].
  destruct (compute_error_values _ z er) as [ev|]; [rewrite !some_bind|discriminate]. intros ->. rewrite some_bind. destruct Hc as [Lc _].
  destruct (mem_read_total (gfs c) (PARAM_G - 1) PARAM_K) as (p & -> & _ & ->); [decided|decided|rewrite length_gfs, Lc; decided|]. rewrite some_bind.
  change (Z.to_nat (PARAM_G - 1)) with 30%nat. change (Z.to_nat PARAM_K) with 16%nat. rewrite Em, (take_ge (as_bytes msg)) by (rewrite length_as_bytes; lia).
  change PARAM_K with (8 * Z.of_nat 2)%Z. change (memcpy_to_words out 0 (as_bytes msg) (8 * Z.of_nat 2)) with (memcpy_words out msg (8 * Z.of_nat 2)).
  rewrite (memcpy_words_eq _ _ _ 2) by (assumption || lia). rewrite take_ge, drop_ge, app_nil_r by lia. reflexivity.
Qed.

(** The encoder is systematic and its words are in the code: whatever was in the
    buffer, its first 46 bytes become 30 parity bytes and the message, the bytes after
    them are kept, and all 30 syndromes of the code word are zero. *)
Theorem reed_solomon_encode_spec cdw msg : length cdw = 6%nat -> length msg = 2%nat -> Forall (in_width 64) cdw ->
  exists d parity, reed_solomon_encode cdw msg = Some d /\ length d = 6%nat /\ length parity = 30%nat /\
    as_bytes d = parity ++ as_bytes msg ++ drop 46 (as_bytes cdw) /\
    compute_syndromes (zeros (2 * PARAM_DELTA)) (parity ++ as_bytes msg) = Some (zeros (2 * PARAM_DELTA)).
Proof.
  intros Lc Lm Wc. destruct (reed_solomon_encode_eq cdw msg Lc Lm Wc) as (d & parity & E & Ld & _ & Ed & Lp & Hcw). exists d, (gfs parity).
  split_and!; [exact E|exact Ld|rewrite length_gfs; exact Lp|exact Ed|]. rewrite <- (gfs_of_bytes (as_bytes msg)) at 1 by apply as_bytes_bytes.
  unfold gfs at 1 2. rewrite <- fmap_app. fold (gfs (parity ++ (of_byte <$> as_bytes msg))). rewrite compute_syndromes_eq by apply Hcw. f_equal.
  change (zeros (2 * PARAM_DELTA)) with (gfs (replicate 30 0)). f_equal. apply coef_eq; [rewrite length_fmap, length_seq; reflexivity|]. intros i Hi.
  rewrite length_fmap, length_seq in Hi. rewrite coef_fmap_seq, coef_replicate by exact Hi. destruct Hcw as [_ H]. apply H. lia.
Qed.

Example reed_solomon_encode_spec_witness : exists d parity, reed_solomon_encode (zeros 6) [0x1122334455667788; 0x99aabbccddeeff01] = Some d /\ length d = 6%nat /\ length parity = 30%nat /\
    as_bytes d = parity ++ as_bytes [0x1122334455667788; 0x99aabbccddeeff01] ++ drop 46 (as_bytes (zeros 6)) /\
    compute_syndromes (zeros (2 * PARAM_DELTA)) (parity ++ as_bytes [0x1122334455667788; 0x99aabbccddeeff01]) = Some (zeros (2 * PARAM_DELTA)).
Proof. apply (reed_solomon_encode_spec (zeros 6)); [reflexivity|reflexivity|decided]. Defined.

(** A word close to one that carries a message is decoded to the message. *)
Lemma reed_solomon_decode_close d parity msg received out : Forall (in_width 64) msg -> length msg = 2%nat -> length out = 2%nat -> Forall (in_width 64) out ->
  length received = 6%nat -> length parity = 30%nat -> take 46 (as_bytes d) = gfs parity ++ as_bytes msg -> is_codeword (parity ++ (of_byte <$> as_bytes msg)) ->
  (wrong_bytes (as_bytes d) (as_bytes received) <= 15)%nat -> reed_solomon_decode out received = Some msg.
Proof.
  intros Wm Lm Lo Wo Lr Lp Eb Hcw Hw. set (m := of_byte <$> as_bytes msg) in *. assert (Em : gfs m = as_bytes msg) by apply gfs_of_bytes, as_bytes_bytes.
  set (c := parity ++ m) in *. assert (Lc46 : length c = 46%nat) by apply Hcw.
  assert (Ec : take 46 (as_bytes d) = gfs c) by (rewrite Eb, <- Em; unfold c, gfs; rewrite fmap_app; reflexivity).
  set (r := of_byte <$> take 46 (as_bytes received)). assert (Er : take 46 (as_bytes received) = gfs r) by (symmetry; apply gfs_of_bytes, Forall_take, as_bytes_bytes).
  assert (Lr46 : length r = 46%nat) by (unfold r; rewrite length_fmap, length_take, length_as_bytes; lia).
  rewrite (wrong_positions _ _ c r Lc46 Lr46 Ec Er) in Hw.
  apply (reed_solomon_decode_eq msg c _ r out received Hcw Lr46) in Hw; try assumption.
  - intros k Hk. rewrite coef_fmap_seq by exact Hk. ring.
  - unfold c, gfs. rewrite fmap_app, drop_app_length' by (rewrite length_fmap; exact (eq_sym Lp)). exact Em.
Qed.

(** The 46 bytes of a code word. *)
Lemma encoded_take d parity msg rest : length parity = 30%nat -> length msg = 2%nat -> as_bytes d = gfs parity ++ as_bytes msg ++ rest ->
  take 46 (as_bytes d) = gfs parity ++ as_bytes msg.
Proof. intros Lp Lm ->. rewrite app_assoc. apply take_app_length'. rewrite length_app, length_gfs, length_as_bytes. lia. Qed.

(** C27. The decoder corrects 15 errors: a word that differs from the encoding of a
    message in at most 15 of its 46 bytes is decoded to that message. *)
Theorem reed_solomon_corrects cdw msg d received out : length cdw = 6%nat -> Forall (in_width 64) cdw -> length msg = 2%nat -> Forall (in_width 64) msg ->
  length out = 2%nat -> Forall (in_width 64) out -> length received = 6%nat ->
  reed_solomon_encode cdw msg = Some d -> (wrong_bytes (as_bytes d) (as_bytes received) <= 15)%nat -> reed_solomon_decode out received = Some msg.
Proof.
  intros Lc Wc Lm Wm Lo Wo Lr Ed. destruct (reed_solomon_encode_eq cdw msg Lc Lm Wc) as (d' & parity & E & _ & _ & Eb & Lp & Hcw).
  rewrite Ed in E. injection E as <-. apply (reed_solomon_decode_close d parity); try assumption. apply (encoded_take d parity msg _ Lp Lm Eb).
Qed.

Example reed_solomon_corrects_witness :
  let msg := [0x1122334455667788; 0x99aabbccddeeff01]%Z in
  let received := [11328147445899529783; 10904337555952441214; 12688622180778407439; 8623690477789169812; 15060337360116153702; 168958577466862]%Z in
  reed_solomon_decode (zeros 2) received = Some msg.
Proof.
  apply (reed_solomon_corrects (zeros 6) _
    [11328991870728998448; 9319070405513643902; 12688635374917481999; 8613275904221300875; 18374986793235010918; 168958574255598]%Z);
    [reflexivity|decided|reflexivity|decided|reflexivity|decided|reflexivity|vm_compute; reflexivity|].
  apply Nat.leb_le. vm_compute. reflexivity.
Defined.
