(* ===== verification/RsTotal.v ===== *)
(** * The Reed-Solomon decoder on any word

    A ciphertext comes from the network, so the decoder runs on words that no code word
    is near.  It still ends inside its arrays: whatever the syndromes are, the locator
    polynomial has constant coefficient 1 and degree at most 15, so it has at most 15
    roots, as many as the arrays of the last steps hold. *)

From S2P Require Import Prelude Carryless Words Gf GfRing Locator Gf2x Vector Fft ReedSolomon RsDecode.
From Stdlib Require Import Ring.

#[local] Open Scope gf_scope.

(** ** Polynomials and their roots *)

Definition lhorner (l : list gf) (x : gf) : gf := foldr (fun c acc => c + x * acc) 0 l.

Lemma eval_lhorner l x : eval (coef l) (length l) x = lhorner l x.
Proof.
  unfold eval. induction l as [|c l IH]; [reflexivity|]. cbn [length lhorner foldr]. fold (lhorner l x). rewrite gsum_first, <- IH.
  change (coef (c :: l) 0) with c. rewrite <- gsum_mul. cbn [gpow]. f_equal; [ring|]. apply gsum_ext. intros k _. change (coef (c :: l) (S k)) with (coef l k). ring.
Qed.

(** Division by [x - a]. *)
Lemma lhorner_divide l a : exists q, length q = (length l - 1)%nat /\ forall x, lhorner l x = (x + a) * lhorner q x + lhorner l a.
Proof.
  induction l as [|c l (q & Lq & Hq)]; [exists []; split; [reflexivity|]; intros x; cbn; ring|]. destruct l as [|c' l'].
  - exists []. split; [reflexivity|]. intros x. cbn. ring.
  - set (l := c' :: l') in *. exists (lhorner l a :: q). cbn [length] in *. split; [rewrite Lq; unfold l; cbn; lia|]. intros x. cbn [lhorner foldr].
    fold (lhorner l x) (lhorner l a) (lhorner q x). rewrite Hq at 1. ring.
Qed.

(** A polynomial with as many roots as coefficients is zero everywhere. *)
Lemma lhorner_roots xs : NoDup xs -> forall l, (length l <= length xs)%nat -> (forall x, x ∈ xs -> lhorner l x = 0) -> forall x, lhorner l x = 0.
Proof.
  induction 1 as [|a xs Ha Hnd IH]; intros l Hl Hz x; [destruct l; [reflexivity|cbn in Hl; lia]|].
  destruct (lhorner_divide l a) as (q & Lq & Hq). rewrite Hq, (Hz a) by left. rewrite IH; [ring|cbn in Hl; lia|].
  intros y Hy. assert (Hya : y + a <> 0) by (intros E; apply (proj1 (gadd_eq _ _)) in E; subst; contradiction).
  specialize (Hq y). rewrite (Hz y), (Hz a) in Hq by (left || (right; exact Hy)). destruct (gmul_eq_0 (y + a) (lhorner q y)); [|contradiction|assumption].
  rewrite Hq. ring.
Qed.

Lemma lhorner_0 l : lhorner l 0 = coef l 0.
Proof. destruct l as [|c l]; [reflexivity|]. change (lhorner (c :: l) 0) with (c + 0 * lhorner l 0). change (coef (c :: l) 0) with c. ring. Qed.

(** A list of coefficients with constant term 1 has fewer roots than coefficients. *)
Lemma roots_bound l xs : NoDup xs -> coef l 0 = 1 -> (1 <= length l)%nat -> (forall x, x ∈ xs -> eval (coef l) (length l) x = 0) -> (length xs < length l)%nat.
Proof.
  intros Hnd H1 Hl Hz. destruct (Nat.lt_ge_cases (length xs) (length l)) as [|Hge]; [assumption|]. destruct gone_nonzero.
  rewrite <- H1, <- lhorner_0. apply (lhorner_roots xs Hnd l Hge). intros x Hx. rewrite <- eval_lhorner. apply Hz, Hx.
Qed.

(** ** Loops over lists of field elements *)

(** [f] maps lists of [n] elements to lists of [n] elements and keeps the first. *)
Definition keeps (n : nat) (f : list Z -> option (list Z)) : Prop :=
  forall l, length l = n -> exists l', f (gfs l) = Some (gfs l') /\ length l' = n /\ coef l' 0 = coef l 0.

Lemma keeps_set n (k : nat) i f : i = Z.of_nat k -> (1 <= k < n)%nat -> (forall l, length l = n -> exists v, f (gfs l) = set_cell (gfs l) i (gfv v)) -> keeps n f.
Proof.
  intros Hi Hk Hf l Hl. destruct (Hf l Hl) as (v & ->). rewrite (set_cell_gfs k) by lia. eexists. split; [reflexivity|].
  rewrite length_insert, coef_insert by lia. case_decide; [lia|]. auto.
Qed.
Lemma keeps_bind n f g : keeps n f -> keeps n g -> keeps n (fun l => l ← f l; g l).
Proof.
  intros Hf Hg l Hl. destruct (Hf l Hl) as (l1 & -> & L1 & E1), (Hg l1 L1) as (l2 & E2 & L2 & E3). rewrite some_bind. exists l2.
  split; [exact E2|]. split; [exact L2|congruence].
Qed.
Lemma keeps_loop n (ix : list Z) (body : Z -> list Z -> option (list Z)) : (forall i, i ∈ ix -> keeps n (body i)) -> keeps n (ofor ix body).
Proof.
  induction ix as [|i ix IH]; intros Hb l Hl; [exists l; auto|]. cbn [ofor]. destruct (Hb i ltac:(left) l Hl) as (l1 & -> & L1 & E1). rewrite some_bind.
  destruct (IH (fun j Hj => Hb j (list_elem_of_further _ _ _ Hj)) l1 L1) as (l2 & E2 & L2 & E3). exists l2. split; [exact E2|]. split; [exact L2|congruence].
Qed.
Lemma elem_seqZ a n i : i ∈ seqZ a n -> (a <= i < a + n)%Z.
Proof. intros H. apply elem_of_seqZ in H. lia. Qed.

Lemma sign_mask_any x : exists b, u16 (- Z.shiftr (u16 x) 15) = mask_of b.
Proof.
  pose proof (u16_range x) as H. unfold is_u16, in_width in H. rewrite Z.shiftr_div_pow2 by lia.
  assert (E : (u16 x / 2 ^ 15 = 0 \/ u16 x / 2 ^ 15 = 1)%Z) by (Z.to_euclidean_division_equations; lia).
  destruct E as [->| ->]; [exists false|exists true]; reflexivity.
Qed.

(** ** The locator polynomial of any syndromes *)

Definition elp_any (s : elp_state) : Prop := exists sl cl xl deg degp pp dp d, s = ElpState (gfs sl) (gfs cl) (gfs xl) deg degp pp (gfv dp) (gfv d) /\
  length sl = 16%nat /\ length cl = 16%nat /\ length xl = 16%nat /\ coef sl 0 = 1.

Lemma elp_turn_any syn mu s : length syn = 30%nat -> (0 <= mu < 30)%Z -> elp_any s -> exists s', elp_turn (gfs syn) mu s = Some s' /\ elp_any s'.
Proof.
  intros Lsyn Hmu (sl & cl & xl & deg & degp & pp & dp & d & -> & Ls & Lc & Lx & H1). unfold elp_turn.
  destruct (memcpy16_gfs cl sl 0 15 ltac:(lia) ltac:(lia)) as (cl' & Ec & Lc' & _). change (Z.of_nat 0) with 0%Z in Ec. change (2 * Z.of_nat 15)%Z with (2 * PARAM_DELTA)%Z in Ec.
  rewrite Ec, some_bind, <- gfv_inv, <- gfv_mul. clear Ec. cbv zeta. set (n := Z.min (mu + 1) PARAM_DELTA). assert (Hn : (0 <= n <= 15)%Z) by (unfold n; change PARAM_DELTA with 15%Z; lia).
  assert (K : keeps 16 (ofor (seqZ 1 n) (fun i sigma => x ← cell sigma i; p ← cell (gfs xl) i; set_cell sigma i (Z.lxor x (gf_mul (gfv (d * ginv dp)) p))))).
  { apply keeps_loop. intros i Hi. apply elem_seqZ in Hi. apply (keeps_set 16 (Z.to_nat i) i); [lia|lia|]. intros l Hl.
    rewrite (cell_gfs (Z.to_nat i) l), some_bind, (cell_gfs (Z.to_nat i) xl), some_bind, <- gfv_mul, <- gfv_add by lia. eexists. reflexivity. }
  destruct (K sl Ls) as (sl' & -> & Ls' & H1'). rewrite some_bind. rewrite H1 in H1'.
  destruct (sign_mask_any (- gfv d)) as [b1 ->], (sign_mask_any (deg - u16 (u16 (mu - pp) + degp))) as [b2 ->]. rewrite mask_land. set (b := b1 && b2).
  rewrite (mask_select b (gfv dp) (gfv d)), gfv_if by apply gfv_u16. destruct (mu =? 2 * PARAM_DELTA - 1)%Z eqn:E.
  { eexists. split; [reflexivity|]. exists sl', cl', xl. do 5 eexists. split; [reflexivity|]. split_and!; (assumption || lia). }
  apply Z.eqb_neq in E. change (2 * PARAM_DELTA - 1)%Z with 29%Z in E. destruct (X_loop b cl' xl ltac:(lia) Lx) as (xl' & -> & Lx' & _). rewrite some_bind.
  rewrite (cell_gfs (Z.to_nat (mu + 1)) syn), some_bind by lia. replace n with (Z.of_nat (Z.to_nat n)) by lia. change 1%Z with (Z.of_nat 1) at 1.
  rewrite (ofor_sum gfv (fun i => coef sl' i * coef syn (Z.to_nat (mu + 1) - i)) 1 (Z.to_nat n)).
  - rewrite some_bind. eexists. split; [reflexivity|]. exists sl', cl', xl'. do 5 eexists. split; [reflexivity|]. split_and!; (assumption || lia).
  - intros i acc Hi. rewrite (cell_gfs i sl'), some_bind, (cell_gfs (Z.to_nat (mu + 1) - i) syn), some_bind, <- gfv_mul, <- gfv_add by (unfold n in *; lia). reflexivity.
Qed.

Lemma set_one n : (1 <= n)%nat -> set_cell (gfs (replicate n 0)) 0 1 = Some (gfs (<[0%nat := 1]> (replicate n 0))).
Proof. intros Hn. apply (set_cell_gfs 0 _ 0 1); [reflexivity|rewrite length_replicate; lia]. Qed.

Lemma compute_elp_any syn : length syn = 30%nat -> exists sl deg, compute_elp (zeros (Z.shiftl 1 PARAM_FFT)) (gfs syn) = Some (gfs sl, deg) /\ length sl = 16%nat /\ coef sl 0 = 1.
Proof.
  intros Lsyn. unfold compute_elp. rewrite (cell_gfs 0 syn), some_bind by lia. change (zeros (Z.shiftl 1 PARAM_FFT)) with (gfs (replicate 16 0)).
  rewrite (set_one 16), some_bind by lia.
  edestruct (ofor_upto_ind (fun _ => elp_any) (2 * PARAM_DELTA)) as (s & -> & Hs); [decided| |intros mu s Hmu Hs; apply elp_turn_any; [exact Lsyn|exact Hmu|exact Hs]|].
  - exists (<[0%nat := 1]> (replicate 16 0)), (replicate 16 0), (0 :: 1 :: replicate 14 0), 0%Z, 0%Z, (u16 (-1)), 1, (coef syn 0). split_and!; reflexivity.
  - rewrite some_bind. destruct Hs as (sl & cl & xl & deg & degp & pp & dp & d & -> & Ls & _ & _ & H1). exists sl, deg. auto.
Qed.

(** ** Its roots, the polynomial z and the values *)

Lemma root_nonzero x : root x <> 0 -> x = 0.
Proof. unfold root. case_decide as H; [intros _; exact H|intros Hn; destruct Hn; reflexivity]. Qed.

Lemma compute_roots_any sl : length sl = 16%nat -> coef sl 0 = 1 ->
  exists e, compute_roots (zeros (Z.shiftl 1 PARAM_M)) (gfs sl) = Some (gfs e) /\ length e = 256%nat /\ (length (positions e 46) <= 15)%nat.
Proof.
  intros Ls H1. unfold compute_roots. change (PARAM_DELTA + 1)%Z with 16%Z. change (zeros (Z.shiftl 1 PARAM_M)) with (zeros 256).
  destruct (fft_spec (replicate 256 0) sl ltac:(apply length_replicate) Ls) as (w & E & Lw & Hw). change (gfs (replicate 256 0)) with (zeros 256) in E.
  rewrite E, some_bind. clear E. destruct (fft_retrieve_spec (eval (coef sl) 16) w Lw Hw) as (e & -> & Le & He).
  - rewrite <- Ls, eval_lhorner, lhorner_0, H1. exact gone_nonzero.
  - exists e. split; [reflexivity|]. split; [exact Le|]. rewrite <- (length_fmap (fun k => ginv (alpha ^ k)) (positions e 46)).
    enough (length ((fun k => ginv (alpha ^ k)) <$> positions e 46) < length sl)%nat by lia. apply roots_bound; [|exact H1|lia|].
    + rewrite (list_fmap_compose (fun k => alpha ^ k) ginv). apply NoDup_fmap_2_strong; [|apply locators_NoDup].
      intros x y Hx Hy E. apply (locators_nonzero e) in Hx, Hy. apply (gmul_cancel (ginv x)); [apply ginv_nonzero, Hx|].
      rewrite E at 2. rewrite !(gmul_comm (ginv _)), !ginv_r by assumption. reflexivity.
    + intros x Hx. apply list_elem_of_fmap in Hx as (k & -> & Hk). apply elem_of_positions in Hk as [Hk Hne]. rewrite Ls.
      rewrite (He k) in Hne by lia. rewrite <- inverse_power_eq by lia. exact (root_nonzero _ Hne).
Qed.

Lemma compute_z_poly_any sl deg syn : length sl = 16%nat -> length syn = 30%nat ->
  exists z, compute_z_poly (zeros PARAM_N1) (gfs sl) deg (gfs syn) = Some (gfs z) /\ length z = 46%nat /\ coef z 0 = 1.
Proof.
  intros Ls Lsyn. unfold compute_z_poly. change (zeros PARAM_N1) with (gfs (replicate 46 0)). cbv beta zeta.
  rewrite (set_one 46), some_bind by lia.
  set (z0 := <[0%nat := 1]> (replicate 46 0)). assert (L0 : length z0 = 46%nat) by reflexivity.
  set (mask := fun i => u16 (- Z.shiftr (u16 (i - deg - 1)) 15)). assert (Hmask : forall i x, exists v, Z.land (mask i) (gfv x) = gfv v).
  { intros i x. unfold mask. destruct (sign_mask_any (i - deg - 1)) as [b ->]. rewrite land_mask_of by apply gfv_u16. exists (if b then x else 0). destruct b; reflexivity. }
  assert (K1 : keeps 46 (ofor (seqZ 1 PARAM_DELTA) (fun i z => x ← cell (gfs sl) i; set_cell z i (Z.land (mask i) x)))).
  { apply keeps_loop. intros i Hi. apply elem_seqZ in Hi. change PARAM_DELTA with 15%Z in Hi. apply (keeps_set 46 (Z.to_nat i) i); [lia|lia|]. intros l Hl.
    rewrite (cell_gfs (Z.to_nat i) sl), some_bind by lia. destruct (Hmask i (coef sl (Z.to_nat i))) as (v & ->). exists v. reflexivity. }
  destruct (K1 z0 L0) as (z1 & E1 & L1 & H1). cbv beta delta [mask] in E1. rewrite E1, some_bind. clear E1 K1.
  rewrite (cell_gfs 1 z1), some_bind, (cell_gfs 0 syn), some_bind, <- gfv_add, (set_cell_gfs 1), some_bind by lia.
  assert (K2 : keeps 46 (ofor (seqZ 2 (PARAM_DELTA - 1)) (fun i z => x ← cell z i; y ← cell (gfs syn) (i - 1); z ← set_cell z i (Z.lxor x (Z.land (mask i) y));
    ofor (seqZ 1 (i - 1)) (fun j z => x ← cell z i; s ← cell (gfs sl) j; y ← cell (gfs syn) (i - j - 1); set_cell z i (Z.lxor x (Z.land (mask i) (gf_mul s y)))) z))).
  { apply keeps_loop. intros i Hi. apply elem_seqZ in Hi. change (PARAM_DELTA - 1)%Z with 14%Z in Hi. intros l Hl.
    rewrite (cell_gfs (Z.to_nat i) l i), some_bind, (cell_gfs (Z.to_nat (i - 1)) syn), some_bind by lia. destruct (Hmask i (coef syn (Z.to_nat (i - 1)))) as (v & ->).
    rewrite <- gfv_add, (set_cell_gfs (Z.to_nat i)), some_bind by lia. set (l1 := <[Z.to_nat i := _]> l).
    assert (K3 : keeps 46 (ofor (seqZ 1 (i - 1)) (fun j z => x ← cell z i; s ← cell (gfs sl) j; y ← cell (gfs syn) (i - j - 1); set_cell z i (Z.lxor x (Z.land (mask i) (gf_mul s y)))))).
    { apply keeps_loop. intros j Hj. apply elem_seqZ in Hj. apply (keeps_set 46 (Z.to_nat i) i); [lia|lia|]. intros l2 Hl2.
      rewrite (cell_gfs (Z.to_nat i) l2 i), some_bind, (cell_gfs (Z.to_nat j) sl), some_bind, (cell_gfs (Z.to_nat (i - j - 1)) syn), some_bind by lia.
      rewrite <- gfv_mul. destruct (Hmask i (coef sl (Z.to_nat j) * coef syn (Z.to_nat (i - j - 1)))) as (w & ->). rewrite <- gfv_add. eexists. reflexivity. }
    destruct (K3 l1) as (l' & E & L' & H'); [unfold l1; rewrite length_insert; exact Hl|]. exists l'. split; [exact E|]. split; [exact L'|].
    rewrite H'. unfold l1. rewrite coef_insert by lia. case_decide; [lia|reflexivity]. }
  destruct (K2 (<[1%nat := coef z1 1 + coef syn 0]> z1)) as (z2 & E2 & L2 & H2); [rewrite length_insert; exact L1|]. cbv beta delta [mask] in E2. exists z2. split; [exact E2|]. split; [exact L2|].
  rewrite H2, coef_insert by lia. case_decide; [lia|]. rewrite H1. reflexivity.
Qed.

Lemma compute_error_values_any e z : (46 <= length e)%nat -> (length (positions e 46) <= 15)%nat -> length z = 46%nat -> coef z 0 = 1 ->
  exists ev, compute_error_values (zeros PARAM_N1) (gfs z) (gfs e) = Some (gfs ev) /\ length ev = 46%nat.
Proof.
  intros Le Hp Lz Hz. unfold compute_error_values. rewrite error_locators_eq, some_bind by assumption. cbv beta iota.
  change (zeros PARAM_DELTA) with (gfs (replicate 15 0)). set (bl := locator_slots e 46). assert (Lb : length bl = 15%nat) by apply length_locator_slots, Hp.
  destruct (ofor_fill (fun i => if (i <? length (positions e 46))%nat then eval (coef z) 16 (ginv (coef bl i)) *
      ginv (gprods (fun k => 1 + ginv (coef bl i) * coef bl ((i + k) mod 15)) (seq 1 14)) else 0) 0 15
    (fun i e_j => v ← error_value (gfs bl) (gfs z) (Z.of_nat (length (positions e 46))) i; set_cell e_j i v) (replicate 15 0)) as (ej & E & Lj & _).
  { rewrite length_replicate. lia. }
  { intros i l' Hi Hl' _ _. cbv beta. rewrite error_value_loops, some_bind by (assumption || lia). reflexivity. }
  change (Z.of_nat 15) with PARAM_DELTA in E. rewrite E, some_bind. rewrite length_replicate in Lj.
  destruct (place_errors_eq ej e Lj Le Hp) as (ev & c & -> & Lv & _). rewrite some_bind. exists ev. auto.
Qed.

(** ** The decoder *)

(** On any 46 bytes, near a code word or not, it returns 16 bytes; no loop of it reads or
    writes outside its arrays. *)
Lemma reed_solomon_decode_total received out : length received = 6%nat -> length out = 2%nat -> Forall (in_width 64) out ->
  exists m, reed_solomon_decode out received = Some m /\ length m = 2%nat /\ Forall (in_width 64) m.
Proof.
  intros Lr Lo Wo. unfold reed_solomon_decode.
  rewrite memcpy_from_words_eq, some_bind by (rewrite ?Lr; decided). change (Z.to_nat 0) with 0%nat. change (drop (Z.to_nat (0 + PARAM_N1)) (zeros PARAM_N1)) with (@nil Z).
  rewrite take_0, app_nil_l, app_nil_r. change (Z.to_nat PARAM_N1) with 46%nat. set (r := of_byte <$> take 46 (as_bytes received)).
  assert (Er : take 46 (as_bytes received) = gfs r) by (symmetry; apply gfs_of_bytes, Forall_take, as_bytes_bytes).
  assert (L46 : length r = 46%nat) by (unfold r; rewrite length_fmap, length_take, length_as_bytes; lia). rewrite Er.
  rewrite compute_syndromes_eq, some_bind by exact L46.
  destruct (compute_elp_any (syndrome r <$> seq 0 30)) as (sl & deg & -> & Ls & H1); [rewrite length_fmap; apply length_seq|]. rewrite some_bind. cbv beta iota.
  destruct (compute_roots_any sl Ls H1) as (e & -> & Le & Hp). rewrite some_bind.
  destruct (compute_z_poly_any sl deg (syndrome r <$> seq 0 30) Ls) as (z & -> & Lz & Hz); [rewrite length_fmap; apply length_seq|]. rewrite some_bind.
  destruct (compute_error_values_any e z) as (ev & -> & Lv); [lia|exact Hp|exact Lz|exact Hz|]. rewrite some_bind.
  destruct (correct_errors_eq r ev L46 Lv) as (c & -> & Lc & _). rewrite some_bind.
  destruct (mem_read_total (gfs c) (PARAM_G - 1) PARAM_K) as (p & -> & Lp & ->); [decided|decided|rewrite length_gfs, Lc; decided|]. rewrite some_bind.
  edestruct (memcpy_to_words_eq out 0) as (m & -> & Lm & Wm & _); [exact Wo|apply Forall_take, Forall_drop, gfs_bytes|rewrite Lp; decided|lia|rewrite Lo; decided|].
  exists m. split; [reflexivity|]. split; [lia|exact Wm].
Qed.
