(* ===== verification/CryptoWorker.v ===== *)
(** * The crypto worker: [src/src/PQC/crypto_worker.c]

    The firmware's wrapper around the KEM, SHAKE256 and AES.  The KEM is used
    through the class [Crypto], its API of [api.h]; what the class promises to
    the clients is [CryptoLaws].  Buffers are passed by address, so the [NULL]
    tests on them have no counterpart. *)

From S2P Require Import Prelude Platform Aes Fips202.

(* src/extern/HQC-Round4/Additional_Implementation/hqc-128/src/api.h:11-11 CRYPTO_SECRETKEYBYTES *)
Definition CRYPTO_SECRETKEYBYTES : Z := 2289.
(* src/extern/HQC-Round4/Additional_Implementation/hqc-128/src/api.h:12-12 CRYPTO_PUBLICKEYBYTES *)
Definition CRYPTO_PUBLICKEYBYTES : Z := 2249.
(* src/extern/HQC-Round4/Additional_Implementation/hqc-128/src/api.h:13-13 CRYPTO_BYTES *)
Definition CRYPTO_BYTES : Z := 64.
(* src/extern/HQC-Round4/Additional_Implementation/hqc-128/src/api.h:14-14 CRYPTO_CIPHERTEXTBYTES *)
Definition CRYPTO_CIPHERTEXTBYTES : Z := 4481.

(* src/src/PQC/crypto_worker.h:11-11 CW_HQC_PUBLIC_KEY_LEN *)
Definition CW_HQC_PUBLIC_KEY_LEN : Z := CRYPTO_PUBLICKEYBYTES.
(* src/src/PQC/crypto_worker.h:12-12 CW_HQC_SECRET_KEY_LEN *)
Definition CW_HQC_SECRET_KEY_LEN : Z := CRYPTO_SECRETKEYBYTES.
(* src/src/PQC/crypto_worker.h:13-13 CW_HQC_CIPHERTEXT_LEN *)
Definition CW_HQC_CIPHERTEXT_LEN : Z := CRYPTO_CIPHERTEXTBYTES.
(* src/src/PQC/crypto_worker.h:14-14 CW_HQC_SHARED_LEN *)
Definition CW_HQC_SHARED_LEN : Z := CRYPTO_BYTES.
(* src/src/PQC/crypto_worker.h:15-15 CW_AES_KEY_LEN *)
Definition CW_AES_KEY_LEN : Z := AES_KEYLEN.
(* src/src/PQC/crypto_worker.h:16-16 CW_AES_IV_LEN *)
Definition CW_AES_IV_LEN : Z := AES_BLOCKLEN.

#[export] Hint Unfold CRYPTO_SECRETKEYBYTES CRYPTO_PUBLICKEYBYTES CRYPTO_BYTES
  CRYPTO_CIPHERTEXTBYTES CW_HQC_PUBLIC_KEY_LEN CW_HQC_SECRET_KEY_LEN CW_HQC_CIPHERTEXT_LEN
  CW_HQC_SHARED_LEN CW_AES_KEY_LEN CW_AES_IV_LEN : c_consts.

(** The KEM: its global random state, zero at boot, and the three functions of
    [api.h].  Each returns its result code and the contents of its output
    buffers. *)
Class Crypto := {
  prng_state : Type;
  prng_zero : prng_state;
  crypto_kem_keypair : prng_state -> Z * bytes * bytes * prng_state;
  crypto_kem_enc : prng_state -> bytes -> Z * bytes * bytes * prng_state;
  crypto_kem_dec : bytes -> bytes -> Z * bytes;
}.

(** The sizes of [api.h]. *)
Class CryptoLaws `{Crypto} := {
  kem_keypair_sizes : forall g rc pk sk g', crypto_kem_keypair g = (rc, pk, sk, g') ->
    Z.of_nat (length pk) = CRYPTO_PUBLICKEYBYTES /\ all_bytes pk /\
    Z.of_nat (length sk) = CRYPTO_SECRETKEYBYTES /\ all_bytes sk;
  kem_enc_sizes : forall g pk rc ct ss g', crypto_kem_enc g pk = (rc, ct, ss, g') ->
    Z.of_nat (length ct) = CRYPTO_CIPHERTEXTBYTES /\ all_bytes ct /\
    Z.of_nat (length ss) = CRYPTO_BYTES /\ all_bytes ss;
  kem_dec_sizes : forall ct sk rc ss, crypto_kem_dec ct sk = (rc, ss) ->
    Z.of_nat (length ss) = CRYPTO_BYTES /\ all_bytes ss;
}.

(** A KEM for the examples: the state counts calls, the secret is the count and
    travels in the first byte of the ciphertext. *)
Definition example_crypto : Crypto := {|
  prng_state := Z;
  prng_zero := 0;
  crypto_kem_keypair := fun g => (0, replicate 2249 (u8 g), replicate 2289 (u8 g), g + 1);
  crypto_kem_enc := fun g pk => (0, u8 g :: zeros 4480, replicate 64 (u8 g), g + 1);
  crypto_kem_dec := fun ct sk => (0, replicate 64 (u8 (default 0 (cell ct 0))));
|}.
Lemma example_crypto_laws : @CryptoLaws example_crypto.
Proof.
  split.
  - intros g rc pk sk g' E.
    assert (pk = replicate 2249 (u8 g)) as -> by exact (eq_sym (f_equal (fun x => x.1.1.2) E)).
    assert (sk = replicate 2289 (u8 g)) as -> by exact (eq_sym (f_equal (fun x => x.1.2) E)).
    rewrite !length_replicate. split_and!; try reflexivity; apply all_bytes_replicate, u8_range.
  - intros g pk rc ct ss g' E.
    assert (ct = u8 g :: zeros 4480) as -> by exact (eq_sym (f_equal (fun x => x.1.1.2) E)).
    assert (ss = replicate 64 (u8 g)) as -> by exact (eq_sym (f_equal (fun x => x.1.2) E)).
    rewrite length_replicate, length_cons, length_zeros.
    split_and!; try reflexivity; [|apply all_bytes_replicate, u8_range].
    apply list.Forall_cons. split; [apply u8_range|apply all_bytes_zeros].
  - intros ct sk rc ss E.
    assert (ss = replicate 64 (u8 (default 0 (cell ct 0)))) as -> by exact (eq_sym (f_equal snd E)).
    rewrite length_replicate. split; [reflexivity|apply all_bytes_replicate, u8_range].
Qed.

Section Kem.
Context `{Platform} `{Crypto}.

(** The result and the contents of [pk] and [sk]. *)
(* src/src/PQC/crypto_worker.c:7-21 crypto_worker_keypair *)
Definition crypto_worker_keypair : M prng_state (bool * bytes * bytes) :=
  g ← get;
  let '(rc, pk, sk, g) := crypto_kem_keypair g in
  put g;;
  mret (rc =? 0, pk, sk).

(** The result and the contents of [ct] and [ss]. *)
(* src/src/PQC/crypto_worker.c:23-30 crypto_worker_encapsulate *)
Definition crypto_worker_encapsulate (pk : bytes) : M prng_state (bool * bytes * bytes) :=
  g ← get;
  let '(rc, ct, ss, g) := crypto_kem_enc g pk in
  put g;;
  mret (rc =? 0, ct, ss).

(** The result and the contents of [ss]. *)
(* src/src/PQC/crypto_worker.c:32-39 crypto_worker_decapsulate *)
Definition crypto_worker_decapsulate (sk ct : bytes) : bool * bytes :=
  let '(rc, ss) := crypto_kem_dec ct sk in (rc =? 0, ss).

End Kem.

(* src/src/PQC/crypto_worker.c:84-95 crypto_worker_secure_zero *)
Definition crypto_worker_secure_zero (ptr : bytes) (len : Z) : option bytes :=
  ofor (upto len) (fun i p => set_cell p i 0) ptr.

(* src/src/PQC/crypto_worker.c:41-48 crypto_worker_derive_aes_key *)
Definition crypto_worker_derive_aes_key (ss aes_key : bytes) : option bytes :=
  shake256 aes_key CW_AES_KEY_LEN ss CW_HQC_SHARED_LEN.

(** The local buffer [input] is filled before it is read. *)
(* src/src/PQC/crypto_worker.c:50-66 crypto_worker_derive_aes_iv *)
Definition crypto_worker_derive_aes_iv (ss : bytes) (counter : Z) (iv : bytes) : option bytes :=
  secret ← mem_read ss 0 CW_HQC_SHARED_LEN;
  input ← mem_write (zeros (CW_HQC_SHARED_LEN + 4)) 0 secret;
  input ← set_cell input (CW_HQC_SHARED_LEN + 0) (u8 (Z.shiftr counter 24));
  input ← set_cell input (CW_HQC_SHARED_LEN + 1) (u8 (Z.shiftr counter 16));
  input ← set_cell input (CW_HQC_SHARED_LEN + 2) (u8 (Z.shiftr counter 8));
  input ← set_cell input (CW_HQC_SHARED_LEN + 3) (u8 counter);
  iv ← shake256 iv CW_AES_IV_LEN input (CW_HQC_SHARED_LEN + 4);
  _ ← crypto_worker_secure_zero input (CW_HQC_SHARED_LEN + 4);
  Some iv.

(** The local context is filled by [AES_init_ctx_iv]. *)
(* src/src/PQC/crypto_worker.c:68-82 crypto_worker_aes_ctr_xcrypt *)
Definition crypto_worker_aes_ctr_xcrypt (key iv buf : bytes) (len : Z) : option bytes :=
  if len =? 0 then Some buf else
  ctx ← AES_init_ctx_iv aes_ctx_zero key iv;
  '(_, buf) ← AES_CTR_xcrypt_buffer ctx buf len;
  Some buf.

(** ** What they compute *)

(** The key and the counter block of a shared secret. *)
Definition aes_key_of (ss : bytes) : bytes :=
  default [] (crypto_worker_derive_aes_key ss (zeros CW_AES_KEY_LEN)).
Definition aes_iv_of (ss : bytes) (counter : Z) : bytes :=
  default [] (crypto_worker_derive_aes_iv ss counter (zeros CW_AES_IV_LEN)).

Definition is_secret (ss : bytes) : Prop :=
  Z.of_nat (length ss) = CW_HQC_SHARED_LEN /\ all_bytes ss.
Definition is_aes_key (k : bytes) : Prop := Z.of_nat (length k) = CW_AES_KEY_LEN /\ all_bytes k.

Lemma mem_write_whole l src :
  length l = length src -> mem_write l 0 src = Some src.
Proof.
  intros Hl. rewrite mem_write_total by lia. simpl. rewrite skipn_all2, app_nil_r by lia. reflexivity.
Qed.

Lemma secure_zero_eq l n :
  n = Z.of_nat (length l) -> crypto_worker_secure_zero l n = Some (zeros n).
Proof.
  intros ->. unfold crypto_worker_secure_zero.
  rewrite (ofor_writes (fun _ => [0]) 1 _ _ l 0); [|lia..|reflexivity|].
  - rewrite concat_singletons. rewrite mem_write_whole by (rewrite length_fmap, length_upto; lia).
    f_equal. unfold zeros. apply list_eq. intros k. rewrite list_lookup_fmap.
    destruct (Nat.lt_ge_cases k (length l)) as [Hk|Hk].
    + rewrite lookup_replicate_2 by lia.
      destruct (lookup_lt_is_Some_2 (upto (Z.of_nat (length l))) k) as [v ->];
        [rewrite length_upto; lia|reflexivity].
    + rewrite !lookup_ge_None_2 by (rewrite ?length_replicate, ?length_upto; lia). reflexivity.
  - intros i h Hi Hh. rewrite set_cell_mem_write. f_equal. lia.
Qed.

Lemma derive_aes_key_eq ss key :
  is_secret ss -> Z.of_nat (length key) = CW_AES_KEY_LEN ->
  crypto_worker_derive_aes_key ss key = Some (aes_key_of ss) /\ is_aes_key (aes_key_of ss).
Proof.
  intros [Hsl Hsb] Hk. unfold aes_key_of, crypto_worker_derive_aes_key.
  destruct (shake256_eq ss CW_HQC_SHARED_LEN CW_AES_KEY_LEN) as (out & Hol & Hob & Heq);
    [rewrite Hsl; clia|clia|].
  rewrite !Heq by (rewrite ?Hk, ?length_zeros; clia).
  rewrite !mem_write_whole by (rewrite ?length_zeros; clia). split; [reflexivity|].
  split; [simpl; clia|exact Hob].
Qed.

(** The 68 bytes hashed into a counter block. *)
Definition iv_input (ss : bytes) (counter : Z) : bytes :=
  ss ++ [u8 (Z.shiftr counter 24); u8 (Z.shiftr counter 16); u8 (Z.shiftr counter 8); u8 counter].

Lemma derive_aes_iv_input ss counter iv :
  Z.of_nat (length ss) = CW_HQC_SHARED_LEN -> Z.of_nat (length iv) = CW_AES_IV_LEN ->
  crypto_worker_derive_aes_iv ss counter iv = shake256 iv CW_AES_IV_LEN (iv_input ss counter) 68.
Proof.
  intros Hs Hi. autounfold with c_consts in *. unfold crypto_worker_derive_aes_iv.
  autounfold with c_consts. rewrite mem_read_all by lia. opt_simpl.
  rewrite mem_write_total by (rewrite ?length_zeros; lia). opt_simpl.
  replace (take (Z.to_nat 0) (zeros (64 + 4)) ++ ss ++ drop (Z.to_nat 0 + length ss) (zeros (64 + 4)))
    with (ss ++ [0; 0; 0; 0])
    by (replace (Z.to_nat 0 + length ss)%nat with 64%nat by lia; reflexivity).
  assert (Hset : forall k v (l : bytes), (k < length l)%nat ->
    set_cell (ss ++ l) (64 + Z.of_nat k) v = Some (ss ++ <[k := v]> l))
    by (intros; rewrite <- Hs; apply set_cell_app; assumption).
  rewrite (Hset 0%nat) by (simpl; lia). opt_simpl. rewrite (Hset 1%nat) by (simpl; lia). opt_simpl.
  rewrite (Hset 2%nat) by (simpl; lia). opt_simpl. rewrite (Hset 3%nat) by (simpl; lia). opt_simpl.
  cbn [insert list_insert]. fold (iv_input ss counter).
  change (64 + 4) with 68. destruct (shake256 iv 16 (iv_input ss counter) 68); [|reflexivity].
  opt_simpl. rewrite secure_zero_eq; [reflexivity|]. unfold iv_input. rewrite length_app. simpl length. lia.
Qed.

Lemma derive_aes_iv_eq ss counter iv :
  is_secret ss -> Z.of_nat (length iv) = CW_AES_IV_LEN ->
  crypto_worker_derive_aes_iv ss counter iv = Some (aes_iv_of ss counter) /\
  is_block (aes_iv_of ss counter).
Proof.
  intros [Hsl Hsb] Hi. unfold aes_iv_of.
  rewrite !derive_aes_iv_input by (assumption || reflexivity).
  destruct (shake256_eq (iv_input ss counter) 68 CW_AES_IV_LEN) as (out & Hol & Hob & Heq).
  { unfold iv_input. rewrite length_app. simpl length. clia. }
  { clia. }
  rewrite !Heq by (rewrite ?length_zeros; clia).
  rewrite !mem_write_whole by (rewrite ?length_zeros; clia). split; [reflexivity|].
  split; [simpl; clia|exact Hob].
Qed.

(** Encryption under a key and counter block: total and its own inverse. *)
Lemma xcrypt_twice key iv buf len :
  is_aes_key key -> is_block iv -> 0 <= len <= Z.of_nat (length buf) ->
  exists buf', crypto_worker_aes_ctr_xcrypt key iv buf len = Some buf' /\
    length buf' = length buf /\ crypto_worker_aes_ctr_xcrypt key iv buf' len = Some buf.
Proof.
  intros [Hkl Hkb] Hiv Hl. unfold crypto_worker_aes_ctr_xcrypt.
  destruct (Z.eqb_spec len 0); [eauto|].
  destruct (init_ctx_iv_total aes_ctx_zero key iv zero_round_key Hkl Hkb Hiv)
    as (ctx & -> & Hrk & Heq). opt_simpl. rewrite <- Heq in Hiv.
  destruct (ctr_xcrypt_twice ctx buf len Hiv Hrk Hl) as (c1 & c2 & b' & H1 & Hlen & H2).
  exists b'. rewrite H1, H2. auto.
Qed.
