(* ===== verification/Code.v ===== *)
(** * The concatenated code: [code.c]

    A message of 16 bytes becomes 46 bytes by the Reed-Solomon code and each of these
    384 bits by the duplicated Reed-Muller code.  Decoding inverts both, and brings the
    message back as long as the errors of at most 15 of the 46 blocks are harmful to the
    Reed-Muller code. *)

From S2P Require Import Prelude Carryless Words Gf GfRing Gf2x Vector ReedMuller RmDistance ReedSolomon RsDecode RsTotal.

(* src/extern/HQC-Round4/Additional_Implementation/hqc-128/src/code.c:28-32 code_encode *)
Definition code_encode (em m : words) : option words :=
  let tmp := zeros VEC_N1_SIZE_64 in
  tmp ← reed_solomon_encode tmp m;
  reed_muller_encode em tmp.

(* src/extern/HQC-Round4/Additional_Implementation/hqc-128/src/code.c:48-52 code_decode *)
Definition code_decode (m em : words) : option words :=
  let tmp := zeros VEC_N1_SIZE_64 in
  tmp ← reed_muller_decode tmp em;
  reed_solomon_decode m tmp.

(** ** Facts *)

Lemma words_wf_zeros n : words_wf (zeros n).
Proof. apply Forall_replicate, width_0. lia. Qed.
#[export] Hint Resolve words_wf_zeros : core.

(** The blocks whose errors bring them no nearer to what was sent than to another code word. *)
Definition bad_blocks (p q : Z) : nat := length (filter (fun i => ~ nearest 0 (Z.lxor p q) (Z.of_nat i)) (seq 0 46)).

Lemma filter_length_le {A} (P Q : A -> Prop) `{!forall x, Decision (P x)} `{!forall x, Decision (Q x)} l :
  (forall x, x ∈ l -> P x -> Q x) -> (length (filter P l) <= length (filter Q l))%nat.
Proof.
  induction l as [|x l IH]; intros Hpq; [reflexivity|]. rewrite !filter_cons.
  specialize (IH (fun y Hy => Hpq y (list_elem_of_further _ _ _ Hy))). pose proof (Hpq x (list_elem_of_here _ _)).
  repeat case_decide; cbn [length]; (lia || tauto).
Qed.

(** A good block gives the right byte. *)
Lemma wrong_bytes_blocks a b p q :
  (forall i, 0 <= i < 46 -> nearest 0 (Z.lxor p q) i -> b !! Z.to_nat i = a !! Z.to_nat i) -> (wrong_bytes a b <= bad_blocks p q)%nat.
Proof.
  intros H. apply filter_length_le. intros i Hi Hne Hn. apply elem_of_seq in Hi. destruct Hne. symmetry.
  specialize (H (Z.of_nat i) ltac:(lia) Hn). rewrite Nat2Z.id in H. exact H.
Qed.

(** A block with at most 95 wrong bits is good. *)
Lemma bad_blocks_wrong_bits p q : (bad_blocks p q <= length (filter (fun i => (95 < wrong_bits p q (Z.of_nat i))%Z) (seq 0 46)))%nat.
Proof.
  apply filter_length_le. intros i _ Hn. apply Z.lt_nge. intros Hle. apply Hn, few_errors. rewrite <- wrong_bits_distance. exact Hle.
Qed.

(** [code] carries [m]: its blocks are the bytes of a Reed-Solomon word with [m] in it. *)
Definition carries (code m : words) : Prop := exists d parity, is_rm_code code d /\ length d = 6%nat /\ length parity = 30%nat /\
  take 46 (as_bytes d) = gfs parity ++ as_bytes m /\ is_codeword (parity ++ (of_byte <$> as_bytes m)).

Lemma code_encode_eq em m : length em = 276%nat -> words_wf em -> length m = 2%nat ->
  exists code, code_encode em m = Some code /\ length code = 276%nat /\ words_wf code /\ carries code m.
Proof.
  intros Le We Lm. unfold code_encode. change VEC_N1_SIZE_64 with 6.
  destruct (reed_solomon_encode_eq (zeros 6) m eq_refl Lm (words_wf_zeros 6)) as (d & parity & -> & Ld & Wd & Eb & Lp & Hcw). rewrite some_bind.
  destruct (reed_muller_encode_eq em d Le Ld We Wd) as (code & -> & Lc & Wc & Hbits). exists code. split_and!; [reflexivity|exact Lc|exact Wc|].
  exists d, parity. split_and!; [exact Hbits|exact Ld|exact Lp|exact (encoded_take d parity m _ Lp Lm Eb)|exact Hcw].
Qed.

Lemma code_decode_eq code m received out : carries code m -> length m = 2%nat -> words_wf m -> (276 <= length received)%nat -> words_wf received ->
  length out = 2%nat -> words_wf out -> (bad_blocks (poly code) (poly received) <= 15)%nat -> code_decode out received = Some m.
Proof.
  intros (d & parity & Hrm & Ld & Lp & Eb & Hcw) Lm Wm Lr Wr Lo Wo Hbad. unfold code_decode. change VEC_N1_SIZE_64 with 6.
  destruct (reed_muller_decode_eq received (zeros 6) Lr Wr eq_refl (words_wf_zeros 6)) as (tmp & -> & Lt & Wt & Hb). rewrite some_bind.
  apply (reed_solomon_decode_close d parity m tmp out Wm Lm Lo Wo Lt Lp Eb Hcw). etransitivity; [apply (wrong_bytes_blocks _ _ (poly code) (poly received))|exact Hbad].
  intros i Hi Hn. rewrite (Hb i Hi). destruct (lookup_lt_is_Some_2 (as_bytes d) (Z.to_nat i)) as [x Hx]; [rewrite length_as_bytes; lia|]. rewrite Hx.
  apply (sent_byte code d); assumption.
Qed.

(** Any word is decoded to something. *)
Lemma code_decode_total received out : (276 <= length received)%nat -> words_wf received -> length out = 2%nat -> words_wf out ->
  exists m, code_decode out received = Some m /\ length m = 2%nat /\ words_wf m.
Proof.
  intros Lr Wr Lo Wo. unfold code_decode. change VEC_N1_SIZE_64 with 6.
  destruct (reed_muller_decode_eq received (zeros 6) Lr Wr eq_refl (words_wf_zeros 6)) as (tmp & -> & Lt & _). rewrite some_bind.
  apply reed_solomon_decode_total; assumption.
Qed.

(** ** Properties *)

(** C26. The concatenated code corrects many errors: encoding a message stays inside its
    arrays, and a word is decoded to the message when in at least 31 of the 46 blocks of
    384 bits the errors are nearer to zero than to every other code word (95 wrong bits
    or less always are), whatever the other blocks hold. *)
Theorem code_corrects em m : length em = 276%nat -> words_wf em -> length m = 2%nat -> words_wf m ->
  exists code, code_encode em m = Some code /\ length code = 276%nat /\ words_wf code /\
    forall received out, (276 <= length received)%nat -> words_wf received -> length out = 2%nat -> words_wf out ->
      (bad_blocks (poly code) (poly received) <= 15)%nat -> code_decode out received = Some m.
Proof.
  intros Le We Lm Wm. destruct (code_encode_eq em m Le We Lm) as (code & E & Lc & Wc & Hcar). exists code. split_and!; [exact E|exact Lc|exact Wc|].
  intros received out Lr Wr Lo Wo. apply code_decode_eq; assumption.
Qed.

Lemma code_corrects_witness : exists code, code_encode (zeros 276) [0x1122334455667788; 0x99aabbccddeeff01] = Some code /\ length code = 276%nat /\ words_wf code /\
    forall received out, (276 <= length received)%nat -> words_wf received -> length out = 2%nat -> words_wf out ->
      (bad_blocks (poly code) (poly received) <= 15)%nat -> code_decode out received = Some [0x1122334455667788; 0x99aabbccddeeff01].
Proof. apply (code_corrects (zeros 276)); [reflexivity|apply words_wf_zeros|reflexivity|decided]. Defined.
