(* ===== verification/Hqc.v ===== *)
(** * The public key encryption of HQC: [hqc.c], [parsing.c]

    Keys and ciphertexts as strings of bytes, key generation, encryption and
    decryption.  Whatever the sampled vectors are, decrypting computes the code word
    of the message plus the noise [x r2 + r1 y + e], and gives the message when the
    concatenated code corrects that noise. *)

From S2P Require Import Prelude Carryless Words Fips202 Sponge Prng Gf Gf2x Vector RmDistance Cyclic ReedMuller CryptoWorker Code.

(* src/extern/HQC-Round4/Additional_Implementation/hqc-128/src/parameters.h:70-70 SECRET_KEY_BYTES *)
Definition SECRET_KEY_BYTES : Z := CRYPTO_SECRETKEYBYTES.
(* src/extern/HQC-Round4/Additional_Implementation/hqc-128/src/parameters.h:71-71 PUBLIC_KEY_BYTES *)
Definition PUBLIC_KEY_BYTES : Z := CRYPTO_PUBLICKEYBYTES.
(* src/extern/HQC-Round4/Additional_Implementation/hqc-128/src/parameters.h:72-72 SHARED_SECRET_BYTES *)
Definition SHARED_SECRET_BYTES : Z := CRYPTO_BYTES.
(* src/extern/HQC-Round4/Additional_Implementation/hqc-128/src/parameters.h:73-73 CIPHERTEXT_BYTES *)
Definition CIPHERTEXT_BYTES : Z := CRYPTO_CIPHERTEXTBYTES.
(* src/extern/HQC-Round4/Additional_Implementation/hqc-128/src/parameters.h:98-98 SHAKE256_512_BYTES *)
Definition SHAKE256_512_BYTES : Z := 64.
(* src/extern/HQC-Round4/Additional_Implementation/hqc-128/src/parameters.h:99-99 SEED_BYTES *)
Definition SEED_BYTES : Z := 40.

(** ** Keys and ciphertexts as strings *)

(* src/extern/HQC-Round4/Additional_Implementation/hqc-128/src/parsing.c:24-27 hqc_secret_key_to_string *)
Definition hqc_secret_key_to_string (sk sk_seed pk : bytes) : option bytes :=
  sk ← memcpy sk 0 sk_seed 0 SEED_BYTES;
  memcpy sk SEED_BYTES pk 0 PUBLIC_KEY_BYTES.

(** [fuel] bounds the candidates that the sampler draws for each vector. *)
(* src/extern/HQC-Round4/Additional_Implementation/hqc-128/src/parsing.c:42-52 hqc_secret_key_from_string *)
Definition hqc_secret_key_from_string (fuel : nat) (x y : words) (pk sk : bytes) : option (words * words * bytes) :=
  let sk_seed := zeros SEED_BYTES in
  sk_seed ← memcpy sk_seed 0 sk 0 SEED_BYTES;
  sk_seedexpander ← seedexpander_init sk_seed SEED_BYTES;
  '(x, sk_seedexpander) ← vect_set_random_fixed_weight fuel sk_seedexpander x PARAM_OMEGA;
  '(y, sk_seedexpander) ← vect_set_random_fixed_weight fuel sk_seedexpander y PARAM_OMEGA;
  pk ← memcpy pk 0 sk SEED_BYTES PUBLIC_KEY_BYTES;
  Some (x, y, pk).

(* src/extern/HQC-Round4/Additional_Implementation/hqc-128/src/parsing.c:65-68 hqc_public_key_to_string *)
Definition hqc_public_key_to_string (pk pk_seed : bytes) (s : words) : option bytes :=
  pk ← memcpy pk 0 pk_seed 0 SEED_BYTES;
  memcpy_from_words pk SEED_BYTES s VEC_N_SIZE_BYTES.

(* src/extern/HQC-Round4/Additional_Implementation/hqc-128/src/parsing.c:81-90 hqc_public_key_from_string *)
Definition hqc_public_key_from_string (h s : words) (pk : bytes) : option (words * words) :=
  let pk_seed := zeros SEED_BYTES in
  pk_seed ← memcpy pk_seed 0 pk 0 SEED_BYTES;
  pk_seedexpander ← seedexpander_init pk_seed SEED_BYTES;
  '(h, pk_seedexpander) ← vect_set_random pk_seedexpander h;
  piece ← mem_read pk SEED_BYTES VEC_N_SIZE_BYTES;
  s ← memcpy_to_words s 0 piece VEC_N_SIZE_BYTES;
  Some (h, s).

(* src/extern/HQC-Round4/Additional_Implementation/hqc-128/src/parsing.c:104-108 hqc_ciphertext_to_string *)
Definition hqc_ciphertext_to_string (ct : bytes) (u v : words) (d : bytes) : option bytes :=
  ct ← memcpy_from_words ct 0 u VEC_N_SIZE_BYTES;
  ct ← memcpy_from_words ct VEC_N_SIZE_BYTES v VEC_N1N2_SIZE_BYTES;
  memcpy ct (VEC_N_SIZE_BYTES + VEC_N1N2_SIZE_BYTES) d 0 SHAKE256_512_BYTES.

(* src/extern/HQC-Round4/Additional_Implementation/hqc-128/src/parsing.c:122-126 hqc_ciphertext_from_string *)
Definition hqc_ciphertext_from_string (u v : words) (d ct : bytes) : option (words * words * bytes) :=
  piece ← mem_read ct 0 VEC_N_SIZE_BYTES;
  u ← memcpy_to_words u 0 piece VEC_N_SIZE_BYTES;
  piece ← mem_read ct VEC_N_SIZE_BYTES VEC_N1N2_SIZE_BYTES;
  v ← memcpy_to_words v 0 piece VEC_N1N2_SIZE_BYTES;
  d ← memcpy d 0 ct (VEC_N_SIZE_BYTES + VEC_N1N2_SIZE_BYTES) SHAKE256_512_BYTES;
  Some (u, v, d).

(** ** Key generation, encryption, decryption *)

(** The keys and the next state of the generator. *)
(* src/extern/HQC-Round4/Additional_Implementation/hqc-128/src/hqc.c:30-58 hqc_pke_keygen *)
Definition hqc_pke_keygen (fuel : nat) (shake_prng_state : list Z) (pk sk : bytes) : option (bytes * bytes * list Z) :=
  let sk_seed := zeros SEED_BYTES in
  let pk_seed := zeros SEED_BYTES in
  let x := zeros VEC_N_SIZE_64 in
  let y := zeros VEC_N_SIZE_64 in
  let h := zeros VEC_N_SIZE_64 in
  let s := zeros VEC_N_SIZE_64 in
  '(sk_seed, shake_prng_state) ← shake_prng shake_prng_state sk_seed SEED_BYTES;
  sk_seedexpander ← seedexpander_init sk_seed SEED_BYTES;
  '(pk_seed, shake_prng_state) ← shake_prng shake_prng_state pk_seed SEED_BYTES;
  pk_seedexpander ← seedexpander_init pk_seed SEED_BYTES;
  '(x, sk_seedexpander) ← vect_set_random_fixed_weight fuel sk_seedexpander x PARAM_OMEGA;
  '(y, sk_seedexpander) ← vect_set_random_fixed_weight fuel sk_seedexpander y PARAM_OMEGA;
  '(h, pk_seedexpander) ← vect_set_random pk_seedexpander h;
  s ← vect_mul s y h;
  s ← vect_add s x s VEC_N_SIZE_64;
  pk ← hqc_public_key_to_string pk pk_seed s;
  sk ← hqc_secret_key_to_string sk sk_seed pk;
  Some (pk, sk, shake_prng_state).

(* src/extern/HQC-Round4/Additional_Implementation/hqc-128/src/hqc.c:87-120 hqc_pke_encrypt *)
Definition hqc_pke_encrypt (fuel : nat) (u v m : words) (theta pk : bytes) : option (words * words) :=
  let h := zeros VEC_N_SIZE_64 in
  let s := zeros VEC_N_SIZE_64 in
  let r1 := zeros VEC_N_SIZE_64 in
  let r2 := zeros VEC_N_SIZE_64 in
  let e := zeros VEC_N_SIZE_64 in
  let tmp1 := zeros VEC_N_SIZE_64 in
  let tmp2 := zeros VEC_N_SIZE_64 in
  ctx ← seedexpander_init theta SEED_BYTES;
  '(h, s) ← hqc_public_key_from_string h s pk;
  '(r1, ctx) ← vect_set_random_fixed_weight fuel ctx r1 PARAM_OMEGA_R;
  '(r2, ctx) ← vect_set_random_fixed_weight fuel ctx r2 PARAM_OMEGA_R;
  '(e, ctx) ← vect_set_random_fixed_weight fuel ctx e PARAM_OMEGA_E;
  u ← vect_mul u r2 h;
  u ← vect_add u r1 u VEC_N_SIZE_64;
  v ← code_encode v m;
  tmp1 ← vect_resize tmp1 PARAM_N v PARAM_N1N2;
  tmp2 ← vect_mul tmp2 r2 s;
  tmp2 ← vect_add tmp2 e tmp2 VEC_N_SIZE_64;
  tmp2 ← vect_add tmp2 tmp1 tmp2 VEC_N_SIZE_64;
  v ← vect_resize v PARAM_N1N2 tmp2 PARAM_N;
  Some (u, v).

(* src/extern/HQC-Round4/Additional_Implementation/hqc-128/src/hqc.c:145-169 hqc_pke_decrypt *)
Definition hqc_pke_decrypt (fuel : nat) (m u v : words) (sk : bytes) : option words :=
  let x := zeros VEC_N_SIZE_64 in
  let y := zeros VEC_N_SIZE_64 in
  let pk := zeros PUBLIC_KEY_BYTES in
  let tmp1 := zeros VEC_N_SIZE_64 in
  let tmp2 := zeros VEC_N_SIZE_64 in
  '(x, y, pk) ← hqc_secret_key_from_string fuel x y pk sk;
  tmp1 ← vect_resize tmp1 PARAM_N v PARAM_N1N2;
  tmp2 ← vect_mul tmp2 y u;
  tmp2 ← vect_add tmp2 tmp1 tmp2 VEC_N_SIZE_64;
  code_decode m tmp2.

(** ** The vectors of a key and of an encryption *)

(** The vectors [x] and [y] of a seed. *)
Definition secret_vectors (fuel : nat) (sk_seed : bytes) : option (words * words) :=
  ctx ← seedexpander_init sk_seed SEED_BYTES;
  '(x, ctx) ← vect_set_random_fixed_weight fuel ctx (zeros VEC_N_SIZE_64) PARAM_OMEGA;
  '(y, ctx) ← vect_set_random_fixed_weight fuel ctx (zeros VEC_N_SIZE_64) PARAM_OMEGA;
  Some (x, y).

(** The vectors [r1], [r2] and [e] of a seed. *)
Definition encryption_vectors (fuel : nat) (theta : bytes) : option (words * words * words) :=
  ctx ← seedexpander_init theta SEED_BYTES;
  '(r1, ctx) ← vect_set_random_fixed_weight fuel ctx (zeros VEC_N_SIZE_64) PARAM_OMEGA_R;
  '(r2, ctx) ← vect_set_random_fixed_weight fuel ctx (zeros VEC_N_SIZE_64) PARAM_OMEGA_R;
  '(e, ctx) ← vect_set_random_fixed_weight fuel ctx (zeros VEC_N_SIZE_64) PARAM_OMEGA_E;
  Some (r1, r2, e).

Lemma secret_vectors_sparse fuel seed x y : all_bytes seed -> SEED_BYTES <= Z.of_nat (length seed) ->
  secret_vectors fuel seed = Some (x, y) -> sparse PARAM_OMEGA x /\ sparse PARAM_OMEGA y.
Proof.
  intros Hb Hl. unfold secret_vectors. destruct (seedexpander_init_total seed SEED_BYTES Hb) as (ctx & -> & Hctx); [split; [decided|exact Hl]|]. rewrite some_bind.
  destruct (vect_set_random_fixed_weight _ ctx _ _) as [[x1 c1]|] eqn:E1; [rewrite some_bind; cbv beta iota|discriminate].
  apply fixed_weight_vector in E1 as [Hc1 Hx]; [|decided|exact Hctx].
  destruct (vect_set_random_fixed_weight _ c1 _ _) as [[y1 c2]|] eqn:E2; [rewrite some_bind; cbv beta iota|discriminate].
  apply fixed_weight_vector in E2 as [_ Hy]; [|decided|exact Hc1]. intros [= <- <-]. auto.
Qed.

Lemma encryption_vectors_sparse fuel theta r1 r2 e : all_bytes theta -> SEED_BYTES <= Z.of_nat (length theta) ->
  encryption_vectors fuel theta = Some (r1, r2, e) -> sparse PARAM_OMEGA_R r1 /\ sparse PARAM_OMEGA_R r2 /\ sparse PARAM_OMEGA_E e.
Proof.
  intros Hb Hl. unfold encryption_vectors. destruct (seedexpander_init_total theta SEED_BYTES Hb) as (ctx & -> & Hctx); [split; [decided|exact Hl]|]. rewrite some_bind.
  destruct (vect_set_random_fixed_weight _ ctx _ _) as [[a1 c1]|] eqn:E1; [rewrite some_bind; cbv beta iota|discriminate].
  apply fixed_weight_vector in E1 as [Hc1 H1]; [|decided|exact Hctx].
  destruct (vect_set_random_fixed_weight _ c1 _ _) as [[a2 c2]|] eqn:E2; [rewrite some_bind; cbv beta iota|discriminate].
  apply fixed_weight_vector in E2 as [Hc2 H2]; [|decided|exact Hc1].
  destruct (vect_set_random_fixed_weight _ c2 _ _) as [[a3 c3]|] eqn:E3; [rewrite some_bind; cbv beta iota|discriminate].
  apply fixed_weight_vector in E3 as [_ H3]; [|decided|exact Hc2]. intros [= <- <- <-]. auto.
Qed.

(** ** Round trips of the strings *)

Lemma vector_last_word s : is_vector s -> exists a x, s = a ++ [x] /\ length a = 276%nat /\ 0 <= x < 32.
Proof.
  intros (L & W & [_ R]). destruct s as [|x a _] using rev_ind; [discriminate|]. rewrite length_app in L. cbn [length] in L. exists a, x.
  split; [reflexivity|]. split; [lia|]. assert (La : length a = 276%nat) by lia. pose proof W as Wx. apply Forall_app in W as [Wa Wx1]. inversion Wx1 as [|? ? Hx _]; subst.
  assert (E : Z.shiftr (poly (a ++ [x])) (64 * 276) = x).
  { rewrite poly_app, La, Z.shiftr_lxor, Z.shiftr_shiftl_l, Z.sub_diag, Z.shiftl_0_r by lia.
    rewrite (Z.shiftr_div_pow2 (poly a)), Z.div_small, Z.lxor_0_l by (try (pose proof (poly_width a Wa) as H; rewrite La in H; exact H); lia).
    cbn [pack]. rewrite Z.shiftl_0_l. apply Z.lxor_0_r. }
  split; [apply Hx|]. rewrite <- E, Z.shiftr_div_pow2 by lia. apply Z.div_lt_upper_bound; [apply Z.pow_pos_nonneg; lia|].
  replace (2 ^ (64 * 276) * 32) with (2 ^ PARAM_N); [exact R|]. change 32 with (2 ^ 5). rewrite <- Z.pow_add_r by lia. reflexivity.
Qed.

(** The bytes after the first 2209 are zero. *)
Lemma vector_tail s : is_vector s -> drop (Z.to_nat VEC_N_SIZE_BYTES) (as_bytes s) = zeros 7.
Proof.
  intros Hs. destruct (vector_last_word s Hs) as (a & x & -> & La & Hx). rewrite as_bytes_app, drop_app_ge; rewrite length_as_bytes, La; [|apply Nat.leb_le; reflexivity].
  change (Z.to_nat VEC_N_SIZE_BYTES - 8 * 276)%nat with 1%nat. unfold as_bytes, as_cells, unpack. change (upto 8) with [0; 1; 2; 3; 4; 5; 6; 7].
  cbn [fmap list_fmap concat app drop]. rewrite !Z.shiftr_div_pow2, !Z.div_small by lia. reflexivity.
Qed.

(** Reading back the bytes of a vector. *)
Lemma vector_back s : is_vector s -> memcpy_to_words (zeros VEC_N_SIZE_64) 0 (take (Z.to_nat VEC_N_SIZE_BYTES) (as_bytes s)) VEC_N_SIZE_BYTES = Some s.
Proof.
  intros Hs. pose proof (vector_tail s Hs) as Et. destruct Hs as (L & W & _).
  apply memcpy_words_back; [apply words_wf_zeros|exact W|decided|rewrite L; decided|exact (eq_sym L)|rewrite Et; reflexivity].
Qed.

Lemma length_vector_bytes s : length s = 277%nat -> length (take (Z.to_nat VEC_N_SIZE_BYTES) (as_bytes s)) = 2209%nat.
Proof. intros L. rewrite length_take, length_as_bytes, L. reflexivity. Qed.

(** The strings that the writers leave, whatever the buffers held. *)
Lemma public_key_to_string_eq pk pk_seed s : length pk = 2249%nat -> length pk_seed = 40%nat -> length s = 277%nat ->
  hqc_public_key_to_string pk pk_seed s = Some (pk_seed ++ take (Z.to_nat VEC_N_SIZE_BYTES) (as_bytes s)).
Proof.
  intros Lp Ls Lv. unfold hqc_public_key_to_string. rewrite memcpy_eq, some_bind by (rewrite ?Lp, ?Ls; decided). change (Z.to_nat 0) with 0%nat.
  change (Z.to_nat (0 + SEED_BYTES)) with 40%nat. change (Z.to_nat SEED_BYTES) with 40%nat. rewrite take_0, drop_0, (take_ge pk_seed), app_nil_l by lia.
  rewrite memcpy_from_words_eq by (rewrite ?length_app, ?length_drop, ?Lp, ?Ls, ?Lv; decided). f_equal.
  change (Z.to_nat SEED_BYTES) with 40%nat. rewrite take_app_length' by exact (eq_sym Ls). f_equal.
  rewrite drop_ge, app_nil_r by (rewrite length_app, length_drop, Lp, Ls; apply Nat.leb_le; reflexivity). reflexivity.
Qed.

Lemma secret_key_to_string_eq sk sk_seed pk : length sk = 2289%nat -> length sk_seed = 40%nat -> length pk = 2249%nat ->
  hqc_secret_key_to_string sk sk_seed pk = Some (sk_seed ++ pk).
Proof.
  intros Lk Ls Lp. unfold hqc_secret_key_to_string. rewrite memcpy_eq, some_bind by (rewrite ?Lk, ?Ls; decided). change (Z.to_nat 0) with 0%nat.
  change (Z.to_nat (0 + SEED_BYTES)) with 40%nat. change (Z.to_nat SEED_BYTES) with 40%nat. rewrite take_0, drop_0, (take_ge sk_seed), app_nil_l by lia.
  rewrite memcpy_eq by (rewrite ?length_app, ?length_drop, ?Lk, ?Ls, ?Lp; decided). f_equal. change (Z.to_nat 0) with 0%nat.
  change (Z.to_nat SEED_BYTES) with 40%nat. rewrite take_app_length' by exact (eq_sym Ls). f_equal.
  rewrite drop_0, drop_ge, app_nil_r, take_ge by (rewrite ?length_app, ?length_drop, ?Lk, ?Ls, ?Lp; apply Nat.leb_le; reflexivity). reflexivity.
Qed.

Lemma ciphertext_to_string_eq ct u v d : length ct = 4481%nat -> length u = 277%nat -> length v = 276%nat -> length d = 64%nat ->
  hqc_ciphertext_to_string ct u v d = Some (take (Z.to_nat VEC_N_SIZE_BYTES) (as_bytes u) ++ as_bytes v ++ d).
Proof.
  intros Lc Lu Lv Ld. unfold hqc_ciphertext_to_string. pose proof (length_vector_bytes u Lu) as L1. assert (L2 : length (as_bytes v) = 2208%nat) by (rewrite length_as_bytes, Lv; reflexivity).
  rewrite memcpy_from_words_eq, some_bind by (rewrite ?Lc, ?Lu; decided). change (Z.to_nat 0) with 0%nat. rewrite take_0, app_nil_l.
  change (Z.to_nat (0 + VEC_N_SIZE_BYTES)) with 2209%nat. rewrite memcpy_from_words_eq, some_bind by (rewrite ?length_app, ?length_drop, ?L1, ?Lc, ?Lv; decided).
  rewrite take_app_length' by exact (eq_sym L1). rewrite (take_ge (as_bytes v)) by (rewrite L2; apply Nat.leb_le; reflexivity).
  change (Z.to_nat (VEC_N_SIZE_BYTES + VEC_N1N2_SIZE_BYTES)) with (2209 + 2208)%nat.
  rewrite (drop_app_ge _ _ (2209 + 2208)), L1, drop_drop by (rewrite L1; apply Nat.leb_le; reflexivity). replace (2209 + (2209 + 2208 - 2209))%nat with 4417%nat by reflexivity.
  rewrite memcpy_eq by (rewrite ?length_app, ?length_drop, ?L1, ?L2, ?Lc, ?Ld; decided). f_equal. change (Z.to_nat 0) with 0%nat. rewrite drop_0.
  change (Z.to_nat (VEC_N_SIZE_BYTES + VEC_N1N2_SIZE_BYTES)) with (2209 + 2208)%nat.
  rewrite (app_assoc (take _ _) (as_bytes v)), take_app_length' by (rewrite length_app, L1, L2; reflexivity). rewrite <- app_assoc. do 2 f_equal.
  rewrite take_ge, drop_ge, app_nil_r by (rewrite ?length_app, ?length_drop, ?L1, ?L2, ?Lc, ?Ld; apply Nat.leb_le; reflexivity). reflexivity.
Qed.

(** The readers, on strings with the parts in place. *)
Lemma secret_key_from_string_eq fuel pk0 sk_seed pk : length pk0 = 2249%nat -> length sk_seed = 40%nat -> length pk = 2249%nat ->
  hqc_secret_key_from_string fuel (zeros VEC_N_SIZE_64) (zeros VEC_N_SIZE_64) pk0 (sk_seed ++ pk) =
    '(x, y) ← secret_vectors fuel sk_seed; Some (x, y, pk).
Proof.
  intros L0 Ls Lp. unfold hqc_secret_key_from_string, secret_vectors. cbv zeta.
  rewrite (memcpy_eq (zeros SEED_BYTES)), some_bind by (rewrite ?length_app, ?Ls, ?Lp; decided). change (Z.to_nat 0) with 0%nat. change (drop (Z.to_nat (0 + SEED_BYTES)) (zeros SEED_BYTES)) with (@nil Z).
  change (Z.to_nat SEED_BYTES) with 40%nat. rewrite take_0, drop_0, app_nil_r, app_nil_l, take_app_length' by exact (eq_sym Ls).
  destruct (seedexpander_init _ _) as [ctx|]; [rewrite !some_bind|reflexivity].
  destruct (vect_set_random_fixed_weight _ ctx _ _) as [[x c1]|]; [rewrite !some_bind; cbv beta iota|reflexivity].
  destruct (vect_set_random_fixed_weight _ c1 _ _) as [[y c2]|]; [rewrite !some_bind; cbv beta iota|reflexivity].
  rewrite memcpy_eq, some_bind by (rewrite ?length_app, ?Ls, ?Lp, ?L0; decided). change (Z.to_nat 0) with 0%nat. change (Z.to_nat SEED_BYTES) with 40%nat.
  rewrite take_0, drop_app_length', take_ge, drop_ge, app_nil_r by (exact (eq_sym Ls) || (rewrite ?Lp, ?L0; apply Nat.leb_le; reflexivity)). reflexivity.
Qed.

Lemma public_key_read pk_seed rest : length pk_seed = 40%nat -> length rest = 2209%nat ->
  hqc_public_key_from_string (zeros VEC_N_SIZE_64) (zeros VEC_N_SIZE_64) (pk_seed ++ rest) =
    ctx ← seedexpander_init pk_seed SEED_BYTES; '(h, _) ← vect_set_random ctx (zeros VEC_N_SIZE_64);
    s ← memcpy_to_words (zeros VEC_N_SIZE_64) 0 rest VEC_N_SIZE_BYTES; Some (h, s).
Proof.
  intros Ls Lr. unfold hqc_public_key_from_string. cbv zeta.
  rewrite (memcpy_eq (zeros SEED_BYTES)), some_bind by (rewrite ?length_app, ?Ls, ?Lr; decided). change (Z.to_nat 0) with 0%nat. change (drop (Z.to_nat (0 + SEED_BYTES)) (zeros SEED_BYTES)) with (@nil Z).
  change (Z.to_nat SEED_BYTES) with 40%nat. rewrite take_0, drop_0, app_nil_r, app_nil_l, take_app_length' by exact (eq_sym Ls).
  destruct (seedexpander_init _ _) as [ctx|]; [rewrite !some_bind|reflexivity].
  destruct (vect_set_random ctx _) as [[h c]|]; [rewrite !some_bind; cbv beta iota|reflexivity].
  destruct (mem_read_total (pk_seed ++ rest) SEED_BYTES VEC_N_SIZE_BYTES) as (p & -> & _ & ->); [decided|decided|rewrite length_app, Ls, Lr; decided|]. rewrite some_bind.
  change (Z.to_nat SEED_BYTES) with 40%nat. rewrite drop_app_length', take_ge by (exact (eq_sym Ls) || (rewrite Lr; apply Nat.leb_le; reflexivity)). reflexivity.
Qed.

(** Any string of the right length is read. *)
Lemma public_key_from_string_total pk : length pk = 2249%nat -> all_bytes pk ->
  exists h s, hqc_public_key_from_string (zeros VEC_N_SIZE_64) (zeros VEC_N_SIZE_64) pk = Some (h, s) /\ is_vector h /\ is_array s.
Proof.
  intros Lp Hb. rewrite <- (take_drop 40 pk) in Hb |- *. apply Forall_app in Hb as [Hb1 Hb2].
  assert (L1 : length (take 40 pk) = 40%nat) by (rewrite length_take; lia). assert (L2 : length (drop 40 pk) = 2209%nat) by (rewrite length_drop; lia).
  rewrite public_key_read by assumption.
  destruct (seedexpander_init_total (take 40 pk) SEED_BYTES Hb1) as (ctx & -> & Hctx); [rewrite L1; split; decided|]. rewrite some_bind.
  destruct (vect_set_random_total ctx Hctx) as (h & c & _ & Hh & ->). rewrite some_bind. cbv beta iota.
  destruct (memcpy_to_words_eq (zeros VEC_N_SIZE_64) 0 (drop 40 pk) VEC_N_SIZE_BYTES) as (s & -> & Ls & Ws & _); [apply words_wf_zeros|exact Hb2|rewrite L2; decided|lia|decided|].
  rewrite some_bind. exists h, s. split; [reflexivity|]. split; [exact Hh|]. split; [exact Ls|exact Ws].
Qed.

(** The string of a public key is read back. *)
Lemma public_key_from_string_eq pk_seed s h ctx c : length pk_seed = 40%nat -> is_vector s -> seedexpander_init pk_seed SEED_BYTES = Some ctx ->
  vect_set_random ctx (zeros VEC_N_SIZE_64) = Some (h, c) ->
  hqc_public_key_from_string (zeros VEC_N_SIZE_64) (zeros VEC_N_SIZE_64) (pk_seed ++ take (Z.to_nat VEC_N_SIZE_BYTES) (as_bytes s)) = Some (h, s).
Proof.
  intros Ls Hs E1 E2. rewrite public_key_read by (exact Ls || apply length_vector_bytes, Hs). rewrite E1, some_bind, E2, some_bind. cbv beta iota.
  rewrite vector_back, some_bind by exact Hs. reflexivity.
Qed.

Lemma ciphertext_read bu bv d d0 : length bu = 2209%nat -> length bv = 2208%nat -> length d = 64%nat -> length d0 = 64%nat ->
  hqc_ciphertext_from_string (zeros VEC_N_SIZE_64) (zeros VEC_N1N2_SIZE_64) d0 (bu ++ bv ++ d) =
    u ← memcpy_to_words (zeros VEC_N_SIZE_64) 0 bu VEC_N_SIZE_BYTES; v ← memcpy_to_words (zeros VEC_N1N2_SIZE_64) 0 bv VEC_N1N2_SIZE_BYTES; Some (u, v, d).
Proof.
  intros Lu Lv Ld L0. unfold hqc_ciphertext_from_string. assert (Lc : length (bu ++ bv ++ d) = 4481%nat) by (rewrite !length_app, Lu, Lv, Ld; reflexivity).
  destruct (mem_read_total (bu ++ bv ++ d) 0 VEC_N_SIZE_BYTES) as (p & -> & _ & ->); [decided|decided|rewrite Lc; decided|]. rewrite some_bind.
  change (Z.to_nat 0) with 0%nat. rewrite drop_0. change (Z.to_nat VEC_N_SIZE_BYTES) with 2209%nat. rewrite take_app_length' by exact (eq_sym Lu).
  destruct (memcpy_to_words _ _ bu _) as [u|]; [rewrite !some_bind|reflexivity].
  destruct (mem_read_total (bu ++ bv ++ d) VEC_N_SIZE_BYTES VEC_N1N2_SIZE_BYTES) as (p & -> & _ & ->); [decided|decided|rewrite Lc; decided|]. rewrite some_bind.
  change (Z.to_nat VEC_N_SIZE_BYTES) with 2209%nat. change (Z.to_nat VEC_N1N2_SIZE_BYTES) with 2208%nat. rewrite drop_app_length' by exact (eq_sym Lu).
  rewrite take_app_length' by exact (eq_sym Lv). destruct (memcpy_to_words _ _ bv _) as [v|]; [rewrite !some_bind|reflexivity].
  rewrite memcpy_eq, some_bind by (rewrite ?Lc, ?L0; decided). change (Z.to_nat 0) with 0%nat. change (Z.to_nat (VEC_N_SIZE_BYTES + VEC_N1N2_SIZE_BYTES)) with (2209 + 2208)%nat.
  rewrite take_0, <- drop_drop, !drop_app_length', take_ge, (drop_ge d0), app_nil_r by
    (exact (eq_sym Lu) || exact (eq_sym Lv) || (rewrite ?Ld, ?L0; apply Nat.leb_le; reflexivity)). reflexivity.
Qed.

Lemma ciphertext_from_string_eq u v d d0 : is_vector u -> length v = 276%nat -> words_wf v -> length d = 64%nat -> length d0 = 64%nat ->
  hqc_ciphertext_from_string (zeros VEC_N_SIZE_64) (zeros VEC_N1N2_SIZE_64) d0 (take (Z.to_nat VEC_N_SIZE_BYTES) (as_bytes u) ++ as_bytes v ++ d) = Some (u, v, d).
Proof.
  intros Hu Lv Wv Ld L0. rewrite ciphertext_read by (first [apply length_vector_bytes, Hu|rewrite length_as_bytes, Lv; reflexivity|assumption]).
  rewrite vector_back, some_bind by exact Hu. change (memcpy_to_words (zeros VEC_N1N2_SIZE_64) 0 (as_bytes v) VEC_N1N2_SIZE_BYTES) with (memcpy_words (zeros VEC_N1N2_SIZE_64) v VEC_N1N2_SIZE_BYTES).
  rewrite (memcpy_words_eq _ v _ 276), some_bind by (first [apply words_wf_zeros|exact Wv|reflexivity|rewrite Lv; reflexivity|apply Nat.leb_le; reflexivity]).
  rewrite take_ge by lia. change (drop 276 (zeros VEC_N1N2_SIZE_64)) with (@nil Z). rewrite app_nil_r. reflexivity.
Qed.

(** Any string of the right length is read, and its parts make it up. *)
Lemma ciphertext_from_string_total ct d0 : length ct = 4481%nat -> all_bytes ct -> length d0 = 64%nat ->
  exists u v d, hqc_ciphertext_from_string (zeros VEC_N_SIZE_64) (zeros VEC_N1N2_SIZE_64) d0 ct = Some (u, v, d) /\ is_array u /\ length v = 276%nat /\ words_wf v /\
    length d = 64%nat /\ all_bytes d /\ ct = take (Z.to_nat VEC_N_SIZE_BYTES) (as_bytes u) ++ as_bytes v ++ d.
Proof.
  intros Lc Hb L0. set (bu := take 2209 ct). set (bv := take 2208 (drop 2209 ct)). set (d := drop 2208 (drop 2209 ct)).
  assert (Ec : ct = bu ++ bv ++ d) by (unfold bu, bv, d; rewrite !take_drop; reflexivity).
  assert (Lu : length bu = 2209%nat) by (unfold bu; rewrite length_take, Lc; reflexivity).
  assert (Lv : length bv = 2208%nat) by (unfold bv; rewrite length_take, length_drop, Lc; reflexivity).
  assert (Ld : length d = 64%nat) by (unfold d; rewrite !length_drop, Lc; reflexivity). rewrite Ec in Hb |- *. apply Forall_app in Hb as [Hu Hb]. apply Forall_app in Hb as [Hv Hd].
  rewrite ciphertext_read by assumption.
  destruct (memcpy_to_words_eq (zeros VEC_N_SIZE_64) 0 bu VEC_N_SIZE_BYTES) as (u & -> & Lu' & Wu & Eu); [apply words_wf_zeros|exact Hu|rewrite Lu; decided|lia|decided|].
  destruct (memcpy_to_words_eq (zeros VEC_N1N2_SIZE_64) 0 bv VEC_N1N2_SIZE_BYTES) as (v & -> & Lv' & Wv & Ev); [apply words_wf_zeros|exact Hv|rewrite Lv; decided|lia|decided|].
  rewrite !some_bind. exists u, v, d. split_and!; try assumption; [reflexivity|split; [exact Lu'|exact Wu]|]. change (Z.to_nat 0) with 0%nat in Eu, Ev. rewrite take_0, app_nil_l in Eu, Ev.
  change (Z.to_nat (0 + VEC_N1N2_SIZE_BYTES)) with 2208%nat in Ev. change (drop 2208 (as_bytes (zeros VEC_N1N2_SIZE_64))) with (@nil Z) in Ev.
  rewrite Eu, Ev, app_nil_r, (take_ge bu), (take_ge bv), take_app_length' by (rewrite ?Lu, ?Lv; (reflexivity || (apply Nat.leb_le; reflexivity))). reflexivity.
Qed.

(** ** Key generation *)

(** A key pair and the vectors it stands for. *)
Record key_pair (fuel : nat) (pk sk : bytes) (x y h s : words) : Prop := {
  kp_public : hqc_public_key_from_string (zeros VEC_N_SIZE_64) (zeros VEC_N_SIZE_64) pk = Some (h, s);
  kp_secret : forall pk0, length pk0 = 2249%nat ->
    hqc_secret_key_from_string fuel (zeros VEC_N_SIZE_64) (zeros VEC_N_SIZE_64) pk0 sk = Some (x, y, pk);
  kp_x : sparse PARAM_OMEGA x; kp_y : sparse PARAM_OMEGA y; kp_h : is_vector h; kp_s : is_vector s;
  kp_syndrome : poly s = Z.lxor (poly x) (cmul (poly y) (poly h));
  kp_pk : length pk = 2249%nat /\ all_bytes pk; kp_sk : length sk = 2289%nat /\ all_bytes sk; kp_tail : drop 40 sk = pk;
}.

(** The seeds that the generator gives. *)
Lemma shake_prng_seed g : expander g -> exists seed g', shake_prng g (zeros SEED_BYTES) SEED_BYTES = Some (seed, g') /\ length seed = 40%nat /\ all_bytes seed /\ expander g'.
Proof.
  intros Hg. destruct (squeeze_total g SEED_BYTES Hg) as (seed & g' & Hl & Hb & Hg' & E); [decided|]. exists seed, g'.
  unfold shake_prng. rewrite E by decided. change (drop (Z.to_nat SEED_BYTES) (zeros SEED_BYTES)) with (@nil Z). rewrite app_nil_r.
  split_and!; [reflexivity|change SEED_BYTES with 40 in Hl; lia|exact Hb|exact Hg'].
Qed.

(** The run of the key generator, up to the sampling of the secret vectors. *)
Lemma hqc_pke_keygen_eq fuel g pk0 sk0 : expander g -> length pk0 = 2249%nat -> length sk0 = 2289%nat ->
  exists sk_seed g1 g', shake_prng g (zeros SEED_BYTES) SEED_BYTES = Some (sk_seed, g1) /\ length sk_seed = 40%nat /\ expander g' /\
    match secret_vectors fuel sk_seed with
    | None => hqc_pke_keygen fuel g pk0 sk0 = None
    | Some (x, y) => exists pk sk h s, hqc_pke_keygen fuel g pk0 sk0 = Some (pk, sk, g') /\ take 40 sk = sk_seed /\ key_pair fuel pk sk x y h s
    end.
Proof.
  intros Hg Lp0 Lk0. destruct (shake_prng_seed g Hg) as (sk_seed & g1 & E1 & Ls & Bs & Hg1), (shake_prng_seed g1 Hg1) as (pk_seed & g2 & E2 & Lp & Bp & Hg2).
  exists sk_seed, g1, g2. split; [exact E1|]. split; [exact Ls|]. split; [exact Hg2|]. unfold hqc_pke_keygen. cbv zeta. rewrite E1, some_bind. cbv beta iota.
  pose proof (secret_vectors_sparse fuel sk_seed) as Hxy. pose proof (secret_key_from_string_eq fuel) as Hread. unfold secret_vectors in *.
  destruct (seedexpander_init_total sk_seed SEED_BYTES Bs) as (sctx & Es & Hsctx); [rewrite Ls; split; decided|].
  destruct (seedexpander_init_total pk_seed SEED_BYTES Bp) as (pctx & Ep & Hpctx); [rewrite Lp; split; decided|].
  rewrite Es, E2, !some_bind. cbv beta iota. rewrite Ep, some_bind.
  destruct (vect_set_random_fixed_weight fuel sctx _ _) as [[x c1]|] eqn:Ex; [rewrite !some_bind; cbv beta iota|reflexivity].
  destruct (vect_set_random_fixed_weight fuel c1 _ _) as [[y c2]|] eqn:Ey; [rewrite !some_bind; cbv beta iota|reflexivity].
  destruct (Hxy x y Bs) as [Hx Hy]; [rewrite Ls; decided|rewrite Es, some_bind, Ex, some_bind; cbv beta iota; rewrite Ey; reflexivity|].
  destruct (vect_set_random_total pctx Hpctx) as (h & c3 & _ & Hh & Eh). rewrite Eh, some_bind. cbv beta iota.
  destruct (vect_mul_eq (zeros VEC_N_SIZE_64) y h) as (s1 & -> & Hs1 & Hp1); [reflexivity|eauto|eauto|]. rewrite some_bind.
  destruct (vect_add_vector s1 x s1) as (s & -> & Hs & Hps); [apply Hs1|eauto|exact Hs1|]. rewrite some_bind.
  rewrite public_key_to_string_eq, some_bind by (exact Lp0 || exact Lp || apply Hs). set (pk := pk_seed ++ _).
  assert (Lpk : length pk = 2249%nat) by (unfold pk; rewrite length_app, Lp, (length_vector_bytes s) by apply Hs; reflexivity).
  assert (Bpk : all_bytes pk) by (apply Forall_app; split; [exact Bp|apply Forall_take, as_bytes_bytes]).
  rewrite secret_key_to_string_eq, some_bind by assumption. exists pk, (sk_seed ++ pk), h, s. split; [reflexivity|]. split; [apply take_app_length', eq_sym, Ls|]. constructor.
  - apply (public_key_from_string_eq pk_seed s h pctx c3); assumption.
  - intros pk1 L1. rewrite Hread, Es, some_bind, Ex, some_bind by assumption. cbv beta iota. rewrite Ey, some_bind. reflexivity.
  - exact Hx.
  - exact Hy.
  - exact Hh.
  - exact Hs.
  - rewrite Hps, Hp1. reflexivity.
  - split; assumption.
  - split; [rewrite length_app, Ls, Lpk; reflexivity|apply Forall_app; split; assumption].
  - apply drop_app_length', eq_sym, Ls.
Qed.

(** ** Encryption and decryption *)

Lemma poly_take l k : words_wf l -> poly (take k l) = poly l mod 2 ^ (64 * Z.of_nat k).
Proof.
  intros Hw. destruct (Nat.le_gt_cases (length l) k) as [Hle|Hgt].
  - rewrite take_ge by exact Hle. symmetry. apply Z.mod_small. apply (width_mono (64 * Z.of_nat (length l))); [lia|apply poly_width, Hw].
  - rewrite <- (take_drop k l) at 2. rewrite poly_app, length_take, Nat.min_l, lxor_mod_pow2 by lia.
    rewrite Z.shiftl_mul_pow2, Z.mod_mul, Z.lxor_0_r by lia. symmetry. apply Z.mod_small.
    pose proof (poly_width (take k l) (Forall_take _ _ _ Hw)) as H. rewrite length_take, Nat.min_l in H by lia. exact H.
Qed.

(** An array of the 17664 bits of a code word, made a vector. *)
Lemma resized_vector v : length v = 276%nat -> words_wf v -> exists t, vect_resize (zeros VEC_N_SIZE_64) PARAM_N v PARAM_N1N2 = Some t /\ is_vector t /\ poly t = poly v.
Proof.
  intros Lv Wv. rewrite vect_resize_up by (first [reflexivity|exact Lv|apply words_wf_zeros|exact Wv]). change (drop 276 (zeros VEC_N_SIZE_64)) with [0].
  exists (v ++ [0]). split; [reflexivity|]. split; [apply is_vector_masked; [exact Lv|exact Wv|apply width_0; lia]|].
  rewrite poly_app. change (poly [0]) with 0. rewrite Z.shiftl_0_l. apply Z.lxor_0_r.
Qed.

Lemma hqc_pke_encrypt_eq fuel u0 v0 m theta pk h s : length u0 = 277%nat -> length v0 = 276%nat -> words_wf v0 -> length m = 2%nat ->
  all_bytes theta -> SEED_BYTES <= Z.of_nat (length theta) ->
  hqc_public_key_from_string (zeros VEC_N_SIZE_64) (zeros VEC_N_SIZE_64) pk = Some (h, s) -> is_vector h -> is_array s ->
  match encryption_vectors fuel theta with
  | None => hqc_pke_encrypt fuel u0 v0 m theta pk = None
  | Some (r1, r2, e) => sparse PARAM_OMEGA_R r1 /\ sparse PARAM_OMEGA_R r2 /\ sparse PARAM_OMEGA_E e /\
      exists code u v, hqc_pke_encrypt fuel u0 v0 m theta pk = Some (u, v) /\ carries code m /\ words_wf code /\ is_vector u /\ length v = 276%nat /\ words_wf v /\
        poly u = Z.lxor (poly r1) (cmul (poly r2) (poly h)) /\
        poly v = Z.lxor (poly code) (Z.lxor (poly e) (cmul (poly r2) (poly s))) mod 2 ^ PARAM_N1N2
  end.
Proof.
  intros Lu Lv Wv Lm Bt Lt Epk Hh Hs. unfold hqc_pke_encrypt. cbv zeta. pose proof (encryption_vectors_sparse fuel theta) as Hsp. unfold encryption_vectors in *.
  destruct (seedexpander_init_total theta SEED_BYTES Bt) as (ctx & Ec & _); [split; [decided|exact Lt]|]. rewrite Ec, Epk, !some_bind. cbv beta iota.
  destruct (vect_set_random_fixed_weight fuel ctx _ _) as [[r1 c1]|] eqn:E1; [rewrite !some_bind; cbv beta iota|reflexivity].
  destruct (vect_set_random_fixed_weight fuel c1 _ _) as [[r2 c2]|] eqn:E2; [rewrite !some_bind; cbv beta iota|reflexivity].
  destruct (vect_set_random_fixed_weight fuel c2 _ _) as [[e c3]|] eqn:E3; [rewrite !some_bind; cbv beta iota|reflexivity].
  destruct (Hsp r1 r2 e Bt Lt) as (H1 & H2 & H3); [rewrite Ec, some_bind, E1, some_bind; cbv beta iota; rewrite E2, some_bind; cbv beta iota; rewrite E3; reflexivity|].
  split; [exact H1|]. split; [exact H2|]. split; [exact H3|].
  destruct (vect_mul_eq u0 r2 h Lu) as (u1 & -> & Hu1 & Pu1); [eauto|eauto|]. rewrite some_bind.
  destruct (vect_add_vector u1 r1 u1) as (u & -> & Hu & Pu); [apply Hu1|eauto|exact Hu1|]. rewrite some_bind.
  destruct (code_encode_eq v0 m Lv Wv Lm) as (code & -> & Lc & Wc & Hcar). rewrite some_bind.
  destruct (resized_vector code Lc Wc) as (t1 & -> & Ht1 & Pt1). rewrite some_bind.
  destruct (vect_mul_eq (zeros VEC_N_SIZE_64) r2 s) as (t2 & -> & Ht2 & Pt2); [reflexivity|eauto|exact Hs|]. rewrite some_bind.
  destruct (vect_add_vector t2 e t2) as (t3 & -> & Ht3 & Pt3); [apply Ht2|eauto|exact Ht2|]. rewrite some_bind.
  destruct (vect_add_vector t3 t1 t3) as (t4 & -> & Ht4 & Pt4); [apply Ht3|exact Ht1|exact Ht3|]. rewrite some_bind.
  destruct Ht4 as (L4 & W4 & _). rewrite vect_resize_down, some_bind by (first [exact Lc|exact Wc|exact W4|rewrite L4; apply Nat.leb_le; reflexivity]).
  exists code, u, (take 276 t4). split_and!; try assumption; [reflexivity|rewrite length_take, L4; reflexivity|apply Forall_take, W4|rewrite Pu, Pu1; reflexivity|].
  rewrite poly_take, Pt4, Pt1, Pt3, Pt2 by exact W4. reflexivity.
Qed.

(** Decryption, for any string of a secret key that gives [y] and any [u] and [v]. *)
Lemma hqc_pke_decrypt_eq fuel m0 u v sk x y pk : is_array u -> length v = 276%nat -> words_wf v -> is_vector y ->
  (forall pk0, length pk0 = 2249%nat -> hqc_secret_key_from_string fuel (zeros VEC_N_SIZE_64) (zeros VEC_N_SIZE_64) pk0 sk = Some (x, y, pk)) ->
  exists w, is_vector w /\ poly w = Z.lxor (poly v) (cmul (poly y) (poly u)) /\ hqc_pke_decrypt fuel m0 u v sk = code_decode m0 w.
Proof.
  intros Hu Lv Wv Hy Hsk. unfold hqc_pke_decrypt. cbv zeta. rewrite Hsk, some_bind by reflexivity. cbv beta iota.
  destruct (resized_vector v Lv Wv) as (t1 & -> & Ht1 & Pt1). rewrite some_bind.
  destruct (vect_mul_eq (zeros VEC_N_SIZE_64) y u) as (t2 & -> & Ht2 & Pt2); [reflexivity|eauto|exact Hu|]. rewrite some_bind.
  destruct (vect_add_vector t2 t1 t2) as (w & -> & Hw & Pw); [apply Ht2|exact Ht1|exact Ht2|]. rewrite some_bind. exists w.
  split; [exact Hw|]. split; [rewrite Pw, Pt1, Pt2; reflexivity|reflexivity].
Qed.

(** The blocks of a word that differs from a code word by [z]. *)
Lemma bad_blocks_noise code w z : (forall n, 0 <= n < PARAM_N1N2 -> Z.testbit w n = xorb (Z.testbit code n) (Z.testbit z n)) -> bad_blocks code w = bad_blocks 0 z.
Proof.
  intros Hw. unfold bad_blocks. f_equal. apply filter_ext_elem. intros i Hi. apply elem_of_seq in Hi.
  apply not_iff_compat, nearest_ext. intros n Hn. rewrite !Z.lxor_spec, Hw, Z.testbit_0_l by (unfold PARAM_N1N2; lia).
  destruct (Z.testbit code _), (Z.testbit z _); reflexivity.
Qed.

(** What the decoder of the receiver sees. *)
Lemma received_bits code v z c n : v = Z.lxor code c mod 2 ^ PARAM_N1N2 -> 0 <= n < PARAM_N1N2 -> Z.testbit (Z.lxor v z) n = xorb (Z.testbit code n) (Z.testbit (Z.lxor c z) n).
Proof. intros -> Hn. rewrite !Z.lxor_spec, Z.mod_pow2_bits_low, Z.lxor_spec by lia. apply xorb_assoc. Qed.

(** Decrypting what was encrypted. *)
Lemma hqc_pke_roundtrip fuel pk sk x y h s theta r1 r2 e m u v m0 : key_pair fuel pk sk x y h s -> length m = 2%nat -> words_wf m ->
  all_bytes theta -> SEED_BYTES <= Z.of_nat (length theta) -> encryption_vectors fuel theta = Some (r1, r2, e) ->
  hqc_pke_encrypt fuel (zeros VEC_N_SIZE_64) (zeros VEC_N1N2_SIZE_64) m theta pk = Some (u, v) ->
  (bad_blocks 0 (hqc_noise (poly x) (poly y) (poly r1) (poly r2) (poly e)) <= 15)%nat ->
  length m0 = 2%nat -> words_wf m0 -> hqc_pke_decrypt fuel m0 u v sk = Some m.
Proof.
  intros K Lm Wm Bt Lt Ev Eenc Hbad L0 W0. pose proof (kp_h _ _ _ _ _ _ _ K) as Hh. pose proof (kp_s _ _ _ _ _ _ _ K) as Hs.
  pose proof (hqc_pke_encrypt_eq fuel (zeros VEC_N_SIZE_64) (zeros VEC_N1N2_SIZE_64) m theta pk h s eq_refl eq_refl (words_wf_zeros _) Lm Bt Lt (kp_public _ _ _ _ _ _ _ K) Hh ltac:(eauto)) as H.
  rewrite Ev in H. destruct H as (H1 & H2 & H3 & code & u' & v' & E & Hcar & Wc & Hu & Lv & Wv & Pu & Pv). rewrite Eenc in E. injection E as <- <-.
  destruct (hqc_pke_decrypt_eq fuel m0 u v sk x y pk ltac:(eauto) Lv Wv (sparse_vector _ _ (kp_y _ _ _ _ _ _ _ K)) (kp_secret _ _ _ _ _ _ _ K)) as (w & (Lw & Ww & _) & Pw & ->).
  apply (code_decode_eq code); [exact Hcar|exact Lm|exact Wm|rewrite Lw; apply Nat.leb_le; reflexivity|exact Ww|exact L0|exact W0|].
  rewrite (bad_blocks_noise (poly code) (poly w) (hqc_noise (poly x) (poly y) (poly r1) (poly r2) (poly e))); [exact Hbad|]. intros n Hn.
  rewrite Pw, (received_bits _ _ _ _ _ Pv Hn). do 2 f_equal. rewrite Pu, (kp_syndrome _ _ _ _ _ _ _ K). pose proof (kp_x _ _ _ _ _ _ _ K). pose proof (kp_y _ _ _ _ _ _ _ K). apply noise_left; eauto.
Qed.
