(* ===== verification/Kem.v ===== *)
(** * The key encapsulation of HQC: [kem.c]

    Encapsulation draws a message, encrypts it with coins derived from it and hashes it
    with the ciphertext; decapsulation decrypts, encrypts again and compares.  Here
    decapsulation is shown to accept exactly the ciphertexts that encrypting the decoded
    message again gives, and to return the encapsulated secret when the noise of the
    two keys is one that the code corrects. *)

From S2P Require Import Prelude Carryless Words Fips202 Sponge Prng Gf Gf2x Vector Cyclic CryptoWorker Code Hqc.

(* src/extern/HQC-Round4/Additional_Implementation/hqc-128/src/kem.c:32-39 crypto_kem_keypair *)
Definition crypto_kem_keypair (fuel : nat) (shake_prng_state : list Z) (pk sk : bytes) : option (Z * bytes * bytes * list Z) :=
  '(pk, sk, shake_prng_state) ← hqc_pke_keygen fuel shake_prng_state pk sk;
  Some (0, pk, sk, shake_prng_state).

(* src/extern/HQC-Round4/Additional_Implementation/hqc-128/src/kem.c:51-83 crypto_kem_enc *)
Definition crypto_kem_enc (fuel : nat) (shake_prng_state : list Z) (ct ss pk : bytes) : option (Z * bytes * bytes * list Z) :=
  let theta := zeros SHAKE256_512_BYTES in
  let m := zeros VEC_K_SIZE_64 in
  let u := zeros VEC_N_SIZE_64 in
  let v := zeros VEC_N1N2_SIZE_64 in
  let d := zeros SHAKE256_512_BYTES in
  let mc := zeros (VEC_K_SIZE_BYTES + VEC_N_SIZE_BYTES + VEC_N1N2_SIZE_BYTES) in
  '(m, shake_prng_state) ← vect_set_random_from_prng shake_prng_state m;
  '(theta, _) ← shake256_512_ds theta (as_bytes m) VEC_K_SIZE_BYTES G_FCT_DOMAIN;
  '(u, v) ← hqc_pke_encrypt fuel u v m theta pk;
  '(d, _) ← shake256_512_ds d (as_bytes m) VEC_K_SIZE_BYTES H_FCT_DOMAIN;
  mc ← memcpy_from_words mc 0 m VEC_K_SIZE_BYTES;
  mc ← memcpy_from_words mc VEC_K_SIZE_BYTES u VEC_N_SIZE_BYTES;
  mc ← memcpy_from_words mc (VEC_K_SIZE_BYTES + VEC_N_SIZE_BYTES) v VEC_N1N2_SIZE_BYTES;
  '(ss, _) ← shake256_512_ds ss mc (VEC_K_SIZE_BYTES + VEC_N_SIZE_BYTES + VEC_N1N2_SIZE_BYTES) K_FCT_DOMAIN;
  ct ← hqc_ciphertext_to_string ct u v d;
  Some (0, ct, ss, shake_prng_state).

(** [result] is a byte, promoted to [int] where it is negated and complemented. *)
(* src/extern/HQC-Round4/Additional_Implementation/hqc-128/src/kem.c:107-173 crypto_kem_dec *)
Definition crypto_kem_dec (fuel : nat) (ss ct sk : bytes) : option (Z * bytes) :=
  let u := zeros VEC_N_SIZE_64 in
  let v := zeros VEC_N1N2_SIZE_64 in
  let d := zeros SHAKE256_512_BYTES in
  let pk := zeros PUBLIC_KEY_BYTES in
  let m := zeros VEC_K_SIZE_64 in
  let theta := zeros SHAKE256_512_BYTES in
  let u2 := zeros VEC_N_SIZE_64 in
  let v2 := zeros VEC_N1N2_SIZE_64 in
  let d2 := zeros SHAKE256_512_BYTES in
  let mc := zeros (VEC_K_SIZE_BYTES + VEC_N_SIZE_BYTES + VEC_N1N2_SIZE_BYTES) in
  '(u, v, d) ← hqc_ciphertext_from_string u v d ct;
  pk ← memcpy pk 0 sk SEED_BYTES PUBLIC_KEY_BYTES;
  m ← hqc_pke_decrypt fuel m u v sk;
  '(theta, _) ← shake256_512_ds theta (as_bytes m) VEC_K_SIZE_BYTES G_FCT_DOMAIN;
  '(u2, v2) ← hqc_pke_encrypt fuel u2 v2 m theta pk;
  '(d2, _) ← shake256_512_ds d2 (as_bytes m) VEC_K_SIZE_BYTES H_FCT_DOMAIN;
  mc ← memcpy_from_words mc 0 m VEC_K_SIZE_BYTES;
  mc ← memcpy_from_words mc VEC_K_SIZE_BYTES u VEC_N_SIZE_BYTES;
  mc ← memcpy_from_words mc (VEC_K_SIZE_BYTES + VEC_N_SIZE_BYTES) v VEC_N1N2_SIZE_BYTES;
  '(ss, _) ← shake256_512_ds ss mc (VEC_K_SIZE_BYTES + VEC_N_SIZE_BYTES + VEC_N1N2_SIZE_BYTES) K_FCT_DOMAIN;
  result ← vect_compare (as_bytes u) (as_bytes u2) VEC_N_SIZE_BYTES;
  r ← vect_compare (as_bytes v) (as_bytes v2) VEC_N1N2_SIZE_BYTES;
  let result := Z.lor result r in
  r ← vect_compare d d2 SHAKE256_512_BYTES;
  let result := Z.lor result r in
  let result := u8 (Z.shiftr (- result) 15) in
  ss ← ofor (upto SHARED_SECRET_BYTES) (fun i ss => x ← cell ss i; set_cell ss i (Z.land x (Z.lnot result))) ss;
  Some (- Z.land result 1, ss).

(** ** Hashing *)

(** The 64 bytes of a hash. *)
Definition hash (domain : Z) (input : bytes) : bytes :=
  default [] (fst <$> shake256_512_ds (zeros SHAKE256_512_BYTES) input (Z.of_nat (length input)) domain).

Lemma shake256_512_ds_eq output input n domain : all_bytes input -> is_u8 domain -> n = Z.of_nat (length input) -> length output = 64%nat ->
  (exists state, shake256_512_ds output input n domain = Some (hash domain input, state)) /\ length (hash domain input) = 64%nat /\ all_bytes (hash domain input).
Proof.
  intros Hi Hd -> Ho.
  assert (H : exists out state, length out = 64%nat /\ all_bytes out /\ forall h, length h = 64%nat -> shake256_512_ds h input (Z.of_nat (length input)) domain = Some (out, state)).
  { assert (Hm : all_bytes (take (Z.to_nat (Z.of_nat (length input))) input ++ [domain])) by (apply Forall_app; split; [apply Forall_take, Hi|apply one_byte, Hd]).
    destruct (squeeze_total (inc_state (finalized (take (Z.to_nat (Z.of_nat (length input))) input ++ [domain]))) 64) as (out & s' & Hl & Hb & _ & E).
    - eexists. split; [reflexivity|apply finalized_wf, Hm].
    - lia.
    - exists out, s'. split_and!; [lia|exact Hb|]. intros h Hh. unfold shake256_512_ds. cbv zeta. rewrite absorb_prefix, some_bind by (assumption || lia).
      rewrite one_byte_absorbed, some_bind, shake256_inc_finalize_eq, some_bind by (assumption || apply Forall_take, Hi).
      change (512 / 8) with 64. rewrite E by lia. rewrite (drop_ge h), app_nil_r by lia. reflexivity. }
  destruct H as (out & state & Hl & Hb & H). assert (E : hash domain input = out) by (unfold hash; rewrite H by reflexivity; reflexivity).
  rewrite E. split; [exists state; apply H, Ho|]. auto.
Qed.

(** ** Encapsulation with the message given *)

Definition ciphertext (u v : words) (d : bytes) : bytes := take (Z.to_nat VEC_N_SIZE_BYTES) (as_bytes u) ++ as_bytes v ++ d.

(** The shared secret. *)
Definition shared_secret (m u v : words) : bytes := hash K_FCT_DOMAIN (as_bytes m ++ take (Z.to_nat VEC_N_SIZE_BYTES) (as_bytes u) ++ as_bytes v).

(** The ciphertext of a message and the secret that goes with it. *)
Definition encapsulate (fuel : nat) (m : words) (pk : bytes) : option (bytes * bytes) :=
  '(u, v) ← hqc_pke_encrypt fuel (zeros VEC_N_SIZE_64) (zeros VEC_N1N2_SIZE_64) m (hash G_FCT_DOMAIN (as_bytes m)) pk;
  Some (ciphertext u v (hash H_FCT_DOMAIN (as_bytes m)), shared_secret m u v).

Lemma length_ciphertext u v d : length u = 277%nat -> length v = 276%nat -> length d = 64%nat -> length (ciphertext u v d) = 4481%nat.
Proof. intros Lu Lv Ld. unfold ciphertext. rewrite !length_app, (length_vector_bytes u Lu), length_as_bytes, Lv, Ld. reflexivity. Qed.

(** The buffer [mc]. *)
Lemma hashed_message m u v : length m = 2%nat -> length u = 277%nat -> length v = 276%nat ->
  (mc ← memcpy_from_words (zeros (VEC_K_SIZE_BYTES + VEC_N_SIZE_BYTES + VEC_N1N2_SIZE_BYTES)) 0 m VEC_K_SIZE_BYTES;
   mc ← memcpy_from_words mc VEC_K_SIZE_BYTES u VEC_N_SIZE_BYTES;
   memcpy_from_words mc (VEC_K_SIZE_BYTES + VEC_N_SIZE_BYTES) v VEC_N1N2_SIZE_BYTES) =
  Some (as_bytes m ++ take (Z.to_nat VEC_N_SIZE_BYTES) (as_bytes u) ++ as_bytes v).
Proof.
  intros Lm Lu Lv. pose proof (length_vector_bytes u Lu) as L2. assert (L1 : length (as_bytes m) = 16%nat) by (rewrite length_as_bytes, Lm; reflexivity).
  assert (L3 : length (as_bytes v) = 2208%nat) by (rewrite length_as_bytes, Lv; reflexivity). set (bu := take _ (as_bytes u)) in *.
  rewrite memcpy_from_words_eq, some_bind by (rewrite ?Lm; decided). change (Z.to_nat 0) with 0%nat. change (Z.to_nat (0 + VEC_K_SIZE_BYTES)) with 16%nat.
  change (Z.to_nat VEC_K_SIZE_BYTES) with 16%nat. rewrite take_0, app_nil_l, (take_ge (as_bytes m)) by lia. set (z := zeros _).
  assert (Lz : length z = 4433%nat) by reflexivity.
  rewrite memcpy_from_words_eq, some_bind by (rewrite ?length_app, ?length_drop, ?L1, ?Lz, ?Lu; decided). fold bu.
  change (Z.to_nat VEC_K_SIZE_BYTES) with 16%nat. rewrite (take_app_length' _ _ 16) by exact (eq_sym L1).
  change (Z.to_nat (VEC_K_SIZE_BYTES + VEC_N_SIZE_BYTES)) with (16 + 2209)%nat. rewrite <- (drop_drop (as_bytes m ++ _)), drop_app_length', drop_drop by exact (eq_sym L1).
  rewrite memcpy_from_words_eq by (rewrite ?length_app, ?length_drop, ?L1, ?L2, ?Lz, ?Lv; decided).
  change (Z.to_nat (VEC_K_SIZE_BYTES + VEC_N_SIZE_BYTES)) with (16 + 2209)%nat. rewrite (app_assoc (as_bytes m)), take_app_length', <- app_assoc by (rewrite length_app, L1, L2; reflexivity).
  do 3 f_equal. rewrite take_ge, drop_ge, app_nil_r by (rewrite ?length_app, ?length_drop, ?L1, ?L2, ?L3, ?Lz; apply Nat.leb_le; reflexivity). reflexivity.
Qed.

Lemma domain_u8 d : d = G_FCT_DOMAIN \/ d = H_FCT_DOMAIN \/ d = K_FCT_DOMAIN -> is_u8 d.
Proof. intros [->|[->| ->]]; decided. Qed.

Lemma length_message m : length m = 2%nat -> VEC_K_SIZE_BYTES = Z.of_nat (length (as_bytes m)).
Proof. intros Lm. rewrite length_as_bytes, Lm. reflexivity. Qed.

(** The hashes of the message. *)
Lemma hash_message m domain : length m = 2%nat -> domain = G_FCT_DOMAIN \/ domain = H_FCT_DOMAIN \/ domain = K_FCT_DOMAIN ->
  exists state, shake256_512_ds (zeros SHAKE256_512_BYTES) (as_bytes m) VEC_K_SIZE_BYTES domain = Some (hash domain (as_bytes m), state).
Proof. intros Lm Hd. apply shake256_512_ds_eq; [apply as_bytes_bytes|apply domain_u8, Hd|apply length_message, Lm|reflexivity]. Qed.

Lemma hash_wf domain input : all_bytes input -> is_u8 domain -> length (hash domain input) = 64%nat /\ all_bytes (hash domain input).
Proof. intros Hi Hd. apply (shake256_512_ds_eq (zeros SHAKE256_512_BYTES) input _ domain Hi Hd eq_refl eq_refl). Qed.
Lemma hash_message_wf m domain : domain = G_FCT_DOMAIN \/ domain = H_FCT_DOMAIN \/ domain = K_FCT_DOMAIN ->
  length (hash domain (as_bytes m)) = 64%nat /\ all_bytes (hash domain (as_bytes m)).
Proof. intros Hd. apply hash_wf; [apply as_bytes_bytes|apply domain_u8, Hd]. Qed.

Lemma hashed_bytes m u v : all_bytes (as_bytes m ++ take (Z.to_nat VEC_N_SIZE_BYTES) (as_bytes u) ++ as_bytes v).
Proof. apply Forall_app; split; [|apply Forall_app; split; [apply Forall_take|]]; apply as_bytes_bytes. Qed.
Lemma shared_secret_wf m u v : length (shared_secret m u v) = 64%nat /\ all_bytes (shared_secret m u v).
Proof. apply hash_wf; [apply hashed_bytes|decided]. Qed.

Lemma hash_secret m u v ss : length m = 2%nat -> length u = 277%nat -> length v = 276%nat -> length ss = 64%nat -> exists mc1 mc2 mc state,
  memcpy_from_words (zeros (VEC_K_SIZE_BYTES + VEC_N_SIZE_BYTES + VEC_N1N2_SIZE_BYTES)) 0 m VEC_K_SIZE_BYTES = Some mc1 /\
  memcpy_from_words mc1 VEC_K_SIZE_BYTES u VEC_N_SIZE_BYTES = Some mc2 /\
  memcpy_from_words mc2 (VEC_K_SIZE_BYTES + VEC_N_SIZE_BYTES) v VEC_N1N2_SIZE_BYTES = Some mc /\
  shake256_512_ds ss mc (VEC_K_SIZE_BYTES + VEC_N_SIZE_BYTES + VEC_N1N2_SIZE_BYTES) K_FCT_DOMAIN = Some (shared_secret m u v, state).
Proof.
  intros Lm Lu Lv Lss. pose proof (hashed_message m u v Lm Lu Lv) as E. pose proof (hashed_bytes m u v) as Hb. unfold shared_secret. set (mc := as_bytes m ++ _) in *.
  destruct (memcpy_from_words _ 0 m _) as [mc1|] eqn:E1; [rewrite some_bind in E|discriminate E].
  destruct (memcpy_from_words mc1 _ u _) as [mc2|] eqn:E2; [rewrite some_bind in E|discriminate E].
  assert (Lmc : (VEC_K_SIZE_BYTES + VEC_N_SIZE_BYTES + VEC_N1N2_SIZE_BYTES) = Z.of_nat (length mc)).
  { unfold mc. rewrite !length_app, (length_vector_bytes u Lu), !length_as_bytes, Lm, Lv. reflexivity. }
  destruct (shake256_512_ds_eq ss mc _ K_FCT_DOMAIN Hb ltac:(decided) Lmc Lss) as ((st & Eh) & _). exists mc1, mc2, mc, st. auto.
Qed.

(** Drawing the message is all that separates the two. *)
Lemma crypto_kem_enc_eq fuel g ct ss pk h s : expander g -> length ct = 4481%nat -> length ss = 64%nat ->
  hqc_public_key_from_string (zeros VEC_N_SIZE_64) (zeros VEC_N_SIZE_64) pk = Some (h, s) -> is_vector h -> is_array s ->
  exists m g', vect_set_random_from_prng g (zeros VEC_K_SIZE_64) = Some (m, g') /\ expander g' /\ length m = 2%nat /\ words_wf m /\
    crypto_kem_enc fuel g ct ss pk = ('(ct, ss) ← encapsulate fuel m pk; Some (0, ct, ss, g')).
Proof.
  intros Hg Lct Lss Epk Hh Hs. destruct (vect_set_random_from_prng_total g Hg) as (m & g' & Hg' & Lm & Wm & Em). exists m, g'.
  split; [exact Em|]. split; [exact Hg'|]. split; [exact Lm|]. split; [exact Wm|]. unfold crypto_kem_enc, encapsulate. cbv zeta. rewrite Em, some_bind. cbv beta iota.
  destruct (hash_message m G_FCT_DOMAIN Lm ltac:(auto)) as (st1 & ->). rewrite some_bind. cbv beta iota. destruct (hash_message_wf m G_FCT_DOMAIN ltac:(auto)) as [Lt Bt].
  set (theta := hash G_FCT_DOMAIN (as_bytes m)) in *.
  pose proof (hqc_pke_encrypt_eq fuel (zeros VEC_N_SIZE_64) (zeros VEC_N1N2_SIZE_64) m theta pk h s eq_refl eq_refl (words_wf_zeros _) Lm Bt) as H.
  specialize (H ltac:(rewrite Lt; decided) Epk Hh Hs). destruct (encryption_vectors fuel theta) as [[[r1 r2] e]|]; [|rewrite H; reflexivity].
  destruct H as (_ & _ & _ & code & u & v & -> & _ & _ & Hu & Lv & Wv & _). rewrite !some_bind. cbv beta iota.
  destruct (hash_message m H_FCT_DOMAIN Lm ltac:(auto)) as (st2 & ->). rewrite some_bind. cbv beta iota.
  destruct (hash_secret m u v ss Lm (proj1 Hu) Lv Lss) as (mc1 & mc2 & mc & st3 & -> & E2 & E3 & E4). rewrite some_bind, E2, some_bind, E3, some_bind, E4, some_bind. cbv beta iota.
  rewrite ciphertext_to_string_eq, some_bind by (assumption || apply Hu || apply hash_message_wf; auto). reflexivity.
Qed.

(** ** Decapsulation *)

(** What it promises: the ciphertext is accepted when encrypting the decoded message again gives it. *)
Definition decapsulate (fuel : nat) (ct sk : bytes) : option (Z * bytes) :=
  '(u, v, _) ← hqc_ciphertext_from_string (zeros VEC_N_SIZE_64) (zeros VEC_N1N2_SIZE_64) (zeros SHAKE256_512_BYTES) ct;
  m ← hqc_pke_decrypt fuel (zeros VEC_K_SIZE_64) u v sk;
  '(ct', ss) ← encapsulate fuel m (drop (Z.to_nat SEED_BYTES) sk);
  Some (if bool_decide (ct' = ct) then (0, ss) else (-1, zeros SHARED_SECRET_BYTES)).

(** The loop that masks the secret. *)
Lemma mask_loop (ss : bytes) r : length ss = 64%nat ->
  ofor (upto SHARED_SECRET_BYTES) (fun i ss => x ← cell ss i; set_cell ss i (Z.land x (Z.lnot r))) ss = Some ((fun x => Z.land x (Z.lnot r)) <$> ss).
Proof.
  intros Hl. set (f := fun x => Z.land x (Z.lnot r)). set (P := fun (m : Z) (s : bytes) => s = (f <$> take (Z.to_nat m) ss) ++ drop (Z.to_nat m) ss).
  edestruct (ofor_upto_ind P SHARED_SECRET_BYTES) as (s & -> & ->); [decided|reflexivity| |].
  - intros i s Hi ->. change SHARED_SECRET_BYTES with 64 in Hi. destruct (lookup_lt_is_Some_2 ss (Z.to_nat i) ltac:(lia)) as [x Hx]. rewrite (drop_S ss x _ Hx).
    assert (El : i = Z.of_nat (length (f <$> take (Z.to_nat i) ss))) by (rewrite length_fmap, length_take; lia).
    assert (Ec : cell ((f <$> take (Z.to_nat i) ss) ++ x :: drop (S (Z.to_nat i)) ss) i = Some x) by (etransitivity; [|apply cell_middle]; f_equal; exact El).
    rewrite Ec, some_bind, (set_cell_at _ _ _ _ i El). eexists. split; [reflexivity|]. unfold P.
    replace (Z.to_nat (i + 1)) with (S (Z.to_nat i)) by lia. rewrite (take_S_r ss _ x Hx), fmap_app, <- app_assoc. reflexivity.
  - change (Z.to_nat SHARED_SECRET_BYTES) with 64%nat. rewrite drop_ge, app_nil_r, take_ge by lia. reflexivity.
Qed.

(** The mask from the three comparisons. *)
Definition differs (b : bool) : Z := if b then 0 else 1.
Lemma verdict (a b c : bool) (ss : bytes) : all_bytes ss -> length ss = 64%nat ->
  let result := u8 (Z.shiftr (- Z.lor (Z.lor (differs a) (differs b)) (differs c)) 15) in
  (- Z.land result 1, (fun x => Z.land x (Z.lnot result)) <$> ss) = if a && b && c then (0, ss) else (-1, zeros SHARED_SECRET_BYTES).
Proof.
  intros Hb Hl result. assert (E : result = if a && b && c then 0 else 255) by (destruct a, b, c; reflexivity). rewrite E. destruct (a && b && c); f_equal.
  - rewrite <- (list_fmap_id ss) at 2. apply list_fmap_ext. intros i x Hx. apply Z.land_m1_r.
  - apply list_eq. intros i. rewrite list_lookup_fmap. destruct (decide (i < 64)%nat) as [Hi|Hi].
    + destruct (lookup_lt_is_Some_2 ss i ltac:(lia)) as [x Hx]. rewrite Hx. unfold zeros. change (Z.to_nat SHARED_SECRET_BYTES) with 64%nat. rewrite lookup_replicate_2 by exact Hi.
      cbn [fmap option_fmap option_map]. f_equal. assert (H : is_u8 x) by exact (proj1 (list.Forall_lookup _ _) Hb i x Hx).
      change 255 with (Z.ones 8). change (Z.land x (Z.lnot (Z.ones 8))) with (Z.land x (Z.lnot (Z.ones 8))). rewrite <- Z.ldiff_land, Z.ldiff_ones_r by lia.
      rewrite Z.shiftr_div_pow2, Z.div_small by (exact H || lia). apply Z.shiftl_0_l.
    + rewrite !lookup_ge_None_2; [reflexivity|rewrite length_zeros; change (Z.to_nat SHARED_SECRET_BYTES) with 64%nat; lia|lia].
Qed.

Lemma ciphertext_inj u v d u2 v2 d2 : length u = 277%nat -> length u2 = 277%nat -> length v = length v2 ->
  ciphertext u2 v2 d2 = ciphertext u v d <-> (take (Z.to_nat VEC_N_SIZE_BYTES) (as_bytes u) = take (Z.to_nat VEC_N_SIZE_BYTES) (as_bytes u2) /\ as_bytes v = as_bytes v2) /\ d = d2.
Proof.
  intros Lu Lu2 Lv. unfold ciphertext. split; [|intros [[-> ->] ->]; reflexivity]. intros E.
  apply app_inj_1 in E as [E1 E]; [|rewrite !length_vector_bytes by assumption; reflexivity]. apply app_inj_1 in E as [E2 E3]; [auto|rewrite !length_as_bytes; lia].
Qed.

(** Decrypting fails only when the sampling of the secret vectors does. *)
Lemma hqc_pke_decrypt_any fuel u v sk : is_array u -> length v = 276%nat -> words_wf v -> length sk = 2289%nat -> all_bytes sk ->
  match secret_vectors fuel (take 40 sk) with
  | None => hqc_pke_decrypt fuel (zeros VEC_K_SIZE_64) u v sk = None
  | Some _ => exists m, hqc_pke_decrypt fuel (zeros VEC_K_SIZE_64) u v sk = Some m /\ length m = 2%nat /\ words_wf m
  end.
Proof.
  intros Hu Lv Wv Lsk Bsk. assert (L1 : length (take 40 sk) = 40%nat) by (rewrite length_take; lia). assert (L2 : length (drop 40 sk) = 2249%nat) by (rewrite length_drop; lia).
  assert (Hread : forall pk0, length pk0 = 2249%nat -> hqc_secret_key_from_string fuel (zeros VEC_N_SIZE_64) (zeros VEC_N_SIZE_64) pk0 sk =
    '(x, y) ← secret_vectors fuel (take 40 sk); Some (x, y, drop 40 sk)).
  { intros pk0 L0. rewrite <- (take_drop 40 sk) at 1. apply secret_key_from_string_eq; assumption. }
  destruct (secret_vectors fuel (take 40 sk)) as [[x y]|] eqn:E.
  - destruct (secret_vectors_sparse fuel (take 40 sk) x y) as [_ Hy]; [apply Forall_take, Bsk|rewrite L1; decided|exact E|].
    destruct (hqc_pke_decrypt_eq fuel (zeros VEC_K_SIZE_64) u v sk x y (drop 40 sk) Hu Lv Wv (sparse_vector _ _ Hy) Hread) as (w & (Lw & Ww & _) & _ & ->).
    apply code_decode_total; [rewrite Lw; apply Nat.leb_le; reflexivity|exact Ww|reflexivity|apply words_wf_zeros].
  - unfold hqc_pke_decrypt. rewrite Hread by reflexivity. reflexivity.
Qed.

Lemma crypto_kem_dec_eq fuel ss0 ct sk : length ct = 4481%nat -> all_bytes ct -> length sk = 2289%nat -> all_bytes sk -> length ss0 = 64%nat ->
  crypto_kem_dec fuel ss0 ct sk = decapsulate fuel ct sk.
Proof.
  intros Lct Bct Lsk Bsk Lss. unfold crypto_kem_dec, decapsulate. cbv zeta.
  destruct (ciphertext_from_string_total ct (zeros SHAKE256_512_BYTES) Lct Bct eq_refl) as (u & v & d & -> & Hu & Lv & Wv & Ld & Bd & Ect). rewrite !some_bind. cbv beta iota.
  rewrite memcpy_eq, some_bind by (rewrite ?Lsk; decided). change (Z.to_nat 0) with 0%nat. change (drop (Z.to_nat (0 + PUBLIC_KEY_BYTES)) (zeros PUBLIC_KEY_BYTES)) with (@nil Z).
  rewrite take_0, app_nil_l, app_nil_r, take_ge by (rewrite length_drop, Lsk; apply Nat.leb_le; reflexivity). change (Z.to_nat SEED_BYTES) with 40%nat. set (pk := drop 40 sk).
  assert (Lpk : length pk = 2249%nat) by (unfold pk; rewrite length_drop, Lsk; reflexivity). assert (Bpk : all_bytes pk) by (apply Forall_drop, Bsk).
  pose proof (hqc_pke_decrypt_any fuel u v sk Hu Lv Wv Lsk Bsk) as Hm. destruct (secret_vectors fuel (take 40 sk)); [|rewrite Hm; reflexivity].
  destruct Hm as (m & -> & Lm & Wm). rewrite !some_bind. unfold encapsulate.
  destruct (hash_message m G_FCT_DOMAIN Lm ltac:(auto)) as (st1 & ->). rewrite some_bind. cbv beta iota. destruct (hash_message_wf m G_FCT_DOMAIN ltac:(auto)) as [Lt Bt].
  destruct (public_key_from_string_total pk Lpk Bpk) as (h & s & Epk & Hh & Hs). set (theta := hash G_FCT_DOMAIN (as_bytes m)) in *.
  pose proof (hqc_pke_encrypt_eq fuel (zeros VEC_N_SIZE_64) (zeros VEC_N1N2_SIZE_64) m theta pk h s eq_refl eq_refl (words_wf_zeros _) Lm Bt) as H.
  specialize (H ltac:(rewrite Lt; decided) Epk Hh Hs). destruct (encryption_vectors fuel theta) as [[[r1 r2] e]|]; [|rewrite H; reflexivity].
  destruct H as (_ & _ & _ & code & u2 & v2 & -> & _ & _ & Hu2 & Lv2 & Wv2 & _). rewrite !some_bind. cbv beta iota.
  destruct (hash_message m H_FCT_DOMAIN Lm ltac:(auto)) as (st2 & ->). rewrite some_bind. cbv beta iota. destruct (hash_message_wf m H_FCT_DOMAIN ltac:(auto)) as [Ld2 Bd2].
  destruct (hash_secret m u v ss0 Lm (proj1 Hu) Lv Lss) as (mc1 & mc2 & mc & st3 & -> & E2 & E3 & E4). rewrite some_bind, E2, some_bind, E3, some_bind, E4, some_bind. cbv beta iota. clear E2 E3 E4.
  set (d2 := hash H_FCT_DOMAIN (as_bytes m)) in *. destruct (shared_secret_wf m u v) as [Lk Bk].
  rewrite !vect_compare_eq, !some_bind by (first [apply as_bytes_bytes|assumption|rewrite ?length_as_bytes, ?(proj1 Hu), ?(proj1 Hu2), ?Lv, ?Lv2, ?Ld, ?Ld2; split; decided|
    rewrite ?length_as_bytes, ?(proj1 Hu), ?(proj1 Hu2), ?Lv, ?Lv2, ?Ld, ?Ld2; decided]).
  rewrite mask_loop, some_bind by exact Lk. f_equal.
  rewrite (take_ge (as_bytes v)), (take_ge (as_bytes v2)), (take_ge d), (take_ge d2) by (rewrite ?length_as_bytes, ?Lv, ?Lv2, ?Ld, ?Ld2; apply Nat.leb_le; reflexivity).
  etransitivity; [apply (verdict _ _ _ _ Bk Lk)|]. rewrite Ect. fold (ciphertext u v d).
  rewrite <- !bool_decide_and, (bool_decide_ext _ _ (ciphertext_inj u v d u2 v2 d2 (proj1 Hu) (proj1 Hu2) ltac:(congruence))).
  case_bool_decide as Hok; [|reflexivity]. destruct Hok as [[E1 E2] _]. unfold shared_secret. rewrite E1, E2. reflexivity.
Qed.

(** ** The round trip *)

(** The noise that the receiver of message [m] sees, from the seed in the secret key and the coins of [m]. *)
Definition decryption_noise (fuel : nat) (sk : bytes) (m : words) : option Z :=
  '(x, y) ← secret_vectors fuel (take (Z.to_nat SEED_BYTES) sk);
  '(r1, r2, e) ← encryption_vectors fuel (hash G_FCT_DOMAIN (as_bytes m));
  Some (hqc_noise (poly x) (poly y) (poly r1) (poly r2) (poly e)).

Lemma crypto_kem_keypair_eq fuel g pk0 sk0 rc pk sk g' : expander g -> length pk0 = 2249%nat -> length sk0 = 2289%nat ->
  crypto_kem_keypair fuel g pk0 sk0 = Some (rc, pk, sk, g') ->
  rc = 0 /\ expander g' /\ exists g1 x y h s, shake_prng g (zeros SEED_BYTES) SEED_BYTES = Some (take 40 sk, g1) /\
    secret_vectors fuel (take 40 sk) = Some (x, y) /\ key_pair fuel pk sk x y h s.
Proof.
  intros Hg Lp Ls E. unfold crypto_kem_keypair in E. destruct (hqc_pke_keygen_eq fuel g pk0 sk0 Hg Lp Ls) as (seed & g1 & g2 & Eseed & _ & Hg2 & H).
  destruct (secret_vectors fuel seed) as [[x y]|] eqn:Ev; [|rewrite H in E; discriminate E].
  destruct H as (pk' & sk' & h & s & Ek & Et & K). rewrite Ek, some_bind in E. injection E as <- <- <- <-. split; [reflexivity|]. split; [exact Hg2|].
  exists g1, x, y, h, s. rewrite Et. auto.
Qed.

(** Encapsulating a message whose noise is corrected gives a ciphertext that is accepted. *)
Lemma encapsulate_back fuel pk sk x y h s m z : key_pair fuel pk sk x y h s -> secret_vectors fuel (take 40 sk) = Some (x, y) -> length m = 2%nat -> words_wf m ->
  decryption_noise fuel sk m = Some z -> (bad_blocks 0 z <= 15)%nat ->
  exists ct ss, encapsulate fuel m pk = Some (ct, ss) /\ length ct = 4481%nat /\ all_bytes ct /\ decapsulate fuel ct sk = Some (0, ss).
Proof.
  intros K Ev Lm Wm Ez Hbad. unfold decryption_noise in Ez. change (Z.to_nat SEED_BYTES) with 40%nat in Ez. rewrite Ev, some_bind in Ez.
  destruct (encryption_vectors fuel _) as [[[r1 r2] e]|] eqn:Ee; [rewrite some_bind in Ez; injection Ez as <-|discriminate Ez].
  destruct (hash_message_wf m G_FCT_DOMAIN ltac:(auto)) as [Lt Bt]. destruct (hash_message_wf m H_FCT_DOMAIN ltac:(auto)) as [Ld Bd].
  assert (Ht : SEED_BYTES <= Z.of_nat (length (hash G_FCT_DOMAIN (as_bytes m)))) by (rewrite Lt; decided).
  assert (Hs : is_array s) by (apply vector_array, (kp_s _ _ _ _ _ _ _ K)).
  pose proof (hqc_pke_encrypt_eq fuel (zeros VEC_N_SIZE_64) (zeros VEC_N1N2_SIZE_64) m (hash G_FCT_DOMAIN (as_bytes m)) pk h s
    eq_refl eq_refl (words_wf_zeros _) Lm Bt Ht (kp_public _ _ _ _ _ _ _ K) (kp_h _ _ _ _ _ _ _ K) Hs) as H.
  rewrite Ee in H. destruct H as (_ & _ & _ & code & u & v & Eenc & _ & _ & Hu & Lv & Wv & _).
  pose proof (hqc_pke_roundtrip fuel pk sk x y h s _ r1 r2 e m u v (zeros VEC_K_SIZE_64) K Lm Wm Bt Ht Ee Eenc Hbad eq_refl (words_wf_zeros _)) as Edec.
  assert (Eencap : encapsulate fuel m pk = Some (ciphertext u v (hash H_FCT_DOMAIN (as_bytes m)), shared_secret m u v)) by (unfold encapsulate; rewrite Eenc; reflexivity).
  exists (ciphertext u v (hash H_FCT_DOMAIN (as_bytes m))), (shared_secret m u v). split; [exact Eencap|].
  split; [apply length_ciphertext; [apply Hu|exact Lv|exact Ld]|]. split; [repeat (apply Forall_app; split); [apply Forall_take, as_bytes_bytes|apply as_bytes_bytes|exact Bd]|].
  unfold decapsulate. pose proof (ciphertext_from_string_eq u v (hash H_FCT_DOMAIN (as_bytes m)) (zeros SHAKE256_512_BYTES) Hu Lv Wv Ld eq_refl) as Er.
  fold (ciphertext u v (hash H_FCT_DOMAIN (as_bytes m))) in Er. rewrite Er, some_bind. cbv beta iota. rewrite Edec, some_bind.
  change (Z.to_nat SEED_BYTES) with 40%nat. rewrite (kp_tail _ _ _ _ _ _ _ K), Eencap, some_bind. cbv beta iota. rewrite bool_decide_true by reflexivity. reflexivity.
Qed.

(** ** Properties *)

(** C22. Decapsulation does what it promises: on a ciphertext and a secret key of the right
    sizes, the decoding, the second encryption, the three comparisons in constant time
    and the mask amount to accepting the ciphertext exactly when encrypting the decoded
    message again gives it, with status 0 and the secret of that message, and to
    returning -1 and 64 zero bytes otherwise; the buffer for the secret does not matter. *)
Theorem kem_dec_refines fuel ss0 ct sk : length ct = 4481%nat -> all_bytes ct -> length sk = 2289%nat -> all_bytes sk -> length ss0 = 64%nat ->
  crypto_kem_dec fuel ss0 ct sk = decapsulate fuel ct sk.
Proof. intros. apply crypto_kem_dec_eq; assumption. Qed.

Lemma kem_dec_refines_witness : all_bytes (zeros 4481) /\ crypto_kem_dec 3 (zeros 64) (zeros 4481) (zeros 2289) = decapsulate 3 (zeros 4481) (zeros 2289).
Proof. split; [apply all_bytes_zeros|]. apply kem_dec_refines; try apply all_bytes_zeros; apply length_zeros. Defined.
