(* ===== verification/HqcCheck.v ===== *)
(** * Deciding whether a message is decrypted

    For a given seed and message the supports of the secret and encryption vectors can
    be computed, and with them the noise and whether every block of it is harmless: a
    checker for the hypothesis of the round trip of Kem, with its soundness.  It is run
    on what a device computes when its generator has never been seeded. *)

From S2P Require Import Prelude Carryless Words Fips202 Sponge Prng Gf Gf2x Vector Cyclic ReedMuller RmDistance CryptoWorker Code Hqc Kem.

(** ** Supports *)

(** The positions that the sampler chooses. *)
Definition sampled (fuel : nat) (ctx : list Z) (w : Z) : option (list Z * list Z) :=
  '(sup, st) ← draw_support fuel w (3 * w) (zeros PARAM_OMEGA_R) 0 (draw_start ctx w);
  Some (take (Z.to_nat w) sup, ds_ctx st).

Definition positions (ps : list Z) : Z := foldr (fun p acc => Z.lor (Z.shiftl 1 p) acc) 0 ps.

Lemma positions_testbit ps i : 0 <= i -> Forall (fun p => 0 <= p) ps -> Z.testbit (positions ps) i = bool_decide (i ∈ ps).
Proof.
  intros Hi. induction 1 as [|p ps Hp _ IH]; [symmetry; rewrite Z.testbit_0_l; apply bool_decide_false, not_elem_of_nil|]. cbn [positions foldr]. fold (positions ps).
  rewrite Z.lor_spec, IH, Z.shiftl_1_l, Z.pow2_bits_eqb by exact Hp. destruct (Z.eqb_spec p i) as [->|Hne]; cbn [orb].
  - symmetry. apply bool_decide_true, list_elem_of_here.
  - apply bool_decide_ext. rewrite elem_of_cons. intuition congruence.
Qed.

Lemma sampled_vector fuel ctx w ps ctx' : 1 <= w <= PARAM_OMEGA_R -> expander ctx -> sampled fuel ctx w = Some (ps, ctx') ->
  expander ctx' /\ exists v, vect_set_random_fixed_weight fuel ctx (zeros VEC_N_SIZE_64) w = Some (v, ctx') /\ poly v = positions ps.
Proof.
  intros Hw Hctx E. unfold PARAM_OMEGA_R in Hw. unfold sampled in E.
  destruct (draw_support fuel w (3 * w) (zeros PARAM_OMEGA_R) 0 (draw_start ctx w)) as [[sup st]|] eqn:Ed; [rewrite some_bind in E; injection E as <- <-|discriminate E].
  destruct (draw_support_some w ltac:(lia) fuel _ (zeros PARAM_OMEGA_R) [] sup st (draw_start_wf ctx w ltac:(lia) Hctx)) as (He & Hl & Hwf);
    [reflexivity|reflexivity|split; constructor|cbn; lia|exact Ed|].
  destruct (fixed_weight_finish fuel ctx (zeros VEC_N_SIZE_64) w sup st ltac:(lia) eq_refl (words_wf_zeros _) Hl Hwf Ed) as (v & Ev & Lv & Wv & Hb).
  split; [exact He|]. exists v. split; [exact Ev|]. apply Z.bits_inj'. intros i Hi. rewrite Hb by exact Hi. rewrite positions_testbit by (exact Hi || (eapply list.Forall_impl; [apply Hwf|cbn; lia])).
  change (poly (zeros VEC_N_SIZE_64)) with (poly (replicate 277 0)). rewrite poly_zeros, Z.testbit_0_l. reflexivity.
Qed.

(** ** Noise *)

Definition sampled_secret (fuel : nat) (seed : bytes) : option (list Z * list Z) :=
  ctx ← seedexpander_init seed SEED_BYTES;
  '(xs, ctx) ← sampled fuel ctx PARAM_OMEGA;
  '(ys, ctx) ← sampled fuel ctx PARAM_OMEGA;
  Some (xs, ys).

Definition sampled_encryption (fuel : nat) (theta : bytes) : option (list Z * list Z * list Z) :=
  ctx ← seedexpander_init theta SEED_BYTES;
  '(r1, ctx) ← sampled fuel ctx PARAM_OMEGA_R;
  '(r2, ctx) ← sampled fuel ctx PARAM_OMEGA_R;
  '(e, ctx) ← sampled fuel ctx PARAM_OMEGA_E;
  Some (r1, r2, e).

(** The product without a division. *)
Definition folded (a b : Z) : Z := let c := clmul a b in Z.lxor (Z.land c (Z.ones PARAM_N)) (Z.land (Z.shiftr c PARAM_N) (Z.ones PARAM_N)).
Lemma folded_eq a b : folded a b = cmul a b.
Proof. unfold folded, cmul. cbv zeta. rewrite !Z.land_ones by apply n_nonneg. reflexivity. Qed.

Definition sampled_noise (fuel : nat) (seed theta : bytes) : option Z :=
  '(xs, ys) ← sampled_secret fuel seed;
  '(r1, r2, e) ← sampled_encryption fuel theta;
  Some (Z.lxor (Z.lxor (folded (positions xs) (positions r2)) (folded (positions r1) (positions ys))) (positions e)).

Lemma sampled_secret_eq fuel seed xs ys : all_bytes seed -> SEED_BYTES <= Z.of_nat (length seed) -> sampled_secret fuel seed = Some (xs, ys) ->
  exists x y, secret_vectors fuel seed = Some (x, y) /\ poly x = positions xs /\ poly y = positions ys.
Proof.
  intros Hb Hl E. unfold sampled_secret, secret_vectors in *. destruct (seedexpander_init_total seed SEED_BYTES Hb) as (ctx & Ei & Hc); [split; [discriminate|exact Hl]|].
  rewrite Ei, some_bind in *. destruct (sampled fuel ctx PARAM_OMEGA) as [[xs' c1]|] eqn:E1; [rewrite some_bind in E|discriminate E].
  destruct (sampled fuel c1 PARAM_OMEGA) as [[ys' c2]|] eqn:E2; [rewrite some_bind in E; injection E as -> ->|discriminate E].
  destruct (sampled_vector fuel ctx PARAM_OMEGA xs c1 ltac:(split; discriminate) Hc E1) as (Hc1 & x & -> & Px). rewrite some_bind. cbv beta iota.
  destruct (sampled_vector fuel c1 PARAM_OMEGA ys c2 ltac:(split; discriminate) Hc1 E2) as (_ & y & -> & Py). rewrite some_bind. exists x, y. auto.
Qed.

Lemma sampled_encryption_eq fuel theta p1 p2 pe : all_bytes theta -> SEED_BYTES <= Z.of_nat (length theta) -> sampled_encryption fuel theta = Some (p1, p2, pe) ->
  exists r1 r2 e, encryption_vectors fuel theta = Some (r1, r2, e) /\ poly r1 = positions p1 /\ poly r2 = positions p2 /\ poly e = positions pe.
Proof.
  intros Hb Hl E. unfold sampled_encryption, encryption_vectors in *. destruct (seedexpander_init_total theta SEED_BYTES Hb) as (ctx & Ei & Hc); [split; [discriminate|exact Hl]|].
  rewrite Ei, some_bind in *. destruct (sampled fuel ctx PARAM_OMEGA_R) as [[p1' c1]|] eqn:E1; [rewrite some_bind in E|discriminate E].
  destruct (sampled fuel c1 PARAM_OMEGA_R) as [[p2' c2]|] eqn:E2; [rewrite some_bind in E|discriminate E].
  destruct (sampled fuel c2 PARAM_OMEGA_E) as [[pe' c3]|] eqn:E3; [rewrite some_bind in E; injection E as -> -> ->|discriminate E].
  destruct (sampled_vector fuel ctx PARAM_OMEGA_R p1 c1 ltac:(split; discriminate) Hc E1) as (Hc1 & r1 & -> & P1). rewrite some_bind. cbv beta iota.
  destruct (sampled_vector fuel c1 PARAM_OMEGA_R p2 c2 ltac:(split; discriminate) Hc1 E2) as (Hc2 & r2 & -> & P2). rewrite some_bind. cbv beta iota.
  destruct (sampled_vector fuel c2 PARAM_OMEGA_E pe c3 ltac:(split; discriminate) Hc2 E3) as (_ & e & -> & Pe). rewrite some_bind. exists r1, r2, e. auto.
Qed.

Lemma sampled_noise_eq fuel sk m z : length sk = 2289%nat -> all_bytes sk -> length m = 2%nat ->
  sampled_noise fuel (take 40 sk) (hash G_FCT_DOMAIN (as_bytes m)) = Some z ->
  (exists xy, secret_vectors fuel (take 40 sk) = Some xy) /\ decryption_noise fuel sk m = Some z.
Proof.
  intros Ls Bs Lm E. unfold sampled_noise in E. destruct (sampled_secret fuel (take 40 sk)) as [[xs ys]|] eqn:E1; [rewrite some_bind in E|discriminate E].
  destruct (sampled_encryption fuel _) as [[[p1 p2] pe]|] eqn:E2; [rewrite some_bind in E; injection E as <-|discriminate E].
  destruct (sampled_secret_eq fuel (take 40 sk) xs ys) as (x & y & Ev & Px & Py); [apply Forall_take, Bs|rewrite length_take, Ls; decided|exact E1|].
  destruct (hash_message_wf m G_FCT_DOMAIN ltac:(auto)) as [Lt Bt].
  destruct (sampled_encryption_eq fuel (hash G_FCT_DOMAIN (as_bytes m)) p1 p2 pe Bt ltac:(rewrite Lt; decided) E2) as (r1 & r2 & e & Ee & P1 & P2 & Pe).
  split; [exists (x, y); exact Ev|]. unfold decryption_noise. change (Z.to_nat SEED_BYTES) with 40%nat. rewrite Ev, some_bind, Ee, some_bind. cbv beta iota.
  unfold hqc_noise. rewrite !folded_eq, Px, Py, P1, P2, Pe. reflexivity.
Qed.

Lemma sampled_noise_secret fuel seed theta z : all_bytes seed -> SEED_BYTES <= Z.of_nat (length seed) -> sampled_noise fuel seed theta = Some z ->
  exists x y, secret_vectors fuel seed = Some (x, y).
Proof.
  intros Hb Hl E. unfold sampled_noise in E. destruct (sampled_secret fuel seed) as [[xs ys]|] eqn:E1; [|discriminate E].
  destruct (sampled_secret_eq fuel seed xs ys Hb Hl E1) as (x & y & Ev & _). exists x, y. exact Ev.
Qed.

(** ** Blocks *)

Fixpoint bit_list (n : nat) (z : Z) : list bool := match n with O => [] | S n => Z.odd z :: bit_list n (Z.div2 z) end.

Lemma bit_list_lookup n : forall z k, (k < n)%nat -> bit_list n z !! k = Some (Z.testbit z (Z.of_nat k)).
Proof.
  induction n as [|n IH]; intros z k Hk; [lia|]. destruct k as [|k]; [cbn [bit_list]; rewrite <- Z.bit0_odd; reflexivity|].
  cbn [bit_list lookup list_lookup]. etransitivity; [apply IH; lia|]. rewrite Z.div2_spec, Z.shiftr_spec by lia. do 2 f_equal. lia.
Qed.

(** The counts of the next 128 positions, from the bits of the three copies. *)
Definition three (b c d : list bool) : list Z := zip_with Z.add (zip_with Z.add (Z.b2z <$> b) (Z.b2z <$> c)) (Z.b2z <$> d).
Definition block_counts (bits : list bool) : list Z := three (take 128 bits) (take 128 (drop 128 bits)) (take 128 (drop 256 bits)).

Definition good_counts (counts : list Z) : bool :=
  match lowered (transformed counts) with t :: l => (t <? 0) && forallb (fun u => Z.abs u <? - t) l | [] => false end.

Lemma block_counts_eq z n i : 0 <= i -> (Z.to_nat (384 * i + 384) <= n)%nat -> block_counts (drop (Z.to_nat (384 * i)) (bit_list n z)) = copies_set z i <$> upto 128.
Proof.
  intros Hi Hn. apply list_eq. intros k. unfold block_counts, three. rewrite !lookup_zip_with, !list_lookup_fmap. destruct (decide (k < 128)%nat) as [Hk|Hk].
  - assert (Eu : upto 128 !! k = Some (Z.of_nat k)) by (rewrite <- (Nat2Z.id k) at 1; apply upto_lookup; lia).
    rewrite Eu, !lookup_take_lt, !lookup_drop, !bit_list_lookup by lia.
    cbn [fmap option_fmap option_map mbind option_bind]. f_equal. unfold copies_set, zsum. change (upto 3) with [0; 1; 2]. cbn [foldr].
    replace (Z.of_nat (Z.to_nat (384 * i) + k)) with (384 * i + 128 * 0 + Z.of_nat k) by lia.
    replace (Z.of_nat (Z.to_nat (384 * i) + (128 + k))) with (384 * i + 128 * 1 + Z.of_nat k) by lia.
    replace (Z.of_nat (Z.to_nat (384 * i) + (256 + k))) with (384 * i + 128 * 2 + Z.of_nat k) by lia. lia.
  - rewrite (lookup_take_ge (drop (Z.to_nat (384 * i)) _)), (lookup_ge_None_2 (upto 128)) by (rewrite ?length_upto; lia). reflexivity.
Qed.

Lemma good_counts_nearest z i : good_counts (copies_set z i <$> upto 128) = true -> nearest 0 z i.
Proof.
  unfold good_counts. rewrite entries_eq. change (upto 128) with (0 :: seqZ 1 127). rewrite fmap_cons. intros H. apply andb_true_iff in H as [H0 H]. apply Z.ltb_lt in H0.
  assert (Hk : forall k, 1 <= k < 128 -> Z.abs (distance k z i - 192) < 192 - distance 0 z i).
  { intros k Hk. assert (Hin : distance k z i - 192 ∈ (fun k => distance k z i - 192) <$> seqZ 1 127) by (apply list_elem_of_fmap; exists k; split; [reflexivity|apply elem_of_seqZ; lia]).
    apply list_elem_of_In in Hin. pose proof (proj1 (forallb_forall _ _) H _ Hin) as Hlt. apply Z.ltb_lt in Hlt. lia. }
  intros other Ho Hne. destruct (byte_low_high other Ho) as (k & Hkr & Ek). destruct (Z.eq_dec k 0) as [->|Hk0].
  - destruct Ek as [->| ->]; [contradiction|]. rewrite distance_complement by lia. lia.
  - specialize (Hk k ltac:(lia)). destruct Ek as [->| ->]; [lia|]. rewrite distance_complement by exact Hkr. lia.
Qed.

(** Every block is harmless. *)
Definition all_good (z : Z) : bool := let bits := bit_list (384 * 46) z in forallb (fun i => good_counts (block_counts (drop (Z.to_nat (384 * i)) bits))) (upto 46).

Lemma all_good_blocks z : all_good z = true -> bad_blocks 0 z = 0%nat.
Proof.
  intros H. unfold bad_blocks. destruct (filter _ _) as [|i l] eqn:E; [reflexivity|exfalso]. assert (Hi : i ∈ i :: l) by apply list_elem_of_here.
  rewrite <- E in Hi. apply list_elem_of_filter in Hi as [Hn Hi]. apply Hn. rewrite Z.lxor_0_l. apply elem_of_seq in Hi.
  apply good_counts_nearest. rewrite <- (block_counts_eq z (384 * 46)) by lia. apply (check_upto 46 _ H (Z.of_nat i)). lia.
Qed.
