(* ===== verification/HqcBoot.v ===== *)
(** * What a device computes before its generator is seeded

    The generator of shake_prng.c starts in the all-zero state and the firmware never
    calls [shake_prng_init]: the first key pair of every root, and the first message of
    every node, are the constants below. *)

From S2P Require Import Prelude Carryless Words Fips202 Sponge Prng Gf Gf2x Vector Cyclic CryptoWorker Code Hqc Kem HqcCheck.

(** The generator in static storage. *)
Definition boot_prng : list Z := zeros 26.
Lemma boot_expander : expander boot_prng.
Proof.
  exists (zeros 25, 0). split; [reflexivity|]. split; [split; [reflexivity|apply Forall_replicate, width_0; lia]|split; reflexivity || discriminate].
Qed.

Definition boot_seed : bytes := [231; 221; 225; 64; 121; 143; 37; 241; 138; 71; 192; 51; 249; 204; 213; 132; 238; 169; 90; 166; 30; 38; 152; 213; 77; 73; 128; 111; 48; 71; 21; 189; 87;
  208; 83; 98; 5; 78; 40; 139].
Definition boot_message : words := [17376452488221285863; 9571781953733019530].

Lemma boot_seed_drawn : fst <$> shake_prng boot_prng (zeros SEED_BYTES) SEED_BYTES = Some boot_seed.
Proof. vm_compute. reflexivity. Qed.
Lemma boot_message_drawn : fst <$> vect_set_random_from_prng boot_prng (zeros VEC_K_SIZE_64) = Some boot_message.
Proof. vm_compute. reflexivity. Qed.

(** How many candidates the samplers may try; the runs below use less than 110. *)
Definition boot_fuel : nat := 300.

Lemma boot_noise_good : match sampled_noise boot_fuel boot_seed (hash G_FCT_DOMAIN (as_bytes boot_message)) with Some z => all_good z | None => false end = true.
Proof. vm_compute. reflexivity. Qed.

Lemma boot_seed_bytes : all_bytes boot_seed.
Proof. decided. Qed.

(** The noise of the first message to the first key. *)
Lemma boot_noise : exists z, sampled_noise boot_fuel boot_seed (hash G_FCT_DOMAIN (as_bytes boot_message)) = Some z /\ (bad_blocks 0 z <= 15)%nat.
Proof.
  pose proof boot_noise_good as H. destruct (sampled_noise _ _ _) as [z|]; [|discriminate H]. exists z. split; [reflexivity|].
  rewrite (all_good_blocks z H). apply Nat.le_0_l.
Qed.

(** The first key generation returns. *)
Lemma boot_secret_vectors : exists x y, secret_vectors boot_fuel boot_seed = Some (x, y).
Proof.
  destruct boot_noise as (z & E & _). refine (sampled_noise_secret boot_fuel boot_seed _ z boot_seed_bytes _ E); decided.
Qed.

Lemma keypair_run fuel g seed x y : expander g -> fst <$> shake_prng g (zeros SEED_BYTES) SEED_BYTES = Some seed -> secret_vectors fuel seed = Some (x, y) ->
  exists pk sk g' h s, crypto_kem_keypair fuel g (zeros PUBLIC_KEY_BYTES) (zeros SECRET_KEY_BYTES) = Some (0, pk, sk, g') /\ take 40 sk = seed /\ key_pair fuel pk sk x y h s.
Proof.
  intros Hg Es Ev. unfold crypto_kem_keypair.
  destruct (hqc_pke_keygen_eq fuel g (zeros PUBLIC_KEY_BYTES) (zeros SECRET_KEY_BYTES) Hg (length_zeros _) (length_zeros _)) as (seed' & g1 & g2 & Eseed & _ & _ & H).
  rewrite Eseed in Es. injection Es as ->. rewrite Ev in H. destruct H as (pk & sk & h & s & -> & Et & K). rewrite some_bind. exists pk, sk, g2, h, s. auto.
Qed.

Lemma boot_keypair : exists pk sk g' z, crypto_kem_keypair boot_fuel boot_prng (zeros PUBLIC_KEY_BYTES) (zeros SECRET_KEY_BYTES) = Some (0, pk, sk, g') /\ take 40 sk = boot_seed /\ length sk = 2289%nat /\ all_bytes sk /\ length pk = 2249%nat /\ all_bytes pk /\ (exists xy, secret_vectors boot_fuel (take 40 sk) = Some xy) /\
  decryption_noise boot_fuel sk boot_message = Some z /\ (bad_blocks 0 z <= 15)%nat.
Proof.
  destruct boot_secret_vectors as (x & y & Ev). destruct (keypair_run boot_fuel boot_prng boot_seed x y boot_expander boot_seed_drawn Ev) as (pk & sk & g' & h & s & Ek & Et & K).
  destruct boot_noise as (z & Ez & Hz). destruct (kp_sk _ _ _ _ _ _ _ K) as [Ls Bs]. destruct (kp_pk _ _ _ _ _ _ _ K) as [Lp Bp]. rewrite <- Et in Ez.
  destruct (sampled_noise_eq boot_fuel sk boot_message z Ls Bs eq_refl Ez) as [Hs Hn]. exists pk, sk, g', z. auto 10.
Qed.
