(* ===== verification/KemProps.v ===== *)
(** * What the key encapsulation guarantees

    The theorems about [crypto_kem_keypair], [crypto_kem_enc] and [crypto_kem_dec] with
    the runs of HqcBoot as their instances, and what follows for a generator that was
    never seeded: the secret depends on the public key alone. *)

From S2P Require Import Prelude Carryless Words Fips202 Sponge Prng Gf Gf2x Vector Cyclic CryptoWorker Code Hqc Kem HqcCheck HqcBoot.

(** ** What the calls leave in their buffers *)

Lemma encapsulate_wf fuel m pk ct ss : length m = 2%nat -> length pk = 2249%nat -> all_bytes pk -> encapsulate fuel m pk = Some (ct, ss) ->
  length ct = 4481%nat /\ all_bytes ct /\ length ss = 64%nat /\ all_bytes ss.
Proof.
  intros Lm Lp Bp E. unfold encapsulate in E. destruct (public_key_from_string_total pk Lp Bp) as (h & s & Epk & Hh & Hs).
  destruct (hash_message_wf m G_FCT_DOMAIN ltac:(auto)) as [Lt Bt]. destruct (hash_message_wf m H_FCT_DOMAIN ltac:(auto)) as [Ld Bd].
  pose proof (hqc_pke_encrypt_eq fuel (zeros VEC_N_SIZE_64) (zeros VEC_N1N2_SIZE_64) m (hash G_FCT_DOMAIN (as_bytes m)) pk h s eq_refl eq_refl (words_wf_zeros _) Lm Bt) as H.
  specialize (H ltac:(rewrite Lt; decided) Epk Hh Hs). destruct (encryption_vectors fuel _) as [[[r1 r2] e]|]; [|rewrite H in E; discriminate E].
  destruct H as (_ & _ & _ & code & u & v & Eenc & _ & _ & Hu & Lv & Wv & _). rewrite Eenc, some_bind in E. injection E as <- <-.
  split; [apply length_ciphertext; [apply Hu|exact Lv|exact Ld]|]. split; [|apply shared_secret_wf].
  repeat (apply Forall_app; split); [apply Forall_take, as_bytes_bytes|apply as_bytes_bytes|exact Bd].
Qed.

Lemma crypto_kem_enc_wf fuel g ct0 ss0 pk rc ct ss g' : expander g -> length ct0 = 4481%nat -> length ss0 = 64%nat -> length pk = 2249%nat -> all_bytes pk ->
  crypto_kem_enc fuel g ct0 ss0 pk = Some (rc, ct, ss, g') -> expander g' /\ length ct = 4481%nat /\ all_bytes ct /\ length ss = 64%nat /\ all_bytes ss.
Proof.
  intros Hg Lc Ls Lp Bp E. destruct (public_key_from_string_total pk Lp Bp) as (h & s & Epk & Hh & Hs).
  destruct (crypto_kem_enc_eq fuel g ct0 ss0 pk h s Hg Lc Ls Epk Hh Hs) as (m & g2 & _ & Hg2 & Lm & _ & E2). rewrite E in E2.
  destruct (encapsulate fuel m pk) as [[ct' ss']|] eqn:Ee; [rewrite some_bind in E2; injection E2 as -> -> -> ->|discriminate E2].
  split; [exact Hg2|]. exact (encapsulate_wf fuel m pk ct' ss' Lm Lp Bp Ee).
Qed.

Lemma encapsulate_total fuel m pk : length m = 2%nat -> length pk = 2249%nat -> all_bytes pk ->
  match encryption_vectors fuel (hash G_FCT_DOMAIN (as_bytes m)) with
  | None => encapsulate fuel m pk = None
  | Some _ => exists ct ss, encapsulate fuel m pk = Some (ct, ss)
  end.
Proof.
  intros Lm Lp Bp. unfold encapsulate. destruct (public_key_from_string_total pk Lp Bp) as (h & s & Epk & Hh & Hs).
  destruct (hash_message_wf m G_FCT_DOMAIN ltac:(auto)) as [Lt Bt].
  pose proof (hqc_pke_encrypt_eq fuel (zeros VEC_N_SIZE_64) (zeros VEC_N1N2_SIZE_64) m (hash G_FCT_DOMAIN (as_bytes m)) pk h s eq_refl eq_refl (words_wf_zeros _) Lm Bt) as H.
  specialize (H ltac:(rewrite Lt; decided) Epk Hh Hs). destruct (encryption_vectors fuel _) as [[[r1 r2] e]|]; [|rewrite H; reflexivity].
  destruct H as (_ & _ & _ & code & u & v & -> & _). rewrite some_bind. cbv beta iota. eexists _, _. reflexivity.
Qed.

(** ** Properties *)

(** C25. Key generation and encapsulation never go wrong: from any state of the generator,
    with output buffers of the sizes of api.h whatever they hold, and for encapsulation with any
    2249 bytes for the public key, the two calls stay inside their arrays and
    return 0 unless the rejection sampler runs out of candidates on the seed drawn (then
    the model is undefined, as the code would go on); the keys, the ciphertext and
    the secret are bytes of the right sizes, the ciphertext is the encapsulation of the
    message drawn, and the generator is left in a state to go on from. *)
Theorem kem_calls_total fuel g pk0 sk0 ct0 ss0 pk : expander g -> length pk0 = 2249%nat -> length sk0 = 2289%nat ->
  length ct0 = 4481%nat -> length ss0 = 64%nat -> length pk = 2249%nat -> all_bytes pk ->
  (exists seed g1, shake_prng g (zeros SEED_BYTES) SEED_BYTES = Some (seed, g1) /\ match secret_vectors fuel seed with
     | None => crypto_kem_keypair fuel g pk0 sk0 = None
     | Some _ => exists pk' sk' g', crypto_kem_keypair fuel g pk0 sk0 = Some (0, pk', sk', g') /\ expander g' /\
         take 40 sk' = seed /\ drop 40 sk' = pk' /\ length pk' = 2249%nat /\ all_bytes pk' /\ length sk' = 2289%nat /\ all_bytes sk'
     end) /\
  (exists m g', vect_set_random_from_prng g (zeros VEC_K_SIZE_64) = Some (m, g') /\ expander g' /\ match encryption_vectors fuel (hash G_FCT_DOMAIN (as_bytes m)) with
     | None => crypto_kem_enc fuel g ct0 ss0 pk = None
     | Some _ => exists ct ss, crypto_kem_enc fuel g ct0 ss0 pk = Some (0, ct, ss, g') /\ encapsulate fuel m pk = Some (ct, ss) /\
         length ct = 4481%nat /\ all_bytes ct /\ length ss = 64%nat /\ all_bytes ss
     end).
Proof.
  intros Hg Lp0 Ls0 Lc0 Lss0 Lp Bp. split.
  - destruct (hqc_pke_keygen_eq fuel g pk0 sk0 Hg Lp0 Ls0) as (seed & g1 & g2 & Es & _ & Hg2 & H). exists seed, g1. split; [exact Es|]. unfold crypto_kem_keypair.
    destruct (secret_vectors fuel seed) as [[x y]|]; [|rewrite H; reflexivity]. destruct H as (pk' & sk' & h & s & -> & Et & K). rewrite some_bind. cbv beta iota.
    exists pk', sk', g2. destruct (kp_pk _ _ _ _ _ _ _ K) as [Lk Bk], (kp_sk _ _ _ _ _ _ _ K) as [Lk' Bk']. pose proof (kp_tail _ _ _ _ _ _ _ K). auto 10.
  - destruct (public_key_from_string_total pk Lp Bp) as (h & s & Epk & Hh & Hs).
    destruct (crypto_kem_enc_eq fuel g ct0 ss0 pk h s Hg Lc0 Lss0 Epk Hh Hs) as (m & g' & Em & Hg' & Lm & _ & E). exists m, g'. split; [exact Em|]. split; [exact Hg'|].
    pose proof (encapsulate_total fuel m pk Lm Lp Bp) as Ht. destruct (encryption_vectors fuel _); [|rewrite E, Ht; reflexivity].
    destruct Ht as (ct & ss & Ee). exists ct, ss. rewrite E, Ee, some_bind. split; [reflexivity|]. split; [reflexivity|]. exact (encapsulate_wf fuel m pk ct ss Lm Lp Bp Ee).
Qed.

Lemma kem_calls_total_witness : exists seed g1 pk sk g2 m g3, shake_prng boot_prng (zeros SEED_BYTES) SEED_BYTES = Some (seed, g1) /\
  crypto_kem_keypair boot_fuel boot_prng (zeros PUBLIC_KEY_BYTES) (zeros SECRET_KEY_BYTES) = Some (0, pk, sk, g2) /\ take 40 sk = seed /\ length pk = 2249%nat /\ all_bytes pk /\
  vect_set_random_from_prng boot_prng (zeros VEC_K_SIZE_64) = Some (m, g3) /\ match encryption_vectors boot_fuel (hash G_FCT_DOMAIN (as_bytes m)) with
     | None => crypto_kem_enc boot_fuel boot_prng (zeros CIPHERTEXT_BYTES) (zeros SHARED_SECRET_BYTES) pk = None
     | Some _ => exists ct ss, crypto_kem_enc boot_fuel boot_prng (zeros CIPHERTEXT_BYTES) (zeros SHARED_SECRET_BYTES) pk = Some (0, ct, ss, g3) /\
         encapsulate boot_fuel m pk = Some (ct, ss) /\ length ct = 4481%nat /\ all_bytes ct /\ length ss = 64%nat /\ all_bytes ss
     end.
Proof.
  destruct boot_keypair as (pk & sk & g2 & z & Ek & _ & _ & _ & Lp & Bp & _).
  destruct (kem_calls_total boot_fuel boot_prng (zeros PUBLIC_KEY_BYTES) (zeros SECRET_KEY_BYTES) (zeros CIPHERTEXT_BYTES) (zeros SHARED_SECRET_BYTES) pk
    boot_expander (length_zeros _) (length_zeros _) (length_zeros _) (length_zeros _) Lp Bp) as ((seed & g1 & Es & Hk) & (m & g3 & Em & _ & He)).
  destruct (secret_vectors boot_fuel seed) as [xy|]; [|rewrite Ek in Hk; discriminate Hk]. destruct Hk as (pk' & sk' & g' & Ek' & _ & Et & _).
  rewrite Ek in Ek'. injection Ek' as <- <- <-. exists seed, g1, pk, sk, g2, m, g3. auto 10.
Defined.

(** C23. Decapsulation never goes wrong: whatever bytes a ciphertext and a secret key of the
    right sizes hold, decapsulation decodes some message, stays inside its arrays, and
    returns unless a sampler does; a message that it accepts is one whose encapsulation is
    the ciphertext, and a ciphertext that it refuses gives -1 and a secret of zeros. *)
Theorem kem_dec_total fuel ss0 ct sk x y : length ct = 4481%nat -> all_bytes ct -> length sk = 2289%nat -> all_bytes sk -> length ss0 = 64%nat ->
  secret_vectors fuel (take 40 sk) = Some (x, y) ->
  exists m, length m = 2%nat /\ words_wf m /\ match encryption_vectors fuel (hash G_FCT_DOMAIN (as_bytes m)) with
    | None => crypto_kem_dec fuel ss0 ct sk = None
    | Some _ => exists ct' ss, encapsulate fuel m (drop 40 sk) = Some (ct', ss) /\ length ss = 64%nat /\
        crypto_kem_dec fuel ss0 ct sk = Some (if bool_decide (ct' = ct) then (0, ss) else (-1, zeros 64))
    end.
Proof.
  intros Lct Bct Lsk Bsk Lss Ev. rewrite crypto_kem_dec_eq by assumption. unfold decapsulate.
  destruct (ciphertext_from_string_total ct (zeros SHAKE256_512_BYTES) Lct Bct eq_refl) as (u & v & d & -> & Hu & Lv & Wv & _). rewrite some_bind. cbv beta iota.
  pose proof (hqc_pke_decrypt_any fuel u v sk Hu Lv Wv Lsk Bsk) as Hm. rewrite Ev in Hm. destruct Hm as (m & -> & Lm & Wm). rewrite some_bind.
  exists m. split; [exact Lm|]. split; [exact Wm|]. change (Z.to_nat SEED_BYTES) with 40%nat. unfold encapsulate.
  destruct (public_key_from_string_total (drop 40 sk)) as (h & s & Epk & Hh & Hs); [rewrite length_drop, Lsk; reflexivity|apply Forall_drop, Bsk|].
  destruct (hash_message_wf m G_FCT_DOMAIN ltac:(auto)) as [Lt Bt].
  pose proof (hqc_pke_encrypt_eq fuel (zeros VEC_N_SIZE_64) (zeros VEC_N1N2_SIZE_64) m (hash G_FCT_DOMAIN (as_bytes m)) (drop 40 sk) h s eq_refl eq_refl (words_wf_zeros _) Lm Bt) as H.
  specialize (H ltac:(rewrite Lt; decided) Epk Hh Hs). destruct (encryption_vectors fuel _) as [[[r1 r2] e]|]; [|rewrite H; reflexivity].
  destruct H as (_ & _ & _ & code & u' & v' & -> & _). rewrite !some_bind. cbv beta iota. eexists _, _. split; [reflexivity|]. split; [apply shared_secret_wf|reflexivity].
Qed.

(** C21. What is encapsulated is decapsulated: with a pair of keys that the key generator
    returned and a message drawn from the generator of the sender, if the samplers return
    and the noise of the two is harmful in at most 15 of the 46 blocks, then
    encapsulation returns 0 and decapsulation of its ciphertext returns 0 and the secret
    that encapsulation gave, whatever the four output buffers held. *)
Theorem hqc_kem_correct fuel g pk0 sk0 rc pk sk g1 g2 m g3 z ct0 ss0 ss1 : expander g -> length pk0 = 2249%nat -> length sk0 = 2289%nat ->
  crypto_kem_keypair fuel g pk0 sk0 = Some (rc, pk, sk, g1) ->
  expander g2 -> length ct0 = 4481%nat -> length ss0 = 64%nat -> length ss1 = 64%nat ->
  vect_set_random_from_prng g2 (zeros VEC_K_SIZE_64) = Some (m, g3) ->
  decryption_noise fuel sk m = Some z -> (bad_blocks 0 z <= 15)%nat ->
  rc = 0 /\ exists ct ss, crypto_kem_enc fuel g2 ct0 ss0 pk = Some (0, ct, ss, g3) /\ crypto_kem_dec fuel ss1 ct sk = Some (0, ss).
Proof.
  intros Hg Lp Ls Ekey Hg2 Lct Lss Lss1 Em Ez Hbad. destruct (crypto_kem_keypair_eq fuel g pk0 sk0 rc pk sk g1 Hg Lp Ls Ekey) as (-> & _ & gs & x & y & h & s & _ & Ev & K).
  split; [reflexivity|]. destruct (crypto_kem_enc_eq fuel g2 ct0 ss0 pk h s Hg2 Lct Lss (kp_public _ _ _ _ _ _ _ K) (kp_h _ _ _ _ _ _ _ K)) as (m' & g3' & Em' & _ & Lm & Wm & ->).
  { apply vector_array, (kp_s _ _ _ _ _ _ _ K). }
  rewrite Em in Em'. injection Em' as <- <-. destruct (encapsulate_back fuel pk sk x y h s m z K Ev Lm Wm Ez Hbad) as (ct & ss & -> & Lc & Bc & Ed). rewrite some_bind. cbv beta iota.
  exists ct, ss. split; [reflexivity|]. rewrite crypto_kem_dec_eq by (assumption || apply K). exact Ed.
Qed.

Lemma hqc_kem_correct_witness : exists pk sk g1 g3 ct ss, crypto_kem_keypair boot_fuel boot_prng (zeros PUBLIC_KEY_BYTES) (zeros SECRET_KEY_BYTES) = Some (0, pk, sk, g1) /\
  crypto_kem_enc boot_fuel boot_prng (zeros CIPHERTEXT_BYTES) (zeros SHARED_SECRET_BYTES) pk = Some (0, ct, ss, g3) /\
  crypto_kem_dec boot_fuel (zeros SHARED_SECRET_BYTES) ct sk = Some (0, ss).
Proof.
  destruct boot_keypair as (pk & sk & g1 & z & Ek & _ & _ & _ & _ & _ & _ & Ez & Hz). pose proof boot_message_drawn as Em.
  destruct (vect_set_random_from_prng boot_prng (zeros VEC_K_SIZE_64)) as [[m g3]|] eqn:E; [injection Em as ->|discriminate Em].
  destruct (hqc_kem_correct boot_fuel boot_prng (zeros PUBLIC_KEY_BYTES) (zeros SECRET_KEY_BYTES) 0 pk sk g1 boot_prng boot_message g3 z (zeros CIPHERTEXT_BYTES) (zeros SHARED_SECRET_BYTES) (zeros SHARED_SECRET_BYTES)
    boot_expander eq_refl eq_refl Ek boot_expander eq_refl eq_refl eq_refl E Ez Hz) as (_ & ct & ss & Henc & Hdec).
  exists pk, sk, g1, g3, ct, ss. auto.
Defined.

Lemma kem_dec_total_witness : exists pk sk g1 m, crypto_kem_keypair boot_fuel boot_prng (zeros PUBLIC_KEY_BYTES) (zeros SECRET_KEY_BYTES) = Some (0, pk, sk, g1) /\
  length m = 2%nat /\ words_wf m /\ match encryption_vectors boot_fuel (hash G_FCT_DOMAIN (as_bytes m)) with
    | None => crypto_kem_dec boot_fuel (zeros 64) (zeros CIPHERTEXT_BYTES) sk = None
    | Some _ => exists ct' ss, encapsulate boot_fuel m (drop 40 sk) = Some (ct', ss) /\ length ss = 64%nat /\
        crypto_kem_dec boot_fuel (zeros 64) (zeros CIPHERTEXT_BYTES) sk = Some (if bool_decide (ct' = zeros CIPHERTEXT_BYTES) then (0, ss) else (-1, zeros 64))
    end.
Proof.
  destruct boot_keypair as (pk & sk & g1 & z & Ek & _ & Ls & Bs & _ & _ & ([x y] & Ev) & _ & _).
  destruct (kem_dec_total boot_fuel (zeros 64) (zeros CIPHERTEXT_BYTES) sk x y (length_zeros _) (all_bytes_zeros _) Ls Bs (length_zeros _) Ev) as (m & H).
  exists pk, sk, g1, m. split; [exact Ek|exact H].
Defined.

(** C24. A generator that was never seeded gives no secrecy: the secret key of a root that
    draws its keys from it begins with 40 known bytes, and what a node that draws from it
    encapsulates to any public key, the shared secret included, is a function of that
    public key alone, which travels in the clear. *)
Theorem boot_secret_public fuel g pk0 sk0 rc pk sk g1 ct0 ss0 : expander g -> length pk0 = 2249%nat -> length sk0 = 2289%nat ->
  crypto_kem_keypair fuel g pk0 sk0 = Some (rc, pk, sk, g1) -> length ct0 = 4481%nat -> length ss0 = 64%nat ->
  (g = boot_prng -> take 40 sk = boot_seed) /\
  exists g2, crypto_kem_enc fuel boot_prng ct0 ss0 pk = ('(ct, ss) ← encapsulate fuel boot_message pk; Some (0, ct, ss, g2)).
Proof.
  intros Hg Lp Ls Ek Lc Lss. destruct (crypto_kem_keypair_eq fuel g pk0 sk0 rc pk sk g1 Hg Lp Ls Ek) as (_ & _ & gs & x & y & h & s & Es & _ & K). split.
  - intros ->. pose proof boot_seed_drawn as E. rewrite Es in E. injection E as E. exact E.
  - destruct (crypto_kem_enc_eq fuel boot_prng ct0 ss0 pk h s boot_expander Lc Lss (kp_public _ _ _ _ _ _ _ K) (kp_h _ _ _ _ _ _ _ K)) as (m & g2 & Em & _ & _ & _ & E);
      [apply vector_array, (kp_s _ _ _ _ _ _ _ K)|].
    pose proof boot_message_drawn as Ed. rewrite Em in Ed. injection Ed as ->. exists g2. exact E.
Qed.

Lemma boot_secret_public_witness : exists pk sk g1 g2, crypto_kem_keypair boot_fuel boot_prng (zeros PUBLIC_KEY_BYTES) (zeros SECRET_KEY_BYTES) = Some (0, pk, sk, g1) /\
  take 40 sk = boot_seed /\ crypto_kem_enc boot_fuel boot_prng (zeros CIPHERTEXT_BYTES) (zeros SHARED_SECRET_BYTES) pk =
    ('(ct, ss) ← encapsulate boot_fuel boot_message pk; Some (0, ct, ss, g2)).
Proof.
  destruct boot_keypair as (pk & sk & g1 & z & Ek & _).
  destruct (boot_secret_public boot_fuel boot_prng (zeros PUBLIC_KEY_BYTES) (zeros SECRET_KEY_BYTES) 0 pk sk g1 (zeros CIPHERTEXT_BYTES) (zeros SHARED_SECRET_BYTES) boot_expander eq_refl eq_refl Ek eq_refl eq_refl) as (Hs & g2 & E).
  exists pk, sk, g1, g2. split; [exact Ek|]. split; [exact (Hs eq_refl)|exact E].
Defined.
