(* ===== verification/Session.v ===== *)
(** * Sessions: [src/src/PQC/session_manager.c]

    The session record, its operations, and the manager's storage: the session of
    a node, and the table of ten sessions of the root.  An operation works on the
    session its pointer denotes; the [NULL] tests on those pointers have no
    counterpart, and where a caller may hold no session the pointer is an
    [option] of a reference. *)

From S2P Require Import Prelude Platform Metrics CryptoWorker.

(* src/src/PQC/session_manager.h:10-10 SESSION_MAX_NODES *)
Definition SESSION_MAX_NODES : Z := 10.
(* src/src/PQC/session_manager.h:11-11 SESSION_INVALID_NODE_ID *)
Definition SESSION_INVALID_NODE_ID : Z := 0xffff.
(* src/src/PQC/session_manager.h:12-12 SESSION_MAX_RETRIES *)
Definition SESSION_MAX_RETRIES : Z := 3.

#[export] Hint Unfold SESSION_MAX_NODES SESSION_INVALID_NODE_ID SESSION_MAX_RETRIES : c_consts.

(* src/src/PQC/session_manager.h:20-23 session_role_t *)
Inductive session_role_t := SESSION_ROLE_NODE | SESSION_ROLE_ROOT.

(* src/src/PQC/session_manager.h:25-33 session_state_t *)
Inductive session_state_t :=
| SESSION_STATE_UNUSED
| SESSION_STATE_IDLE
| SESSION_STATE_WAIT_PK
| SESSION_STATE_WAIT_CT
| SESSION_STATE_WAIT_ACK
| SESSION_STATE_ESTABLISHED
| SESSION_STATE_FAILED.

#[export] Instance session_role_dec : EqDecision session_role_t.
Proof. solve_decision. Defined.
#[export] Instance session_state_dec : EqDecision session_state_t.
Proof. solve_decision. Defined.

Section SessionManager.
Context `{Platform}.

(* src/src/PQC/session_manager.h:18-18 SESSION_RETRY_TIMEOUT *)
Definition SESSION_RETRY_TIMEOUT : Z := 120 * CLOCK_SECOND.

(* src/src/PQC/session_manager.h:35-67 session_t *)
Record session_t := mk_session {
  used : Z;
  node_id : Z;
  role : session_role_t;
  state : session_state_t;
  established : Z;
  next_msg_id : Z;
  tx_counter : Z;
  rx_counter : Z;
  ss : bytes;
  aes_key : bytes;
  retry_count : Z;
  pending_msg_type : Z;
  pending_msg_id : Z;
  waiting_response : Z;
  has_peer_addr : Z;
  peer_addr : uip_ipaddr_t;
  last_activity : Z;
  retry_deadline : Z;
  metrics : pqc_metrics_snapshot_t;
  node_metric_values : list (list Z);
  node_metrics_mask : Z;
  session_summary_emitted : Z;
}.
#[export] Instance eta_session : Eta session_t := fun r =>
  mk_session (used r) (node_id r) (role r) (state r) (established r) (next_msg_id r)
    (tx_counter r) (rx_counter r) (ss r) (aes_key r) (retry_count r) (pending_msg_type r)
    (pending_msg_id r) (waiting_response r) (has_peer_addr r) (peer_addr r) (last_activity r)
    (retry_deadline r) (metrics r) (node_metric_values r) (node_metrics_mask r)
    (session_summary_emitted r).

(** The array [node_metric_values] of zeros. *)
Definition metric_values_zero : list (list Z) :=
  replicate (Z.to_nat (PQC_METRICS_GROUP_COUNT + 1)) (zeros 4).

(** A session of zero bytes, [memset(s, 0, sizeof( *s))]. *)
Definition session_zero : session_t :=
  mk_session 0 0 SESSION_ROLE_NODE SESSION_STATE_UNUSED 0 0 0 0 (zeros CW_HQC_SHARED_LEN)
    (zeros CW_AES_KEY_LEN) 0 0 0 0 0 uip_ipaddr_zero 0 0 snapshot_zero metric_values_zero 0 0.

(** The metrics of a session. *)
Definition on_metrics {A} : M pqc_metrics_snapshot_t A -> M session_t A :=
  zoom metrics (fun m s => s <| metrics := m |>).

(* src/src/PQC/session_manager.c:142-147 session_touch *)
Definition session_touch : M session_t unit :=
  now ← clock_time;
  modify (fun s => s <| last_activity := now |>).

(* src/src/PQC/session_manager.c:10-18 session_clear_secrets *)
Definition session_clear_secrets : M session_t unit :=
  s ← get;
  ss' ← lift (crypto_worker_secure_zero (ss s) CW_HQC_SHARED_LEN);
  modify (fun s => s <| ss := ss' |>);;
  key' ← lift (crypto_worker_secure_zero (aes_key s) CW_AES_KEY_LEN);
  modify (fun s => s <| aes_key := key' |>).

(* src/src/PQC/session_manager.c:20-33 session_init *)
Definition session_init (role' : session_role_t) (id : Z) : M session_t unit :=
  put session_zero;;
  modify (fun s => s <| used := 1 |> <| role := role' |> <| node_id := id |>
                     <| state := SESSION_STATE_IDLE |> <| metrics := pqc_metrics_init id |>);;
  session_touch.

(* src/src/PQC/session_manager.c:149-158 session_set_peer_addr *)
Definition session_set_peer_addr (addr : uip_ipaddr_t) : M session_t unit :=
  modify (fun s => s <| peer_addr := addr |> <| has_peer_addr := 1 |>);;
  session_touch.

(* src/src/PQC/session_manager.c:35-61 session_reset *)
Definition session_reset : M session_t unit :=
  old ← get;
  session_clear_secrets;;
  session_init (role old) (node_id old);;
  modify (fun s => s <| metrics := metrics old |>);;
  modify (fun s => s <| metrics ::= (fun m => pqc_metrics_set_node_id m (node_id old)) |>);;
  if negb (has_peer_addr old =? 0) then session_set_peer_addr (peer_addr old) else mret tt.

(* src/src/PQC/session_manager.c:122-125 session_is_root *)
Definition session_is_root (s : session_t) : bool := bool_decide (role s = SESSION_ROLE_ROOT).

(* src/src/PQC/session_manager.c:127-130 session_is_node *)
Definition session_is_node (s : session_t) : bool := bool_decide (role s = SESSION_ROLE_NODE).

(* src/src/PQC/session_manager.c:132-135 session_is_established *)
Definition session_is_established (s : session_t) : bool :=
  bool_decide (state s = SESSION_STATE_ESTABLISHED) && negb (established s =? 0).

(* src/src/PQC/session_manager.c:137-140 session_is_failed *)
Definition session_is_failed (s : session_t) : bool :=
  bool_decide (state s = SESSION_STATE_FAILED).

(* src/src/PQC/session_manager.c:160-171 session_set_pending *)
Definition session_set_pending (msg_type msg_id : Z) : M session_t unit :=
  modify (fun s => s <| pending_msg_type := msg_type |> <| pending_msg_id := msg_id |>
                     <| waiting_response := 1 |>);;
  now ← clock_time;
  modify (fun s => s <| retry_deadline := uclk (now + SESSION_RETRY_TIMEOUT) |>);;
  session_touch.

(* src/src/PQC/session_manager.c:173-183 session_clear_pending *)
Definition session_clear_pending : M session_t unit :=
  modify (fun s => s <| pending_msg_type := 0 |> <| pending_msg_id := 0 |>
                     <| waiting_response := 0 |> <| retry_count := 0 |>).

(* src/src/PQC/session_manager.c:185-192 session_retry_due *)
Definition session_retry_due : M session_t bool :=
  s ← get;
  if waiting_response s =? 0 then mret false else
  now ← clock_time;
  mret (retry_deadline s <=? now).

(* src/src/PQC/session_manager.c:194-197 session_can_retry *)
Definition session_can_retry (s : session_t) : bool := retry_count s <? SESSION_MAX_RETRIES.

(* src/src/PQC/session_manager.c:199-208 session_mark_retry *)
Definition session_mark_retry : M session_t unit :=
  modify (fun s => s <| retry_count ::= (fun n => u8 (n + 1)) |>);;
  now ← clock_time;
  modify (fun s => s <| retry_deadline := uclk (now + SESSION_RETRY_TIMEOUT) |>);;
  session_touch.

(* src/src/PQC/session_manager.c:210-215 session_set_wait_pk *)
Definition session_set_wait_pk : M session_t unit :=
  modify (fun s => s <| state := SESSION_STATE_WAIT_PK |>).

(* src/src/PQC/session_manager.c:217-222 session_set_wait_ct *)
Definition session_set_wait_ct : M session_t unit :=
  modify (fun s => s <| state := SESSION_STATE_WAIT_CT |>).

(* src/src/PQC/session_manager.c:224-229 session_set_wait_ack *)
Definition session_set_wait_ack : M session_t unit :=
  modify (fun s => s <| state := SESSION_STATE_WAIT_ACK |>).

(* src/src/PQC/session_manager.c:231-238 session_set_established *)
Definition session_set_established : M session_t unit :=
  modify (fun s => s <| state := SESSION_STATE_ESTABLISHED |> <| established := 1 |>);;
  session_clear_pending.

(* src/src/PQC/session_manager.c:240-250 session_set_failed *)
Definition session_set_failed : M session_t unit :=
  s ← get;
  (if session_is_failed s then mret tt else on_metrics pqc_metrics_handshake_failure);;
  modify (fun s => s <| state := SESSION_STATE_FAILED |> <| established := 0 |>);;
  session_clear_pending.

(* src/src/PQC/session_manager.c:252-259 session_next_msg_id *)
Definition session_next_msg_id : M session_t Z :=
  s ← get;
  modify (fun s => s <| next_msg_id ::= (fun n => u8 (n + 1)) |>);;
  mret (next_msg_id s).

(* src/src/PQC/session_manager.c:261-268 session_next_tx_counter *)
Definition session_next_tx_counter : M session_t Z :=
  s ← get;
  modify (fun s => s <| tx_counter ::= inc32 |>);;
  mret (tx_counter s).

(* src/src/PQC/session_manager.c:279-286 session_peek_rx_counter *)
Definition session_peek_rx_counter (s : session_t) : Z := rx_counter s.

(* src/src/PQC/session_manager.c:288-293 session_commit_rx_counter *)
Definition session_commit_rx_counter : M session_t unit :=
  modify (fun s => s <| rx_counter ::= inc32 |>).

(* src/src/PQC/session_manager.c:270-277 session_next_rx_counter *)
Definition session_next_rx_counter : M session_t Z :=
  counter ← gets session_peek_rx_counter;
  session_commit_rx_counter;;
  mret counter.

(** ** The manager *)

(** The file's static variables. *)
(* src/src/PQC/session_manager.c:6-8 manager_role *)
Record store := mk_store {
  manager_role : session_role_t;
  local_session : session_t;
  sessions : list session_t;
}.
#[export] Instance eta_store : Eta store := fun r =>
  mk_store (manager_role r) (local_session r) (sessions r).

(** A [session_t *] that is not [NULL]. *)
Inductive sref := Local | Slot (i : nat).

#[export] Instance sref_dec : EqDecision sref.
Proof. solve_decision. Defined.

Definition deref (st : store) (r : sref) : option session_t :=
  match r with Local => Some (local_session st) | Slot i => sessions st !! i end.

(** Run an operation on the session behind a pointer. *)
Definition at_session {A} (r : sref) (m : M session_t A) : M store A :=
  match r with
  | Local => zoom local_session (fun s st => st <| local_session := s |>) m
  | Slot i => zoom sessions (fun l st => st <| sessions := l |>) (zoom_at i m)
  end.

(** Static variables at boot. *)
Definition store_zero : store :=
  mk_store SESSION_ROLE_NODE session_zero (replicate (Z.to_nat SESSION_MAX_NODES) session_zero).

(* src/src/PQC/session_manager.c:63-73 session_manager_init *)
Definition session_manager_init (local_role : session_role_t) : M store unit :=
  modify (fun st => st <| manager_role := local_role |>
    <| sessions := replicate (Z.to_nat SESSION_MAX_NODES) session_zero |>);;
  if bool_decide (local_role = SESSION_ROLE_NODE)
  then at_session Local (session_init SESSION_ROLE_NODE SESSION_INVALID_NODE_ID)
  else modify (fun st => st <| local_session := session_zero |>).

(* src/src/PQC/session_manager.c:75-78 session_manager_get_local *)
Definition session_manager_get_local (st : store) : option sref :=
  if bool_decide (manager_role st = SESSION_ROLE_NODE) then Some Local else None.

(** The first slot that satisfies a test. *)
Definition first_slot (p : session_t -> bool) (st : store) : option sref :=
  Slot ∘ fst <$> list_find (fun s => p s = true) (sessions st).

(* src/src/PQC/session_manager.c:80-91 session_manager_find *)
Definition session_manager_find (id : Z) (st : store) : option sref :=
  first_slot (fun s => negb (used s =? 0) && (node_id s =? id)) st.

(* src/src/PQC/session_manager.c:93-100 session_manager_get_by_index *)
Definition session_manager_get_by_index (index : Z) (st : store) : option sref :=
  if SESSION_MAX_NODES <=? index then None else
  match sessions st !! Z.to_nat index with
  | Some s => if used s =? 0 then None else Some (Slot (Z.to_nat index))
  | None => None
  end.

(* src/src/PQC/session_manager.c:102-120 session_manager_get_or_create *)
Definition session_manager_get_or_create (id : Z) : M store (option sref) :=
  st ← get;
  match session_manager_find id st with
  | Some r => mret (Some r)
  | None =>
      match first_slot (fun s => used s =? 0) st with
      | Some r => at_session r (session_init SESSION_ROLE_ROOT id);; mret (Some r)
      | None => mret None
      end
  end.

End SessionManager.

(** ** Well-formed sessions *)

Section SessionFacts.
Context `{PlatformLaws}.

Record session_wf (s : session_t) : Prop := {
  sw_used : used s = 0 \/ used s = 1;
  sw_node_id : is_u16 (node_id s);
  sw_msg_id : is_u8 (next_msg_id s);
  sw_tx : is_u32 (tx_counter s);
  sw_rx : is_u32 (rx_counter s);
  sw_ss : is_secret (ss s);
  sw_key : is_aes_key (aes_key s);
  sw_retry : is_u8 (retry_count s);
  sw_pending : is_u8 (pending_msg_type s) /\ is_u8 (pending_msg_id s);
  sw_metrics : snapshot_wf (metrics s);
  sw_values : length (node_metric_values s) = 8%nat /\
              Forall (fun v => length v = 4%nat) (node_metric_values s);
}.

(** Sessions with equal fields are equal. *)
Lemma session_ext a b :
  used a = used b ->
  node_id a = node_id b ->
  role a = role b ->
  state a = state b ->
  established a = established b ->
  next_msg_id a = next_msg_id b ->
  tx_counter a = tx_counter b ->
  rx_counter a = rx_counter b ->
  ss a = ss b ->
  aes_key a = aes_key b ->
  retry_count a = retry_count b ->
  pending_msg_type a = pending_msg_type b ->
  pending_msg_id a = pending_msg_id b ->
  waiting_response a = waiting_response b ->
  has_peer_addr a = has_peer_addr b ->
  peer_addr a = peer_addr b ->
  last_activity a = last_activity b ->
  retry_deadline a = retry_deadline b ->
  metrics a = metrics b ->
  node_metric_values a = node_metric_values b ->
  node_metrics_mask a = node_metrics_mask b ->
  session_summary_emitted a = session_summary_emitted b ->
  a = b.
Proof. destruct a, b. cbn. intros. subst. reflexivity. Qed.

(** Equality of updated sessions, field by field. *)
Ltac session_eq := apply session_ext; rsimpl; try reflexivity; try assumption.

Lemma zeros_secret : is_secret (zeros CW_HQC_SHARED_LEN).
Proof. split; [reflexivity|apply Forall_replicate, byte_0]. Qed.
Lemma zeros_aes_key : is_aes_key (zeros CW_AES_KEY_LEN).
Proof. split; [reflexivity|apply Forall_replicate, byte_0]. Qed.

Lemma snapshot_init_wf id : snapshot_wf (pqc_metrics_init id).
Proof. unfold snapshot_wf. cbn. snapshot_words_tac. Qed.
Lemma snapshot_zero_wf : snapshot_wf snapshot_zero.
Proof. unfold snapshot_wf. cbn. snapshot_words_tac. Qed.

Lemma metric_values_zero_wf :
  length metric_values_zero = 8%nat /\ Forall (fun v => length v = 4%nat) metric_values_zero.
Proof. split; [reflexivity|]. apply Forall_replicate. reflexivity. Qed.

Lemma session_zero_wf : session_wf session_zero.
Proof.
  constructor; cbn; auto using zeros_secret, zeros_aes_key, snapshot_zero_wf, metric_values_zero_wf;
    try (unfold in_width; lia).
Qed.

Lemma wp_clear_secrets Q e s :
  session_wf s ->
  Q tt e (s <| ss := zeros CW_HQC_SHARED_LEN |> <| aes_key := zeros CW_AES_KEY_LEN |>) ->
  wp session_clear_secrets Q e s.
Proof.
  intros Hs HQ. unfold session_clear_secrets. destruct (sw_ss _ Hs) as [Hl _], (sw_key _ Hs) as [Hk _].
  wp_steps. apply wp_lift. eexists. split; [apply secure_zero_eq; symmetry; exact Hl|]. wp_steps.
  apply wp_lift. eexists. split; [apply secure_zero_eq; symmetry; exact Hk|]. wp_steps. exact HQ.
Qed.

(** The session after a reset. *)
Definition reset_session (s : session_t) (t : Z) : session_t :=
  let s' := session_zero <| used := 1 |> <| role := role s |> <| node_id := node_id s |>
              <| state := SESSION_STATE_IDLE |> <| last_activity := t |>
              <| metrics := pqc_metrics_set_node_id (metrics s) (node_id s) |> in
  if has_peer_addr s =? 0 then s'
  else s' <| has_peer_addr := 1 |> <| peer_addr := peer_addr s |>.

Lemma wp_session_reset Q e s :
  session_wf s ->
  (forall e' s', s' = reset_session s (last_activity s') -> Q tt e' s') ->
  wp session_reset Q e s.
Proof.
  intros Hs HQ. unfold session_reset. wp_steps. apply wp_clear_secrets; [exact Hs|].
  unfold session_init, session_set_peer_addr, session_touch.
  wp_steps; apply HQ; unfold reset_session; case_bools.
  - rewrite (proj2 (Z.eqb_neq _ _)) by assumption. session_eq.
  - rewrite (proj2 (Z.eqb_eq _ _)) by assumption. session_eq.
Qed.

Lemma set_node_id_wf m nid : snapshot_wf m -> snapshot_wf (pqc_metrics_set_node_id m nid).
Proof. intros Hm. exact Hm. Qed.

Lemma reset_session_wf s t : session_wf s -> session_wf (reset_session s t).
Proof.
  intros Hs. pose proof session_zero_wf as Hz. unfold reset_session. destruct Hs, Hz.
  case_if; constructor; rsimpl; auto; try (apply set_node_id_wf; assumption).
Qed.

Lemma session_init_wf role' id e s :
  is_u16 id ->
  wp (session_init role' id) (fun _ _ s' => session_wf s' /\ used s' = 1 /\ node_id s' = id /\
    role s' = role' /\ state s' = SESSION_STATE_IDLE /\ established s' = 0 /\
    (pending_msg_type s', waiting_response s', retry_count s', ss s', aes_key s') =
      (0, 0, 0, zeros CW_HQC_SHARED_LEN, zeros CW_AES_KEY_LEN)) e s.
Proof.
  intros Hid. pose proof session_zero_wf as Hz. unfold session_init, session_touch. wp_steps.
  split; [|repeat split]. destruct Hz.
  constructor; rsimpl; auto using snapshot_init_wf.
Qed.

Lemma handshake_failure_wp Q e m :
  snapshot_wf m ->
  (forall e' m', snapshot_wf m' -> failure (handshake m') = inc32 (failure (handshake m)) ->
     success (handshake m') = success (handshake m) ->
     attempts (handshake m') = attempts (handshake m) -> Q tt e' m') ->
  wp pqc_metrics_handshake_failure Q e m.
Proof.
  intros Hm HQ. assert (Hw : is_u32 (handshake_started_at (handshake m)) /\
    is_u32 (handshake_ticks_max (handshake m))).
  { unfold snapshot_wf in Hm. cbn in Hm. repeat apply list.Forall_cons in Hm as [? Hm]. auto. }
  destruct Hw as [Hst Hmx]. unfold pqc_metrics_handshake_failure. wp_steps.
  apply wp_ticks_update; rsimpl; [exact Hst|intros E0|intros E0]; apply HQ; rsimpl; try reflexivity.
  - unfold snapshot_wf in *. cbn in Hm |- *. snapshot_words_tac.
  - set (d := u32 _). assert (Hd : is_u32 d) by apply u32_range.
    assert (Hx : is_u32 (Z.max d (handshake_ticks_max (handshake m)))) by (apply Z.max_case; assumption).
    clearbody d. unfold snapshot_wf in *. cbn in Hm |- *. snapshot_words_tac.
Qed.

(** ** The table *)

Record store_wf (st : store) : Prop := {
  tw_length : Z.of_nat (length (sessions st)) = SESSION_MAX_NODES;
  tw_local : session_wf (local_session st);
  tw_sessions : Forall session_wf (sessions st);
  tw_unique : forall i j si sj, sessions st !! i = Some si -> sessions st !! j = Some sj ->
    used si <> 0 -> used sj <> 0 -> node_id si = node_id sj -> i = j;
}.

Lemma store_zero_wf : store_wf store_zero.
Proof.
  constructor; [reflexivity|apply session_zero_wf|apply Forall_replicate, session_zero_wf|].
  intros i j si sj Hi _ Hu. apply lookup_replicate_1 in Hi as [-> _]. contradiction Hu. reflexivity.
Qed.

Lemma first_slot_some p st r :
  first_slot p st = Some r -> exists i s, r = Slot i /\ sessions st !! i = Some s /\ p s = true.
Proof.
  unfold first_slot. destruct (list_find _ _) as [[i s]|] eqn:E; [|discriminate].
  intros [= <-]. apply list_find_Some in E as (Hi & Hp & _). exists i, s. auto.
Qed.

Lemma first_slot_none p st i s :
  first_slot p st = None -> sessions st !! i = Some s -> p s = false.
Proof.
  unfold first_slot. destruct (list_find _ _) as [[j t]|] eqn:E; [discriminate|].
  intros _ Hi. apply list_find_None in E. rewrite list.Forall_forall in E.
  apply list_elem_of_lookup_2 in Hi. specialize (E _ Hi). destruct (p s); [contradiction E; reflexivity|reflexivity].
Qed.

Lemma find_some id st r :
  session_manager_find id st = Some r ->
  exists i s, r = Slot i /\ sessions st !! i = Some s /\ used s <> 0 /\ node_id s = id.
Proof.
  intros Hf. apply first_slot_some in Hf as (i & s & -> & Hi & Hp). case_bools. exists i, s. auto.
Qed.

Lemma find_none id st i s :
  session_manager_find id st = None -> sessions st !! i = Some s -> used s <> 0 -> node_id s <> id.
Proof.
  intros Hf Hi Hu He. pose proof (first_slot_none _ _ _ _ Hf Hi) as Hp. cbv beta in Hp.
  rewrite He, Z.eqb_refl, andb_true_r in Hp. case_bools. contradiction.
Qed.

(** In a well-formed table a used slot is found by its identifier. *)
Lemma find_unique id st i s :
  store_wf st -> sessions st !! i = Some s -> used s <> 0 -> node_id s = id ->
  session_manager_find id st = Some (Slot i).
Proof.
  intros Hwf Hi Hu He. destruct (session_manager_find id st) as [r|] eqn:E.
  - apply find_some in E as (j & t & -> & Hj & Hut & Ht).
    rewrite (tw_unique _ Hwf i j s t Hi Hj Hu Hut) by congruence. reflexivity.
  - exfalso. exact (find_none id st i s E Hi Hu He).
Qed.

(** Replacing slot [i] by a well-formed session whose identifier no other used
    slot has. *)
Lemma store_wf_insert st i s :
  store_wf st -> session_wf s ->
  (used s <> 0 -> forall j t, j <> i -> sessions st !! j = Some t -> used t <> 0 -> node_id t <> node_id s) ->
  store_wf (st <| sessions := <[i := s]> (sessions st) |>).
Proof.
  intros [Hlen Hloc Hall Hun] Hs Hfresh. constructor; rsimpl.
  - rewrite length_insert. exact Hlen.
  - exact Hloc.
  - apply Forall_insert; assumption.
  - intros j k sj sk Hj Hk Huj Huk He.
    destruct (decide (j = i)) as [->|Hji], (decide (k = i)) as [->|Hki]; try reflexivity.
    + rewrite list_lookup_insert_ne in Hk by congruence.
      apply list_lookup_insert_Some in Hj as [(_ & <- & _)|[? _]]; [|contradiction].
      exfalso. exact (Hfresh Huj k sk Hki Hk Huk (eq_sym He)).
    + rewrite list_lookup_insert_ne in Hj by congruence.
      apply list_lookup_insert_Some in Hk as [(_ & <- & _)|[? _]]; [|contradiction].
      exfalso. exact (Hfresh Huk j sj Hji Hj Huj He).
    + rewrite list_lookup_insert_ne in Hj, Hk by congruence. exact (Hun j k sj sk Hj Hk Huj Huk He).
Qed.

(** Changing slot [i] without changing whose it is. *)
Lemma store_wf_update st i s s' :
  store_wf st -> sessions st !! i = Some s -> session_wf s' ->
  used s' = used s -> node_id s' = node_id s ->
  store_wf (st <| sessions := <[i := s']> (sessions st) |>).
Proof.
  intros Hwf Hi Hs' Hu Hid. apply store_wf_insert; [exact Hwf|exact Hs'|].
  rewrite Hu, Hid. intros Hus j t Hji Hj Hut He.
  exact (Hji (tw_unique _ Hwf j i t s Hj Hi Hut Hus He)).
Qed.

(** What [session_manager_get_or_create] does to the table. *)
Definition get_or_create_post (id : Z) (st : store) (r : option sref) (st' : store) : Prop :=
  store_wf st' /\
  match r with
  | None => st' = st /\ forall i s, sessions st !! i = Some s -> used s <> 0 /\ node_id s <> id
  | Some r => session_manager_find id st' = Some r /\
      exists i s, r = Slot i /\ sessions st' !! i = Some s /\ used s <> 0 /\ node_id s = id /\
        (forall j, j <> i -> sessions st' !! j = sessions st !! j) /\
        (session_manager_find id st = Some r -> st' = st) /\
        (session_manager_find id st = None ->
           role s = SESSION_ROLE_ROOT /\ state s = SESSION_STATE_IDLE /\ established s = 0 /\
           (pending_msg_type s, waiting_response s, retry_count s, ss s, aes_key s) =
             (0, 0, 0, zeros CW_HQC_SHARED_LEN, zeros CW_AES_KEY_LEN) /\
           exists s0, sessions st !! i = Some s0 /\ used s0 = 0)
  end.

Lemma wp_get_or_create Q id e st :
  store_wf st -> is_u16 id ->
  (forall r e' st', get_or_create_post id st r st' -> Q r e' st') ->
  wp (session_manager_get_or_create id) Q e st.
Proof.
  intros Hwf Hid HQ. unfold session_manager_get_or_create. apply wp_bind, wp_get.
  destruct (session_manager_find id st) as [r|] eqn:Ef.
  - apply wp_ret, HQ. split; [exact Hwf|]. split; [exact Ef|].
    pose proof Ef as Ef'. apply find_some in Ef as (i & s & -> & Hi & Hu & He). exists i, s.
    do 5 (split; [auto|]). split; [reflexivity|]. rewrite Ef'. discriminate.
  - destruct (first_slot (fun s => used s =? 0) st) as [r|] eqn:Es.
    + apply first_slot_some in Es as (i & s & -> & Hi & Hp). case_bools.
      apply wp_bind, wp_zoom. eapply wp_zoom_at; [exact Hi|]. rsimpl.
      eapply wp_mono; [|apply (session_init_wf SESSION_ROLE_ROOT id e s Hid)].
      intros [] e' s' (Hs' & Hu & Hn & Hr & Hst & Hes & Hz). cbv beta. apply wp_ret, HQ.
      assert (Hwf' : store_wf (st <| sessions := <[i := s']> (sessions st) |>)).
      { apply store_wf_insert; [exact Hwf|exact Hs'|]. intros _ j t _ Hj Hut.
        rewrite Hn. exact (find_none id st j t Ef Hj Hut). }
      assert (Hi' : <[i := s']> (sessions st) !! i = Some s')
        by (apply list_lookup_insert_eq, (lookup_lt_Some _ _ _ Hi)).
      split; [exact Hwf'|]. split.
      * apply (find_unique id _ i s'); rsimpl; [exact Hwf'|exact Hi'|lia|exact Hn].
      * exists i, s'. rsimpl. split; [reflexivity|]. split; [exact Hi'|]. split; [lia|].
        split; [exact Hn|]. split; [intros j Hj; apply list_lookup_insert_ne; congruence|].
        rewrite Ef. split; [discriminate|]. intros _. do 4 (split; [assumption|]). exists s. auto.
    + apply wp_ret, HQ. split; [exact Hwf|]. split; [reflexivity|]. intros i s Hi.
      pose proof (first_slot_none _ _ _ _ Es Hi) as Hp. cbv beta in Hp. case_bools.
      split; [exact Hp|]. exact (find_none id st i s Ef Hi Hp).
Qed.

End SessionFacts.

(** Proves that an updated session is well formed, field by field. *)
Ltac session_wf_tac :=
  constructor; rsimpl; try assumption;
  try solve [auto using zeros_secret, zeros_aes_key, metric_values_zero_wf with widths];
  try (unfold in_width; lia).
(** Equality of updated sessions, field by field. *)
Ltac session_eq := apply session_ext; rsimpl; try reflexivity; try assumption.

(** ** Properties *)

#[local] Existing Instance example_platform | 100.
#[local] Existing Instance example_platform_laws | 100.

(** Sessions of the root are unique per node and the table never loses one:
    [session_manager_get_or_create] returns the session the node already has and
    changes nothing, or gives it the first free slot with a fresh session, or
    returns [NULL] with the table unchanged exactly when all ten slots belong to
    other nodes; other slots are never touched, and looking the node up afterwards
    finds the returned session. *)
Theorem session_get_or_create_spec `{PlatformLaws} id e st :
  store_wf st -> is_u16 id ->
  exists r st', run (session_manager_get_or_create id) e st = Some (r, st') /\
    get_or_create_post id st r st'.
Proof.
  intros Hwf Hid.
  assert (Hwp : wp (session_manager_get_or_create id) (fun r _ st' => get_or_create_post id st r st') e st)
    by (apply wp_get_or_create; auto).
  apply wp_run in Hwp as (r & e' & st' & Hrun & HQ). exists r, st'. unfold run. rewrite Hrun. auto.
Qed.

Example session_get_or_create_spec_witness :
  exists r st', run (session_manager_get_or_create 258) example_env store_zero = Some (r, st') /\
    get_or_create_post 258 store_zero r st'.
Proof. apply (session_get_or_create_spec 258 example_env store_zero); [apply store_zero_wf|decided]. Defined.

(** A reset erases a session's secrets and handshake state and nothing of its
    identity: the shared secret and the AES key are zeroed, state, counters,
    pending message and retry count are those of a fresh idle session, while role,
    node identifier, peer address and metrics survive. *)
Theorem session_reset_spec `{PlatformLaws} e s :
  session_wf s ->
  exists s', run session_reset e s = Some (tt, s') /\ session_wf s' /\
    (ss s', aes_key s') = (zeros 64, zeros 32) /\
    (state s', established s', tx_counter s', rx_counter s', next_msg_id s') =
      (SESSION_STATE_IDLE, 0, 0, 0, 0) /\
    (retry_count s', waiting_response s', pending_msg_type s', pending_msg_id s') = (0, 0, 0, 0) /\
    (used s', role s', node_id s') = (1, role s, node_id s) /\
    metrics s' = pqc_metrics_set_node_id (metrics s) (node_id s) /\
    (if has_peer_addr s =? 0 then has_peer_addr s' = 0
     else has_peer_addr s' = 1 /\ peer_addr s' = peer_addr s).
Proof.
  intros Hs.
  assert (Hwp : wp session_reset (fun _ _ s' => s' = reset_session s (last_activity s')) e s)
    by (apply wp_session_reset; auto).
  apply wp_run in Hwp as ([] & e' & s' & Hrun & HQ). exists s'. unfold run. rewrite Hrun.
  split; [reflexivity|]. revert HQ. generalize (last_activity s') as t. intros t ->.
  split; [apply reset_session_wf, Hs|]. unfold reset_session.
  destruct (has_peer_addr s =? 0); repeat split.
Qed.

Example session_reset_spec_witness :
  exists s', run session_reset example_env session_zero = Some (tt, s') /\ session_wf s' /\
    (ss s', aes_key s') = (zeros 64, zeros 32) /\
    (state s', established s', tx_counter s', rx_counter s', next_msg_id s') =
      (SESSION_STATE_IDLE, 0, 0, 0, 0) /\
    (retry_count s', waiting_response s', pending_msg_type s', pending_msg_id s') = (0, 0, 0, 0) /\
    (used s', role s', node_id s') = (1, role session_zero, node_id session_zero) /\
    metrics s' = pqc_metrics_set_node_id (metrics session_zero) (node_id session_zero) /\
    (if has_peer_addr session_zero =? 0 then has_peer_addr s' = 0
     else has_peer_addr s' = 1 /\ peer_addr s' = peer_addr session_zero).
Proof. apply (session_reset_spec example_env session_zero), session_zero_wf. Defined.

(** C34. The retry timer and its wrap: after [session_set_pending] at clock reading
    [t], [session_retry_due] at a later reading [t'] answers whether 120 seconds
    have passed as long as the deadline does not wrap; within 120 seconds of the
    wrap of [clock_time_t] the deadline wraps and the retry is due at once. *)
Theorem session_retry_timer `{PlatformLaws} e s mt mid :
  let t := uclk (e_clock e (e_reads e)) in
  let t' := uclk (e_clock e (S (S (e_reads e)))) in
  t <= t' ->
  exists s', run (session_set_pending mt mid;; session_retry_due) e s =
      Some ((if t + SESSION_RETRY_TIMEOUT <? 2 ^ clock_bits
             then t + SESSION_RETRY_TIMEOUT <=? t' else true), s') /\
    (pending_msg_type s', pending_msg_id s', waiting_response s') = (mt, mid, 1) /\
    retry_count s' = retry_count s.
Proof.
  intros t t' Ht. pose proof clock_bits_32. pose proof clock_second_small. pose proof clock_second_pos.
  assert (Hb : 0 <= t < 2 ^ clock_bits) by (apply Z.mod_pos_bound, Z.pow_pos_nonneg; lia).
  assert (H32 : 2 ^ 32 <= 2 ^ clock_bits) by (apply Z.pow_le_mono_r; lia).
  assert (Hdue : (uclk (t + SESSION_RETRY_TIMEOUT) <=? t') =
    if t + SESSION_RETRY_TIMEOUT <? 2 ^ clock_bits then t + SESSION_RETRY_TIMEOUT <=? t' else true).
  { unfold uclk, SESSION_RETRY_TIMEOUT in *.
    destruct (Z.ltb_spec (t + 120 * CLOCK_SECOND) (2 ^ clock_bits)).
    - rewrite Z.mod_small by lia. reflexivity.
    - rewrite <- (Z.mod_unique _ (2 ^ clock_bits) 1 (t + 120 * CLOCK_SECOND - 2 ^ clock_bits)) by lia.
      apply Z.leb_le. lia. }
  assert (Hwp : wp (session_set_pending mt mid;; session_retry_due) (fun r _ s' =>
    r = (uclk (t + SESSION_RETRY_TIMEOUT) <=? t') /\
    (pending_msg_type s', pending_msg_id s', waiting_response s') = (mt, mid, 1) /\
    retry_count s' = retry_count s) e s).
  { unfold session_set_pending, session_retry_due, session_touch. wp_steps.
    - exfalso. revert Heqb. rsimpl. discriminate.
    - repeat split. }
  apply wp_run in Hwp as (r & e' & s' & Hrun & -> & HQ). exists s'. unfold run. rewrite Hrun, Hdue. auto.
Qed.

(** Ten ticks before the wrap: due at once. *)
Definition late_env : env := mkenv (fun _ => 2 ^ 32 - 10) 0 [].

Example session_retry_timer_witness :
  exists s', run (session_set_pending 6 0;; session_retry_due) late_env session_zero = Some (true, s') /\
    (pending_msg_type s', pending_msg_id s', waiting_response s') = (6, 0, 1) /\
    retry_count s' = retry_count session_zero.
Proof. apply (session_retry_timer late_env session_zero 6 0). vm_compute. discriminate. Defined.

(** A failure is counted once: [session_set_failed] ends in the failed state
    with nothing established and nothing pending, adds one to the failure count of
    a session that had not failed, and leaves the metrics of one that had alone. *)
Theorem session_set_failed_spec `{PlatformLaws} e s :
  session_wf s ->
  exists s', run session_set_failed e s = Some (tt, s') /\ session_wf s' /\
    session_is_failed s' = true /\ session_is_established s' = false /\
    (waiting_response s', retry_count s', pending_msg_type s', pending_msg_id s') = (0, 0, 0, 0) /\
    (if session_is_failed s then metrics s' = metrics s
     else failure (handshake (metrics s')) = inc32 (failure (handshake (metrics s)))) /\
    success (handshake (metrics s')) = success (handshake (metrics s)) /\
    (ss s', aes_key s', node_id s', tx_counter s', rx_counter s') =
      (ss s, aes_key s, node_id s, tx_counter s, rx_counter s).
Proof.
  intros Hs.
  assert (Hwp : wp session_set_failed (fun _ _ s' => session_wf s' /\
    session_is_failed s' = true /\ session_is_established s' = false /\
    (waiting_response s', retry_count s', pending_msg_type s', pending_msg_id s') = (0, 0, 0, 0) /\
    (if session_is_failed s then metrics s' = metrics s
     else failure (handshake (metrics s')) = inc32 (failure (handshake (metrics s)))) /\
    success (handshake (metrics s')) = success (handshake (metrics s)) /\
    (ss s', aes_key s', node_id s', tx_counter s', rx_counter s') =
      (ss s, aes_key s, node_id s, tx_counter s, rx_counter s)) e s).
  { destruct Hs. unfold session_set_failed, session_clear_pending, on_metrics. wp_steps.
    - split; [session_wf_tac|]. repeat split.
    - apply handshake_failure_wp; [assumption|]. intros e' m' Hm' Hf Hsu Ha. wp_steps.
      split; [session_wf_tac|]. rsimpl. repeat split; assumption. }
  apply wp_run in Hwp as ([] & e' & s' & Hrun & HQ). exists s'. unfold run. rewrite Hrun. auto.
Qed.

Example session_set_failed_spec_witness :
  exists s', run session_set_failed example_env session_zero = Some (tt, s') /\ session_wf s' /\
    session_is_failed s' = true /\ session_is_established s' = false /\
    (waiting_response s', retry_count s', pending_msg_type s', pending_msg_id s') = (0, 0, 0, 0) /\
    (if session_is_failed session_zero then metrics s' = metrics session_zero
     else failure (handshake (metrics s')) = inc32 (failure (handshake (metrics session_zero)))) /\
    success (handshake (metrics s')) = success (handshake (metrics session_zero)) /\
    (ss s', aes_key s', node_id s', tx_counter s', rx_counter s') =
      (ss session_zero, aes_key session_zero, node_id session_zero, tx_counter session_zero,
       rx_counter session_zero).
Proof. apply (session_set_failed_spec example_env session_zero), session_zero_wf. Defined.
