(* ===== verification/TxQueue.v ===== *)
(** * The transmit queue: the first half of [src/src/PQC/PQC.c]

    Datagrams wait in a table of 96 entries and leave one at a time, by priority
    of their message type and, within a priority, preferably for another node
    than the last one served. *)

From Stdlib Require Import Sorted.
From S2P Require Import Prelude Platform Protocol Fragmentation Session.

(* src/src/PQC/PQC.c:8-8 PQC_TX_QUEUE_SIZE *)
Definition PQC_TX_QUEUE_SIZE : Z := 96.
(* src/src/PQC/PQC.c:9-9 PQC_TX_MAX_PACKET_LEN *)
Definition PQC_TX_MAX_PACKET_LEN : Z := PQC_HEADER_LEN + FRAG_MAX_PAYLOAD_LEN.
(* src/src/PQC/PQC.c:12-12 PQC_TX_PRIORITY_HIGH *)
Definition PQC_TX_PRIORITY_HIGH : Z := 0.
(* src/src/PQC/PQC.c:13-13 PQC_TX_PRIORITY_NORMAL *)
Definition PQC_TX_PRIORITY_NORMAL : Z := 1.
(* src/src/PQC/PQC.c:14-14 PQC_TX_PRIORITY_LOW *)
Definition PQC_TX_PRIORITY_LOW : Z := 2.

#[export] Hint Unfold PQC_TX_QUEUE_SIZE PQC_TX_MAX_PACKET_LEN PQC_TX_PRIORITY_HIGH
  PQC_TX_PRIORITY_NORMAL PQC_TX_PRIORITY_LOW : c_consts.

(** Closes [out = out ++ []]. *)
Ltac no_output := cbn [fmap list_fmap]; rewrite app_nil_r; reflexivity.

Section TxQueue.
Context `{Platform}.

(** A [struct simple_udp_connection *] is a number, [NULL] is [None]. *)
(* src/src/PQC/PQC.c:16-24 pqc_tx_entry_t *)
Record pqc_tx_entry_t := mk_tx_entry {
  te_active : Z;
  te_priority : Z;
  te_node_id : Z;
  te_udp_conn : option nat;
  te_dest : uip_ipaddr_t;
  te_len : Z;
  te_data : bytes;
}.
#[export] Instance eta_tx_entry : Eta pqc_tx_entry_t := fun r =>
  mk_tx_entry (te_active r) (te_priority r) (te_node_id r) (te_udp_conn r) (te_dest r)
    (te_len r) (te_data r).

(** The file's static variables. *)
(* src/src/PQC/PQC.c:26-29 tx_queue *)
Record tx_state := mk_tx_state {
  tx_queue : list pqc_tx_entry_t;
  tx_tail : Z;
  tx_count : Z;
  tx_last_node_id : Z;
}.
#[export] Instance eta_tx_state : Eta tx_state := fun r =>
  mk_tx_state (tx_queue r) (tx_tail r) (tx_count r) (tx_last_node_id r).

(* src/src/PQC/PQC.h:7-10 pqc_udp_send_ctx_t *)
Record pqc_udp_send_ctx_t := mk_send_ctx {
  ctx_udp_conn : option nat;
  ctx_dest : option uip_ipaddr_t;
}.

(** An entry of zero bytes. *)
Definition entry_zero : pqc_tx_entry_t :=
  mk_tx_entry 0 0 0 None uip_ipaddr_zero 0 (zeros PQC_TX_MAX_PACKET_LEN).

(** Static variables at boot. *)
Definition tx_boot : tx_state :=
  mk_tx_state (replicate (Z.to_nat PQC_TX_QUEUE_SIZE) entry_zero) 0 0 0.

(* src/src/PQC/PQC.c:31-46 pqc_tx_priority_for_msg *)
Definition pqc_tx_priority_for_msg (msg_type : Z) : Z :=
  if (msg_type =? PQC_MSG_ACK) || (msg_type =? PQC_MSG_NACK) || (msg_type =? PQC_MSG_GETPK)
  then PQC_TX_PRIORITY_HIGH
  else if (msg_type =? PQC_MSG_PK) || (msg_type =? PQC_MSG_CT) || (msg_type =? PQC_MSG_TEMP)
  then PQC_TX_PRIORITY_NORMAL
  else PQC_TX_PRIORITY_LOW.

(** [tx_queue[idx]] read and written. *)
Definition tx_entry (idx : Z) : M tx_state pqc_tx_entry_t :=
  q ← get; lift (at_index (tx_queue q) idx).
Definition tx_set_entry (idx : Z) (entry : pqc_tx_entry_t) : M tx_state unit :=
  modify (fun q => q <| tx_queue ::= (fun l => <[Z.to_nat idx := entry]> l) |>).

(* src/src/PQC/PQC.c:48-61 pqc_tx_find_free_slot *)
Definition pqc_tx_find_free_slot : M tx_state Z :=
  r ← for_each (upto PQC_TX_QUEUE_SIZE) (fun checked =>
        q ← get;
        let idx := u8 ((tx_tail q + checked) mod PQC_TX_QUEUE_SIZE) in
        entry ← tx_entry idx;
        if te_active entry =? 0
        then modify (fun q => q <| tx_tail := idx |>);; mret (Some idx)
        else mret None);
  mret (default (-1) r).

(** The inner loop: [inl i] when the function returns [i], [inr first] when the
    loop ends. *)
(* src/src/PQC/PQC.c:69-85 pqc_tx_select_slot *)
Fixpoint select_at_priority (q : tx_state) (priority : Z) (idxs : list Z) (first : Z)
    {struct idxs} : option (Z + Z) :=
  match idxs with
  | [] => Some (inr first)
  | i :: idxs =>
      entry ← at_index (tx_queue q) i;
      if (te_active entry =? 0) || negb (te_priority entry =? priority)
      then select_at_priority q priority idxs first
      else
        let first := if first <? 0 then i else first in
        if negb (te_node_id entry =? tx_last_node_id q) then Some (inl i)
        else select_at_priority q priority idxs first
  end.

(* src/src/PQC/PQC.c:63-93 pqc_tx_select_slot *)
Fixpoint select_priorities (q : tx_state) (priorities : list Z) : option Z :=
  match priorities with
  | [] => Some (-1)
  | priority :: priorities =>
      r ← select_at_priority q priority (upto PQC_TX_QUEUE_SIZE) (-1);
      match r with
      | inl i => Some i
      | inr first => if 0 <=? first then Some first else select_priorities q priorities
      end
  end.
(* src/src/PQC/PQC.c:63-93 pqc_tx_select_slot *)
Definition pqc_tx_select_slot (q : tx_state) : option Z :=
  select_priorities q [PQC_TX_PRIORITY_HIGH; PQC_TX_PRIORITY_NORMAL; PQC_TX_PRIORITY_LOW].

(** [idx >= PQC_TX_QUEUE_SIZE] is tested before the entry is read. *)
(* src/src/PQC/PQC.c:95-105 pqc_tx_clear_entry *)
Definition pqc_tx_clear_entry (idx : Z) : M tx_state unit :=
  if PQC_TX_QUEUE_SIZE <=? idx then mret tt else
  entry ← tx_entry idx;
  if te_active entry =? 0 then mret tt else
  tx_set_entry idx entry_zero;;
  modify (fun q => if 0 <? tx_count q then q <| tx_count ::= (fun n => n - 1) |> else q).

(* src/src/PQC/PQC.c:107-113 pqc_tx_init *)
Definition pqc_tx_init : M tx_state unit :=
  put (mk_tx_state (replicate (Z.to_nat PQC_TX_QUEUE_SIZE) entry_zero) 0 0 SESSION_INVALID_NODE_ID).

(* src/src/PQC/PQC.c:115-118 pqc_tx_has_pending *)
Definition pqc_tx_has_pending (q : tx_state) : bool := 0 <? tx_count q.

(* src/src/PQC/PQC.c:120-123 pqc_tx_free_slots *)
Definition pqc_tx_free_slots (q : tx_state) : Z := u8 (PQC_TX_QUEUE_SIZE - tx_count q).

(** The loop the two drop functions share: clear the entries that satisfy the
    test and count them. *)
Fixpoint drop_loop (idxs : list Z) (test : pqc_tx_entry_t -> option bool) (dropped : Z)
    : M tx_state Z :=
  match idxs with
  | [] => mret dropped
  | i :: idxs =>
      entry ← tx_entry i;
      hit ← lift (test entry);
      if (hit : bool) then pqc_tx_clear_entry i;; drop_loop idxs test (u8 (dropped + 1))
      else drop_loop idxs test dropped
  end.

(** The condition of [pqc_tx_drop], evaluated left to right. *)
Definition tx_matches (node_id msg_type msg_id : Z) (entry : pqc_tx_entry_t) : option bool :=
  if te_active entry =? 0 then Some false else
  if negb (te_node_id entry =? node_id) then Some false else
  if negb (PQC_HEADER_LEN <=? te_len entry) then Some false else
  mt ← cell (te_data entry) PQC_HDR_MSG_TYPE;
  if negb (mt =? msg_type) then Some false else
  mid ← cell (te_data entry) PQC_HDR_MSG_ID;
  Some (mid =? msg_id).

(* src/src/PQC/PQC.c:125-142 pqc_tx_drop *)
Definition pqc_tx_drop (node_id msg_type msg_id : Z) : M tx_state Z :=
  drop_loop (upto PQC_TX_QUEUE_SIZE) (tx_matches node_id msg_type msg_id) 0.

(* src/src/PQC/PQC.c:144-157 pqc_tx_drop_node *)
Definition pqc_tx_drop_node (node_id : Z) : M tx_state Z :=
  drop_loop (upto PQC_TX_QUEUE_SIZE)
    (fun entry => Some (negb (te_active entry =? 0) && (te_node_id entry =? node_id))) 0.

(* src/src/PQC/PQC.c:159-182 pqc_tx_process *)
Definition pqc_tx_process : M tx_state bool :=
  q ← get;
  if tx_count q =? 0 then mret false else
  idx ← lift (pqc_tx_select_slot q);
  if idx <? 0 then mret false else
  entry ← tx_entry idx;
  match te_udp_conn entry with
  | Some conn =>
      if te_active entry =? 0 then mret tt else
      data ← lift (mem_read (te_data entry) 0 (te_len entry));
      emit (UdpSend conn data (te_dest entry))
  | None => mret tt
  end;;
  modify (fun q => q <| tx_last_node_id := te_node_id entry |>);;
  tx_set_entry idx entry_zero;;
  modify (fun q => q <| tx_count ::= (fun n => u8 (n - 1)) |>);;
  mret true.

(* src/src/PQC/PQC.c:184-215 pqc_udp_send_fragment *)
Definition pqc_udp_send_fragment (data : bytes) (len : Z) (ctx : pqc_udp_send_ctx_t)
    : M tx_state bool :=
  match ctx_udp_conn ctx, ctx_dest ctx with
  | Some conn, Some dest =>
      q ← get;
      if (len =? 0) || (PQC_TX_MAX_PACKET_LEN <? len) || (PQC_TX_QUEUE_SIZE <=? tx_count q)
      then mret false else
      valid ← lift (pqc_header_valid (Some data) len);
      if negb valid then mret false else
      idx ← pqc_tx_find_free_slot;
      if idx <? 0 then mret false else
      msg_type ← lift (cell data PQC_HDR_MSG_TYPE);
      entry ← tx_entry idx;
      nid ← lift (pqc_header_get_node_id data);
      payload ← lift (mem_read data 0 len);
      data' ← lift (mem_write (te_data entry) 0 payload);
      tx_set_entry idx (mk_tx_entry 1 (pqc_tx_priority_for_msg msg_type) nid (Some conn) dest len data');;
      modify (fun q => q <| tx_tail := (idx + 1) mod PQC_TX_QUEUE_SIZE |>
                         <| tx_count ::= (fun n => u8 (n + 1)) |>);;
      mret true
  | _, _ => mret false
  end.

(** ** The queue as a bag of datagrams *)

Definition is_pending (e : pqc_tx_entry_t) : Prop := te_active e <> 0.
#[export] Instance is_pending_dec e : Decision (is_pending e).
Proof. unfold is_pending. apply _. Defined.

(** The entries waiting to be sent. *)
Definition pending (q : tx_state) : list pqc_tx_entry_t := filter is_pending (tx_queue q).

(** The datagram of an entry. *)
Definition entry_payload (e : pqc_tx_entry_t) : bytes := take (Z.to_nat (te_len e)) (te_data e).
Definition entry_output (e : pqc_tx_entry_t) : output :=
  UdpSend (default 0%nat (te_udp_conn e)) (entry_payload e) (te_dest e).

(** A pending entry: a header-checked datagram of bounded length, with the
    connection, the node identifier and the priority of its header. *)
Record entry_wf (e : pqc_tx_entry_t) : Prop := {
  ew_active : te_active e = 1;
  ew_conn : is_Some (te_udp_conn e);
  ew_len : PQC_HEADER_LEN <= te_len e <= PQC_TX_MAX_PACKET_LEN;
  ew_data : Z.of_nat (length (te_data e)) = PQC_TX_MAX_PACKET_LEN;
  ew_node : pqc_header_get_node_id (te_data e) = Some (te_node_id e);
  ew_priority : exists mt, cell (te_data e) PQC_HDR_MSG_TYPE = Some mt /\
    te_priority e = pqc_tx_priority_for_msg mt;
}.

Record tx_wf (q : tx_state) : Prop := {
  qw_length : Z.of_nat (length (tx_queue q)) = PQC_TX_QUEUE_SIZE;
  qw_tail : 0 <= tx_tail q < PQC_TX_QUEUE_SIZE;
  qw_count : tx_count q = Z.of_nat (length (pending q));
  qw_entries : Forall (fun e => e = entry_zero \/ entry_wf e) (tx_queue q);
}.

Lemma entry_wf_pending e : entry_wf e -> is_pending e.
Proof. intros He. unfold is_pending. rewrite (ew_active _ He). lia. Qed.

Lemma pending_wf q e : tx_wf q -> e ∈ pending q -> entry_wf e.
Proof.
  intros Hq He. apply list_elem_of_filter in He as [Hp He].
  pose proof (qw_entries _ Hq) as Ha. rewrite list.Forall_forall in Ha.
  destruct (Ha _ He) as [->|Hw]; [contradiction Hp; reflexivity|exact Hw].
Qed.

Lemma pending_bound q : tx_wf q -> 0 <= tx_count q <= PQC_TX_QUEUE_SIZE.
Proof.
  intros Hq. rewrite (qw_count _ Hq). pose proof (qw_length _ Hq).
  pose proof (length_filter is_pending (tx_queue q)). unfold pending. lia.
Qed.

Lemma tx_init_wf e q : wp pqc_tx_init (fun _ _ q' => tx_wf q' /\ pending q' = []) e q.
Proof.
  apply wp_put.
  assert (Hp : filter is_pending (replicate (Z.to_nat PQC_TX_QUEUE_SIZE) entry_zero) = []).
  { apply filter_none. intros x Hx. apply elem_of_replicate in Hx as [-> _]. intros Hn. apply Hn. reflexivity. }
  split; [|exact Hp]. constructor; cbn [tx_queue tx_tail tx_count].
  - rewrite length_replicate. clia.
  - clia.
  - unfold pending. cbn [tx_queue]. rewrite Hp. reflexivity.
  - apply Forall_replicate. left. reflexivity.
Qed.

(** Every entry of a well-formed queue can be read. *)
Lemma wp_tx_entry Q i e q :
  tx_wf q -> 0 <= i < PQC_TX_QUEUE_SIZE ->
  (forall x, at_index (tx_queue q) i = Some x -> Q x e q) -> wp (tx_entry i) Q e q.
Proof.
  intros Hq Hi HQ. unfold tx_entry. apply wp_bind, wp_get, wp_lift.
  destruct (at_index_total (tx_queue q) i) as [x Hx]; [rewrite (qw_length _ Hq); exact Hi|].
  exists x. auto.
Qed.

(** A full table has a pending entry everywhere. *)
Lemma filter_full {A} (P : A -> Prop) `{!forall x, Decision (P x)} (l : list A) :
  (forall x, x ∈ l -> P x) -> length (filter P l) = length l.
Proof. intros Hall. rewrite filter_all by exact Hall. reflexivity. Qed.

Lemma free_slot_exists q :
  tx_wf q -> tx_count q < PQC_TX_QUEUE_SIZE ->
  ~ (forall c, 0 <= c < PQC_TX_QUEUE_SIZE ->
       exists x, at_index (tx_queue q) ((tx_tail q + c) mod PQC_TX_QUEUE_SIZE) = Some x /\ is_pending x).
Proof.
  intros Hq Hc Hall. rewrite (qw_count _ Hq) in Hc. pose proof (qw_length _ Hq).
  unfold pending in Hc. rewrite filter_full in Hc; [lia|].
  intros x Hx. apply list_elem_of_lookup in Hx as [k Hk].
  pose proof (lookup_lt_Some _ _ _ Hk). pose proof (qw_tail _ Hq).
  set (n := PQC_TX_QUEUE_SIZE) in *. assert (0 < n) by (unfold n; clia).
  destruct (Hall ((Z.of_nat k - tx_tail q) mod n)) as (y & Hy & Hp); [apply Z.mod_pos_bound; lia|].
  rewrite Zplus_mod_idemp_r in Hy.
  replace (tx_tail q + (Z.of_nat k - tx_tail q)) with (Z.of_nat k) in Hy by lia.
  rewrite Z.mod_small, at_index_nat, Hk in Hy by lia. congruence.
Qed.

Lemma wp_find_free_slot Q e q :
  tx_wf q -> tx_count q < PQC_TX_QUEUE_SIZE ->
  (forall i x, 0 <= i < PQC_TX_QUEUE_SIZE -> at_index (tx_queue q) i = Some x -> ~ is_pending x ->
     Q i e (q <| tx_tail := i |>)) ->
  wp pqc_tx_find_free_slot Q e q.
Proof.
  intros Hq Hc HQ. unfold pqc_tx_find_free_slot. apply wp_bind.
  apply (wp_for_each (fun done e' q' => (e', q') = (e, q) /\ forall c, c ∈ done -> exists x,
    at_index (tx_queue q) ((tx_tail q + c) mod PQC_TX_QUEUE_SIZE) = Some x /\ is_pending x)).
  - split; [reflexivity|]. intros c Hn. inversion Hn.
  - intros done c rest Heq e' q' [[= -> ->] Hd]. apply wp_bind, wp_get.
    assert (Hr : 0 <= (tx_tail q + c) mod PQC_TX_QUEUE_SIZE < PQC_TX_QUEUE_SIZE)
      by (apply Z.mod_pos_bound; clia).
    rewrite u8_id by clia. apply wp_bind, wp_tx_entry; [exact Hq|exact Hr|].
    intros x Hx. cbv zeta. wp_steps.
    + apply (HQ _ x); [exact Hr|exact Hx|]. unfold is_pending. case_bools. lia.
    + split; [reflexivity|]. intros c' [Hc'| ->%list_elem_of_singleton]%elem_of_app; [auto|].
      exists x. case_bools. auto.
  - intros e' q' [_ Hd]. exfalso. apply (free_slot_exists q Hq Hc).
    intros c Hr. apply Hd, elem_of_upto, Hr.
Qed.

(** Setting entry [i]: the pending entries lose the old one and gain the new. *)
Lemma pending_set q i x y :
  at_index (tx_queue q) i = Some x ->
  exists l1 l2, pending q = l1 ++ filter is_pending [x] ++ l2 /\
    filter is_pending (<[Z.to_nat i := y]> (tx_queue q)) = l1 ++ filter is_pending [y] ++ l2.
Proof. intros Hx. apply at_index_some in Hx as [_ Hx]. apply filter_insert, Hx. Qed.

Lemma filter_pending_yes x : is_pending x -> filter is_pending [x] = [x].
Proof. intros. rewrite filter_cons_True by assumption. reflexivity. Qed.
Lemma filter_pending_no x : ~ is_pending x -> filter is_pending [x] = [].
Proof. intros. rewrite filter_cons_False by assumption. reflexivity. Qed.

(** A datagram fills a free entry. *)
Definition tx_added (q q' : tx_state) (entry : pqc_tx_entry_t) : Prop :=
  tx_wf q' /\ entry_wf entry /\ pending q' ≡ₚ entry :: pending q /\
  tx_last_node_id q' = tx_last_node_id q.

Lemma tx_fill_wf q i x entry :
  tx_wf q -> tx_count q < PQC_TX_QUEUE_SIZE -> at_index (tx_queue q) i = Some x -> ~ is_pending x ->
  entry_wf entry ->
  tx_added q (q <| tx_queue ::= (fun l => <[Z.to_nat i := entry]> l) |>
                <| tx_tail := (i + 1) mod PQC_TX_QUEUE_SIZE |>
                <| tx_count ::= (fun n => u8 (n + 1)) |>) entry.
Proof.
  intros Hq Hc Hx Hnp He. destruct (pending_set q i x entry Hx) as (l1 & l2 & E1 & E2).
  rewrite filter_pending_no in E1 by exact Hnp.
  rewrite filter_pending_yes in E2 by (apply entry_wf_pending, He).
  pose proof (pending_bound q Hq). split; [|split; [exact He|split; [|reflexivity]]].
  - constructor; rsimpl.
    + rewrite length_insert. apply (qw_length _ Hq).
    + apply Z.mod_pos_bound. clia.
    + unfold pending at 1. rsimpl. rewrite E2, u8_id by clia. rewrite (qw_count _ Hq), E1.
      rewrite !length_app. simpl. lia.
    + apply Forall_insert; [apply (qw_entries _ Hq)|right; exact He].
  - unfold pending at 1. rsimpl. rewrite E2, E1. simpl. symmetry. apply Permutation_middle.
Qed.

(** The entry a datagram becomes. *)
Definition tx_new_entry (conn : nat) (dest : uip_ipaddr_t) (data : bytes) (len : Z) : pqc_tx_entry_t :=
  mk_tx_entry 1 (pqc_tx_priority_for_msg (default 0 (cell data PQC_HDR_MSG_TYPE)))
    (default 0 (pqc_header_get_node_id data)) (Some conn) dest len
    (take (Z.to_nat len) data ++ zeros (PQC_TX_MAX_PACKET_LEN - len)).

Lemma cell_take (l l' : bytes) n i :
  0 <= i < Z.of_nat n -> (n <= length l)%nat -> cell (take n l ++ l') i = cell l i.
Proof.
  intros Hi Hn. rewrite !cell_lookup by lia. rewrite lookup_app_l by (rewrite length_take; lia).
  apply lookup_take_lt. lia.
Qed.

Lemma header_node_id_some data :
  10 <= Z.of_nat (length data) -> exists nid, pqc_header_get_node_id data = Some nid.
Proof.
  intros Hl. unfold pqc_header_get_node_id.
  destruct (cell_total data PQC_HDR_NODE_ID_H) as (h & -> & _); [clia|].
  destruct (cell_total data PQC_HDR_NODE_ID_L) as (l & -> & _); [clia|]. simpl. eauto.
Qed.

Lemma tx_new_entry_wf conn dest data len :
  PQC_HEADER_LEN <= len <= PQC_TX_MAX_PACKET_LEN -> len <= Z.of_nat (length data) ->
  entry_wf (tx_new_entry conn dest data len).
Proof.
  intros Hl Hd. destruct (header_node_id_some data) as [nid Hn]; [clia|].
  destruct (cell_total data PQC_HDR_MSG_TYPE) as (mt & Hm & _); [clia|].
  constructor; cbn [te_active te_udp_conn te_len te_data te_node_id te_priority tx_new_entry].
  - reflexivity.
  - eauto.
  - exact Hl.
  - rewrite length_app, length_take, length_zeros. clia.
  - rewrite Hn. unfold pqc_header_get_node_id in *. rewrite !cell_take by clia. exact Hn.
  - exists mt. rewrite cell_take, Hm by clia. split; reflexivity.
Qed.

Lemma tx_new_entry_output conn dest data len :
  len <= Z.of_nat (length data) ->
  entry_output (tx_new_entry conn dest data len) = UdpSend conn (take (Z.to_nat len) data) dest.
Proof.
  intros Hd. unfold entry_output, entry_payload. cbn [te_udp_conn te_dest te_len te_data tx_new_entry default].
  rewrite take_app_le by (rewrite length_take; lia). rewrite take_take, Nat.min_id. reflexivity.
Qed.

(** When a datagram is accepted. *)
Definition tx_accepts (q : tx_state) (data : bytes) (len : Z) (ctx : pqc_udp_send_ctx_t) : Prop :=
  is_Some (ctx_udp_conn ctx) /\ is_Some (ctx_dest ctx) /\ tx_count q < PQC_TX_QUEUE_SIZE /\
  len <= PQC_TX_MAX_PACKET_LEN /\ pqc_header_valid (Some data) len = Some true.

(** What [pqc_udp_send_fragment] answers and does. *)
Definition tx_sent (q : tx_state) (data : bytes) (len : Z) (ctx : pqc_udp_send_ctx_t)
    (r : bool) (q' : tx_state) : Prop :=
  if r then tx_accepts q data len ctx /\ exists conn dest,
    ctx = mk_send_ctx (Some conn) (Some dest) /\ tx_added q q' (tx_new_entry conn dest data len)
  else ~ tx_accepts q data len ctx /\ q' = q.

Lemma pending_zero q i x :
  tx_wf q -> at_index (tx_queue q) i = Some x -> ~ is_pending x -> x = entry_zero.
Proof.
  intros Hq Hx Hn. apply at_index_some in Hx as [_ Hx]. pose proof (qw_entries _ Hq) as Ha.
  destruct (Forall_lookup_1 _ _ _ _ Ha Hx) as [->|He]; [reflexivity|].
  contradiction Hn. apply entry_wf_pending, He.
Qed.

Lemma wp_send_fragment Q data len ctx e q :
  tx_wf q -> 0 <= len <= Z.of_nat (length data) ->
  (forall r q', tx_sent q data len ctx r q' -> Q r e q') ->
  wp (pqc_udp_send_fragment data len ctx) Q e q.
Proof.
  intros Hq Hd HQ. unfold pqc_udp_send_fragment, tx_sent in *. destruct ctx as [oc od].
  cbn [ctx_udp_conn ctx_dest] in *.
  assert (Hno : ~ tx_accepts q data len (mk_send_ctx oc od) -> Q false e q) by (intros; apply HQ; auto).
  destruct oc as [conn|]; [|apply wp_ret, Hno; intros [[? [=]] _]].
  destruct od as [dest|]; [|apply wp_ret, Hno; intros (_ & [? [=]] & _)].
  apply wp_bind, wp_get. case_if.
  { apply wp_ret, Hno. intros (_ & _ & Hc & Hl & Hv). apply header_valid_true in Hv as [? _].
    repeat match goal with H : _ |- _ => apply orb_true_iff in H as [H|H] end; case_bools; clia. }
  case_bools. apply wp_bind, wp_lift.
  destruct (header_valid_total data len ltac:(lia)) as [[] Hv]; eexists; (split; [exact Hv|]);
    cbn [negb]; [|apply wp_ret, Hno; intros (_ & _ & _ & _ & Hv'); congruence].
  assert (Hlen : PQC_HEADER_LEN <= len) by (apply header_valid_true in Hv; clia).
  apply wp_bind, wp_find_free_slot; [exact Hq|assumption|]. intros i x Hi Hx Hnp.
  destruct (Z.ltb_spec i 0); [lia|].
  destruct (cell_total data PQC_HDR_MSG_TYPE) as (mt & Hm & _); [clia|].
  destruct (header_node_id_some data) as [nid Hn]; [clia|].
  apply wp_bind, wp_lift. exists mt. split; [exact Hm|].
  apply wp_bind. unfold tx_entry. apply wp_bind, wp_get, wp_lift. exists x. split; [exact Hx|].
  apply wp_bind, wp_lift. exists nid. split; [exact Hn|].
  rewrite (pending_zero q i x Hq Hx Hnp). cbn [te_data entry_zero].
  apply wp_bind, wp_lift. exists (take (Z.to_nat len) data).
  split; [apply mem_read_spec; rewrite drop_0; repeat split; lia|].
  apply wp_bind, wp_lift. eexists. split; [apply mem_write_total; rewrite ?length_take, ?length_zeros; clia|].
  unfold tx_set_entry. wp_steps. apply HQ.
  assert (Hacc : tx_accepts q data len (mk_send_ctx (Some conn) (Some dest)))
    by (repeat split; eauto; lia).
  split; [exact Hacc|]. exists conn, dest. split; [reflexivity|].
  assert (Hnew : mk_tx_entry 1 (pqc_tx_priority_for_msg mt) nid (Some conn) dest len
     (take (Z.to_nat 0) (zeros PQC_TX_MAX_PACKET_LEN) ++ take (Z.to_nat len) data ++
      drop (Z.to_nat 0 + length (take (Z.to_nat len) data)) (zeros PQC_TX_MAX_PACKET_LEN)) =
     tx_new_entry conn dest data len).
  { unfold tx_new_entry, zeros. rewrite Hm, Hn, take_0, length_take, drop_replicate.
    replace (Z.to_nat PQC_TX_MAX_PACKET_LEN - _)%nat with (Z.to_nat (PQC_TX_MAX_PACKET_LEN - len)) by clia.
    reflexivity. }
  rewrite Hnew. apply (tx_fill_wf q i x); try assumption. apply tx_new_entry_wf; lia.
Qed.

(** ** Selection *)

Definition eligible (q : tx_state) (p i : Z) (x : pqc_tx_entry_t) : Prop :=
  at_index (tx_queue q) i = Some x /\ is_pending x /\ te_priority x = p.

(** The inner loop from any point: it returns the first eligible entry of another
    node, or the first eligible one when all belong to the last node served. *)
Lemma select_at_priority_spec q p idxs first :
  tx_wf q -> (forall i, i ∈ idxs -> 0 <= i < PQC_TX_QUEUE_SIZE) ->
  exists r, select_at_priority q p idxs first = Some r /\
    match r with
    | inl i => exists x, i ∈ idxs /\ eligible q p i x /\ te_node_id x <> tx_last_node_id q
    | inr f =>
        (forall i x, i ∈ idxs -> eligible q p i x -> te_node_id x = tx_last_node_id q) /\
        (if 0 <=? first then f = first
         else (f = first /\ forall i x, i ∈ idxs -> ~ eligible q p i x) \/
              (exists x, f ∈ idxs /\ eligible q p f x))
    end.
Proof.
  intros Hq. revert first. induction idxs as [|i idxs IH]; intros first Hr; cbn [select_at_priority].
  { eexists. split; [reflexivity|]. split; [intros ? ? Hn; inversion Hn|].
    case_if; [reflexivity|]. left. split; [reflexivity|]. intros ? ? Hn; inversion Hn. }
  assert (Hi : 0 <= i < PQC_TX_QUEUE_SIZE) by (apply Hr; left).
  destruct (at_index_total (tx_queue q) i) as [x Hx]; [rewrite (qw_length _ Hq); exact Hi|].
  rewrite Hx. cbn [mbind option_bind].
  assert (Hr' : forall j, j ∈ idxs -> 0 <= j < PQC_TX_QUEUE_SIZE) by (intros; apply Hr; right; assumption).
  assert (Hdec : (te_active x =? 0) || negb (te_priority x =? p) = false <-> eligible q p i x).
  { unfold eligible, is_pending. rewrite orb_false_iff, negb_false_iff, Z.eqb_eq, Z.eqb_neq. tauto. }
  destruct (_ || _) eqn:Ho.
  - assert (Hne : forall y, ~ eligible q p i y).
    { intros y Hy. assert (y = x) as -> by (destruct Hy; congruence).
      apply Hdec in Hy. discriminate. }
    destruct (IH first Hr') as (r & E & HP). exists r. split; [exact E|]. destruct r as [j|f].
    + destruct HP as (y & Hin & Hy). exists y. split; [right; exact Hin|exact Hy].
    + destruct HP as [HA HB]. split.
      * intros j y [->|Hin]%elem_of_cons Hy; [contradiction (Hne y)|eauto].
      * case_if; [exact HB|]. destruct HB as [[-> HB]|(y & Hin & Hy)].
        -- left. split; [reflexivity|]. intros j y [->|Hin]%elem_of_cons; eauto.
        -- right. exists y. split; [right; exact Hin|exact Hy].
  - apply proj1 in Hdec. specialize (Hdec eq_refl) as Hel. clear Ho Hdec. case_if.
    + eexists. split; [reflexivity|]. case_bools. exists x. split; [left|]. auto.
    + case_bools. destruct (IH (if first <? 0 then i else first) Hr') as (r & E & HP).
      exists r. split; [exact E|]. destruct r as [j|f].
      * destruct HP as (y & Hin & Hy). exists y. split; [right; exact Hin|exact Hy].
      * destruct HP as [HA HB]. split.
        -- intros j y [->|Hin]%elem_of_cons Hy; [|eauto].
           assert (y = x) as -> by (destruct Hy, Hel; congruence). assumption.
        -- destruct (Z.ltb_spec first 0), (Z.leb_spec 0 first); try lia.
           rewrite (proj2 (Z.leb_le _ _)) in HB by lia. right. exists x. subst f. split; [left|exact Hel].
Qed.

(** A selected entry: pending, of the best priority present, and of another node
    than the last one served when that priority has one. *)
Definition tx_best (q : tx_state) (i : Z) (x : pqc_tx_entry_t) : Prop :=
  at_index (tx_queue q) i = Some x /\ is_pending x /\
  (forall y, y ∈ pending q -> te_priority x <= te_priority y) /\
  (te_node_id x = tx_last_node_id q -> forall y, y ∈ pending q ->
     te_priority y = te_priority x -> te_node_id y = tx_last_node_id q).

Lemma pending_index q y :
  tx_wf q -> y ∈ pending q -> exists i, i ∈ upto PQC_TX_QUEUE_SIZE /\ at_index (tx_queue q) i = Some y.
Proof.
  intros Hq Hy. apply list_elem_of_filter in Hy as [_ Hy]. apply list_elem_of_lookup in Hy as [k Hk].
  pose proof (lookup_lt_Some _ _ _ Hk). pose proof (qw_length _ Hq). exists (Z.of_nat k).
  rewrite elem_of_upto, at_index_nat. split; [lia|exact Hk].
Qed.

(** The outer loop, once all better priorities are known to be absent. *)
Lemma select_priorities_spec q p n :
  tx_wf q -> (forall y, y ∈ pending q -> p <= te_priority y < p + Z.of_nat n) ->
  (select_priorities q (seqZ p (Z.of_nat n)) = Some (-1) /\ pending q = []) \/
  (exists i x, select_priorities q (seqZ p (Z.of_nat n)) = Some i /\
     0 <= i < PQC_TX_QUEUE_SIZE /\ tx_best q i x).
Proof.
  intros Hq. revert p. induction n as [|n IH]; intros p Hp.
  - left. split; [reflexivity|]. destruct (pending q) as [|y l] eqn:E; [reflexivity|].
    specialize (Hp y ltac:(left)). lia.
  - rewrite seqZ_cons, Nat2Z.inj_succ, Z.pred_succ by lia. cbn [select_priorities].
    assert (Hu : forall i, i ∈ upto PQC_TX_QUEUE_SIZE -> 0 <= i < PQC_TX_QUEUE_SIZE)
      by (intros i; rewrite elem_of_upto; exact id).
    destruct (select_at_priority_spec q p (upto PQC_TX_QUEUE_SIZE) (-1) Hq Hu) as (r & E & HP).
    rewrite E. cbn [mbind option_bind]. destruct r as [i|f].
    + destruct HP as (x & Hin & (Hx & Hpx & Hpr) & Hne). right. exists i, x.
      split; [reflexivity|]. split; [apply Hu, Hin|]. repeat split; try assumption.
      * intros y Hy. specialize (Hp y Hy). lia.
      * intros He. contradiction.
    + destruct HP as [HA HB]. change (0 <=? -1) with false in HB. cbv iota in HB.
      destruct HB as [[-> HB]|(x & Hin & Hx)].
      * apply IH. intros y Hy. specialize (Hp y Hy).
        destruct (pending_index q y Hq Hy) as (j & Hj & Hjy).
        assert (te_priority y <> p); [|lia]. intros He. apply (HB j y Hj). split; [exact Hjy|].
        split; [|exact He]. apply list_elem_of_filter in Hy. tauto.
      * right. apply Hu in Hin as Hf. rewrite (proj2 (Z.leb_le 0 f)) by lia. exists f, x.
        split; [reflexivity|]. split; [exact Hf|]. destruct Hx as (Hx & Hpx & Hpr).
        repeat split; try assumption.
        -- intros y Hy. specialize (Hp y Hy). lia.
        -- intros _ y Hy He. destruct (pending_index q y Hq Hy) as (j & Hj & Hjy).
           apply (HA j y Hj). split; [exact Hjy|].
           apply list_elem_of_filter in Hy. split; [tauto|congruence].
Qed.

Lemma priority_range mt : 0 <= pqc_tx_priority_for_msg mt < 3.
Proof. unfold pqc_tx_priority_for_msg. repeat case_if; clia. Qed.

Lemma select_slot_spec q :
  tx_wf q ->
  (pqc_tx_select_slot q = Some (-1) /\ pending q = []) \/
  (exists i x, pqc_tx_select_slot q = Some i /\ 0 <= i < PQC_TX_QUEUE_SIZE /\ tx_best q i x).
Proof.
  intros Hq. apply (select_priorities_spec q 0 3 Hq). intros y Hy.
  destruct (ew_priority _ (pending_wf q y Hq Hy)) as (mt & _ & ->). apply priority_range.
Qed.

(** ** Leaving the queue *)

(** Entry [x] leaves the queue. *)
Definition tx_removed (q q' : tx_state) (x : pqc_tx_entry_t) : Prop :=
  tx_wf q' /\ pending q ≡ₚ x :: pending q'.

Lemma tx_clear_wf q i x last :
  tx_wf q -> at_index (tx_queue q) i = Some x -> is_pending x ->
  tx_removed q (q <| tx_last_node_id := last |> <| tx_queue ::= (fun l => <[Z.to_nat i := entry_zero]> l) |>
                  <| tx_count ::= (fun n => u8 (n - 1)) |>) x.
Proof.
  intros Hq Hx Hp. destruct (pending_set q i x entry_zero Hx) as (l1 & l2 & E1 & E2).
  rewrite filter_pending_yes in E1 by exact Hp.
  rewrite filter_pending_no in E2 by (intros Hn; apply Hn; reflexivity).
  pose proof (pending_bound q Hq). pose proof (qw_count _ Hq) as Hc.
  rewrite E1, !length_app in Hc. cbn [length] in Hc. split.
  - constructor; rsimpl.
    + rewrite length_insert. apply (qw_length _ Hq).
    + apply (qw_tail _ Hq).
    + unfold pending. rsimpl. rewrite E2, u8_id by clia. rewrite !length_app. cbn [length]. lia.
    + apply Forall_insert; [apply (qw_entries _ Hq)|left; reflexivity].
  - unfold pending at 2. rsimpl. rewrite E2, E1. simpl. symmetry. apply Permutation_middle.
Qed.

Definition tx_processed (q : tx_state) (out : list output) (r : bool) (q' : tx_state)
    (out' : list output) : Prop :=
  if r then exists i x, tx_best q i x /\ tx_removed q q' x /\ out' = out ++ [entry_output x] /\
    tx_last_node_id q' = te_node_id x
  else pending q = [] /\ q' = q /\ out' = out.

Lemma wp_tx_process Q e q :
  tx_wf q ->
  (forall r e' q', tx_processed q (e_out e) r q' (e_out e') -> Q r e' q') ->
  wp pqc_tx_process Q e q.
Proof.
  intros Hq HQ. unfold pqc_tx_process. apply wp_bind, wp_get. case_if.
  { apply wp_ret, HQ. case_bools. rewrite (qw_count _ Hq) in *.
    split; [apply nil_length_inv; lia|auto]. }
  apply wp_bind, wp_lift. destruct (select_slot_spec q Hq) as [[E Hn]|(i & x & E & Hi & Hbest)].
  { case_bools. rewrite (qw_count _ Hq), Hn in *. contradiction. }
  exists i. split; [exact E|]. destruct (Z.ltb_spec i 0); [lia|].
  pose proof Hbest as (Hx & Hp & _). apply wp_bind. unfold tx_entry.
  apply wp_bind, wp_get, wp_lift. exists x. split; [exact Hx|].
  assert (Hw : entry_wf x).
  { apply (pending_wf q); [exact Hq|]. apply at_index_some in Hx as [_ Hx].
    apply list_elem_of_filter. split; [exact Hp|]. exact (list_elem_of_lookup_2 _ _ _ Hx). }
  destruct (ew_conn _ Hw) as [conn Hconn]. rewrite Hconn, (ew_active _ Hw).
  change (1 =? 0) with false. cbv iota.
  apply wp_bind, wp_bind, wp_lift. exists (entry_payload x). split.
  { apply mem_read_spec. pose proof (ew_len _ Hw). pose proof (ew_data _ Hw).
    rewrite drop_0. repeat split; clia. }
  unfold tx_set_entry. wp_steps. apply HQ. exists i, x. split; [exact Hbest|].
  split; [apply tx_clear_wf; assumption|]. rsimpl. split; [|reflexivity].
  unfold entry_output. rewrite Hconn. reflexivity.
Qed.

(** ** Dropping *)

(** The entries a test selects, cleared. *)
Definition clear_if (hit : pqc_tx_entry_t -> bool) (x : pqc_tx_entry_t) : pqc_tx_entry_t :=
  if hit x then entry_zero else x.

Lemma wp_clear_entry Q e q i x :
  tx_wf q -> 0 <= i < PQC_TX_QUEUE_SIZE -> at_index (tx_queue q) i = Some x -> is_pending x ->
  (forall q', tx_wf q' -> tx_count q' = tx_count q - 1 -> tx_last_node_id q' = tx_last_node_id q ->
     tx_queue q' = <[Z.to_nat i := entry_zero]> (tx_queue q) -> Q tt e q') ->
  wp (pqc_tx_clear_entry i) Q e q.
Proof.
  intros Hq Hi Hx Hp HQ. unfold pqc_tx_clear_entry, tx_entry, tx_set_entry.
  destruct (Z.leb_spec PQC_TX_QUEUE_SIZE i); [lia|].
  apply wp_bind, wp_bind, wp_get, wp_lift. exists x. split; [exact Hx|].
  unfold is_pending in Hp. rewrite (proj2 (Z.eqb_neq _ _)) by exact Hp.
  apply wp_bind, wp_modify, wp_modify. rsimpl.
  destruct (tx_clear_wf q i x (tx_last_node_id q) Hq Hx Hp) as [Hw Hperm].
  pose proof (pending_bound q Hq). pose proof (qw_count _ Hq) as Hc.
  apply Permutation_length in Hperm. cbn [length] in Hperm.
  destruct (Z.ltb_spec 0 (tx_count q)); [|lia].
  apply HQ; rsimpl; try reflexivity. destruct Hw. constructor; rsimpl; revert qw_length0 qw_tail0 qw_count0 qw_entries0;
    rsimpl; auto. unfold pending. rsimpl. intros _ _ Hu _. rewrite <- Hu, u8_id by clia. reflexivity.
Qed.

Lemma decide_cons_ne {A} (k i : Z) idxs (x y : A) :
  k <> i -> (if decide (k ∈ i :: idxs) then x else y) = (if decide (k ∈ idxs) then x else y).
Proof.
  intros Hne. destruct (decide (k ∈ idxs)) as [Hin|Hin].
  - rewrite decide_True by (right; exact Hin). reflexivity.
  - rewrite decide_False; [reflexivity|]. intros [?|?]%elem_of_cons; contradiction.
Qed.

Lemma decide_cons_eq {A} (i : Z) idxs (x y : A) : (if decide (i ∈ i :: idxs) then x else y) = x.
Proof. apply decide_True. left. Qed.

Lemma wp_drop_loop (hit : pqc_tx_entry_t -> bool) test idxs dropped e q :
  (forall x, entry_wf x -> test x = Some (hit x)) -> test entry_zero = Some false ->
  (forall x, hit x = true -> is_pending x) ->
  tx_wf q -> (forall i, i ∈ idxs -> 0 <= i < PQC_TX_QUEUE_SIZE) -> is_u8 dropped ->
  wp (drop_loop idxs test dropped) (fun r e' q' => tx_wf q' /\ e' = e /\
    r = u8 (dropped + (tx_count q - tx_count q')) /\ tx_last_node_id q' = tx_last_node_id q /\
    forall k, tx_queue q' !! k =
      (fun x => if decide (Z.of_nat k ∈ idxs) then clear_if hit x else x) <$> tx_queue q !! k) e q.
Proof.
  intros Ht Hz Hh. assert (Hhz : hit entry_zero = false).
  { destruct (hit entry_zero) eqn:E; [|reflexivity]. contradiction (Hh _ E). reflexivity. }
  revert dropped q. induction idxs as [|i idxs IH]; intros d q Hq Hr Hd; cbn [drop_loop].
  { apply wp_ret. rewrite Z.sub_diag, Z.add_0_r, u8_id by exact Hd. split_and!; [exact Hq|reflexivity..|].
    intros k. destruct (tx_queue q !! k); reflexivity. }
  assert (Hi : 0 <= i < PQC_TX_QUEUE_SIZE) by (apply Hr; left).
  assert (Hr' : forall j, j ∈ idxs -> 0 <= j < PQC_TX_QUEUE_SIZE) by (intros; apply Hr; right; assumption).
  apply wp_bind, wp_tx_entry; [exact Hq|exact Hi|]. intros x Hx. pose proof (at_index_some _ _ _ Hx) as [_ Hx'].
  assert (Htx : test x = Some (hit x)).
  { destruct (Forall_lookup_1 _ _ _ _ (qw_entries _ Hq) Hx') as [->|Hw]; [congruence|auto]. }
  apply wp_bind, wp_lift. exists (hit x). split; [exact Htx|]. destruct (hit x) eqn:Ex.
  - apply wp_bind, (wp_clear_entry _ e q i x); auto. intros q1 Hq1 Hc Hl Hqueue.
    eapply wp_mono; [|apply (IH (u8 (d + 1)) q1 Hq1 Hr' (u8_range _))].
    intros r e' q' (Hw & -> & -> & Hl' & Hk). split; [exact Hw|]. split; [reflexivity|].
    split; [rewrite Hc; unfold u8; rewrite Zplus_mod_idemp_l; f_equal; lia|].
    split; [congruence|]. intros k. rewrite Hk, Hqueue. destruct (decide (k = Z.to_nat i)) as [->|Hne].
    + rewrite list_lookup_insert_eq by (apply lookup_lt_Some in Hx'; exact Hx').
      rewrite Hx'. cbn [fmap option_fmap option_map]. f_equal. unfold clear_if.
      rewrite Hhz, Ex, Z2Nat.id by lia. rewrite decide_cons_eq. case_decide; reflexivity.
    + rewrite list_lookup_insert_ne by congruence. destruct (tx_queue q !! k); [|reflexivity].
      cbn. f_equal. symmetry. apply decide_cons_ne. lia.
  - eapply wp_mono; [|apply (IH d q Hq Hr' Hd)].
    intros r e' q' (Hw & -> & -> & Hl' & Hk). split_and!; [exact Hw|reflexivity..|exact Hl'|].
    intros k. rewrite Hk. destruct (tx_queue q !! k) as [y|] eqn:Ey; [|reflexivity]. cbn. f_equal.
    destruct (Z.eq_dec (Z.of_nat k) i) as [Hki|Hki]; [|symmetry; apply decide_cons_ne, Hki].
    subst i. rewrite Nat2Z.id in Hx'. assert (y = x) as -> by congruence. unfold clear_if. rewrite Ex.
    rewrite decide_cons_eq. case_decide; reflexivity.
Qed.

(** What the drop functions do: the entries the test selects leave, all others
    stay in their order. *)
Definition tx_dropped (hit : pqc_tx_entry_t -> bool) (q : tx_state) (r : Z) (q' : tx_state) : Prop :=
  tx_wf q' /\ tx_last_node_id q' = tx_last_node_id q /\
  pending q' = filter (fun x => hit x = false) (pending q) /\
  r = Z.of_nat (length (filter (fun x => hit x = true) (pending q))).

Lemma filter_clear (hit : pqc_tx_entry_t -> bool) (l : list pqc_tx_entry_t) :
  filter is_pending (clear_if hit <$> l) = filter (fun x => hit x = false) (filter is_pending l).
Proof.
  induction l as [|x l IH]; [reflexivity|]. cbn [fmap list_fmap]. unfold clear_if at 1.
  destruct (hit x) eqn:E.
  - rewrite filter_cons_False by (intros Hn; apply Hn; reflexivity). rewrite IH.
    rewrite (filter_cons is_pending x). case_decide; [|reflexivity].
    rewrite filter_cons_False by congruence. reflexivity.
  - rewrite !(filter_cons is_pending). rewrite IH. case_decide; [|reflexivity].
    rewrite filter_cons_True by exact E. reflexivity.
Qed.

Lemma filter_split_length {A} (hit : A -> bool) (l : list A) :
  (length (filter (fun x => hit x = true) l) + length (filter (fun x => hit x = false) l) = length l)%nat.
Proof.
  induction l as [|x l IH]; [reflexivity|]. rewrite !filter_cons.
  destruct (hit x); repeat case_decide; simpl; try congruence; lia.
Qed.

Lemma wp_tx_drop_if (hit : pqc_tx_entry_t -> bool) test Q e q :
  (forall x, entry_wf x -> test x = Some (hit x)) -> test entry_zero = Some false ->
  (forall x, hit x = true -> is_pending x) -> tx_wf q ->
  (forall r q', tx_dropped hit q r q' -> Q r e q') ->
  wp (drop_loop (upto PQC_TX_QUEUE_SIZE) test 0) Q e q.
Proof.
  intros Ht Hz Hh Hq HQ. eapply wp_mono; [|apply (wp_drop_loop hit); auto; [|apply byte_0]].
  2: { intros i. rewrite elem_of_upto. exact id. }
  intros r e' q' (Hw & -> & -> & Hl & Hk). apply HQ. split; [exact Hw|]. split; [exact Hl|].
  assert (Hqueue : tx_queue q' = clear_if hit <$> tx_queue q).
  { apply list_eq. intros k. rewrite Hk, list_lookup_fmap.
    destruct (tx_queue q !! k) as [x|] eqn:E; [|reflexivity]. cbn. f_equal.
    apply lookup_lt_Some in E. pose proof (qw_length _ Hq).
    case_decide as Hd; [reflexivity|]. contradiction Hd. apply elem_of_upto. lia. }
  assert (Hp : pending q' = filter (fun x => hit x = false) (pending q))
    by (unfold pending; rewrite Hqueue; apply filter_clear).
  split; [exact Hp|]. pose proof (pending_bound q Hq). pose proof (filter_split_length hit (pending q)).
  pose proof (qw_count _ Hq). rewrite (qw_count _ Hw), Hp. rewrite u8_id by clia. lia.
Qed.

(** The tests of the two functions, as they come out on pending entries. *)
Definition entry_is (node_id msg_type msg_id : Z) (x : pqc_tx_entry_t) : bool :=
  negb (te_active x =? 0) && (te_node_id x =? node_id) &&
  bool_decide (cell (te_data x) PQC_HDR_MSG_TYPE = Some msg_type /\
               cell (te_data x) PQC_HDR_MSG_ID = Some msg_id).
Definition entry_of_node (node_id : Z) (x : pqc_tx_entry_t) : bool :=
  negb (te_active x =? 0) && (te_node_id x =? node_id).

Lemma tx_matches_eq nid mt mid x :
  entry_wf x -> tx_matches nid mt mid x = Some (entry_is nid mt mid x).
Proof.
  intros Hx. unfold tx_matches, entry_is. rewrite (ew_active _ Hx). change (1 =? 0) with false.
  cbv iota. cbn [negb andb]. destruct (te_node_id x =? nid); cbn [negb andb]; [|reflexivity].
  destruct (Z.leb_spec PQC_HEADER_LEN (te_len x)); [|pose proof (ew_len _ Hx); lia]. cbn [negb].
  pose proof (ew_data _ Hx).
  destruct (cell_total (te_data x) PQC_HDR_MSG_TYPE) as (a & -> & _); [clia|].
  destruct (cell_total (te_data x) PQC_HDR_MSG_ID) as (b & -> & _); [clia|]. cbn [mbind option_bind].
  destruct (Z.eqb_spec a mt) as [->|Ha]; cbn [negb].
  - f_equal. destruct (Z.eqb_spec b mid) as [->|Hb]; symmetry.
    + apply bool_decide_eq_true. auto.
    + apply bool_decide_eq_false. intros [_ [= Hc]]. contradiction.
  - f_equal. symmetry. apply bool_decide_eq_false. intros [[= Hc] _]. contradiction.
Qed.

Lemma wp_tx_drop Q nid mt mid e q :
  tx_wf q -> (forall r q', tx_dropped (entry_is nid mt mid) q r q' -> Q r e q') ->
  wp (pqc_tx_drop nid mt mid) Q e q.
Proof.
  intros Hq HQ. unfold pqc_tx_drop.
  refine (wp_tx_drop_if (entry_is nid mt mid) _ Q e q _ eq_refl _ Hq HQ).
  - exact (tx_matches_eq nid mt mid).
  - unfold entry_is, is_pending. intros x Hx. case_bools. assumption.
Qed.

Lemma wp_tx_drop_node Q nid e q :
  tx_wf q -> (forall r q', tx_dropped (entry_of_node nid) q r q' -> Q r e q') ->
  wp (pqc_tx_drop_node nid) Q e q.
Proof.
  intros Hq HQ. unfold pqc_tx_drop_node.
  refine (wp_tx_drop_if (entry_of_node nid) _ Q e q _ eq_refl _ Hq HQ); [reflexivity|].
  unfold entry_of_node, is_pending. intros x Hx. case_bools. assumption.
Qed.

(** ** The abstract queue

    A bag of at most 96 entries and the node last served.  A step relates an
    operation and its answer to the entries that were accepted, sent and dropped. *)

Inductive tx_op :=
| OpSend (data : bytes) (len : Z) (ctx : pqc_udp_send_ctx_t)
| OpProcess
| OpDrop (node_id msg_type msg_id : Z)
| OpDropNode (node_id : Z).

(** The operations of the code, a truth value answered as 0 or 1. *)
Definition tx_exec (op : tx_op) : M tx_state Z :=
  match op with
  | OpSend data len ctx => r ← pqc_udp_send_fragment data len ctx; mret (Z.b2z r)
  | OpProcess => r ← pqc_tx_process; mret (Z.b2z r)
  | OpDrop nid mt mid => pqc_tx_drop nid mt mid
  | OpDropNode nid => pqc_tx_drop_node nid
  end.

Fixpoint tx_exec_all (ops : list tx_op) : M tx_state (list Z) :=
  match ops with
  | [] => mret []
  | op :: ops => r ← tx_exec op; rs ← tx_exec_all ops; mret (r :: rs)
  end.

(** The length passed with a datagram does not exceed its buffer. *)
Definition op_ok (op : tx_op) : Prop :=
  match op with OpSend data len _ => 0 <= len <= Z.of_nat (length data) | _ => True end.

Abbreviation bag := (list pqc_tx_entry_t).

Inductive tx_step : bag * Z -> tx_op -> Z -> bag * bag * bag -> bag * Z -> Prop :=
| tx_step_accept b b' last data len conn dest :
    Z.of_nat (length b) < PQC_TX_QUEUE_SIZE -> len <= PQC_TX_MAX_PACKET_LEN ->
    pqc_header_valid (Some data) len = Some true ->
    b' ≡ₚ tx_new_entry conn dest data len :: b ->
    tx_step (b, last) (OpSend data len (mk_send_ctx (Some conn) (Some dest))) 1
      ([tx_new_entry conn dest data len], [], []) (b', last)
| tx_step_refuse b last data len ctx :
    Z.of_nat (length b) = PQC_TX_QUEUE_SIZE \/ PQC_TX_MAX_PACKET_LEN < len \/
      pqc_header_valid (Some data) len = Some false \/ ctx_udp_conn ctx = None \/ ctx_dest ctx = None ->
    tx_step (b, last) (OpSend data len ctx) 0 ([], [], []) (b, last)
| tx_step_idle last : tx_step ([], last) OpProcess 0 ([], [], []) ([], last)
| tx_step_send b b' last x :
    b ≡ₚ x :: b' ->
    (forall y, y ∈ b -> te_priority x <= te_priority y) ->
    (te_node_id x = last -> forall y, y ∈ b -> te_priority y = te_priority x -> te_node_id y = last) ->
    tx_step (b, last) OpProcess 1 ([], [x], []) (b', te_node_id x)
| tx_step_drop b last op hit :
    (exists nid mt mid, op = OpDrop nid mt mid /\ hit = entry_is nid mt mid) \/
    (exists nid, op = OpDropNode nid /\ hit = entry_of_node nid) ->
    tx_step (b, last) op (Z.of_nat (length (filter (fun x => hit x = true) b)))
      ([], [], filter (fun x => hit x = true) b) (filter (fun x => hit x = false) b, last).

(** Steps in sequence; the ledger collects what was accepted, sent, dropped. *)
Inductive tx_steps : bag * Z -> list tx_op -> list Z -> bag * bag * bag -> bag * Z -> Prop :=
| tx_steps_nil s : tx_steps s [] [] ([], [], []) s
| tx_steps_cons s s1 s2 op ops r rs a t d a' t' d' :
    tx_step s op r (a, t, d) s1 -> tx_steps s1 ops rs (a', t', d') s2 ->
    tx_steps s (op :: ops) (r :: rs) (a ++ a', t ++ t', d ++ d') s2.

(** The abstract view of a queue. *)
Definition tx_view (q : tx_state) : bag * Z := (pending q, tx_last_node_id q).

Lemma header_valid_dec data len :
  len <= Z.of_nat (length data) ->
  pqc_header_valid (Some data) len = Some true \/ pqc_header_valid (Some data) len = Some false.
Proof. intros Hl. destruct (header_valid_total data len Hl) as [[] Hv]; auto. Qed.

Lemma tx_refuse_reason q data len ctx :
  tx_wf q -> len <= Z.of_nat (length data) -> ~ tx_accepts q data len ctx ->
  Z.of_nat (length (pending q)) = PQC_TX_QUEUE_SIZE \/ PQC_TX_MAX_PACKET_LEN < len \/
    pqc_header_valid (Some data) len = Some false \/ ctx_udp_conn ctx = None \/ ctx_dest ctx = None.
Proof.
  intros Hq Hl Hn. destruct ctx as [[c|] [d|]]; cbn [ctx_udp_conn ctx_dest]; auto 6.
  destruct (header_valid_dec data len Hl) as [Hv|Hv]; auto.
  destruct (Z.leb_spec len PQC_TX_MAX_PACKET_LEN); [|auto].
  destruct (Z.ltb_spec (tx_count q) PQC_TX_QUEUE_SIZE) as [Hc|Hc].
  - contradiction Hn. repeat split; cbn; eauto.
  - left. rewrite <- (qw_count _ Hq). pose proof (pending_bound q Hq). lia.
Qed.

(** One operation of the code is one abstract step. *)
Lemma wp_tx_exec op e q :
  tx_wf q -> op_ok op ->
  wp (tx_exec op) (fun r e' q' => tx_wf q' /\ exists a t d,
    tx_step (tx_view q) op r (a, t, d) (tx_view q') /\ e_out e' = e_out e ++ (entry_output <$> t)) e q.
Proof.
  intros Hq Hok. unfold tx_view. destruct op as [data len ctx| |nid mt mid|nid]; cbn [tx_exec].
  - apply wp_bind, wp_send_fragment; [exact Hq|exact Hok|]. intros [] q' Hs; apply wp_ret.
    + destruct Hs as [(_ & _ & Hc & Hl & Hv) (conn & dest & -> & Hw & He & Hp & Hlast)].
      split; [exact Hw|]. rewrite Hlast. eexists _, [], []. split; [|no_output].
      apply tx_step_accept; [rewrite <- (qw_count _ Hq)| | |]; assumption.
    + destruct Hs as [Hn ->]. split; [exact Hq|]. eexists _, [], [].
      split; [|no_output].
      apply tx_step_refuse, tx_refuse_reason; [exact Hq|apply Hok|exact Hn].
  - apply wp_bind, wp_tx_process; [exact Hq|]. intros [] e' q' Hs; apply wp_ret.
    + destruct Hs as (i & x & (Hx & Hp & Hbest & Hnode) & [Hw Hperm] & Hout & Hlast).
      split; [exact Hw|]. rewrite Hlast. exists [], [x], []. split; [|exact Hout].
      apply tx_step_send; assumption.
    + destruct Hs as (Hp & -> & Hout). split; [exact Hq|]. rewrite Hp, Hout. do 3 eexists.
      split; [apply tx_step_idle|no_output].
  - apply wp_tx_drop; [exact Hq|]. intros r q' (Hw & Hlast & Hp & ->). split; [exact Hw|].
    rewrite Hlast, Hp. do 3 eexists. split; [apply tx_step_drop; left; eauto|no_output].
  - apply wp_tx_drop_node; [exact Hq|]. intros r q' (Hw & Hlast & Hp & ->). split; [exact Hw|].
    rewrite Hlast, Hp. do 3 eexists. split; [apply tx_step_drop; right; eauto|no_output].
Qed.

Lemma wp_tx_exec_all ops e q :
  tx_wf q -> Forall op_ok ops ->
  wp (tx_exec_all ops) (fun rs e' q' => tx_wf q' /\ exists a t d,
    tx_steps (tx_view q) ops rs (a, t, d) (tx_view q') /\
    e_out e' = e_out e ++ (entry_output <$> t)) e q.
Proof.
  revert e q. induction ops as [|op ops IH]; intros e q Hq Hok; cbn [tx_exec_all].
  { apply wp_ret. split; [exact Hq|]. do 3 eexists. split; [apply tx_steps_nil|].
    no_output. }
  apply list.Forall_cons in Hok as [Ho Hok]. apply wp_bind.
  eapply wp_mono; [|apply (wp_tx_exec op e q Hq Ho)].
  intros r e1 q1 (Hw1 & a & t & d & Hs & Hout). apply wp_bind.
  eapply wp_mono; [|apply (IH e1 q1 Hw1 Hok)].
  intros rs e2 q2 (Hw2 & a' & t' & d' & Hss & Hout'). apply wp_ret. split; [exact Hw2|].
  do 3 eexists. split; [eapply tx_steps_cons; [exact Hs|exact Hss]|].
  rewrite Hout', Hout, fmap_app, app_assoc. reflexivity.
Qed.

(** Nothing is lost or duplicated, by induction over the steps. *)
Lemma tx_steps_conserve s ops rs l s' :
  tx_steps s ops rs l s' -> s.1 ++ l.1.1 ≡ₚ l.1.2 ++ l.2 ++ s'.1.
Proof.
  induction 1 as [s|s s1 s2 op ops r rs a t d a' t' d' Hs Hss IH]; cbn [fst snd] in *.
  { rewrite app_nil_r. reflexivity. }
  assert (H1 : s.1 ++ a ≡ₚ t ++ d ++ s1.1).
  { inversion Hs; subst; cbn [fst snd app]; rewrite ?app_nil_r; try reflexivity.
    - match goal with Hp : _ ≡ₚ _ |- _ => rewrite Hp end. symmetry. apply Permutation_cons_append.
    - assumption.
    - clear. induction b as [|x b IH]; [reflexivity|]. rewrite !filter_cons.
      destruct (hit x); repeat case_decide; try congruence; cbn [app].
      + rewrite <- IH. reflexivity.
      + rewrite <- Permutation_middle, <- IH. reflexivity. }
  rewrite app_assoc, H1, <- !app_assoc, IH. apply Permutation_app_head, Permutation_app_swap_app.
Qed.

End TxQueue.

Section TxFacts.
Context `{Platform}.

(** What a sequence of answers says was accepted and dropped. *)
Fixpoint accepted (ops : list tx_op) (rs : list Z) {struct ops} : list output :=
  match ops, rs with
  | OpSend data len (mk_send_ctx (Some conn) (Some dest)) :: ops, r :: rs =>
      (if r =? 1 then [UdpSend conn (take (Z.to_nat len) data) dest] else []) ++ accepted ops rs
  | _ :: ops, _ :: rs => accepted ops rs
  | _, _ => []
  end.

Fixpoint dropped_count (ops : list tx_op) (rs : list Z) {struct ops} : Z :=
  match ops, rs with
  | OpDrop _ _ _ :: ops, r :: rs => r + dropped_count ops rs
  | OpDropNode _ :: ops, r :: rs => r + dropped_count ops rs
  | _ :: ops, _ :: rs => dropped_count ops rs
  | _, _ => 0
  end.

Lemma tx_steps_ledger s ops rs l s' :
  tx_steps s ops rs l s' -> Forall op_ok ops ->
  entry_output <$> l.1.1 = accepted ops rs /\ Z.of_nat (length l.2) = dropped_count ops rs.
Proof.
  induction 1 as [s|s s1 s2 op ops r rs a t d a' t' d' Hs Hss IH]; intros Hok; [auto|].
  apply list.Forall_cons in Hok as [Ho Hok]. destruct (IH Hok) as [IHa IHd]. cbn [fst snd] in *.
  rewrite fmap_app, length_app, Nat2Z.inj_add, IHa, IHd.
  inversion Hs; subst; cbn [accepted dropped_count fmap list_fmap app length]; try (split; [reflexivity|lia]).
  - rewrite tx_new_entry_output by apply Ho. split; [reflexivity|lia].
  - destruct ctx as [[?|] [?|]]; split; reflexivity || lia.
  - match goal with Hd : _ \/ _ |- _ => destruct Hd as [(? & ? & ? & -> & _)|(? & -> & _)] end;
      split; reflexivity || lia.
Qed.

(** Runs of the transmitter alone. *)
Lemma wp_tx_drain n e q :
  tx_wf q -> tx_count q = Z.of_nat n ->
  wp (tx_exec_all (replicate n OpProcess)) (fun rs e' q' => rs = replicate n 1 /\ tx_wf q' /\
    pending q' = [] /\ exists t, t ≡ₚ pending q /\
    StronglySorted (fun x y => te_priority x <= te_priority y) t /\
    e_out e' = e_out e ++ (entry_output <$> t)) e q.
Proof.
  revert e q. induction n as [|n IH]; intros e q Hq Hn; cbn [tx_exec_all replicate].
  { apply wp_ret. rewrite (qw_count _ Hq) in Hn.
    assert (Hp : pending q = []) by (apply nil_length_inv; lia). rewrite Hp.
    split_and!; [reflexivity|exact Hq|reflexivity|]. exists [].
    split_and!; [reflexivity|constructor|no_output]. }
  apply wp_bind. cbn [tx_exec]. apply wp_bind, wp_tx_process; [exact Hq|].
  intros [] e1 q1 Hp; apply wp_ret.
  2: { destruct Hp as (Hp & _). rewrite (qw_count _ Hq), Hp in Hn. discriminate. }
  destruct Hp as (i & x & (_ & _ & Hbest & _) & [Hw Hperm] & Hout & _).
  apply wp_bind. eapply wp_mono; [|apply (IH e1 q1 Hw)].
  2: { rewrite (qw_count _ Hw). rewrite (qw_count _ Hq), Hperm in Hn. cbn [length] in Hn. lia. }
  intros rs e2 q2 (-> & Hw2 & Hp2 & t & Ht & Hs & Hout2). apply wp_ret.
  split_and!; [reflexivity|exact Hw2|exact Hp2|]. exists (x :: t). split_and!.
  - rewrite Ht. symmetry. exact Hperm.
  - constructor; [exact Hs|]. rewrite list.Forall_forall. intros y Hy. apply Hbest.
    rewrite Hperm. right. rewrite <- Ht. exact Hy.
  - rewrite Hout2, Hout, <- app_assoc. reflexivity.
Qed.

(** Runs from [pqc_tx_init]. *)
Lemma tx_boot_run ops e q :
  Forall op_ok ops ->
  exists rs e' q' l, (pqc_tx_init;; tx_exec_all ops) e q = Some (rs, e', q') /\ tx_wf q' /\
    tx_steps ([], SESSION_INVALID_NODE_ID) ops rs l (tx_view q') /\
    e_out e' = e_out e ++ (entry_output <$> l.1.2).
Proof.
  intros Hok.
  assert (Hwp : wp (pqc_tx_init;; tx_exec_all ops) (fun rs e' q' => tx_wf q' /\ exists l,
    tx_steps ([], SESSION_INVALID_NODE_ID) ops rs l (tx_view q') /\
    e_out e' = e_out e ++ (entry_output <$> l.1.2)) e q).
  { apply wp_bind. destruct (tx_init_wf e q) as [Hw Hp]. unfold wp, pqc_tx_init, put.
    eapply wp_mono; [|apply (wp_tx_exec_all ops _ _ Hw Hok)].
    intros rs e' q' (Hw' & a & t & d & Hs & Hout). split; [exact Hw'|]. exists (a, t, d).
    split; [|exact Hout]. unfold tx_view at 1 in Hs. rewrite Hp in Hs. exact Hs. }
  apply wp_run in Hwp as (rs & e' & q' & Hrun & Hw & l & HQ). exists rs, e', q', l. auto.
Qed.

End TxFacts.

(** ** Properties *)

#[local] Existing Instance example_platform | 100.

(** C9. The transmit queue refines the abstract queue: from [pqc_tx_init] on, every
    sequence of send, process, drop and drop-node calls runs without an access
    outside the table and answers as the abstract bag of at most 96 entries does.
    A datagram is refused only when the queue is full, the datagram too long or its
    header invalid; [pqc_tx_process] sends a datagram of the best priority present,
    of another node than the last one served if that priority has one; a drop
    removes exactly the datagrams it names; the emitted datagrams are those of the
    abstract steps, in order. *)
Theorem tx_queue_refines `{Platform} ops e q :
  Forall op_ok ops ->
  exists rs e' q' l, (pqc_tx_init;; tx_exec_all ops) e q = Some (rs, e', q') /\ tx_wf q' /\
    tx_steps ([], SESSION_INVALID_NODE_ID) ops rs l (tx_view q') /\
    e_out e' = e_out e ++ (entry_output <$> l.1.2).
Proof.
  intros Hok. destruct (tx_boot_run ops e q Hok) as (rs & e' & q' & l & HQ). exists rs, e', q', l. exact HQ.
Qed.

(** A PK fragment of 20 payload bytes of node 5, an ACK of node 7. *)
Definition example_sends : list tx_op :=
  [OpSend (header_bytes 1 5 0 0 36 20 0 ++ zeros 20) 30 (mk_send_ctx (Some 0%nat) (Some 9));
   OpSend (header_bytes 3 7 1 0 1 0 0) 10 (mk_send_ctx (Some 0%nat) (Some 8))].

Example tx_queue_refines_witness :
  exists rs e' q' l, (pqc_tx_init;; tx_exec_all (example_sends ++ [OpProcess; OpDropNode 5]))
      example_env tx_boot = Some (rs, e', q') /\ tx_wf q' /\
    tx_steps ([], SESSION_INVALID_NODE_ID) (example_sends ++ [OpProcess; OpDropNode 5]) rs l (tx_view q') /\
    e_out e' = e_out example_env ++ (entry_output <$> l.1.2).
Proof.
  apply (tx_queue_refines (example_sends ++ [OpProcess; OpDropNode 5]) example_env tx_boot).
  repeat constructor; cbn; intros [=].
Defined.

(** C37. No datagram is lost or sent twice: over any sequence of calls the accepted
    datagrams are, as a multiset, the emitted ones, the ones a drop call discarded
    and counted, and the ones still waiting. *)
Theorem tx_queue_conserves `{Platform} ops e q :
  Forall op_ok ops ->
  exists rs e' q' sent discarded, (pqc_tx_init;; tx_exec_all ops) e q = Some (rs, e', q') /\
    e_out e' = e_out e ++ sent /\ Z.of_nat (length discarded) = dropped_count ops rs /\
    accepted ops rs ≡ₚ sent ++ discarded ++ (entry_output <$> pending q').
Proof.
  intros Hok. destruct (tx_boot_run ops e q Hok) as (rs & e' & q' & [[a t] d] & Hrun & _ & Hs & Hout).
  destruct (tx_steps_ledger _ _ _ _ _ Hs Hok) as [Ha Hd]. apply tx_steps_conserve in Hs.
  cbn [fst snd app] in *. exists rs, e', q', (entry_output <$> t), (entry_output <$> d).
  rewrite length_fmap, <- Ha, <- !fmap_app. split_and!; auto. rewrite Hs. reflexivity.
Qed.

Example tx_queue_conserves_witness :
  exists rs e' q' sent discarded,
    (pqc_tx_init;; tx_exec_all (example_sends ++ [OpProcess; OpDropNode 5])) example_env tx_boot =
      Some (rs, e', q') /\
    e_out e' = e_out example_env ++ sent /\
    Z.of_nat (length discarded) = dropped_count (example_sends ++ [OpProcess; OpDropNode 5]) rs /\
    accepted (example_sends ++ [OpProcess; OpDropNode 5]) rs ≡ₚ
      sent ++ discarded ++ (entry_output <$> pending q').
Proof.
  apply (tx_queue_conserves (example_sends ++ [OpProcess; OpDropNode 5]) example_env tx_boot).
  repeat constructor; cbn; intros [=].
Defined.

(** C38. The transmitter empties the queue: as many calls of [pqc_tx_process] as
    there are waiting datagrams each send one, all of them leave, in an order that
    never puts a lower priority first, and nothing is pending afterwards. *)
Theorem tx_queue_drains `{Platform} e q :
  tx_wf q ->
  exists e' q' t,
    tx_exec_all (replicate (Z.to_nat (tx_count q)) OpProcess) e q =
      Some (replicate (Z.to_nat (tx_count q)) 1, e', q') /\
    pqc_tx_has_pending q' = false /\ pqc_tx_free_slots q' = PQC_TX_QUEUE_SIZE /\
    t ≡ₚ pending q /\ StronglySorted (fun x y => te_priority x <= te_priority y) t /\
    e_out e' = e_out e ++ (entry_output <$> t).
Proof.
  intros Hq. pose proof (pending_bound q Hq).
  pose proof (wp_tx_drain (Z.to_nat (tx_count q)) e q Hq ltac:(lia)) as Hwp.
  apply wp_run in Hwp as (rs & e' & q' & Hrun & -> & Hw & Hp & t & Ht & Hs & Hout).
  exists e', q', t. pose proof (qw_count _ Hw) as Hc. rewrite Hp in Hc. cbn in Hc.
  unfold pqc_tx_has_pending, pqc_tx_free_slots. rewrite Hc. auto 8.
Qed.

(** The queue after the two datagrams. *)
Definition example_queue : tx_state :=
  match (pqc_tx_init;; tx_exec_all example_sends) example_env tx_boot with
  | Some (_, _, q) => q | None => tx_boot end.

Lemma example_queue_wf : tx_wf example_queue.
Proof.
  destruct (tx_boot_run example_sends example_env tx_boot) as (rs & e' & q' & l & Hrun & Hw & _);
    [repeat constructor; cbn; intros [=]|].
  unfold example_queue. rewrite Hrun. exact Hw.
Qed.

Example tx_queue_drains_witness :
  exists e' q' t,
    tx_exec_all (replicate (Z.to_nat (tx_count example_queue)) OpProcess) example_env example_queue =
      Some (replicate (Z.to_nat (tx_count example_queue)) 1, e', q') /\
    pqc_tx_has_pending q' = false /\ pqc_tx_free_slots q' = PQC_TX_QUEUE_SIZE /\
    t ≡ₚ pending example_queue /\ StronglySorted (fun x y => te_priority x <= te_priority y) t /\
    e_out e' = e_out example_env ++ (entry_output <$> t).
Proof. apply (tx_queue_drains example_env example_queue), example_queue_wf. Defined.
