(* ===== verification/Telemetry.v ===== *)
(** * Application datagrams: the second half of [src/src/PQC/PQC.c]

    The public key request, the encrypted temperature readings and the metrics
    reports.  These functions work on a session and on the transmit queue. *)

From Stdlib Require Import Sorted.
From S2P Require Import Prelude Platform Protocol Fragmentation Metrics Aes CryptoWorker Session TxQueue.

(* src/src/PQC/PQC.c:10-10 PQC_TEMP_RX_COUNTER_WINDOW *)
Definition PQC_TEMP_RX_COUNTER_WINDOW : Z := 16.

(** [sizeof(pqc_temp_payload_t)]. *)
Definition TEMP_PAYLOAD_LEN : Z := 12.

#[export] Hint Unfold PQC_TEMP_RX_COUNTER_WINDOW TEMP_PAYLOAD_LEN : c_consts.

(** The memory of a temperature record: three 32-bit fields, little-endian as on
    the target, the last two in two's complement. *)
Definition le32 (v : Z) : bytes :=
  [u8 v; u8 (Z.shiftr v 8); u8 (Z.shiftr v 16); u8 (Z.shiftr v 24)].
Definition le32_at (b : bytes) (off : Z) : option Z :=
  b0 ← cell b off; b1 ← cell b (off + 1); b2 ← cell b (off + 2); b3 ← cell b (off + 3);
  Some (b0 + 2 ^ 8 * b1 + 2 ^ 16 * b2 + 2 ^ 24 * b3).
Definition temp_bytes (p : pqc_temp_payload_t) : bytes :=
  le32 (tp_counter p) ++ le32 (u32 (tp_rh_milli p)) ++ le32 (u32 (tp_temp_milli p)).
Definition temp_of_bytes (b : bytes) : option pqc_temp_payload_t :=
  counter ← le32_at b 0; rh ← le32_at b 4; t ← le32_at b 8;
  Some (mk_temp_payload counter (s32 rh) (s32 t)).

Section Telemetry.
Context `{Platform}.

(** A session and the queue. *)
Definition on_session {A} : M session_t A -> M (session_t * tx_state) A :=
  zoom fst (fun s w => (s, snd w)).
Definition on_tx {A} : M tx_state A -> M (session_t * tx_state) A :=
  zoom snd (fun q w => (fst w, q)).

(** The statistics of temperature readings and of resources. *)
Definition temp_stat (f : pqc_metrics_temp_t -> pqc_metrics_temp_t) : M session_t unit :=
  modify (fun s => s <| metrics ::= (fun m => m <| temp ::= f |>) |>).
Definition resource_stat (f : pqc_metrics_resource_t -> pqc_metrics_resource_t) : M session_t unit :=
  modify (fun s => s <| metrics ::= (fun m => m <| resource ::= f |>) |>).

(** [udp_conn == NULL || dest == NULL]. *)
Definition ctx_null (ctx : pqc_udp_send_ctx_t) : bool :=
  match ctx_udp_conn ctx, ctx_dest ctx with Some _, Some _ => false | _, _ => true end.

(** [udp_conn] and [root_addr] are the two fields of [ctx]. *)
(* src/src/PQC/PQC.c:217-240 pqc_send_GETPK *)
Definition pqc_send_GETPK (ctx : pqc_udp_send_ctx_t) (node_id : Z) : M tx_state bool :=
  if ctx_null ctx then mret false else
  msg ← lift (pqc_header_write (zeros PQC_HEADER_LEN) PQC_MSG_GETPK node_id 0 0 1 0 PQC_FLAG_NONE);
  pqc_udp_send_fragment msg PQC_HEADER_LEN ctx.

(** [udp_conn] and [dest] are the two fields of [ctx]; [s] and [measurement] are
    not [NULL].  The local buffers are filled before they are read. *)
(* src/src/PQC/PQC.c:242-297 pqc_send_encrypted_temp *)
Definition pqc_send_encrypted_temp (ctx : pqc_udp_send_ctx_t) (measurement : pqc_temp_payload_t)
    : M (session_t * tx_state) bool :=
  s ← on_session get;
  q ← on_tx get;
  if ctx_null ctx || negb (session_is_established s) || (pqc_tx_free_slots q =? 0)
  then on_session (temp_stat (fun t => t <| temp_tx_fail ::= inc32 |>));; mret false
  else
    let counter := tx_counter s in
    let payload := measurement <| tp_counter := counter |> in
    packet ← lift (mem_write (zeros (PQC_HEADER_LEN + TEMP_PAYLOAD_LEN)) PQC_HEADER_LEN
                     (temp_bytes payload));
    iv ← lift (crypto_worker_derive_aes_iv (ss s) counter (zeros CW_AES_IV_LEN));
    body ← lift (mem_read packet PQC_HEADER_LEN TEMP_PAYLOAD_LEN);
    body ← lift (crypto_worker_aes_ctr_xcrypt (aes_key s) iv body TEMP_PAYLOAD_LEN);
    packet ← lift (mem_write packet PQC_HEADER_LEN body);
    msg_id ← on_session session_next_msg_id;
    packet ← lift (pqc_header_write packet PQC_MSG_TEMP (node_id s) msg_id 0 1 TEMP_PAYLOAD_LEN
                     PQC_FLAG_NONE);
    queued ← on_tx (pqc_udp_send_fragment packet (PQC_HEADER_LEN + TEMP_PAYLOAD_LEN) ctx);
    (if (queued : bool)
     then on_session (modify (fun s => s <| tx_counter ::= inc32 |>));;
          on_session (temp_stat (fun t => t <| temp_tx ::= inc32 |>))
     else on_session (temp_stat (fun t => t <| temp_tx_fail ::= inc32 |>)));;
    _ ← lift (crypto_worker_secure_zero iv CW_AES_IV_LEN);
    _ ← lift (crypto_worker_secure_zero (temp_bytes payload) TEMP_PAYLOAD_LEN);
    mret queued.

(* src/src/PQC/PQC.c:299-345 pqc_send_metrics_report *)
Definition pqc_send_metrics_report (ctx : pqc_udp_send_ctx_t) (group : Z)
    : M (session_t * tx_state) bool :=
  s ← on_session get;
  q ← on_tx get;
  if ctx_null ctx || negb (session_is_established s) || (pqc_tx_free_slots q =? 0)
  then on_session (resource_stat (fun r => r <| tx_queue_full ::= inc32 |>));; mret false
  else
    report ← on_session (on_metrics (pqc_metrics_build_report group));
    match report with
    | None => mret false
    | Some report =>
        '(payload_len, payload) ← lift (pqc_metrics_encode_report report
                                          (zeros PQC_METRICS_REPORT_LEN) PQC_METRICS_REPORT_LEN);
        if payload_len =? 0 then mret false else
        msg_id ← on_session session_next_msg_id;
        packet ← lift (pqc_header_write (zeros (PQC_HEADER_LEN + PQC_METRICS_REPORT_LEN))
                         PQC_MSG_METRICS (node_id s) msg_id 0 1 payload_len PQC_FLAG_NONE);
        body ← lift (mem_read payload 0 payload_len);
        packet ← lift (mem_write packet PQC_HEADER_LEN body);
        queued ← on_tx (pqc_udp_send_fragment packet (u16 (PQC_HEADER_LEN + payload_len)) ctx);
        if negb queued
        then on_session (resource_stat (fun r => r <| tx_queue_full ::= inc32 |>));; mret false
        else mret true
    end.

(** The line printed on a resynchronisation. *)
Definition resync_line (node_id expected_counter trial_counter offset : Z) : string :=
  "[PQC] Node " ++ pretty node_id ++ ": TEMP counter resync expected=" ++ pretty expected_counter ++
  " got=" ++ pretty trial_counter ++ " skipped=" ++ pretty offset.

(** One iteration: the payload under the trial counter, if its counter matches. *)
(* src/src/PQC/PQC.c:377-385 pqc_handle_encrypted_temp *)
Definition temp_try (s : session_t) (data : bytes) (trial_counter : Z) : option (option pqc_temp_payload_t) :=
  body ← mem_read data PQC_HEADER_LEN TEMP_PAYLOAD_LEN;
  iv ← crypto_worker_derive_aes_iv (ss s) trial_counter (zeros CW_AES_IV_LEN);
  body ← crypto_worker_aes_ctr_xcrypt (aes_key s) iv body TEMP_PAYLOAD_LEN;
  payload ← temp_of_bytes body;
  Some (if tp_counter payload =? trial_counter then Some payload else None).

(** The test on the datagram, evaluated left to right; [data] is not [NULL]. *)
Definition temp_acceptable (s : session_t) (data : bytes) (len : Z) : option bool :=
  if negb (session_is_established s) then Some false else
  valid ← pqc_header_valid (Some data) len;
  if negb valid then Some false else
  mt ← cell data PQC_HDR_MSG_TYPE;
  if negb (mt =? PQC_MSG_TEMP) then Some false else
  idx ← cell data PQC_HDR_FRAG_IDX;
  if negb (idx =? 0) then Some false else
  total ← cell data PQC_HDR_TOTAL_FRAGS;
  if negb (total =? 1) then Some false else
  pl ← cell data PQC_HDR_PAYLOAD_LEN;
  Some (pl =? TEMP_PAYLOAD_LEN).

(** The received record, or [None] where the function returns 0. *)
(* src/src/PQC/PQC.c:347-412 pqc_handle_encrypted_temp *)
Definition pqc_handle_encrypted_temp (data : bytes) (len : Z)
    : M session_t (option pqc_temp_payload_t) :=
  s ← get;
  ok ← lift (temp_acceptable s data len);
  if negb ok
  then temp_stat (fun t => t <| temp_rx_fail ::= inc32 |>);; mret None
  else
    temp_stat (fun t => t <| temp_rx ::= inc32 |>);;
    let expected_counter := session_peek_rx_counter s in
    r ← for_each (upto PQC_TEMP_RX_COUNTER_WINDOW) (fun offset =>
      let trial_counter := u32 (expected_counter + offset) in
      t ← lift (temp_try s data trial_counter);
      match t with
      | None => mret None
      | Some payload =>
          (if negb (offset =? 0)
           then temp_stat (fun t => t <| temp_counter_resync ::= inc32 |>);;
                emit (Serial (resync_line (node_id s) expected_counter trial_counter offset))
           else mret tt);;
          modify (fun s => s <| rx_counter := u32 (trial_counter + 1) |>);;
          session_touch;;
          temp_stat (fun t => t <| temp_rx_ok ::= inc32 |>);;
          mret (Some payload)
      end);
    match r with
    | Some payload => mret (Some payload)
    | None => temp_stat (fun t => t <| temp_rx_fail ::= inc32 |>);; mret None
    end.

End Telemetry.

(** ** The temperature record in memory *)

(** Records the fields can hold. *)
Definition temp_wf (p : pqc_temp_payload_t) : Prop :=
  is_u32 (tp_counter p) /\ - 2 ^ 31 <= tp_rh_milli p < 2 ^ 31 /\ - 2 ^ 31 <= tp_temp_milli p < 2 ^ 31.
#[export] Instance temp_wf_dec p : Decision (temp_wf p).
Proof. unfold temp_wf. apply _. Defined.

Lemma le32_value v :
  is_u32 v -> u8 v + 2 ^ 8 * u8 (Z.shiftr v 8) + 2 ^ 16 * u8 (Z.shiftr v 16) + 2 ^ 24 * u8 (Z.shiftr v 24) = v.
Proof.
  intros Hv. rewrite !u8_shiftr by lia. unfold u8, in_width in *.
  pose proof (be32_value v Hv) as Hb. change 256 with (2 ^ 8) in Hb.
  rewrite (Z.mod_small (v / 2 ^ 24)) by (split; [apply Z.div_pos; lia|apply Z.div_lt_upper_bound; lia]).
  lia.
Qed.

Lemma le32_at_app pre v post :
  is_u32 v -> le32_at (pre ++ le32 v ++ post) (Z.of_nat (length pre)) = Some v.
Proof.
  intros Hv. unfold le32_at.
  pose proof (cell_middle pre (drop 1 (le32 v) ++ post) (u8 v)) as E0.
  pose proof (cell_app pre (le32 v ++ post) 1) as E1. pose proof (cell_app pre (le32 v ++ post) 2) as E2.
  pose proof (cell_app pre (le32 v ++ post) 3) as E3.
  change (Z.of_nat 1) with 1 in E1. change (Z.of_nat 2) with 2 in E2. change (Z.of_nat 3) with 3 in E3.
  rewrite E1, E2, E3. unfold le32 in *. cbn [drop app] in E0. cbn [app]. rewrite E0.
  cbn [lookup list_lookup mbind option_bind].
  f_equal. apply le32_value, Hv.
Qed.

Lemma s32_u32 x : - 2 ^ 31 <= x < 2 ^ 31 -> s32 (u32 x) = x.
Proof.
  intros Hx. unfold s32, u32. rewrite Z.mod_mod by lia.
  destruct (Z.ltb_spec x 0).
  - rewrite <- (Z.mod_unique x (2 ^ 32) (-1) (x + 2 ^ 32)) by lia. case_if; case_bools; lia.
  - rewrite Z.mod_small by lia. case_if; case_bools; lia.
Qed.

Lemma temp_of_bytes_bytes p : temp_wf p -> temp_of_bytes (temp_bytes p) = Some p.
Proof.
  intros (Hc & Hr & Ht). unfold temp_of_bytes, temp_bytes.
  pose proof (le32_at_app [] (tp_counter p) (le32 (u32 (tp_rh_milli p)) ++ le32 (u32 (tp_temp_milli p))) Hc) as E1.
  pose proof (le32_at_app (le32 (tp_counter p)) _ (le32 (u32 (tp_temp_milli p))) (u32_range (tp_rh_milli p))) as E2.
  pose proof (le32_at_app (le32 (tp_counter p) ++ le32 (u32 (tp_rh_milli p))) _ [] (u32_range (tp_temp_milli p))) as E3.
  rewrite app_nil_r, <- app_assoc in E3.
  change (Z.of_nat (length _)) with 0 in E1. change (Z.of_nat (length _)) with 4 in E2.
  change (Z.of_nat (length _)) with 8 in E3. cbn [app] in E1.
  rewrite E1, E2, E3. cbn [mbind option_bind]. rewrite !s32_u32 by assumption. destruct p; reflexivity.
Qed.

Lemma temp_bytes_length p : Z.of_nat (length (temp_bytes p)) = TEMP_PAYLOAD_LEN.
Proof. reflexivity. Qed.

Lemma le32_at_total b off :
  0 <= off -> off + 4 <= Z.of_nat (length b) -> exists v, le32_at b off = Some v.
Proof.
  intros Ho Hl. unfold le32_at.
  destruct (cell_total b off) as (b0 & -> & _); [lia|]. destruct (cell_total b (off + 1)) as (b1 & -> & _); [lia|].
  destruct (cell_total b (off + 2)) as (b2 & -> & _); [lia|].
  destruct (cell_total b (off + 3)) as (b3 & -> & _); [lia|]. cbn [mbind option_bind]. eauto.
Qed.

Lemma temp_of_bytes_total b :
  Z.of_nat (length b) = TEMP_PAYLOAD_LEN -> exists p, temp_of_bytes b = Some p.
Proof.
  intros Hl. unfold temp_of_bytes. destruct (le32_at_total b 0) as [c ->]; [lia|clia|].
  destruct (le32_at_total b 4) as [r ->]; [lia|clia|]. destruct (le32_at_total b 8) as [t ->]; [lia|clia|].
  cbn [mbind option_bind]. eauto.
Qed.

Section TelemetryFacts.
Context `{PlatformLaws}.

(** ** The encrypted datagram *)

Definition temp_body (key secret : bytes) (p : pqc_temp_payload_t) : bytes :=
  default [] (crypto_worker_aes_ctr_xcrypt key (aes_iv_of secret (tp_counter p)) (temp_bytes p) TEMP_PAYLOAD_LEN).
Definition temp_packet (s : session_t) (msg_id : Z) (p : pqc_temp_payload_t) : bytes :=
  header_bytes PQC_MSG_TEMP (node_id s) msg_id 0 1 TEMP_PAYLOAD_LEN PQC_FLAG_NONE ++
  temp_body (aes_key s) (ss s) p.

Lemma temp_body_spec key secret p :
  is_aes_key key -> is_secret secret ->
  crypto_worker_aes_ctr_xcrypt key (aes_iv_of secret (tp_counter p)) (temp_bytes p) TEMP_PAYLOAD_LEN =
    Some (temp_body key secret p) /\
  Z.of_nat (length (temp_body key secret p)) = TEMP_PAYLOAD_LEN /\
  crypto_worker_aes_ctr_xcrypt key (aes_iv_of secret (tp_counter p)) (temp_body key secret p) TEMP_PAYLOAD_LEN =
    Some (temp_bytes p).
Proof.
  intros Hk Hs. unfold temp_body.
  destruct (derive_aes_iv_eq secret (tp_counter p) (zeros CW_AES_IV_LEN) Hs) as [_ Hiv];
    [rewrite length_zeros; clia|].
  destruct (xcrypt_twice key (aes_iv_of secret (tp_counter p)) (temp_bytes p) TEMP_PAYLOAD_LEN Hk Hiv)
    as (b & E & Hl & E'); [rewrite temp_bytes_length; clia|].
  rewrite E. change (default [] (Some b)) with b. split; [reflexivity|]. split; [rewrite Hl; apply temp_bytes_length|exact E'].
Qed.

Lemma temp_packet_length s mid p :
  session_wf s -> Z.of_nat (length (temp_packet s mid p)) = 22.
Proof.
  intros Hs. unfold temp_packet. rewrite length_app, Nat2Z.inj_add.
  destruct (temp_body_spec (aes_key s) (ss s) p (sw_key _ Hs) (sw_ss _ Hs)) as (_ & -> & _). reflexivity.
Qed.

Lemma temp_packet_valid s mid p :
  pqc_header_valid (Some (temp_packet s mid p)) 22 = Some true.
Proof. unfold temp_packet. rewrite header_valid_eq; [reflexivity|clia]. Qed.

(** Decryption at the counter the record carries. *)
Lemma temp_try_packet s sn mid p :
  session_wf s -> temp_wf p -> ss sn = ss s -> aes_key sn = aes_key s ->
  temp_try s (temp_packet sn mid p) (tp_counter p) = Some (Some p).
Proof.
  intros Hs Hp Hss Hk. unfold temp_try, temp_packet. rewrite Hss, Hk.
  destruct (temp_body_spec (aes_key s) (ss s) p (sw_key _ Hs) (sw_ss _ Hs)) as (_ & Hl & E).
  rewrite (proj2 (mem_read_spec _ _ _ (temp_body (aes_key s) (ss s) p))).
  2: { rewrite length_app. repeat split; [clia|clia|simpl length; clia|].
       rewrite drop_app_length' by reflexivity. rewrite take_ge by clia. reflexivity. }
  cbn [mbind option_bind].
  destruct (derive_aes_iv_eq (ss s) (tp_counter p) (zeros CW_AES_IV_LEN) (sw_ss _ Hs)) as [-> _];
    [rewrite length_zeros; clia|]. cbn [mbind option_bind].
  rewrite E. cbn [mbind option_bind]. rewrite temp_of_bytes_bytes by exact Hp. cbn [mbind option_bind].
  rewrite Z.eqb_refl. reflexivity.
Qed.

Lemma temp_try_total s data c :
  session_wf s -> PQC_HEADER_LEN + TEMP_PAYLOAD_LEN <= Z.of_nat (length data) ->
  exists r, temp_try s data c = Some r /\ forall p, r = Some p -> tp_counter p = c.
Proof.
  intros Hs Hl. unfold temp_try.
  destruct (mem_read_total data PQC_HEADER_LEN TEMP_PAYLOAD_LEN) as (b & -> & Hb & _); [clia|clia|clia|].
  cbn [mbind option_bind].
  destruct (derive_aes_iv_eq (ss s) c (zeros CW_AES_IV_LEN) (sw_ss _ Hs)) as [-> Hiv];
    [rewrite length_zeros; clia|]. cbn [mbind option_bind].
  destruct (xcrypt_twice (aes_key s) (aes_iv_of (ss s) c) b TEMP_PAYLOAD_LEN (sw_key _ Hs) Hiv)
    as (b' & -> & Hl' & _); [clia|]. cbn [mbind option_bind].
  destruct (temp_of_bytes_total b') as [p ->]; [clia|]. cbn [mbind option_bind].
  eexists. split; [reflexivity|]. intros p'. case_if; [|discriminate]. intros [= <-]. case_bools. assumption.
Qed.

Lemma temp_acceptable_total s data len :
  len <= Z.of_nat (length data) ->
  exists b, temp_acceptable s data len = Some b /\
    (b = true -> session_is_established s = true /\ PQC_HEADER_LEN + TEMP_PAYLOAD_LEN <= len).
Proof.
  intros Hl. unfold temp_acceptable. case_if; [eexists; split; [reflexivity|discriminate]|].
  destruct (header_valid_total data len Hl) as [v Hv]. rewrite Hv. cbn [mbind option_bind].
  case_if; [eexists; split; [reflexivity|discriminate]|]. case_bools. subst v.
  apply header_valid_true in Hv as (H10 & pl & Hpl & Hle).
  destruct (cell_total data PQC_HDR_MSG_TYPE) as (mt & -> & _); [clia|]. cbn [mbind option_bind].
  case_if; [eexists; split; [reflexivity|discriminate]|].
  destruct (cell_total data PQC_HDR_FRAG_IDX) as (fi & -> & _); [clia|]. cbn [mbind option_bind].
  case_if; [eexists; split; [reflexivity|discriminate]|].
  destruct (cell_total data PQC_HDR_TOTAL_FRAGS) as (tf & -> & _); [clia|]. cbn [mbind option_bind].
  case_if; [eexists; split; [reflexivity|discriminate]|].
  rewrite Hpl. cbn [mbind option_bind]. eexists. split; [reflexivity|]. intros ->%Z.eqb_eq.
  rewrite u16_id in Hle by clia. case_bools. split; [assumption|exact Hle].
Qed.

Lemma temp_acceptable_packet s sn mid p :
  session_is_established s = true -> temp_acceptable s (temp_packet sn mid p) 22 = Some true.
Proof.
  intros He. unfold temp_acceptable. rewrite He, temp_packet_valid. unfold temp_packet.
  cbn [negb mbind option_bind]. rewrite !cell_lookup by clia. reflexivity.
Qed.

(** ** Receiving *)

(** Changing statistics keeps a session well formed. *)
Lemma temp_stat_wf s f :
  session_wf s -> (forall m, snapshot_wf m -> snapshot_wf (m <| temp ::= f |>)) ->
  session_wf (s <| metrics ::= (fun m => m <| temp ::= f |>) |>).
Proof. intros Hs Hf. destruct Hs. session_wf_tac. Qed.

(** What a receipt may change: statistics, the receive counter, the time of the
    last activity. *)
Definition rx_frame (s s' : session_t) : Prop :=
  session_wf s' /\ s' = s <| metrics := metrics s' |> <| rx_counter := rx_counter s' |>
                         <| last_activity := last_activity s' |>.

Definition temp_received (s : session_t) (data : bytes) (len : Z) (r : option pqc_temp_payload_t)
    (s' : session_t) : Prop :=
  rx_frame s s' /\
  match r with
  | None => rx_counter s' = rx_counter s /\ (temp_acceptable s data len = Some true ->
      forall o, 0 <= o < PQC_TEMP_RX_COUNTER_WINDOW -> temp_try s data (u32 (rx_counter s + o)) = Some None)
  | Some p => temp_acceptable s data len = Some true /\ exists o, 0 <= o < PQC_TEMP_RX_COUNTER_WINDOW /\
      temp_try s data (tp_counter p) = Some (Some p) /\ tp_counter p = u32 (rx_counter s + o) /\
      rx_counter s' = u32 (tp_counter p + 1) /\
      forall o', 0 <= o' < o -> temp_try s data (u32 (rx_counter s + o')) = Some None
  end.

(** Trials look at the secrets only. *)
Lemma temp_try_ext s s' data c :
  ss s' = ss s -> aes_key s' = aes_key s -> temp_try s' data c = temp_try s data c.
Proof. intros E1 E2. unfold temp_try. rewrite E1, E2. reflexivity. Qed.

Ltac rx_frame_tac :=
  split; [session_wf_tac; stat_words | session_eq].

Lemma wp_handle_temp Q data len e s :
  session_wf s -> len <= Z.of_nat (length data) ->
  (forall r e' s', temp_received s data len r s' -> Q r e' s') ->
  wp (pqc_handle_encrypted_temp data len) Q e s.
Proof.
  intros Hs Hl HQ. unfold pqc_handle_encrypted_temp. apply wp_bind, wp_get.
  destruct (temp_acceptable_total s data len Hl) as (ok & Hok & Hacc).
  apply wp_bind, wp_lift. exists ok. split; [exact Hok|]. destruct ok; cbn [negb].
  2: { unfold temp_stat. wp_steps. apply HQ. split; [|split; [reflexivity|congruence]].
       split; [apply temp_stat_wf; [exact Hs|stat_words]|session_eq]. }
  destruct (Hacc eq_refl) as [_ Hlen]. clear Hacc.
  unfold temp_stat at 1. apply wp_bind, wp_modify, wp_bind.
  set (s1 := s <| metrics ::= _ |>).
  assert (Hs1 : session_wf s1) by (apply temp_stat_wf; [exact Hs|stat_words]).
  apply (wp_for_each (fun done _ s' => s' = s1 /\
    forall o, o ∈ done -> temp_try s data (u32 (rx_counter s + o)) = Some None)).
  - split; [reflexivity|]. intros o Ho. inversion Ho.
  - intros done o rest Heq e' s' [-> Hd]. cbv zeta. apply wp_bind, wp_lift.
    destruct (temp_try_total s data (u32 (session_peek_rx_counter s + o)) Hs) as (r & Hr & Hc); [lia|].
    exists r. split; [exact Hr|]. destruct r as [p|].
    2: { apply wp_ret. split; [reflexivity|]. intros o' [Ho'| ->%list_elem_of_singleton]%elem_of_app; auto. }
    specialize (Hc p eq_refl).
    assert (Ho : 0 <= o < PQC_TEMP_RX_COUNTER_WINDOW).
    { apply elem_of_upto. rewrite Heq. apply elem_of_app. right. left. }
    assert (Hbefore : forall o', 0 <= o' < o -> temp_try s data (u32 (rx_counter s + o')) = Some None).
    { intros o' Ho'. apply Hd. exact (upto_before _ _ _ _ _ Heq Ho'). }
    unfold session_touch, temp_stat. rewrite <- Hc in Hr |- *.
    wp_steps; (apply HQ; unfold s1; split;
      [destruct Hs; rx_frame_tac | rsimpl; split; [exact Hok|]; exists o; auto 6]).
  - intros e' s' [-> Hd]. unfold temp_stat. wp_steps. apply HQ. unfold s1. split.
    + destruct Hs. rx_frame_tac.
    + rsimpl. split; [reflexivity|]. intros _ o Ho. apply Hd, elem_of_upto, Ho.
Qed.

(** ** Sending *)

(** When the two senders give up at once. *)
Definition tx_blocked (ctx : pqc_udp_send_ctx_t) (s : session_t) (q : tx_state) : bool :=
  ctx_null ctx || negb (session_is_established s) || (tx_count q =? PQC_TX_QUEUE_SIZE).

Lemma free_slots_zero q : tx_wf q -> (pqc_tx_free_slots q =? 0) = (tx_count q =? PQC_TX_QUEUE_SIZE).
Proof.
  intros Hq. pose proof (pending_bound q Hq). unfold pqc_tx_free_slots. rewrite u8_id by clia.
  destruct (Z.eqb_spec (tx_count q) PQC_TX_QUEUE_SIZE), (Z.eqb_spec (PQC_TX_QUEUE_SIZE - tx_count q) 0);
    lia || reflexivity.
Qed.

(** A valid datagram of bounded length is accepted by a queue with room. *)
Lemma wp_send_accepted Q conn dest data len e q :
  tx_wf q -> tx_count q <> PQC_TX_QUEUE_SIZE -> 0 <= len <= Z.of_nat (length data) ->
  len <= PQC_TX_MAX_PACKET_LEN -> pqc_header_valid (Some data) len = Some true ->
  (forall q', tx_added q q' (tx_new_entry conn dest data len) -> Q true e q') ->
  wp (pqc_udp_send_fragment data len (mk_send_ctx (Some conn) (Some dest))) Q e q.
Proof.
  intros Hq Hc Hd Hl Hv HQ. pose proof (pending_bound q Hq). apply wp_send_fragment; [exact Hq|exact Hd|].
  intros [] q' Hs.
  - destruct Hs as [_ (conn' & dest' & [= <- <-] & Hadd)]. apply HQ, Hadd.
  - destruct Hs as [Hn _]. contradiction Hn. repeat split; cbn; eauto. lia.
Qed.

Lemma ctx_not_null ctx :
  ctx_null ctx = false -> exists conn dest, ctx = mk_send_ctx (Some conn) (Some dest).
Proof. destruct ctx as [[conn|] [dest|]]; try discriminate. eauto. Qed.

(** What a send may change of the session. *)
Definition tx_frame (s s' : session_t) : Prop :=
  session_wf s' /\ s' = s <| metrics := metrics s' |> <| next_msg_id := next_msg_id s' |>
                         <| tx_counter := tx_counter s' |>.

Definition temp_sent (ctx : pqc_udp_send_ctx_t) (p : pqc_temp_payload_t) (s : session_t) (q : tx_state)
    (r : bool) (s' : session_t) (q' : tx_state) : Prop :=
  tx_frame s s' /\ r = negb (tx_blocked ctx s q) /\
  if r then exists conn dest, ctx = mk_send_ctx (Some conn) (Some dest) /\
    tx_added q q' (tx_new_entry conn dest
      (temp_packet s (next_msg_id s) (p <| tp_counter := tx_counter s |>)) 22) /\
    tx_counter s' = inc32 (tx_counter s) /\ next_msg_id s' = u8 (next_msg_id s + 1)
  else q' = q /\ tx_counter s' = tx_counter s /\ next_msg_id s' = next_msg_id s.

(** Sending reads no clock and emits nothing. *)
Lemma wp_send_temp_env Q ctx p e s q :
  session_wf s -> tx_wf q ->
  (forall r s' q', temp_sent ctx p s q r s' q' -> Q r e (s', q')) ->
  wp (pqc_send_encrypted_temp ctx p) Q e (s, q).
Proof.
  intros Hs Hq HQ. unfold pqc_send_encrypted_temp, on_session, on_tx, temp_stat.
  apply wp_bind, wp_zoom, wp_get, wp_bind, wp_zoom, wp_get. cbn [fst snd].
  rewrite free_slots_zero by exact Hq. fold (tx_blocked ctx s q). destruct (tx_blocked ctx s q) eqn:Eb.
  { wp_steps. cbn [fst snd]. apply HQ. split; [|split; [rewrite Eb; reflexivity|auto]].
    split; [apply temp_stat_wf; [exact Hs|stat_words]|session_eq]. }
  unfold tx_blocked in Eb. case_bools.
  destruct (ctx_not_null ctx ltac:(assumption)) as (conn & dest & ->). cbv zeta.
  set (p' := p <| tp_counter := tx_counter s |>).
  destruct (temp_body_spec (aes_key s) (ss s) p' (sw_key _ Hs) (sw_ss _ Hs)) as (Eenc & Hbl & _).
  apply wp_bind, wp_lift. eexists. split; [apply (mem_write_total (zeros 22) 10 (temp_bytes p')); [lia|reflexivity]|].
  match goal with |- context [mem_read ?l _ _] => set (packet := l) end.
  assert (Hpk : length packet = 22%nat) by reflexivity.
  apply wp_bind, wp_lift. destruct (derive_aes_iv_eq (ss s) (tx_counter s) (zeros CW_AES_IV_LEN) (sw_ss _ Hs)) as [Eiv Hiv];
    [reflexivity|]. eexists. split; [exact Eiv|].
  apply wp_bind, wp_lift. exists (temp_bytes p'). split; [reflexivity|].
  apply wp_bind, wp_lift. exists (temp_body (aes_key s) (ss s) p'). split; [exact Eenc|].
  apply wp_bind, wp_lift. eexists. split; [apply (mem_write_total packet 10); [lia|rewrite Hbl, Hpk; reflexivity]|].
  apply wp_bind, wp_zoom. unfold session_next_msg_id. wp_steps. cbn [fst snd]. apply wp_lift.
  exists (temp_packet s (next_msg_id s) p'). split.
  { rewrite header_write_eq.
    - unfold temp_packet. f_equal. f_equal. rewrite drop_app_length' by reflexivity.
      rewrite drop_ge by (rewrite Hpk; clia). apply app_nil_r.
    - rewrite length_app, length_take, Hpk. change (Z.to_nat 10) with 10%nat. lia. }
  apply wp_bind, wp_zoom. cbn [fst snd]. pose proof (temp_packet_length s (next_msg_id s) p' Hs) as Hpl.
  apply wp_send_accepted; [exact Hq|assumption|rewrite Hpl; clia|clia|apply temp_packet_valid|].
  intros q' Hadd. wp_steps. cbn [fst snd]. apply wp_lift. eexists.
  split; [apply secure_zero_eq; destruct Hiv as [Hiv _]; clia|]. apply wp_bind, wp_lift. eexists.
  split; [apply secure_zero_eq; reflexivity|]. wp_steps. apply HQ. split; [|split].
  - split; [destruct Hs; session_wf_tac; stat_words|session_eq].
  - unfold tx_blocked. symmetry. apply negb_true_iff. rewrite !orb_false_iff. split_and!.
    + reflexivity.
    + apply negb_false_iff. assumption.
    + apply Z.eqb_neq. assumption.
  - exists conn, dest. split_and!; [reflexivity|exact Hadd|reflexivity|reflexivity].
Qed.

Lemma wp_send_temp Q ctx p e s q :
  session_wf s -> tx_wf q ->
  (forall r e' s' q', temp_sent ctx p s q r s' q' -> Q r e' (s', q')) ->
  wp (pqc_send_encrypted_temp ctx p) Q e (s, q).
Proof. intros Hs Hq HQ. apply wp_send_temp_env; auto. Qed.

(** ** Metrics reports *)

Definition metrics_packet (s : session_t) (msg_id : Z) (r : pqc_metrics_report_t) : bytes :=
  header_bytes PQC_MSG_METRICS (node_id s) msg_id 0 1 PQC_METRICS_REPORT_LEN PQC_FLAG_NONE ++ report_bytes r.

Definition report_sent (ctx : pqc_udp_send_ctx_t) (group : Z) (s : session_t) (q : tx_state)
    (r : bool) (s' : session_t) (q' : tx_state) : Prop :=
  tx_frame s s' /\ tx_counter s' = tx_counter s /\
  r = negb (tx_blocked ctx s q) && (1 <=? group) && (group <=? PQC_METRICS_GROUP_COUNT) /\
  if r then exists conn dest rep, ctx = mk_send_ctx (Some conn) (Some dest) /\ report_wf rep /\
    rp_group rep = group /\ rp_seq rep = inc32 (m_seq (metrics s)) /\
    report_values (metrics s) group = Some (value0 rep, value1 rep, value2 rep, value3 rep) /\
    next_msg_id s' = u8 (next_msg_id s + 1) /\
    tx_added q q' (tx_new_entry conn dest (metrics_packet s (next_msg_id s) rep) 36)
  else q' = q /\ next_msg_id s' = next_msg_id s.

Lemma metrics_packet_written s mid r :
  exists packet,
    pqc_header_write (zeros 36) PQC_MSG_METRICS (node_id s) mid 0 1 26 PQC_FLAG_NONE = Some packet /\
    mem_write packet 10 (report_bytes r) = Some (metrics_packet s mid r).
Proof.
  eexists. split; [apply header_write_eq; rewrite length_zeros; lia|].
  rewrite mem_write_total; [|lia|].
  - reflexivity.
  - rewrite report_bytes_length, length_app, length_drop, length_zeros. simpl length. lia.
Qed.

Lemma wp_send_metrics Q ctx group e s q :
  session_wf s -> tx_wf q -> 0 <= group ->
  (forall r e' s' q', report_sent ctx group s q r s' q' -> Q r e' (s', q')) ->
  wp (pqc_send_metrics_report ctx group) Q e (s, q).
Proof.
  intros Hs Hq Hg0 HQ. unfold pqc_send_metrics_report, on_session, on_tx, resource_stat, on_metrics.
  apply wp_bind, wp_zoom, wp_get, wp_bind, wp_zoom, wp_get. cbn [fst snd].
  rewrite free_slots_zero by exact Hq. fold (tx_blocked ctx s q). destruct (tx_blocked ctx s q) eqn:Eb.
  { wp_steps. cbn [fst snd]. apply HQ. unfold report_sent. rewrite Eb. split_and!; try reflexivity.
    split; [destruct Hs; session_wf_tac; stat_words|session_eq]. }
  pose proof Eb as Eb'. unfold tx_blocked in Eb. case_bools.
  destruct (ctx_not_null ctx ltac:(assumption)) as (conn & dest & ->).
  apply wp_bind, wp_zoom, wp_zoom. cbn [fst snd]. apply wp_build_report; [apply (sw_metrics _ Hs)|exact Hg0| |].
  { intros Hn. apply wp_ret, HQ. unfold report_sent. rewrite Eb'. cbn [negb andb].
    rewrite (proj2 (andb_false_iff _ _)) by (destruct (Z.leb_spec 1 group); [right; apply Z.leb_gt; lia|left; reflexivity]).
    split_and!; try reflexivity. split; [destruct Hs; session_wf_tac|session_eq]. }
  intros Hg e' r Hr Hrg Hrs Hrv. apply wp_bind, wp_lift. eexists.
  split; [apply encode_report_eq; [exact Hr|vm_compute; split; discriminate]|].
  change (26 =? 0) with false. cbv iota. apply wp_bind, wp_zoom. unfold session_next_msg_id.
  wp_steps. cbn [fst snd]. destruct (metrics_packet_written s (next_msg_id s) r) as (pk & E1 & E2).
  apply wp_lift. exists pk. split; [exact E1|]. apply wp_bind, wp_lift. exists (report_bytes r).
  split; [apply mem_read_all; reflexivity|]. apply wp_bind, wp_lift. exists (metrics_packet s (next_msg_id s) r).
  split; [exact E2|]. apply wp_bind, wp_zoom. cbn [fst snd]. change (u16 (PQC_HEADER_LEN + 26)) with 36.
  assert (Hl : Z.of_nat (length (metrics_packet s (next_msg_id s) r)) = 36) by reflexivity.
  apply wp_send_accepted; [exact Hq|assumption|rewrite Hl; lia|clia|unfold metrics_packet; rewrite header_valid_eq; [reflexivity|clia]|].
  intros q' Hadd. cbn [negb]. wp_steps. cbn [fst snd]. apply HQ. unfold report_sent. rewrite Eb'. split_and!; try reflexivity.
  - split; [|session_eq].
    assert (Hu : is_u32 (rp_uptime_ticks r))
      by (destruct Hr as (_ & _ & Hw); repeat apply list.Forall_cons in Hw as [? Hw]; assumption).
    destruct Hs. session_wf_tac; stat_words.
  - rewrite !(proj2 (Z.leb_le _ _)) by lia. reflexivity.
  - exists conn, dest, r. split_and!; auto.
Qed.

End TelemetryFacts.

Section Sequences.
Context `{PlatformLaws}.

Lemma temp_packet_entry conn dest s mid p :
  session_wf s -> entry_payload (tx_new_entry conn dest (temp_packet s mid p) 22) = temp_packet s mid p.
Proof.
  intros Hs. pose proof (temp_packet_length s mid p Hs) as Hl. unfold entry_payload, tx_new_entry. cbn [te_len te_data].
  rewrite take_app_length' by (rewrite length_take; lia). apply take_ge. lia.
Qed.

(** A list of received datagrams, each with its length. *)
Fixpoint handle_temps (datagrams : list bytes) : M session_t (list (option pqc_temp_payload_t)) :=
  match datagrams with
  | [] => mret []
  | data :: rest =>
      r ← pqc_handle_encrypted_temp data (Z.of_nat (length data));
      rs ← handle_temps rest;
      mret (r :: rs)
  end.

(** The counters of the accepted readings. *)
Definition accepted_counters (rs : list (option pqc_temp_payload_t)) : list Z := tp_counter <$> omap id rs.

(** A counter is 32 bits wide: [k] is it before it wraps around. *)
Lemma u32_plus k n : u32 (u32 k + n) = u32 (k + n).
Proof. unfold u32. apply Zplus_mod_idemp_l. Qed.

Lemma u32_nodup ks k : StronglySorted Z.lt ks -> Forall (fun c => k <= c < k + 2 ^ 32) ks -> NoDup (u32 <$> ks).
Proof.
  induction ks as [|c ks IH]; intros Hs Hf; [constructor|]. apply StronglySorted_inv in Hs as [Hs Hc]. apply list.Forall_cons in Hf as [Hc0 Hf].
  rewrite fmap_cons. constructor; [|exact (IH Hs Hf)]. intros Hin. apply list_elem_of_fmap in Hin as (c' & E & Hin).
  pose proof (proj1 (list.Forall_forall _ _) Hc c' Hin) as Hlt. pose proof (proj1 (list.Forall_forall _ _) Hf c' Hin) as Hr. cbv beta in Hlt, Hr.
  unfold u32 in E. Z.to_euclidean_division_equations; lia.
Qed.

Lemma wp_handle_temps ds : forall e s k, session_wf s -> rx_counter s = u32 k ->
  wp (handle_temps ds) (fun rs _ s' => rx_frame s s' /\ length rs = length ds /\ exists ks k',
    accepted_counters rs = u32 <$> ks /\ StronglySorted Z.lt ks /\ Forall (fun c => k <= c < k') ks /\
    rx_counter s' = u32 k' /\ k <= k' <= k + PQC_TEMP_RX_COUNTER_WINDOW * Z.of_nat (length ds)) e s.
Proof.
  induction ds as [|data ds IH]; intros e s k Hs Hk; cbn [handle_temps].
  { apply wp_ret. split_and!; [split; [exact Hs|session_eq]|reflexivity|]. exists [], k. split_and!; try constructor; [exact Hk|lia|cbn; lia]. }
  apply wp_bind, wp_handle_temp; [exact Hs|lia|]. intros r e1 s1 [[Hw1 Hf1] Hr]. cbn [length].
  assert (Hstep : exists k1, rx_counter s1 = u32 k1 /\ k <= k1 <= k + PQC_TEMP_RX_COUNTER_WINDOW /\
    forall p, r = Some p -> exists c, tp_counter p = u32 c /\ k <= c < k1).
  { destruct r as [p|]; [|destruct Hr as [-> _]; exists k; split_and!; [exact Hk|lia|clia|discriminate]].
    destruct Hr as (_ & o & Ho & _ & Hc & Hrx' & _). rewrite Hk, u32_plus in Hc. rewrite Hc, u32_plus in Hrx'. exists (k + o + 1).
    split_and!; [exact Hrx'|lia|lia|]. intros ? [= <-]. exists (k + o). split; [exact Hc|lia]. }
  destruct Hstep as (k1 & Hk1 & Hle & Hp). apply wp_bind. eapply wp_mono; [|exact (IH e1 s1 k1 Hw1 Hk1)].
  intros rs e2 s2 ([Hw2 Hf2] & Hlen & ks & k' & Eks & Hsort & Hall & Hk' & Hle'). apply wp_ret. split_and!.
  - split; [exact Hw2|]. rewrite Hf2, Hf1. session_eq.
  - cbn [length]. congruence.
  - assert (Hall' : Forall (fun c => k <= c < k') ks) by (eapply Forall_impl; [exact Hall|]; cbv beta; intros; lia).
    unfold accepted_counters in *. destruct r as [p|]; [|exists ks, k'; cbn; split_and!; (assumption || lia)].
    destruct (Hp p eq_refl) as (c & Ec & Hc). exists (c :: ks), k'. cbn. rewrite Ec, Eks. split_and!; try (reflexivity || assumption || lia).
    + constructor; [exact Hsort|]. eapply Forall_impl; [exact Hall|]. cbv beta. intros; lia.
    + constructor; [lia|exact Hall'].
Qed.

End Sequences.

(** ** Properties *)

#[local] Existing Instance example_platform | 100.
#[local] Existing Instance example_platform_laws | 100.

(** C13. A temperature reading arrives: what an established node queues, an
    established root with the same secrets whose receive counter is at most 15
    behind decrypts to the same reading with the node's counter, and both counters
    then agree, provided no earlier trial counter of the window happens to decrypt
    the datagram to itself.  In particular the datagrams lost in between do not
    matter. *)
Theorem temp_delivered `{PlatformLaws} e s q ctx p e2 s2 d (p' := p <| tp_counter := tx_counter s |>) :
  session_wf s -> tx_wf q -> temp_wf p -> tx_blocked ctx s q = false ->
  session_wf s2 -> session_is_established s2 = true -> (ss s2, aes_key s2) = (ss s, aes_key s) ->
  0 <= d < PQC_TEMP_RX_COUNTER_WINDOW -> tx_counter s = u32 (rx_counter s2 + d) ->
  (forall o, 0 <= o < d ->
     temp_try s2 (temp_packet s (next_msg_id s) p') (u32 (rx_counter s2 + o)) = Some None) ->
  exists s' q' x s2', run (pqc_send_encrypted_temp ctx p) e (s, q) = Some (true, (s', q')) /\
    pending q' ≡ₚ x :: pending q /\
    run (pqc_handle_encrypted_temp (entry_payload x) (te_len x)) e2 s2 = Some (Some p', s2') /\
    rx_counter s2' = tx_counter s'.
Proof.
  intros Hs Hq Hp Hb Hs2 He2 [= Hss Hk] Hd Hc Hno.
  assert (Hwp : wp (pqc_send_encrypted_temp ctx p) (fun r _ w => temp_sent ctx p s q r w.1 w.2) e (s, q))
    by (apply wp_send_temp; auto).
  apply wp_run in Hwp as (r & e' & [s' q'] & Hrun & (_ & Hr & HQ)). cbn [fst snd] in *.
  rewrite Hb in Hr. cbn in Hr. subst r. destruct HQ as (conn & dest & -> & (_ & _ & Hperm & _) & Htx & _).
  assert (Hp' : temp_wf p') by (split; [apply (sw_tx _ Hs)|apply Hp]).
  pose proof (temp_packet_length s (next_msg_id s) p' Hs) as Hpl.
  assert (Hwp : wp (pqc_handle_encrypted_temp (temp_packet s (next_msg_id s) p') 22)
    (fun r _ s2' => r = Some p' /\ rx_counter s2' = tx_counter s') e2 s2).
  { apply wp_handle_temp; [exact Hs2|lia|]. intros r e'' s2' [_ Hr].
    pose proof (temp_acceptable_packet s2 s (next_msg_id s) p' He2) as Hacc.
    pose proof (temp_try_packet s2 s (next_msg_id s) p' Hs2 Hp' (eq_sym Hss) (eq_sym Hk)) as Htry.
    change (tp_counter p') with (tx_counter s) in Htry. destruct r as [p''|].
    - destruct Hr as (_ & o & Ho & Ht & Ho' & Hrx & Hbef).
      destruct (Z.lt_trichotomy o d) as [Hlt|[->|Hgt]].
      + specialize (Hno o ltac:(lia)). congruence.
      + rewrite Ho', <- Hc, Htry in Ht. injection Ht as <-. split; [reflexivity|].
        rewrite Hrx, Htx. reflexivity.
      + specialize (Hbef d ltac:(lia)). congruence.
    - destruct Hr as [_ Hr]. specialize (Hr Hacc d Hd). congruence. }
  apply wp_run in Hwp as (r & e'' & s2' & Hrun2 & -> & Hrx).
  exists s', q', (tx_new_entry conn dest (temp_packet s (next_msg_id s) p') 22), s2'.
  rewrite temp_packet_entry by exact Hs. unfold run. rewrite Hrun.
  change (te_len _) with 22. rewrite Hrun2. auto.
Qed.

(** An established session at counter 1, one at counter 0; a cold reading. *)
Definition example_session (tx : Z) : session_t :=
  session_zero <| used := 1 |> <| state := SESSION_STATE_ESTABLISHED |> <| established := 1 |>
    <| tx_counter := tx |>.
Definition example_reading : pqc_temp_payload_t := mk_temp_payload 0 55321 (-1250).
Definition example_ctx : pqc_udp_send_ctx_t := mk_send_ctx (Some 0%nat) (Some 9).

Lemma example_session_wf tx : is_u32 tx -> session_wf (example_session tx).
Proof. intros Ht. destruct session_zero_wf. session_wf_tac. Qed.

Example temp_delivered_witness :
  exists s' q' x s2',
    run (pqc_send_encrypted_temp example_ctx example_reading) example_env (example_session 1, example_queue) =
      Some (true, (s', q')) /\
    pending q' ≡ₚ x :: pending example_queue /\
    run (pqc_handle_encrypted_temp (entry_payload x) (te_len x)) example_env (example_session 0) =
      Some (Some (example_reading <| tp_counter := 1 |>), s2') /\
    rx_counter s2' = tx_counter s'.
Proof.
  apply (temp_delivered example_env (example_session 1) example_queue example_ctx example_reading
           example_env (example_session 0) 1).
  - apply example_session_wf. decided.
  - apply example_queue_wf.
  - decided.
  - vm_compute. reflexivity.
  - apply example_session_wf. decided.
  - reflexivity.
  - reflexivity.
  - split; [discriminate|reflexivity].
  - reflexivity.
  - intros o Ho. assert (o = 0) as -> by lia. vm_compute. reflexivity.
Defined.

(** C40. Counters of received readings only go up: for a well-formed session and over any
    sequence of datagrams, of any content and length, [pqc_handle_encrypted_temp] never reads outside a datagram and
    changes nothing of the session but statistics, receive counter and activity time.
    The counters of the accepted readings are the 32-bit values of a strictly
    increasing sequence that starts at the receive counter before and stays below the one after,
    which each datagram moves by at most 16.  So no counter is accepted twice as long as
    the receive counter has not gone all the way round, which takes more than [2^28]
    datagrams. *)
Theorem temp_counters_increase `{PlatformLaws} ds e s :
  session_wf s ->
  exists rs s' ks k', run (handle_temps ds) e s = Some (rs, s') /\ rx_frame s s' /\ length rs = length ds /\
    accepted_counters rs = u32 <$> ks /\ StronglySorted Z.lt ks /\ Forall (fun c => rx_counter s <= c < k') ks /\
    rx_counter s' = u32 k' /\ k' <= rx_counter s + PQC_TEMP_RX_COUNTER_WINDOW * Z.of_nat (length ds) /\
    (k' <= rx_counter s + 2 ^ 32 -> NoDup (accepted_counters rs)).
Proof.
  intros Hs. pose proof (wp_handle_temps ds e s (rx_counter s) Hs (eq_sym (u32_id _ (sw_rx _ Hs)))) as Hwp.
  apply wp_run in Hwp as (rs & e' & s' & Hrun & Hf & Hl & ks & k' & Eks & Hsort & Hall & Hk' & Hle).
  exists rs, s', ks, k'. unfold run. rewrite Hrun. split_and!; try (reflexivity || assumption || lia). intros Hround. rewrite Eks.
  apply (u32_nodup ks (rx_counter s) Hsort). eapply Forall_impl; [exact Hall|]. cbv beta. intros; lia.
Qed.

Example temp_counters_increase_witness :
  exists rs s' ks k', run (handle_temps [temp_packet (example_session 1) 0 example_reading; [1; 2; 3]])
      example_env (example_session 0) = Some (rs, s') /\
    rx_frame (example_session 0) s' /\ length rs = 2%nat /\
    accepted_counters rs = u32 <$> ks /\ StronglySorted Z.lt ks /\ Forall (fun c => rx_counter (example_session 0) <= c < k') ks /\
    rx_counter s' = u32 k' /\ k' <= rx_counter (example_session 0) + PQC_TEMP_RX_COUNTER_WINDOW * 2 /\
    (k' <= rx_counter (example_session 0) + 2 ^ 32 -> NoDup (accepted_counters rs)).
Proof.
  apply (temp_counters_increase [temp_packet (example_session 1) 0 example_reading; [1; 2; 3]]
           example_env (example_session 0)). apply example_session_wf. decided.
Defined.

(** Sending a reading is all or nothing: it succeeds exactly when the session
    is established, the destination is known and the queue has room, and then one
    well-formed datagram of priority NORMAL for this node joins the queue and the
    transmit counter and message number advance by one; otherwise queue, counter
    and message number stay. *)
Theorem temp_send_all_or_nothing `{PlatformLaws} e s q ctx p :
  session_wf s -> tx_wf q -> temp_wf p ->
  exists r s' q', run (pqc_send_encrypted_temp ctx p) e (s, q) = Some (r, (s', q')) /\
    tx_frame s s' /\ tx_wf q' /\ r = negb (tx_blocked ctx s q) /\
    if r then exists x, pending q' ≡ₚ x :: pending q /\ entry_wf x /\
        (te_node_id x, te_priority x, te_len x) = (node_id s, PQC_TX_PRIORITY_NORMAL, 22) /\
        temp_try s (entry_payload x) (tx_counter s) = Some (Some (p <| tp_counter := tx_counter s |>)) /\
        (tx_counter s', next_msg_id s') = (inc32 (tx_counter s), u8 (next_msg_id s + 1))
    else q' = q /\ (tx_counter s', next_msg_id s') = (tx_counter s, next_msg_id s).
Proof.
  intros Hs Hq Hp.
  assert (Hwp : wp (pqc_send_encrypted_temp ctx p) (fun r _ w => temp_sent ctx p s q r w.1 w.2) e (s, q))
    by (apply wp_send_temp; auto).
  apply wp_run in Hwp as (r & e' & [s' q'] & Hrun & (Hf & Hr & HQ)). cbn [fst snd] in *.
  exists r, s', q'. unfold run. rewrite Hrun. split; [reflexivity|]. split; [exact Hf|]. destruct r.
  - destruct HQ as (conn & dest & -> & (Hw & Hew & Hperm & _) & -> & ->). split; [exact Hw|].
    split; [exact Hr|]. eexists. split; [exact Hperm|]. split; [exact Hew|].
    split_and!; [|rewrite temp_packet_entry by exact Hs|reflexivity].
    + unfold tx_new_entry. cbn [te_node_id te_priority te_len]. unfold temp_packet.
      rewrite header_node_id_eq by apply (sw_node_id _ Hs). reflexivity.
    + apply temp_try_packet; try reflexivity; [exact Hs|]. split; [apply (sw_tx _ Hs)|apply Hp].
  - destruct HQ as (-> & -> & ->). auto.
Qed.

Example temp_send_all_or_nothing_witness :
  exists r s' q', run (pqc_send_encrypted_temp example_ctx example_reading) example_env
      (example_session 1, example_queue) = Some (r, (s', q')) /\
    tx_frame (example_session 1) s' /\ tx_wf q' /\
    r = negb (tx_blocked example_ctx (example_session 1) example_queue) /\
    if r then exists x, pending q' ≡ₚ x :: pending example_queue /\ entry_wf x /\
        (te_node_id x, te_priority x, te_len x) = (node_id (example_session 1), PQC_TX_PRIORITY_NORMAL, 22) /\
        temp_try (example_session 1) (entry_payload x) (tx_counter (example_session 1)) =
          Some (Some (example_reading <| tp_counter := tx_counter (example_session 1) |>)) /\
        (tx_counter s', next_msg_id s') =
          (inc32 (tx_counter (example_session 1)), u8 (next_msg_id (example_session 1) + 1))
    else q' = example_queue /\
         (tx_counter s', next_msg_id s') =
           (tx_counter (example_session 1), next_msg_id (example_session 1)).
Proof.
  apply (temp_send_all_or_nothing example_env (example_session 1) example_queue example_ctx example_reading).
  - apply example_session_wf. decided.
  - apply example_queue_wf.
  - decided.
Defined.

(** A metrics report leaves as one datagram that decodes to the session's
    values: [pqc_send_metrics_report] succeeds exactly when the session is
    established, the destination known, the queue not full and the group one of
    the seven; the datagram queued then has the node's identifier, the next
    message number and low priority, and the report decoder returns from its payload the four
    values of that group with the advanced sequence number.  Otherwise nothing is
    queued. *)
Theorem metrics_report_sent `{PlatformLaws} e s q ctx group :
  session_wf s -> tx_wf q -> 0 <= group ->
  exists r s' q', run (pqc_send_metrics_report ctx group) e (s, q) = Some (r, (s', q')) /\
    tx_frame s s' /\ tx_wf q' /\ tx_counter s' = tx_counter s /\
    r = negb (tx_blocked ctx s q) && (1 <=? group) && (group <=? PQC_METRICS_GROUP_COUNT) /\
    if r then exists x rep, pending q' ≡ₚ x :: pending q /\ entry_wf x /\
        (te_node_id x, te_priority x) = (node_id s, PQC_TX_PRIORITY_LOW) /\
        cell (te_data x) PQC_HDR_MSG_ID = Some (next_msg_id s) /\
        pqc_metrics_decode_report (Some (drop 10 (entry_payload x))) (te_len x - 10) = Some (Some rep) /\
        report_values (metrics s) group = Some (value0 rep, value1 rep, value2 rep, value3 rep) /\
        rp_seq rep = inc32 (m_seq (metrics s))
    else q' = q.
Proof.
  intros Hs Hq Hg.
  assert (Hwp : wp (pqc_send_metrics_report ctx group) (fun r _ w => report_sent ctx group s q r w.1 w.2) e (s, q))
    by (apply wp_send_metrics; auto).
  apply wp_run in Hwp as (r & e' & [s' q'] & Hrun & (Hf & Htx & Hr & HQ)). cbn [fst snd] in *.
  exists r, s', q'. unfold run. rewrite Hrun. split; [reflexivity|]. split; [exact Hf|]. destruct r.
  - destruct HQ as (conn & dest & rep & -> & Hrep & Hrg & Hseq & Hv & _ & (Hw & Hew & Hperm & _)).
    split; [exact Hw|]. split; [exact Htx|]. split; [exact Hr|]. eexists. exists rep. split; [exact Hperm|].
    split; [exact Hew|]. split_and!; [|reflexivity| |exact Hv|exact Hseq].
    + unfold tx_new_entry. cbn [te_node_id te_priority]. unfold metrics_packet.
      rewrite header_node_id_eq by apply (sw_node_id _ Hs). reflexivity.
    + unfold tx_new_entry, entry_payload. cbn [te_len te_data].
      assert (Hdrop : drop 10 (take (Z.to_nat 36) (take (Z.to_nat 36) (metrics_packet s (next_msg_id s) rep) ++
                 zeros (PQC_TX_MAX_PACKET_LEN - 36))) = report_bytes rep ++ []) by reflexivity.
      rewrite Hdrop. apply decode_report_eq, Hrep.
  - destruct HQ as [-> _]. auto.
Qed.

Example metrics_report_sent_witness :
  exists r s' q', run (pqc_send_metrics_report example_ctx 7) example_env (example_session 1, example_queue) =
      Some (r, (s', q')) /\
    tx_frame (example_session 1) s' /\ tx_wf q' /\ tx_counter s' = tx_counter (example_session 1) /\
    r = negb (tx_blocked example_ctx (example_session 1) example_queue) && (1 <=? 7) &&
          (7 <=? PQC_METRICS_GROUP_COUNT) /\
    if r then exists x rep, pending q' ≡ₚ x :: pending example_queue /\ entry_wf x /\
        (te_node_id x, te_priority x) = (node_id (example_session 1), PQC_TX_PRIORITY_LOW) /\
        cell (te_data x) PQC_HDR_MSG_ID = Some (next_msg_id (example_session 1)) /\
        pqc_metrics_decode_report (Some (drop 10 (entry_payload x))) (te_len x - 10) = Some (Some rep) /\
        report_values (metrics (example_session 1)) 7 =
          Some (value0 rep, value1 rep, value2 rep, value3 rep) /\
        rp_seq rep = inc32 (m_seq (metrics (example_session 1)))
    else q' = example_queue.
Proof.
  apply (metrics_report_sent example_env (example_session 1) example_queue example_ctx 7).
  - apply example_session_wf. decided.
  - apply example_queue_wf.
  - discriminate.
Defined.
