(* ===== verification/TelemetryRun.v ===== *)
(** * A node's readings over time

    Sequences of sends and of turns of the transmitter: which sends succeed, what is
    queued and emitted, and which counters the encrypted readings use. *)

From Stdlib Require Import Sorted.
From S2P Require Import Prelude Platform Protocol Fragmentation Metrics CryptoWorker Session TxQueue Telemetry.

Section Run.
Context `{PlatformLaws}.

(** A reading to send, or a turn of the transmitter. *)
Inductive telemetry_op := TempSend (ctx : pqc_udp_send_ctx_t) (p : pqc_temp_payload_t) | TxTurn.

Definition telemetry_exec (op : telemetry_op) : M (session_t * tx_state) bool :=
  match op with TempSend ctx p => pqc_send_encrypted_temp ctx p | TxTurn => on_tx pqc_tx_process end.

Fixpoint telemetry_exec_all (ops : list telemetry_op) : M (session_t * tx_state) (list bool) :=
  match ops with
  | [] => mret []
  | op :: ops => r ← telemetry_exec op; rs ← telemetry_exec_all ops; mret (r :: rs)
  end.

Definition telemetry_op_ok (op : telemetry_op) : Prop := match op with TempSend _ p => temp_wf p | TxTurn => True end.

(** What the calls answer, from whether the session is established and how many datagrams
    wait: a send succeeds if it is, the destination is known and there is room. *)
Fixpoint telemetry_answers (est : bool) (n : Z) (ops : list telemetry_op) : list bool :=
  match ops with
  | [] => []
  | TempSend ctx _ :: ops =>
      let r := est && negb (ctx_null ctx) && negb (n =? PQC_TX_QUEUE_SIZE) in
      r :: telemetry_answers est (if r then n + 1 else n) ops
  | TxTurn :: ops => negb (n =? 0) :: telemetry_answers est (Z.max 0 (n - 1)) ops
  end.

(** The readings whose send succeeded, and the same with their counters. *)
Fixpoint sent_readings (ops : list telemetry_op) (rs : list bool) : list pqc_temp_payload_t :=
  match ops, rs with
  | TempSend _ p :: ops, true :: rs => p :: sent_readings ops rs
  | _ :: ops, _ :: rs => sent_readings ops rs
  | _, _ => []
  end.

Fixpoint numbered (k : Z) (ps : list pqc_temp_payload_t) : list pqc_temp_payload_t :=
  match ps with [] => [] | p :: ps => p <| tp_counter := u32 k |> :: numbered (k + 1) ps end.

(** The entry holds the reading, encrypted under the counter that it carries. *)
Definition encrypts (s : session_t) (x : pqc_tx_entry_t) (p : pqc_temp_payload_t) : Prop :=
  entry_wf x /\ te_node_id x = node_id s /\ te_priority x = PQC_TX_PRIORITY_NORMAL /\ temp_try s (entry_payload x) (tp_counter p) = Some (Some p).

(** ** Counters *)

Lemma numbered_counters k ps : tp_counter <$> numbered k ps = u32 <$> seqZ k (Z.of_nat (length ps)).
Proof.
  revert k. induction ps as [|p ps IH]; intros k; [reflexivity|]. cbn [numbered length]. rewrite seqZ_cons by lia. rewrite !fmap_cons, IH.
  replace (Z.pred (Z.of_nat (S (length ps)))) with (Z.of_nat (length ps)) by lia. reflexivity.
Qed.

Lemma seqZ_sorted k n : StronglySorted Z.lt (seqZ k (Z.of_nat n)).
Proof.
  revert k. induction n as [|n IH]; intros k; [constructor|]. rewrite seqZ_cons by lia. replace (Z.pred (Z.of_nat (S n))) with (Z.of_nat n) by lia.
  constructor; [apply IH|]. apply list.Forall_forall. intros x Hx. apply elem_of_seqZ in Hx. lia.
Qed.

Lemma numbered_nodup k ps : Z.of_nat (length ps) <= 2 ^ 32 -> NoDup (tp_counter <$> numbered k ps).
Proof.
  intros Hl. rewrite numbered_counters. apply (u32_nodup _ k); [apply seqZ_sorted|]. apply list.Forall_forall. intros x Hx. apply elem_of_seqZ in Hx. lia.
Qed.

(** ** One call *)

(** What is left of the session by the calls. *)
Definition same_session (s s' : session_t) : Prop :=
  session_wf s' /\ (ss s', aes_key s', node_id s', session_is_established s') = (ss s, aes_key s, node_id s, session_is_established s).

Lemma encrypts_same s s' x p : same_session s s' -> encrypts s' x p -> encrypts s x p.
Proof.
  intros [_ [= Hss Hk Hid _]] (Hw & Hn & Hp & Ht). split_and!; [exact Hw|congruence|exact Hp|].
  unfold temp_try in *. rewrite Hss, Hk in Ht. exact Ht.
Qed.

Lemma frame_same s s' : tx_frame s s' -> same_session s s'.
Proof. intros [Hw E]. split; [exact Hw|]. rewrite E. reflexivity. Qed.

(** A call's answer, the entry it queues if it is a send that succeeds, and the entries
    it emits. *)
Lemma wp_telemetry op e s q k : session_wf s -> tx_wf q -> telemetry_op_ok op -> tx_counter s = u32 k ->
  wp (telemetry_exec op) (fun r e' w => let '(s', q') := w in let ps := sent_readings [op] [r] in
    same_session s s' /\ tx_wf q' /\
    (forall ops, telemetry_answers (session_is_established s) (tx_count q) (op :: ops) = r :: telemetry_answers (session_is_established s) (tx_count q') ops) /\
    tx_counter s' = u32 (k + Z.of_nat (length ps)) /\ next_msg_id s' = u8 (next_msg_id s + Z.of_nat (length ps)) /\
    exists xs out, Forall2 (encrypts s) xs (numbered k ps) /\ e_out e' = e_out e ++ (entry_output <$> out) /\ out ++ pending q' ≡ₚ xs ++ pending q) e (s, q).
Proof.
  intros Hs Hq Hop Hk. destruct op as [ctx p|]; cbn [telemetry_exec telemetry_answers sent_readings].
  - apply wp_send_temp_env; [exact Hs|exact Hq|]. intros r s' q' (Hf & Hr & HQ).
    assert (Er : session_is_established s && negb (ctx_null ctx) && negb (tx_count q =? PQC_TX_QUEUE_SIZE) = r).
    { rewrite Hr. unfold tx_blocked. rewrite !negb_orb, negb_involutive. rewrite (andb_comm (session_is_established s)). reflexivity. }
    rewrite Er. pose proof (frame_same s s' Hf) as Hsame. destruct r; cbn [length numbered].
    + destruct HQ as (conn & dest & -> & (Hw & Hew & Hperm & _) & Htx & Hmid).
      assert (Hc : tx_count q' = tx_count q + 1) by (rewrite (qw_count _ Hq), (qw_count _ Hw), Hperm; cbn [length]; lia).
      split_and!; [exact Hsame|exact Hw|intros ops; rewrite Hc; reflexivity|rewrite Htx; unfold inc32; rewrite Hk; apply u32_plus|exact Hmid|].
      set (x := tx_new_entry _ _ _ _) in *. exists [x], []. split_and!; [|exact (eq_sym (app_nil_r (e_out _)))|exact Hperm]. constructor; [|constructor].
      rewrite <- Hk. split_and!; [exact Hew| |reflexivity|].
      * unfold x, tx_new_entry. cbn [te_node_id]. unfold temp_packet. rewrite header_node_id_eq by apply (sw_node_id _ Hs). reflexivity.
      * unfold x. rewrite temp_packet_entry by exact Hs. apply temp_try_packet; try reflexivity; [exact Hs|]. split; [apply (sw_tx _ Hs)|apply Hop].
    + destruct HQ as (-> & Htx & Hmid). rewrite Z.add_0_r, Htx, Hmid, Z.add_0_r, u8_id by apply Hs.
      split_and!; [exact Hsame|exact Hq|reflexivity|exact Hk|reflexivity|]. exists [], []. split_and!; [constructor|exact (eq_sym (app_nil_r (e_out _)))|reflexivity].
  - apply wp_zoom. cbn [fst snd]. apply wp_tx_process; [exact Hq|]. intros r e' q' Hr. cbn [length numbered]. rewrite Z.add_0_r, <- Hk, Z.add_0_r, u8_id by apply Hs.
    pose proof (pending_bound q Hq) as Hb. destruct r.
    + destruct Hr as (i & x & _ & [Hw Hperm] & Hout & _).
      assert (Hc : tx_count q = tx_count q' + 1) by (rewrite (qw_count _ Hq), (qw_count _ Hw), Hperm; cbn [length]; lia). pose proof (pending_bound q' Hw).
      rewrite (proj2 (Z.eqb_neq (tx_count q) 0)) by lia. split_and!; [split; [exact Hs|reflexivity]|exact Hw|intros ops; do 2 f_equal; lia|reflexivity|reflexivity|].
      exists [], [x]. split_and!; [constructor|exact Hout|symmetry; exact Hperm].
    + destruct Hr as (Hp & -> & Hout). rewrite (qw_count _ Hq), Hp. cbn [length Z.of_nat].
      split_and!; [split; [exact Hs|reflexivity]|exact Hq|reflexivity|reflexivity|reflexivity|]. exists [], []. split_and!; [constructor|rewrite Hout; exact (eq_sym (app_nil_r (e_out e)))|reflexivity].
Qed.

(** ** Sequences *)

Lemma sent_readings_cons op ops r rs : sent_readings (op :: ops) (r :: rs) = sent_readings [op] [r] ++ sent_readings ops rs.
Proof. destruct op, r; reflexivity. Qed.

Lemma numbered_app k ps ps' : numbered k (ps ++ ps') = numbered k ps ++ numbered (k + Z.of_nat (length ps)) ps'.
Proof.
  revert k. induction ps as [|p ps IH]; intros k; [cbn; rewrite Z.add_0_r; reflexivity|]. cbn [numbered app length]. rewrite IH. do 3 f_equal. lia.
Qed.

Lemma wp_telemetry_all ops : forall e s q k, session_wf s -> tx_wf q -> Forall telemetry_op_ok ops -> tx_counter s = u32 k ->
  wp (telemetry_exec_all ops) (fun rs e' w => let '(s', q') := w in let ps := sent_readings ops rs in
    same_session s s' /\ tx_wf q' /\ rs = telemetry_answers (session_is_established s) (tx_count q) ops /\
    tx_counter s' = u32 (k + Z.of_nat (length ps)) /\ next_msg_id s' = u8 (next_msg_id s + Z.of_nat (length ps)) /\
    exists xs out, Forall2 (encrypts s) xs (numbered k ps) /\ e_out e' = e_out e ++ (entry_output <$> out) /\ out ++ pending q' ≡ₚ xs ++ pending q) e (s, q).
Proof.
  induction ops as [|op ops IH]; intros e s q k Hs Hq Hok Hk; cbn [telemetry_exec_all].
  { apply wp_ret. cbn [sent_readings length]. rewrite !Z.add_0_r, u8_id by apply Hs. split_and!; [split; [exact Hs|reflexivity]|exact Hq|reflexivity|exact Hk|reflexivity|].
    exists [], []. split_and!; [constructor|exact (eq_sym (app_nil_r (e_out _)))|reflexivity]. }
  apply list.Forall_cons in Hok as [Hop Hok]. apply wp_bind. eapply wp_mono; [|exact (wp_telemetry op e s q k Hs Hq Hop Hk)].
  intros r e1 [s1 q1] (Hs1 & Hq1 & Hans & Hk1 & Hm1 & xs & out & Hxs & Hout & Hp). cbv beta.
  apply wp_bind. eapply wp_mono; [|exact (IH e1 s1 q1 _ (proj1 Hs1) Hq1 Hok Hk1)].
  intros rs e2 [s2 q2] (Hs2 & Hq2 & Hans2 & Hk2 & Hm2 & xs2 & out2 & Hxs2 & Hout2 & Hp2). apply wp_ret.
  rewrite sent_readings_cons, length_app, Nat2Z.inj_add, !Z.add_assoc. pose proof Hs1 as [_ [= Hss Hkey Hid Hest]]. pose proof Hs2 as [_ [= Hss2 Hkey2 Hid2 Hest2]]. split_and!.
  - split; [apply Hs2|congruence].
  - exact Hq2.
  - rewrite Hans, Hans2, Hest. reflexivity.
  - exact Hk2.
  - rewrite Hm2, Hm1. unfold u8. apply Zplus_mod_idemp_l.
  - exists (xs ++ xs2), (out ++ out2). split_and!.
    + rewrite numbered_app. apply Forall2_app; [exact Hxs|]. eapply Forall2_impl; [exact Hxs2|]. intros x p. apply encrypts_same, Hs1.
    + rewrite Hout2, Hout, fmap_app, app_assoc. reflexivity.
    + rewrite <- app_assoc, Hp2. rewrite (app_assoc out), (Permutation_app_comm out xs2), <- app_assoc, Hp. rewrite !app_assoc. apply Permutation_app_tail, Permutation_app_comm.
Qed.

End Run.

(** ** Properties *)

#[local] Existing Instance example_platform | 100.
#[local] Existing Instance example_platform_laws | 100.

(** C39. A node's readings over any sequence of sends, with any destinations and any values
    that fit their types, and of turns of the transmitter, from a well-formed session and
    queue: a send succeeds exactly when the session is
    established, the destination is known and the queue of 96 has room.  Each
    successful send queues one datagram of normal priority for this node that
    decrypts to the reading with the next counter, a failed one queues nothing, and what
    has been emitted and what still waits is what waited before and what was queued.
    The counters used are the 32-bit values from the transmit counter on, one for each
    success, so no counter is used for two datagrams in up to [2^32] of them; after
    that they start again. *)
Theorem temp_send_sequence `{PlatformLaws} ops e s q :
  session_wf s -> tx_wf q -> Forall telemetry_op_ok ops ->
  exists rs e' s' q' xs out, telemetry_exec_all ops e (s, q) = Some (rs, e', (s', q')) /\
    rs = telemetry_answers (session_is_established s) (tx_count q) ops /\
    Forall2 (encrypts s) xs (numbered (tx_counter s) (sent_readings ops rs)) /\
    e_out e' = e_out e ++ (entry_output <$> out) /\ out ++ pending q' ≡ₚ xs ++ pending q /\
    tx_counter s' = u32 (tx_counter s + Z.of_nat (length xs)) /\ next_msg_id s' = u8 (next_msg_id s + Z.of_nat (length xs)) /\
    tp_counter <$> numbered (tx_counter s) (sent_readings ops rs) = u32 <$> seqZ (tx_counter s) (Z.of_nat (length xs)) /\
    (Z.of_nat (length xs) <= 2 ^ 32 -> NoDup (tp_counter <$> numbered (tx_counter s) (sent_readings ops rs))).
Proof.
  intros Hs Hq Hok. pose proof (wp_telemetry_all ops e s q (tx_counter s) Hs Hq Hok (eq_sym (u32_id _ (sw_tx _ Hs)))) as Hwp.
  apply wp_run in Hwp as (rs & e' & [s' q'] & Hrun & _ & _ & Hrs & Hk & Hm & xs & out & Hxs & Hout & Hp).
  assert (Hl : length xs = length (sent_readings ops rs)).
  { apply Forall2_length in Hxs. rewrite Hxs. rewrite <- (length_fmap tp_counter), numbered_counters, length_fmap, length_seqZ. lia. }
  exists rs, e', s', q', xs, out. rewrite Hl. split_and!; try assumption; [apply numbered_counters|apply numbered_nodup].
Qed.

Definition example_ops : list telemetry_op :=
  [TempSend example_ctx example_reading; TempSend (mk_send_ctx None None) example_reading; TxTurn; TempSend example_ctx example_reading].

Example temp_send_sequence_witness :
  exists rs e' s' q' xs out, telemetry_exec_all example_ops example_env (example_session 0xffffffff, example_queue) = Some (rs, e', (s', q')) /\
    rs = telemetry_answers (session_is_established (example_session 0xffffffff)) (tx_count example_queue) example_ops /\
    Forall2 (encrypts (example_session 0xffffffff)) xs (numbered (tx_counter (example_session 0xffffffff)) (sent_readings example_ops rs)) /\
    e_out e' = e_out example_env ++ (entry_output <$> out) /\ out ++ pending q' ≡ₚ xs ++ pending example_queue /\
    tx_counter s' = u32 (tx_counter (example_session 0xffffffff) + Z.of_nat (length xs)) /\
    next_msg_id s' = u8 (next_msg_id (example_session 0xffffffff) + Z.of_nat (length xs)) /\
    tp_counter <$> numbered (tx_counter (example_session 0xffffffff)) (sent_readings example_ops rs) =
      u32 <$> seqZ (tx_counter (example_session 0xffffffff)) (Z.of_nat (length xs)) /\
    (Z.of_nat (length xs) <= 2 ^ 32 -> NoDup (tp_counter <$> numbered (tx_counter (example_session 0xffffffff)) (sent_readings example_ops rs))).
Proof.
  apply (temp_send_sequence example_ops example_env (example_session 0xffffffff) example_queue).
  - apply example_session_wf. decided.
  - apply example_queue_wf.
  - unfold example_ops. repeat (apply List.Forall_cons || apply List.Forall_nil); (decided || exact I).
Defined.
