(* ===== verification/Handshake.v ===== *)
(** * The handshake: [src/src/PQC/handshake_fsm.c]

    Key establishment between the root and a node.  The functions work on the
    session behind their pointer, on the transmit queue, on the file's static
    variables and on the random state of the KEM; the pointer itself, [self], is
    needed because the receive slots remember whose they are.  A receive context
    is named by the index of its slot.  The [NULL] tests on the session and on the
    send function have no counterpart: callers pass existing objects.  Diagnostic
    [printf] lines are left out, and with them [rx_debug_progress] and
    [rx_first_missing]. *)

From S2P Require Import Prelude Platform Protocol Fragmentation Nack Metrics CryptoWorker Session TxQueue.

(* src/src/PQC/handshake_fsm.h:8-8 HS_MSG_PK *)
Definition HS_MSG_PK : Z := PQC_MSG_PK.
(* src/src/PQC/handshake_fsm.h:9-9 HS_MSG_CT *)
Definition HS_MSG_CT : Z := PQC_MSG_CT.
(* src/src/PQC/handshake_fsm.h:10-10 HS_MSG_ACK *)
Definition HS_MSG_ACK : Z := PQC_MSG_ACK.
(* src/src/PQC/handshake_fsm.h:11-11 HS_MSG_NACK *)
Definition HS_MSG_NACK : Z := PQC_MSG_NACK.
(* src/src/PQC/handshake_fsm.c:10-12 HS_RX_SLOT_COUNT *)
Definition HS_RX_SLOT_COUNT : Z := 2.

#[export] Hint Unfold HS_MSG_PK HS_MSG_CT HS_MSG_ACK HS_MSG_NACK HS_RX_SLOT_COUNT : c_consts.

Section Handshake.
Context `{Platform} `{Crypto}.

(* src/src/PQC/handshake_fsm.c:13-13 HS_RX_TIMEOUT *)
Definition HS_RX_TIMEOUT : Z := SESSION_RETRY_TIMEOUT.
(* src/src/PQC/handshake_fsm.c:14-14 HS_RESPONSE_GRACE *)
Definition HS_RESPONSE_GRACE : Z := 10 * CLOCK_SECOND.
(* src/src/PQC/handshake_fsm.c:15-15 HS_RETRY_TX_DRAIN_DELAY *)
Definition HS_RETRY_TX_DRAIN_DELAY : Z := CLOCK_SECOND.
(* src/src/PQC/handshake_fsm.c:16-16 HS_NACK_REPEAT_DELAY *)
Definition HS_NACK_REPEAT_DELAY : Z := 4 * CLOCK_SECOND.
(* src/src/common/protocol.h:43-43 SEND_INTERVAL *)
Definition SEND_INTERVAL : Z := CLOCK_SECOND / 4.

(* src/src/PQC/handshake_fsm.c:25-33 hs_rx_slot_t *)
Record hs_rx_slot_t := mk_rx_slot {
  sl_active : Z;
  sl_owner : option sref;
  sl_started_at : Z;
  sl_last_nack_at : Z;
  sl_last_nack_received_frags : Z;
  sl_last_nack_missing_count : Z;
  sl_ctx : fragment_rx_ctx_t;
}.
#[export] Instance eta_rx_slot : Eta hs_rx_slot_t := fun r =>
  mk_rx_slot (sl_active r) (sl_owner r) (sl_started_at r) (sl_last_nack_at r)
    (sl_last_nack_received_frags r) (sl_last_nack_missing_count r) (sl_ctx r).

(** The file's static variables. *)
(* src/src/PQC/handshake_fsm.c:19-35 rx_slots *)
Record hs_state := mk_hs_state {
  root_pk : bytes;
  root_sk : bytes;
  root_has_keypair : Z;
  node_ct : bytes;
  root_ct : bytes;
  rx_slots : list hs_rx_slot_t;
}.
#[export] Instance eta_hs_state : Eta hs_state := fun r =>
  mk_hs_state (root_pk r) (root_sk r) (root_has_keypair r) (node_ct r) (root_ct r) (rx_slots r).

(** Static variables at boot, and a slot as [rx_slots_gc] leaves it. *)
Definition slot_free : hs_rx_slot_t := mk_rx_slot 0 None 0 0 0 0 fragment_rx_reset.
Definition hs_boot : hs_state :=
  mk_hs_state (zeros CW_HQC_PUBLIC_KEY_LEN) (zeros CW_HQC_SECRET_KEY_LEN) 0
    (zeros CW_HQC_CIPHERTEXT_LEN) (zeros CW_HQC_CIPHERTEXT_LEN)
    (replicate (Z.to_nat HS_RX_SLOT_COUNT) slot_free).

(** What the handshake works on. *)
Record hs_world := mk_hs_world {
  hw_s : session_t;
  hw_tx : tx_state;
  hw_hs : hs_state;
  hw_prng : prng_state;
}.
#[export] Instance eta_hs_world : Eta hs_world := fun r =>
  mk_hs_world (hw_s r) (hw_tx r) (hw_hs r) (hw_prng r).

Definition on_s {A} : M session_t A -> M hs_world A := zoom hw_s (fun s w => w <| hw_s := s |>).
Definition on_q {A} : M tx_state A -> M hs_world A := zoom hw_tx (fun q w => w <| hw_tx := q |>).
Definition on_h {A} : M hs_state A -> M hs_world A := zoom hw_hs (fun h w => w <| hw_hs := h |>).
Definition on_g {A} : M prng_state A -> M hs_world A := zoom hw_prng (fun g w => w <| hw_prng := g |>).

(** Assignments to fields of the session's metrics. *)
Definition hs_stat (f : pqc_metrics_handshake_t -> pqc_metrics_handshake_t) : M session_t unit :=
  modify (fun s => s <| metrics ::= (fun m => m <| handshake ::= f |>) |>).
Definition frag_stat (f : pqc_metrics_fragmentation_t -> pqc_metrics_fragmentation_t)
    : M session_t unit :=
  modify (fun s => s <| metrics ::= (fun m => m <| fragmentation ::= f |>) |>).
Definition res_stat (f : pqc_metrics_resource_t -> pqc_metrics_resource_t) : M session_t unit :=
  modify (fun s => s <| metrics ::= (fun m => m <| resource ::= f |>) |>).

(** ** Receive slots *)

(** [rx_slots[i]] read and written. *)
Definition slot_at (i : Z) : M hs_state hs_rx_slot_t := h ← get; lift (at_index (rx_slots h) i).
Definition slot_set (i : Z) (slot : hs_rx_slot_t) : M hs_state unit :=
  modify (fun h => h <| rx_slots ::= (fun l => <[Z.to_nat i := slot]> l) |>).

(** [rx_slots[i].active && rx_slots[i].owner == s]. *)
Definition slot_owned (self : sref) (slot : hs_rx_slot_t) : bool :=
  negb (sl_active slot =? 0) && bool_decide (sl_owner slot = Some self).

(* src/src/PQC/handshake_fsm.c:37-60 rx_slots_gc *)
Definition rx_slots_gc : M hs_state unit :=
  now ← clock_time;
  (for_each (upto HS_RX_SLOT_COUNT) (fun i =>
    slot ← slot_at i;
    (if negb (sl_active slot =? 0) && (HS_RX_TIMEOUT <? uclk (now - sl_started_at slot))
     then slot_set i slot_free else mret tt);;
    mret (@None unit)));;
  mret tt.

(* src/src/PQC/handshake_fsm.c:95-110 rx_slot_find *)
Definition rx_slot_find (self : sref) : M hs_state (option Z) :=
  for_each (upto HS_RX_SLOT_COUNT) (fun i =>
    slot ← slot_at i;
    mret (if slot_owned self slot then Some i else None)).

(* src/src/PQC/handshake_fsm.c:62-93 rx_slot_get *)
Definition rx_slot_get (self : sref) : M hs_state (option Z) :=
  rx_slots_gc;;
  r ← for_each (upto HS_RX_SLOT_COUNT) (fun i =>
        slot ← slot_at i;
        mret (if slot_owned self slot then Some i else None));
  match r with
  | Some i => mret (Some i)
  | None =>
      for_each (upto HS_RX_SLOT_COUNT) (fun i =>
        slot ← slot_at i;
        if sl_active slot =? 0
        then now ← clock_time;
             slot_set i (mk_rx_slot 1 (Some self) now 0 0 0 fragment_rx_init);;
             mret (Some i)
        else mret None)
  end.

(* src/src/PQC/handshake_fsm.c:112-126 rx_slot_touch *)
Definition rx_slot_touch (self : sref) : M hs_state unit :=
  (for_each (upto HS_RX_SLOT_COUNT) (fun i =>
    slot ← slot_at i;
    if slot_owned self slot
    then now ← clock_time; slot_set i (slot <| sl_started_at := now |>);; mret (Some tt)
    else mret None));;
  mret tt.

(* src/src/PQC/handshake_fsm.c:128-148 rx_slot_release *)
Definition rx_slot_release (self : sref) : M hs_state unit :=
  (for_each (upto HS_RX_SLOT_COUNT) (fun i =>
    slot ← slot_at i;
    if slot_owned self slot then slot_set i slot_free;; mret (Some tt) else mret None));;
  mret tt.

(** The context behind a [fragment_rx_ctx_t *]. *)
Definition rx_of (rx : Z) : M hs_state fragment_rx_ctx_t := slot ← slot_at rx; mret (sl_ctx slot).

(* src/src/PQC/handshake_fsm.c:150-180 rx_slot_nack_due *)
Definition rx_slot_nack_due (self : sref) (rx frag_idx : Z) : M hs_state bool :=
  now ← clock_time;
  ctx ← rx_of rx;
  if rx_total_frags ctx =? 0 then mret false else
  last ← lift (cell (rx_bitmap ctx) (rx_total_frags ctx - 1));
  if last =? 0 then mret false else
  r ← for_each (upto HS_RX_SLOT_COUNT) (fun i =>
    slot ← slot_at i;
    if negb (slot_owned self slot) || negb (i =? rx) then mret None else
    if sl_last_nack_missing_count slot =? 0
    then mret (Some (frag_idx + 1 =? rx_total_frags ctx)) else
    if u8 (sl_last_nack_received_frags slot + sl_last_nack_missing_count slot)
         <=? rx_received_frags ctx
    then mret (Some true)
    else mret (Some (HS_NACK_REPEAT_DELAY <=? uclk (now - sl_last_nack_at slot))));
  mret (default false r).

(* src/src/PQC/handshake_fsm.c:182-204 rx_slot_note_nack *)
Definition rx_slot_note_nack (self : sref) (rx missing_count : Z) : M hs_world unit :=
  if missing_count =? 0 then mret tt else
  (for_each (upto HS_RX_SLOT_COUNT) (fun i =>
    slot ← on_h (slot_at i);
    if slot_owned self slot && (i =? rx)
    then
      now ← clock_time;
      on_h (slot_set i (slot <| sl_last_nack_at := now |>
              <| sl_last_nack_received_frags := rx_received_frags (sl_ctx slot) |>
              <| sl_last_nack_missing_count := missing_count |>));;
      on_s (modify (fun s => s <| retry_deadline := uclk (now + HS_NACK_REPEAT_DELAY) |>));;
      on_s session_touch;;
      mret (Some tt)
    else mret None));;
  mret tt.

(** ** Pending messages *)

(* src/src/PQC/handshake_fsm.c:206-211 tx_has_room_for *)
Definition tx_has_room_for (len : Z) : M hs_world bool :=
  q ← on_q get;
  let needed := fragment_tx_count len in
  mret (negb (needed =? 0) && (needed <=? pqc_tx_free_slots q)).

(* src/src/PQC/handshake_fsm.c:268-278 hs_transfer_extra *)
Definition hs_transfer_extra (transfer_len : Z) : Z :=
  let frags := fragment_tx_count transfer_len in
  if negb (frags =? 0) then uclk (HS_RESPONSE_GRACE + frags * SEND_INTERVAL) else HS_RESPONSE_GRACE.

(** [s->retry_deadline = clock_time() + delay]. *)
Definition set_deadline (delay : Z) : M session_t unit :=
  now ← clock_time; modify (fun s => s <| retry_deadline := uclk (now + delay) |>).

(* src/src/PQC/handshake_fsm.c:280-291 hs_set_pending_for_transfer *)
Definition hs_set_pending_for_transfer (msg_type msg_id transfer_len : Z) : M session_t unit :=
  session_set_pending msg_type msg_id;;
  set_deadline (SESSION_RETRY_TIMEOUT + hs_transfer_extra transfer_len).

(* src/src/PQC/handshake_fsm.c:293-303 hs_mark_retry_for_transfer *)
Definition hs_mark_retry_for_transfer (transfer_len : Z) : M session_t unit :=
  modify (fun s => s <| retry_count ::= (fun n => u8 (n + 1)) |>);;
  res_stat (fun r => r <| retries ::= inc32 |>);;
  set_deadline (SESSION_RETRY_TIMEOUT + hs_transfer_extra transfer_len);;
  session_touch.

(* src/src/PQC/handshake_fsm.c:305-315 hs_mark_rx_retry *)
Definition hs_mark_rx_retry : M session_t unit :=
  modify (fun s => s <| retry_count ::= (fun n => u8 (n + 1)) |>);;
  res_stat (fun r => r <| retries ::= inc32 |>);;
  set_deadline SESSION_RETRY_TIMEOUT;;
  session_touch.

(** ** Sending *)

(* src/src/PQC/handshake_fsm.h:13-13 hs_send_fn_t *)
Definition hs_send_fn_t : Type := fragment_send_fn_t hs_world.

(** [pqc_udp_send_fragment] as the send function, the one every caller passes. *)
Definition udp_send (ctx : pqc_udp_send_ctx_t) : hs_send_fn_t :=
  fun data len => on_q (pqc_udp_send_fragment data len ctx).

Context (send_fn : hs_send_fn_t).

(* src/src/PQC/handshake_fsm.c:317-345 send_ack *)
Definition send_ack (confirmed_msg_id : Z) : M hs_world bool :=
  room ← tx_has_room_for 1;
  if negb room then mret false else
  s ← on_s get;
  ack_msg_id ← on_s session_next_msg_id;
  on_s (hs_stat (fun m => m <| ack_tx ::= inc32 |>));;
  fragment_tx (Some [confirmed_msg_id]) 1 HS_MSG_ACK (node_id s) ack_msg_id PQC_FLAG_NONE (Some send_fn).

(** The number of fragments asked for, 0 when nothing was sent. *)
(* src/src/PQC/handshake_fsm.c:347-403 send_nack *)
Definition send_nack (rx : Z) : M hs_world Z :=
  ctx ← on_h (rx_of rx);
  '(built, nack) ← lift (pqc_nack_build_from_rx ctx nack_zero PQC_NACK_MAX_MISSING);
  if built =? 0 then mret 0 else
  '(nack_len, nack_payload) ← lift (pqc_nack_encode nack (zeros PQC_NACK_MAX_PAYLOAD_LEN)
                                      PQC_NACK_MAX_PAYLOAD_LEN);
  if nack_len =? 0 then mret 0 else
  room ← tx_has_room_for nack_len;
  if negb room then mret 0 else
  s ← on_s get;
  nack_msg_id ← on_s session_next_msg_id;
  on_s (frag_stat (fun m => m <| nack_tx ::= inc32 |> <| nack_rounds_count ::= inc32 |>));;
  sent ← fragment_tx (Some nack_payload) nack_len HS_MSG_NACK (node_id s) nack_msg_id
           PQC_FLAG_NONE (Some send_fn);
  if negb (sent : bool) then mret 0 else mret (missing_count nack).

(** [data] is not [NULL]; the local packet buffer is filled before it is sent. *)
(* src/src/PQC/handshake_fsm.c:405-445 send_fragment_slice *)
Definition send_fragment_slice (data : bytes) (len msg_type node_id msg_id frag_idx total_frags flags : Z)
    : M hs_world bool :=
  if (len =? 0) || (total_frags =? 0) || (total_frags <=? frag_idx) then mret false else
  let offset := u16 (frag_idx * FRAG_MAX_PAYLOAD_LEN) in
  if len <=? offset then mret false else
  let remaining := u16 (len - offset) in
  let frag_len := u8 (if FRAG_MAX_PAYLOAD_LEN <? remaining then FRAG_MAX_PAYLOAD_LEN else remaining) in
  frag ← lift (pqc_header_write (zeros (FRAG_HEADER_LEN + FRAG_MAX_PAYLOAD_LEN)) msg_type node_id
                 msg_id frag_idx total_frags frag_len flags);
  payload ← lift (mem_read data offset frag_len);
  frag ← lift (mem_write frag FRAG_HEADER_LEN payload);
  send_fn frag (u16 (FRAG_HEADER_LEN + frag_len)).

(** The message a NACK can be served from: its bytes and its length. *)
Definition nack_source (s : session_t) (h : hs_state) : option (bytes * Z) :=
  if session_is_root s && (pending_msg_type s =? HS_MSG_PK)
  then Some (root_pk h, CW_HQC_PUBLIC_KEY_LEN)
  else if session_is_node s && (pending_msg_type s =? HS_MSG_CT)
  then Some (node_ct h, CW_HQC_CIPHERTEXT_LEN)
  else None.

(** The retransmission loop; the result is whether all were sent. *)
Definition retransmit_loop (nack : pqc_nack_t) (data : bytes) (len nid expected_frags : Z)
    : M hs_world bool :=
  r ← for_each (upto (missing_count nack)) (fun i =>
        frag_idx ← lift (cell (missing nack) i);
        sent ← send_fragment_slice data len (missing_msg_type nack) nid (missing_msg_id nack)
                 frag_idx expected_frags PQC_FLAG_RETRY;
        mret (if (sent : bool) then None else Some tt));
  mret (bool_decide (r = None)).

(* src/src/PQC/handshake_fsm.c:447-534 retransmit_nack_fragments *)
Definition retransmit_nack_fragments (nack : pqc_nack_t) : M hs_world bool :=
  on_s (frag_stat (fun m => m <| nack_rx ::= inc32 |>));;
  s ← on_s get;
  h ← on_h get;
  if negb (missing_msg_id nack =? pending_msg_id s) || negb (missing_msg_type nack =? pending_msg_type s)
  then mret false else
  match nack_source s h with
  | None => mret false
  | Some (data, len) =>
      let expected_frags := fragment_tx_count len in
      if (expected_frags =? 0) || negb (nk_total_frags nack =? expected_frags) then mret false else
      q ← on_q get;
      if pqc_tx_free_slots q <? missing_count nack
      then on_s (set_deadline HS_RETRY_TX_DRAIN_DELAY);; mret true
      else
        sent ← retransmit_loop nack data len (node_id s) expected_frags;
        if negb sent then mret false else
        on_s (frag_stat (fun m =>
          m <| nack_recovered_fragments ::= (fun n => u32 (n + missing_count nack)) |>));;
        on_s (set_deadline (SESSION_RETRY_TIMEOUT + hs_transfer_extra len));;
        on_s session_touch;;
        mret true
  end.

(* src/src/PQC/handshake_fsm.c:536-551 hs_fsm_root_init_keypair *)
Definition hs_fsm_root_init_keypair : M hs_world bool :=
  h ← on_h get;
  if negb (root_has_keypair h =? 0) then mret true else
  '(ok, pk, sk) ← on_g crypto_worker_keypair;
  on_h (modify (fun h => h <| root_pk := pk |> <| root_sk := sk |>));;
  if negb (ok : bool) then mret false else
  on_h (modify (fun h => h <| root_has_keypair := 1 |>));;
  mret true.

(* src/src/PQC/handshake_fsm.c:553-556 hs_fsm_root_has_keypair *)
Definition hs_fsm_root_has_keypair (h : hs_state) : Z := root_has_keypair h.

(* src/src/PQC/handshake_fsm.c:558-579 send_getpk_retry *)
Definition send_getpk_retry : M hs_world bool :=
  s ← on_s get;
  msg ← lift (pqc_header_write (zeros PQC_HEADER_LEN) PQC_MSG_GETPK (node_id s) (pending_msg_id s)
                0 1 0 PQC_FLAG_RETRY);
  send_fn msg PQC_HEADER_LEN.

(** ** Starting *)

(** [s->metrics.handshake.field = clock_time() - started_at], a 32-bit field. *)
Definition clock_since (started_at : Z) : M hs_world Z := now ← clock_time; mret (u32 (uclk (now - started_at))).

(** The message is queued and recorded as pending: the last part of
    [hs_fsm_start] and of the PK branch of [hs_fsm_handle_fragment]. *)
(* src/src/PQC/handshake_fsm.c:637-663 hs_fsm_start *)
Definition start_root_transfer : M hs_world bool :=
  room ← tx_has_room_for CW_HQC_PUBLIC_KEY_LEN;
  if negb room then mret false else
  msg_id ← on_s session_next_msg_id;
  on_s session_set_wait_ct;;
  on_s (hs_set_pending_for_transfer HS_MSG_PK msg_id CW_HQC_PUBLIC_KEY_LEN);;
  on_s (hs_stat (fun m => m <| pk_tx ::= inc32 |>));;
  now ← clock_time;
  on_s (hs_stat (fun m => m <| pk_tx_started_at := u32 now |>));;
  on_s (frag_stat (fun m => m <| fragments_tx ::= (fun n => u32 (n + fragment_tx_count CW_HQC_PUBLIC_KEY_LEN)) |>));;
  s ← on_s get;
  h ← on_h get;
  sent ← fragment_tx (Some (root_pk h)) CW_HQC_PUBLIC_KEY_LEN HS_MSG_PK (node_id s) msg_id
           PQC_FLAG_NONE (Some send_fn);
  if negb (sent : bool) then on_s session_set_failed;; mret false else
  s ← on_s get;
  ticks ← pqc_metrics_elapsed_since (pk_tx_started_at (handshake (metrics s)));
  on_s (hs_stat (fun m => m <| pk_tx_ticks_last := ticks |>));;
  mret true.

(* src/src/PQC/handshake_fsm.c:611-679 hs_fsm_start *)
Definition hs_fsm_start : M hs_world bool :=
  on_h rx_slots_gc;;
  s ← on_s get;
  if session_is_root s then
    on_s (on_metrics pqc_metrics_handshake_start);;
    h ← on_h get;
    keypair_started_at ← (if negb (root_has_keypair h =? 0) then mret 0 else clock_time);
    ok ← hs_fsm_root_init_keypair;
    if negb ok then on_s session_set_failed;; mret false else
    (if negb (keypair_started_at =? 0)
     then ticks ← clock_since keypair_started_at;
          on_s (hs_stat (fun m => m <| keypair_ticks_last := ticks |>))
     else mret tt);;
    start_root_transfer
  else if session_is_node s then
    if negb (bool_decide (state s = SESSION_STATE_IDLE)) && negb (bool_decide (state s = SESSION_STATE_WAIT_PK))
    then mret false
    else on_s session_set_wait_pk;; mret true
  else mret false.

(** ** Receiving *)

Section Self.
Context (self : sref).

(** [crypto_worker_secure_zero(node_ct, sizeof(node_ct))], and the same for
    [root_ct]. *)
Definition zero_node_ct : M hs_world unit :=
  h ← on_h get;
  ct ← lift (crypto_worker_secure_zero (node_ct h) CW_HQC_CIPHERTEXT_LEN);
  on_h (modify (fun h => h <| node_ct := ct |>)).
Definition zero_root_ct : M hs_world unit :=
  h ← on_h get;
  ct ← lift (crypto_worker_secure_zero (root_ct h) CW_HQC_CIPHERTEXT_LEN);
  on_h (modify (fun h => h <| root_ct := ct |>)).

(** [s->metrics.handshake.field = pqc_metrics_elapsed_since(s->metrics.handshake.since)],
    where [since] must not be 0. *)
Definition stat_elapsed (since : pqc_metrics_handshake_t -> Z)
    (set : Z -> pqc_metrics_handshake_t -> pqc_metrics_handshake_t) : M hs_world unit :=
  s ← on_s get;
  if negb (since (handshake (metrics s)) =? 0)
  then ticks ← pqc_metrics_elapsed_since (since (handshake (metrics s)));
       on_s (hs_stat (set ticks))
  else mret tt.

(** A failure while a message is being received. *)
Definition fail_release : M hs_world bool :=
  on_s session_set_failed;; on_h (rx_slot_release self);; mret false.

(** The ciphertext is queued and recorded as pending. *)
(* src/src/PQC/handshake_fsm.c:848-878 hs_fsm_handle_fragment *)
Definition send_ciphertext : M hs_world bool :=
  room ← tx_has_room_for CW_HQC_CIPHERTEXT_LEN;
  if negb room then zero_node_ct;; on_s session_set_failed;; mret false else
  on_s session_clear_pending;;
  ct_msg_id ← on_s session_next_msg_id;
  on_s session_set_wait_ack;;
  on_s (hs_set_pending_for_transfer HS_MSG_CT ct_msg_id CW_HQC_CIPHERTEXT_LEN);;
  on_s (hs_stat (fun m => m <| ct_tx ::= inc32 |>));;
  now ← clock_time;
  on_s (hs_stat (fun m => m <| ct_tx_started_at := u32 now |>));;
  on_s (frag_stat (fun m => m <| fragments_tx ::= (fun n => u32 (n + fragment_tx_count CW_HQC_CIPHERTEXT_LEN)) |>));;
  s ← on_s get;
  h ← on_h get;
  sent ← fragment_tx (Some (node_ct h)) CW_HQC_CIPHERTEXT_LEN HS_MSG_CT (node_id s) ct_msg_id
           PQC_FLAG_NONE (Some send_fn);
  if negb (sent : bool) then zero_node_ct;; on_s session_set_failed;; mret false else
  s ← on_s get;
  ticks ← pqc_metrics_elapsed_since (ct_tx_started_at (handshake (metrics s)));
  on_s (hs_stat (fun m => m <| ct_tx_ticks_last := ticks |>));;
  mret true.

(** A node has received the public key in context [rx]. *)
(* src/src/PQC/handshake_fsm.c:815-879 hs_fsm_handle_fragment *)
Definition node_pk_complete (rx : Z) : M hs_world bool :=
  ctx ← on_h (rx_of rx);
  if negb (fragment_rx_len ctx =? CW_HQC_PUBLIC_KEY_LEN) then fail_release else
  on_s (hs_stat (fun m => m <| pk_rx_complete ::= inc32 |>));;
  now ← clock_time;
  on_s (hs_stat (fun m => m <| pk_rx_completed_at := u32 now |>));;
  stat_elapsed handshake_started_at (fun t m => m <| pk_rx_ticks_last := t |>);;
  started_at ← clock_time;
  pk ← lift (mem_read (default [] (fragment_rx_data ctx)) 0 CW_HQC_PUBLIC_KEY_LEN);
  '(ok, ct, secret) ← on_g (crypto_worker_encapsulate pk);
  on_h (modify (fun h => h <| node_ct := ct |>));;
  on_s (modify (fun s => s <| ss := secret |>));;
  if negb (ok : bool) then fail_release else
  ticks ← clock_since started_at;
  on_s (hs_stat (fun m => m <| encaps_ticks_last := ticks |>));;
  s ← on_s get;
  key ← lift (crypto_worker_derive_aes_key (ss s) (aes_key s));
  on_s (modify (fun s => s <| aes_key := key |>));;
  on_h (rx_slot_release self);;
  send_ciphertext.

(** A node has received an acknowledgement in context [rx]; the first byte is read
    only when the length is 1. *)
(* src/src/PQC/handshake_fsm.c:881-906 hs_fsm_handle_fragment *)
Definition node_ack_complete (rx : Z) : M hs_world bool :=
  ctx ← on_h (rx_of rx);
  s ← on_s get;
  confirmed ← (if fragment_rx_len ctx =? 1
               then lift (c ← cell (default [] (fragment_rx_data ctx)) 0; Some (Some c))
               else mret None);
  if negb (bool_decide (confirmed = Some (pending_msg_id s)))
  then on_h (rx_slot_release self);; mret false else
  on_s session_set_established;;
  on_s (hs_stat (fun m => m <| ack_rx ::= inc32 |>));;
  now ← clock_time;
  on_s (hs_stat (fun m => m <| ack_rx_at := u32 now |>));;
  stat_elapsed ct_tx_started_at (fun t m => m <| ack_wait_ticks_last := t |>);;
  on_s (on_metrics pqc_metrics_handshake_success);;
  zero_node_ct;;
  on_h (rx_slot_release self);;
  mret true.

(** The ciphertext is in [root_ct]: decapsulation and acknowledgement. *)
(* src/src/PQC/handshake_fsm.c:929-964 hs_fsm_handle_fragment *)
Definition root_decapsulate (msg_id : Z) : M hs_world bool :=
  s ← on_s get;
  if session_is_established s then zero_root_ct;; send_ack msg_id else
  if negb (bool_decide (state s = SESSION_STATE_WAIT_CT)) then zero_root_ct;; mret false else
  h ← on_h get;
  if hs_fsm_root_has_keypair h =? 0 then on_s session_set_failed;; zero_root_ct;; mret false else
  started_at ← clock_time;
  let '(ok, secret) := crypto_worker_decapsulate (root_sk h) (root_ct h) in
  on_s (modify (fun s => s <| ss := secret |>));;
  if negb ok then on_s session_set_failed;; zero_root_ct;; mret false else
  ticks ← clock_since started_at;
  on_s (hs_stat (fun m => m <| decaps_ticks_last := ticks |>));;
  zero_root_ct;;
  s ← on_s get;
  key ← lift (crypto_worker_derive_aes_key (ss s) (aes_key s));
  on_s (modify (fun s => s <| aes_key := key |>));;
  on_s session_set_established;;
  on_s (on_metrics pqc_metrics_handshake_success);;
  send_ack msg_id.

(** The root has received a ciphertext in context [rx]. *)
(* src/src/PQC/handshake_fsm.c:908-965 hs_fsm_handle_fragment *)
Definition root_ct_complete (rx msg_id : Z) : M hs_world bool :=
  ctx ← on_h (rx_of rx);
  if negb (fragment_rx_len ctx =? CW_HQC_CIPHERTEXT_LEN) then fail_release else
  on_s (hs_stat (fun m => m <| ct_rx_complete ::= inc32 |>));;
  now ← clock_time;
  on_s (hs_stat (fun m => m <| ct_rx_completed_at := u32 now |>));;
  stat_elapsed ct_rx_started_at (fun t m => m <| ct_rx_ticks_last := t |>);;
  h ← on_h get;
  ct ← lift (mem_read (default [] (fragment_rx_data ctx)) 0 CW_HQC_CIPHERTEXT_LEN);
  ct ← lift (mem_write (root_ct h) 0 ct);
  on_h (modify (fun h => h <| root_ct := ct |>));;
  on_h (rx_slot_release self);;
  root_decapsulate msg_id.

(** The dispatch on a complete message. *)
(* src/src/PQC/handshake_fsm.c:808-973 hs_fsm_handle_fragment *)
Definition complete_message (fh : fragment_header) (rx : Z) : M hs_world bool :=
  s ← on_s get;
  if session_is_node s && (fh_msg_type fh =? HS_MSG_PK) then node_pk_complete rx
  else if session_is_node s && (fh_msg_type fh =? HS_MSG_ACK) then node_ack_complete rx
  else if session_is_root s && (fh_msg_type fh =? HS_MSG_CT) then root_ct_complete rx (fh_msg_id fh)
  else on_h (rx_slot_release self);; mret false.

(** The fragment is added to the session's context, and the message handled when
    it is complete. *)
(* src/src/PQC/handshake_fsm.c:760-808 hs_fsm_handle_fragment *)
Definition receive_fragment (fh : fragment_header) (payload : bytes) : M hs_world bool :=
  slot ← on_h (rx_slot_get self);
  match slot with
  | None => mret false
  | Some rx =>
      slot ← on_h (slot_at rx);
      '(added, ctx) ← lift (fragment_rx_add (sl_ctx slot) (fh_msg_type fh) (fh_node_id fh)
                              (fh_msg_id fh) (fh_frag_idx fh) (fh_total_frags fh) (Some payload)
                              (fh_frag_len fh));
      on_h (slot_set rx (slot <| sl_ctx := ctx |>));;
      if negb added then mret false else
      on_s (frag_stat (fun m => m <| fragments_rx ::= inc32 |>));;
      on_s session_touch;;
      if negb (fragment_rx_complete ctx) then
        due ← (if negb (fh_msg_type fh =? HS_MSG_NACK)
               then on_h (rx_slot_nack_due self rx (fh_frag_idx fh)) else mret false);
        (if (due : bool)
         then missing_count ← send_nack rx; rx_slot_note_nack self rx missing_count
         else mret tt);;
        mret true
      else complete_message fh rx
  end.

(** The tests on a fragment before it is received: [Some r] when the function
    returns [r] at once. *)
(* src/src/PQC/handshake_fsm.c:711-739 hs_fsm_handle_fragment *)
Definition fragment_unexpected (s : session_t) (fh : fragment_header) : bool :=
  session_is_node s && (fh_msg_type fh =? HS_MSG_PK) &&
    (negb (bool_decide (state s = SESSION_STATE_WAIT_PK)) || negb (pending_msg_type s =? PQC_MSG_GETPK))
  || session_is_node s && (fh_msg_type fh =? HS_MSG_ACK) &&
    (negb (bool_decide (state s = SESSION_STATE_WAIT_ACK)) || negb (pending_msg_type s =? HS_MSG_CT)).

(** [data] is not [NULL]. *)
(* src/src/PQC/handshake_fsm.c:681-973 hs_fsm_handle_fragment *)
Definition hs_fsm_handle_fragment (data : bytes) (len : Z) : M hs_world bool :=
  on_h rx_slots_gc;;
  parsed ← lift (parse_fragment_header (Some data) len);
  match parsed with
  | None => mret false
  | Some fh =>
      s ← on_s get;
      if session_is_root s && negb (node_id s =? fh_node_id fh) then mret false else
      if session_is_node s && negb (node_id s =? SESSION_INVALID_NODE_ID) && negb (node_id s =? fh_node_id fh)
      then mret false else
      (if session_is_node s && (node_id s =? SESSION_INVALID_NODE_ID)
       then on_s (modify (fun s => s <| node_id := fh_node_id fh |>)) else mret tt);;
      if fragment_unexpected s fh then mret false else
      if session_is_root s && session_is_established s && (fh_msg_type fh =? HS_MSG_CT) then
        (if (fh_frag_idx fh =? 0) || (fh_frag_idx fh + 1 =? fh_total_frags fh)
         then _ ← send_ack (fh_msg_id fh); mret tt else mret tt);;
        mret true
      else if session_is_root s && (fh_msg_type fh =? HS_MSG_CT)
              && negb (bool_decide (state s = SESSION_STATE_WAIT_CT))
      then mret false
      else if fh_msg_type fh =? HS_MSG_NACK then
        if negb (fh_frag_idx fh =? 0) || negb (fh_total_frags fh =? 1) then mret false else
        '(ok, nack) ← lift (pqc_nack_decode (Some (drop (Z.to_nat FRAG_HEADER_LEN) data)) (fh_frag_len fh) nack_zero);
        if negb (ok : bool) then mret false else retransmit_nack_fragments nack
      else receive_fragment fh (drop (Z.to_nat FRAG_HEADER_LEN) data)
  end.

(** ** Retrying *)

(** A retransmission that counts as a retry when it could be queued. *)
Definition count_retry (len : Z) (queued : bool) : M hs_world bool :=
  (if queued then on_s (hs_mark_retry_for_transfer len) else mret tt);; mret queued.

(** The root waits for the rest of a ciphertext. *)
(* src/src/PQC/handshake_fsm.c:1005-1027 hs_fsm_retry *)
Definition retry_incomplete_ct : M hs_world bool :=
  rx ← on_h (rx_slot_find self);
  missing_count ← match rx with
                  | None => mret 0
                  | Some rx =>
                      ctx ← on_h (rx_of rx);
                      if negb (rx_active ctx =? 0) && negb (fragment_rx_complete ctx)
                      then missing_count ← send_nack rx;
                           (if negb (missing_count =? 0)
                            then on_h (rx_slot_touch self);; rx_slot_note_nack self rx missing_count
                            else mret tt);;
                           mret missing_count
                      else mret 0
                  end;
  if negb (missing_count =? 0) then on_s hs_mark_rx_retry;; mret true else fail_release.

(* src/src/PQC/handshake_fsm.c:1039-1066 hs_fsm_retry *)
Definition retry_public_key : M hs_world bool :=
  s ← on_s get;
  h ← on_h get;
  if hs_fsm_root_has_keypair h =? 0 then on_s session_set_failed;; mret false else
  room ← tx_has_room_for CW_HQC_PUBLIC_KEY_LEN;
  if negb room then on_s (set_deadline HS_RETRY_TX_DRAIN_DELAY);; mret true else
  queued ← fragment_tx (Some (root_pk h)) CW_HQC_PUBLIC_KEY_LEN HS_MSG_PK (node_id s) (pending_msg_id s)
             PQC_FLAG_RETRY (Some send_fn);
  count_retry CW_HQC_PUBLIC_KEY_LEN queued.

(* src/src/PQC/handshake_fsm.c:1068-1089 hs_fsm_retry *)
Definition retry_ciphertext : M hs_world bool :=
  s ← on_s get;
  h ← on_h get;
  room ← tx_has_room_for CW_HQC_CIPHERTEXT_LEN;
  if negb room then on_s (set_deadline HS_RETRY_TX_DRAIN_DELAY);; mret true else
  queued ← fragment_tx (Some (node_ct h)) CW_HQC_CIPHERTEXT_LEN HS_MSG_CT (node_id s) (pending_msg_id s)
             PQC_FLAG_RETRY (Some send_fn);
  count_retry CW_HQC_CIPHERTEXT_LEN queued.

(* src/src/PQC/handshake_fsm.c:975-1095 hs_fsm_retry *)
Definition hs_fsm_retry : M hs_world bool :=
  on_h rx_slots_gc;;
  due ← on_s session_retry_due;
  if negb due then mret true else
  q ← on_q get;
  if pqc_tx_has_pending q then on_s (set_deadline HS_RETRY_TX_DRAIN_DELAY);; mret true else
  s ← on_s get;
  if negb (session_can_retry s) then
    on_s session_set_failed;;
    on_h (rx_slot_release self);;
    (if session_is_node s then zero_node_ct else mret tt);;
    mret false
  else if session_is_root s && (pending_msg_type s =? HS_MSG_CT) then retry_incomplete_ct
  else
    on_h (rx_slot_release self);;
    if session_is_node s && (pending_msg_type s =? PQC_MSG_GETPK)
    then queued ← send_getpk_retry; count_retry PQC_HEADER_LEN queued
    else if session_is_root s && (pending_msg_type s =? HS_MSG_PK) then retry_public_key
    else if session_is_node s && (pending_msg_type s =? HS_MSG_CT) then retry_ciphertext
    else mret false.

End Self.
End Handshake.
