(* ===== verification/HandshakeTime.v ===== *)
(** * The handshake's use of the clock

    No operation of the handshake turns the clock back: each leaves an environment
    whose clock is the same function, read at least as far. *)

From S2P Require Import Prelude Platform Protocol Fragmentation Nack Metrics CryptoWorker Session TxQueue Handshake.

(** Opens the operations of the components below. *)
Ltac open_ops :=
  first [progress unfold on_s, on_q, on_h, on_g, hs_stat, frag_stat, res_stat, on_metrics, slot_at, slot_set, rx_of, set_deadline
        |progress unfold pqc_udp_send_fragment, pqc_tx_find_free_slot, tx_entry, tx_set_entry
        |progress unfold pqc_metrics_handshake_start, pqc_metrics_handshake_success, pqc_metrics_handshake_failure,
           handshake_ticks_update, pqc_metrics_elapsed_since
        |progress unfold session_touch, session_set_pending, session_clear_pending, session_set_failed,
           session_set_established, session_set_wait_ct, session_set_wait_ack, session_set_wait_pk,
           session_next_msg_id, session_retry_due].
Ltac timely_ops := repeat first [timely_step | open_ops].

Section Timely.
Context `{PlatformLaws} `{CryptoLaws} (ctx : pqc_udp_send_ctx_t) (self : sref).

Lemma timely_udp_send b n : timely (udp_send ctx b n).
Proof. unfold udp_send. timely_ops. Qed.
#[local] Hint Resolve timely_udp_send : timely.

Lemma timely_tx_loop data len mt nid mid flags tf idxs frag :
  timely (fragment_tx_loop data len mt nid mid flags tf (udp_send ctx) idxs frag).
Proof. revert frag. induction idxs; intros frag; cbn [fragment_tx_loop]; timely_ops. Qed.
#[local] Hint Resolve timely_tx_loop : timely.

Lemma timely_fragment_tx data len mt nid mid flags :
  timely (fragment_tx data len mt nid mid flags (Some (udp_send ctx))).
Proof. unfold fragment_tx. destruct data; cbv zeta; timely_ops. Qed.
#[local] Hint Resolve timely_fragment_tx : timely.

Lemma timely_room len : timely (tx_has_room_for len).
Proof. unfold tx_has_room_for. timely_ops. Qed.
Lemma timely_gc : timely rx_slots_gc.
Proof. unfold rx_slots_gc. timely_ops. Qed.
#[local] Hint Resolve timely_room timely_gc : timely.

Lemma timely_slots :
  timely (rx_slot_find self) /\ timely (rx_slot_get self) /\ timely (rx_slot_touch self) /\ timely (rx_slot_release self).
Proof. unfold rx_slot_find, rx_slot_get, rx_slot_touch, rx_slot_release. split_and!; timely_ops. Qed.
Lemma timely_release : timely (rx_slot_release self).
Proof. apply timely_slots. Qed.
Lemma timely_get_slot : timely (rx_slot_get self).
Proof. apply timely_slots. Qed.
#[local] Hint Resolve timely_release timely_get_slot : timely.

Lemma timely_nack rx fi n : timely (rx_slot_nack_due self rx fi) /\ timely (rx_slot_note_nack self rx n).
Proof. unfold rx_slot_nack_due, rx_slot_note_nack. split; timely_ops. Qed.
Lemma timely_due rx fi : timely (rx_slot_nack_due self rx fi).
Proof. apply (timely_nack rx fi 0). Qed.
Lemma timely_note rx n : timely (rx_slot_note_nack self rx n).
Proof. apply (timely_nack rx 0 n). Qed.

Lemma timely_send_ack n : timely (send_ack (udp_send ctx) n).
Proof. unfold send_ack. timely_ops. Qed.
Lemma timely_send_nack rx : timely (send_nack (udp_send ctx) rx).
Proof. unfold send_nack. timely_ops. Qed.
#[local] Hint Resolve timely_due timely_note timely_send_ack timely_send_nack : timely.

Lemma timely_retransmit nack : timely (retransmit_nack_fragments (udp_send ctx) nack).
Proof. unfold retransmit_nack_fragments, retransmit_loop, send_fragment_slice, hs_set_pending_for_transfer. timely_ops. Qed.

Lemma timely_zero_cts : timely zero_node_ct /\ timely zero_root_ct.
Proof. unfold zero_node_ct, zero_root_ct. split; timely_ops. Qed.
Lemma timely_zero_node_ct : timely zero_node_ct.
Proof. apply timely_zero_cts. Qed.
Lemma timely_zero_root_ct : timely zero_root_ct.
Proof. apply timely_zero_cts. Qed.
Lemma timely_stat_elapsed since set : timely (stat_elapsed since set).
Proof. unfold stat_elapsed. timely_ops. Qed.
Lemma timely_fail_release : timely (fail_release self).
Proof. unfold fail_release. timely_ops. Qed.
#[local] Hint Resolve timely_retransmit timely_zero_node_ct timely_zero_root_ct timely_stat_elapsed timely_fail_release : timely.

Lemma timely_send_ciphertext : timely (send_ciphertext (udp_send ctx)).
Proof. unfold send_ciphertext, hs_set_pending_for_transfer. timely_ops. Qed.
#[local] Hint Resolve timely_send_ciphertext : timely.

Lemma timely_complete fh rx : timely (complete_message (udp_send ctx) self fh rx).
Proof.
  unfold complete_message, node_pk_complete, node_ack_complete, root_ct_complete, root_decapsulate, clock_since,
    crypto_worker_encapsulate. timely_ops.
Qed.
#[local] Hint Resolve timely_complete : timely.

Lemma timely_receive fh payload : timely (receive_fragment (udp_send ctx) self fh payload).
Proof. unfold receive_fragment. timely_ops. Qed.
#[local] Hint Resolve timely_receive : timely.

Lemma timely_handle data len : timely (hs_fsm_handle_fragment (udp_send ctx) self data len).
Proof. unfold hs_fsm_handle_fragment. timely_ops. Qed.

End Timely.

#[export] Hint Resolve timely_complete timely_receive timely_handle timely_udp_send timely_gc
  timely_send_nack timely_due timely_note timely_get_slot : timely.
