(* ===== verification/HandshakeFacts.v ===== *)
(** * Lemmas on the handshake

    Rules for the parts of [Handshake]: the session's statistics and timers, the
    receive slots, the queueing of messages; then the rules of the operations and
    the properties that hold of one operation. *)

From S2P Require Import Prelude Platform Protocol Fragmentation Nack Metrics CryptoWorker Session TxQueue Telemetry Handshake.

Section World.
Context `{PlatformLaws} `{CryptoLaws}.

Lemma wp_on_s {A} (m : M session_t A) Q e s q h g :
  wp m (fun a e' s' => Q a e' (mk_hs_world s' q h g)) e s -> wp (on_s m) Q e (mk_hs_world s q h g).
Proof. exact (wp_zoom _ _ _ _ _ (mk_hs_world s q h g)). Qed.
Lemma wp_on_q {A} (m : M tx_state A) Q e s q h g :
  wp m (fun a e' q' => Q a e' (mk_hs_world s q' h g)) e q -> wp (on_q m) Q e (mk_hs_world s q h g).
Proof. exact (wp_zoom _ _ _ _ _ (mk_hs_world s q h g)). Qed.
Lemma wp_on_h {A} (m : M hs_state A) Q e s q h g :
  wp m (fun a e' h' => Q a e' (mk_hs_world s q h' g)) e h -> wp (on_h m) Q e (mk_hs_world s q h g).
Proof. exact (wp_zoom _ _ _ _ _ (mk_hs_world s q h g)). Qed.
Lemma wp_on_g {A} (m : M prng_state A) Q e s q h g :
  wp m (fun a e' g' => Q a e' (mk_hs_world s q h g')) e g -> wp (on_g m) Q e (mk_hs_world s q h g).
Proof. exact (wp_zoom _ _ _ _ _ (mk_hs_world s q h g)). Qed.

(** ** Sessions up to statistics, timers and message numbers *)

(** [chatter s s']: only statistics, timers and the next message number may
    differ. *)
Definition chatter (s s' : session_t) : Prop :=
  session_wf s' /\ s' = s <| metrics := metrics s' |> <| last_activity := last_activity s' |>
                         <| retry_deadline := retry_deadline s' |> <| next_msg_id := next_msg_id s' |>.

(** [quiet s s']: not even the message number. *)
Definition quiet (s s' : session_t) : Prop := chatter s s' /\ next_msg_id s' = next_msg_id s.

Lemma quiet_refl s : session_wf s -> quiet s s.
Proof. intros Hs. split; [split; [exact Hs|session_eq]|reflexivity]. Qed.
Lemma chatter_refl s : session_wf s -> chatter s s.
Proof. intros Hs. apply quiet_refl, Hs. Qed.

Lemma chatter_trans s1 s2 s3 : chatter s1 s2 -> chatter s2 s3 -> chatter s1 s3.
Proof. intros [_ E1] [Hw E2]. split; [exact Hw|]. rewrite E2, E1. session_eq. Qed.
Lemma quiet_trans s1 s2 s3 : quiet s1 s2 -> quiet s2 s3 -> quiet s1 s3.
Proof. intros [C1 E1] [C2 E2]. split; [exact (chatter_trans _ _ _ C1 C2)|congruence]. Qed.
Lemma quiet_chatter s s' : quiet s s' -> chatter s s'.
Proof. intros [C _]. exact C. Qed.
Lemma chatter_wf s s' : chatter s s' -> session_wf s'.
Proof. intros [Hw _]. exact Hw. Qed.

#[local] Instance quiet_transitive : Transitive quiet.
Proof. exact quiet_trans. Qed.
#[local] Instance chatter_transitive : Transitive chatter.
Proof. exact chatter_trans. Qed.

(** What chatter leaves alone. *)
Lemma chatter_fields s s' :
  chatter s s' ->
  (used s', node_id s', role s', state s', established s', tx_counter s', rx_counter s') =
  (used s, node_id s, role s, state s, established s, tx_counter s, rx_counter s) /\
  (ss s', aes_key s', retry_count s', pending_msg_type s', pending_msg_id s', waiting_response s') =
  (ss s, aes_key s, retry_count s, pending_msg_type s, pending_msg_id s, waiting_response s).
Proof. intros [_ ->]. rsimpl. auto. Qed.

(** Statistics. *)
Lemma quiet_metrics s f :
  session_wf s -> snapshot_wf (f (metrics s)) -> quiet s (s <| metrics ::= f |>).
Proof. intros Hs Hf. split; [split; [destruct Hs; session_wf_tac|session_eq]|reflexivity]. Qed.

Lemma quiet_deadline s t : session_wf s -> quiet s (s <| retry_deadline := t |>).
Proof. intros Hs. split; [split; [destruct Hs; session_wf_tac|session_eq]|reflexivity]. Qed.
Lemma quiet_activity s t : session_wf s -> quiet s (s <| last_activity := t |>).
Proof. intros Hs. split; [split; [destruct Hs; session_wf_tac|session_eq]|reflexivity]. Qed.

Lemma wp_hs_stat f Q e s :
  session_wf s -> (forall m, snapshot_wf m -> snapshot_wf (m <| handshake ::= f |>)) ->
  (forall s', quiet s s' -> Q tt e s') -> wp (hs_stat f) Q e s.
Proof. intros Hs Hf HQ. apply wp_modify, HQ, quiet_metrics; [exact Hs|]. apply Hf, Hs. Qed.
Lemma wp_frag_stat f Q e s :
  session_wf s -> (forall m, snapshot_wf m -> snapshot_wf (m <| fragmentation ::= f |>)) ->
  (forall s', quiet s s' -> Q tt e s') -> wp (frag_stat f) Q e s.
Proof. intros Hs Hf HQ. apply wp_modify, HQ, quiet_metrics; [exact Hs|]. apply Hf, Hs. Qed.
Lemma wp_res_stat f Q e s :
  session_wf s -> (forall m, snapshot_wf m -> snapshot_wf (m <| resource ::= f |>)) ->
  (forall s', quiet s s' -> Q tt e s') -> wp (res_stat f) Q e s.
Proof. intros Hs Hf HQ. apply wp_modify, HQ, quiet_metrics; [exact Hs|]. apply Hf, Hs. Qed.

(** Timers. *)
Lemma wp_touch Q e s :
  session_wf s -> (forall e' s', quiet s s' -> Q tt e' s') -> wp session_touch Q e s.
Proof. intros Hs HQ. unfold session_touch. wp_steps. apply HQ, quiet_activity, Hs. Qed.
Lemma wp_set_deadline d Q e s :
  session_wf s -> (forall e' s', quiet s s' -> Q tt e' s') -> wp (set_deadline d) Q e s.
Proof. intros Hs HQ. unfold set_deadline. wp_steps. apply HQ, quiet_deadline, Hs. Qed.

Lemma wp_next_msg_id Q e s :
  session_wf s -> (forall s', chatter s s' -> next_msg_id s' = u8 (next_msg_id s + 1) -> Q (next_msg_id s) e s') ->
  wp session_next_msg_id Q e s.
Proof.
  intros Hs HQ. unfold session_next_msg_id. wp_steps. apply HQ; [|reflexivity].
  split; [destruct Hs; session_wf_tac|session_eq].
Qed.

(** Waiting for an answer to a message. *)
Definition pending_session (s : session_t) (msg_type msg_id : Z) : session_t :=
  s <| pending_msg_type := msg_type |> <| pending_msg_id := msg_id |> <| waiting_response := 1 |>.

Lemma pending_session_wf s mt mid : session_wf s -> is_u8 mt -> is_u8 mid -> session_wf (pending_session s mt mid).
Proof. intros Hs Ht Hi. unfold pending_session. destruct Hs. session_wf_tac. Qed.

Lemma wp_set_pending mt mid Q e s :
  session_wf s -> is_u8 mt -> is_u8 mid ->
  (forall e' s', quiet (pending_session s mt mid) s' -> Q tt e' s') ->
  wp (session_set_pending mt mid) Q e s.
Proof.
  intros Hs Ht Hi HQ. unfold session_set_pending. apply wp_bind, wp_modify, wp_bind, wp_clock_time, wp_bind, wp_modify.
  pose proof (pending_session_wf s mt mid Hs Ht Hi) as Hp.
  pose proof (quiet_deadline _ (uclk (uclk (e_clock e (e_reads e)) + SESSION_RETRY_TIMEOUT)) Hp) as Hq1.
  apply wp_touch; [apply Hq1|]. intros e1 s1 Hq2. apply HQ. exact (quiet_trans _ _ _ Hq1 Hq2).
Qed.

Lemma wp_set_pending_for_transfer mt mid len Q e s :
  session_wf s -> is_u8 mt -> is_u8 mid ->
  (forall e' s', quiet (pending_session s mt mid) s' -> Q tt e' s') ->
  wp (hs_set_pending_for_transfer mt mid len) Q e s.
Proof.
  intros Hs Ht Hi HQ. unfold hs_set_pending_for_transfer. apply wp_bind, wp_set_pending; [assumption..|].
  intros e1 s1 Hq1. apply wp_set_deadline; [apply Hq1|]. intros e2 s2 Hq2. apply HQ. exact (quiet_trans _ _ _ Hq1 Hq2).
Qed.

(** Counting a retry. *)
Definition retried_session (s : session_t) : session_t := s <| retry_count ::= (fun n => u8 (n + 1)) |>.

Lemma retried_session_wf s : session_wf s -> session_wf (retried_session s).
Proof. intros Hs. unfold retried_session. destruct Hs. session_wf_tac. Qed.

Lemma wp_mark_retry delay Q e s :
  session_wf s -> (forall e' s', quiet (retried_session s) s' -> Q tt e' s') ->
  wp (modify (fun s => s <| retry_count ::= (fun n => u8 (n + 1)) |>);;
      res_stat (fun r => r <| retries ::= inc32 |>);; set_deadline delay;; session_touch) Q e s.
Proof.
  intros Hs HQ. apply wp_bind, wp_modify, wp_bind. apply wp_res_stat; [apply retried_session_wf, Hs|intros; stat_words|].
  intros s1 Q1. apply wp_bind, wp_set_deadline; [apply Q1|]. intros e2 s2 Q2.
  apply wp_touch; [apply Q2|]. intros e3 s3 Q3. apply HQ.
  exact (quiet_trans _ _ _ Q1 (quiet_trans _ _ _ Q2 Q3)).
Qed.

(** A failed session: the state and the cleared pending message. *)
Definition cleared_session (s : session_t) : session_t :=
  s <| pending_msg_type := 0 |> <| pending_msg_id := 0 |> <| waiting_response := 0 |> <| retry_count := 0 |>.
Definition failed_session (s : session_t) : session_t :=
  cleared_session (s <| state := SESSION_STATE_FAILED |> <| established := 0 |>).
Definition established_session (s : session_t) : session_t :=
  cleared_session (s <| state := SESSION_STATE_ESTABLISHED |> <| established := 1 |>).

Lemma cleared_session_wf s : session_wf s -> session_wf (cleared_session s).
Proof. intros Hs. unfold cleared_session. destruct Hs. session_wf_tac. Qed.

Lemma with_state_wf s st es : session_wf s -> session_wf (s <| state := st |> <| established := es |>).
Proof. intros Hs. destruct Hs. session_wf_tac. Qed.

Lemma wp_set_failed Q e s :
  session_wf s -> (forall e' s', quiet (failed_session s) s' -> Q tt e' s') ->
  wp session_set_failed Q e s.
Proof.
  intros Hs HQ. unfold session_set_failed, session_clear_pending, on_metrics. apply wp_bind, wp_get.
  assert (Hfail : forall m, snapshot_wf m -> quiet (failed_session s) (failed_session (s <| metrics := m |>))).
  { intros m Hm. split; [split; [|unfold failed_session, cleared_session; session_eq]|reflexivity].
    apply cleared_session_wf, with_state_wf. destruct Hs. session_wf_tac. }
  destruct (session_is_failed s); wp_steps.
  - apply HQ. pose proof (Hfail (metrics s) (sw_metrics _ Hs)) as Hq.
    replace (s <| metrics := metrics s |>) with s in Hq by session_eq. exact Hq.
  - apply handshake_failure_wp; [apply Hs|]. intros e' m' Hm' _ _ _. wp_steps. apply HQ, Hfail, Hm'.
Qed.

Lemma wp_set_established Q e s :
  session_wf s -> Q tt e (established_session s) -> wp session_set_established Q e s.
Proof. intros Hs HQ. unfold session_set_established, session_clear_pending. wp_steps. exact HQ. Qed.

Lemma established_session_wf s : session_wf s -> session_wf (established_session s).
Proof. intros Hs. apply cleared_session_wf, with_state_wf, Hs. Qed.
Lemma failed_session_wf s : session_wf s -> session_wf (failed_session s).
Proof. intros Hs. apply cleared_session_wf, with_state_wf, Hs. Qed.

(** Handshake metrics as a whole. *)
Lemma wp_metrics_quiet (m : M pqc_metrics_snapshot_t unit) Q e s :
  session_wf s ->
  (forall e x, snapshot_wf x -> wp m (fun _ _ x' => snapshot_wf x') e x) ->
  (forall e' s', quiet s s' -> Q tt e' s') -> wp (on_metrics m) Q e s.
Proof.
  intros Hs Hm HQ. apply wp_zoom. eapply wp_mono; [|apply Hm, Hs].
  intros [] e' m' Hw. apply HQ. exact (quiet_metrics s (fun _ => m') Hs Hw).
Qed.

Lemma handshake_start_snapshot e m :
  snapshot_wf m -> wp pqc_metrics_handshake_start (fun _ _ m' => snapshot_wf m') e m.
Proof. intros Hm. apply wp_handshake_start. unfold snapshot_wf in *. cbn in Hm |- *. snapshot_words_tac. Qed.

Lemma handshake_success_snapshot e m :
  snapshot_wf m -> wp pqc_metrics_handshake_success (fun _ _ m' => snapshot_wf m') e m.
Proof.
  intros Hm. unfold pqc_metrics_handshake_success. apply wp_bind, wp_modify.
  set (m1 := m <| handshake ::= _ |>). assert (Hm1 : snapshot_wf m1)
    by (unfold m1, snapshot_wf in *; cbn in Hm |- *; snapshot_words_tac).
  clearbody m1. apply wp_ticks_update; [|intros _; exact Hm1|intros _].
  - unfold snapshot_wf in Hm1. cbn in Hm1. repeat apply list.Forall_cons in Hm1 as [? Hm1]. assumption.
  - set (d := u32 _). assert (Hd : is_u32 d) by apply u32_range.
    assert (Hx : is_u32 (Z.max d (handshake_ticks_max (handshake m1)))).
    { apply Z.max_case; [exact Hd|]. unfold snapshot_wf in Hm1. cbn in Hm1.
      repeat apply list.Forall_cons in Hm1 as [? Hm1]. assumption. }
    clearbody d. unfold snapshot_wf in *. cbn in Hm1 |- *. snapshot_words_tac.
Qed.

(** [stat_elapsed] on the world. *)
Lemma wp_stat_elapsed since set Q e s q h g :
  session_wf s -> (forall m, snapshot_wf m -> is_u32 (since (handshake m))) ->
  (forall t m, is_u32 t -> snapshot_wf m -> snapshot_wf (m <| handshake ::= set t |>)) ->
  (forall e' s', quiet s s' -> Q tt e' (mk_hs_world s' q h g)) ->
  wp (stat_elapsed since set) Q e (mk_hs_world s q h g).
Proof.
  intros Hs Hsince Hset HQ. unfold stat_elapsed. apply wp_bind, wp_on_s, wp_get.
  destruct (_ =? 0); cbn [negb]; [apply wp_ret, HQ, quiet_refl, Hs|].
  apply wp_bind, wp_elapsed; [apply Hsince, Hs|]. intros now e' _.
  apply wp_on_s, wp_hs_stat; [exact Hs|intros m; apply Hset, u32_range|]. intros s' Hq. apply HQ, Hq.
Qed.

(** ** Receive slots *)

(** A slot is free, as it is at boot, or holds a context of some session. *)
Definition slot_wf (sl : hs_rx_slot_t) : Prop :=
  sl = slot_free \/ (sl_active sl = 1 /\ is_Some (sl_owner sl) /\ rx_wf (sl_ctx sl)).

(** The two slots, never both of one session. *)
Definition slots_wf (l : list hs_rx_slot_t) : Prop :=
  exists a b, l = [a; b] /\ slot_wf a /\ slot_wf b /\
    (sl_active a = 1 -> sl_active b = 1 -> sl_owner a <> sl_owner b).

Record hs_wf (h : hs_state) : Prop := {
  hw_pk : Z.of_nat (length (root_pk h)) = CW_HQC_PUBLIC_KEY_LEN /\ all_bytes (root_pk h);
  hw_sk : Z.of_nat (length (root_sk h)) = CW_HQC_SECRET_KEY_LEN /\ all_bytes (root_sk h);
  hw_node_ct : Z.of_nat (length (node_ct h)) = CW_HQC_CIPHERTEXT_LEN /\ all_bytes (node_ct h);
  hw_root_ct : Z.of_nat (length (root_ct h)) = CW_HQC_CIPHERTEXT_LEN /\ all_bytes (root_ct h);
  hw_slots : slots_wf (rx_slots h);
}.

Lemma hs_boot_wf : hs_wf hs_boot.
Proof.
  constructor; try (split; [reflexivity|apply all_bytes_zeros]).
  exists slot_free, slot_free. split; [reflexivity|]. split; [left; reflexivity|]. split; [left; reflexivity|].
  intros [=].
Qed.

Lemma with_slots_wf h l : hs_wf h -> slots_wf l -> hs_wf (h <| rx_slots := l |>).
Proof. intros [] Hl. constructor; rsimpl; assumption. Qed.

Lemma slots_eq h l : rx_slots h = l -> h = h <| rx_slots := l |>.
Proof. intros <-. destruct h. reflexivity. Qed.

Lemma upto_slots : upto HS_RX_SLOT_COUNT = [0; 1].
Proof. reflexivity. Qed.

Lemma slot_active_01 sl : slot_wf sl -> (sl_active sl =? 0) = true /\ sl = slot_free \/
  (sl_active sl =? 0) = false /\ sl_active sl = 1.
Proof. intros [->|(Ha & _)]; [left; auto|right]. rewrite Ha. auto. Qed.

(** What garbage collection at [now] makes of a slot. *)
Definition gc_slot (now : Z) (sl : hs_rx_slot_t) : hs_rx_slot_t :=
  if negb (sl_active sl =? 0) && (HS_RX_TIMEOUT <? uclk (now - sl_started_at sl)) then slot_free else sl.

Lemma gc_slot_cases now sl : gc_slot now sl = sl \/ gc_slot now sl = slot_free.
Proof. unfold gc_slot. case_if; auto. Qed.

Lemma gc_slots_wf now l : slots_wf l -> slots_wf (gc_slot now <$> l).
Proof.
  intros (a & b & -> & Ha & Hb & Hne). exists (gc_slot now a), (gc_slot now b). split; [reflexivity|].
  destruct (gc_slot_cases now a) as [-> | ->], (gc_slot_cases now b) as [-> | ->];
    (split; [assumption || (left; reflexivity)|]; split; [assumption || (left; reflexivity)|];
     assumption || (intros; discriminate)).
Qed.

Ltac slot_steps :=
  repeat (cbn [for_each]; first
    [ wp_step
    | apply wp_lift; eexists; split; [reflexivity|]
    | progress unfold slot_at, slot_set, rx_of ]).

(** The slots of [h] are [a; b]. *)
Ltac with_slots h a b :=
  destruct h as [pk0 sk0 hk0 nct0 rct0 l0]; cbn [rx_slots] in *; subst l0.

Lemma wp_gc Q e h (now := uclk (e_clock e (e_reads e))) :
  slots_wf (rx_slots h) ->
  (forall e', Q tt e' (h <| rx_slots := gc_slot now <$> rx_slots h |>)) ->
  wp rx_slots_gc Q e h.
Proof.
  intros (a & b & Hl & _) HQ. with_slots h a b. unfold rx_slots_gc, gc_slot in *. fold now.
  rewrite upto_slots. cbn in HQ. apply wp_bind, wp_clock_time, wp_bind. fold now.
  slot_steps; match goal with H1 : _ = ?x, H2 : _ = ?y |- _ =>
    cbn in H1, H2; rewrite ?H1, ?H2 in HQ end; apply HQ.
Qed.

Section Slots.
Context (self : sref).

Lemma slot_owned_spec sl :
  slot_owned self sl = true <-> sl_active sl <> 0 /\ sl_owner sl = Some self.
Proof. unfold slot_owned. rewrite andb_true_iff, negb_true_iff, Z.eqb_neq, bool_decide_eq_true. tauto. Qed.

Lemma slot_owned_active sl : slot_wf sl -> slot_owned self sl = true -> sl_active sl = 1.
Proof.
  intros [->|(Ha & _)] Ho; [|exact Ha]. apply slot_owned_spec in Ho as [Ho _]. contradiction Ho. reflexivity.
Qed.

(** At most one slot is the session's. *)
Lemma slots_wf_owned a b :
  slots_wf [a; b] -> slot_owned self a = true -> slot_owned self b = false.
Proof.
  intros (a' & b' & [= <- <-] & Ha & Hb & Hne) Ho. destruct (slot_owned self b) eqn:Eb; [|reflexivity].
  exfalso. apply Hne; [exact (slot_owned_active a Ha Ho)|exact (slot_owned_active b Hb Eb)|].
  apply slot_owned_spec in Ho as [_ ->], Eb as [_ ->]. reflexivity.
Qed.

(** Replacing a busy slot by one of the same owner. *)
Lemma slots_wf_update l i sl sl' :
  slots_wf l -> at_index l i = Some sl -> sl_active sl = 1 ->
  sl_active sl' = 1 -> sl_owner sl' = sl_owner sl -> rx_wf (sl_ctx sl') ->
  slots_wf (<[Z.to_nat i := sl']> l).
Proof.
  intros (a & b & -> & Ha & Hb & Hne) Hi Hact Hact' Hown Hrx. apply at_index_some in Hi as [Hr Hi].
  assert (Hwf : slot_wf sl -> slot_wf sl').
  { intros [->|(_ & Ho & _)]; [discriminate|]. right. rewrite Hown. auto. }
  cbn in Hr. assert (i = 0 \/ i = 1) as [-> | ->] by lia; cbn in Hi; injection Hi as ->.
  - exists sl', b. split; [reflexivity|]. split; [auto|]. split; [exact Hb|]. rewrite Hown. auto.
  - exists a, sl'. split; [reflexivity|]. split; [exact Ha|]. split; [auto|]. rewrite Hown. auto.
Qed.

Lemma slot_at_owned l i sl : slots_wf l -> at_index l i = Some sl -> slot_owned self sl = true ->
  sl_active sl = 1 /\ rx_wf (sl_ctx sl).
Proof.
  intros (a & b & -> & Ha & Hb & _) Hi Ho. apply at_index_some in Hi as [Hr Hi]. cbn in Hr.
  assert (Hw : slot_wf sl) by (assert (i = 0 \/ i = 1) as [-> | ->] by lia; cbn in Hi; injection Hi as <-; assumption).
  split; [exact (slot_owned_active sl Hw Ho)|]. destruct Hw as [->|(_ & _ & Hx)]; [|exact Hx].
  apply rx_wf_init.
Qed.

Definition no_slot (l : list hs_rx_slot_t) : Prop := Forall (fun sl => slot_owned self sl = false) l.

Lemma wp_slot_find Q e h :
  slots_wf (rx_slots h) ->
  (forall i sl, at_index (rx_slots h) i = Some sl -> slot_owned self sl = true -> Q (Some i) e h) ->
  (no_slot (rx_slots h) -> Q None e h) ->
  wp (rx_slot_find self) Q e h.
Proof.
  intros (a & b & Hl & _) Hyes Hno. with_slots h a b. unfold rx_slot_find. rewrite upto_slots.
  destruct (slot_owned self a) eqn:Ea; [|destruct (slot_owned self b) eqn:Eb]; slot_steps; try discriminate;
    repeat match goal with Ho : (if ?c then _ else _) = _, Hc : ?c = _ |- _ => rewrite Hc in Ho end;
    try discriminate; repeat match goal with Ho : Some _ = Some _ |- _ => injection Ho as <- end.
  - apply (Hyes 0 a); [reflexivity|exact Ea].
  - apply (Hyes 1 b); [reflexivity|exact Eb].
  - apply Hno. repeat (apply list.Forall_cons; split; [assumption|]). apply list.Forall_nil. exact I.
Qed.

(** Releasing the session's slot. *)
Definition release_slot (sl : hs_rx_slot_t) : hs_rx_slot_t := if slot_owned self sl then slot_free else sl.

Lemma release_slots_wf l : slots_wf l -> slots_wf (release_slot <$> l) /\ no_slot (release_slot <$> l).
Proof.
  intros (a & b & -> & Ha & Hb & Hne). unfold release_slot. cbn. split.
  - destruct (slot_owned self a), (slot_owned self b); do 2 eexists; (split; [reflexivity|]);
      (split; [assumption || (left; reflexivity)|]); (split; [assumption || (left; reflexivity)|]);
      assumption || (intros; discriminate).
  - repeat (apply list.Forall_cons; split; [case_if; [reflexivity|assumption]|]). apply list.Forall_nil. exact I.
Qed.

Lemma wp_slot_release Q e h :
  slots_wf (rx_slots h) -> Q tt e (h <| rx_slots := release_slot <$> rx_slots h |>) ->
  wp (rx_slot_release self) Q e h.
Proof.
  intros Hw HQ. pose proof Hw as (a & b & Hl & _). with_slots h a b.
  unfold rx_slot_release. rewrite upto_slots. unfold release_slot in HQ. cbn in HQ.
  slot_steps; cbn in *; try (exact HQ).
  assert (Hb : slot_owned self b = false) by (apply (slots_wf_owned a b Hw); assumption).
  rewrite Hb in HQ. exact HQ.
Qed.

Lemma wp_slot_touch Q e h (now := uclk (e_clock e (e_reads e))) :
  slots_wf (rx_slots h) ->
  (forall e' l', slots_wf l' ->
     (forall i sl, at_index l' i = Some sl -> exists t, exists sl0, at_index (rx_slots h) i = Some sl0 /\
        sl = sl0 <| sl_started_at := t |>) ->
     Q tt e' (h <| rx_slots := l' |>)) ->
  wp (rx_slot_touch self) Q e h.
Proof.
  intros Hw HQ. pose proof Hw as (a & b & Hl & _). with_slots h a b.
  assert (Hself : forall sl : hs_rx_slot_t, sl = sl <| sl_started_at := sl_started_at sl |>) by (intros []; reflexivity).
  unfold rx_slot_touch. rewrite upto_slots. slot_steps; cbn in *.
  - apply (HQ _ [a <| sl_started_at := now |>; b]).
    + apply (slots_wf_update [a; b] 0 a); [exact Hw|reflexivity|..|reflexivity|];
        apply (slot_at_owned [a; b] 0 a Hw eq_refl); assumption.
    + intros i sl Hi. apply at_index_some in Hi as [Hr Hi]. cbn in Hr.
      assert (i = 0 \/ i = 1) as [-> | ->] by lia; cbn in Hi; injection Hi as <-; eexists; eexists;
        (split; [reflexivity|]); [reflexivity|apply Hself].
  - apply (HQ _ [a; b <| sl_started_at := now |>]).
    + apply (slots_wf_update [a; b] 1 b); [exact Hw|reflexivity|..|reflexivity|];
        apply (slot_at_owned [a; b] 1 b Hw eq_refl); assumption.
    + intros i sl Hi. apply at_index_some in Hi as [Hr Hi]. cbn in Hr.
      assert (i = 0 \/ i = 1) as [-> | ->] by lia; cbn in Hi; injection Hi as <-; eexists; eexists;
        (split; [reflexivity|]); [apply Hself|reflexivity].
  - apply (HQ _ [a; b] Hw). intros i sl Hi. exists (sl_started_at sl), sl. split; [exact Hi|apply Hself].
Qed.

(** A slot taken by the session at time [t]. *)
Definition fresh_slot (t : Z) : hs_rx_slot_t := mk_rx_slot 1 (Some self) t 0 0 0 fragment_rx_init.

Lemma fresh_slot_wf l i t :
  slots_wf l -> no_slot l -> at_index l i = Some slot_free -> slots_wf (<[Z.to_nat i := fresh_slot t]> l).
Proof.
  intros (a & b & -> & Ha & Hb & Hne) Hno Hi. apply at_index_some in Hi as [Hr Hi]. cbn in Hr.
  repeat apply list.Forall_cons in Hno as [? Hno].
  assert (Hf : slot_wf (fresh_slot t)) by (right; split; [reflexivity|split; [eexists; reflexivity|apply rx_wf_init]]).
  assert (Howner : forall x, slot_owned self x = false -> sl_active x = 1 -> sl_owner x <> Some self).
  { intros x Hx Hact He. enough (slot_owned self x = true) by congruence. apply slot_owned_spec. split; [lia|exact He]. }
  assert (i = 0 \/ i = 1) as [-> | ->] by lia; cbn in Hi; injection Hi as ->.
  - exists (fresh_slot t), b. split; [reflexivity|]. split; [exact Hf|]. split; [exact Hb|].
    intros _ Hact He. exact (Howner b ltac:(assumption) Hact (eq_sym He)).
  - exists a, (fresh_slot t). split; [reflexivity|]. split; [exact Ha|]. split; [exact Hf|].
    intros Hact _ He. exact (Howner a ltac:(assumption) Hact He).
Qed.

(** Allocation of a free slot. *)
Lemma wp_slot_alloc Q e h :
  slots_wf (rx_slots h) -> no_slot (rx_slots h) ->
  (forall i e', at_index (rx_slots h) i = Some slot_free ->
     let t := uclk (e_clock e (e_reads e)) in e' = e <| e_reads ::= Datatypes.S |> ->
     Q (Some i) e' (h <| rx_slots := <[Z.to_nat i := fresh_slot t]> (rx_slots h) |>)) ->
  (Forall (fun sl => sl_active sl = 1) (rx_slots h) -> Q None e h) ->
  wp (for_each (upto HS_RX_SLOT_COUNT) (fun i =>
        slot ← slot_at i;
        if sl_active slot =? 0
        then now ← clock_time;
             slot_set i (mk_rx_slot 1 (Some self) now 0 0 0 fragment_rx_init);;
             mret (Some i)
        else mret None)) Q e h.
Proof.
  intros (a & b & Hl & Ha & Hb & _) Hno Hyes Hfull. with_slots h a b. rewrite upto_slots.
  assert (Hzero : forall sl, slot_wf sl -> (sl_active sl =? 0) = true -> sl = slot_free).
  { intros sl Hw Hz. destruct (slot_active_01 sl Hw) as [[_ ?]|[Hn _]]; [assumption|congruence]. }
  slot_steps.
  - refine (Hyes 0 _ _ eq_refl). rewrite <- (Hzero a Ha ltac:(assumption)). reflexivity.
  - refine (Hyes 1 _ _ eq_refl). rewrite <- (Hzero b Hb ltac:(assumption)). reflexivity.
  - apply Hfull. assert (Hone : forall sl, slot_wf sl -> (sl_active sl =? 0) = false -> sl_active sl = 1).
    { intros sl Hw Hz. destruct (slot_active_01 sl Hw) as [[Hn _]|[_ ?]]; [congruence|assumption]. }
    repeat (apply list.Forall_cons; split; [auto|]). apply list.Forall_nil. exact I.
Qed.

Lemma wp_slot_get Q e h (l := gc_slot (uclk (e_clock e (e_reads e))) <$> rx_slots h) :
  slots_wf (rx_slots h) ->
  (forall e' i sl, at_index l i = Some sl -> slot_owned self sl = true ->
     Q (Some i) e' (h <| rx_slots := l |>)) ->
  (forall e' i t n, no_slot l -> at_index l i = Some slot_free ->
     (e_reads e <= n < e_reads e')%nat -> t = uclk (e_clock e n) ->
     slots_wf (<[Z.to_nat i := fresh_slot t]> l) ->
     Q (Some i) e' (h <| rx_slots := <[Z.to_nat i := fresh_slot t]> l |>)) ->
  (forall e', no_slot l -> Forall (fun sl => sl_active sl = 1) l -> Q None e' (h <| rx_slots := l |>)) ->
  wp (rx_slot_get self) Q e h.
Proof.
  intros Hw Hfound Halloc Hnone. unfold rx_slot_get. apply wp_bind.
  eapply wp_mono; [|apply (wp_timely _ (fun _ _ h' => h' = h <| rx_slots := l |>));
    [unfold rx_slots_gc, slot_at, slot_set; timely_tac|apply wp_gc; auto]].
  intros [] e1 h1 [[Hc1 Hr1] ->]. cbv beta. pose proof (gc_slots_wf (uclk (e_clock e (e_reads e))) _ Hw) as Hlw.
  fold l in Hlw. apply wp_bind.
  change (wp (rx_slot_find self) (fun a e' s' => wp (match a with Some i => mret (Some i) | None =>
      for_each (upto HS_RX_SLOT_COUNT) (fun i =>
        slot ← slot_at i;
        if sl_active slot =? 0
        then now ← clock_time;
             slot_set i (mk_rx_slot 1 (Some self) now 0 0 0 fragment_rx_init);;
             mret (Some i)
        else mret None) end) Q e' s') e1 (h <| rx_slots := l |>)).
  apply wp_slot_find; rsimpl; [exact Hlw|intros i sl Hi Ho; apply wp_ret, (Hfound _ _ sl Hi Ho)|].
  intros Hno. apply wp_slot_alloc; rsimpl; [exact Hlw|exact Hno| |].
  - intros i e2 Hi t ->. apply (Halloc _ _ _ (e_reads e1)); [exact Hno|exact Hi|cbn; lia| |].
    + unfold t. rewrite Hc1. reflexivity.
    + apply fresh_slot_wf; assumption.
  - intros Hfull. apply Hnone; assumption.
Qed.

(** Asking whether a NACK is due changes nothing. *)
Lemma wp_nack_due Q rx fi e h sl :
  slots_wf (rx_slots h) -> at_index (rx_slots h) rx = Some sl -> slot_owned self sl = true ->
  (forall r e', (r = true -> rx_bit (sl_ctx sl) (rx_total_frags (sl_ctx sl) - 1) <> 0) -> Q r e' h) ->
  wp (rx_slot_nack_due self rx fi) Q e h.
Proof.
  intros Hw Hi Ho HQ. destruct (slot_at_owned _ _ _ Hw Hi Ho) as [_ Hrx].
  assert (Hno : forall e', Q false e' h) by (intros; apply HQ; discriminate).
  pose proof Hw as (a & b & Hl & _). unfold rx_slot_nack_due, rx_of, slot_at.
  apply wp_bind, wp_clock_time, wp_bind, wp_bind, wp_bind, wp_get, wp_lift. exists sl. split; [exact Hi|].
  apply wp_ret. case_if; [apply wp_ret, Hno|]. case_bools.
  pose proof (wf_total _ Hrx). pose proof (wf_bitmap _ Hrx). rewrite FRAG_MAX_FRAGS_eq in *.
  destruct (cell_total (rx_bitmap (sl_ctx sl)) (rx_total_frags (sl_ctx sl) - 1)) as (v & Hv & _); [lia|].
  apply wp_bind, wp_lift. exists v. split; [exact Hv|]. case_if; [apply wp_ret, Hno|]. case_bools.
  assert (Hany : forall r e', Q r e' h) by (intros; apply HQ; intros _; unfold rx_bit; rewrite Hv; assumption).
  apply wp_bind, (wp_for_each_inv (fun _ h' => h' = h)); [reflexivity| |intros e' h' ->; apply wp_ret, Hany].
  intros i e' h' Hin ->. rewrite upto_slots in Hin. apply wp_bind, wp_bind, wp_get, wp_lift.
  destruct (at_index_total (rx_slots h) i) as [x Hx]; [rewrite Hl; cbn; set_unfold; lia|].
  exists x. split; [exact Hx|]. repeat case_if; apply wp_ret; (reflexivity || (apply wp_ret, Hany)).
Qed.

(** Noting a NACK. *)
Definition slot_noted (sl sl' : hs_rx_slot_t) : Prop :=
  sl' = sl <| sl_last_nack_at := sl_last_nack_at sl' |>
           <| sl_last_nack_received_frags := sl_last_nack_received_frags sl' |>
           <| sl_last_nack_missing_count := sl_last_nack_missing_count sl' |>.

Lemma slot_noted_refl sl : slot_noted sl sl.
Proof. destruct sl; reflexivity. Qed.

Lemma slots_noted_wf l rx sl sl' :
  slots_wf l -> at_index l rx = Some sl -> slot_owned self sl = true -> slot_noted sl sl' ->
  slots_wf (<[Z.to_nat rx := sl']> l).
Proof.
  intros Hw Hi Ho Hn. destruct (slot_at_owned _ _ _ Hw Hi Ho) as [Ha Hrx].
  apply (slots_wf_update l rx sl); try assumption; rewrite Hn; rsimpl; auto.
Qed.

Lemma wp_note_nack Q rx n e s q h g sl :
  session_wf s -> slots_wf (rx_slots h) -> at_index (rx_slots h) rx = Some sl -> slot_owned self sl = true ->
  (forall e' s' sl', quiet s s' -> slot_noted sl sl' ->
     Q tt e' (mk_hs_world s' q (h <| rx_slots := <[Z.to_nat rx := sl']> (rx_slots h) |>) g)) ->
  wp (rx_slot_note_nack self rx n) Q e (mk_hs_world s q h g).
Proof.
  intros Hs Hw Hi Ho HQ. unfold rx_slot_note_nack.
  assert (Hsame : h <| rx_slots := <[Z.to_nat rx := sl]> (rx_slots h) |> = h).
  { apply at_index_some in Hi as [_ Hi]. rewrite list_insert_id by exact Hi. destruct h; reflexivity. }
  case_if.
  { apply wp_ret. rewrite <- Hsame. apply HQ; [apply quiet_refl, Hs|apply slot_noted_refl]. }
  apply wp_bind.
  apply (wp_for_each (fun done e' w => w = mk_hs_world s q h g /\ ~ rx ∈ done)).
  - split; [reflexivity|]. intros Hn. inversion Hn.
  - intros done i rest Heq e' w [-> Hd]. apply wp_bind, wp_on_h. unfold slot_at. apply wp_bind, wp_get, wp_lift.
    assert (Hii : i ∈ upto HS_RX_SLOT_COUNT) by (rewrite Heq; apply elem_of_app; right; left).
    apply elem_of_upto in Hii. destruct (at_index_total (rx_slots h) i) as [x Hx].
    { destruct Hw as (a & b & -> & _). cbn. clia. }
    exists x. split; [exact Hx|]. destruct (Z.eqb_spec i rx) as [->|Hne].
    + assert (x = sl) as -> by congruence. rewrite Ho. cbn [andb].
      apply wp_bind, wp_clock_time, wp_bind, wp_on_h. unfold slot_set. apply wp_modify.
      apply wp_bind, wp_on_s, wp_modify, wp_bind, wp_on_s, wp_touch; [apply quiet_deadline, Hs|].
      intros e1 s1 Hq1. apply wp_ret. cbn [default]. apply wp_ret.
      apply HQ; [exact (quiet_trans _ _ _ (quiet_deadline s _ Hs) Hq1)|unfold slot_noted; rsimpl; reflexivity].
    + rewrite andb_false_r. apply wp_ret. split; [reflexivity|].
      rewrite elem_of_app, list_elem_of_singleton. intros [?|?]; [contradiction|congruence].
  - intros e' w [_ Hn]. contradiction Hn. apply elem_of_upto. apply at_index_some in Hi as [Hr _].
    destruct Hw as (a & b & Hl & _). rewrite Hl in Hr. cbn in Hr. clia.
Qed.

End Slots.

End World.
