(* ===== verification/HandshakeRules.v ===== *)
(** * Rules for the operations of the handshake

    Every function of [Handshake] runs without undefined behaviour from a
    well-formed world, keeps it well formed, and changes the session in one of a
    few ways: [session_effect].  The send function is [udp_send], the only one the
    program uses. *)

From S2P Require Import Prelude Platform Protocol Fragmentation Nack Metrics CryptoWorker Session TxQueue Telemetry Handshake HandshakeFacts.

Section Sending.
Context `{PlatformLaws} `{CryptoLaws} (ctx : pqc_udp_send_ctx_t).

(** ** Queueing a message *)

(** The queue entry of a datagram. *)
Definition pkt_entry (conn : nat) (dest : uip_ipaddr_t) (pkt : bytes) : pqc_tx_entry_t :=
  tx_new_entry conn dest pkt (Z.of_nat (length pkt)).

(** What queueing the datagrams [pkts] answers and does. *)
Definition message_sent (pkts : list bytes) (q : tx_state) (r : bool) (q' : tx_state) : Prop :=
  tx_wf q' /\ tx_last_node_id q' = tx_last_node_id q /\
  (ctx_null ctx = false -> tx_count q + Z.of_nat (length pkts) <= PQC_TX_QUEUE_SIZE -> r = true) /\
  (r = true -> exists conn dest, ctx = mk_send_ctx (Some conn) (Some dest) /\
     pending q' ≡ₚ (pkt_entry conn dest <$> pkts) ++ pending q).

Lemma header_valid_take buf n :
  10 <= n <= Z.of_nat (length buf) ->
  pqc_header_valid (Some (take (Z.to_nat n) buf)) n = pqc_header_valid (Some buf) n.
Proof.
  intros Hn. pose proof (cell_take buf [] (Z.to_nat n)) as Hc. rewrite app_nil_r in Hc.
  unfold pqc_header_valid. rewrite !Hc by clia. reflexivity.
Qed.

Lemma new_entry_take conn dest buf n :
  10 <= n <= Z.of_nat (length buf) ->
  tx_new_entry conn dest buf n = pkt_entry conn dest (take (Z.to_nat n) buf).
Proof.
  intros Hn. pose proof (cell_take buf [] (Z.to_nat n)) as Hc. rewrite app_nil_r in Hc.
  assert (Hl : Z.of_nat (length (take (Z.to_nat n) buf)) = n) by (rewrite length_take; lia).
  unfold pkt_entry. rewrite Hl. unfold tx_new_entry, pqc_header_get_node_id.
  rewrite !Hc by clia. rewrite take_take, Nat.min_id. reflexivity.
Qed.

Lemma frag_packet_valid data len mt nid mid flags i :
  0 < len <= FRAG_MAX_MESSAGE_LEN -> 0 <= i < fragment_tx_count len ->
  pqc_header_valid (Some (frag_packet data len mt nid mid flags i)) (10 + frag_len len i) = Some true.
Proof.
  intros Hl Hi. pose proof (frag_len_bounds len i Hl Hi) as [Hf _].
  unfold frag_packet. rewrite header_valid_eq by clia. f_equal. apply Z.leb_refl.
Qed.

Lemma frag_packets_length data len mt nid mid flags :
  0 < len <= FRAG_MAX_MESSAGE_LEN ->
  Z.of_nat (length (frag_packets data len mt nid mid flags)) = fragment_tx_count len.
Proof.
  intros Hl. destruct (tx_count_spec len Hl) as (_ & ? & _).
  unfold frag_packets. rewrite length_fmap, length_upto. lia.
Qed.

(** One datagram of a message. *)
Lemma wp_send_packet Q buf n pkt e s q h g :
  tx_wf q -> 10 <= n <= PQC_TX_MAX_PACKET_LEN -> n <= Z.of_nat (length buf) ->
  take (Z.to_nat n) buf = pkt -> pqc_header_valid (Some pkt) n = Some true ->
  (forall q' conn dest, ctx = mk_send_ctx (Some conn) (Some dest) -> tx_count q < PQC_TX_QUEUE_SIZE ->
     tx_added q q' (pkt_entry conn dest pkt) -> Q true e (mk_hs_world s q' h g)) ->
  (ctx_null ctx = true \/ tx_count q = PQC_TX_QUEUE_SIZE -> Q false e (mk_hs_world s q h g)) ->
  wp (udp_send ctx buf n) Q e (mk_hs_world s q h g).
Proof.
  intros Hq Hn Hb <- Hv Hyes Hno. unfold udp_send. apply wp_on_q, wp_send_fragment; [exact Hq|clia|].
  intros [] q' Hs.
  - destruct Hs as [(_ & _ & Hc & _) (conn & dest & Hctx & Hadd)]. rewrite new_entry_take in Hadd by lia.
    exact (Hyes q' conn dest Hctx Hc Hadd).
  - destruct Hs as [Hna ->]. apply Hno. destruct (ctx_null ctx) eqn:Ec; [auto|right].
    destruct (ctx_not_null ctx Ec) as (conn & dest & ->). pose proof (pending_bound q Hq).
    destruct (Z.ltb_spec (tx_count q) PQC_TX_QUEUE_SIZE); [|lia]. contradiction Hna.
    rewrite header_valid_take in Hv by lia. repeat split; cbn; eauto. lia.
Qed.

Lemma added_count q q' entry : tx_wf q -> tx_added q q' entry -> tx_count q' = tx_count q + 1.
Proof.
  intros Hq (Hw & _ & Hp & _). rewrite (qw_count _ Hw), (qw_count _ Hq), Hp. cbn [length]. lia.
Qed.

Lemma wp_send_message Q data len mt nid mid flags e s q h g :
  0 < len <= FRAG_MAX_MESSAGE_LEN -> len <= Z.of_nat (length data) -> tx_wf q ->
  (forall r q', message_sent (frag_packets data len mt nid mid flags) q r q' ->
     Q r e (mk_hs_world s q' h g)) ->
  wp (fragment_tx (Some data) len mt nid mid flags (Some (udp_send ctx))) Q e (mk_hs_world s q h g).
Proof.
  intros Hlen Hd Hq HQ. pose proof (frag_packets_length data len mt nid mid flags Hlen) as Hpl.
  apply (wp_fragment_tx (fun sent e' w => e' = e /\ exists q', w = mk_hs_world s q' h g /\ tx_wf q' /\
    tx_last_node_id q' = tx_last_node_id q /\ tx_count q' = tx_count q + Z.of_nat (length sent) /\
    (sent <> [] -> exists conn dest, ctx = mk_send_ctx (Some conn) (Some dest)) /\
    (forall conn dest, ctx = mk_send_ctx (Some conn) (Some dest) ->
       pending q' ≡ₚ (pkt_entry conn dest <$> sent) ++ pending q))); [exact Hlen|exact Hd| | |].
  - split; [reflexivity|]. exists q. split_and!; try reflexivity; [exact Hq|cbn; lia|contradiction].
  - intros sent i buf n e' w Hi Hil -> Hbl Htk [-> (q1 & -> & Hw1 & Hl1 & Hc1 & Hn1 & Hp1)].
    pose proof (frag_len_bounds len i Hlen Hi) as [Hf _].
    eapply wp_send_packet; [exact Hw1|clia|lia|exact Htk|apply frag_packet_valid; assumption| |].
    + intros q2 conn dest Hctx _ Hadd. pose proof Hadd as (Hw2 & _ & Hp2 & Hl2). split; [reflexivity|].
      exists q2. split_and!; try reflexivity; [exact Hw2|congruence| |eauto|].
      * rewrite (added_count _ _ _ Hw1 Hadd), length_app. cbn [length]. lia.
      * intros conn' dest' Hctx'. rewrite Hctx in Hctx'. injection Hctx' as <- <-.
        rewrite Hp2, (Hp1 conn dest Hctx), fmap_app, <- app_assoc. cbn. apply Permutation_middle.
    + intros Hwhy. apply HQ. split_and!; [exact Hw1|exact Hl1| |discriminate].
      intros Hnn Hroom. destruct Hwhy as [?|Hfull]; [congruence|]. rewrite Hpl in Hroom. lia.
  - intros e' w [-> (q1 & -> & Hw1 & Hl1 & Hc1 & Hn1 & Hp1)]. apply HQ.
    split_and!; [exact Hw1|exact Hl1|reflexivity|]. intros _.
    destruct Hn1 as (conn & dest & Hctx).
    { intros Hnil. rewrite Hnil in Hpl. destruct (tx_count_spec len Hlen) as (_ & ? & _). cbn in Hpl. lia. }
    exists conn, dest. auto.
Qed.

(** [tx_has_room_for]. *)
Lemma wp_room Q len e s q h g :
  tx_wf q -> 0 < len <= FRAG_MAX_MESSAGE_LEN ->
  Q (tx_count q + fragment_tx_count len <=? PQC_TX_QUEUE_SIZE) e (mk_hs_world s q h g) ->
  wp (tx_has_room_for len) Q e (mk_hs_world s q h g).
Proof.
  intros Hq Hl HQ. unfold tx_has_room_for. apply wp_bind, wp_on_q, wp_get, wp_ret.
  destruct (tx_count_spec len Hl) as (_ & Hr & _). pose proof (pending_bound q Hq).
  rewrite (proj2 (Z.eqb_neq _ _)) by lia. cbn [negb andb]. unfold pqc_tx_free_slots. rewrite u8_id by clia.
  replace (fragment_tx_count len <=? PQC_TX_QUEUE_SIZE - tx_count q)
    with (tx_count q + fragment_tx_count len <=? PQC_TX_QUEUE_SIZE); [exact HQ|].
  destruct (Z.leb_spec (fragment_tx_count len) (PQC_TX_QUEUE_SIZE - tx_count q)),
    (Z.leb_spec (tx_count q + fragment_tx_count len) PQC_TX_QUEUE_SIZE); lia || reflexivity.
Qed.

(** ** Acknowledgements and NACKs *)

Definition ack_packet (s : session_t) (confirmed : Z) : bytes :=
  frag_packet [confirmed] 1 HS_MSG_ACK (node_id s) (next_msg_id s) PQC_FLAG_NONE 0.

(** What [send_ack] answers and does. *)
Definition ack_sent (confirmed : Z) (s : session_t) (q : tx_state) (r : bool) (s' : session_t) (q' : tx_state) : Prop :=
  chatter s s' /\ tx_wf q' /\ tx_last_node_id q' = tx_last_node_id q /\
  (ctx_null ctx = false -> tx_count q < PQC_TX_QUEUE_SIZE -> r = true) /\
  (r = true -> next_msg_id s' = u8 (next_msg_id s + 1) /\ exists conn dest,
     ctx = mk_send_ctx (Some conn) (Some dest) /\
     pending q' ≡ₚ pkt_entry conn dest (ack_packet s confirmed) :: pending q).

Lemma wp_send_ack Q confirmed e s q h g :
  session_wf s -> tx_wf q ->
  (forall r s' q', ack_sent confirmed s q r s' q' -> Q r e (mk_hs_world s' q' h g)) ->
  wp (send_ack (udp_send ctx) confirmed) Q e (mk_hs_world s q h g).
Proof.
  intros Hs Hq HQ. unfold send_ack. apply wp_bind, wp_room; [exact Hq|clia|].
  change (fragment_tx_count 1) with 1. destruct (Z.leb_spec (tx_count q + 1) PQC_TX_QUEUE_SIZE) as [Hroom|Hfull]; cbn [negb].
  2: { apply wp_ret, HQ. split_and!; [apply chatter_refl, Hs|exact Hq|reflexivity|lia|discriminate]. }
  apply wp_bind, wp_on_s, wp_get, wp_bind, wp_on_s, wp_next_msg_id; [exact Hs|]. intros s1 Hc1 Hn1.
  apply wp_bind, wp_on_s, wp_hs_stat; [apply Hc1|stat_words|]. intros s2 [Hc2 Hn2].
  apply wp_send_message; [clia|cbn; lia|exact Hq|]. intros r q' (Hw & Hl & Hr & Hp). apply HQ.
  split_and!; [exact (chatter_trans _ _ _ Hc1 Hc2)|exact Hw|exact Hl| |].
  - intros Hnn _. apply Hr; [exact Hnn|exact Hroom].
  - intros ->. destruct (Hp eq_refl) as (conn & dest & Hctx & Hperm). split; [congruence|].
    exists conn, dest. split; [exact Hctx|exact Hperm].
Qed.

(** What [send_nack] may do. *)
Lemma wp_send_nack Q rx e s q h g sl :
  session_wf s -> tx_wf q -> at_index (rx_slots h) rx = Some sl -> rx_wf (sl_ctx sl) ->
  (forall n s' q', chatter s s' -> tx_wf q' ->
     (ctx_null ctx = false -> tx_count q < PQC_TX_QUEUE_SIZE -> rx_active (sl_ctx sl) = 1 ->
      rx_missing (sl_ctx sl) <> [] -> n <> 0) -> Q n e (mk_hs_world s' q' h g)) ->
  wp (send_nack (udp_send ctx) rx) Q e (mk_hs_world s q h g).
Proof.
  intros Hs Hq Hi Hrx HQ. unfold send_nack, rx_of, slot_at.
  assert (Hz : ~ (ctx_null ctx = false /\ tx_count q < PQC_TX_QUEUE_SIZE /\ rx_active (sl_ctx sl) = 1 /\
    rx_missing (sl_ctx sl) <> []) -> Q 0 e (mk_hs_world s q h g)).
  { intros Hn. apply HQ; [apply chatter_refl, Hs|exact Hq|]. intros. contradiction Hn. auto. }
  apply wp_bind, wp_on_h, wp_bind, wp_bind, wp_get, wp_lift. exists sl. split; [exact Hi|].
  apply wp_ret, wp_bind, wp_lift. destruct (wf_active _ Hrx) as [[Ha _]|[Ha Ht]].
  { eexists. split; [unfold pqc_nack_build_from_rx; rewrite Ha; reflexivity|]. apply wp_ret, Hz. lia. }
  rewrite nack_build_16 by assumption. eexists. split; [reflexivity|].
  set (l := take 16 (rx_missing (sl_ctx sl))). assert (Hll : (length l <= 16)%nat) by (unfold l; rewrite length_take; lia).
  cbv beta iota. destruct (Z.eqb_spec (Z.of_nat (length l)) 0) as [Hl0|Hl0].
  { apply wp_ret, Hz. intros (_ & _ & _ & Hm). unfold l in Hl0. rewrite length_take in Hl0.
    destruct (rx_missing (sl_ctx sl)); [contradiction|cbn [length] in Hl0; lia]. }
  apply wp_bind, wp_lift. eexists. split; [apply nack_encode_eq; rewrite ?length_zeros; clia|].
  cbv beta iota. rewrite (proj2 (Z.eqb_neq _ _)) by lia. apply wp_bind, wp_room; [exact Hq|clia|].
  set (len := 4 + Z.of_nat (length l)). assert (Hlen : 0 < len <= 20) by (unfold len; lia).
  assert (Hone : fragment_tx_count len = 1) by (destruct (tx_count_spec len) as (-> & _); [clia|]; symmetry; apply (Z.div_unique _ _ _ (len - 1)); lia).
  rewrite Hone. destruct (Z.leb_spec (tx_count q + 1) PQC_TX_QUEUE_SIZE); cbn [negb]; [|apply wp_ret, Hz; lia].
  apply wp_bind, wp_on_s, wp_get, wp_bind, wp_on_s, wp_next_msg_id; [exact Hs|]. intros s1 Hc1 _.
  apply wp_bind, wp_on_s, wp_frag_stat; [apply Hc1|stat_words|]. intros s2 [Hc2 _].
  apply wp_bind, wp_send_message; [clia| |exact Hq|].
  { unfold nack_payload. rewrite !length_app. cbn [length]. lia. }
  intros r q' (Hw & _ & Hr & _). pose proof (chatter_trans _ _ _ Hc1 Hc2) as Hc.
  destruct r; cbn [negb]; apply wp_ret, HQ; auto; try (intros; cbn; lia).
  intros Hnn _ _ _. rewrite frag_packets_length, Hone in Hr by clia. discriminate (Hr Hnn ltac:(lia)).
Qed.

(** ** Retransmission *)

(** What sending one fragment answers and does. *)
Lemma wp_send_slice Q data len mt nid mid fi flags e s q h g :
  0 < len <= FRAG_MAX_MESSAGE_LEN -> len <= Z.of_nat (length data) ->
  0 <= fi < fragment_tx_count len -> tx_wf q ->
  (forall q' conn dest, ctx = mk_send_ctx (Some conn) (Some dest) -> tx_count q < PQC_TX_QUEUE_SIZE ->
     tx_added q q' (pkt_entry conn dest (frag_packet data len mt nid mid flags fi)) ->
     Q true e (mk_hs_world s q' h g)) ->
  (ctx_null ctx = true \/ tx_count q = PQC_TX_QUEUE_SIZE -> Q false e (mk_hs_world s q h g)) ->
  wp (send_fragment_slice (udp_send ctx) data len mt nid mid fi (fragment_tx_count len) flags) Q e
     (mk_hs_world s q h g).
Proof.
  intros Hlen Hd Hfi Hq Hyes Hno. unfold send_fragment_slice. change FRAG_MAX_PAYLOAD_LEN with 64.
  destruct (tx_count_spec len Hlen) as (_ & Htot & Hcov). pose proof (frag_len_bounds len fi Hlen Hfi) as [Hf Hfe].
  rewrite !(proj2 (Z.eqb_neq _ _)), (proj2 (Z.leb_gt _ fi)) by lia. cbn [orb].
  rewrite (u16_id (fi * 64)) by clia. rewrite (proj2 (Z.leb_gt _ _)) by lia.
  rewrite (u16_id (len - fi * 64)) by clia.
  replace (if 64 <? len - fi * 64 then 64 else len - fi * 64) with (frag_len len fi).
  2: { unfold frag_len, FRAG_MAX_PAYLOAD_LEN. case_if; case_bools; lia. }
  rewrite u8_id by clia.
  destruct (tx_iteration data len mt nid mid flags fi (zeros (FRAG_HEADER_LEN + 64)) Hlen Hd Hfi eq_refl)
    as (frag1 & pay & buf & E1 & E2 & E3 & Hbl & Htk).
  apply wp_bind, wp_lift. exists frag1. split; [exact E1|]. apply wp_bind, wp_lift. exists pay. split; [exact E2|].
  apply wp_bind, wp_lift. exists buf. split; [exact E3|]. rewrite u16_id by clia.
  eapply wp_send_packet; [exact Hq|clia|clia|exact Htk|apply frag_packet_valid; assumption|exact Hyes|exact Hno].
Qed.

(** A fragment index behind the message is refused at once. *)
Lemma slice_refused (data : bytes) len mt nid mid fi tf flags :
  tf <= fi -> send_fragment_slice (udp_send ctx) data len mt nid mid fi tf flags = mret false.
Proof.
  intros Hfi. unfold send_fragment_slice. rewrite (proj2 (Z.leb_le _ _)) by exact Hfi.
  rewrite orb_true_r. reflexivity.
Qed.

(** Sending the packets one by one. *)
Lemma message_sent_nil q : tx_wf q -> forall conn dest, ctx = mk_send_ctx (Some conn) (Some dest) ->
  message_sent [] q true q.
Proof. intros Hq conn dest Hctx. split_and!; auto. intros _. exists conn, dest. auto. Qed.

Lemma wp_retransmit_loop Q data len mt nid mid l e s q h g :
  0 < len <= FRAG_MAX_MESSAGE_LEN -> len <= Z.of_nat (length data) ->
  1 <= Z.of_nat (length l) <= 16 -> (forall i, i ∈ l -> 0 <= i < fragment_tx_count len) -> tx_wf q ->
  (forall r q', message_sent (frag_packet data len mt nid mid PQC_FLAG_RETRY <$> l) q r q' ->
     Q r e (mk_hs_world s q' h g)) ->
  wp (retransmit_loop (udp_send ctx) (nack_of mt mid (fragment_tx_count len) l) data len nid (fragment_tx_count len))
     Q e (mk_hs_world s q h g).
Proof.
  intros Hlen Hd Hl Hin Hq HQ. unfold retransmit_loop. set (pkt := frag_packet data len mt nid mid PQC_FLAG_RETRY) in *.
  assert (Hcell : forall i, 0 <= i < Z.of_nat (length l) ->
    exists f, cell (missing (nack_of mt mid (fragment_tx_count len) l)) i = Some f /\ l !! Z.to_nat i = Some f /\
      0 <= f < fragment_tx_count len).
  { intros i Hi. destruct (lookup_lt_is_Some_2 l (Z.to_nat i)) as [f Hf]; [lia|]. exists f.
    unfold nack_of. cbn [missing]. rewrite cell_lookup, lookup_app_l by lia. split; [exact Hf|]. split; [exact Hf|].
    apply Hin. exact (list_elem_of_lookup_2 _ _ _ Hf). }
  change (missing_count _) with (Z.of_nat (length l)). apply wp_bind.
  apply (wp_for_each (fun done e' w => e' = e /\ exists q', w = mk_hs_world s q' h g /\ tx_wf q' /\
    tx_last_node_id q' = tx_last_node_id q /\ tx_count q' = tx_count q + Z.of_nat (length done) /\
    (done <> [] -> exists conn dest, ctx = mk_send_ctx (Some conn) (Some dest)) /\
    (forall conn dest, ctx = mk_send_ctx (Some conn) (Some dest) ->
       pending q' ≡ₚ (pkt_entry conn dest <$> (pkt <$> take (length done) l)) ++ pending q))).
  - split; [reflexivity|]. exists q. split_and!; try reflexivity; [exact Hq|cbn; lia|contradiction].
  - intros done i rest Heq e' w [-> (q1 & -> & Hw1 & Hl1 & Hc1 & Hn1 & Hp1)].
    assert (Hi : upto (Z.of_nat (length l)) !! length done = Some i) by (rewrite Heq; apply list_lookup_middle; reflexivity).
    apply lookup_seqZ in Hi as [Hi Hil]. destruct (Hcell i ltac:(lia)) as (f & Ef & Elf & Hf).
    apply wp_bind, wp_lift. exists f. split; [exact Ef|]. apply wp_bind.
    apply wp_send_slice; [exact Hlen|exact Hd|exact Hf|exact Hw1| |].
    + intros q2 conn dest Hctx _ Hadd. pose proof Hadd as (Hw2 & _ & Hp2 & Hl2). apply wp_ret. split; [reflexivity|].
      exists q2. rewrite length_app. cbn [length]. split_and!; try reflexivity; [exact Hw2|congruence| |eauto|].
      * rewrite (added_count _ _ _ Hw1 Hadd). lia.
      * intros conn' dest' Hctx'. rewrite Hctx in Hctx'. injection Hctx' as <- <-.
        rewrite Nat.add_1_r, (take_S_r _ _ f) by (replace (length done) with (Z.to_nat i) by lia; exact Elf).
        rewrite Hp2, (Hp1 conn dest Hctx), !fmap_app, <- app_assoc. cbn. apply Permutation_middle.
    + intros Hwhy. apply wp_ret, wp_ret, HQ. split_and!; [exact Hw1|exact Hl1| |discriminate].
      intros Hnn Hroom. rewrite length_fmap in Hroom. destruct Hwhy as [?|Hfull]; [congruence|]. lia.
  - intros e' w [-> (q1 & -> & Hw1 & Hl1 & Hc1 & Hn1 & Hp1)]. rewrite length_upto, Nat2Z.id in *.
    apply wp_ret, HQ. split_and!; [exact Hw1|exact Hl1|reflexivity|]. intros _.
    destruct Hn1 as (conn & dest & Hctx); [intros Hnil; apply (f_equal length) in Hnil; rewrite length_upto in Hnil; cbn in Hnil; lia|].
    exists conn, dest. split; [exact Hctx|]. rewrite (Hp1 conn dest Hctx), firstn_all. reflexivity.
Qed.

(** What [retransmit_nack_fragments] does with a decoded NACK. *)
Definition nack_answered (mt mid tf : Z) (l : list Z) (s : session_t) (q : tx_state) (h : hs_state)
    (r : bool) (q' : tx_state) : Prop :=
  if (mid =? pending_msg_id s) && (mt =? pending_msg_type s) then
    match nack_source s h with
    | Some (data, len) =>
        if tf =? fragment_tx_count len then
          if pqc_tx_free_slots q <? Z.of_nat (length l) then r = true /\ q' = q
          else message_sent (frag_packet data len mt (node_id s) mid PQC_FLAG_RETRY <$> l) q r q'
        else r = false /\ q' = q
    | None => r = false /\ q' = q
    end
  else r = false /\ q' = q.

Lemma nack_source_len s h data len :
  hs_wf h -> nack_source s h = Some (data, len) ->
  0 < len <= FRAG_MAX_MESSAGE_LEN /\ len <= Z.of_nat (length data).
Proof.
  intros Hh. unfold nack_source. destruct (hw_pk _ Hh) as [Hp _], (hw_node_ct _ Hh) as [Hc _].
  repeat case_if; intros [= <- <-]; clia.
Qed.

Lemma wp_retransmit Q mt mid tf l e s q h g :
  session_wf s -> tx_wf q -> hs_wf h ->
  1 <= Z.of_nat (length l) <= 16 -> (forall i, i ∈ l -> 0 <= i < tf) ->
  (forall r e' s' q', quiet s s' -> tx_wf q' -> nack_answered mt mid tf l s q h r q' ->
     Q r e' (mk_hs_world s' q' h g)) ->
  wp (retransmit_nack_fragments (udp_send ctx) (nack_of mt mid tf l)) Q e (mk_hs_world s q h g).
Proof.
  intros Hs Hq Hh Hl Hin HQ. unfold retransmit_nack_fragments.
  apply wp_bind, wp_on_s, wp_frag_stat; [exact Hs|stat_words|]. intros s1 Q1.
  destruct (chatter_fields _ _ (quiet_chatter _ _ Q1)) as [F1 F2]. injection F1 as Fu Fn Fr _ _ _ _. injection F2 as _ _ _ Fpt Fpi _.
  apply wp_bind, wp_on_s, wp_get, wp_bind, wp_on_h, wp_get.
  cbn [missing_msg_id missing_msg_type nk_total_frags missing_count nack_of].
  assert (Hsrc : nack_source s1 h = nack_source s h)
    by (unfold nack_source, session_is_root, session_is_node; rewrite Fr, Fpt; reflexivity).
  rewrite Fpt, Fpi, Hsrc, Fn. unfold nack_answered in HQ.
  destruct (mid =? pending_msg_id s), (mt =? pending_msg_type s); cbn [negb orb andb] in *;
    try (apply wp_ret, HQ; auto; fail).
  destruct (nack_source s h) as [[data len]|] eqn:Esrc; [|apply wp_ret, HQ; auto].
  destruct (nack_source_len s h data len Hh Esrc) as [Hlen Hd]. cbv zeta.
  destruct (tx_count_spec len Hlen) as (_ & Htot & _). rewrite (proj2 (Z.eqb_neq _ 0)) by lia. cbn [orb].
  destruct (Z.eqb_spec tf (fragment_tx_count len)) as [->|]; cbn [negb]; [|apply wp_ret, HQ; auto].
  apply wp_bind, wp_on_q, wp_get. destruct (pqc_tx_free_slots q <? Z.of_nat (length l)).
  { apply wp_bind, wp_on_s, wp_set_deadline; [apply Q1|]. intros e2 s2 Q2. apply wp_ret, HQ; auto.
    exact (quiet_trans _ _ _ Q1 Q2). }
  apply wp_bind, wp_retransmit_loop; [exact Hlen|exact Hd|exact Hl|exact Hin|exact Hq|].
  intros r q' Hsent. assert (Hq' : tx_wf q') by apply Hsent. destruct r; cbn [negb]; [|apply wp_ret, HQ; auto].
  apply wp_bind, wp_on_s, wp_frag_stat; [apply Q1|stat_words|]. intros s2 Q2.
  apply wp_bind, wp_on_s, wp_set_deadline; [apply Q2|]. intros e3 s3 Q3.
  apply wp_bind, wp_on_s, wp_touch; [apply Q3|]. intros e4 s4 Q4. apply wp_ret, HQ; auto.
  exact (quiet_trans _ _ _ (quiet_trans _ _ _ Q1 Q2) (quiet_trans _ _ _ Q3 Q4)).
Qed.

(** ** Complete messages *)

(** Chatter commutes with the state changes. *)
Ltac chatter_lift :=
  let Hw := fresh "Hw" in let E := fresh "E" in
  intros [Hw E]; split;
  [destruct Hw; session_wf_tac
  |apply session_ext; rsimpl; try reflexivity; rewrite E; rsimpl; reflexivity].

Lemma chatter_state st s s' :
  chatter s s' -> chatter (s <| state := st |>) (s' <| state := st |>).
Proof. chatter_lift. Qed.
Lemma chatter_established es s s' :
  chatter s s' -> chatter (s <| established := es |>) (s' <| established := es |>).
Proof. chatter_lift. Qed.
Lemma chatter_cleared s s' : chatter s s' -> chatter (cleared_session s) (cleared_session s').
Proof. unfold cleared_session. chatter_lift. Qed.
Lemma chatter_pending mt mid s s' :
  is_u8 mt -> is_u8 mid -> chatter s s' -> chatter (pending_session s mt mid) (pending_session s' mt mid).
Proof. intros Ht Hi. unfold pending_session. chatter_lift. Qed.
Lemma chatter_failed s s' : chatter s s' -> chatter (failed_session s) (failed_session s').
Proof. intros Hc. apply chatter_cleared, chatter_established, chatter_state, Hc. Qed.
Lemma chatter_done s s' : chatter s s' -> chatter (established_session s) (established_session s').
Proof. intros Hc. apply chatter_cleared, chatter_established, chatter_state, Hc. Qed.

(** New secrets. *)
Definition with_secrets (s : session_t) (secret key : bytes) : session_t :=
  s <| ss := secret |> <| aes_key := key |>.
Lemma chatter_secrets secret key s s' :
  is_secret secret -> is_aes_key key -> chatter s s' ->
  chatter (with_secrets s secret key) (with_secrets s' secret key).
Proof. intros Hs Hk. unfold with_secrets. chatter_lift. Qed.
Lemma with_secrets_wf s secret key :
  session_wf s -> is_secret secret -> is_aes_key key -> session_wf (with_secrets s secret key).
Proof. intros Hs Hsec Hk. unfold with_secrets. destruct Hs. session_wf_tac. Qed.
Lemma with_secrets_same s : with_secrets s (ss s) (aes_key s) = s.
Proof. unfold with_secrets. session_eq. Qed.

(** The node waits for the acknowledgement of ciphertext [mid]. *)
Definition ct_session (s : session_t) (mid : Z) : session_t :=
  pending_session ((cleared_session s) <| state := SESSION_STATE_WAIT_ACK |>) HS_MSG_CT mid.

Definition ct_packets (s : session_t) (h : hs_state) (mid : Z) : list bytes :=
  frag_packets (node_ct h) CW_HQC_CIPHERTEXT_LEN HS_MSG_CT (node_id s) mid PQC_FLAG_NONE.

Lemma chatter_id s s' : chatter s s' -> node_id s' = node_id s.
Proof. intros Hc. destruct (chatter_fields _ _ Hc) as [[= _ F _ _ _ _ _] _]. exact F. Qed.

Lemma wp_zero_node_ct Q e s q h g :
  hs_wf h -> (hs_wf (h <| node_ct := zeros CW_HQC_CIPHERTEXT_LEN |>) ->
    Q tt e (mk_hs_world s q (h <| node_ct := zeros CW_HQC_CIPHERTEXT_LEN |>) g)) ->
  wp zero_node_ct Q e (mk_hs_world s q h g).
Proof.
  intros Hh HQ. unfold zero_node_ct. destruct (hw_node_ct _ Hh) as [Hl _].
  apply wp_bind, wp_on_h, wp_get, wp_bind, wp_lift. eexists. split; [apply secure_zero_eq; symmetry; exact Hl|].
  apply wp_on_h, wp_modify, HQ. destruct Hh. constructor; rsimpl; try assumption.
  split; [reflexivity|apply all_bytes_zeros].
Qed.

Lemma wp_zero_root_ct Q e s q h g :
  hs_wf h -> (hs_wf (h <| root_ct := zeros CW_HQC_CIPHERTEXT_LEN |>) ->
    Q tt e (mk_hs_world s q (h <| root_ct := zeros CW_HQC_CIPHERTEXT_LEN |>) g)) ->
  wp zero_root_ct Q e (mk_hs_world s q h g).
Proof.
  intros Hh HQ. unfold zero_root_ct. destruct (hw_root_ct _ Hh) as [Hl _].
  apply wp_bind, wp_on_h, wp_get, wp_bind, wp_lift. eexists. split; [apply secure_zero_eq; symmetry; exact Hl|].
  apply wp_on_h, wp_modify, HQ. destruct Hh. constructor; rsimpl; try assumption.
  split; [reflexivity|apply all_bytes_zeros].
Qed.

(** What [send_ciphertext] answers and does. *)
Definition ct_sent (s : session_t) (q : tx_state) (h : hs_state) (r : bool) (s' : session_t)
    (q' : tx_state) (h' : hs_state) : Prop :=
  tx_wf q' /\ hs_wf h' /\
  (ctx_null ctx = false -> tx_count q + 71 <= PQC_TX_QUEUE_SIZE -> r = true) /\
  if r then h' = h /\ chatter (ct_session s (next_msg_id s)) s' /\
    exists conn dest, ctx = mk_send_ctx (Some conn) (Some dest) /\
      pending q' ≡ₚ (pkt_entry conn dest <$> ct_packets s h (next_msg_id s)) ++ pending q
  else h' = h <| node_ct := zeros CW_HQC_CIPHERTEXT_LEN |> /\ chatter (failed_session s) s'.

Lemma wp_send_ciphertext Q e s q h g :
  session_wf s -> tx_wf q -> hs_wf h ->
  (forall r e' s' q' h', ct_sent s q h r s' q' h' -> Q r e' (mk_hs_world s' q' h' g)) ->
  wp (send_ciphertext (udp_send ctx)) Q e (mk_hs_world s q h g).
Proof.
  intros Hs Hq Hh HQ. unfold send_ciphertext.
  apply wp_bind, wp_room; [exact Hq|clia|]. change (fragment_tx_count CW_HQC_CIPHERTEXT_LEN) with 71.
  destruct (Z.leb_spec (tx_count q + 71) PQC_TX_QUEUE_SIZE) as [Hroom|Hfull]; cbn [negb].
  2: { apply wp_bind, wp_zero_node_ct; [exact Hh|]. intros Hh'. apply wp_bind, wp_on_s, wp_set_failed; [exact Hs|].
       intros e1 s1 [C1 _]. apply wp_ret, HQ. split_and!; [exact Hq|exact Hh'|lia|reflexivity|exact C1]. }
  unfold session_clear_pending, session_set_wait_ack. apply wp_bind, wp_on_s, wp_modify.
  fold (cleared_session s). pose proof (cleared_session_wf s Hs) as Hcl.
  apply wp_bind, wp_on_s, wp_next_msg_id; [exact Hcl|]. intros s1 C1 _.
  change (next_msg_id (cleared_session s)) with (next_msg_id s).
  apply wp_bind, wp_on_s, wp_modify. apply (chatter_state SESSION_STATE_WAIT_ACK) in C1.
  pose proof (sw_msg_id _ Hs) as Hmid.
  apply wp_bind, wp_on_s, wp_set_pending_for_transfer; [apply C1|clia|exact Hmid|]. intros e2 s2 [C2 _].
  apply (chatter_pending HS_MSG_CT (next_msg_id s)) in C1; [|clia|exact Hmid].
  pose proof (chatter_trans _ _ _ C1 C2) as C. fold (ct_session s (next_msg_id s)) in C.
  apply wp_bind, wp_on_s, wp_hs_stat; [apply C|stat_words|]. intros s3 [C3 _].
  apply wp_bind, wp_clock_time, wp_bind, wp_on_s, wp_hs_stat; [apply C3|stat_words|]. intros s4 [C4 _].
  apply wp_bind, wp_on_s, wp_frag_stat; [apply C4|stat_words|]. intros s5 [C5 _].
  pose proof (chatter_trans _ _ _ C (chatter_trans _ _ _ C3 (chatter_trans _ _ _ C4 C5))) as C6.
  apply wp_bind, wp_on_s, wp_get, wp_bind, wp_on_h, wp_get.
  destruct (hw_node_ct _ Hh) as [Hctl _].
  apply wp_bind, wp_send_message; [clia|clia|exact Hq|]. intros r q' (Hw & Hl & Hr & Hp).
  assert (Hprog : ctx_null ctx = false -> tx_count q + 71 <= PQC_TX_QUEUE_SIZE -> r = true).
  { intros Hnn Hrm. apply Hr; [exact Hnn|]. rewrite frag_packets_length by clia. exact Hrm. }
  destruct r; cbn [negb].
  - apply wp_bind, wp_on_s, wp_get, wp_bind, wp_elapsed.
    { pose proof (sw_metrics _ (chatter_wf _ _ C6)) as Hm. unfold snapshot_wf in Hm. cbn in Hm.
      repeat apply list.Forall_cons in Hm as [? Hm]. assumption. }
    intros now e7 _. pose proof (u32_range (now - ct_tx_started_at (handshake (metrics s5)))) as Hu.
    apply wp_bind, wp_on_s, wp_hs_stat; [apply C6|stat_words|]. intros s7 [C7 _]. apply wp_ret, HQ.
    split_and!; [exact Hw|exact Hh|reflexivity|reflexivity|exact (chatter_trans _ _ _ C6 C7)|].
    destruct (Hp eq_refl) as (conn & dest & Hctx & Hperm). exists conn, dest. split; [exact Hctx|].
    rewrite Hperm. unfold ct_packets. rewrite (chatter_id _ _ C6). reflexivity.
  - apply wp_bind, wp_zero_node_ct; [exact Hh|]. intros Hh'. apply wp_bind, wp_on_s, wp_set_failed; [apply C6|].
    intros e7 s7 [C7 _]. apply wp_ret, HQ. split_and!; [exact Hw|exact Hh'|exact Hprog|reflexivity|].
    apply chatter_failed in C6. exact (chatter_trans _ _ _ C6 C7).
Qed.

(** ** The three messages of the handshake *)

Section Complete.
Context (self : sref).

Lemma wp_fail_release Q e s q h g :
  session_wf s -> hs_wf h ->
  (forall e' s', chatter (failed_session s) s' -> hs_wf (h <| rx_slots := release_slot self <$> rx_slots h |>) ->
     Q false e' (mk_hs_world s' q (h <| rx_slots := release_slot self <$> rx_slots h |>) g)) ->
  wp (fail_release self) Q e (mk_hs_world s q h g).
Proof.
  intros Hs Hh HQ. unfold fail_release. apply wp_bind, wp_on_s, wp_set_failed; [exact Hs|]. intros e1 s1 [C1 _].
  apply wp_bind, wp_on_h, wp_slot_release; [apply Hh|]. apply wp_ret, HQ; [exact C1|].
  apply with_slots_wf; [exact Hh|]. apply release_slots_wf, Hh.
Qed.

(** The public key in a complete context. *)
Definition rx_message (c : fragment_rx_ctx_t) (len : Z) : bytes := take (Z.to_nat len) (rx_buffer c).

Lemma rx_message_read c len :
  rx_wf c -> fragment_rx_complete c = true -> 0 <= len <= FRAG_MAX_MESSAGE_LEN ->
  mem_read (default [] (fragment_rx_data c)) 0 len = Some (rx_message c len).
Proof.
  intros Hc Hcomp Hl. unfold fragment_rx_data. rewrite Hcomp. change (default [] (Some (rx_buffer c))) with (rx_buffer c).
  apply mem_read_spec. rewrite (wf_buffer _ Hc), drop_0. repeat split; lia.
Qed.

(** What the node does with a complete public key. *)
Definition pk_handled (c : fragment_rx_ctx_t) (s : session_t) (q : tx_state) (h : hs_state) (g : prng_state)
    (r : bool) (s' : session_t) (q' : tx_state) (h' : hs_state) : Prop :=
  tx_wf q' /\ hs_wf h' /\ rx_slots h' = release_slot self <$> rx_slots h /\
  (root_pk h', root_sk h', root_has_keypair h') = (root_pk h, root_sk h, root_has_keypair h) /\
  let '(rc, ct, secret, _) := crypto_kem_enc g (rx_message c CW_HQC_PUBLIC_KEY_LEN) in
  (ctx_null ctx = false -> tx_count q + 71 <= PQC_TX_QUEUE_SIZE ->
     fragment_rx_len c = CW_HQC_PUBLIC_KEY_LEN -> rc = 0 -> r = true) /\
  if r then fragment_rx_len c = CW_HQC_PUBLIC_KEY_LEN /\ rc = 0 /\ node_ct h' = ct /\
    chatter (ct_session (with_secrets s secret (aes_key_of secret)) (next_msg_id s)) s' /\
    exists conn dest, ctx = mk_send_ctx (Some conn) (Some dest) /\
      pending q' ≡ₚ (pkt_entry conn dest <$> ct_packets s h' (next_msg_id s)) ++ pending q
  else exists secret key, is_secret secret /\ is_aes_key key /\ chatter (failed_session (with_secrets s secret key)) s'.

(** The session after encapsulation: the secret and the key derived from it. *)
Lemma keyed_chatter secret s s3 s5 :
  is_secret secret -> is_aes_key (aes_key_of secret) -> chatter s s3 -> chatter (s3 <| ss := secret |>) s5 ->
  chatter (with_secrets s secret (aes_key_of secret)) (s5 <| aes_key := aes_key_of secret |>).
Proof.
  intros Hsec Hk C4 C5. destruct (chatter_fields _ _ C5) as [_ [= Fs _ _ _ _ _]].
  apply (chatter_secrets secret (aes_key_of secret)) in C4, C5; [|assumption..].
  assert (E5 : with_secrets s5 secret (aes_key_of secret) = s5 <| aes_key := aes_key_of secret |>)
    by (unfold with_secrets; session_eq; rewrite Fs; reflexivity).
  rewrite E5 in C5. exact (chatter_trans _ _ _ C4 C5).
Qed.

Lemma chatter_ct mid s s' : is_u8 mid -> chatter s s' -> chatter (ct_session s mid) (ct_session s' mid).
Proof. intros Hm Hc. apply chatter_pending; [clia|exact Hm|]. apply chatter_state, chatter_cleared, Hc. Qed.

Lemma chatter_packets s s' h mid : node_id s' = node_id s -> ct_packets s' h mid = ct_packets s h mid.
Proof. intros E. unfold ct_packets. rewrite E. reflexivity. Qed.

Lemma wp_node_pk Q rx sl e s q h g :
  session_wf s -> tx_wf q -> hs_wf h ->
  at_index (rx_slots h) rx = Some sl -> rx_wf (sl_ctx sl) -> fragment_rx_complete (sl_ctx sl) = true ->
  (forall r e' s' q' h' g', pk_handled (sl_ctx sl) s q h g r s' q' h' -> Q r e' (mk_hs_world s' q' h' g')) ->
  wp (node_pk_complete (udp_send ctx) self rx) Q e (mk_hs_world s q h g).
Proof.
  intros Hs Hq Hh Hi Hrx Hcomp HQ. unfold node_pk_complete, rx_of, slot_at. unfold pk_handled in HQ.
  destruct (crypto_kem_enc g (rx_message (sl_ctx sl) CW_HQC_PUBLIC_KEY_LEN)) as [[[rc ct] secret] g1] eqn:Eenc.
  destruct (kem_enc_sizes _ _ _ _ _ _ Eenc) as (Hctl & Hctb & Hsl & Hsb).
  assert (Hsec : is_secret secret) by (split; [clia|exact Hsb]).
  apply wp_bind, wp_on_h, wp_bind, wp_bind, wp_get, wp_lift. exists sl. split; [exact Hi|]. apply wp_ret.
  case_if; case_bools.
  { apply wp_fail_release; [exact Hs|exact Hh|]. intros e1 s1 C1 Hh1. apply HQ.
    split_and!; try assumption; try reflexivity; [intros; contradiction|].
    exists (ss s), (aes_key s). rewrite with_secrets_same. split_and!; [apply Hs|apply Hs|exact C1]. }
  apply wp_bind, wp_on_s, wp_hs_stat; [exact Hs|stat_words|]. intros s1 Q1.
  apply wp_bind, wp_clock_time, wp_bind, wp_on_s, wp_hs_stat; [apply Q1|stat_words|]. intros s2 Q2.
  apply wp_bind, wp_stat_elapsed; [apply Q2| |stat_words|].
  { intros m Hm. unfold snapshot_wf in Hm. cbn in Hm. repeat apply list.Forall_cons in Hm as [? Hm]. assumption. }
  intros e3 s3 Q3. apply wp_bind, wp_clock_time, wp_bind, wp_lift.
  eexists. split; [apply rx_message_read; [exact Hrx|exact Hcomp|clia]|].
  apply wp_bind, wp_on_g. unfold crypto_worker_encapsulate. apply wp_bind, wp_get. rewrite Eenc.
  apply wp_bind, wp_put, wp_ret. cbv beta iota.
  apply wp_bind, wp_on_h, wp_modify, wp_bind, wp_on_s, wp_modify.
  set (h1 := h <| node_ct := ct |>).
  assert (Hh1 : hs_wf h1) by (destruct Hh; constructor; unfold h1; rsimpl; try assumption; split; [clia|exact Hctb]).
  pose proof (quiet_trans _ _ _ Q1 (quiet_trans _ _ _ Q2 Q3)) as [C4 N4].
  assert (Hkey : aes_key s3 = aes_key s) by (destruct (chatter_fields _ _ C4) as [_ [= _ F _ _ _ _]]; exact F).
  destruct (Z.eqb_spec rc 0) as [->|Hrc]; cbn [negb].
  2: { apply wp_fail_release; [|exact Hh1|].
       - apply (with_secrets_wf s3 secret (aes_key s3) (chatter_wf _ _ C4) Hsec (sw_key _ (chatter_wf _ _ C4))).
       - intros e5 s5 C5 Hh5. apply HQ. split_and!; try assumption; try reflexivity; [intros; contradiction|].
         exists secret, (aes_key s). split_and!; [exact Hsec|apply Hs|].
         apply (chatter_secrets secret (aes_key s)) in C4; [|exact Hsec|apply Hs].
         apply chatter_failed in C4. eapply chatter_trans; [exact C4|]. rewrite <- Hkey. exact C5. }
  unfold clock_since. apply wp_bind, wp_bind, wp_clock_time, wp_ret, wp_bind, wp_on_s.
  pose proof (with_secrets_wf s3 secret (aes_key s3) (chatter_wf _ _ C4) Hsec (sw_key _ (chatter_wf _ _ C4))) as Hw4.
  apply wp_hs_stat; [exact Hw4|intros; pose proof (u32_range (uclk (uclk (e_clock (e3 <| e_reads ::= S |>) (e_reads (e3 <| e_reads ::= S |>))) - uclk (e_clock e3 (e_reads e3))))); stat_words|].
  intros s5 [C5 N5]. apply wp_bind, wp_on_s, wp_get, wp_bind, wp_lift.
  destruct (chatter_fields _ _ C5) as [_ [= Fs _ _ _ _ _]]. rsimpl. rewrite Fs.
  destruct (derive_aes_key_eq secret (aes_key s5) Hsec (proj1 (sw_key _ (chatter_wf _ _ C5)))) as [Ek Hk].
  exists (aes_key_of secret). split; [exact Ek|]. apply wp_bind, wp_on_s, wp_modify.
  apply wp_bind, wp_on_h, wp_slot_release; [apply Hh1|].
  destruct (release_slots_wf self _ (hw_slots _ Hh1)) as [Hslots _].
  pose proof (keyed_chatter secret s s3 s5 Hsec Hk C4 C5) as C6.
  apply wp_send_ciphertext; [apply C6|exact Hq|apply with_slots_wf; assumption|].
  intros r e7 s7 q7 h7 (Hw7 & Hh7 & Hprog & Hout). rsimpl. rewrite N5 in Hout. change (next_msg_id (update _ _ s3)) with (next_msg_id s3) in Hout.
  rewrite N4 in Hout. apply HQ. destruct r.
  - destruct Hout as (-> & C7 & Hpend). rewrite (chatter_packets s s5 _ _ (chatter_id _ _ C6)) in Hpend.
    pose proof (chatter_ct (next_msg_id s) _ _ (sw_msg_id _ Hs) C6) as C8.
    split_and!; try assumption; try reflexivity; auto. exact (chatter_trans _ _ _ C8 C7).
  - destruct Hout as [-> C7]. split_and!; try assumption; try reflexivity; auto.
    exists secret, (aes_key_of secret). split_and!; try assumption.
    apply chatter_failed in C6. exact (chatter_trans _ _ _ C6 C7).
Qed.

(** What the node does with a complete acknowledgement. *)
Definition ack_confirms (c : fragment_rx_ctx_t) (s : session_t) : Prop :=
  fragment_rx_len c = 1 /\ cell (rx_buffer c) 0 = Some (pending_msg_id s).

Definition ack_handled (c : fragment_rx_ctx_t) (s : session_t) (h : hs_state) (r : bool) (s' : session_t)
    (h' : hs_state) : Prop :=
  hs_wf h' /\ rx_slots h' = release_slot self <$> rx_slots h /\
  (root_pk h', root_sk h', root_has_keypair h') = (root_pk h, root_sk h, root_has_keypair h) /\
  if r then ack_confirms c s /\ node_ct h' = zeros CW_HQC_CIPHERTEXT_LEN /\ chatter (established_session s) s'
  else ~ ack_confirms c s /\ node_ct h' = node_ct h /\ s' = s.

Lemma wp_node_ack Q rx sl e s q h g :
  session_wf s -> hs_wf h ->
  at_index (rx_slots h) rx = Some sl -> rx_wf (sl_ctx sl) -> fragment_rx_complete (sl_ctx sl) = true ->
  (forall r e' s' h', ack_handled (sl_ctx sl) s h r s' h' -> Q r e' (mk_hs_world s' q h' g)) ->
  wp (node_ack_complete self rx) Q e (mk_hs_world s q h g).
Proof.
  intros Hs Hh Hi Hrx Hcomp HQ. unfold node_ack_complete, rx_of, slot_at.
  apply wp_bind, wp_on_h, wp_bind, wp_bind, wp_get, wp_lift. exists sl. split; [exact Hi|]. apply wp_ret.
  apply wp_bind, wp_on_s, wp_get, wp_bind. set (c := sl_ctx sl) in *.
  destruct (release_slots_wf self _ (hw_slots _ Hh)) as [Hslots _].
  assert (Hrej : ~ ack_confirms c s ->
    wp (on_h (rx_slot_release self);; mret false) Q e (mk_hs_world s q h g)).
  { intros Hn. apply wp_bind, wp_on_h, wp_slot_release; [apply Hh|]. apply wp_ret, HQ.
    split_and!; try reflexivity; [apply with_slots_wf; assumption|exact Hn]. }
  destruct (Z.eqb_spec (fragment_rx_len c) 1) as [Hlen|Hlen].
  2: { apply wp_ret. rewrite bool_decide_false by discriminate. apply Hrej. intros [? _]. contradiction. }
  pose proof (wf_buffer _ Hrx) as Hb. destruct (cell_total (rx_buffer c) 0) as (b & Hb0 & _); [fold c in Hb; clia|].
  apply wp_lift. exists (Some b). split; [unfold fragment_rx_data; fold c; rewrite Hcomp; cbn [default]; unfold from_option, id; rewrite Hb0; reflexivity|].
  case_bool_decide as Hc; cbn [negb].
  2: { apply Hrej. intros [_ He]. apply Hc. congruence. }
  assert (Hconf : ack_confirms c s) by (split; [exact Hlen|congruence]).
  apply wp_bind, wp_on_s, wp_set_established; [exact Hs|]. pose proof (established_session_wf s Hs) as He.
  apply wp_bind, wp_on_s, wp_hs_stat; [exact He|stat_words|]. intros s1 [C1 _].
  apply wp_bind, wp_clock_time, wp_bind, wp_on_s, wp_hs_stat; [apply C1|stat_words|]. intros s2 [C2 _].
  apply wp_bind, wp_stat_elapsed; [apply C2| |stat_words|].
  { intros m Hm. unfold snapshot_wf in Hm. cbn in Hm. repeat apply list.Forall_cons in Hm as [? Hm]. assumption. }
  intros e3 s3 [C3 _]. apply wp_bind, wp_on_s, wp_metrics_quiet; [apply C3|apply handshake_success_snapshot|].
  intros e4 s4 [C4 _]. apply wp_bind, wp_zero_node_ct; [exact Hh|]. intros Hh'.
  apply wp_bind, wp_on_h, wp_slot_release; [apply Hh'|]. apply wp_ret, HQ. rsimpl.
  split_and!; try reflexivity; [apply (with_slots_wf _ _ Hh' Hslots)|exact Hconf|].
  exact (chatter_trans _ _ _ (chatter_trans _ _ _ C1 C2) (chatter_trans _ _ _ C3 C4)).
Qed.

(** What the root does with a complete ciphertext, acknowledging message [mid]. *)
Definition ct_handled (c : fragment_rx_ctx_t) (mid : Z) (s : session_t) (q : tx_state) (h : hs_state)
    (r : bool) (s' : session_t) (q' : tx_state) (h' : hs_state) : Prop :=
  tx_wf q' /\ hs_wf h' /\ rx_slots h' = release_slot self <$> rx_slots h /\
  (root_pk h', root_sk h', root_has_keypair h', node_ct h') =
    (root_pk h, root_sk h, root_has_keypair h, node_ct h) /\
  let '(rc, secret) := crypto_kem_dec (rx_message c CW_HQC_CIPHERTEXT_LEN) (root_sk h) in
  if (fragment_rx_len c =? CW_HQC_CIPHERTEXT_LEN) && negb (root_has_keypair h =? 0) && (rc =? 0)
  then exists s1, chatter (established_session (with_secrets s secret (aes_key_of secret))) s1 /\
         next_msg_id s1 = next_msg_id s /\ ack_sent mid s1 q r s' q'
  else r = false /\ q' = q /\ exists sec key, is_secret sec /\ is_aes_key key /\
         chatter (failed_session (with_secrets s sec key)) s'.

Lemma wp_root_decapsulate Q mid ct e s q h g :
  session_wf s -> tx_wf q -> hs_wf h -> state s = SESSION_STATE_WAIT_CT -> root_ct h = ct ->
  (forall r e' s' q' h', tx_wf q' -> hs_wf h' -> h' = h <| root_ct := zeros CW_HQC_CIPHERTEXT_LEN |> ->
     (let '(rc, secret) := crypto_kem_dec ct (root_sk h) in
      if negb (root_has_keypair h =? 0) && (rc =? 0)
      then exists s1, chatter (established_session (with_secrets s secret (aes_key_of secret))) s1 /\
             next_msg_id s1 = next_msg_id s /\ ack_sent mid s1 q r s' q'
      else r = false /\ q' = q /\ exists sec key, is_secret sec /\ is_aes_key key /\
             chatter (failed_session (with_secrets s sec key)) s') ->
     Q r e' (mk_hs_world s' q' h' g)) ->
  wp (root_decapsulate (udp_send ctx) mid) Q e (mk_hs_world s q h g).
Proof.
  intros Hs Hq Hh Hst Hct HQ. unfold root_decapsulate.
  apply wp_bind, wp_on_s, wp_get. unfold session_is_established. rewrite Hst.
  rewrite bool_decide_false by discriminate. cbn [andb]. rewrite bool_decide_true by reflexivity. cbn [negb].
  apply wp_bind, wp_on_h, wp_get. unfold hs_fsm_root_has_keypair, crypto_worker_decapsulate. rewrite Hct.
  destruct (crypto_kem_dec ct (root_sk h)) as [rc secret] eqn:Edec.
  destruct (kem_dec_sizes _ _ _ _ Edec) as [Hsl Hsb]. assert (Hsec : is_secret secret) by (split; [clia|exact Hsb]).
  destruct (Z.eqb_spec (root_has_keypair h) 0) as [Hk0|Hk0]; cbn [negb andb] in *.
  { apply wp_bind, wp_on_s, wp_set_failed; [exact Hs|]. intros e1 s1 [C1 _].
    apply wp_bind, wp_zero_root_ct; [exact Hh|]. intros Hh'. apply wp_ret, HQ; try assumption; [reflexivity|].
    split_and!; try reflexivity. exists (ss s), (aes_key s). rewrite with_secrets_same.
    split_and!; [apply Hs|apply Hs|exact C1]. }
  apply wp_bind, wp_clock_time, wp_bind, wp_on_s, wp_modify.
  pose proof (with_secrets_wf s secret (aes_key s) Hs Hsec (sw_key _ Hs)) as Hw1.
  destruct (Z.eqb_spec rc 0) as [->|Hrc]; cbn [negb] in *.
  2: { apply wp_bind, wp_on_s, wp_set_failed; [exact Hw1|]. intros e1 s1 [C1 _].
       apply wp_bind, wp_zero_root_ct; [exact Hh|]. intros Hh'. apply wp_ret, HQ; try assumption; [reflexivity|].
       split_and!; try reflexivity. exists secret, (aes_key s). split_and!; [exact Hsec|apply Hs|exact C1]. }
  unfold clock_since. apply wp_bind, wp_bind, wp_clock_time, wp_ret, wp_bind, wp_on_s.
  match goal with |- context [u32 ?x] => pose proof (u32_range x) end.
  apply wp_hs_stat; [exact Hw1|stat_words|]. intros s2 [C2 N2].
  apply wp_bind, wp_zero_root_ct; [exact Hh|]. intros Hh'. apply wp_bind, wp_on_s, wp_get, wp_bind, wp_lift.
  destruct (chatter_fields _ _ C2) as [_ [= Fs _ _ _ _ _]]. rewrite Fs.
  destruct (derive_aes_key_eq secret (aes_key s2) Hsec (proj1 (sw_key _ (chatter_wf _ _ C2)))) as [Ek Hk].
  exists (aes_key_of secret). split; [exact Ek|]. apply wp_bind, wp_on_s, wp_modify.
  pose proof (keyed_chatter secret s s s2 Hsec Hk (chatter_refl s Hs) C2) as C3.
  apply wp_bind, wp_on_s, wp_set_established; [apply C3|]. apply chatter_done in C3.
  apply wp_bind, wp_on_s, wp_metrics_quiet; [apply C3|apply handshake_success_snapshot|]. intros e4 s4 [C4 N4].
  apply wp_send_ack; [apply C4|exact Hq|]. intros r s5 q5 Hack. apply HQ; [apply Hack|exact Hh'|reflexivity|].
  exists s4. split_and!; [exact (chatter_trans _ _ _ C3 C4)| |exact Hack].
  rewrite N4. exact N2.
Qed.

Lemma wp_root_ct Q rx mid sl e s q h g :
  session_wf s -> tx_wf q -> hs_wf h -> state s = SESSION_STATE_WAIT_CT ->
  at_index (rx_slots h) rx = Some sl -> rx_wf (sl_ctx sl) -> fragment_rx_complete (sl_ctx sl) = true ->
  (forall r e' s' q' h', ct_handled (sl_ctx sl) mid s q h r s' q' h' -> Q r e' (mk_hs_world s' q' h' g)) ->
  wp (root_ct_complete (udp_send ctx) self rx mid) Q e (mk_hs_world s q h g).
Proof.
  intros Hs Hq Hh Hst Hi Hrx Hcomp HQ. unfold root_ct_complete, rx_of, slot_at. unfold ct_handled in HQ.
  apply wp_bind, wp_on_h, wp_bind, wp_bind, wp_get, wp_lift. exists sl. split; [exact Hi|]. apply wp_ret.
  set (c := sl_ctx sl) in *. destruct (release_slots_wf self _ (hw_slots _ Hh)) as [Hslots _].
  destruct (Z.eqb_spec (fragment_rx_len c) CW_HQC_CIPHERTEXT_LEN) as [Hlen|Hlen]; cbn [negb].
  2: { apply wp_fail_release; [exact Hs|exact Hh|]. intros e1 s1 C1 Hh1. apply HQ.
       split_and!; try assumption; try reflexivity. destruct (crypto_kem_dec _ _) as [rc secret].
       cbn [andb]. split_and!; try reflexivity.
       exists (ss s), (aes_key s). rewrite with_secrets_same. split_and!; [apply Hs|apply Hs|exact C1]. }
  apply wp_bind, wp_on_s, wp_hs_stat; [exact Hs|stat_words|]. intros s1 Q1.
  apply wp_bind, wp_clock_time, wp_bind, wp_on_s, wp_hs_stat; [apply Q1|stat_words|]. intros s2 Q2.
  apply wp_bind, wp_stat_elapsed; [apply Q2| |stat_words|].
  { intros m Hm. unfold snapshot_wf in Hm. cbn in Hm. repeat apply list.Forall_cons in Hm as [? Hm]. assumption. }
  intros e3 s3 Q3. pose proof (quiet_trans _ _ _ Q1 (quiet_trans _ _ _ Q2 Q3)) as [C N].
  apply wp_bind, wp_on_h, wp_get, wp_bind, wp_lift. eexists. split; [apply (rx_message_read c); [exact Hrx|exact Hcomp|clia]|].
  assert (Hml : Z.of_nat (length (rx_message c CW_HQC_CIPHERTEXT_LEN)) = CW_HQC_CIPHERTEXT_LEN).
  { unfold rx_message. rewrite length_take. pose proof (wf_buffer _ Hrx) as Hbuf. fold c in Hbuf. clia. }
  destruct (hw_root_ct _ Hh) as [Hrl _].
  apply wp_bind, wp_lift. eexists. split; [apply mem_write_whole; lia|].
  apply wp_bind, wp_on_h, wp_modify. set (h1 := h <| root_ct := _ |>).
  assert (Hh1 : hs_wf h1).
  { destruct Hh; constructor; unfold h1; rsimpl; try assumption. split; [exact Hml|]. apply Forall_take, (wf_bytes _ Hrx). }
  apply wp_bind, wp_on_h, wp_slot_release; [apply Hh1|].
  destruct (chatter_fields _ _ C) as [[= _ _ _ Fst _ _ _] _].
  eapply wp_root_decapsulate; [apply C|exact Hq|apply with_slots_wf; assumption|congruence|reflexivity|].
  intros r e4 s4 q4 h4 Hq4 Hh4 Eh4 Hout. unfold h1 in Hout. rsimpl. apply HQ. clear HQ. split_and!; [exact Hq4|exact Hh4|rewrite Eh4; reflexivity|rewrite Eh4; reflexivity|].
  destruct (crypto_kem_dec (rx_message c CW_HQC_CIPHERTEXT_LEN) (root_sk h)) as [rc secret] eqn:Edec.
  destruct (kem_dec_sizes _ _ _ _ Edec) as [Hsl Hsb]. assert (Hsec : is_secret secret) by (split; [clia|exact Hsb]).
  cbn [andb]. destruct (negb (root_has_keypair h =? 0) && (rc =? 0)).
  - destruct Hout as (s5 & C5 & N5 & Hack). exists s5. split_and!; [|congruence|exact Hack].
    destruct (derive_aes_key_eq secret (zeros CW_AES_KEY_LEN) Hsec eq_refl) as [_ Hk].
    apply (chatter_secrets secret (aes_key_of secret)) in C; [|assumption..]. apply chatter_done in C.
    exact (chatter_trans _ _ _ C C5).
  - destruct Hout as (-> & -> & sec & key & Hsec' & Hkey & C5). split_and!; try reflexivity.
    exists sec, key. split_and!; try assumption.
    apply (chatter_secrets sec key) in C; [|assumption..]. apply chatter_failed in C.
    exact (chatter_trans _ _ _ C C5).
Qed.

(** ** Receiving a fragment *)

(** What a message may do to the session; [mt] is its type. *)
Inductive session_effect (s : session_t) (mt : Z) : session_t -> Prop :=
| eff_none s' : chatter s s' -> session_effect s mt s'
| eff_keyed s' secret mid :
    session_is_node s = true -> mt = HS_MSG_PK -> state s = SESSION_STATE_WAIT_PK ->
    pending_msg_type s = PQC_MSG_GETPK -> is_secret secret -> is_u8 mid ->
    chatter (ct_session (with_secrets s secret (aes_key_of secret)) mid) s' -> session_effect s mt s'
| eff_failed s' secret key :
    session_is_node s = true /\ mt = HS_MSG_PK /\ state s = SESSION_STATE_WAIT_PK \/
    session_is_root s = true /\ mt = HS_MSG_CT /\ state s = SESSION_STATE_WAIT_CT ->
    is_secret secret -> is_aes_key key ->
    chatter (failed_session (with_secrets s secret key)) s' -> session_effect s mt s'
| eff_confirmed s' :
    session_is_node s = true -> mt = HS_MSG_ACK -> state s = SESSION_STATE_WAIT_ACK ->
    pending_msg_type s = HS_MSG_CT ->
    chatter (established_session s) s' -> session_effect s mt s'
| eff_decapsulated s' secret :
    session_is_root s = true -> mt = HS_MSG_CT -> state s = SESSION_STATE_WAIT_CT -> is_secret secret ->
    chatter (established_session (with_secrets s secret (aes_key_of secret))) s' -> session_effect s mt s'.

(** The messages the session's state admits. *)
Definition expected (s : session_t) (mt : Z) : Prop :=
  (session_is_node s = true -> mt = HS_MSG_PK ->
     state s = SESSION_STATE_WAIT_PK /\ pending_msg_type s = PQC_MSG_GETPK) /\
  (session_is_node s = true -> mt = HS_MSG_ACK ->
     state s = SESSION_STATE_WAIT_ACK /\ pending_msg_type s = HS_MSG_CT) /\
  (session_is_root s = true -> mt = HS_MSG_CT -> state s = SESSION_STATE_WAIT_CT).

Lemma expected_quiet s s' mt : chatter s s' -> expected s mt -> expected s' mt.
Proof.
  intros Hc. destruct (chatter_fields _ _ Hc) as [[= _ _ Fr Fs _ _ _] [= _ _ _ Fp _ _]].
  unfold expected, session_is_node, session_is_root. rewrite Fr, Fs, Fp. exact id.
Qed.

Lemma wp_complete_message Q fh rx sl e s q h g :
  session_wf s -> tx_wf q -> hs_wf h -> expected s (fh_msg_type fh) ->
  at_index (rx_slots h) rx = Some sl -> rx_wf (sl_ctx sl) -> fragment_rx_complete (sl_ctx sl) = true ->
  (forall r e' s' q' h' g', tx_wf q' -> hs_wf h' -> rx_slots h' = release_slot self <$> rx_slots h ->
     (root_pk h', root_sk h', root_has_keypair h') = (root_pk h, root_sk h, root_has_keypair h) ->
     session_effect s (fh_msg_type fh) s' -> Q r e' (mk_hs_world s' q' h' g')) ->
  wp (complete_message (udp_send ctx) self fh rx) Q e (mk_hs_world s q h g).
Proof.
  intros Hs Hq Hh (Hpk & Hack & Hct) Hi Hrx Hcomp HQ. unfold complete_message.
  apply wp_bind, wp_on_s, wp_get. case_if; [|case_if; [|case_if]]; case_bools.
  - destruct Hpk as [Hst Hp]; [assumption..|].
    eapply wp_node_pk; try eassumption. intros r e' s' q' h' g' (Hq' & Hh' & Hsl & Hk & Hout).
    apply HQ; try assumption. destruct (crypto_kem_enc _ _) as [[[rc ct] secret] g1] eqn:E.
    destruct (kem_enc_sizes _ _ _ _ _ _ E) as (_ & _ & Hl & Hb). destruct Hout as [_ Hout]. destruct r.
    + destruct Hout as (_ & _ & _ & C & _).
      apply (eff_keyed _ _ _ secret (next_msg_id s)); try assumption; [split; [clia|exact Hb]|apply Hs].
    + destruct Hout as (sec & key & Hsec & Hkey & C). eapply eff_failed; [left; auto|exact Hsec|exact Hkey|exact C].
  - destruct Hack as [Hst Hp]; [assumption..|].
    eapply wp_node_ack; try eassumption. intros r e' s' h' (Hh' & Hsl & Hk & Hout).
    apply HQ; try assumption. destruct r.
    + destruct Hout as (_ & _ & C). apply eff_confirmed; assumption.
    + destruct Hout as (_ & _ & ->). apply eff_none, chatter_refl, Hs.
  - pose proof (Hct ltac:(assumption) ltac:(assumption)) as Hst.
    eapply wp_root_ct; try eassumption. intros r e' s' q' h' (Hq' & Hh' & Hsl & Hk & Hout).
    injection Hk as Hk1 Hk2 Hk3 _. apply HQ; try assumption; [rewrite Hk1, Hk2, Hk3; reflexivity|].
    destruct (crypto_kem_dec _ _) as [rc secret] eqn:E. destruct (kem_dec_sizes _ _ _ _ E) as [Hl Hb].
    case_if.
    + destruct Hout as (s1 & C1 & _ & (C2 & _)).
      apply (eff_decapsulated _ _ _ secret); try assumption; [split; [clia|exact Hb]|].
      exact (chatter_trans _ _ _ C1 C2).
    + destruct Hout as (_ & _ & sec & key & Hsec & Hkey & C). eapply eff_failed; [right; auto|exact Hsec|exact Hkey|exact C].
  - apply wp_bind, wp_on_h, wp_slot_release; [apply Hh|]. apply wp_ret.
    destruct (release_slots_wf self _ (hw_slots _ Hh)) as [Hslots _].
    apply HQ; [exact Hq|apply with_slots_wf; assumption|reflexivity|reflexivity|apply eff_none, chatter_refl, Hs].
Qed.

End Complete.

End Sending.
