(* ===== verification/HandshakeStep.v ===== *)
(** * The entry points of the handshake

    Rules and properties of [hs_fsm_start], [hs_fsm_handle_fragment] and
    [hs_fsm_retry]: safety for any datagram, the transitions of a session, the
    bound on retries. *)

From S2P Require Import Prelude Platform Protocol Fragmentation Nack Metrics CryptoWorker Session TxQueue Telemetry Handshake HandshakeTime HandshakeFacts HandshakeRules.

Section Entry.
Context `{PlatformLaws} `{CryptoLaws} (ctx : pqc_udp_send_ctx_t) (self : sref).

Ltac stat_words :=
  intros; match goal with H : snapshot_wf _ |- snapshot_wf _ =>
    unfold snapshot_wf in *; cbn in H |- *; snapshot_words_tac end.

(** What the parser guarantees of a fragment and its payload. *)
Record fragment_ok (fh : fragment_header) (payload : bytes) : Prop := {
  fo_idx : 0 <= fh_frag_idx fh < fh_total_frags fh;
  fo_total : fh_total_frags fh <= FRAG_MAX_FRAGS;
  fo_len : 0 <= fh_frag_len fh <= FRAG_MAX_PAYLOAD_LEN;
  fo_payload : fh_frag_len fh <= Z.of_nat (length payload);
  fo_bytes : all_bytes payload;
  fo_node : is_u16 (fh_node_id fh);
  fo_msg : is_u8 (fh_msg_id fh);
}.

Lemma cell_byte b i v : all_bytes b -> cell b i = Some v -> is_u8 v.
Proof.
  intros Hb. unfold cell. case_if; [|discriminate]. intros Hv.
  exact (proj1 (list.Forall_forall _ _) Hb v (list_elem_of_lookup_2 _ _ _ Hv)).
Qed.

Lemma node_id_range b nid : all_bytes b -> pqc_header_get_node_id b = Some nid -> is_u16 nid.
Proof.
  intros Hb. unfold pqc_header_get_node_id.
  destruct (cell b PQC_HDR_NODE_ID_H) as [hi|] eqn:Eh; [|discriminate].
  destruct (cell b PQC_HDR_NODE_ID_L) as [lo|] eqn:El; [|discriminate]. intros [= <-].
  apply (cell_byte _ _ _ Hb) in Eh, El. unfold in_width in *. rewrite lor_shiftl_add by lia. lia.
Qed.

(** Parsing any datagram is safe. *)
Lemma parse_total data len :
  all_bytes data -> len <= Z.of_nat (length data) ->
  exists r, parse_fragment_header (Some data) len = Some r /\
    forall fh, r = Some fh -> fragment_ok fh (drop 10 data).
Proof.
  intros Hb Hl. unfold parse_fragment_header. change FRAG_HEADER_LEN with 10.
  destruct (Z.ltb_spec len 10); [eexists; split; [reflexivity|discriminate]|].
  assert (Hc : forall i, 0 <= i < 10 -> exists v, cell data i = Some v /\ is_u8 v).
  { intros i Hi. destruct (cell_total data i) as (v & Hv & _); [lia|]. exists v. split; [exact Hv|].
    exact (cell_byte _ _ _ Hb Hv). }
  destruct (Hc PQC_HDR_VERSION) as (v & -> & _); [clia|]. opt_simpl.
  case_if; [eexists; split; [reflexivity|discriminate]|].
  destruct (Hc PQC_HDR_MSG_TYPE) as (mt & -> & _); [clia|]. opt_simpl.
  destruct (header_node_id_some data) as [nid Hn]; [lia|]. rewrite Hn. opt_simpl.
  destruct (Hc PQC_HDR_MSG_ID) as (mid & -> & Hmid); [clia|]. opt_simpl.
  destruct (Hc PQC_HDR_FRAG_IDX) as (fi & -> & Hfi); [clia|]. opt_simpl.
  destruct (Hc PQC_HDR_TOTAL_FRAGS) as (tf & -> & Htf); [clia|]. opt_simpl.
  destruct (Hc PQC_HDR_PAYLOAD_LEN) as (fl & -> & Hfl); [clia|]. opt_simpl.
  case_if; [eexists; split; [reflexivity|discriminate]|]. case_bools.
  case_if; eexists; (split; [reflexivity|]); [|discriminate]. case_bools. intros fh [= <-].
  rewrite u16_id in * by clia. constructor; cbn [fh_frag_idx fh_total_frags fh_frag_len fh_node_id fh_msg_id];
    try clia.
  - rewrite length_drop. clia.
  - apply Forall_drop, Hb.
  - exact (node_id_range _ _ Hb Hn).
Qed.

(** How the receive slot was obtained: the session's own, or a free one. *)
Definition slot_obtained (l : list hs_rx_slot_t) (rx : Z) (sl : hs_rx_slot_t) (l1 : list hs_rx_slot_t)
    (e e' : env) : Prop :=
  at_index l rx = Some sl /\ slot_owned self sl = true /\ l1 = l \/
  no_slot self l /\ at_index l rx = Some slot_free /\
  exists t n, (e_reads e <= n < e_reads e')%nat /\ t = uclk (e_clock e n) /\
    sl = fresh_slot self t /\ l1 = <[Z.to_nat rx := sl]> l.

Lemma slot_obtained_at l rx sl l1 e e' :
  slots_wf l -> slot_obtained l rx sl l1 e e' ->
  slots_wf l1 /\ at_index l1 rx = Some sl /\ slot_owned self sl = true.
Proof.
  intros Hl [(Hi & Ho & ->)|(Hno & Hi & t & n & _ & _ & -> & ->)]; [auto|].
  split; [apply fresh_slot_wf; assumption|]. split.
  - pose proof (at_index_some _ _ _ Hi) as [Hr Hi']. apply lookup_lt_Some in Hi'.
    unfold at_index. rewrite (proj2 (Z.leb_le 0 rx)) by lia. apply list_lookup_insert_eq, Hi'.
  - apply slot_owned_spec. split; [cbn; lia|reflexivity].
Qed.

Lemma with_ctx_wf l rx sl c :
  slots_wf l -> at_index l rx = Some sl -> slot_owned self sl = true -> rx_wf c ->
  slots_wf (<[Z.to_nat rx := sl <| sl_ctx := c |>]> l).
Proof.
  intros Hl Hi Ho Hc. destruct (slot_at_owned self _ _ _ Hl Hi Ho) as [Ha _].
  apply (slots_wf_update l rx sl); rsimpl; auto.
Qed.

Lemma at_index_insert {A} (l : list A) i x y :
  at_index l i = Some x -> at_index (<[Z.to_nat i := y]> l) i = Some y.
Proof.
  intros Hi. apply at_index_some in Hi as [Hr Hi]. unfold at_index. rewrite (proj2 (Z.leb_le 0 i)) by lia.
  apply list_lookup_insert_eq. apply lookup_lt_Some in Hi. exact Hi.
Qed.

(** The rule for a received fragment: no slot, a fragment the context refuses, an
    incomplete message, a complete one. *)
Lemma wp_receive Q fh payload e s q h g (l := gc_slot (uclk (e_clock e (e_reads e))) <$> rx_slots h) :
  session_wf s -> tx_wf q -> hs_wf h -> fragment_ok fh payload ->
  (forall e', no_slot self l -> Forall (fun sl => sl_active sl = 1) l ->
     Q false e' (mk_hs_world s q (h <| rx_slots := l |>) g)) ->
  (forall e' rx sl l1 added c, env_le e e' -> slot_obtained l rx sl l1 e e' -> rx_wf c ->
     fragment_rx_add (sl_ctx sl) (fh_msg_type fh) (fh_node_id fh) (fh_msg_id fh) (fh_frag_idx fh)
       (fh_total_frags fh) (Some payload) (fh_frag_len fh) = Some (added, c) ->
     let h1 := h <| rx_slots := <[Z.to_nat rx := sl <| sl_ctx := c |>]> l1 |> in
     hs_wf h1 -> at_index (rx_slots h1) rx = Some (sl <| sl_ctx := c |>) ->
     if (added : bool) then
       if fragment_rx_complete c
       then forall e1 s1, quiet s s1 -> wp (complete_message (udp_send ctx) self fh rx)
              (fun r e2 w => env_le e' e2 -> Q r e2 w) e1 (mk_hs_world s1 q h1 g)
       else forall e1 s1 q1 sl1, env_le e' e1 -> chatter s s1 -> tx_wf q1 -> slot_noted (sl <| sl_ctx := c |>) sl1 ->
              (rx_bit c (rx_total_frags c - 1) = 0 -> q1 = q /\ sl1 = sl <| sl_ctx := c |>) ->
              Q true e1 (mk_hs_world s1 q1 (h <| rx_slots := <[Z.to_nat rx := sl1]> l1 |>) g)
     else Q false e' (mk_hs_world s q h1 g)) ->
  wp (receive_fragment (udp_send ctx) self fh payload) Q e (mk_hs_world s q h g).
Proof.
  intros Hs Hq Hh [] Hnone Hsome. unfold receive_fragment. apply wp_bind, wp_env_le; [timely_ops|]. apply wp_on_h.
  pose proof (gc_slots_wf (uclk (e_clock e (e_reads e))) _ (hw_slots _ Hh)) as Hlw. fold l in Hlw.
  enough (Hgo : forall e' rx sl l1, env_le e e' -> slot_obtained l rx sl l1 e e' ->
    wp (slot ← on_h (slot_at rx);
        '(added, ctx0) ← lift (fragment_rx_add (sl_ctx slot) (fh_msg_type fh) (fh_node_id fh)
            (fh_msg_id fh) (fh_frag_idx fh) (fh_total_frags fh) (Some payload) (fh_frag_len fh));
        on_h (slot_set rx (slot <| sl_ctx := ctx0 |>));;
        if negb added then mret false else
        on_s (frag_stat (fun m => m <| fragments_rx ::= inc32 |>));;
        on_s session_touch;;
        if negb (fragment_rx_complete ctx0) then
          due ← (if negb (fh_msg_type fh =? HS_MSG_NACK)
                 then on_h (rx_slot_nack_due self rx (fh_frag_idx fh)) else mret false);
          (if (due : bool)
           then missing_count ← send_nack (udp_send ctx) rx; rx_slot_note_nack self rx missing_count
           else mret tt);;
          mret true
        else complete_message (udp_send ctx) self fh rx) Q e' (mk_hs_world s q (h <| rx_slots := l1 |>) g)).
  { apply wp_slot_get; [apply Hh| | |].
    - intros e' i sl Hi Ho Hle. apply (Hgo e' i sl); [exact Hle|]. left. auto.
    - intros e' i t n Hno Hi Hn Ht Hw Hle. eapply (Hgo e' i); [exact Hle|]. right. split; [exact Hno|]. split; [exact Hi|].
      exists t, n. auto.
    - intros e' Hno Hfull _. apply wp_ret, Hnone; assumption. }
  intros e' rx sl l1 Hle0 Hobt. destruct (slot_obtained_at l rx sl l1 e e' Hlw Hobt) as (Hl1 & Hi1 & Ho).
  destruct (slot_at_owned self _ _ _ Hl1 Hi1 Ho) as [Ha Hrx].
  destruct (rx_add_total (sl_ctx sl) (fh_msg_type fh) (fh_node_id fh) (fh_msg_id fh) (fh_frag_idx fh)
    (fh_total_frags fh) payload (fh_frag_len fh)) as (added & c & Eadd & Hc); try assumption.
  pose proof (with_slots_wf h _ Hh (with_ctx_wf l1 rx sl c Hl1 Hi1 Ho Hc)) as Hh1.
  pose proof (at_index_insert l1 rx sl (sl <| sl_ctx := c |>) Hi1) as Hi2.
  specialize (Hsome e' rx sl l1 added c Hle0 Hobt Hc Eadd Hh1 Hi2).
  apply wp_env_le; [timely_ops|]. apply wp_bind, wp_on_h. unfold slot_at, slot_set. apply wp_bind, wp_get, wp_lift. exists sl. split; [exact Hi1|].
  apply wp_bind, wp_lift. eexists. split; [exact Eadd|]. apply wp_bind, wp_on_h, wp_modify.
  destruct added; cbn [negb]; [|apply wp_ret; intros _; apply Hsome].
  apply wp_bind, wp_on_s, wp_frag_stat; [exact Hs|stat_words|]. intros s1 Q1.
  apply wp_bind, wp_on_s, wp_touch; [apply Q1|]. intros e2 s2 Q2. pose proof (quiet_trans _ _ _ Q1 Q2) as Q12.
  destruct (fragment_rx_complete c); cbn [negb]; [apply Hsome, Q12|].
  set (h1 := h <| rx_slots := <[Z.to_nat rx := sl <| sl_ctx := c |>]> l1 |>).
  assert (Hstop : forall e2, env_le e' e2 -> Q true e2 (mk_hs_world s2 q h1 g)).
  { intros e3 Hle. apply Hsome; [exact Hle|apply Q12|exact Hq|apply slot_noted_refl|auto]. }
  assert (Hown2 : slot_owned self (sl <| sl_ctx := c |>) = true) by exact Ho.
  apply wp_bind. case_if; [|apply wp_ret, wp_bind, wp_ret, wp_ret, Hstop].
  apply wp_on_h. apply (wp_nack_due self _ rx _ _ h1 _ (hw_slots _ Hh1) Hi2 Hown2).
  intros due e3 Hlast. destruct due; [|apply wp_bind, wp_ret, wp_ret, Hstop].
  apply wp_bind, wp_bind. apply (wp_send_nack ctx _ rx _ _ _ h1 g _ (chatter_wf _ _ (proj1 Q12)) Hq Hi2 Hc).
  intros n s3 q3 C3 Hq3 _. apply (wp_note_nack self _ rx n _ s3 q3 h1 g _ (chatter_wf _ _ C3) (hw_slots _ Hh1) Hi2 Hown2).
  intros e4 s4 sl4 [C4 _] Hn4. apply wp_ret. intros Hle. unfold h1. rsimpl.
  pose proof (Hsome e4 s4 q3 sl4 Hle (chatter_trans _ _ _ (chatter_trans _ _ _ (proj1 Q12) C3) C4) Hq3 Hn4
    (fun Hb => False_ind _ (Hlast eq_refl Hb))) as HQ.
  rewrite list_insert_insert_eq. exact HQ.
Qed.

(** ** The whole of [hs_fsm_handle_fragment] *)

(** What a message does is what it does after statistics were counted. *)
Lemma effect_quiet s s1 s' mt : quiet s s1 -> session_effect s1 mt s' -> session_effect s mt s'.
Proof.
  intros [Hc _] He. destruct (chatter_fields _ _ Hc) as [[= _ _ Fr Fs _ _ _] [= _ _ _ Fp _ _]].
  assert (En : session_is_node s1 = session_is_node s) by (unfold session_is_node; rewrite Fr; reflexivity).
  assert (Er : session_is_root s1 = session_is_root s) by (unfold session_is_root; rewrite Fr; reflexivity).
  destruct He as [s' C|s' secret mid Hn Hm Hst Hp Hsec Hmid C|s' secret key Hwhen Hsec Hkey C
    |s' Hn Hm Hst Hp C|s' secret Hn Hm Hst Hsec C]; rewrite ?En, ?Er, ?Fs, ?Fp in *.
  - apply eff_none. exact (chatter_trans _ _ _ Hc C).
  - destruct (derive_aes_key_eq secret (zeros CW_AES_KEY_LEN) Hsec eq_refl) as [_ Hk].
    apply (eff_keyed _ _ _ secret mid); try assumption.
    exact (chatter_trans _ _ _ (chatter_ct mid _ _ Hmid (chatter_secrets _ _ _ _ Hsec Hk Hc)) C).
  - apply (eff_failed _ _ _ secret key); try assumption.
    exact (chatter_trans _ _ _ (chatter_failed _ _ (chatter_secrets _ _ _ _ Hsec Hkey Hc)) C).
  - apply eff_confirmed; try assumption. exact (chatter_trans _ _ _ (chatter_done _ _ Hc) C).
  - destruct (derive_aes_key_eq secret (zeros CW_AES_KEY_LEN) Hsec eq_refl) as [_ Hk].
    apply (eff_decapsulated _ _ _ secret); try assumption.
    exact (chatter_trans _ _ _ (chatter_done _ _ (chatter_secrets _ _ _ _ Hsec Hk Hc)) C).
Qed.

(** A node takes its identifier from the first message it is sent. *)
Definition learned (s : session_t) (fh : fragment_header) : session_t :=
  if session_is_node s && (node_id s =? SESSION_INVALID_NODE_ID) then s <| node_id := fh_node_id fh |> else s.

Lemma learned_wf s fh : session_wf s -> is_u16 (fh_node_id fh) -> session_wf (learned s fh).
Proof. intros Hs Hn. unfold learned. case_if; [|exact Hs]. destruct Hs. session_wf_tac. Qed.

Lemma learned_same s fh :
  (role (learned s fh), state (learned s fh), pending_msg_type (learned s fh), pending_msg_id (learned s fh)) =
  (role s, state s, pending_msg_type s, pending_msg_id s).
Proof. unfold learned. case_if; reflexivity. Qed.

(** The message is not one the session's state rules out. *)
Lemma not_unexpected s fh :
  fragment_unexpected s fh = false -> (session_is_root s = true -> fh_msg_type fh = HS_MSG_CT -> state s = SESSION_STATE_WAIT_CT) ->
  expected s (fh_msg_type fh).
Proof.
  intros Hu Hc. unfold fragment_unexpected in Hu. apply orb_false_iff in Hu as [Hpk Hack].
  split_and!; [intros Hn Hm; clear Hack; rename Hpk into Hu|intros Hn Hm; clear Hpk; rename Hack into Hu|exact Hc];
    rewrite Hn, Hm, Z.eqb_refl in Hu; cbn [andb] in Hu; apply orb_false_iff in Hu as [Hst Hp]; case_bools;
    (split; [apply bool_decide_eq_true in Hst|]; assumption).
Qed.

(** What [hs_fsm_handle_fragment] does to the session. *)
Definition handled (data : bytes) (len : Z) (s s' : session_t) : Prop :=
  chatter s s' \/
  exists fh, parse_fragment_header (Some data) len = Some (Some fh) /\
    session_effect (learned s fh) (fh_msg_type fh) s'.

Lemma effect_wf s mt s' : session_effect s mt s' -> session_wf s'.
Proof. intros []; eapply chatter_wf; eassumption. Qed.

Lemma wp_receive_effect Q fh payload e s q h g :
  session_wf s -> tx_wf q -> hs_wf h -> fragment_ok fh payload -> expected s (fh_msg_type fh) ->
  (forall r e' s' q' h' g', tx_wf q' -> hs_wf h' ->
     (root_pk h', root_sk h', root_has_keypair h') = (root_pk h, root_sk h, root_has_keypair h) ->
     session_effect s (fh_msg_type fh) s' -> Q r e' (mk_hs_world s' q' h' g')) ->
  wp (receive_fragment (udp_send ctx) self fh payload) Q e (mk_hs_world s q h g).
Proof.
  intros Hs Hq Hh Hok Hexp HQ.
  pose proof (gc_slots_wf (uclk (e_clock e (e_reads e))) _ (hw_slots _ Hh)) as Hlw.
  apply wp_receive; [exact Hs|exact Hq|exact Hh|exact Hok|intros e' _ _|intros e' rx sl l1 added c _ Hobt Hc _ h2 Hh2 Hi2].
  { apply HQ; auto; [apply with_slots_wf; assumption|apply eff_none, chatter_refl, Hs]. }
  destruct added; [|apply HQ; auto; apply eff_none, chatter_refl, Hs].
  destruct (slot_obtained_at _ _ _ _ _ _ Hlw Hobt) as (Hl1 & _ & Ho).
  destruct (fragment_rx_complete c) eqn:Ecomp.
  - intros e3 s3 Q3. eapply wp_complete_message; [apply Q3|exact Hq|exact Hh2|exact (expected_quiet _ _ _ (quiet_chatter _ _ Q3) Hexp)
      |exact Hi2|exact Hc|exact Ecomp|].
    intros r e4 s4 q4 h4 g4 Hq4 Hh4 _ Hk He _. apply HQ; auto. exact (effect_quiet _ _ _ _ Q3 He).
  - intros e3 s3 q3 sl1 _ C3 Hq3 Hn _. apply HQ; auto; [|apply eff_none, C3]. apply with_slots_wf; [exact Hh|].
    rewrite <- (list_insert_insert_eq l1 (Z.to_nat rx) sl1 (sl <| sl_ctx := c |>)).
    exact (slots_noted_wf self _ rx _ _ (hw_slots _ Hh2) Hi2 Ho Hn).
Qed.

Lemma wp_handle Q data len e s q h g :
  session_wf s -> tx_wf q -> hs_wf h -> all_bytes data -> len <= Z.of_nat (length data) ->
  (forall r e' s' q' h' g', session_wf s' -> tx_wf q' -> hs_wf h' ->
     (root_pk h', root_sk h', root_has_keypair h') = (root_pk h, root_sk h, root_has_keypair h) ->
     handled data len s s' -> Q r e' (mk_hs_world s' q' h' g')) ->
  wp (hs_fsm_handle_fragment (udp_send ctx) self data len) Q e (mk_hs_world s q h g).
Proof.
  intros Hs Hq Hh Hb Hl HQ. unfold hs_fsm_handle_fragment.
  apply wp_bind, wp_on_h, wp_gc; [apply Hh|]. intros e1.
  pose proof (with_slots_wf _ _ Hh (gc_slots_wf (uclk (e_clock e (e_reads e))) _ (hw_slots _ Hh))) as Hh1.
  set (h1 := h <| rx_slots := _ |>) in *.
  assert (Hstay : forall r e', Q r e' (mk_hs_world s q h1 g)).
  { intros r e'. apply HQ; auto. left. apply chatter_refl, Hs. }
  destruct (parse_total data len Hb Hl) as (parsed & Epar & Hok). apply wp_bind, wp_lift. exists parsed. split; [exact Epar|].
  destruct parsed as [fh|]; [|apply wp_ret, Hstay]. specialize (Hok fh eq_refl).
  apply wp_bind, wp_on_s, wp_get. case_if; [apply wp_ret, Hstay|]. case_if; [apply wp_ret, Hstay|].
  pose proof (learned_wf s fh Hs (fo_node _ _ Hok)) as Hs2.
  assert (Hlearn : forall Q e, Q tt e (mk_hs_world (learned s fh) q h1 g) ->
    wp (if session_is_node s && (node_id s =? SESSION_INVALID_NODE_ID)
        then on_s (modify (fun s => s <| node_id := fh_node_id fh |>)) else mret tt) Q e (mk_hs_world s q h1 g)).
  { intros Q' e' HQ'. unfold learned in HQ'. case_if; [apply wp_on_s, wp_modify, HQ'|apply wp_ret, HQ']. }
  apply wp_bind, Hlearn. pose proof (learned_same s fh) as [= Fr Fs Fp Fi].
  assert (Hdone : forall r e' s' q' h' g', tx_wf q' -> hs_wf h' ->
    (root_pk h', root_sk h', root_has_keypair h') = (root_pk h, root_sk h, root_has_keypair h) ->
    session_effect (learned s fh) (fh_msg_type fh) s' -> Q r e' (mk_hs_world s' q' h' g')).
  { intros r e' s' q' h' g' Hq' Hh' Hk He. apply HQ; auto; [exact (effect_wf _ _ _ He)|]. right. eauto. }
  assert (Hstill : forall r e' s' q' h', chatter (learned s fh) s' -> tx_wf q' -> hs_wf h' ->
    (root_pk h', root_sk h', root_has_keypair h') = (root_pk h, root_sk h, root_has_keypair h) ->
    Q r e' (mk_hs_world s' q' h' g)).
  { intros r e' s' q' h' C Hq' Hh' Hk. apply Hdone; auto. apply eff_none, C. }
  assert (Hkeep : forall r e' s' q', chatter (learned s fh) s' -> tx_wf q' -> Q r e' (mk_hs_world s' q' h1 g)) by auto.
  pose proof (chatter_refl _ Hs2) as C2.
  assert (Hsame : forall r e', Q r e' (mk_hs_world (learned s fh) q h1 g)) by auto.
  destruct (fragment_unexpected s fh) eqn:Eun; [apply wp_ret, Hsame|].
  case_if.
  { apply wp_bind. case_if; [|apply wp_ret, wp_ret, Hsame]. apply wp_bind, wp_send_ack; [exact Hs2|exact Hq|].
    intros r s3 q3 (C3 & Hq3 & _). apply wp_ret, wp_ret, Hkeep; assumption. }
  case_if; [apply wp_ret, Hsame|].
  destruct Hok as [Hidx Htot Hflen Hpay Hpb Hnode Hmsg].
  case_if.
  - case_if; [apply wp_ret, Hsame|].
    destruct (nack_decode_total (drop 10 data) (fh_frag_len fh) nack_zero Hpb) as (ok & nack & En & Hnack); [lia|].
    apply wp_bind, wp_lift. eexists. split; [exact En|]. destruct ok; cbn [negb]; [|apply wp_ret, Hsame].
    destruct (Hnack eq_refl) as (mt & mid & tf & l & -> & Hl16 & _ & Hl').
    apply wp_retransmit; try assumption. intros r e' s' q' [C _] Hq' _. apply Hkeep; assumption.
  - assert (Hexp : expected (learned s fh) (fh_msg_type fh)).
    { pose proof (not_unexpected s fh Eun) as Hx. unfold expected in Hx |- *. unfold session_is_node, session_is_root in *.
      rewrite Fr, Fs, Fp. apply Hx. intros Hr Hm. rewrite Hr, Hm, Z.eqb_refl in *. cbn [andb] in *.
      case_bools. match goal with H : bool_decide (_ = SESSION_STATE_WAIT_CT) = true |- _ => exact (proj1 (bool_decide_eq_true _) H) end. }
    apply wp_receive_effect; try assumption. constructor; assumption.
Qed.

(** ** [hs_fsm_start] *)

(** What making the root's key pair answers and does. *)
Definition keypair_made (h : hs_state) (g : prng_state) (r : bool) (h' : hs_state) (g' : prng_state) : Prop :=
  if root_has_keypair h =? 0 then
    let '(rc, pk, sk, g1) := crypto_kem_keypair g in
    r = (rc =? 0) /\ g' = g1 /\
    h' = h <| root_pk := pk |> <| root_sk := sk |> <| root_has_keypair := if rc =? 0 then 1 else root_has_keypair h |>
  else r = true /\ h' = h /\ g' = g.

Lemma wp_init_keypair Q e s q h g :
  hs_wf h -> (forall r h' g', hs_wf h' -> keypair_made h g r h' g' -> Q r e (mk_hs_world s q h' g')) ->
  wp hs_fsm_root_init_keypair Q e (mk_hs_world s q h g).
Proof.
  intros Hh HQ. unfold hs_fsm_root_init_keypair, keypair_made in *. apply wp_bind, wp_on_h, wp_get.
  destruct (root_has_keypair h =? 0); cbn [negb]; [|apply wp_ret, HQ; auto].
  unfold crypto_worker_keypair. apply wp_bind, wp_on_g, wp_bind, wp_get.
  destruct (crypto_kem_keypair g) as [[[rc pk] sk] g1] eqn:E.
  destruct (kem_keypair_sizes _ _ _ _ _ E) as (Hpl & Hpb & Hsl & Hsb).
  assert (Hw : forall k, hs_wf (h <| root_pk := pk |> <| root_sk := sk |> <| root_has_keypair := k |>)).
  { intros k. destruct Hh. constructor; rsimpl; auto. }
  apply wp_bind, wp_put, wp_ret, wp_bind, wp_on_h, wp_modify. destruct (rc =? 0); cbn [negb].
  - apply wp_bind, wp_on_h, wp_modify, wp_ret, HQ; [apply Hw|]. rsimpl. auto.
  - apply wp_ret, HQ; [exact (Hw (root_has_keypair h))|]. destruct h. auto.
Qed.

(** The root waits for the ciphertext, having sent public key [mid]. *)
Definition pk_session (s : session_t) (mid : Z) : session_t :=
  pending_session (s <| state := SESSION_STATE_WAIT_CT |>) HS_MSG_PK mid.
Definition pk_packets (s : session_t) (h : hs_state) (mid : Z) : list bytes :=
  frag_packets (root_pk h) CW_HQC_PUBLIC_KEY_LEN HS_MSG_PK (node_id s) mid PQC_FLAG_NONE.

(** What [start_root_transfer] answers and does. *)
Definition pk_sent (s : session_t) (q : tx_state) (h : hs_state) (r : bool) (s' : session_t) (q' : tx_state) : Prop :=
  tx_wf q' /\
  (ctx_null ctx = false -> tx_count q + 36 <= PQC_TX_QUEUE_SIZE -> r = true) /\
  if r then chatter (pk_session s (next_msg_id s)) s' /\
    exists conn dest, ctx = mk_send_ctx (Some conn) (Some dest) /\
      pending q' ≡ₚ (pkt_entry conn dest <$> pk_packets s h (next_msg_id s)) ++ pending q
  else chatter s s' \/ chatter (failed_session s) s'.

Lemma wp_start_transfer Q e s q h g :
  session_wf s -> tx_wf q -> hs_wf h ->
  (forall r e' s' q', pk_sent s q h r s' q' -> Q r e' (mk_hs_world s' q' h g)) ->
  wp (start_root_transfer (udp_send ctx)) Q e (mk_hs_world s q h g).
Proof.
  intros Hs Hq Hh HQ. unfold start_root_transfer. destruct (hw_pk _ Hh) as [Hpl _].
  apply wp_bind, wp_room; [exact Hq|clia|]. change (fragment_tx_count CW_HQC_PUBLIC_KEY_LEN) with 36.
  destruct (Z.leb_spec (tx_count q + 36) PQC_TX_QUEUE_SIZE) as [Hroom|Hfull]; cbn [negb].
  2: { apply wp_ret, HQ. split_and!; [exact Hq|lia|]. left. apply chatter_refl, Hs. }
  apply wp_bind, wp_on_s, wp_next_msg_id; [exact Hs|]. intros s1 C1 _. pose proof (sw_msg_id _ Hs) as Hmid.
  unfold session_set_wait_ct. apply wp_bind, wp_on_s, wp_modify. apply (chatter_state SESSION_STATE_WAIT_CT) in C1.
  apply wp_bind, wp_on_s, wp_set_pending_for_transfer; [apply C1|clia|exact Hmid|]. intros e2 s2 [C2 _].
  apply (chatter_pending HS_MSG_PK (next_msg_id s)) in C1; [|clia|exact Hmid].
  pose proof (chatter_trans _ _ _ C1 C2) as C. fold (pk_session s (next_msg_id s)) in C.
  apply wp_bind, wp_on_s, wp_hs_stat; [apply C|stat_words|]. intros s3 [C3 _].
  apply wp_bind, wp_clock_time, wp_bind, wp_on_s, wp_hs_stat; [apply C3|stat_words|]. intros s4 [C4 _].
  apply wp_bind, wp_on_s, wp_frag_stat; [apply C4|stat_words|]. intros s5 [C5 _].
  pose proof (chatter_trans _ _ _ C (chatter_trans _ _ _ C3 (chatter_trans _ _ _ C4 C5))) as C6.
  apply wp_bind, wp_on_s, wp_get, wp_bind, wp_on_h, wp_get.
  apply wp_bind, wp_send_message; [clia|clia|exact Hq|]. intros r q' (Hw & _ & Hr & Hp).
  assert (Hprog : ctx_null ctx = false -> tx_count q + 36 <= PQC_TX_QUEUE_SIZE -> r = true).
  { intros Hnn Hrm. apply Hr; [exact Hnn|]. rewrite frag_packets_length by clia. exact Hrm. }
  destruct r; cbn [negb].
  - apply wp_bind, wp_on_s, wp_get, wp_bind, wp_elapsed.
    { pose proof (sw_metrics _ (chatter_wf _ _ C6)) as Hm. unfold snapshot_wf in Hm. cbn in Hm.
      repeat apply list.Forall_cons in Hm as [? Hm]. assumption. }
    intros now e7 _. pose proof (u32_range (now - pk_tx_started_at (handshake (metrics s5)))) as Hu.
    apply wp_bind, wp_on_s, wp_hs_stat; [apply C6|stat_words|]. intros s7 [C7 _]. apply wp_ret, HQ.
    split_and!; [exact Hw|exact Hprog|exact (chatter_trans _ _ _ C6 C7)|].
    destruct (Hp eq_refl) as (conn & dest & Hctx & Hperm). exists conn, dest. split; [exact Hctx|].
    rewrite Hperm. unfold pk_packets. rewrite (chatter_id _ _ C6). reflexivity.
  - apply wp_bind, wp_on_s, wp_set_failed; [apply C6|]. intros e7 s7 [C7 _]. apply wp_ret, HQ.
    split_and!; [exact Hw|exact Hprog|]. right. apply chatter_failed in C6.
    replace (failed_session (pk_session s (next_msg_id s))) with (failed_session s) in C6
      by (unfold pk_session, pending_session, failed_session, cleared_session; session_eq).
    exact (chatter_trans _ _ _ C6 C7).
Qed.

(** What [hs_fsm_start] answers and does, the receive slots apart. *)
Definition started (s : session_t) (q : tx_state) (h : hs_state) (g : prng_state)
    (r : bool) (s' : session_t) (q' : tx_state) (h' : hs_state) (g' : prng_state) : Prop :=
  match role s with
  | SESSION_ROLE_ROOT =>
      exists made s1, keypair_made h g made h' g' /\ quiet s s1 /\
        if (made : bool) then pk_sent s1 q h' r s' q'
        else r = false /\ q' = q /\ chatter (failed_session s) s'
  | SESSION_ROLE_NODE =>
      h' = h /\ g' = g /\ q' = q /\
      if bool_decide (state s = SESSION_STATE_IDLE) || bool_decide (state s = SESSION_STATE_WAIT_PK)
      then r = true /\ s' = s <| state := SESSION_STATE_WAIT_PK |>
      else r = false /\ s' = s
  end.

Lemma wp_start Q e s q h g (l := gc_slot (uclk (e_clock e (e_reads e))) <$> rx_slots h) :
  session_wf s -> tx_wf q -> hs_wf h ->
  (forall r e' s' q' h' g', session_wf s' -> tx_wf q' -> hs_wf h' ->
     started s q (h <| rx_slots := l |>) g r s' q' h' g' -> Q r e' (mk_hs_world s' q' h' g')) ->
  wp (hs_fsm_start (udp_send ctx)) Q e (mk_hs_world s q h g).
Proof.
  intros Hs Hq Hh HQ. unfold hs_fsm_start. unfold started in HQ.
  pose proof (with_slots_wf _ _ Hh (gc_slots_wf (uclk (e_clock e (e_reads e))) _ (hw_slots _ Hh))) as Hh1.
  apply wp_bind, wp_on_h, wp_gc; [apply Hh|]. intros e1. fold l in Hh1 |- *.
  apply wp_bind, wp_on_s, wp_get. unfold session_is_root, session_is_node. destruct (role s); cbn [bool_decide decide_rel].
  - rewrite bool_decide_false, bool_decide_true by (discriminate || reflexivity).
    unfold session_set_wait_pk. destruct (bool_decide (state s = SESSION_STATE_IDLE)), (bool_decide (state s = SESSION_STATE_WAIT_PK));
      cbn [negb andb orb] in *;
      try (apply wp_bind, wp_on_s, wp_modify, wp_ret, HQ; auto; destruct Hs; session_wf_tac; fail).
    apply wp_ret, HQ; auto.
  - rewrite bool_decide_true by reflexivity.
    apply wp_bind, wp_on_s, wp_metrics_quiet; [exact Hs|apply handshake_start_snapshot|]. intros e2 s2 Q2.
    apply wp_bind, wp_on_h, wp_get, wp_bind.
    assert (Hgo : forall k e3, wp (ok ← hs_fsm_root_init_keypair;
      if negb ok then on_s session_set_failed;; mret false else
      (if negb (k =? 0)
       then ticks ← clock_since k; on_s (hs_stat (fun m => m <| keypair_ticks_last := ticks |>)) else mret tt);;
      start_root_transfer (udp_send ctx)) Q e3 (mk_hs_world s2 q (h <| rx_slots := l |>) g)).
    { intros k e3. apply wp_bind, wp_init_keypair; [exact Hh1|]. intros made h' g' Hh' Hmade. destruct made; cbn [negb].
      - assert (Hsend : forall e4 s4, quiet s2 s4 -> wp (start_root_transfer (udp_send ctx)) Q e4 (mk_hs_world s4 q h' g')).
        { intros e4 s4 Q4. apply wp_start_transfer; [apply Q4|exact Hq|exact Hh'|]. intros r e5 s5 q5 Hsent.
          apply HQ; [|apply Hsent|exact Hh'|exists true, s4; split_and!; [exact Hmade|exact (quiet_trans _ _ _ Q2 Q4)|exact Hsent]].
          destruct Hsent as (_ & _ & Hr). destruct r; [destruct Hr as [C _]; apply C|destruct Hr as [C|C]; apply C]. }
        apply wp_bind. case_if; [|apply wp_ret, Hsend, quiet_refl, Q2].
        unfold clock_since. apply wp_bind, wp_bind, wp_clock_time, wp_ret, wp_on_s.
        match goal with |- context [u32 ?x] => pose proof (u32_range x) end.
        apply wp_hs_stat; [apply Q2|stat_words|]. intros s4 Q4. apply Hsend, Q4.
      - apply wp_bind, wp_on_s, wp_set_failed; [apply Q2|]. intros e4 s4 [C4 _]. apply wp_ret, HQ; auto; [apply C4|].
        exists false, s2. split_and!; auto. destruct Q2 as [C2 _]. exact (chatter_trans _ _ _ (chatter_failed _ _ C2) C4). }
    case_if; [apply wp_ret, Hgo|apply wp_clock_time, Hgo].
Qed.

(** ** [hs_fsm_retry] *)

(** The datagrams a retry sends again, flagged as such; a root that waits for a
    ciphertext asks for the missing fragments instead. *)
Definition resend (s : session_t) (h : hs_state) : option (list bytes) :=
  if session_is_node s && (pending_msg_type s =? PQC_MSG_GETPK)
  then Some [header_bytes PQC_MSG_GETPK (node_id s) (pending_msg_id s) 0 1 0 PQC_FLAG_RETRY]
  else if session_is_root s && (pending_msg_type s =? HS_MSG_PK)
  then Some (frag_packets (root_pk h) CW_HQC_PUBLIC_KEY_LEN HS_MSG_PK (node_id s) (pending_msg_id s) PQC_FLAG_RETRY)
  else if session_is_node s && (pending_msg_type s =? HS_MSG_CT)
  then Some (frag_packets (node_ct h) CW_HQC_CIPHERTEXT_LEN HS_MSG_CT (node_id s) (pending_msg_id s) PQC_FLAG_RETRY)
  else None.

(** The root waits for a ciphertext that has begun to arrive. *)
Definition awaits_ct (s : session_t) : bool := session_is_root s && (pending_msg_type s =? HS_MSG_CT).

(** A retry must act: the session waits for an answer to a message of its role, its
    deadline is behind every later reading of the clock, nothing is queued. *)
Definition retry_ready (e : env) (s : session_t) (q : tx_state) (h : hs_state) : Prop :=
  ctx_null ctx = false /\ tx_count q = 0 /\ waiting_response s <> 0 /\
  (awaits_ct s = true \/ resend s h <> None) /\
  forall n, (e_reads e <= n)%nat -> retry_deadline s <= uclk (e_clock e n).

(** A part of a message is in a slot of the session. *)
Definition arriving (h : hs_state) : Prop :=
  exists i sl, at_index (rx_slots h) i = Some sl /\ slot_owned self sl = true /\
    rx_active (sl_ctx sl) = 1 /\ fragment_rx_complete (sl_ctx sl) = false.

(** What [hs_fsm_retry] answers and does. *)
Inductive retry_effect (e : env) (s : session_t) (q : tx_state) (h : hs_state) :
    bool -> session_t -> tx_state -> Prop :=
| retry_idle r s' q' :
    ~ retry_ready e s q h -> chatter s s' -> retry_effect e s q h r s' q'
| retry_resent s' q' pkts :
    session_can_retry s = true -> resend s h = Some pkts -> message_sent ctx pkts q true q' ->
    chatter (retried_session s) s' -> retry_effect e s q h true s' q'
| retry_asked s' q' :
    session_can_retry s = true -> awaits_ct s = true ->
    chatter (retried_session s) s' -> retry_effect e s q h true s' q'
| retry_failed s' q' :
    (session_can_retry s = true ->
       awaits_ct s = true /\ (ctx_null ctx = true \/ ~ arriving h) \/
       session_is_root s = true /\ root_has_keypair h = 0) ->
    chatter (failed_session s) s' -> retry_effect e s q h false s' q'.

Lemma wp_count_retry len Q e s q h g :
  session_wf s ->
  (forall e' s', chatter (retried_session s) s' -> Q true e' (mk_hs_world s' q h g)) ->
  wp (count_retry len true) Q e (mk_hs_world s q h g).
Proof.
  intros Hs HQ. unfold count_retry, hs_mark_retry_for_transfer. apply wp_bind, wp_on_s, wp_mark_retry; [exact Hs|].
  intros e' s' [C _]. apply wp_ret, HQ, C.
Qed.

(** The whole of a message is sent again, or the retry is put off for lack of room. *)
Lemma wp_resend_message Q data len mt e0 h0 e s q h g :
  session_wf s -> tx_wf q -> hs_wf h -> session_can_retry s = true ->
  0 < len <= FRAG_MAX_MESSAGE_LEN -> fragment_tx_count len <= PQC_TX_QUEUE_SIZE -> len <= Z.of_nat (length data) ->
  resend s h0 = Some (frag_packets data len mt (node_id s) (pending_msg_id s) PQC_FLAG_RETRY) ->
  (forall r e' s' q', tx_wf q' -> session_wf s' -> retry_effect e0 s q h0 r s' q' -> Q r e' (mk_hs_world s' q' h g)) ->
  wp (room ← tx_has_room_for len;
      if negb room then on_s (set_deadline HS_RETRY_TX_DRAIN_DELAY);; mret true else
      queued ← fragment_tx (Some data) len mt (node_id s) (pending_msg_id s) PQC_FLAG_RETRY (Some (udp_send ctx));
      count_retry len queued) Q e (mk_hs_world s q h g).
Proof.
  intros Hs Hq Hh Hcan Hlen Hfit Hd Hre HQ. apply wp_bind, wp_room; [exact Hq|exact Hlen|].
  destruct (Z.leb_spec (tx_count q + fragment_tx_count len) PQC_TX_QUEUE_SIZE) as [Hroom|Hroom]; cbn [negb].
  2: { apply wp_bind, wp_on_s, wp_set_deadline; [exact Hs|]. intros e2 s2 [C2 _]. apply wp_ret, HQ; [exact Hq|apply C2|].
       apply retry_idle; [|exact C2]. intros (_ & Hq0 & _). lia. }
  apply wp_bind, wp_send_message; [exact Hlen|exact Hd|exact Hq|]. intros r q' Hsent. pose proof Hsent as (Hq' & _ & Hr & _).
  destruct r.
  - apply wp_count_retry; [exact Hs|]. intros e' s' C. apply HQ; [exact Hq'|apply C|].
    eapply retry_resent; eassumption.
  - unfold count_retry. apply wp_bind, wp_ret, wp_ret, HQ; [exact Hq'|exact Hs|].
    apply retry_idle; [|apply chatter_refl, Hs]. intros (Hnn & _). rewrite frag_packets_length in Hr by exact Hlen.
    discriminate (Hr Hnn Hroom).
Qed.

(** The packet of [send_getpk_retry]. *)
Lemma wp_resend_getpk Q e0 h0 e s q h g :
  session_wf s -> tx_wf q -> hs_wf h -> session_can_retry s = true ->
  resend s h0 = Some [header_bytes PQC_MSG_GETPK (node_id s) (pending_msg_id s) 0 1 0 PQC_FLAG_RETRY] ->
  (forall r e' s' q', tx_wf q' -> session_wf s' -> retry_effect e0 s q h0 r s' q' -> Q r e' (mk_hs_world s' q' h g)) ->
  wp (queued ← send_getpk_retry (udp_send ctx); count_retry PQC_HEADER_LEN queued) Q e (mk_hs_world s q h g).
Proof.
  intros Hs Hq Hh Hcan Hre HQ. unfold send_getpk_retry. apply wp_bind, wp_bind, wp_on_s, wp_get.
  apply wp_bind, wp_lift. eexists. split; [apply header_write_eq; reflexivity|].
  set (pkt := header_bytes _ _ _ _ _ _ _) in *.
  eapply (wp_send_packet _ _ _ _ pkt); [exact Hq|clia|rewrite length_app; cbn; clia|reflexivity| | |].
  - replace pkt with (pkt ++ []) by apply app_nil_r. unfold pkt. rewrite header_valid_eq by clia. reflexivity.
  - intros q' conn dest Hctx Hroom Hadd. pose proof Hadd as (Hq' & _ & Hp & Hl).
    apply wp_count_retry; [exact Hs|]. intros e' s' C. apply HQ; [exact Hq'|apply C|].
    eapply retry_resent; [exact Hcan|exact Hre| |exact C]. split_and!; [exact Hq'|exact Hl|reflexivity|].
    intros _. exists conn, dest. split; [exact Hctx|exact Hp].
  - intros Hwhy. unfold count_retry. apply wp_bind, wp_ret, wp_ret, HQ; [exact Hq|exact Hs|].
    apply retry_idle; [|apply chatter_refl, Hs]. intros (Hnn & Hq0 & _). destruct Hwhy as [?|Hf]; [congruence|].
    rewrite Hq0 in Hf. discriminate.
Qed.

(** A session has at most one slot. *)
Lemma owned_unique l i j x y :
  slots_wf l -> at_index l i = Some x -> at_index l j = Some y ->
  slot_owned self x = true -> slot_owned self y = true -> x = y.
Proof.
  intros (a & b & -> & Hw) Hi Hj Hx Hy. assert (Hab : slot_owned self a = true -> slot_owned self b = false).
  { apply slots_wf_owned. exists a, b. auto. }
  apply at_index_some in Hi as [Hri Hi], Hj as [Hrj Hj]. cbn in Hri, Hrj.
  assert (i = 0 \/ i = 1) as [-> | ->] by lia; assert (j = 0 \/ j = 1) as [-> | ->] by lia;
    cbn in Hi, Hj; injection Hi as <-; injection Hj as <-; auto; exfalso;
    rewrite Hab in *; congruence.
Qed.

Lemma slots_wf_index l i : slots_wf l -> 0 <= i < HS_RX_SLOT_COUNT -> exists sl, at_index l i = Some sl.
Proof. intros (a & b & -> & _) Hi. apply at_index_total. cbn. clia. Qed.

Lemma chatter_retried s s' : chatter s s' -> chatter (retried_session s) (retried_session s').
Proof.
  intros Hc. pose proof (retried_session_wf _ (chatter_wf _ _ Hc)) as Hw. destruct Hc as [_ E]. split; [exact Hw|].
  unfold retried_session. apply session_ext; rsimpl; try reflexivity; rewrite E; rsimpl; reflexivity.
Qed.

(** An incomplete message lacks a fragment. *)
Lemma incomplete_missing c :
  rx_wf c -> rx_active c <> 0 -> fragment_rx_complete c = false -> rx_missing c <> [].
Proof.
  intros Hc Ha Hinc. rewrite rx_missing_nil. intros Hall. apply not_true_iff_false in Hinc. apply Hinc, rx_complete_iff; [exact Hc|].
  split; [destruct (wf_active _ Hc); lia|]. intros i Hi. pose proof (wf_bits _ Hc i). specialize (Hall i Hi). lia.
Qed.

(** Touching the slot and noting the NACK in it. *)
Lemma wp_note_asked Q n i sl e s q h g :
  session_wf s -> slots_wf (rx_slots h) -> at_index (rx_slots h) i = Some sl -> slot_owned self sl = true ->
  (forall e' s' l', chatter s s' -> slots_wf l' -> Q tt e' (mk_hs_world s' q (h <| rx_slots := l' |>) g)) ->
  wp (on_h (rx_slot_touch self);; rx_slot_note_nack self i n) Q e (mk_hs_world s q h g).
Proof.
  intros Hs Hsl Hi Ho HQ. apply wp_bind, wp_on_h, wp_slot_touch; [exact Hsl|]. intros e2 l2 Hl2 Hstart.
  destruct (slots_wf_index l2 i Hl2) as [sl2 Hi2].
  { apply at_index_some in Hi as [Hr _]. destruct Hsl as (a & b & E & _). rewrite E in Hr. cbn in Hr. clia. }
  destruct (Hstart _ _ Hi2) as (t & sl0 & Hi0 & E2). assert (sl0 = sl) as -> by congruence.
  assert (Ho2 : slot_owned self sl2 = true) by (rewrite E2; exact Ho).
  apply (wp_note_nack self _ i n _ _ _ _ _ sl2); [exact Hs|exact Hl2|exact Hi2|exact Ho2|].
  intros e3 s3 sl3 [C3 _] Hn. rsimpl. apply HQ; [exact C3|].
  exact (slots_noted_wf self l2 i sl2 sl3 Hl2 Hi2 Ho2 Hn).
Qed.

(** The root asks for the missing fragments of a ciphertext. *)
Lemma wp_retry_ct Q e0 e s q h g :
  session_wf s -> tx_wf q -> hs_wf h -> tx_count q = 0 -> session_can_retry s = true -> awaits_ct s = true ->
  (forall r e' s' q' l, tx_wf q' -> session_wf s' -> slots_wf l -> retry_effect e0 s q h r s' q' ->
     Q r e' (mk_hs_world s' q' (h <| rx_slots := l |>) g)) ->
  wp (retry_incomplete_ct (udp_send ctx) self) Q e (mk_hs_world s q h g).
Proof.
  intros Hs Hq Hh Hq0 Hcan Haw HQ. unfold retry_incomplete_ct. destruct h as [pk sk has nct rct slots].
  set (h := mk_hs_state pk sk has nct rct slots) in *. pose proof (hw_slots _ Hh) as Hsl.
  assert (Hfail : forall e1 s1 q1, chatter s s1 -> tx_wf q1 -> ctx_null ctx = true \/ ~ arriving h ->
    wp (fail_release self) Q e1 (mk_hs_world s1 q1 h g)).
  { intros e1 s1 q1 C1 Hq1 Hno. apply wp_fail_release; [apply C1|exact Hh|]. intros e2 s2 C2 Hh2. apply HQ; [exact Hq1|apply C2|apply Hh2|].
    apply retry_failed; [auto|]. exact (chatter_trans _ _ _ (chatter_failed _ _ C1) C2). }
  apply wp_bind, wp_on_h, wp_slot_find; [exact Hsl| |].
  2: { intros Hno. apply wp_bind, wp_ret. cbn [negb Z.eqb]. apply Hfail; [apply chatter_refl, Hs|exact Hq|]. right.
       intros (i & sl & Hi & Ho & _). apply at_index_some in Hi as [_ Hi].
       pose proof (Forall_lookup_1 _ _ _ _ Hno Hi) as Hn. cbn in Hn. congruence. }
  intros i sl Hi Ho. destruct (slot_at_owned self _ _ _ Hsl Hi Ho) as [Ha Hrx].
  apply wp_bind, wp_bind, wp_on_h. unfold rx_of, slot_at. apply wp_bind, wp_bind, wp_get, wp_lift. exists sl. split; [exact Hi|]. apply wp_ret.
  case_if.
  2: { apply wp_ret. cbn [negb Z.eqb]. apply Hfail; [apply chatter_refl, Hs|exact Hq|]. right. intros (j & sl' & Hj & Ho' & Hact & Hc).
       assert (sl' = sl) as -> by exact (owned_unique _ _ _ _ _ Hsl Hj Hi Ho' Ho). rewrite Hact, Hc in *. discriminate. }
  case_bools. apply wp_bind. eapply wp_send_nack; [exact Hs|exact Hq|exact Hi|exact Hrx|]. intros n s1 q1 C1 Hq1 Hn.
  apply wp_bind. destruct (Z.eqb_spec n 0) as [Hn0|Hn0]; cbn [negb].
  - apply wp_ret, wp_ret. rewrite (proj2 (Z.eqb_eq n 0)) by exact Hn0. cbn [negb].
    apply Hfail; [exact C1|exact Hq1|]. destruct (ctx_null ctx) eqn:Ec; [auto|exfalso].
    apply Hn; [reflexivity|rewrite Hq0; clia| |apply incomplete_missing; assumption|exact Hn0].
    destruct (wf_active _ Hrx); lia.
  - apply (wp_note_asked _ n i sl); [apply C1|exact Hsl|exact Hi|exact Ho|]. intros e2 s2 l2 C2 Hl2.
    apply wp_ret. rewrite (proj2 (Z.eqb_neq n 0)) by exact Hn0. cbn [negb].
    unfold hs_mark_rx_retry. apply wp_bind, wp_on_s, wp_mark_retry; [apply C2|]. intros e3 s3 [C3 _].
    apply wp_ret, HQ; [exact Hq1|apply C3|exact Hl2|]. apply retry_asked; [exact Hcan|exact Haw|].
    exact (chatter_trans _ _ _ (chatter_retried _ _ (chatter_trans _ _ _ C1 C2)) C3).
Qed.

(** Past the limit check: the message is sent again, or its rest asked for. *)
Lemma wp_retry_send Q e0 e s q h g :
  session_wf s -> tx_wf q -> hs_wf h -> tx_count q = 0 -> session_can_retry s = true ->
  (forall r e' s' q' h', session_wf s' -> tx_wf q' -> hs_wf h' ->
     (root_pk h', root_sk h', root_has_keypair h') = (root_pk h, root_sk h, root_has_keypair h) ->
     retry_effect e0 s q h r s' q' -> Q r e' (mk_hs_world s' q' h' g)) ->
  wp (if session_is_root s && (pending_msg_type s =? HS_MSG_CT) then retry_incomplete_ct (udp_send ctx) self
      else on_h (rx_slot_release self);;
           if session_is_node s && (pending_msg_type s =? PQC_MSG_GETPK)
           then queued ← send_getpk_retry (udp_send ctx); count_retry PQC_HEADER_LEN queued
           else if session_is_root s && (pending_msg_type s =? HS_MSG_PK) then retry_public_key (udp_send ctx)
           else if session_is_node s && (pending_msg_type s =? HS_MSG_CT) then retry_ciphertext (udp_send ctx)
           else mret false) Q e (mk_hs_world s q h g).
Proof.
  intros Hs Hq Hh Hq0 Hcan HQ. destruct (session_is_root s && (pending_msg_type s =? HS_MSG_CT)) eqn:Haw.
  { apply (wp_retry_ct _ e0); auto. intros r e' s' q' l Hq' Hs' Hl He. apply HQ; auto. apply with_slots_wf; assumption. }
  apply wp_bind, wp_on_h, wp_slot_release; [apply Hh|]. destruct (release_slots_wf self _ (hw_slots _ Hh)) as [Hl _].
  pose proof (with_slots_wf _ _ Hh Hl) as Hh2. set (h2 := h <| rx_slots := _ |>) in *.
  assert (HQ2 : forall r e' s' q', tx_wf q' -> session_wf s' -> retry_effect e0 s q h r s' q' -> Q r e' (mk_hs_world s' q' h2 g))
    by (intros; apply HQ; auto).
  destruct (hw_pk _ Hh) as [Hpk _], (hw_node_ct _ Hh) as [Hct _].
  assert (Hres : resend s h = resend s h2) by reflexivity. unfold resend in Hres at 2.
  case_if; [|case_if; [|case_if]].
  - apply (wp_resend_getpk _ e0 h); auto.
  - unfold retry_public_key, hs_fsm_root_has_keypair. apply wp_bind, wp_on_s, wp_get, wp_bind, wp_on_h, wp_get.
    destruct (Z.eqb_spec (root_has_keypair h2) 0) as [Hk|Hk].
    + apply wp_bind, wp_on_s, wp_set_failed; [exact Hs|]. intros e3 s3 [C3 _]. apply wp_ret, HQ2; [exact Hq|apply C3|].
      case_bools. apply retry_failed; [auto|exact C3].
    + apply (wp_resend_message _ _ _ _ e0 h); auto; first [clia|vm_compute; discriminate|unfold h2; rsimpl; clia].
  - unfold retry_ciphertext. apply wp_bind, wp_on_s, wp_get, wp_bind, wp_on_h, wp_get.
    apply (wp_resend_message _ _ _ _ e0 h); auto; first [clia|vm_compute; discriminate|unfold h2; rsimpl; clia].
  - apply wp_ret, HQ2; auto. apply retry_idle; [|apply chatter_refl, Hs].
    intros (_ & _ & _ & Hk & _). unfold awaits_ct in Hk. rewrite Haw in Hk. destruct Hk as [?|Hk]; [discriminate|].
    apply Hk. exact Hres.
Qed.

Lemma wp_retry_due Q e s q h g :
  (forall n, (e_reads e <= n)%nat -> retry_deadline s <= uclk (e_clock e n) -> waiting_response s <> 0 ->
     forall e', Q true e' (mk_hs_world s q h g)) ->
  ((waiting_response s = 0 \/ exists n, (e_reads e <= n)%nat /\ uclk (e_clock e n) < retry_deadline s) ->
     forall e', Q false e' (mk_hs_world s q h g)) ->
  wp (on_s session_retry_due) Q e (mk_hs_world s q h g).
Proof.
  intros Hyes Hno. apply wp_on_s. unfold session_retry_due. apply wp_bind, wp_get.
  destruct (Z.eqb_spec (waiting_response s) 0) as [Hw|Hw]; [apply wp_ret, Hno; auto|].
  apply wp_bind, wp_clock_time, wp_ret. destruct (Z.leb_spec (retry_deadline s) (uclk (e_clock e (e_reads e)))).
  - apply (Hyes (e_reads e)); auto.
  - apply Hno. right. exists (e_reads e). auto.
Qed.

Lemma wp_retry Q e s q h g (h1 := h <| rx_slots := gc_slot (uclk (e_clock e (e_reads e))) <$> rx_slots h |>) :
  session_wf s -> tx_wf q -> hs_wf h ->
  (forall r e' s' q' h', session_wf s' -> tx_wf q' -> hs_wf h' ->
     (root_pk h', root_sk h', root_has_keypair h') = (root_pk h, root_sk h, root_has_keypair h) ->
     retry_effect e s q h1 r s' q' -> Q r e' (mk_hs_world s' q' h' g)) ->
  wp (hs_fsm_retry (udp_send ctx) self) Q e (mk_hs_world s q h g).
Proof.
  intros Hs Hq Hh HQ. unfold hs_fsm_retry.
  pose proof (with_slots_wf _ _ Hh (gc_slots_wf (uclk (e_clock e (e_reads e))) _ (hw_slots _ Hh))) as Hh1. fold h1 in Hh1.
  assert (Hk1 : (root_pk h1, root_sk h1, root_has_keypair h1) = (root_pk h, root_sk h, root_has_keypair h)) by reflexivity.
  apply wp_bind, wp_on_h.
  apply wp_env_le; [timely_ops|]. apply wp_gc; [apply Hh|]. intros e1 [Hc1 Hr1]. fold h1.
  apply wp_bind, wp_retry_due.
  2: { intros Hnd e2. apply wp_ret, HQ; auto. apply retry_idle; [|apply chatter_refl, Hs].
       intros (_ & _ & Hw & _ & Hd). destruct Hnd as [?|(n & Hn & Hlt)]; [contradiction|]. rewrite Hc1 in Hlt.
       specialize (Hd n ltac:(lia)). lia. }
  intros _ _ _ _ e2. cbn [negb]. apply wp_bind, wp_on_q, wp_get. unfold pqc_tx_has_pending.
  pose proof (pending_bound q Hq). destruct (Z.ltb_spec 0 (tx_count q)).
  { apply wp_bind, wp_on_s, wp_set_deadline; [exact Hs|]. intros e3 s3 [C3 _]. apply wp_ret, HQ; auto; [apply C3|].
    apply retry_idle; [|exact C3]. intros (_ & Hq0 & _). lia. }
  apply wp_bind, wp_on_s, wp_get. destruct (session_can_retry s) eqn:Ecan; cbn [negb].
  - apply (wp_retry_send Q e); auto. lia.
  - apply wp_bind, wp_on_s, wp_set_failed; [exact Hs|]. intros e3 s3 [C3 _].
    apply wp_bind, wp_on_h, wp_slot_release; [apply Hh1|].
    destruct (release_slots_wf self _ (hw_slots _ Hh1)) as [Hl _]. pose proof (with_slots_wf _ _ Hh1 Hl) as Hh3.
    assert (Heff : retry_effect e s q h1 false s3 q) by (apply retry_failed; [congruence|exact C3]).
    apply wp_bind. case_if; [|apply wp_ret, wp_ret, HQ; auto; apply C3].
    apply wp_zero_node_ct; [exact Hh3|]. intros Hh4. apply wp_ret, HQ; auto; apply C3.
Qed.

End Entry.
