(* ===== verification/HandshakeProps.v ===== *)
(** * The handshake as a protocol machine

    The abstract machine of a session: its states, what each event does, and what
    follows from its rules alone; then the refinement of the machine by
    [hs_fsm_start], [hs_fsm_handle_fragment] and [hs_fsm_retry], the service of
    negative acknowledgements and the bound on retries. *)

From S2P Require Import Prelude Platform Protocol Fragmentation Nack Metrics CryptoWorker Session TxQueue Telemetry Handshake HandshakeTime HandshakeFacts HandshakeRules HandshakeStep.

(** ** The machine *)

(** What matters of a session. *)
Record hs_view := mk_view {
  v_role : session_role_t;
  v_state : session_state_t;
  v_established : Z;
  v_pending : Z;
  v_waiting : Z;
  v_retries : Z;
  v_ss : bytes;
  v_key : bytes;
}.
#[export] Instance eta_hs_view : Eta hs_view := fun r =>
  mk_view (v_role r) (v_state r) (v_established r) (v_pending r) (v_waiting r) (v_retries r) (v_ss r) (v_key r).

(** Events: a start; a datagram with a fragment of a message of some type, of which the last
    missing one completes the message; a retry; a turn of a node's routing process, in
    which it may request the public key; a datagram of a ciphertext that the root notes
    before it handles it; a reset.  An event says that the machine may make a step,
    not that it does: [step_stay] is always one. *)
Inductive hs_event := EvStart | EvFragment (mt : Z) | EvRetry | EvRequest | EvAccept | EvReset.
#[export] Instance hs_event_eq_dec : EqDecision hs_event.
Proof. solve_decision. Defined.

Definition v_cleared (v : hs_view) : hs_view := v <| v_pending := 0 |> <| v_waiting := 0 |> <| v_retries := 0 |>.
Definition v_failed (v : hs_view) : hs_view :=
  v_cleared (v <| v_state := SESSION_STATE_FAILED |> <| v_established := 0 |>).
Definition v_done (v : hs_view) : hs_view :=
  v_cleared (v <| v_state := SESSION_STATE_ESTABLISHED |> <| v_established := 1 |>).
Definition v_keyed (v : hs_view) (secret : bytes) : hs_view := v <| v_ss := secret |> <| v_key := aes_key_of secret |>.
Definition v_waits (v : hs_view) (mt : Z) : hs_view := v <| v_pending := mt |> <| v_waiting := 1 |>.

Inductive hs_step : hs_event -> hs_view -> hs_view -> Prop :=
| step_stay ev v : hs_step ev v v
| step_wait_pk v :
    v_role v = SESSION_ROLE_NODE -> v_state v = SESSION_STATE_IDLE \/ v_state v = SESSION_STATE_WAIT_PK ->
    hs_step EvStart v (v <| v_state := SESSION_STATE_WAIT_PK |>)
| step_request v :
    v_role v = SESSION_ROLE_NODE -> v_state v = SESSION_STATE_IDLE ->
    hs_step EvRequest v (v_waits (v <| v_state := SESSION_STATE_WAIT_PK |>) PQC_MSG_GETPK)
| step_send_pk v :
    v_role v = SESSION_ROLE_ROOT ->
    hs_step EvStart v (v_waits (v <| v_state := SESSION_STATE_WAIT_CT |>) HS_MSG_PK)
| step_start_failed v :
    v_role v = SESSION_ROLE_ROOT -> hs_step EvStart v (v_failed v)
| step_send_ct v secret :
    v_role v = SESSION_ROLE_NODE -> v_state v = SESSION_STATE_WAIT_PK -> v_pending v = PQC_MSG_GETPK ->
    hs_step (EvFragment HS_MSG_PK) v
      (v_waits ((v_cleared (v_keyed v secret)) <| v_state := SESSION_STATE_WAIT_ACK |>) HS_MSG_CT)
| step_accept v :
    v_role v = SESSION_ROLE_ROOT -> v_state v = SESSION_STATE_WAIT_CT -> v_pending v = HS_MSG_PK ->
    hs_step EvAccept v (v_waits v HS_MSG_CT)
| step_decapsulate v secret :
    v_role v = SESSION_ROLE_ROOT -> v_state v = SESSION_STATE_WAIT_CT ->
    hs_step (EvFragment HS_MSG_CT) v (v_done (v_keyed v secret))
| step_confirm v :
    v_role v = SESSION_ROLE_NODE -> v_state v = SESSION_STATE_WAIT_ACK -> v_pending v = HS_MSG_CT ->
    hs_step (EvFragment HS_MSG_ACK) v (v_done v)
| step_message_failed v mt secret key :
    v_role v = SESSION_ROLE_NODE /\ mt = HS_MSG_PK /\ v_state v = SESSION_STATE_WAIT_PK \/
    v_role v = SESSION_ROLE_ROOT /\ mt = HS_MSG_CT /\ v_state v = SESSION_STATE_WAIT_CT ->
    hs_step (EvFragment mt) v (v_failed (v <| v_ss := secret |> <| v_key := key |>))
| step_retry v :
    v_retries v < SESSION_MAX_RETRIES -> hs_step EvRetry v (v <| v_retries ::= (fun n => n + 1) |>)
| step_retry_failed v : hs_step EvRetry v (v_failed v)
| step_reset v :
    (v_role v = SESSION_ROLE_NODE -> v_state v = SESSION_STATE_FAILED) ->
    hs_step EvReset v (mk_view (v_role v) SESSION_STATE_IDLE 0 0 0 0
      (zeros CW_HQC_SHARED_LEN) (zeros CW_AES_KEY_LEN)).

Inductive hs_steps : list hs_event -> hs_view -> hs_view -> Prop :=
| steps_nil v : hs_steps [] v v
| steps_cons ev evs v1 v2 v3 : hs_step ev v1 v2 -> hs_steps evs v2 v3 -> hs_steps (ev :: evs) v1 v3.

Lemma hs_steps_app evs1 evs2 v1 v2 v3 :
  hs_steps evs1 v1 v2 -> hs_steps evs2 v2 v3 -> hs_steps (evs1 ++ evs2) v1 v3.
Proof. induction 1; intros H2; [exact H2|]. cbn. eapply steps_cons; [eassumption|auto]. Qed.

Lemma steps_stay evs v : hs_steps evs v v.
Proof. induction evs as [|ev evs IH]; [apply steps_nil|exact (steps_cons ev evs v v v (step_stay ev v) IH)]. Qed.

(** The invariant of a session: while a key exists it is the one derived from the
    secret, and the flag agrees with the state. *)
Record keyed_inv (v : hs_view) : Prop := {
  vi_key : v_state v = SESSION_STATE_WAIT_ACK \/ v_state v = SESSION_STATE_ESTABLISHED -> v_key v = aes_key_of (v_ss v);
  vi_flag : v_state v = SESSION_STATE_ESTABLISHED -> v_established v = 1 /\ v_pending v = 0 /\ v_waiting v = 0;
}.

Lemma step_keyed ev v v' : hs_step ev v v' -> keyed_inv v -> keyed_inv v'.
Proof. intros Hs [Hk Hf]. destruct Hs; constructor; cbn in *; intuition (congruence || discriminate). Qed.

Lemma steps_keyed evs v v' : hs_steps evs v v' -> keyed_inv v -> keyed_inv v'.
Proof. induction 1; eauto using step_keyed. Qed.

(** The retries are counted up to the limit. *)
Lemma step_retries ev v v' : hs_step ev v v' -> v_retries v' <= Z.max (v_retries v) SESSION_MAX_RETRIES.
Proof. unfold SESSION_MAX_RETRIES. intros Hs. destruct Hs; cbn in *; unfold SESSION_MAX_RETRIES in *; lia. Qed.

Lemma steps_retries evs v v' : hs_steps evs v v' -> v_retries v' <= Z.max (v_retries v) SESSION_MAX_RETRIES.
Proof. induction 1 as [|ev evs v1 v2 v3 Hs _ IH]; [lia|]. pose proof (step_retries _ _ _ Hs). lia. Qed.

Record view_inv (v : hs_view) : Prop := {
  vi_keyed : keyed_inv v;
  vi_retries : 0 <= v_retries v <= SESSION_MAX_RETRIES;
}.

Lemma step_inv ev v v' : hs_step ev v v' -> view_inv v -> view_inv v'.
Proof.
  intros Hs [Hk Hr]. split; [exact (step_keyed _ _ _ Hs Hk)|]. pose proof (step_retries _ _ _ Hs). split; [|lia].
  destruct Hs; cbn in *; lia.
Qed.

Lemma steps_inv evs v v' : hs_steps evs v v' -> view_inv v -> view_inv v'.
Proof. induction 1; eauto using step_inv. Qed.

Lemma steps_role evs v v' : hs_steps evs v v' -> v_role v' = v_role v.
Proof. induction 1 as [|ev evs v1 v2 v3 Hs _ IH]; [reflexivity|]. rewrite IH. destruct Hs; reflexivity. Qed.

(** What a session that is not established must still see to be established. *)
Definition still_needed (r : session_role_t) (st : session_state_t) : list hs_event :=
  match r, st with
  | SESSION_ROLE_NODE, SESSION_STATE_WAIT_ACK => [EvFragment HS_MSG_ACK]
  | SESSION_ROLE_NODE, _ => [EvFragment HS_MSG_PK; EvFragment HS_MSG_ACK]
  | SESSION_ROLE_ROOT, SESSION_STATE_WAIT_CT => [EvFragment HS_MSG_CT]
  | SESSION_ROLE_ROOT, _ => [EvStart; EvFragment HS_MSG_CT]
  end.
Definition needed (v : hs_view) : list hs_event := still_needed (v_role v) (v_state v).

Lemma step_needed ev v v' : hs_step ev v v' -> v_state v <> SESSION_STATE_ESTABLISHED ->
  sublist (needed v) (ev :: if decide (v_state v' = SESSION_STATE_ESTABLISHED) then [] else needed v').
Proof.
  intros Hs Hne.
  destruct Hs; cbn; rewrite ?decide_False by (exact Hne || discriminate); rewrite ?decide_True by reflexivity; unfold needed; cbn;
    repeat match goal with Hv : v_role _ = _ |- _ => rewrite Hv in * end; repeat match goal with Hv : v_state _ = _ |- _ => rewrite Hv in * end; cbn;
    try (destruct (v_role v), (v_state v)); cbn; repeat first [reflexivity | apply sublist_skip | apply sublist_cons | apply sublist_nil_l].
Qed.

Lemma steps_needed evs v v' : hs_steps evs v v' -> v_state v <> SESSION_STATE_ESTABLISHED -> v_state v' = SESSION_STATE_ESTABLISHED -> sublist (needed v) evs.
Proof.
  induction 1 as [v|ev evs v1 v2 v3 Hs _ IH]; intros Hne He; [contradiction|]. pose proof (step_needed _ _ _ Hs Hne) as H1. etrans; [exact H1|].
  apply sublist_skip. case_decide as H2; [apply sublist_nil_l|exact (IH H2 He)].
Qed.

(** What must have happened before a state is reached. *)
Definition history (evs : list hs_event) (v : hs_view) : Prop :=
  match v_role v with
  | SESSION_ROLE_NODE =>
      (v_pending v = PQC_MSG_GETPK -> sublist [EvRequest] evs) /\
      (v_state v = SESSION_STATE_WAIT_ACK -> sublist [EvRequest; EvFragment HS_MSG_PK] evs) /\
      (v_state v = SESSION_STATE_ESTABLISHED ->
         sublist [EvRequest; EvFragment HS_MSG_PK; EvFragment HS_MSG_ACK] evs)
  | SESSION_ROLE_ROOT =>
      (v_state v = SESSION_STATE_WAIT_CT -> sublist [EvStart] evs) /\
      (v_state v = SESSION_STATE_ESTABLISHED -> sublist [EvStart; EvFragment HS_MSG_CT] evs)
  end.

Lemma sublist_snoc {A} (l k : list A) (x : A) : sublist l k -> sublist (l ++ [x]) (k ++ [x]).
Proof. intros Hl. apply sublist_app; [exact Hl|reflexivity]. Qed.

Lemma step_history ev evs v v' : hs_step ev v v' -> history evs v -> history (evs ++ [ev]) v'.
Proof.
  intros Hs Hh. assert (Hext : forall l, sublist l evs -> sublist l (evs ++ [ev])) by (intros; apply sublist_inserts_r; assumption).
  unfold history in *.
  destruct Hs; cbn in *; repeat match goal with Hv : v_role _ = _ |- _ => rewrite Hv in * end;
    try (destruct (v_role v); intuition (try discriminate; auto); fail).
  all: split_and!; intros; try discriminate; try (apply Hext; tauto);
    first [apply (sublist_snoc []) | apply (sublist_snoc [_]) | apply (sublist_snoc [_; _])];
    intuition auto using sublist_nil_l.
Qed.

Lemma steps_history evs0 evs v v' : hs_steps evs v v' -> history evs0 v -> history (evs0 ++ evs) v'.
Proof.
  intros Hs. revert evs0. induction Hs as [v|ev evs v1 v2 v3 H1 _ IH]; intros evs0 Hh; [rewrite app_nil_r; exact Hh|].
  rewrite cons_middle, app_assoc. apply IH. exact (step_history _ _ _ _ H1 Hh).
Qed.

(** A session as [session_reset] leaves it. *)
Definition view_fresh (v : hs_view) : Prop :=
  v_state v = SESSION_STATE_IDLE /\ v_pending v = 0 /\ v_retries v = 0.

Lemma fresh_inv v : view_fresh v -> view_inv v /\ history [] v.
Proof.
  intros (Hst & Hp & Hr). split.
  - constructor; [constructor|]; rewrite ?Hst, ?Hr; unfold SESSION_MAX_RETRIES; (intros; intuition discriminate) || lia.
  - unfold history. rewrite Hst, Hp. destruct (v_role v); intuition discriminate.
Qed.

(** ** The program's calls as steps of the machine *)

Section Refinement.
Context `{PlatformLaws} `{CryptoLaws} (ctx : pqc_udp_send_ctx_t) (self : sref).

Definition view (s : session_t) : hs_view :=
  mk_view (role s) (state s) (established s) (pending_msg_type s) (waiting_response s) (retry_count s) (ss s) (aes_key s).

Lemma view_chatter s s' : chatter s s' -> view s' = view s.
Proof.
  intros Hc. destruct (chatter_fields _ _ Hc) as [[= _ _ Fr Fs Fe _ _] [= Fss Fk Fc Fp _ Fw]].
  unfold view. congruence.
Qed.

(** The event of a datagram: that of the fragment it holds, whichever it is. *)
Definition datagram_event (data : bytes) (len : Z) : hs_event :=
  match parse_fragment_header (Some data) len with
  | Some (Some fh) => EvFragment (fh_msg_type fh)
  | _ => EvFragment 0
  end.

Lemma effect_step s mt s' : session_effect s mt s' -> hs_step (EvFragment mt) (view s) (view s').
Proof.
  intros He. destruct He as [s' C|s' secret mid Hn -> Hst Hp _ _ C|s' secret key Hwhen _ _ C
    |s' Hn -> Hst Hp C|s' secret Hn -> Hst _ C]; rewrite (view_chatter _ _ C).
  - apply step_stay.
  - apply bool_decide_eq_true in Hn. apply (step_send_ct (view s) secret); assumption.
  - apply (step_message_failed (view s) mt secret key). unfold session_is_node, session_is_root in Hwhen.
    rewrite !bool_decide_eq_true in Hwhen. exact Hwhen.
  - apply bool_decide_eq_true in Hn. apply (step_confirm (view s)); assumption.
  - apply bool_decide_eq_true in Hn. apply (step_decapsulate (view s) secret); assumption.
Qed.

Lemma view_learned s fh : view (learned s fh) = view s.
Proof. unfold learned. case_if; reflexivity. Qed.

Lemma handled_step data len s s' : handled data len s s' -> hs_step (datagram_event data len) (view s) (view s').
Proof.
  intros [C|(fh & Hp & He)]; [rewrite (view_chatter _ _ C); apply step_stay|].
  unfold datagram_event. rewrite Hp, <- (view_learned s fh). apply effect_step, He.
Qed.

Lemma started_step s q h g r s' q' h' g' :
  started ctx s q h g r s' q' h' g' -> hs_step EvStart (view s) (view s').
Proof.
  unfold started. destruct (role s) eqn:Er.
  - intros (_ & _ & _ & Hr). case_if; destruct Hr as [_ ->]; [|apply step_stay]. apply (step_wait_pk (view s)); [exact Er|].
    match goal with Hb : _ = true |- _ => apply orb_true_iff in Hb; rewrite !bool_decide_eq_true in Hb; exact Hb end.
  - intros (made & s1 & _ & [C1 _] & Hr). destruct made.
    + destruct Hr as (_ & _ & Hr). pose proof (view_chatter _ _ C1) as E1. destruct r.
      * destruct Hr as [C _]. rewrite (view_chatter _ _ C). replace (view (pk_session s1 (next_msg_id s1)))
          with (v_waits ((view s) <| v_state := SESSION_STATE_WAIT_CT |>) HS_MSG_PK) by (rewrite <- E1; reflexivity).
        apply (step_send_pk (view s)), Er.
      * destruct Hr as [C|C]; rewrite (view_chatter _ _ C); [rewrite E1; apply step_stay|].
        replace (view (failed_session s1)) with (v_failed (view s)) by (rewrite <- E1; reflexivity).
        apply (step_start_failed (view s)), Er.
    + destruct Hr as (_ & _ & C). rewrite (view_chatter _ _ C). apply (step_start_failed (view s)), Er.
Qed.

Lemma retried_step e s q h r s' q' :
  session_wf s -> retry_effect ctx self e s q h r s' q' -> hs_step EvRetry (view s) (view s').
Proof.
  intros Hs He. assert (Hagain : session_can_retry s = true -> chatter (retried_session s) s' -> hs_step EvRetry (view s) (view s')).
  { intros Hcan C. unfold session_can_retry in Hcan. case_bools. pose proof (sw_retry _ Hs).
    rewrite (view_chatter _ _ C). replace (view (retried_session s)) with ((view s) <| v_retries ::= (fun n => n + 1) |>).
    - apply (step_retry (view s)). assumption.
    - unfold retried_session, view. cbn. rewrite u8_id by (unfold SESSION_MAX_RETRIES in *; clia). reflexivity. }
  destruct He as [r s' q' _ C|s' q' pkts Hcan _ _ C|s' q' Hcan _ C|s' q' _ C]; auto; rewrite (view_chatter _ _ C);
    [apply step_stay|apply (step_retry_failed (view s))].
Qed.

(** ** Whose a session is *)

(** A node without an identifier takes the one of the first datagram. *)
Definition unnamed (s : session_t) : bool := session_is_node s && (node_id s =? SESSION_INVALID_NODE_ID).

(** The session stays whose it was. *)
Definition same_owner (s s' : session_t) : Prop :=
  used s' = used s /\ role s' = role s /\ (unnamed s = false -> node_id s' = node_id s).

Lemma same_owner_refl s : same_owner s s.
Proof. split_and!; auto. Qed.
Lemma same_owner_trans s1 s2 s3 : same_owner s1 s2 -> same_owner s2 s3 -> same_owner s1 s3.
Proof.
  intros (U1 & R1 & N1) (U2 & R2 & N2). split_and!; [congruence|congruence|]. intros Hn. rewrite <- (N1 Hn).
  apply N2. unfold unnamed, session_is_node in *. rewrite R1, (N1 Hn). exact Hn.
Qed.

Lemma chatter_owner s s' : chatter s s' -> same_owner s s'.
Proof. intros C. destruct (chatter_fields _ _ C) as [[= Fu Fn Fr _ _ _ _] _]. split_and!; auto. Qed.

(** Changing the state of a session does not change whose it is. *)
Ltac owner_step C := eapply same_owner_trans; [|exact (chatter_owner _ _ C)]; split_and!; reflexivity.

Lemma effect_owner s mt s' : session_effect s mt s' -> same_owner s s'.
Proof.
  intros [s1 C|s1 secret mid _ _ _ _ _ _ C|s1 secret key _ _ _ C|s1 _ _ _ _ C|s1 secret _ _ _ _ C];
    [exact (chatter_owner _ _ C)|owner_step C..].
Qed.

Lemma handled_owner data len s s' : handled data len s s' -> same_owner s s'.
Proof.
  intros [C|(fh & _ & He)]; [exact (chatter_owner _ _ C)|].
  eapply same_owner_trans; [|exact (effect_owner _ _ _ He)]. unfold learned. fold (unnamed s).
  destruct (unnamed s) eqn:Hn; [|apply same_owner_refl]. split_and!; rsimpl; [reflexivity..|]. rewrite Hn. discriminate.
Qed.

Lemma started_owner s q h g r s' q' h' g' : started ctx s q h g r s' q' h' g' -> same_owner s s'.
Proof.
  unfold started. destruct (role s) eqn:Er.
  - intros (_ & _ & _ & Hr). case_if; destruct Hr as [_ ->]; [|apply same_owner_refl]. split_and!; auto.
  - intros (made & s1 & _ & [C1 _] & Hr). destruct made.
    + apply (same_owner_trans _ s1); [exact (chatter_owner _ _ C1)|]. destruct Hr as (_ & _ & Hr). destruct r.
      * destruct Hr as [C _]. owner_step C.
      * destruct Hr as [C|C]; [exact (chatter_owner _ _ C)|owner_step C].
    + destruct Hr as (_ & _ & C). owner_step C.
Qed.

Lemma retried_owner e s q h r s' q' : retry_effect ctx self e s q h r s' q' -> same_owner s s'.
Proof.
  intros [r1 s1 q1 _ C|s1 q1 pkts _ _ _ C|s1 q1 _ _ C|s1 q1 _ C]; [exact (chatter_owner _ _ C)|owner_step C..].
Qed.

(** ** Sequences of calls *)

Inductive hs_call := CallStart | CallFragment (data : bytes) (len : Z) | CallRetry.

Definition hs_exec (c : hs_call) : M hs_world bool :=
  match c with
  | CallStart => hs_fsm_start (udp_send ctx)
  | CallFragment data len => hs_fsm_handle_fragment (udp_send ctx) self data len
  | CallRetry => hs_fsm_retry (udp_send ctx) self
  end.

Fixpoint hs_exec_all (calls : list hs_call) : M hs_world (list bool) :=
  match calls with
  | [] => mret []
  | c :: calls => r ← hs_exec c; rs ← hs_exec_all calls; mret (r :: rs)
  end.

(** A received datagram is bytes, its length that of the buffer at most. *)
Definition call_ok (c : hs_call) : Prop :=
  match c with CallFragment data len => all_bytes data /\ len <= Z.of_nat (length data) | _ => True end.

Definition call_event (c : hs_call) : hs_event :=
  match c with
  | CallStart => EvStart | CallFragment data len => datagram_event data len | CallRetry => EvRetry
  end.

Definition world_wf (w : hs_world) : Prop := session_wf (hw_s w) /\ tx_wf (hw_tx w) /\ hs_wf (hw_hs w).

(** The root's key pair, once made, stays. *)
Definition keypair_kept (h h' : hs_state) : Prop :=
  root_has_keypair h <> 0 -> (root_pk h', root_sk h', root_has_keypair h') = (root_pk h, root_sk h, root_has_keypair h).

Lemma keypair_kept_trans h1 h2 h3 : keypair_kept h1 h2 -> keypair_kept h2 h3 -> keypair_kept h1 h3.
Proof. unfold keypair_kept. intros H12 H23 Hk. specialize (H12 Hk). injection H12 as E1 E2 E3. rewrite <- E1, <- E2, <- E3. apply H23. congruence. Qed.

Lemma wp_hs_exec c e w :
  world_wf w -> call_ok c ->
  wp (hs_exec c) (fun _ _ w' => world_wf w' /\ keypair_kept (hw_hs w) (hw_hs w') /\
    same_owner (hw_s w) (hw_s w') /\ hs_step (call_event c) (view (hw_s w)) (view (hw_s w'))) e w.
Proof.
  destruct w as [s q h g]. intros (Hs & Hq & Hh) Hc. cbn [hw_s hw_tx hw_hs] in *. destruct c as [|data len|]; cbn [hs_exec call_event].
  - apply wp_start; try assumption. intros r e' s' q' h' g' Hs' Hq' Hh' Hst. cbn [hw_s hw_tx hw_hs].
    split_and!; [split_and!; assumption| |exact (started_owner _ _ _ _ _ _ _ _ _ Hst)|exact (started_step _ _ _ _ _ _ _ _ _ Hst)].
    intros Hk. unfold started in Hst. destruct (role s); [destruct Hst as [-> _]; reflexivity|].
    destruct Hst as (made & s1 & Hmade & _). unfold keypair_made in Hmade. rsimpl.
    rewrite (proj2 (Z.eqb_neq _ _)) in Hmade by exact Hk. destruct Hmade as (_ & -> & _). reflexivity.
  - destruct Hc as [Hb Hl]. apply wp_handle; try assumption. intros r e' s' q' h' g' Hs' Hq' Hh' Hk Hhd.
    cbn [hw_s hw_tx hw_hs]. split_and!; [split_and!; assumption|intros _; exact Hk|exact (handled_owner _ _ _ _ Hhd)|exact (handled_step _ _ _ _ Hhd)].
  - apply wp_retry; try assumption. intros r e' s' q' h' Hs' Hq' Hh' Hk He.
    cbn [hw_s hw_tx hw_hs]. split_and!; [split_and!; assumption|intros _; exact Hk|exact (retried_owner _ _ _ _ _ _ _ He)|exact (retried_step _ _ _ _ _ _ _ Hs He)].
Qed.

Lemma wp_hs_exec_all calls e w :
  world_wf w -> Forall call_ok calls ->
  wp (hs_exec_all calls) (fun rs _ w' => world_wf w' /\ length rs = length calls /\
    keypair_kept (hw_hs w) (hw_hs w') /\
    hs_steps (call_event <$> calls) (view (hw_s w)) (view (hw_s w'))) e w.
Proof.
  revert e w. induction calls as [|c calls IH]; intros e w Hw Hok; cbn [hs_exec_all fmap list_fmap].
  { apply wp_ret. split_and!; auto using steps_nil. intros _. reflexivity. }
  apply list.Forall_cons in Hok as [Hc Hok]. apply wp_bind. eapply wp_mono; [|apply (wp_hs_exec c e w Hw Hc)].
  intros r e1 w1 (Hw1 & Hk1 & _ & Hs1). apply wp_bind. eapply wp_mono; [|apply (IH e1 w1 Hw1 Hok)].
  intros rs e2 w2 (Hw2 & Hl & Hk2 & Hs2). apply wp_ret. split_and!; [exact Hw2|cbn; lia|exact (keypair_kept_trans _ _ _ Hk1 Hk2)|].
  eapply steps_cons; eassumption.
Qed.

(** ** The service of negative acknowledgements *)

(** The start of [hs_fsm_handle_fragment], for a fragment the session accepts. *)
Lemma wp_handle_accepted Q data len fh e s q h g
    (h1 := h <| rx_slots := gc_slot (uclk (e_clock e (e_reads e))) <$> rx_slots h |>) :
  session_wf s -> hs_wf h -> parse_fragment_header (Some data) len = Some (Some fh) ->
  fh_node_id fh = node_id s -> node_id s <> SESSION_INVALID_NODE_ID -> fragment_unexpected s fh = false ->
  (forall e1, env_le e e1 -> hs_wf h1 ->
     wp (if session_is_root s && session_is_established s && (fh_msg_type fh =? HS_MSG_CT) then
           (if (fh_frag_idx fh =? 0) || (fh_frag_idx fh + 1 =? fh_total_frags fh)
            then _ ← send_ack (udp_send ctx) (fh_msg_id fh); mret tt else mret tt);;
           mret true
         else if session_is_root s && (fh_msg_type fh =? HS_MSG_CT) && negb (bool_decide (state s = SESSION_STATE_WAIT_CT))
         then mret false
         else if fh_msg_type fh =? HS_MSG_NACK then
           if negb (fh_frag_idx fh =? 0) || negb (fh_total_frags fh =? 1) then mret false else
           '(ok, nack) ← lift (pqc_nack_decode (Some (drop 10 data)) (fh_frag_len fh) nack_zero);
           if negb (ok : bool) then mret false else retransmit_nack_fragments (udp_send ctx) nack
         else receive_fragment (udp_send ctx) self fh (drop 10 data)) Q e1 (mk_hs_world s q h1 g)) ->
  wp (hs_fsm_handle_fragment (udp_send ctx) self data len) Q e (mk_hs_world s q h g).
Proof.
  intros Hs Hh Hparse Hid Hinv Hexp HQ. unfold hs_fsm_handle_fragment.
  pose proof (with_slots_wf _ _ Hh (gc_slots_wf (uclk (e_clock e (e_reads e))) _ (hw_slots _ Hh))) as Hh1. fold h1 in Hh1.
  apply wp_bind, wp_on_h.
  apply wp_env_le; [timely_ops|]. apply wp_gc; [apply Hh|]. intros e1 Hle. fold h1. apply wp_bind, wp_lift. eexists. split; [exact Hparse|].
  apply wp_bind, wp_on_s, wp_get. rewrite Hid, Z.eqb_refl, (proj2 (Z.eqb_neq _ _)) by exact Hinv.
  cbn [negb]. rewrite !andb_false_r. apply wp_bind, wp_ret. rewrite Hexp. exact (HQ e1 Hle Hh1).
Qed.

(** The datagram of a NACK. *)
Definition nack_packet (nid id mt mid tf : Z) (l : list Z) : bytes :=
  frag_packet (nack_payload mt mid tf l) (4 + Z.of_nat (length l)) HS_MSG_NACK nid id PQC_FLAG_NONE 0.

Lemma nack_packet_parsed nid id mt mid tf l :
  is_u16 nid -> 1 <= Z.of_nat (length l) <= 16 ->
  parse_fragment_header (Some (nack_packet nid id mt mid tf l)) (Z.of_nat (length (nack_packet nid id mt mid tf l))) =
    Some (Some (mk_fragment_header HS_MSG_NACK nid id 0 1 (4 + Z.of_nat (length l)))) /\
  drop 10 (nack_packet nid id mt mid tf l) = nack_payload mt mid tf l.
Proof.
  intros Hn Hl. set (len := 4 + Z.of_nat (length l)).
  assert (Hlen : 0 < len <= FRAG_MAX_MESSAGE_LEN) by (unfold len; clia).
  assert (Hone : fragment_tx_count len = 1).
  { destruct (tx_count_spec len Hlen) as (-> & _). symmetry. apply (Z.div_unique _ _ _ (len - 1)); unfold len; lia. }
  assert (Hpl : Z.of_nat (length (nack_payload mt mid tf l)) = len)
    by (unfold nack_payload, len; rewrite length_app; cbn [length]; lia).
  assert (Hfl : frag_len len 0 = len) by (unfold frag_len, FRAG_MAX_PAYLOAD_LEN, len; lia).
  split.
  - unfold nack_packet. fold len. rewrite parse_packet; [|exact Hlen|lia|lia|exact Hn]. rewrite Hone, Hfl. reflexivity.
  - unfold nack_packet, frag_packet. fold len. change (drop 10 (header_bytes ?a ?b ?c ?d ?e ?f ?g ++ ?r)) with r.
    unfold frag_payload. rewrite Hfl. cbn [Z.mul Z.to_nat drop]. apply take_ge. lia.
Qed.

End Refinement.

(** ** Retries without an answer *)

(** Rounds in which a due retry finds the queue empty and no answer has arrived; the
    rest of the world may be anything well formed. *)
Inductive silence `{Platform} `{Crypto} (ctx : pqc_udp_send_ctx_t) (self : sref) : nat -> session_t -> session_t -> Prop :=
| silence_nil s : silence ctx self 0 s s
| silence_round n s s1 s2 e q h g r e' q' h' g' :
    tx_wf q -> hs_wf h -> retry_ready ctx e s q h ->
    hs_fsm_retry (udp_send ctx) self e (mk_hs_world s q h g) = Some (r, e', mk_hs_world s1 q' h' g') ->
    silence ctx self n s1 s2 -> silence ctx self (S n) s s2.

Section Silence.
Context `{PlatformLaws} `{CryptoLaws} (ctx : pqc_udp_send_ctx_t) (self : sref).

Lemma silent_retry e s q h g r e' w' :
  session_wf s -> tx_wf q -> hs_wf h -> retry_ready ctx e s q h ->
  hs_fsm_retry (udp_send ctx) self e (mk_hs_world s q h g) = Some (r, e', w') ->
  session_wf (hw_s w') /\
  (retry_count s < SESSION_MAX_RETRIES /\ retry_count (hw_s w') = retry_count s + 1 \/
   state (hw_s w') = SESSION_STATE_FAILED /\ waiting_response (hw_s w') = 0).
Proof.
  intros Hs Hq Hh Hready Hrun.
  assert (Hwp : wp (hs_fsm_retry (udp_send ctx) self) (fun _ _ w' => session_wf (hw_s w') /\
    (retry_count s < SESSION_MAX_RETRIES /\ retry_count (hw_s w') = retry_count s + 1 \/
     state (hw_s w') = SESSION_STATE_FAILED /\ waiting_response (hw_s w') = 0)) e (mk_hs_world s q h g)).
  { apply wp_retry; try assumption. intros r1 e1 s1 q1 h1 Hs1 _ _ _ He. cbn [hw_s]. split; [exact Hs1|].
    assert (Hagain : session_can_retry s = true -> chatter (retried_session s) s1 ->
      retry_count s < SESSION_MAX_RETRIES /\ retry_count s1 = retry_count s + 1).
    { intros Hcan C. unfold session_can_retry in Hcan. case_bools. pose proof (sw_retry _ Hs).
      destruct (chatter_fields _ _ C) as [_ [= _ _ Fc _ _ _]]. split; [assumption|]. rewrite Fc. unfold retried_session. rsimpl.
      apply u8_id. unfold SESSION_MAX_RETRIES in *. clia. }
    destruct He as [r1 s1 q1 Hidle _|s1 q1 pkts Hcan _ _ C|s1 q1 Hcan _ C|s1 q1 _ C]; auto;
      [contradiction (Hidle Hready)|right]. destruct (chatter_fields _ _ C) as [[= _ _ _ Fs _ _ _] [= _ _ _ _ _ Fw]].
    rewrite Fs, Fw. split; reflexivity. }
  apply wp_run in Hwp as (r1 & e1 & w1 & Hrun1 & Hpost). rewrite Hrun in Hrun1. injection Hrun1 as <- <- <-. exact Hpost.
Qed.

Lemma silence_stops s n s' : waiting_response s = 0 -> silence ctx self n s s' -> n = 0%nat /\ s' = s.
Proof. intros Hw Hrun. destruct Hrun as [s|n s s1 s2 e q h g r e' q' h' g' _ _ (_ & _ & Hn & _) _ _]; [auto|contradiction]. Qed.

Lemma silence_bound n s s' :
  silence ctx self n s s' -> session_wf s -> 0 <= retry_count s <= SESSION_MAX_RETRIES ->
  Z.of_nat n <= SESSION_MAX_RETRIES + 1 - retry_count s /\
  (retry_count s' = retry_count s + Z.of_nat n /\ retry_count s' <= SESSION_MAX_RETRIES \/ state s' = SESSION_STATE_FAILED).
Proof.
  induction 1 as [s|n s s1 s2 e q h g r e' q' h' g' Hq Hh Hready Hrun Hrest IH]; intros Hs Hr.
  { unfold SESSION_MAX_RETRIES in *. split; [lia|left; lia]. }
  destruct (silent_retry _ _ _ _ _ _ _ _ Hs Hq Hh Hready Hrun) as [Hs1 Hout]. cbn [hw_s] in *.
  destruct Hout as [[Hlt Hc]|[Hf Hw]].
  - specialize (IH Hs1). rewrite Hc in IH. unfold SESSION_MAX_RETRIES in *. destruct IH as [Hn Hout]; [lia|].
    split; [lia|]. destruct Hout as [[-> ?]|?]; [left; lia|right; assumption].
  - destruct (silence_stops _ _ _ Hw Hrest) as [-> ->]. unfold SESSION_MAX_RETRIES in *. split; [lia|auto].
Qed.

(** What a session does with a NACK for its pending message. *)
Lemma wp_nack_served Q conn dest e s q h g id tf l data len :
  session_wf s -> tx_wf q -> hs_wf h -> node_id s <> SESSION_INVALID_NODE_ID ->
  ctx = mk_send_ctx (Some conn) (Some dest) -> nack_source s h = Some (data, len) -> tf = fragment_tx_count len ->
  1 <= Z.of_nat (length l) <= 16 -> (forall i, i ∈ l -> 0 <= i < tf) ->
  Z.of_nat (length l) <= pqc_tx_free_slots q ->
  let pkt := nack_packet (node_id s) id (pending_msg_type s) (pending_msg_id s) tf l in
  (forall e' s' q' h', chatter s s' -> tx_wf q' -> hs_wf h' ->
     pending q' ≡ₚ (pkt_entry conn dest <$> (frag_packet data len (pending_msg_type s) (node_id s) (pending_msg_id s)
       PQC_FLAG_RETRY <$> l)) ++ pending q -> Q true e' (mk_hs_world s' q' h' g)) ->
  wp (hs_fsm_handle_fragment (udp_send ctx) self pkt (Z.of_nat (length pkt))) Q e (mk_hs_world s q h g).
Proof.
  intros Hs Hq Hh Hid Hctx Hsrc Htf Hl Hin Hfree pkt HQ. destruct (sw_pending _ Hs) as [Hpt Hpi].
  destruct (nack_packet_parsed (node_id s) id (pending_msg_type s) (pending_msg_id s) tf l (sw_node_id _ Hs) Hl) as [Hparse Hdrop].
  destruct (nack_source_len s h data len Hh Hsrc) as [Hlen _]. destruct (tx_count_spec len Hlen) as (_ & Htot & _).
  eapply wp_handle_accepted; [exact Hs|exact Hh|exact Hparse|reflexivity|exact Hid| |].
  { unfold fragment_unexpected. cbn [fh_msg_type]. change (HS_MSG_NACK =? HS_MSG_PK) with false.
    change (HS_MSG_NACK =? HS_MSG_ACK) with false. rewrite !andb_false_r. reflexivity. }
  intros e1 _ Hh1. cbn [fh_msg_type fh_frag_idx fh_total_frags fh_frag_len]. change (HS_MSG_NACK =? HS_MSG_CT) with false.
  rewrite !andb_false_r. cbn [andb]. change (HS_MSG_NACK =? HS_MSG_NACK) with true. change (0 =? 0) with true.
  change (1 =? 1) with true. cbn [negb orb]. fold pkt in Hdrop. rewrite Hdrop.
  assert (Htf1 : 1 <= tf <= FRAG_MAX_FRAGS) by (rewrite FRAG_MAX_FRAGS_eq; lia).
  pose proof (nack_decode_payload (pending_msg_type s) (pending_msg_id s) tf l [] nack_zero Hpt Hpi Htf1 Hl Hin) as Edec.
  rewrite app_nil_r in Edec. apply wp_bind, wp_lift. eexists. split; [exact Edec|]. cbn [negb].
  apply wp_retransmit; try assumption. intros r e2 s2 q2 [C2 _] Hq2 Hans. unfold nack_answered in Hans.
  rewrite !Z.eqb_refl in Hans. cbn [andb] in Hans. unfold nack_source in Hsrc, Hans. cbn [root_pk node_ct] in *. rsimpl.
  change (root_pk (h <| rx_slots := ?x |>)) with (root_pk h) in Hans. change (node_ct (h <| rx_slots := ?x |>)) with (node_ct h) in Hans.
  rewrite Hsrc, Htf, Z.eqb_refl, (proj2 (Z.ltb_ge _ _)) in Hans by exact Hfree.
  destruct Hans as (_ & _ & Hr & Hp). assert (r = true) as ->.
  { apply Hr; [rewrite Hctx; reflexivity|]. rewrite length_fmap. unfold pqc_tx_free_slots in Hfree.
    pose proof (pending_bound q Hq). rewrite u8_id in Hfree by clia. lia. }
  destruct (Hp eq_refl) as (conn' & dest' & Hctx' & Hperm). rewrite Hctx in Hctx'. injection Hctx' as <- <-.
  apply HQ; assumption.
Qed.

End Silence.

(** ** Properties *)

#[local] Existing Instance example_platform | 100.
#[local] Existing Instance example_platform_laws | 100.
#[local] Existing Instance example_crypto | 100.
#[local] Existing Instance example_crypto_laws | 100.

(** A session of node 5 that waits for an answer to a message of type [mt]. *)
Definition example_waiting (r : session_role_t) (st : session_state_t) (mt : Z) : session_t :=
  session_zero <| used := 1 |> <| node_id := 5 |> <| role := r |> <| state := st |>
    <| pending_msg_type := mt |> <| waiting_response := 1 |>.

Lemma example_waiting_wf r st mt : is_u8 mt -> session_wf (example_waiting r st mt).
Proof. intros Hm. unfold example_waiting. pose proof session_zero_wf as Hz. destruct Hz. session_wf_tac. Qed.

Definition example_world (r : session_role_t) (st : session_state_t) (mt : Z) : hs_world :=
  mk_hs_world (example_waiting r st mt) example_queue hs_boot 0.

Lemma example_world_wf r st mt : is_u8 mt -> world_wf (example_world r st mt).
Proof. intros Hm. split_and!; [apply example_waiting_wf, Hm|exact example_queue_wf|exact hs_boot_wf]. Qed.

(** C7. The handshake refines its protocol machine: from a well-formed world every
    sequence of [hs_fsm_start], [hs_fsm_handle_fragment] on any bytes and
    [hs_fsm_retry] runs without an access outside a buffer or table, leaves the
    world well formed, keeps the root's key pair once there is one, and moves the
    session by one step of the machine per call. *)
Theorem handshake_refines `{PlatformLaws} `{CryptoLaws} ctx self calls e w :
  world_wf w -> Forall call_ok calls ->
  exists rs e' w', hs_exec_all ctx self calls e w = Some (rs, e', w') /\ length rs = length calls /\
    world_wf w' /\ keypair_kept (hw_hs w) (hw_hs w') /\
    hs_steps (call_event <$> calls) (view (hw_s w)) (view (hw_s w')).
Proof.
  intros Hw Hok. pose proof (wp_hs_exec_all ctx self calls e w Hw Hok) as Hwp.
  apply wp_run in Hwp as (rs & e' & w' & Hrun & Hw' & Hl & Hk & Hs). exists rs, e', w'. split_and!; assumption.
Qed.

Definition example_peer : uip_ipaddr_t := (9 : Z).

Definition example_calls : list hs_call :=
  [CallStart; CallFragment (header_bytes HS_MSG_ACK 5 0 0 1 1 0 ++ [7]) 11; CallRetry].

Example handshake_refines_witness :
  world_wf (example_world SESSION_ROLE_NODE SESSION_STATE_WAIT_ACK HS_MSG_CT) /\
  exists rs e' w', hs_exec_all example_ctx Local example_calls example_env
      (example_world SESSION_ROLE_NODE SESSION_STATE_WAIT_ACK HS_MSG_CT) = Some (rs, e', w') /\
    length rs = length example_calls /\ world_wf w' /\
    keypair_kept (hw_hs (example_world SESSION_ROLE_NODE SESSION_STATE_WAIT_ACK HS_MSG_CT)) (hw_hs w') /\
    hs_steps (call_event <$> example_calls)
      (view (hw_s (example_world SESSION_ROLE_NODE SESSION_STATE_WAIT_ACK HS_MSG_CT))) (view (hw_s w')).
Proof.
  assert (Hw : world_wf (example_world SESSION_ROLE_NODE SESSION_STATE_WAIT_ACK HS_MSG_CT)) by (apply example_world_wf; decided).
  split; [exact Hw|]. apply (handshake_refines example_ctx Local example_calls example_env); [exact Hw|].
  repeat constructor; cbn; try decided; lia.
Defined.

(** C8. What a handshake has established: let the session of a well-formed device be in any state
    but established, with, if it waits for an acknowledgement, the AES key derived from its shared
    secret.  If it is found established after any sequence of calls, on datagrams of any
    bytes at most as long as their buffer, then its AES key is the one derived from its shared secret, no message is
    pending, and the calls include, in this order, what its role and state still
    needed: a start and a fragment of a ciphertext for a root (the fragment alone if it
    already waited for one), a fragment of a public key and one of an
    acknowledgement for a node (the latter alone if it already waited for one).
    Established or not, its retries are at most three, or as many as they were. *)
Theorem handshake_established `{PlatformLaws} `{CryptoLaws} ctx self calls e w rs e' w' :
  world_wf w -> Forall call_ok calls -> state (hw_s w) <> SESSION_STATE_ESTABLISHED ->
  (state (hw_s w) = SESSION_STATE_WAIT_ACK -> aes_key (hw_s w) = aes_key_of (ss (hw_s w))) ->
  hs_exec_all ctx self calls e w = Some (rs, e', w') ->
  retry_count (hw_s w') <= Z.max (retry_count (hw_s w)) SESSION_MAX_RETRIES /\
  (session_is_established (hw_s w') = true ->
     aes_key (hw_s w') = aes_key_of (ss (hw_s w')) /\
     pending_msg_type (hw_s w') = 0 /\ waiting_response (hw_s w') = 0 /\
     sublist (still_needed (role (hw_s w)) (state (hw_s w))) (call_event <$> calls)).
Proof.
  intros Hw Hok Hne Hkey Hrun. pose proof (wp_hs_exec_all ctx self calls e w Hw Hok) as Hwp.
  apply wp_run in Hwp as (rs1 & e1 & w1 & Hrun1 & _ & _ & _ & Hs). rewrite Hrun in Hrun1. injection Hrun1 as <- <- <-.
  split; [exact (steps_retries _ _ _ Hs)|]. intros He. unfold session_is_established in He. apply andb_true_iff in He as [He _]. apply bool_decide_eq_true in He.
  assert (Hinv : keyed_inv (view (hw_s w))) by (constructor; cbn; intuition congruence).
  pose proof (steps_keyed _ _ _ Hs Hinv) as [Hk Hf]. destruct (Hf He) as (_ & Hp & Hwt). split_and!; [apply Hk; auto|exact Hp|exact Hwt|].
  exact (steps_needed _ _ _ Hs Hne He).
Qed.

Example handshake_established_witness :
  exists rs e' w', hs_exec_all example_ctx Local example_calls example_env
      (example_world SESSION_ROLE_NODE SESSION_STATE_WAIT_PK PQC_MSG_GETPK) = Some (rs, e', w') /\
    retry_count (hw_s w') <= SESSION_MAX_RETRIES /\
    (session_is_established (hw_s w') = true ->
       aes_key (hw_s w') = aes_key_of (ss (hw_s w')) /\
       pending_msg_type (hw_s w') = 0 /\ waiting_response (hw_s w') = 0 /\
       sublist [EvFragment HS_MSG_PK; EvFragment HS_MSG_ACK] (call_event <$> example_calls)).
Proof.
  set (w := example_world SESSION_ROLE_NODE SESSION_STATE_WAIT_PK PQC_MSG_GETPK).
  assert (Hw : world_wf w) by (apply example_world_wf; decided).
  assert (Hok : Forall call_ok example_calls) by (repeat constructor; cbn; try decided; lia).
  destruct (proj1 (wp_run _ _ _ _) (wp_hs_exec_all example_ctx Local example_calls example_env w Hw Hok)) as (rs & e' & w' & Hrun & _).
  exists rs, e', w'. split; [exact Hrun|].
  apply (handshake_established example_ctx Local example_calls example_env w rs e' w' Hw Hok); [discriminate|discriminate|exact Hrun].
Defined.

(** C35. A silent peer is given up: a session whose due retries meet an empty queue
    counts each of them, makes at most three, and the next one leaves it failed;
    there is no fifth. *)
Theorem handshake_gives_up `{PlatformLaws} `{CryptoLaws} ctx self n s s' :
  silence ctx self n s s' -> session_wf s -> retry_count s <= SESSION_MAX_RETRIES ->
  Z.of_nat n <= SESSION_MAX_RETRIES + 1 - retry_count s /\
  (state s' <> SESSION_STATE_FAILED -> retry_count s' = retry_count s + Z.of_nat n /\ retry_count s' <= SESSION_MAX_RETRIES) /\
  (Z.of_nat n = SESSION_MAX_RETRIES + 1 - retry_count s -> state s' = SESSION_STATE_FAILED).
Proof.
  intros Hrun Hs Hr. pose proof (sw_retry _ Hs) as [Hr0 _].
  destruct (silence_bound ctx self n s s' Hrun Hs ltac:(lia)) as [Hn Hout].
  split; [exact Hn|]. destruct Hout as [[Hc Hle]|Hf]; [|tauto]. split; [auto|lia].
Qed.

Lemma example_ready e q h :
  (forall n, uclk (e_clock e n) = 0) -> tx_count q = 0 ->
  retry_ready example_ctx e (example_waiting SESSION_ROLE_NODE SESSION_STATE_WAIT_PK PQC_MSG_GETPK) q h.
Proof.
  intros He Hq. split_and!; [reflexivity|exact Hq|discriminate|right; discriminate|].
  intros n _. rewrite He. reflexivity.
Qed.
Lemma silence_step `{PlatformLaws} `{CryptoLaws} ctx self e s q h (g : prng_state) :
  session_wf s -> tx_wf q -> hs_wf h -> retry_ready ctx e s q h -> exists s', silence ctx self 1 s s'.
Proof.
  intros Hs Hq Hh Hready. pose proof (wp_hs_exec ctx self CallRetry e (mk_hs_world s q h g) (conj Hs (conj Hq Hh)) I) as Hwp.
  apply wp_run in Hwp as (r & e' & [s1 q1 h1 g1] & Hret & _). exists s1.
  eapply silence_round; [exact Hq|exact Hh|exact Hready|exact Hret|apply silence_nil].
Qed.

Lemma example_silence :
  exists s', silence example_ctx Local 1 (example_waiting SESSION_ROLE_NODE SESSION_STATE_WAIT_PK PQC_MSG_GETPK) s'.
Proof.
  destruct (proj1 (wp_run _ _ _ _) (tx_init_wf example_env tx_boot)) as (_ & e0 & q & _ & Hq & Hp).
  assert (Hq0 : tx_count q = 0) by (rewrite (qw_count _ Hq), Hp; reflexivity).
  apply (silence_step example_ctx Local example_env _ q hs_boot prng_zero);
    [apply example_waiting_wf; decided|exact Hq|exact hs_boot_wf|].
  apply example_ready; [intros n; reflexivity|exact Hq0].
Qed.

Definition example_requester : session_t := example_waiting SESSION_ROLE_NODE SESSION_STATE_WAIT_PK PQC_MSG_GETPK.

Example handshake_gives_up_witness :
  exists s', silence example_ctx Local 1 example_requester s' /\
    1 <= SESSION_MAX_RETRIES + 1 - retry_count example_requester /\
    (state s' <> SESSION_STATE_FAILED ->
       retry_count s' = retry_count example_requester + 1 /\ retry_count s' <= SESSION_MAX_RETRIES) /\
    (1 = SESSION_MAX_RETRIES + 1 - retry_count example_requester -> state s' = SESSION_STATE_FAILED).
Proof.
  destruct example_silence as [s' Hs']. exists s'. split; [exact Hs'|].
  apply (handshake_gives_up example_ctx Local 1 example_requester s' Hs'); [apply example_waiting_wf; decided|decided].
Defined.

(** C36. A NACK is served exactly: a session that receives a well-formed NACK for its
    pending message, with room in its queue, queues the named fragments, each once,
    flagged as retransmissions and with the content they were first sent with, and
    nothing else; the session's state does not change. *)
Theorem nack_served `{PlatformLaws} `{CryptoLaws} self conn dest e s q h g id l data len :
  session_wf s -> tx_wf q -> hs_wf h -> node_id s <> SESSION_INVALID_NODE_ID ->
  nack_source s h = Some (data, len) -> 1 <= Z.of_nat (length l) <= PQC_NACK_MAX_MISSING ->
  (forall i, i ∈ l -> 0 <= i < fragment_tx_count len) ->
  Z.of_nat (length l) <= pqc_tx_free_slots q ->
  let pkt := nack_packet (node_id s) id (pending_msg_type s) (pending_msg_id s) (fragment_tx_count len) l in
  exists e' s' q' h', hs_fsm_handle_fragment (udp_send (mk_send_ctx (Some conn) (Some dest))) self pkt
      (Z.of_nat (length pkt)) e (mk_hs_world s q h g) = Some (true, e', mk_hs_world s' q' h' g) /\
    chatter s s' /\ tx_wf q' /\ hs_wf h' /\
    pending q' ≡ₚ (pkt_entry conn dest <$> (frag_packet data len (pending_msg_type s) (node_id s) (pending_msg_id s)
       PQC_FLAG_RETRY <$> l)) ++ pending q.
Proof.
  intros Hs Hq Hh Hid Hsrc Hl Hin Hfree pkt.
  pose proof (wp_nack_served (mk_send_ctx (Some conn) (Some dest)) self
    (fun r _ w' => r = true /\ hw_prng w' = g /\ chatter s (hw_s w') /\ tx_wf (hw_tx w') /\ hs_wf (hw_hs w') /\
       pending (hw_tx w') ≡ₚ (pkt_entry conn dest <$> (frag_packet data len (pending_msg_type s) (node_id s) (pending_msg_id s)
         PQC_FLAG_RETRY <$> l)) ++ pending q)
    conn dest e s q h g id _ l data len Hs Hq Hh Hid eq_refl Hsrc eq_refl Hl Hin Hfree) as Hwp.
  cbv zeta in Hwp. fold pkt in Hwp. specialize (Hwp ltac:(intros; split_and!; auto)).
  apply wp_run in Hwp as (r & e' & [s' q' h' g'] & Hrun & -> & <- & Hc & Hq' & Hh' & Hp).
  exists e', s', q', h'. auto.
Qed.

Definition example_server : session_t := example_waiting SESSION_ROLE_ROOT SESSION_STATE_WAIT_CT HS_MSG_PK.
Definition example_nack : bytes := nack_packet 5 3 HS_MSG_PK 0 36 [2; 35].

Example nack_served_witness :
  exists e' s' q' h', hs_fsm_handle_fragment (udp_send example_ctx) Local example_nack (Z.of_nat (length example_nack))
      example_env (mk_hs_world example_server example_queue hs_boot prng_zero) = Some (true, e', mk_hs_world s' q' h' prng_zero) /\
    chatter example_server s' /\ tx_wf q' /\ hs_wf h' /\
    pending q' ≡ₚ (pkt_entry 0 example_peer <$>
      (frag_packet (root_pk hs_boot) CW_HQC_PUBLIC_KEY_LEN HS_MSG_PK 5 0 PQC_FLAG_RETRY <$> [2; 35])) ++ pending example_queue.
Proof.
  apply (nack_served Local 0%nat example_peer example_env example_server example_queue hs_boot prng_zero 3 [2; 35]
           (root_pk hs_boot) CW_HQC_PUBLIC_KEY_LEN);
    [apply example_waiting_wf; decided|exact example_queue_wf|exact hs_boot_wf|discriminate|reflexivity|cbn; clia| |].
  - intros i Hi. repeat (apply elem_of_cons in Hi as [->|Hi]; [vm_compute; split; discriminate || reflexivity|]). inversion Hi.
  - vm_compute. discriminate.
Defined.
