(* ===== verification/HandshakeRun.v ===== *)
(** * A whole handshake

    The messages of a handshake delivered in order, from the public key at the
    root to the acknowledgement at the node: both ends finish with the same key when no
    receive slot expires during a delivery.  That is a condition on the clock readings
    the deliveries make and on no others. *)

From S2P Require Import Prelude Platform Protocol Fragmentation Nack Metrics CryptoWorker Session TxQueue Telemetry Handshake HandshakeTime HandshakeFacts HandshakeRules HandshakeStep HandshakeProps.

Lemma exists_last_or {A} (l : list A) : l = [] \/ exists r x, l = r ++ [x].
Proof. destruct l as [|a l]; [auto|right]. destruct (exists_last (l := a :: l)) as (r & x & ->); [discriminate|eauto]. Qed.

Lemma at_index_fmap {A B} (f : A -> B) (l : list A) i x : at_index l i = Some x -> at_index (f <$> l) i = Some (f x).
Proof.
  intros Hi. apply at_index_some in Hi as [Hr Hi]. unfold at_index. rewrite (proj2 (Z.leb_le 0 i)) by lia.
  rewrite list_lookup_fmap, Hi. reflexivity.
Qed.

(** ** A message delivered fragment by fragment *)

Section Delivery.
Context `{PlatformLaws} `{CryptoLaws} (ctx : pqc_udp_send_ctx_t) (self : sref).

(** No reading of the clock between [e] and [e'] is more than a receive timeout after an
    earlier one, nor before it: no receive slot expires. *)
Definition prompt (e e' : env) : Prop :=
  forall n m, (e_reads e <= n)%nat -> (n <= m)%nat -> (m < e_reads e')%nat ->
    uclk (uclk (e_clock e m) - uclk (e_clock e n)) <= HS_RX_TIMEOUT.

(** The same of all readings from [e] on, for the proofs; a clock that is prompt up to [e']
    can be stopped there. *)
Definition prompt_forever (e : env) : Prop :=
  forall n m, (e_reads e <= n)%nat -> (n <= m)%nat ->
    uclk (uclk (e_clock e m) - uclk (e_clock e n)) <= HS_RX_TIMEOUT.

(** The datagrams received one after the other. *)
Fixpoint deliver (pkts : list bytes) : M hs_world unit :=
  match pkts with
  | [] => mret tt
  | pkt :: pkts => _ ← hs_fsm_handle_fragment (udp_send ctx) self pkt (Z.of_nat (length pkt)); deliver pkts
  end.

Lemma timely_deliver pkts : timely (deliver pkts).
Proof. induction pkts as [|pkt pkts IH]; cbn [deliver]; [apply timely_ret|]. apply timely_bind; [auto with timely|intros _; exact IH]. Qed.

Lemma deliver_total pkts e w : world_wf w -> Forall all_bytes pkts -> wp (deliver pkts) (fun _ _ w' => world_wf w') e w.
Proof.
  revert e w. induction pkts as [|pkt pkts IH]; intros e w Hw Hp; cbn [deliver]; [apply wp_ret, Hw|]. apply list.Forall_cons in Hp as [Hpkt Hp].
  apply wp_bind. eapply wp_mono; [|apply (wp_hs_exec ctx self (CallFragment pkt (Z.of_nat (length pkt))) e w Hw); split; [exact Hpkt|lia]].
  intros r e1 w1 (Hw1 & _). exact (IH e1 w1 Hw1 Hp).
Qed.

Lemma prompt_stopped e e' : prompt e e' -> exists clk, same_readings clk e e' /\ prompt_forever (with_clock clk e).
Proof.
  intros Hp. exists (fun n => e_clock e (Nat.min n (Nat.pred (e_reads e')))). split; [intros n Hn; f_equal; lia|].
  intros n m Hn Hm. cbn. change (e_reads (with_clock _ e)) with (e_reads e) in Hn. destruct (decide (e_reads e < e_reads e')%nat) as [Hlt|Hge].
  - apply Hp; lia.
  - replace (Nat.min m (Nat.pred (e_reads e'))) with (Nat.min n (Nat.pred (e_reads e'))) by lia. rewrite Z.sub_diag.
    unfold uclk. rewrite Z.mod_0_l by (pose proof clock_bits_32; lia). unfold HS_RX_TIMEOUT, SESSION_RETRY_TIMEOUT. pose proof clock_second_pos. lia.
Qed.

(** A delivery returns under any clock; what it achieves under a prompt one it achieves when
    its own readings are prompt. *)
Lemma deliver_run pkts (Q : hs_world -> Prop) e w : world_wf w -> Forall all_bytes pkts ->
  (forall e0, prompt_forever e0 -> wp (deliver pkts) (fun _ _ w' => Q w') e0 w) ->
  exists e' w', deliver pkts e w = Some (tt, e', w') /\ (prompt e e' -> Q w').
Proof.
  intros Hw Hp HQ. destruct (run_readings (deliver pkts) prompt_forever prompt (fun _ => Q) e w (timely_deliver pkts)) as ([] & e' & w' & Hrun).
  - eapply wp_mono; [|exact (deliver_total pkts e w Hw Hp)]. auto.
  - intros e' _. apply prompt_stopped.
  - exact HQ.
  - exists e', w'. exact Hrun.
Qed.

(** The session takes messages of type [mt]. *)
Definition takes (s : session_t) (mt : Z) : Prop :=
  role s = SESSION_ROLE_NODE /\ mt = HS_MSG_PK /\ state s = SESSION_STATE_WAIT_PK /\ pending_msg_type s = PQC_MSG_GETPK \/
  role s = SESSION_ROLE_NODE /\ mt = HS_MSG_ACK /\ state s = SESSION_STATE_WAIT_ACK /\ pending_msg_type s = HS_MSG_CT \/
  role s = SESSION_ROLE_ROOT /\ mt = HS_MSG_CT /\ state s = SESSION_STATE_WAIT_CT.

Lemma takes_chatter s s' mt : chatter s s' -> takes s mt -> takes s' mt.
Proof.
  intros Hc. destruct (chatter_fields _ _ Hc) as [[= _ _ Fr Fs _ _ _] [= _ _ _ Fp _ _]].
  unfold takes. rewrite Fr, Fs, Fp. exact id.
Qed.

Lemma takes_expected s mt : takes s mt ->
  expected s mt /\ mt <> HS_MSG_NACK /\
  (forall fh, fh_msg_type fh = mt -> fragment_unexpected s fh = false) /\
  (session_is_root s && session_is_established s && (mt =? HS_MSG_CT) = false) /\
  (session_is_root s && (mt =? HS_MSG_CT) && negb (bool_decide (state s = SESSION_STATE_WAIT_CT)) = false).
Proof.
  unfold expected, fragment_unexpected, session_is_root, session_is_node, session_is_established.
  intros [(Hr & -> & Hs & Hp)|[(Hr & -> & Hs & Hp)|(Hr & -> & Hs)]]; rewrite Hr, Hs; try rewrite Hp;
    (split_and!; try discriminate; try reflexivity; intros; try discriminate; try reflexivity; auto);
    match goal with Hm : fh_msg_type _ = _ |- _ => rewrite Hm; try rewrite Hp; reflexivity end.
Qed.

Context (data : bytes) (len mt nid mid flags : Z).
Hypothesis Hlen : 0 < len <= FRAG_MAX_MESSAGE_LEN.
Hypothesis Hdata : len <= Z.of_nat (length data).
Hypothesis Hbytes : all_bytes data.
Hypothesis Hnid : is_u16 nid.
Hypothesis Hmid : is_u8 mid.
Let total := fragment_tx_count len.
Let packet := frag_packet data len mt nid mid flags.

(** The session's receive slot after the fragments [seen]: none yet, but a free one,
    or one that holds them and was taken at a reading of the clock since [e0]. *)
Definition slot_state (e0 e : env) (seen : list Z) (l : list hs_rx_slot_t) : Prop :=
  seen = [] /\ no_slot self l /\ (exists i, at_index l i = Some slot_free) \/
  exists i sl n, at_index l i = Some sl /\ slot_owned self sl = true /\
    rx_seen data len mt nid mid seen (sl_ctx sl) /\
    sl_started_at sl = uclk (e_clock e0 n) /\ (e_reads e0 <= n < e_reads e)%nat.

Lemma slot_state_le e0 e e' seen l : env_le e e' -> slot_state e0 e seen l -> slot_state e0 e' seen l.
Proof.
  intros [_ Hr] [?|(i & sl & n & Hi & Ho & Hs & Ht & Hn)]; [left; assumption|right].
  exists i, sl, n. split_and!; auto; lia.
Qed.

Lemma gc_no_slot now l : no_slot self l -> no_slot self (gc_slot now <$> l).
Proof.
  intros Hno. apply Forall_fmap. eapply Forall_impl; [exact Hno|]. intros sl Hsl. cbn.
  destruct (gc_slot_cases now sl) as [->| ->]; [exact Hsl|reflexivity].
Qed.

(** Collecting garbage in time keeps the slot. *)
Lemma slot_state_gc e0 e seen l m :
  prompt_forever e0 -> (e_reads e <= m)%nat -> slot_state e0 e seen l ->
  slot_state e0 e seen (gc_slot (uclk (e_clock e0 m)) <$> l).
Proof.
  intros Hp Hm [(Hs & Hno & i & Hi)|(i & sl & n & Hi & Ho & Hs & Ht & Hn)].
  - left. split_and!; [exact Hs|apply gc_no_slot, Hno|]. exists i. exact (at_index_fmap _ _ _ _ Hi).
  - right. exists i, sl, n. split_and!; auto; try lia. rewrite (at_index_fmap _ _ _ _ Hi). f_equal.
    unfold gc_slot. rewrite Ht, (proj2 (Z.ltb_ge _ _)) by (apply Hp; lia). rewrite andb_false_r. reflexivity.
Qed.

(** The slot a fragment goes to holds what was seen. *)
Lemma slot_state_obtained e0 e e' seen l rx sl l1 :
  slots_wf l -> e_clock e = e_clock e0 -> (e_reads e0 <= e_reads e)%nat -> slot_state e0 e seen l ->
  (e_reads e <= e_reads e')%nat -> slot_obtained self l rx sl l1 e e' ->
  rx_seen data len mt nid mid seen (sl_ctx sl) /\
  exists n, sl_started_at sl = uclk (e_clock e0 n) /\ (e_reads e0 <= n < e_reads e')%nat.
Proof.
  intros Hl Hc Hr Hst Hr' [(Hi & Ho & ->)|(Hno & Hi & t & n & Hn & -> & -> & ->)].
  - destruct Hst as [(_ & Hno & _)|(j & sl' & n & Hj & Ho' & Hs & Ht & Hn)].
    + apply at_index_some in Hi as [_ Hi]. pose proof (Forall_lookup_1 _ _ _ _ Hno Hi) as Hx. cbn in Hx. congruence.
    + assert (sl' = sl) as -> by exact (owned_unique self _ _ _ _ _ Hl Hj Hi Ho' Ho). split; [exact Hs|].
      exists n. split; [exact Ht|lia].
  - destruct Hst as [(-> & _)|(j & sl' & k & Hj & Ho' & _)].
    + split; [apply rx_seen_init; assumption|]. exists n. rewrite <- Hc. split; [reflexivity|lia].
    + apply at_index_some in Hj as [_ Hj]. pose proof (Forall_lookup_1 _ _ _ _ Hno Hj) as Hx. cbn in Hx. congruence.
Qed.

Lemma slot_state_available e0 e seen l :
  slot_state e0 e seen l -> no_slot self l -> Forall (fun sl => sl_active sl = 1) l -> False.
Proof.
  intros [(_ & _ & i & Hi)|(i & sl & n & Hi & Ho & _)] Hno Hfull; apply at_index_some in Hi as [_ Hi].
  - pose proof (Forall_lookup_1 _ _ _ _ Hfull Hi) as Hx. discriminate.
  - pose proof (Forall_lookup_1 _ _ _ _ Hno Hi) as Hx. cbn in Hx. congruence.
Qed.

(** The context's slot was updated with the fragment. *)
Lemma slot_state_put e0 e seen l rx sl c :
  at_index l rx = Some sl -> slot_owned self sl = true -> rx_seen data len mt nid mid seen c ->
  (exists n, sl_started_at sl = uclk (e_clock e0 n) /\ (e_reads e0 <= n < e_reads e)%nat) ->
  slot_state e0 e seen (<[Z.to_nat rx := sl <| sl_ctx := c |>]> l).
Proof.
  intros Hi Ho Hc (n & Ht & Hn). right. exists rx, (sl <| sl_ctx := c |>), n.
  split_and!; [exact (at_index_insert _ _ _ _ Hi)|exact Ho|exact Hc|exact Ht|lia|lia].
Qed.

Lemma seen_total seen c : rx_seen data len mt nid mid seen c -> seen <> [] -> rx_total_frags c = total.
Proof. intros Hs Hne. destruct (seen_id _ _ _ _ _ _ _ Hs) as [[? _]|(_ & _ & _ & _ & Ht)]; [contradiction|exact Ht]. Qed.

Lemma seen_complete seen c :
  rx_seen data len mt nid mid seen c -> fragment_rx_complete c = true -> forall i, 0 <= i < total -> i ∈ seen.
Proof.
  intros Hs Hcomp i Hi. apply rx_complete_iff in Hcomp as [Ha Hall]; [|apply Hs].
  assert (Ht : rx_total_frags c = total).
  { destruct (seen_id _ _ _ _ _ _ _ Hs) as [[_ Hz]|(_ & _ & _ & _ & Ht)]; [lia|exact Ht]. }
  rewrite Ht in Hall. specialize (Hall i Hi). rewrite (seen_bits _ _ _ _ _ _ _ Hs i Hi) in Hall.
  case_bool_decide; [assumption|discriminate].
Qed.

Lemma packet_ok i : 0 <= i < total ->
  fragment_ok (mk_fragment_header mt nid mid i (fragment_tx_count len) (frag_len len i)) (drop 10 (packet i)).
Proof.
  intros Hi. pose proof (frag_len_bounds len i Hlen Hi) as [Hf _]. destruct (tx_count_spec len Hlen) as (_ & Htot & _).
  change (drop 10 (packet i)) with (frag_payload data len i).
  constructor; cbn [fh_frag_idx fh_total_frags fh_frag_len fh_node_id fh_msg_id]; try assumption; try (unfold total in Hi; lia).
  - rewrite FRAG_MAX_FRAGS_eq. lia.
  - unfold FRAG_MAX_PAYLOAD_LEN. lia.
  - rewrite frag_payload_length by assumption. lia.
  - apply Forall_take, Forall_drop, Hbytes.
Qed.

(** One fragment, delivered to a session that takes it; the last fragment of a
    message must not come before the others. *)
Lemma wp_deliver_fragment Q e0 e s q h g seen i :
  session_wf s -> tx_wf q -> hs_wf h -> node_id s = nid -> nid <> SESSION_INVALID_NODE_ID -> takes s mt ->
  prompt_forever e0 -> env_le e0 e -> slot_state e0 e seen (rx_slots h) -> 0 <= i < total ->
  (total - 1 ∈ seen ++ [i] -> forall j, 0 <= j < total -> j ∈ seen ++ [i]) ->
  (forall e' s' l, env_le e e' -> chatter s s' -> slots_wf l -> slot_state e0 e' (seen ++ [i]) l ->
     total - 1 ∉ seen ++ [i] -> Q true e' (mk_hs_world s' q (h <| rx_slots := l |>) g)) ->
  (forall fh e1 s1 l rx sl, fh_msg_type fh = mt -> fh_msg_id fh = mid -> quiet s s1 -> slots_wf l ->
     at_index l rx = Some sl -> slot_owned self sl = true -> rx_seen data len mt nid mid (seen ++ [i]) (sl_ctx sl) ->
     fragment_rx_complete (sl_ctx sl) = true ->
     wp (complete_message (udp_send ctx) self fh rx) Q e1 (mk_hs_world s1 q (h <| rx_slots := l |>) g)) ->
  wp (hs_fsm_handle_fragment (udp_send ctx) self (packet i) (Z.of_nat (length (packet i)))) Q e (mk_hs_world s q h g).
Proof.
  intros Hs Hq Hh Hid Hinv Htk Hprompt Hle Hst Hi Hlast Hpart Hcomp. pose proof (parse_packet data len mt nid mid flags i Hlen Hdata Hi Hnid) as Hparse.
  set (fh := mk_fragment_header _ _ _ _ _ _) in Hparse.
  destruct (takes_expected s mt Htk) as (Hexp & Hnn & Hun & Hest & Hct).
  apply wp_env_le; [auto with timely|]. eapply wp_handle_accepted; [exact Hs|exact Hh|exact Hparse|cbn; congruence|congruence|apply Hun; reflexivity|].
  intros e1 Hle1 Hh1. change (fh_msg_type fh) with mt. rewrite Hest, Hct, (proj2 (Z.eqb_neq _ _)) by exact Hnn.
  pose proof (env_le_trans _ _ _ Hle Hle1) as Hle01. pose proof Hle as [Hc0 Hr0].
  apply (slot_state_gc e0 e seen _ (e_reads e) Hprompt ltac:(lia)) in Hst. rewrite <- Hc0 in Hst.
  apply (slot_state_le _ _ _ _ _ Hle1) in Hst. set (h1 := h <| rx_slots := _ |>) in *.
  apply (slot_state_gc e0 e1 seen _ (e_reads e1) Hprompt ltac:(lia)) in Hst. destruct Hle01 as [Hc1 Hr1].
  rewrite <- Hc1 in Hst. change (gc_slot _ <$> rx_slots h) with (rx_slots h1) in Hst.
  pose proof (gc_slots_wf (uclk (e_clock e1 (e_reads e1))) _ (hw_slots _ Hh1)) as Hlw.
  apply wp_receive; [exact Hs|exact Hq|exact Hh1|apply packet_ok; assumption|intros e2 Hno Hfull _|].
  { exfalso. exact (slot_state_available _ _ _ _ Hst Hno Hfull). }
  intros e2 rx sl l1 added c [Hc2 Hr2] Hobt Hc Eadd h2 Hh2 Hi2.
  destruct (slot_state_obtained e0 e1 e2 seen _ rx sl l1 Hlw Hc1 Hr1 Hst Hr2 Hobt) as (Hseen & Hstart).
  destruct (slot_obtained_at self _ _ _ _ _ _ Hlw Hobt) as (_ & Hi1 & Ho).
  destruct (rx_seen_step data len mt nid mid flags Hlen Hdata Hbytes Hnid seen (sl_ctx sl) i Hseen Hi) as (c' & Hpk & Hseen').
  unfold rx_packet in Hpk. rewrite Hparse in Hpk.
  assert (Heq : Some (added, c) = Some (true, c')) by (rewrite <- Eadd; exact Hpk). injection Heq as -> ->.
  destruct (fragment_rx_complete c') eqn:Ecomp.
  - intros e3 s3 Q3. eapply wp_mono; [|apply (Hcomp fh e3 s3 (rx_slots h2) rx (sl <| sl_ctx := c' |>));
      [reflexivity|reflexivity|exact Q3|apply Hh2|exact Hi2|exact Ho|exact Hseen'|exact Ecomp]].
    intros r e4 w HQ _ _. exact HQ.
  - intros e3 s3 q3 sl3 [Hc3 Hr3] C3 Hq3 _ Hlate Hle3.
    assert (Hlast' : total - 1 ∉ seen ++ [i]).
    { intros Hin. specialize (Hlast Hin). rewrite (proj1 (rx_seen_all _ _ _ _ _ Hlen _ _ Hseen' Hlast)) in Ecomp. discriminate. }
    destruct Hlate as [-> ->].
    { rewrite (seen_total _ _ Hseen') by (destruct seen; discriminate).
      destruct (tx_count_spec len Hlen) as (_ & ? & _). rewrite (seen_bits _ _ _ _ _ _ _ Hseen') by (unfold total; lia).
      fold total. rewrite bool_decide_false by exact Hlast'. reflexivity. }
    change (h1 <| rx_slots := ?l |>) with (h <| rx_slots := l |>).
    apply Hpart; [exact Hle3|exact C3|apply Hh2| |exact Hlast'].
    apply slot_state_put; [exact Hi1|exact Ho|exact Hseen'|]. destruct Hstart as (n & Ht & Hn). exists n. split; [exact Ht|lia].
Qed.

Lemma packets_bytes : is_u8 mt -> is_u8 flags -> Forall all_bytes (frag_packets data len mt nid mid flags).
Proof.
  intros Hmt Hfl. unfold frag_packets. apply list.Forall_fmap, list.Forall_forall. intros i Hi. apply elem_of_upto in Hi.
  destruct (packet_ok i Hi) as []. cbn [fh_frag_idx fh_total_frags fh_frag_len] in *. destruct (tx_count_spec len Hlen) as (_ & Htot & _).
  pose proof (frag_len_bounds len i Hlen Hi) as [Hf _]. apply Forall_app. split; [|apply Forall_take, Forall_drop, Hbytes].
  unfold FRAG_MAX_PAYLOAD_LEN in Hf. unfold header_bytes. repeat (apply list.Forall_cons; split); try apply list.Forall_nil; try exact I; try exact Hmt; try exact Hfl; try exact Hmid;
    try (apply u8_range); unfold total in Hi; clia.
Qed.

(** The last fragment is the last of the list. *)
Lemma in_order_last seen i rest :
  upto total = seen ++ i :: rest -> total - 1 ∈ seen ++ [i] -> rest = [].
Proof.
  intros Heq Hin. destruct (tx_count_spec len Hlen) as (_ & Htot & _). destruct (exists_last_or rest) as [->|(r & x & ->)]; [reflexivity|].
  exfalso. rewrite cons_middle, !app_assoc in Heq.
  replace total with (total - 1 + 1) in Heq at 1 by lia. rewrite upto_snoc in Heq by (unfold total; lia).
  apply app_inj_tail in Heq as [Heq _].
  assert (Hx : total - 1 ∈ upto (total - 1)) by (rewrite Heq; apply elem_of_app; left; exact Hin).
  apply elem_of_upto in Hx. lia.
Qed.

Lemma wp_deliver_rest Q e0 q h g s0 rest :
  tx_wf q -> hs_wf h -> node_id s0 = nid -> nid <> SESSION_INVALID_NODE_ID -> takes s0 mt -> prompt_forever e0 ->
  (forall fh e1 s1 l rx sl, fh_msg_type fh = mt -> fh_msg_id fh = mid -> chatter s0 s1 -> slots_wf l ->
     at_index l rx = Some sl -> slot_owned self sl = true -> rx_wf (sl_ctx sl) ->
     fragment_rx_complete (sl_ctx sl) = true -> fragment_rx_len (sl_ctx sl) = len ->
     rx_message (sl_ctx sl) len = take (Z.to_nat len) data ->
     wp (complete_message (udp_send ctx) self fh rx) (fun _ e' w => Q tt e' w) e1
       (mk_hs_world s1 q (h <| rx_slots := l |>) g)) ->
  forall seen e s l, rest <> [] -> upto total = seen ++ rest -> env_le e0 e -> chatter s0 s -> slots_wf l ->
    slot_state e0 e seen l ->
    wp (deliver (packet <$> rest)) Q e (mk_hs_world s q (h <| rx_slots := l |>) g).
Proof.
  intros Hq Hh Hid Hinv Htk Hprompt Hcomp. induction rest as [|i rest IH]; intros seen e s l Hne Heq Hle C Hl Hst; [contradiction|].
  assert (Hi : 0 <= i < total) by (apply elem_of_upto; rewrite Heq; set_solver).
  cbn [fmap list_fmap deliver]. apply wp_bind.
  apply (wp_deliver_fragment _ e0 e s q (h <| rx_slots := l |>) g seen i); try assumption.
  - apply C.
  - apply with_slots_wf; assumption.
  - rewrite (chatter_id _ _ C). exact Hid.
  - exact (takes_chatter _ _ _ C Htk).
  - intros Hin j Hj. rewrite (in_order_last _ _ _ Heq Hin) in Heq. rewrite <- Heq. apply elem_of_upto, Hj.
  - intros e1 s1 l1 Hle1 C1 Hl1 Hst1 Hlast. change ((h <| rx_slots := l |>) <| rx_slots := l1 |>) with (h <| rx_slots := l1 |>).
    apply (IH (seen ++ [i])); try assumption.
    + intros ->. apply Hlast. rewrite <- Heq. apply elem_of_upto. destruct (tx_count_spec len Hlen) as (_ & ? & _). unfold total. lia.
    + rewrite <- app_assoc. exact Heq.
    + exact (env_le_trans _ _ _ Hle Hle1).
    + exact (chatter_trans _ _ _ C C1).
  - intros fh e1 s1 l1 rx sl Hmt Hm [C1 _] Hl1 Hi1 Ho Hseen Hc.
    assert (Hall : forall j, 0 <= j < total -> j ∈ seen ++ [i]) by exact (seen_complete _ _ Hseen Hc).
    assert (Hrest : rest = []).
    { apply (in_order_last seen i rest Heq), Hall. destruct (tx_count_spec len Hlen) as (_ & ? & _). unfold total. lia. }
    destruct (rx_seen_all _ _ _ _ _ Hlen _ _ Hseen Hall) as (_ & Hrl & Hbuf).
    rewrite Hrest. cbn [fmap list_fmap deliver].
    eapply wp_mono; [|apply (Hcomp fh e1 s1 l1 rx sl); try assumption; [exact (chatter_trans _ _ _ C C1)|apply Hseen]].
    intros r e2 w HQ. apply wp_ret, HQ.
Qed.

(** A message delivered in order is handled once, complete. *)
Lemma wp_deliver Q e q h g s :
  session_wf s -> tx_wf q -> hs_wf h -> node_id s = nid -> nid <> SESSION_INVALID_NODE_ID -> takes s mt -> prompt_forever e ->
  no_slot self (rx_slots h) -> (exists i, at_index (rx_slots h) i = Some slot_free) ->
  (forall fh e1 s1 l rx sl, fh_msg_type fh = mt -> fh_msg_id fh = mid -> chatter s s1 -> slots_wf l ->
     at_index l rx = Some sl -> slot_owned self sl = true -> rx_wf (sl_ctx sl) ->
     fragment_rx_complete (sl_ctx sl) = true -> fragment_rx_len (sl_ctx sl) = len ->
     rx_message (sl_ctx sl) len = take (Z.to_nat len) data ->
     wp (complete_message (udp_send ctx) self fh rx) (fun _ e' w => Q tt e' w) e1
       (mk_hs_world s1 q (h <| rx_slots := l |>) g)) ->
  wp (deliver (frag_packets data len mt nid mid flags)) Q e (mk_hs_world s q h g).
Proof.
  intros Hs Hq Hh Hid Hinv Htk Hprompt Hno Hfree Hcomp. destruct (tx_count_spec len Hlen) as (_ & Htot & _).
  unfold frag_packets. rewrite (slots_eq h (rx_slots h) eq_refl).
  apply (wp_deliver_rest Q e q h g s (upto total)) with (seen := []); auto.
  - intros Hnil. apply (f_equal length) in Hnil. rewrite length_upto in Hnil. cbn in Hnil. unfold total in Hnil. lia.
  - apply env_le_refl.
  - apply chatter_refl, Hs.
  - apply Hh.
  - left. auto.
Qed.

End Delivery.

(** ** The four parts of a handshake *)

Section Parts.
Context `{PlatformLaws} `{CryptoLaws} (conn : nat) (dest : uip_ipaddr_t) (self : sref).

Abbreviation ctx := (mk_send_ctx (Some conn) (Some dest)).

(** A session's slots before a message for it begins: none is its own, one is free. *)
Definition slots_ready (l : list hs_rx_slot_t) : Prop := no_slot self l /\ exists i, at_index l i = Some slot_free.

Lemma slots_ready_gc now l : slots_ready l -> slots_ready (gc_slot now <$> l).
Proof.
  intros [Hno (i & Hi)]. split; [apply gc_no_slot, Hno|]. exists i. exact (at_index_fmap _ _ _ _ Hi).
Qed.

Lemma slots_ready_release l rx sl :
  slots_wf l -> at_index l rx = Some sl -> slot_owned self sl = true -> slots_ready (release_slot self <$> l).
Proof.
  intros Hl Hi Ho. split; [apply release_slots_wf, Hl|]. exists rx. rewrite (at_index_fmap _ _ _ _ Hi).
  unfold release_slot. rewrite Ho. reflexivity.
Qed.

(** The root answers a request with its public key. *)
Lemma root_starts e s q h g :
  session_wf s -> tx_wf q -> hs_wf h -> role s = SESSION_ROLE_ROOT -> root_has_keypair h <> 0 ->
  tx_count q + 36 <= PQC_TX_QUEUE_SIZE -> slots_ready (rx_slots h) ->
  wp (hs_fsm_start (udp_send ctx)) (fun r _ w => r = true /\ world_wf w /\
    chatter (pk_session s (next_msg_id s)) (hw_s w) /\ slots_ready (rx_slots (hw_hs w)) /\
    (root_pk (hw_hs w), root_sk (hw_hs w), root_has_keypair (hw_hs w)) = (root_pk h, root_sk h, root_has_keypair h) /\
    pending (hw_tx w) ≡ₚ (pkt_entry conn dest <$> pk_packets s h (next_msg_id s)) ++ pending q) e (mk_hs_world s q h g).
Proof.
  intros Hs Hq Hh Hr Hk Hroom Hsl. apply wp_start; try assumption. intros r e' s' q' h' g' Hs' Hq' Hh' Hst.
  unfold started in Hst. rewrite Hr in Hst. destruct Hst as (made & s1 & Hmade & [C1 N1] & Hsent).
  unfold keypair_made in Hmade. rsimpl. rewrite (proj2 (Z.eqb_neq _ _)) in Hmade by exact Hk.
  destruct Hmade as (-> & -> & ->). destruct Hsent as (_ & Hprog & Hsent).
  specialize (Hprog eq_refl Hroom). subst r. destruct Hsent as (C & conn' & dest' & [= <- <-] & Hp).
  cbn [hw_s hw_tx hw_hs] in *. split_and!; try reflexivity; try assumption.
  - split_and!; assumption.
  - rewrite N1 in C. refine (chatter_trans _ _ _ _ C). apply chatter_pending; [clia|apply Hs|]. apply chatter_state, C1.
  - apply slots_ready_gc, Hsl.
  - rewrite Hp, N1. unfold pk_packets. rewrite (chatter_id _ _ C1). reflexivity.
Qed.

(** A node that receives the public key answers with a ciphertext. *)
Lemma node_encapsulates e s q h g mid pk ct secret g' :
  session_wf s -> tx_wf q -> hs_wf h -> role s = SESSION_ROLE_NODE -> state s = SESSION_STATE_WAIT_PK ->
  pending_msg_type s = PQC_MSG_GETPK -> node_id s <> SESSION_INVALID_NODE_ID -> is_u8 mid ->
  Z.of_nat (length pk) = CW_HQC_PUBLIC_KEY_LEN -> all_bytes pk ->
  crypto_kem_enc g pk = (0, ct, secret, g') ->
  tx_count q + 71 <= PQC_TX_QUEUE_SIZE -> slots_ready (rx_slots h) -> prompt_forever e ->
  wp (deliver ctx self (frag_packets pk CW_HQC_PUBLIC_KEY_LEN HS_MSG_PK (node_id s) mid PQC_FLAG_NONE))
    (fun _ _ w => world_wf w /\ slots_ready (rx_slots (hw_hs w)) /\ node_ct (hw_hs w) = ct /\
       exists mid', is_u8 mid' /\ chatter (ct_session (with_secrets s secret (aes_key_of secret)) mid') (hw_s w) /\
       pending (hw_tx w) ≡ₚ (pkt_entry conn dest <$>
         frag_packets ct CW_HQC_CIPHERTEXT_LEN HS_MSG_CT (node_id s) mid' PQC_FLAG_NONE) ++ pending q)
    e (mk_hs_world s q h g).
Proof.
  intros Hs Hq Hh Hr Hst Hp Hinv Hmid Hpl Hpb Henc Hroom [Hno Hfree] Hprompt.
  apply wp_deliver; try assumption; try clia; [apply Hs|left; auto|].
  intros fh e1 s1 l rx sl Hmt _ C1 Hl Hi Ho Hrx Hcomp Hrl Hmsg. unfold complete_message.
  destruct (chatter_fields _ _ C1) as [[= _ Fn Fr Fs _ _ _] _].
  apply wp_bind, wp_on_s, wp_get. rewrite Hmt. unfold session_is_node. rewrite Fr, Hr.
  change (bool_decide (SESSION_ROLE_NODE = SESSION_ROLE_NODE) && (HS_MSG_PK =? HS_MSG_PK)) with true. cbv iota.
  eapply wp_node_pk; [apply C1|exact Hq|apply with_slots_wf; assumption|exact Hi|exact Hrx|exact Hcomp|].
  intros r e2 s2 q2 h2 g2 (Hq2 & Hh2 & Hsl & _ & Hout). rsimpl.
  rewrite Hmsg, take_ge, Henc in Hout by lia. destruct Hout as [Hprog Hout].
  rewrite (Hprog eq_refl Hroom Hrl eq_refl) in Hout. destruct Hout as (_ & _ & Hct & C2 & conn' & dest' & [= <- <-] & Hperm).
  cbn [hw_s hw_tx hw_hs]. split_and!; [split_and!; [apply C2|exact Hq2|exact Hh2]| |exact Hct|].
  { rewrite Hsl. exact (slots_ready_release _ _ _ Hl Hi Ho). }
  assert (Hmid1 : is_u8 (next_msg_id s1)) by apply C1. exists (next_msg_id s1). split_and!; [exact Hmid1| |].
  - destruct (kem_enc_sizes _ _ _ _ _ _ Henc) as (_ & _ & Hkl & Hkb). assert (Hsec : is_secret secret) by (split; [clia|exact Hkb]).
    destruct (derive_aes_key_eq secret (zeros CW_AES_KEY_LEN) Hsec eq_refl) as [_ Hk].
    refine (chatter_trans _ _ _ _ C2). apply chatter_ct; [exact Hmid1|]. apply chatter_secrets; assumption.
  - rewrite Hperm. unfold ct_packets. rewrite Hct, Fn. reflexivity.
Qed.

(** The root that receives the ciphertext is established and acknowledges it. *)
Lemma root_decapsulates_run e s q h g mid ct secret :
  session_wf s -> tx_wf q -> hs_wf h -> role s = SESSION_ROLE_ROOT -> state s = SESSION_STATE_WAIT_CT ->
  node_id s <> SESSION_INVALID_NODE_ID -> is_u8 mid -> root_has_keypair h <> 0 ->
  Z.of_nat (length ct) = CW_HQC_CIPHERTEXT_LEN -> all_bytes ct ->
  crypto_kem_dec ct (root_sk h) = (0, secret) ->
  tx_count q < PQC_TX_QUEUE_SIZE -> slots_ready (rx_slots h) -> prompt_forever e ->
  wp (deliver ctx self (frag_packets ct CW_HQC_CIPHERTEXT_LEN HS_MSG_CT (node_id s) mid PQC_FLAG_NONE))
    (fun _ _ w => world_wf w /\
       chatter (established_session (with_secrets s secret (aes_key_of secret))) (hw_s w) /\
       exists aid, is_u8 aid /\ pending (hw_tx w) ≡ₚ (pkt_entry conn dest <$>
         frag_packets [mid] 1 HS_MSG_ACK (node_id s) aid PQC_FLAG_NONE) ++ pending q)
    e (mk_hs_world s q h g).
Proof.
  intros Hs Hq Hh Hr Hst Hinv Hmid Hk Hcl Hcb Hdec Hroom [Hno Hfree] Hprompt.
  apply wp_deliver; try assumption; try clia; [apply Hs|right; right; auto|].
  intros fh e1 s1 l rx sl Hmt Hfm C1 Hl Hi Ho Hrx Hcomp Hrl Hmsg. unfold complete_message.
  destruct (chatter_fields _ _ C1) as [[= _ Fn Fr Fs _ _ _] _].
  apply wp_bind, wp_on_s, wp_get. rewrite Hmt, Hfm. unfold session_is_node, session_is_root. rewrite Fr, Hr.
  change (bool_decide (SESSION_ROLE_ROOT = SESSION_ROLE_NODE)) with false.
  change (bool_decide (SESSION_ROLE_ROOT = SESSION_ROLE_ROOT) && (HS_MSG_CT =? HS_MSG_CT)) with true. cbn [andb].
  eapply wp_root_ct; [apply C1|exact Hq|apply with_slots_wf; assumption|congruence|exact Hi|exact Hrx|exact Hcomp|].
  intros r e2 s2 q2 h2 (Hq2 & Hh2 & _ & _ & Hout). rsimpl. rewrite Hmsg, take_ge, Hdec, Hrl in Hout by lia.
  rewrite (proj2 (Z.eqb_neq _ 0) Hk) in Hout. change ((_ =? _) && negb false && (0 =? 0)) with true in Hout. cbv iota in Hout.
  destruct Hout as (s3 & C3 & N3 & C4 & _ & _ & Hprog & Hsent). specialize (Hprog eq_refl Hroom). subst r.
  destruct (Hsent eq_refl) as (_ & conn' & dest' & [= <- <-] & Hperm).
  destruct (kem_dec_sizes _ _ _ _ Hdec) as [Hkl Hkb]. assert (Hsec : is_secret secret) by (split; [clia|exact Hkb]).
  destruct (derive_aes_key_eq secret (zeros CW_AES_KEY_LEN) Hsec eq_refl) as [_ Hkey].
  cbn [hw_s hw_tx hw_hs]. split_and!; [split_and!; [apply C4|exact Hq2|exact Hh2]| |].
  - refine (chatter_trans _ _ _ _ (chatter_trans _ _ _ C3 C4)). apply chatter_done, chatter_secrets; assumption.
  - exists (next_msg_id s3). split; [apply C3|]. rewrite Hperm. unfold ack_packet.
    rewrite (chatter_id _ _ C3). change (node_id (established_session _)) with (node_id s1). rewrite Fn. reflexivity.
Qed.

(** The node that receives the acknowledgement of its ciphertext is established. *)
Lemma node_confirms e s q h g aid :
  session_wf s -> tx_wf q -> hs_wf h -> role s = SESSION_ROLE_NODE -> state s = SESSION_STATE_WAIT_ACK ->
  pending_msg_type s = HS_MSG_CT -> node_id s <> SESSION_INVALID_NODE_ID -> is_u8 aid ->
  slots_ready (rx_slots h) -> prompt_forever e ->
  wp (deliver ctx self (frag_packets [pending_msg_id s] 1 HS_MSG_ACK (node_id s) aid PQC_FLAG_NONE))
    (fun _ _ w => world_wf w /\ chatter (established_session s) (hw_s w)) e (mk_hs_world s q h g).
Proof.
  intros Hs Hq Hh Hr Hst Hp Hinv Haid [Hno Hfree] Hprompt. destruct (sw_pending _ Hs) as [_ Hpi].
  apply wp_deliver; try assumption; try clia; [cbn; clia|apply list.Forall_cons; split; [exact Hpi|apply list.Forall_nil; exact I]|apply Hs|right; left; auto|].
  intros fh e1 s1 l rx sl Hmt _ C1 Hl Hi Ho Hrx Hcomp Hrl Hmsg. unfold complete_message.
  destruct (chatter_fields _ _ C1) as [[= _ _ Fr _ _ _ _] [= _ _ _ _ Fi _]].
  apply wp_bind, wp_on_s, wp_get. rewrite Hmt. unfold session_is_node. rewrite Fr, Hr.
  change (bool_decide (SESSION_ROLE_NODE = SESSION_ROLE_NODE) && (HS_MSG_ACK =? HS_MSG_PK)) with false.
  change (bool_decide (SESSION_ROLE_NODE = SESSION_ROLE_NODE) && (HS_MSG_ACK =? HS_MSG_ACK)) with true. cbv iota.
  eapply wp_node_ack; [apply C1|apply with_slots_wf; assumption|exact Hi|exact Hrx|exact Hcomp|].
  intros r e2 s2 h2 (Hh2 & _ & _ & Hout). destruct r.
  - destruct Hout as (_ & _ & C2). cbn [hw_s hw_tx hw_hs]. split; [split_and!; [apply C2|exact Hq|exact Hh2]|].
    exact (chatter_trans _ _ _ (chatter_done _ _ C1) C2).
  - destruct Hout as (Hn & _). contradiction Hn. split; [exact Hrl|]. rewrite Fi, cell_lookup by lia.
    unfold rx_message in Hmsg. change (take (Z.to_nat 1) (rx_buffer (sl_ctx sl)) = [pending_msg_id s]) in Hmsg.
    destruct (rx_buffer (sl_ctx sl)) as [|x buf]; [discriminate|]. cbn in Hmsg. injection Hmsg as ->. reflexivity.
Qed.

End Parts.

(** ** Agreement *)

(** The queue entries of datagrams. *)
Definition queued `{Platform} (conn : nat) (dest : uip_ipaddr_t) (pkts : list bytes) (q q' : tx_state) : Prop :=
  pending q' ≡ₚ (pkt_entry conn dest <$> pkts) ++ pending q.

(** A root with a key pair that has received a request, a node that has sent one. *)
Record root_requested `{Platform} `{Crypto} (self : sref) (w : hs_world) : Prop := {
  rr_wf : world_wf w;
  rr_role : role (hw_s w) = SESSION_ROLE_ROOT;
  rr_id : node_id (hw_s w) <> SESSION_INVALID_NODE_ID;
  rr_keypair : root_has_keypair (hw_hs w) <> 0;
  rr_room : tx_count (hw_tx w) + 37 <= PQC_TX_QUEUE_SIZE;
  rr_slots : slots_ready self (rx_slots (hw_hs w));
}.
Record node_requesting `{Platform} `{Crypto} (self : sref) (nid : Z) (w : hs_world) : Prop := {
  nr_wf : world_wf w;
  nr_role : role (hw_s w) = SESSION_ROLE_NODE;
  nr_state : state (hw_s w) = SESSION_STATE_WAIT_PK;
  nr_pending : pending_msg_type (hw_s w) = PQC_MSG_GETPK;
  nr_id : node_id (hw_s w) = nid;
  nr_room : tx_count (hw_tx w) + 71 <= PQC_TX_QUEUE_SIZE;
  nr_slots : slots_ready self (rx_slots (hw_hs w));
}.

Section Agreement.
Context `{PlatformLaws} `{CryptoLaws}.

Lemma established_chatter s s' : chatter (established_session s) s' ->
  session_is_established s' = true /\ ss s' = ss s /\ aes_key s' = aes_key s.
Proof.
  intros C. destruct (chatter_fields _ _ C) as [[= _ _ _ Fs Fe _ _] [= Fss Fk _ _ _ _]].
  unfold session_is_established. rewrite Fs, Fe. auto.
Qed.

Lemma queue_count q q' pkts conn dest :
  tx_wf q -> tx_wf q' -> queued conn dest pkts q q' -> tx_count q' = tx_count q + Z.of_nat (length pkts).
Proof.
  intros Hq Hq' Hp. unfold queued in Hp. rewrite (qw_count _ Hq), (qw_count _ Hq'), Hp, length_app, length_fmap. lia.
Qed.

(** The last two parts: the root waits for the ciphertext that the node has sent. *)
Lemma agreement_end rself rconn rdest wr nself nconn ndest wn s0 mid ct secret er en :
  let rctx := mk_send_ctx (Some rconn) (Some rdest) in let nctx := mk_send_ctx (Some nconn) (Some ndest) in
  world_wf wr -> (role (hw_s wr), state (hw_s wr)) = (SESSION_ROLE_ROOT, SESSION_STATE_WAIT_CT) ->
  node_id (hw_s wr) <> SESSION_INVALID_NODE_ID -> root_has_keypair (hw_hs wr) <> 0 -> tx_count (hw_tx wr) < PQC_TX_QUEUE_SIZE ->
  slots_ready rself (rx_slots (hw_hs wr)) ->
  world_wf wn -> chatter (ct_session (with_secrets s0 secret (aes_key_of secret)) mid) (hw_s wn) -> role (hw_s wn) = SESSION_ROLE_NODE ->
  node_id (hw_s wn) = node_id (hw_s wr) -> slots_ready nself (rx_slots (hw_hs wn)) ->
  is_u8 mid -> Z.of_nat (length ct) = CW_HQC_CIPHERTEXT_LEN -> all_bytes ct -> crypto_kem_dec ct (root_sk (hw_hs wr)) = (0, secret) ->
  exists er2 wr2, deliver rctx rself (frag_packets ct CW_HQC_CIPHERTEXT_LEN HS_MSG_CT (node_id (hw_s wr)) mid PQC_FLAG_NONE) er wr = Some (tt, er2, wr2) /\
    (prompt er er2 -> exists acks en2 wn2, queued rconn rdest acks (hw_tx wr) (hw_tx wr2) /\
       deliver nctx nself acks en wn = Some (tt, en2, wn2) /\
       (prompt en en2 -> session_is_established (hw_s wr2) = true /\ session_is_established (hw_s wn2) = true /\
          ss (hw_s wr2) = secret /\ ss (hw_s wn2) = secret /\
          aes_key (hw_s wr2) = aes_key_of secret /\ aes_key (hw_s wn2) = aes_key_of secret)).
Proof.
  intros rctx nctx Hwr [= Frr Frs] Hid Hk Hroom Hrs Hwn Cn Fnr Hsame Hns Hmid Hcl Hcb Hdec. destruct wr as [sr1 qr1 hr1 gr1], wn as [sn1 qn1 hn1 gn1].
  pose proof Hwr as (Hsr1 & Hqr1 & Hhr1). pose proof Hwn as (Hsn1 & Hqn1 & Hhn1). cbn [hw_s hw_tx hw_hs hw_prng] in *.
  set (cts := frag_packets ct _ _ _ _ _). assert (Hb3 : Forall all_bytes cts) by (apply packets_bytes; (apply Hsr1 || assumption || clia)).
  destruct (deliver_run rctx rself cts _ er (mk_hs_world sr1 qr1 hr1 gr1) Hwr Hb3
    (fun e0 => root_decapsulates_run rconn rdest rself e0 sr1 qr1 hr1 gr1 mid ct secret Hsr1 Hqr1 Hhr1 Frr Frs Hid Hmid Hk Hcl Hcb Hdec Hroom Hrs))
    as (er2 & [sr2 qr2 hr2 gr2] & Hrun3 & Hout3).
  exists er2, (mk_hs_world sr2 qr2 hr2 gr2). split; [exact Hrun3|]. intros Hp2. destruct (Hout3 Hp2) as (_ & Cr2 & aid & Haid & Hpend3).
  cbn [hw_s hw_tx hw_hs hw_prng] in *. set (acks := frag_packets [mid] _ _ _ _ _) in *.
  destruct (chatter_fields _ _ Cn) as [[= _ _ _ Fns _ _ _] [= Fs1 Fk1 _ Fnp Fni _]].
  assert (Hacks : acks = frag_packets [pending_msg_id sn1] 1 HS_MSG_ACK (node_id sn1) aid PQC_FLAG_NONE) by (unfold acks; rewrite Fni, Hsame; reflexivity).
  pose proof (fun e0 => node_confirms nconn ndest nself e0 sn1 qn1 hn1 gn1 aid Hsn1 Hqn1 Hhn1 Fnr Fns Fnp ltac:(congruence) Haid Hns) as Hpart4.
  rewrite <- Hacks in Hpart4. assert (Hb4 : Forall all_bytes acks).
  { rewrite Hacks, Fni. apply packets_bytes; try (apply Hsn1 || assumption || clia); [cbn; clia|repeat (apply list.Forall_cons; split); (exact Hmid || apply list.Forall_nil; exact I)]. }
  destruct (deliver_run nctx nself acks _ en (mk_hs_world sn1 qn1 hn1 gn1) Hwn Hb4 Hpart4) as (en2 & [sn2 qn2 hn2 gn2] & Hrun4 & Hout4).
  exists acks, en2, (mk_hs_world sn2 qn2 hn2 gn2). do 2 (split; [assumption|]). intros Hp3. destruct (Hout4 Hp3) as (_ & Cn2). cbn [hw_s] in *.
  destruct (established_chatter _ _ Cr2) as (Er & Fsr & Fkr), (established_chatter _ _ Cn2) as (En & Fsn & Fkn). split_and!; try assumption; congruence.
Qed.

(** The four parts, one after the other. *)
Lemma agreement_run nid rself rconn rdest wr nself nconn ndest wn ct secret g' er en er1 en1 :
  root_requested rself wr -> node_requesting nself nid wn -> node_id (hw_s wr) = nid ->
  crypto_kem_enc (hw_prng wn) (root_pk (hw_hs wr)) = (0, ct, secret, g') ->
  crypto_kem_dec ct (root_sk (hw_hs wr)) = (0, secret) ->
  let rctx := mk_send_ctx (Some rconn) (Some rdest) in let nctx := mk_send_ctx (Some nconn) (Some ndest) in
  exists pks er' wr1 en' wn1,
    hs_fsm_start (udp_send rctx) er wr = Some (true, er', wr1) /\ queued rconn rdest pks (hw_tx wr) (hw_tx wr1) /\
    deliver nctx nself pks en wn = Some (tt, en', wn1) /\
    (prompt en en' -> exists cts er2 wr2, queued nconn ndest cts (hw_tx wn) (hw_tx wn1) /\
       deliver rctx rself cts er1 wr1 = Some (tt, er2, wr2) /\
       (prompt er1 er2 -> exists acks en2 wn2, queued rconn rdest acks (hw_tx wr1) (hw_tx wr2) /\
          deliver nctx nself acks en1 wn1 = Some (tt, en2, wn2) /\
          (prompt en1 en2 -> session_is_established (hw_s wr2) = true /\ session_is_established (hw_s wn2) = true /\
             ss (hw_s wr2) = secret /\ ss (hw_s wn2) = secret /\
             aes_key (hw_s wr2) = aes_key_of secret /\ aes_key (hw_s wn2) = aes_key_of secret))).
Proof.
  intros [(Hsr & Hqr & Hhr) Hrr Hri Hrk Hrm Hrs] [(Hsn & Hqn & Hhn) Hnr Hns Hnp Hni Hnm Hnsl] Hid Henc Hdec rctx nctx.
  destruct wr as [sr qr hr gr], wn as [sn qn hn gn]. cbn [hw_s hw_tx hw_hs hw_prng] in *. assert (Hsame : node_id sn = node_id sr) by congruence.
  destruct (kem_enc_sizes _ _ _ _ _ _ Henc) as (Hcl & Hcb & _). destruct (hw_pk _ Hhr) as [Hpl Hpb].
  (* the root sends its key *)
  pose proof (root_starts rconn rdest rself er sr qr hr gr Hsr Hqr Hhr Hrr Hrk ltac:(lia) Hrs) as Hrun1.
  apply wp_run in Hrun1 as (r1 & er' & [sr1 qr1 hr1 gr1] & Hrun1 & -> & Hwr1 & Cr1 & Hrs1 & [= Hpk1 Hsk1 Hhk1] & Hpend1).
  pose proof Hwr1 as (Hsr1 & Hqr1 & Hhr1). cbn [hw_s hw_tx hw_hs hw_prng] in *. set (pks := pk_packets sr hr (next_msg_id sr)) in *.
  assert (Hpks : pks = frag_packets (root_pk hr) CW_HQC_PUBLIC_KEY_LEN HS_MSG_PK (node_id sn) (next_msg_id sr) PQC_FLAG_NONE)
    by (unfold pks, pk_packets; rewrite Hsame; reflexivity).
  (* the node answers *)
  pose proof (fun e0 => node_encapsulates nconn ndest nself e0 sn qn hn gn (next_msg_id sr) (root_pk hr) ct secret g' Hsn Hqn Hhn Hnr Hns Hnp
    ltac:(congruence) (sw_msg_id _ Hsr) Hpl Hpb Henc ltac:(lia) Hnsl) as Hpart2. rewrite <- Hpks in Hpart2.
  assert (Hb2 : Forall all_bytes pks) by (rewrite Hpks; apply packets_bytes; (apply Hsn || apply Hsr || assumption || clia)).
  destruct (deliver_run nctx nself pks _ en (mk_hs_world sn qn hn gn) ltac:(split_and!; assumption) Hb2 Hpart2) as (en' & [sn1 qn1 hn1 gn1] & Hrun2 & Hout2).
  exists pks, er', (mk_hs_world sr1 qr1 hr1 gr1), en', (mk_hs_world sn1 qn1 hn1 gn1). do 3 (split; [assumption|]). intros Hp1.
  destruct (Hout2 Hp1) as (Hwn1 & Hns1 & _ & mid & Hmid & Cn1 & Hpend2). pose proof Hwn1 as (Hsn1 & Hqn1 & Hhn1).
  cbn [hw_s hw_tx hw_hs hw_prng] in *. set (cts := frag_packets ct _ _ _ _ _) in *.
  destruct (chatter_fields _ _ Cr1) as [[= _ Frn Frr Frs _ _ _] _].
  change (node_id (pk_session sr (next_msg_id sr))) with (node_id sr) in Frn.
  assert (Hcts : cts = frag_packets ct CW_HQC_CIPHERTEXT_LEN HS_MSG_CT (node_id sr1) mid PQC_FLAG_NONE)
    by (unfold cts; rewrite Frn, Hsame; reflexivity).
  assert (Hroom1 : tx_count qr1 < PQC_TX_QUEUE_SIZE).
  { rewrite (queue_count qr qr1 pks rconn rdest Hqr Hqr1 Hpend1). unfold pks, pk_packets. rewrite frag_packets_length by clia.
    change (fragment_tx_count CW_HQC_PUBLIC_KEY_LEN) with 36. lia. }
  destruct (chatter_fields _ _ Cn1) as [[= _ Fnn Fnr _ _ _ _] _].
  change (node_id (ct_session _ mid)) with (node_id sn) in Fnn. change (role (ct_session _ mid)) with (role sn) in Fnr.
  destruct (agreement_end rself rconn rdest (mk_hs_world sr1 qr1 hr1 gr1) nself nconn ndest (mk_hs_world sn1 qn1 hn1 gn1) sn mid ct secret er1 en1)
    as (er2 & wr2 & Hrun3 & Hout3); cbn [hw_s hw_tx hw_hs]; try assumption; try congruence.
  exists cts, er2, wr2. split; [exact Hpend2|]. rewrite Hcts. split; [exact Hrun3|exact Hout3].
Qed.

End Agreement.

(** ** Properties *)

#[local] Existing Instance example_platform | 100.
#[local] Existing Instance example_platform_laws | 100.
#[local] Existing Instance example_crypto | 100.
#[local] Existing Instance example_crypto_laws | 100.

(** C1. A handshake makes the two ends agree.  Hypotheses: a root with a key pair and a
    requesting node for the same identifier have room in their queues and a receive slot
    each, and the KEM decapsulates what the node encapsulates to the root's key.  Then
    the root queues its public key, and the node that receives those datagrams in
    order, none lost, returns.  If no receive slot expires meanwhile, that is if the clock
    readings the delivery makes do not go backwards or further apart than
    [HS_RX_TIMEOUT], the node has queued a ciphertext; likewise the root that
    receives these in time queues an acknowledgement; and after the node has received
    that in time both sessions are established with the KEM's shared secret and the AES
    key derived from it. *)
Theorem handshake_agreement `{PlatformLaws} `{CryptoLaws} nid rself rconn rdest wr nself nconn ndest wn ct secret g' er en er1 en1 :
  root_requested rself wr -> node_requesting nself nid wn -> node_id (hw_s wr) = nid ->
  crypto_kem_enc (hw_prng wn) (root_pk (hw_hs wr)) = (0, ct, secret, g') ->
  crypto_kem_dec ct (root_sk (hw_hs wr)) = (0, secret) ->
  exists pks er' wr1 en' wn1,
    hs_fsm_start (udp_send (mk_send_ctx (Some rconn) (Some rdest))) er wr = Some (true, er', wr1) /\
    queued rconn rdest pks (hw_tx wr) (hw_tx wr1) /\
    deliver (mk_send_ctx (Some nconn) (Some ndest)) nself pks en wn = Some (tt, en', wn1) /\
    (prompt en en' -> exists cts er2 wr2,
       queued nconn ndest cts (hw_tx wn) (hw_tx wn1) /\
       deliver (mk_send_ctx (Some rconn) (Some rdest)) rself cts er1 wr1 = Some (tt, er2, wr2) /\
       (prompt er1 er2 -> exists acks en2 wn2,
          queued rconn rdest acks (hw_tx wr1) (hw_tx wr2) /\
          deliver (mk_send_ctx (Some nconn) (Some ndest)) nself acks en1 wn1 = Some (tt, en2, wn2) /\
          (prompt en1 en2 ->
             session_is_established (hw_s wr2) = true /\ session_is_established (hw_s wn2) = true /\
             ss (hw_s wr2) = secret /\ ss (hw_s wn2) = secret /\
             aes_key (hw_s wr2) = aes_key_of secret /\ aes_key (hw_s wn2) = aes_key_of secret))).
Proof.
  intros Hr Hn Hid Henc Hdec.
  exact (agreement_run nid rself rconn rdest wr nself nconn ndest wn ct secret g' er en er1 en1 Hr Hn Hid Henc Hdec).
Qed.

Definition example_root : hs_world :=
  mk_hs_world (example_waiting SESSION_ROLE_ROOT SESSION_STATE_IDLE 0) example_queue
    (hs_boot <| root_has_keypair := 1 |>) prng_zero.
Definition example_node : hs_world :=
  mk_hs_world (example_waiting SESSION_ROLE_NODE SESSION_STATE_WAIT_PK PQC_MSG_GETPK) example_queue hs_boot prng_zero.

Lemma example_root_requested : root_requested (Slot 0) example_root.
Proof.
  constructor; [|reflexivity|discriminate|discriminate|vm_compute; discriminate|].
  - split_and!; [apply example_waiting_wf; decided|exact example_queue_wf|].
    pose proof hs_boot_wf as []. constructor; assumption.
  - split; [repeat constructor|exists 0; reflexivity].
Qed.
Lemma example_node_requesting : node_requesting Local 5 example_node.
Proof.
  constructor; [|reflexivity|reflexivity|reflexivity|reflexivity|vm_compute; discriminate|].
  - split_and!; [apply example_waiting_wf; decided|exact example_queue_wf|exact hs_boot_wf].
  - split; [repeat constructor|exists 0; reflexivity].
Qed.
Lemma example_prompt e' : prompt example_env e'.
Proof. intros n m _ _ _. vm_compute. discriminate. Qed.

Example handshake_agreement_witness :
  exists pks er' wr1 cts en' wn1 acks er2 wr2 en2 wn2,
    hs_fsm_start (udp_send example_ctx) example_env example_root = Some (true, er', wr1) /\
    queued 0 example_peer pks (hw_tx example_root) (hw_tx wr1) /\
    deliver example_ctx Local pks example_env example_node = Some (tt, en', wn1) /\
    queued 0 example_peer cts (hw_tx example_node) (hw_tx wn1) /\
    deliver example_ctx (Slot 0) cts example_env wr1 = Some (tt, er2, wr2) /\
    queued 0 example_peer acks (hw_tx wr1) (hw_tx wr2) /\
    deliver example_ctx Local acks example_env wn1 = Some (tt, en2, wn2) /\
    session_is_established (hw_s wr2) = true /\ session_is_established (hw_s wn2) = true /\
    ss (hw_s wr2) = replicate 64 0 /\ ss (hw_s wn2) = replicate 64 0 /\
    aes_key (hw_s wr2) = aes_key_of (replicate 64 0) /\ aes_key (hw_s wn2) = aes_key_of (replicate 64 0).
Proof.
  destruct (handshake_agreement 5 (Slot 0) 0%nat example_peer example_root Local 0%nat example_peer example_node
           (0 :: zeros 4480) (replicate 64 0) (1 : Z) example_env example_env example_env example_env
           example_root_requested example_node_requesting eq_refl eq_refl eq_refl) as (pks & er' & wr1 & en' & wn1 & Hs & Hq1 & Hd1 & H1).
  destruct (H1 (example_prompt en')) as (cts & er2 & wr2 & Hq2 & Hd2 & H2). destruct (H2 (example_prompt er2)) as (acks & en2 & wn2 & Hq3 & Hd3 & H3).
  exists pks, er', wr1, cts, en', wn1, acks, er2, wr2, en2, wn2. do 7 (split; [assumption|]). exact (H3 (example_prompt en2)).
Defined.
