(* ===== verification/HqcCrypto.v ===== *)
(** * The handshake with HQC

    HQC as an instance of the interface [Crypto] that the rest of the firmware is proved
    against.  With the round trip of KemProps the agreement of the handshake needs no
    hypothesis on the KEM but that the samplers return and the noise is harmless. *)

From S2P Require Import Prelude Platform Protocol Fragmentation Nack Metrics Carryless Words Fips202 Sponge Prng Gf Gf2x Vector Cyclic CryptoWorker Code Hqc Kem HqcCheck HqcBoot KemProps Session TxQueue Telemetry Handshake HandshakeFacts HandshakeRules HandshakeStep HandshakeProps HandshakeRun.

(** ** The interface *)

Definition expander_b (s : list Z) : bool :=
  bool_decide (length s = 26%nat) && forallb (fun x => bool_decide (0 <= x < 2 ^ 64)) (take 25 s) && match s !! 25%nat with Some c => bool_decide (0 <= c < 136) | None => false end.

Lemma expander_b_spec s : expander_b s = true <-> expander s.
Proof.
  unfold expander_b. rewrite !andb_true_iff, bool_decide_eq_true, forallb_forall. split.
  - intros [[Hl Hf] Hc]. destruct (s !! 25%nat) as [c|] eqn:Ec; [apply bool_decide_eq_true in Hc|discriminate Hc]. exists (take 25 s, c). split.
    + rewrite inc_state_pair. rewrite <- (take_drop 25 s) at 1. f_equal. rewrite (drop_S s c 25 Ec), drop_ge by lia. reflexivity.
    + split; [|exact Hc]. split; [cbn; rewrite length_take; lia|]. apply list.Forall_forall. intros x Hx. apply list_elem_of_In in Hx. exact (bool_decide_eq_true_1 _ (Hf x Hx)).
  - intros ([A c] & -> & [Hl Hf] & Hc). cbn [fst snd] in *. rewrite inc_state_pair. split_and!.
    + rewrite length_app, Hl. reflexivity.
    + intros x Hx. rewrite take_app_length' in Hx by exact (eq_sym Hl). apply bool_decide_eq_true_2. apply list_elem_of_In in Hx. exact (proj1 (list.Forall_forall _ _) Hf x Hx).
    + rewrite list_lookup_middle by exact (eq_sym Hl). apply bool_decide_eq_true_2, Hc.
Qed.
#[export] Instance expander_dec s : Decision (expander s).
Proof. destruct (expander_b s) eqn:E; [left|right]; rewrite <- expander_b_spec, E; [reflexivity|discriminate]. Defined.

(** The states of the generator. *)
Definition prng : Type := {g : list Z | expander g}.
Definition prng_boot : prng := exist _ boot_prng boot_expander.
Definition to_prng (g : list Z) : prng := match decide (expander g) with left H => exist _ g H | right _ => prng_boot end.

Lemma to_prng_eq g : expander g -> proj1_sig (to_prng g) = g.
Proof. intros Hg. unfold to_prng. destruct (decide (expander g)) as [H|H]; [reflexivity|contradiction]. Qed.

Definition sized (n : nat) (b : bytes) : bool := bool_decide (length b = n) && forallb (fun x => bool_decide (0 <= x < 2 ^ 8)) b.
Lemma sized_spec n b : sized n b = true <-> length b = n /\ all_bytes b.
Proof.
  unfold sized. rewrite andb_true_iff, bool_decide_eq_true, forallb_forall. apply and_iff_compat_l. unfold all_bytes. rewrite list.Forall_forall. split; intros H x Hx.
  - apply list_elem_of_In in Hx. exact (bool_decide_eq_true_1 _ (H x Hx)).
  - apply bool_decide_eq_true_2. apply list_elem_of_In in Hx. exact (H x Hx).
Qed.

(** The functions of the interface are total, those of Kem are not: here a call whose sampler
    does not return within [fuel] candidates, which the code has no bound for, or whose
    argument is not an array of the size that the API states, which the arrays of the
    firmware all are, answers -1 with zeroed buffers.  No theorem about HQC rests on those
    answers: [hqc_handshake_agreement] has hypotheses under which the calls return, and
    KemProps says when they do. *)
Definition hqc_crypto (fuel : nat) : Crypto := {|
  prng_state := prng;
  prng_zero := prng_boot;
  CryptoWorker.crypto_kem_keypair := fun g =>
    match Kem.crypto_kem_keypair fuel (proj1_sig g) (zeros PUBLIC_KEY_BYTES) (zeros SECRET_KEY_BYTES) with
    | Some (rc, pk, sk, g') => (rc, pk, sk, to_prng g')
    | None => (-1, zeros PUBLIC_KEY_BYTES, zeros SECRET_KEY_BYTES, g)
    end;
  CryptoWorker.crypto_kem_enc := fun g pk =>
    match (if sized 2249 pk then Kem.crypto_kem_enc fuel (proj1_sig g) (zeros CIPHERTEXT_BYTES) (zeros SHARED_SECRET_BYTES) pk else None) with
    | Some (rc, ct, ss, g') => (rc, ct, ss, to_prng g')
    | None => (-1, zeros CIPHERTEXT_BYTES, zeros SHARED_SECRET_BYTES, g)
    end;
  CryptoWorker.crypto_kem_dec := fun ct sk =>
    match (if sized 4481 ct && sized 2289 sk then Kem.crypto_kem_dec fuel (zeros SHARED_SECRET_BYTES) ct sk else None) with
    | Some (rc, ss) => (rc, ss)
    | None => (-1, zeros SHARED_SECRET_BYTES)
    end;
|}.

(** ** Its laws *)

Lemma crypto_kem_dec_wf fuel ss0 ct sk rc ss : length ct = 4481%nat -> all_bytes ct -> length sk = 2289%nat -> all_bytes sk -> length ss0 = 64%nat ->
  Kem.crypto_kem_dec fuel ss0 ct sk = Some (rc, ss) -> length ss = 64%nat /\ all_bytes ss.
Proof.
  intros Lc Bc Ls Bs L0 E. rewrite crypto_kem_dec_eq in E by assumption. unfold decapsulate in E.
  destruct (ciphertext_from_string_total ct (zeros SHAKE256_512_BYTES) Lc Bc eq_refl) as (u & v & d & Er & Hu & Lv & Wv & _). rewrite Er, some_bind in E.
  pose proof (hqc_pke_decrypt_any fuel u v sk Hu Lv Wv Ls Bs) as Hm. destruct (secret_vectors fuel (take 40 sk)); [|rewrite Hm in E; discriminate E].
  destruct Hm as (m & Em & Lm & _). rewrite Em, some_bind in E. change (Z.to_nat SEED_BYTES) with 40%nat in E.
  destruct (encapsulate fuel m (drop 40 sk)) as [[ct' ss']|] eqn:Ee; [rewrite some_bind in E|discriminate E].
  destruct (encapsulate_wf fuel m (drop 40 sk) ct' ss' Lm) as (_ & _ & Hl & Hb); [rewrite length_drop, Ls; reflexivity|apply Forall_drop, Bs|exact Ee|].
  case_bool_decide; injection E as <- <-; [auto|]. split; [reflexivity|apply all_bytes_zeros].
Qed.

Lemma zeros_sized n k : k = Z.of_nat (Z.to_nat n) -> Z.of_nat (length (zeros n)) = k /\ all_bytes (zeros n).
Proof. intros ->. split; [rewrite length_zeros; reflexivity|apply all_bytes_zeros]. Qed.

#[export] Instance hqc_laws fuel : @CryptoLaws (hqc_crypto fuel).
Proof.
  split; cbn [CryptoWorker.crypto_kem_keypair CryptoWorker.crypto_kem_enc CryptoWorker.crypto_kem_dec hqc_crypto].
  - intros [g Hg] rc pk sk g' E. cbn [proj1_sig] in E. destruct (Kem.crypto_kem_keypair fuel g _ _) as [[[[rc1 pk1] sk1] g1]|] eqn:Ek.
    + destruct (crypto_kem_keypair_eq fuel g (zeros PUBLIC_KEY_BYTES) (zeros SECRET_KEY_BYTES) rc1 pk1 sk1 g1 Hg eq_refl eq_refl Ek) as (_ & _ & gs & x & y & h & s & _ & _ & K).
      injection E as _ <- <- _. destruct (kp_pk _ _ _ _ _ _ _ K) as [-> Bp]. destruct (kp_sk _ _ _ _ _ _ _ K) as [-> Bs]. auto.
    + injection E as _ <- <- _. rewrite !length_zeros. repeat split; apply all_bytes_zeros.
  - intros [g Hg] pk rc ct ss g' E. cbn [proj1_sig] in E. destruct (sized 2249 pk) eqn:Esz; [apply sized_spec in Esz as [Lp Bp]|].
    + destruct (Kem.crypto_kem_enc fuel g _ _ pk) as [[[[rc1 ct1] ss1] g1]|] eqn:Ek.
      * destruct (crypto_kem_enc_wf fuel g (zeros CIPHERTEXT_BYTES) (zeros SHARED_SECRET_BYTES) pk rc1 ct1 ss1 g1 Hg eq_refl eq_refl Lp Bp Ek) as (_ & Lc & Bc & Ls & Bs).
        injection E as _ <- <- _. rewrite Lc, Ls. auto.
      * injection E as _ <- <- _. rewrite !length_zeros. repeat split; apply all_bytes_zeros.
    + injection E as _ <- <- _. rewrite !length_zeros. repeat split; apply all_bytes_zeros.
  - intros ct sk rc ss E. destruct (sized 4481 ct && sized 2289 sk) eqn:Esz.
    + apply andb_true_iff in Esz as [E1 E2]. apply sized_spec in E1 as [Lc Bc]. apply sized_spec in E2 as [Ls Bs].
      destruct (Kem.crypto_kem_dec fuel _ ct sk) as [[rc1 ss1]|] eqn:Ek.
      * destruct (crypto_kem_dec_wf fuel (zeros SHARED_SECRET_BYTES) ct sk rc1 ss1 Lc Bc Ls Bs eq_refl Ek) as [L B]. injection E as _ <-. rewrite L. auto.
      * injection E as _ <-. rewrite length_zeros. repeat split. apply all_bytes_zeros.
    + injection E as _ <-. rewrite length_zeros. repeat split. apply all_bytes_zeros.
Qed.

(** ** The round trip through the interface *)

Lemma interface_roundtrip fuel (g : prng) g0 pk sk rc g1 m g3 z : expander g0 ->
  Kem.crypto_kem_keypair fuel g0 (zeros PUBLIC_KEY_BYTES) (zeros SECRET_KEY_BYTES) = Some (rc, pk, sk, g1) ->
  vect_set_random_from_prng (proj1_sig g) (zeros VEC_K_SIZE_64) = Some (m, g3) ->
  decryption_noise fuel sk m = Some z -> (bad_blocks 0 z <= 15)%nat ->
  exists ct secret g', @CryptoWorker.crypto_kem_enc (hqc_crypto fuel) g pk = (0, ct, secret, g') /\ @CryptoWorker.crypto_kem_dec (hqc_crypto fuel) ct sk = (0, secret) /\
    encapsulate fuel m pk = Some (ct, secret).
Proof.
  intros Hg0 Ek Em Ez Hbad. destruct g as [g Hg]. cbn [proj1_sig] in Em.
  destruct (crypto_kem_keypair_eq fuel g0 (zeros PUBLIC_KEY_BYTES) (zeros SECRET_KEY_BYTES) rc pk sk g1 Hg0 eq_refl eq_refl Ek) as (_ & _ & gs & x & y & h & s & _ & Ev & K).
  destruct (crypto_kem_enc_eq fuel g (zeros CIPHERTEXT_BYTES) (zeros SHARED_SECRET_BYTES) pk h s Hg eq_refl eq_refl (kp_public _ _ _ _ _ _ _ K) (kp_h _ _ _ _ _ _ _ K)
    (vector_array _ (kp_s _ _ _ _ _ _ _ K))) as (m' & g3' & Em' & _ & Lm & Wm & Eenc).
  rewrite Em in Em'. injection Em' as <- <-. destruct (encapsulate_back fuel pk sk x y h s m z K Ev Lm Wm Ez Hbad) as (ct & ss & Ee & Lc & Bc & Ed).
  rewrite Ee, some_bind in Eenc. exists ct, ss, (to_prng g3). pose proof (proj2 (sized_spec 2249 pk) (kp_pk _ _ _ _ _ _ _ K)) as S1.
  pose proof (proj2 (sized_spec 4481 ct) (conj Lc Bc)) as S2. pose proof (proj2 (sized_spec 2289 sk) (kp_sk _ _ _ _ _ _ _ K)) as S3.
  cbn [CryptoWorker.crypto_kem_enc CryptoWorker.crypto_kem_dec hqc_crypto proj1_sig]. rewrite S1, S2, S3, Eenc. split; [reflexivity|]. split; [|exact Ee]. cbn [andb].
  destruct (kp_sk _ _ _ _ _ _ _ K) as [Ls Bs].
  rewrite (crypto_kem_dec_eq fuel (zeros SHARED_SECRET_BYTES) ct sk Lc Bc Ls Bs eq_refl), Ed. reflexivity.
Qed.

(** ** Properties *)

(** C2. The handshake with HQC agrees on a secret.  Hypotheses: a root whose key pair is one
    that the key generator returned and a requesting node for the same identifier have room
    in their queues and a receive slot each, the node draws its message from its
    generator, the samplers return and at most 15 of the 46 blocks of the noise are
    harmful.  Then the root queues its public key and the node that receives it
    in order, none lost, returns; and each further step, the ciphertext, the
    acknowledgement, the last delivery, follows as soon as the delivery before it is
    in time, that is its clock readings do not go backwards or further apart than
    [HS_RX_TIMEOUT], so that no receive slot expires.  At the end both sessions are
    established with the secret that encapsulating that message gives, and with the AES
    key made from it. *)
Theorem hqc_handshake_agreement `{PlatformLaws} fuel nid rself rconn rdest (wr : @hs_world _ (hqc_crypto fuel)) nself nconn ndest (wn : @hs_world _ (hqc_crypto fuel))
    g rc g1 m g3 z er en er1 en1 :
  root_requested rself wr -> node_requesting nself nid wn -> node_id (hw_s wr) = nid ->
  expander g -> Kem.crypto_kem_keypair fuel g (zeros PUBLIC_KEY_BYTES) (zeros SECRET_KEY_BYTES) = Some (rc, root_pk (hw_hs wr), root_sk (hw_hs wr), g1) ->
  vect_set_random_from_prng (proj1_sig (hw_prng wn : prng)) (zeros VEC_K_SIZE_64) = Some (m, g3) ->
  decryption_noise fuel (root_sk (hw_hs wr)) m = Some z -> (bad_blocks 0 z <= 15)%nat ->
  exists ct secret, encapsulate fuel m (root_pk (hw_hs wr)) = Some (ct, secret) /\
  exists pks er' wr1 en' wn1,
    hs_fsm_start (udp_send (mk_send_ctx (Some rconn) (Some rdest))) er wr = Some (true, er', wr1) /\
    queued rconn rdest pks (hw_tx wr) (hw_tx wr1) /\
    deliver (mk_send_ctx (Some nconn) (Some ndest)) nself pks en wn = Some (tt, en', wn1) /\
    (prompt en en' -> exists cts er2 wr2,
       queued nconn ndest cts (hw_tx wn) (hw_tx wn1) /\
       deliver (mk_send_ctx (Some rconn) (Some rdest)) rself cts er1 wr1 = Some (tt, er2, wr2) /\
       (prompt er1 er2 -> exists acks en2 wn2,
          queued rconn rdest acks (hw_tx wr1) (hw_tx wr2) /\
          deliver (mk_send_ctx (Some nconn) (Some ndest)) nself acks en1 wn1 = Some (tt, en2, wn2) /\
          (prompt en1 en2 ->
             session_is_established (hw_s wr2) = true /\ session_is_established (hw_s wn2) = true /\
             ss (hw_s wr2) = secret /\ ss (hw_s wn2) = secret /\
             aes_key (hw_s wr2) = aes_key_of secret /\ aes_key (hw_s wn2) = aes_key_of secret))).
Proof.
  intros Hr Hn Hid Hg Ek Em Ez Hbad.
  destruct (interface_roundtrip fuel (hw_prng wn) g _ _ rc g1 m g3 z Hg Ek Em Ez Hbad) as (ct & secret & g' & Henc & Hdec & Ee).
  exists ct, secret. split; [exact Ee|].
  exact (agreement_run nid rself rconn rdest wr nself nconn ndest wn ct secret g' er en er1 en1 Hr Hn Hid Henc Hdec).
Qed.

#[local] Existing Instance example_platform | 100.
#[local] Existing Instance example_platform_laws | 100.

(** Two devices whose generators were never seeded. *)
Definition hqc_root (pk sk : bytes) : @hs_world _ (hqc_crypto boot_fuel) :=
  @mk_hs_world _ (hqc_crypto boot_fuel) (example_waiting SESSION_ROLE_ROOT SESSION_STATE_IDLE 0) example_queue
    (hs_boot <| root_has_keypair := 1 |> <| root_pk := pk |> <| root_sk := sk |>) prng_boot.
Definition hqc_node : @hs_world _ (hqc_crypto boot_fuel) :=
  @mk_hs_world _ (hqc_crypto boot_fuel) (example_waiting SESSION_ROLE_NODE SESSION_STATE_WAIT_PK PQC_MSG_GETPK) example_queue hs_boot prng_boot.

Lemma hqc_root_requested pk sk : length pk = 2249%nat -> all_bytes pk -> length sk = 2289%nat -> all_bytes sk -> root_requested (Slot 0) (hqc_root pk sk).
Proof.
  intros Lp Bp Ls Bs. constructor; [|reflexivity|discriminate|discriminate|vm_compute; discriminate|].
  - split_and!; [apply example_waiting_wf; decided|exact example_queue_wf|].
    pose proof hs_boot_wf as []. constructor; try assumption; (split; [|assumption]).
    + change (Z.of_nat (length pk) = CW_HQC_PUBLIC_KEY_LEN). rewrite Lp. reflexivity.
    + change (Z.of_nat (length sk) = CW_HQC_SECRET_KEY_LEN). rewrite Ls. reflexivity.
  - split; [repeat constructor|exists 0; reflexivity].
Qed.
Lemma hqc_node_requesting : node_requesting Local 5 hqc_node.
Proof.
  constructor; [|reflexivity|reflexivity|reflexivity|reflexivity|vm_compute; discriminate|].
  - split_and!; [apply example_waiting_wf; decided|exact example_queue_wf|exact hs_boot_wf].
  - split; [repeat constructor|exists 0; reflexivity].
Qed.

Lemma hqc_handshake_agreement_witness : exists pk sk ct secret pks er' wr1 cts en' wn1 acks er2 wr2 en2 wn2,
    encapsulate boot_fuel boot_message pk = Some (ct, secret) /\
    hs_fsm_start (udp_send example_ctx) example_env (hqc_root pk sk) = Some (true, er', wr1) /\
    queued 0 example_peer pks (hw_tx (hqc_root pk sk)) (hw_tx wr1) /\
    deliver example_ctx Local pks example_env hqc_node = Some (tt, en', wn1) /\
    queued 0 example_peer cts (hw_tx hqc_node) (hw_tx wn1) /\
    deliver example_ctx (Slot 0) cts example_env wr1 = Some (tt, er2, wr2) /\
    queued 0 example_peer acks (hw_tx wr1) (hw_tx wr2) /\
    deliver example_ctx Local acks example_env wn1 = Some (tt, en2, wn2) /\
    session_is_established (hw_s wr2) = true /\ session_is_established (hw_s wn2) = true /\
    ss (hw_s wr2) = secret /\ ss (hw_s wn2) = secret /\
    aes_key (hw_s wr2) = aes_key_of secret /\ aes_key (hw_s wn2) = aes_key_of secret.
Proof.
  destruct boot_keypair as (pk & sk & g1 & z & Ek & _ & Ls & Bs & Lp & Bp & _ & Ez & Hz). pose proof boot_message_drawn as Em.
  destruct (vect_set_random_from_prng boot_prng (zeros VEC_K_SIZE_64)) as [[m g3]|] eqn:E; [injection Em as ->|discriminate Em]. exists pk, sk.
  destruct (hqc_handshake_agreement boot_fuel 5 (Slot 0) 0%nat example_peer (hqc_root pk sk) Local 0%nat example_peer hqc_node boot_prng 0 g1 boot_message g3 z
    example_env example_env example_env example_env (hqc_root_requested pk sk Lp Bp Ls Bs) hqc_node_requesting eq_refl boot_expander Ek E Ez Hz)
    as (ct & secret & Ee & pks & er' & wr1 & en' & wn1 & Hs & Hq1 & Hd1 & H1).
  destruct (H1 (example_prompt en')) as (cts & er2 & wr2 & Hq2 & Hd2 & H2). destruct (H2 (example_prompt er2)) as (acks & en2 & wn2 & Hq3 & Hd3 & H3).
  exists ct, secret, pks, er', wr1, cts, en', wn1, acks, er2, wr2, en2, wn2. do 8 (split; [assumption|]). exact (H3 (example_prompt en2)).
Defined.
