(* ===== verification/Device.v ===== *)
(** * A device: the state the processes of a firmware image share

    The session storage, the transmit queue, the handshake's static variables and
    the generator of HQC.  The operations of the lower layers work on one session;
    [with_session] runs them on the session behind a pointer, and the lemmas below
    say that the other sessions are not touched. *)

From S2P Require Import Prelude Platform Protocol Metrics CryptoWorker Session TxQueue Telemetry Handshake HandshakeFacts HandshakeRules HandshakeStep HandshakeProps.

Section Device.
Context `{Platform} `{Crypto}.

Record device := mk_device {
  dv_store : store;
  dv_tx : tx_state;
  dv_hs : hs_state;
  dv_prng : prng_state;
}.
#[export] Instance eta_device : Eta device := fun r =>
  mk_device (dv_store r) (dv_tx r) (dv_hs r) (dv_prng r).

(** Static variables at boot. *)
Definition device_boot (g : prng_state) : device := mk_device store_zero tx_boot hs_boot g.

(** Assignment through a pointer. *)
Definition set_session (st : store) (r : sref) (s : session_t) : store :=
  match r with
  | Local => st <| local_session := s |>
  | Slot i => st <| sessions ::= (fun l => <[i := s]> l) |>
  end.

Definition world_of (d : device) (s : session_t) : hs_world := mk_hs_world s (dv_tx d) (dv_hs d) (dv_prng d).
Definition put_world (d : device) (r : sref) (w : hs_world) : device :=
  mk_device (set_session (dv_store d) r (hw_s w)) (hw_tx w) (hw_hs w) (hw_prng w).

(** Run an operation on the session behind a pointer and the shared state. *)
Definition with_session {A} (r : sref) (m : M hs_world A) : M device A := fun e d =>
  match deref (dv_store d) r with
  | None => None
  | Some s => match m e (world_of d s) with
              | Some (a, e', w) => Some (a, e', put_world d r w)
              | None => None
              end
  end.

(** The parts of a world the telemetry functions work on. *)
Definition on_sq {A} : M (session_t * tx_state) A -> M hs_world A :=
  zoom (fun w => (hw_s w, hw_tx w)) (fun p w => w <| hw_s := fst p |> <| hw_tx := snd p |>).
Definition dv_on_store {A} : M store A -> M device A := zoom dv_store (fun st d => d <| dv_store := st |>).
Definition dv_on_tx {A} : M tx_state A -> M device A := zoom dv_tx (fun q d => d <| dv_tx := q |>).

(** The session behind a pointer, and an operation on it alone. *)
Definition session_of (r : sref) : M device session_t := d ← get; lift (deref (dv_store d) r).
Definition on_session_at {A} (r : sref) (m : M session_t A) : M device A := with_session r (on_s m).

Lemma wp_with_session {A} r (m : M hs_world A) Q e d s :
  deref (dv_store d) r = Some s ->
  wp m (fun a e' w => Q a e' (put_world d r w)) e (world_of d s) -> wp (with_session r m) Q e d.
Proof. unfold wp, with_session. intros ->. destruct (m e (world_of d s)) as [[[a e'] w]|]; auto. Qed.

Lemma wp_session_of r Q e d s : deref (dv_store d) r = Some s -> Q s e d -> wp (session_of r) Q e d.
Proof. intros Hs HQ. unfold session_of. apply wp_bind, wp_get, wp_lift. eauto. Qed.

Lemma wp_on_session_at {A} r (m : M session_t A) Q e d s :
  deref (dv_store d) r = Some s ->
  wp m (fun a e' s' => Q a e' (d <| dv_store := set_session (dv_store d) r s' |>)) e s ->
  wp (on_session_at r m) Q e d.
Proof. intros Hs Hm. apply (wp_with_session r _ Q e d s Hs), wp_on_s. exact Hm. Qed.

Lemma wp_on_sq {A} (m : M (session_t * tx_state) A) Q e s q h g :
  wp m (fun a e' p => Q a e' (mk_hs_world (fst p) (snd p) h g)) e (s, q) -> wp (on_sq m) Q e (mk_hs_world s q h g).
Proof. intros Hm. apply wp_zoom. exact Hm. Qed.

(** ** Storage *)

Lemma deref_set st r s s' : deref st r = Some s -> deref (set_session st r s') r = Some s'.
Proof.
  destruct r as [|i]; cbn; intros Hs; [reflexivity|]. apply list_lookup_insert_eq, (lookup_lt_Some _ _ _ Hs).
Qed.

Lemma deref_set_ne st r r' s' : r' <> r -> deref (set_session st r s') r' = deref st r'.
Proof.
  destruct r as [|i], r' as [|j]; cbn; intros Hne; try reflexivity; try contradiction (Hne eq_refl).
  apply list_lookup_insert_ne. congruence.
Qed.

Lemma set_session_role st r s' : manager_role (set_session st r s') = manager_role st.
Proof. destruct r; reflexivity. Qed.

Lemma set_session_set st r s1 s2 : set_session (set_session st r s1) r s2 = set_session st r s2.
Proof. destruct r, st; unfold set_session; cbn; [reflexivity|]. unfold update. cbn. rewrite list_insert_insert_eq. reflexivity. Qed.

Lemma put_put_world d r w1 w2 : put_world (put_world d r w1) r w2 = put_world d r w2.
Proof. unfold put_world. cbn. rewrite set_session_set. reflexivity. Qed.

End Device.

(** ** Well-formed devices *)

Section DeviceFacts.
Context `{PlatformLaws} `{CryptoLaws}.

Definition device_wf (d : device) : Prop := store_wf (dv_store d) /\ tx_wf (dv_tx d) /\ hs_wf (dv_hs d).

Lemma deref_wf st r s : store_wf st -> deref st r = Some s -> session_wf s.
Proof.
  intros Hwf Hs. destruct r as [|i]; cbn in Hs.
  - injection Hs as <-. apply Hwf.
  - exact (proj1 (list.Forall_lookup _ _) (tw_sessions _ Hwf) i s Hs).
Qed.

Lemma set_session_wf st r s s' :
  store_wf st -> deref st r = Some s -> session_wf s' -> used s' = used s ->
  (r = Local \/ node_id s' = node_id s) -> store_wf (set_session st r s').
Proof.
  intros Hwf Hs Hs' Hu Hid. destruct r as [|i]; cbn in *.
  - destruct Hwf. constructor; assumption.
  - destruct Hid as [[=]|Hid]. exact (store_wf_update st i s s' Hwf Hs Hs' Hu Hid).
Qed.

(** What an operation on the session behind [r] does to the device: the other
    sessions are as they were. *)
Record session_changed (r : sref) (d : device) (s : session_t) (d' : device) (s' : session_t) : Prop := {
  sc_wf : device_wf d';
  sc_session : deref (dv_store d') r = Some s';
  sc_owner : same_owner s s';
  sc_others : forall r', r' <> r -> deref (dv_store d') r' = deref (dv_store d) r';
  sc_role : manager_role (dv_store d') = manager_role (dv_store d);
}.

Lemma session_changed_refl r d s : device_wf d -> deref (dv_store d) r = Some s -> session_changed r d s d s.
Proof. intros Hd Hs. constructor; auto using same_owner_refl. Qed.

Lemma session_changed_trans r d1 s1 d2 s2 d3 s3 :
  session_changed r d1 s1 d2 s2 -> session_changed r d2 s2 d3 s3 -> session_changed r d1 s1 d3 s3.
Proof.
  intros [_ _ O1 F1 R1] [W2 S2 O2 F2 R2]. constructor; [exact W2|exact S2|exact (same_owner_trans _ _ _ O1 O2)| |congruence].
  intros r' Hr. rewrite F2, F1 by exact Hr. reflexivity.
Qed.

Lemma session_changed_put r d s w :
  device_wf d -> deref (dv_store d) r = Some s -> world_wf w -> same_owner s (hw_s w) ->
  (r = Local \/ unnamed s = false) -> session_changed r d s (put_world d r w) (hw_s w).
Proof.
  intros (Hst & Hq & Hh) Hs (Hs' & Hq' & Hh') Ho Hr. constructor; cbn [dv_store put_world].
  - split_and!; [|exact Hq'|exact Hh']. destruct Ho as (Hu & _ & Hn).
    eapply set_session_wf; [exact Hst|exact Hs|exact Hs'|exact Hu|]. destruct Hr as [->|Hr]; [left; reflexivity|right; exact (Hn Hr)].
  - exact (deref_set _ _ _ _ Hs).
  - exact Ho.
  - intros r' Hne. exact (deref_set_ne _ _ _ _ Hne).
  - apply set_session_role.
Qed.

(** A handshake call on the session behind [r]. *)
Lemma wp_device_call Q ctx r c e d s :
  device_wf d -> deref (dv_store d) r = Some s -> call_ok c -> (r = Local \/ unnamed s = false) ->
  (forall b e' d' s', session_changed r d s d' s' -> hs_step (call_event c) (view s) (view s') ->
     keypair_kept (dv_hs d) (dv_hs d') -> Q b e' d') ->
  wp (with_session r (hs_exec ctx r c)) Q e d.
Proof.
  intros Hd Hs Hc Hr HQ. apply (wp_with_session r _ Q e d s Hs).
  assert (Hw : world_wf (world_of d s)).
  { destruct Hd as (Hst & Hq & Hh). split_and!; [exact (deref_wf _ _ _ Hst Hs)|exact Hq|exact Hh]. }
  eapply wp_mono; [|exact (wp_hs_exec ctx r c e _ Hw Hc)]. intros b e' w (Hw' & Hk & Ho & Hst).
  exact (HQ b e' _ _ (session_changed_put r d s w Hd Hs Hw' Ho Hr) Hst Hk).
Qed.

(** An operation on the session behind [r] alone. *)
Lemma wp_device_session {A} Q r (m : M session_t A) e d s :
  device_wf d -> deref (dv_store d) r = Some s -> (r = Local \/ unnamed s = false) ->
  wp m (fun a e' s' => session_wf s' /\ same_owner s s' /\
    forall d', session_changed r d s d' s' -> (dv_tx d', dv_hs d', dv_prng d') = (dv_tx d, dv_hs d, dv_prng d) -> Q a e' d') e s ->
  wp (on_session_at r m) Q e d.
Proof.
  intros Hd Hs Hr Hm. apply (wp_with_session r _ Q e d s Hs), wp_on_s. eapply wp_mono; [|exact Hm].
  intros a e' s' (Hw & Ho & HQ). destruct Hd as (Hst & Hq & Hh).
  apply HQ; [|reflexivity]. refine (session_changed_put r d s (mk_hs_world s' (dv_tx d) (dv_hs d) (dv_prng d)) _ Hs _ Ho Hr); split_and!; assumption.
Qed.

End DeviceFacts.
