(* ===== verification/NodeApp.v ===== *)
(** * The node: [src/node_main.c]

    The four processes and the receive callback of a node, as handlers of the
    events that wake them; the routing protocol and the sensor answer through the
    events.  The theorems: a node follows the handshake's protocol machine from
    boot over any sequence of events, it is never left waiting for nothing, and its
    metrics leave completely or are tried again. *)

From S2P Require Import Prelude Platform Protocol Temperature Fragmentation Metrics CryptoWorker Session TxQueue Telemetry Handshake HandshakeFacts HandshakeRules HandshakeStep HandshakeProps Device.

Section NodeApp.
Context `{Platform} `{Crypto}.

(** The file's static variables.  [send_ctx] holds the addresses of [udp_conn] and
    [dest_address] once it is set; [na_measuring] is whether the measurement
    process got past the initialisation of its sensor. *)
(* src/node_main.c:18-28 session *)
Record node_app := mk_node_app {
  na_dev : device;
  na_dest_address : uip_ipaddr_t;
  na_session : option sref;
  na_node_id : Z;
  na_send_ctx : bool;
  na_getpk_in_flight : Z;
  na_metrics_pending : Z;
  na_has_last_next_hop : Z;
  na_last_next_hop : uip_ipaddr_t;
  na_measuring : bool;
}.
#[export] Instance eta_node_app : Eta node_app := fun r =>
  mk_node_app (na_dev r) (na_dest_address r) (na_session r) (na_node_id r) (na_send_ctx r)
    (na_getpk_in_flight r) (na_metrics_pending r) (na_has_last_next_hop r) (na_last_next_hop r)
    (na_measuring r).

Definition node_zero (g : prng_state) : node_app :=
  mk_node_app (device_boot g) uip_ipaddr_zero None 0 false 0 0 0 uip_ipaddr_zero false.

(** The one connection of the program. *)
Definition udp_conn : nat := 0.

(** [&send_ctx], and [&udp_conn] with [&dest_address]. *)
Definition node_send_ctx (a : node_app) : pqc_udp_send_ctx_t :=
  if na_send_ctx a then mk_send_ctx (Some udp_conn) (Some (na_dest_address a)) else mk_send_ctx None None.
Definition node_dest (a : node_app) : pqc_udp_send_ctx_t := mk_send_ctx (Some udp_conn) (Some (na_dest_address a)).

(** What the routing protocol says when it is asked: [node_is_reachable],
    [get_root_ipaddr] (with the address it stores), [node_has_joined],
    [uip_ds6_defrt_choose]. *)
Record routing := mk_routing {
  rt_reachable : bool;
  rt_root : option uip_ipaddr_t;
  rt_joined : bool;
  rt_next_hop : option uip_ipaddr_t;
}.

Definition on_dev {A} : M device A -> M node_app A := zoom na_dev (fun d a => a <| na_dev := d |>).
Definition line (text : string) : M node_app unit := emit (Serial text).

(** The session behind the static pointer, which must not be [NULL]. *)
Definition the_session : M node_app sref := a ← get; lift (na_session a).

(** [node_is_reachable() && get_root_ipaddr(&dest_address)]. *)
Definition ask_root (rt : routing) : M node_app bool :=
  if rt_reachable rt then
    match rt_root rt with
    | Some addr => modify (fun a => a <| na_dest_address := addr |>);; mret true
    | None => mret false
    end
  else mret false.

(* src/node_main.c:199-220 log_next_hop_if_changed *)
Definition log_next_hop_if_changed (next_hop : option uip_ipaddr_t) : M node_app unit :=
  a ← get;
  match next_hop with
  | None =>
      if negb (na_has_last_next_hop a =? 0)
      then line ("[TOPOLOGY] node=" ++ pretty (na_node_id a) ++ " next_hop=none");;
           modify (fun a => a <| na_has_last_next_hop := 0 |>)
      else mret tt
  | Some hop =>
      if (na_has_last_next_hop a =? 0) || negb (uip_ipaddr_cmp (na_last_next_hop a) hop)
      then line ("[TOPOLOGY] node=" ++ pretty (na_node_id a) ++ " next_hop=" ++ uiplib_ipaddr_print hop);;
           modify (fun a => a <| na_last_next_hop := hop |> <| na_has_last_next_hop := 1 |>)
      else mret tt
  end.

(* src/node_main.c:222-225 clear_getpk_wait *)
Definition clear_getpk_wait : M node_app unit := modify (fun a => a <| na_getpk_in_flight := 0 |>).

(* src/node_main.c:227-234 should_request_pk *)
Definition should_request_pk : M node_app bool :=
  a ← get;
  match na_session a with
  | None => mret false
  | Some r =>
      s ← on_dev (session_of r);
      mret (bool_decide (state s = SESSION_STATE_IDLE) && (pending_msg_type s =? 0) &&
            (na_getpk_in_flight a =? 0) && negb (session_is_established s))
  end.

(** [session_is_established(session)], false of a [NULL] session. *)
Definition node_established : M node_app bool :=
  a ← get;
  match na_session a with
  | None => mret false
  | Some r => s ← on_dev (session_of r); mret (session_is_established s)
  end.

(** One iteration: [Some false] when the function returns. *)
(* src/node_main.c:240-250 send_node_metrics *)
Definition send_group (group : Z) : M node_app (option bool) :=
  a ← get;
  if pqc_tx_free_slots (dv_tx (na_dev a)) =? 0
  then modify (fun a => a <| na_metrics_pending := 1 |>);; mret (Some false)
  else
    sent ← match na_session a with
           | None => mret false
           | Some r => on_dev (with_session r (on_sq (pqc_send_metrics_report (node_dest a) group)))
           end;
    if negb sent
    then modify (fun a => a <| na_metrics_pending := 1 |>);; mret (Some false)
    else mret None.

(* src/node_main.c:236-254 send_node_metrics *)
Definition send_node_metrics : M node_app bool :=
  r ← for_each (seqZ PQC_METRICS_GROUP_HS PQC_METRICS_GROUP_COUNT) send_group;
  match r with
  | Some b => mret b
  | None => modify (fun a => a <| na_metrics_pending := 0 |>);; mret true
  end.

(** The reports are sent when the session has become established, and again as long
    as some are left. *)
(* src/node_main.c:275-280 udp_rx_callback *)
Definition attempt_metrics (was_established : bool) : M node_app unit :=
  established ← node_established;
  a ← get;
  if negb was_established && established
  then modify (fun a => a <| na_metrics_pending := 1 |>);; _ ← send_node_metrics; mret tt
  else if negb (na_metrics_pending a =? 0) && established
  then _ ← send_node_metrics; mret tt
  else mret tt.

(** [data] is not [NULL]; the stack's other arguments are not used.  Nothing is done
    with a [NULL] session: [hs_fsm_handle_fragment] returns 0 at once. *)
(* src/node_main.c:256-282 udp_rx_callback *)
Definition node_rx_callback (data : bytes) (datalen : Z) : M node_app unit :=
  valid ← lift (pqc_header_valid (Some data) datalen);
  if negb valid then mret tt else
  was_established ← node_established;
  a ← get;
  match na_session a with
  | None => mret tt
  | Some r =>
      _ ← on_dev (with_session r (hs_fsm_handle_fragment (udp_send (node_send_ctx a)) r data datalen));
      s ← on_dev (session_of r);
      if negb (pending_msg_type s =? PQC_MSG_GETPK) then clear_getpk_wait else mret tt
  end;;
  attempt_metrics was_established.

(** ** The processes *)

(** From the start of the process to its first wait; [linkaddr] is the address of
    the radio.  The reset cause it prints and the registration of the callback with
    the stack are left out. *)
(* src/node_main.c:59-83 PQC_process *)
Definition node_boot (linkaddr : bytes) : M node_app unit :=
  line "Starting PQC Process...";;
  on_dev (dv_on_tx pqc_tx_init);;
  line ("[PQC] Node UDP listening on port " ++ pretty UDP_CLIENT_PORT);;
  id ← lift (pqc_node_id_from_linkaddr linkaddr);
  modify (fun a => a <| na_node_id := id |>);;
  on_dev (dv_on_store (session_manager_init SESSION_ROLE_NODE));;
  modify (fun a => a <| na_session := session_manager_get_local (dv_store (na_dev a)) |>);;
  r ← the_session;
  on_dev (on_session_at r (modify (fun s => s <| node_id := id |>)));;
  modify (fun a => a <| na_getpk_in_flight := 0 |> <| na_metrics_pending := 0 |> <| na_has_last_next_hop := 0 |>);;
  modify (fun a => a <| na_send_ctx := true |>).

(** A node without a session and without a request in flight asks for the key. *)
(* src/node_main.c:91-103 PQC_process *)
Definition request_pk : M node_app unit :=
  a ← get;
  line ("Node is reachable, root address: " ++ uiplib_ipaddr_print (na_dest_address a));;
  line "Session idle, sending GETPK";;
  queued ← on_dev (dv_on_tx (pqc_send_GETPK (node_dest a) (na_node_id a)));
  if (queued : bool) then
    r ← the_session;
    on_dev (on_session_at r (on_metrics pqc_metrics_handshake_start;; hs_stat (fun m => m <| getpk_tx ::= inc32 |>)));;
    modify (fun a => a <| na_getpk_in_flight := 1 |>);;
    on_dev (on_session_at r (session_set_wait_pk;; session_set_pending PQC_MSG_GETPK 0))
  else line "[PQC] GETPK enqueue failed, will retry later".

(* src/node_main.c:86-108 PQC_process *)
Definition node_routing_timer (rt : routing) : M node_app unit :=
  log_next_hop_if_changed (rt_next_hop rt);;
  known ← ask_root rt;
  if known && rt_joined rt then
    request ← should_request_pk;
    if (request : bool) then request_pk else mret tt
  else line "Node not Reachable yet...".

(* src/node_main.c:114-127 PQC_send_process *)
Definition node_send_timer : M node_app unit :=
  _ ← on_dev (dv_on_tx pqc_tx_process); mret tt.

(* src/node_main.c:129-157 PQC_retry_process *)
Definition node_retry_timer (rt : routing) : M node_app unit :=
  a ← get;
  match na_session a with
  | None => mret tt
  | Some r =>
      established ← node_established;
      if (established : bool) then mret tt else
      known ← ask_root rt;
      if negb known then mret tt else
      modify (fun a => a <| na_send_ctx := true |>);;
      a ← get;
      _ ← on_dev (with_session r (hs_fsm_retry (udp_send (node_send_ctx a)) r));
      s ← on_dev (session_of r);
      if session_is_failed s then
        line "Handshake failed, resetting session";;
        on_dev (on_session_at r session_reset);;
        on_dev (on_session_at r (modify (fun s => s <| node_id := na_node_id a |>)));;
        modify (fun a => a <| na_getpk_in_flight := 0 |>)
      else mret tt
  end.

(** The start of the process: [initialised] is whether [SI7021_init] returned 0. *)
(* src/node_main.c:159-176 Temp_measurement_process *)
Definition node_measurement_start (initialised : bool) : M node_app unit :=
  if negb initialised then line "Si7021 Fail" else
  line "Temp measurement initialized";;
  modify (fun a => a <| na_measuring := true |>).

(** [hume] and [temper] are what the sensor stores; the counter of the local record
    is not initialised, and replaced before it is sent. *)
(* src/node_main.c:178-190 Temp_measurement_process *)
Definition node_measurement_timer (hume temper : Z) : M node_app unit :=
  a ← get;
  if negb (na_measuring a) then mret tt else
  established ← node_established;
  if negb established then mret tt else
  measurement ← lift (temp_measurement_read (Some (mk_temp_payload 0 0 0)) hume temper);
  print_measurement (tp_rh_milli measurement) (tp_temp_milli measurement);;
  r ← the_session;
  _ ← on_dev (with_session r (on_sq (pqc_send_encrypted_temp (node_dest a) measurement)));
  mret tt.

(** ** Runs *)

(** What wakes the node after boot: one of its four timers, or a datagram. *)
Inductive node_input :=
| RoutingTimer (rt : routing)
| SendTimer
| RetryTimer (rt : routing)
| MeasurementTimer (hume temper : Z)
| Datagram (data : bytes) (datalen : Z).

Definition node_handle (i : node_input) : M node_app unit :=
  match i with
  | RoutingTimer rt => node_routing_timer rt
  | SendTimer => node_send_timer
  | RetryTimer rt => node_retry_timer rt
  | MeasurementTimer hume temper => node_measurement_timer hume temper
  | Datagram data datalen => node_rx_callback data datalen
  end.

Fixpoint node_handle_all (inputs : list node_input) : M node_app unit :=
  match inputs with
  | [] => mret tt
  | i :: inputs => node_handle i;; node_handle_all inputs
  end.

(* src/node_main.c:38-38 AUTOSTART_PROCESSES *)
Definition node_main (linkaddr : bytes) (sensor : bool) (inputs : list node_input) : M node_app unit :=
  node_boot linkaddr;;
  node_measurement_start sensor;;
  node_handle_all inputs.

End NodeApp.

(** ** The invariant of a node *)

Section NodeFacts.
Context `{PlatformLaws} `{CryptoLaws}.

Lemma wp_on_dev {A} (m : M device A) Q e a :
  wp m (fun x e' d' => Q x e' (a <| na_dev := d' |>)) e (na_dev a) -> wp (on_dev m) Q e a.
Proof. intros Hm. apply wp_zoom. exact Hm. Qed.

Definition node_session (a : node_app) : session_t := local_session (dv_store (na_dev a)).
Definition node_view (a : node_app) : hs_view := view (node_session a).

Lemma wp_read_session Q e a : Q (node_session a) e a -> wp (on_dev (session_of Local)) Q e a.
Proof. intros HQ. apply wp_on_dev. eapply wp_session_of; [reflexivity|]. destruct a. exact HQ. Qed.

(** The node with another session. *)
Definition with_my_session (a : node_app) (s : session_t) : node_app :=
  a <| na_dev ::= (fun d => d <| dv_store ::= (fun st => st <| local_session := s |>) |>) |>.

Lemma wp_on_my_session Q (m : M session_t unit) e a :
  wp m (fun x e' s' => Q x e' (with_my_session a s')) e (node_session a) ->
  wp (on_dev (on_session_at Local m)) Q e a.
Proof. intros Hm. apply wp_on_dev. eapply wp_on_session_at; [reflexivity|]. exact Hm. Qed.

Lemma with_my_session_wf a s : device_wf (na_dev a) -> session_wf s -> device_wf (na_dev (with_my_session a s)).
Proof. intros ([] & Hq & Hh) Hs. split_and!; [constructor; assumption|exact Hq|exact Hh]. Qed.

(** A session of a node that is not idle, established or failed waits for the answer
    to the message its state says. *)
Definition node_waits (v : hs_view) : Prop :=
  v_role v = SESSION_ROLE_NODE /\
  match v_state v with
  | SESSION_STATE_IDLE | SESSION_STATE_FAILED => v_pending v = 0
  | SESSION_STATE_WAIT_PK => v_pending v = PQC_MSG_GETPK /\ v_waiting v = 1
  | SESSION_STATE_WAIT_ACK => v_pending v = HS_MSG_CT /\ v_waiting v = 1
  | SESSION_STATE_ESTABLISHED => True
  | _ => False
  end.

(** The events of a node. *)
Definition node_event (ev : hs_event) : Prop := ev <> EvStart /\ ev <> EvAccept.

Lemma node_waits_step ev v v' : hs_step ev v v' -> node_event ev -> node_waits v -> node_waits v'.
Proof.
  intros Hs [Hns Hna] [Hr Hw]. unfold node_waits.
  destruct Hs; cbn in *; try congruence; split; auto; destruct (v_state v); intuition discriminate.
Qed.

Lemma node_waits_steps evs v v' : hs_steps evs v v' -> Forall node_event evs -> node_waits v -> node_waits v'.
Proof.
  induction 1 as [v|ev evs v1 v2 v3 Hone _ IH]; intros Hev Hw; [exact Hw|].
  apply list.Forall_cons in Hev as [Hev Hevs]. apply IH; [exact Hevs|]. exact (node_waits_step _ _ _ Hone Hev Hw).
Qed.

Record node_inv (a : node_app) : Prop := {
  ni_dev : device_wf (na_dev a);
  ni_session : na_session a = Some Local;
  ni_ctx : na_send_ctx a = true;
  ni_used : used (node_session a) = 1;
  ni_u16 : is_u16 (na_node_id a);
  ni_id : na_node_id a <> SESSION_INVALID_NODE_ID -> node_id (node_session a) = na_node_id a;
  ni_view : view_inv (node_view a);
  ni_waits : node_waits (node_view a);
  ni_flight : na_getpk_in_flight a <> 0 -> state (node_session a) = SESSION_STATE_WAIT_PK;
}.

Lemma node_inv_steps evs a a' :
  node_inv a -> device_wf (na_dev a') ->
  (na_session a', na_send_ctx a', na_node_id a') = (na_session a, na_send_ctx a, na_node_id a) ->
  used (node_session a') = 1 ->
  (na_node_id a <> SESSION_INVALID_NODE_ID -> node_id (node_session a') = na_node_id a) ->
  hs_steps evs (node_view a) (node_view a') -> Forall node_event evs ->
  (na_getpk_in_flight a' <> 0 -> state (node_session a') = SESSION_STATE_WAIT_PK) -> node_inv a'.
Proof.
  intros [] Hd [= Es Ec Ei] Hu Hid Hst Hev Hf. constructor; rewrite ?Es, ?Ec, ?Ei; auto.
  - exact (steps_inv _ _ _ Hst ni_view0).
  - exact (node_waits_steps _ _ _ Hst Hev ni_waits0).
Qed.

(** Fields the invariant does not mention. *)
Definition node_same (a a' : node_app) : Prop :=
  (na_dev a', na_session a', na_send_ctx a', na_node_id a', na_getpk_in_flight a') =
  (na_dev a, na_session a, na_send_ctx a, na_node_id a, na_getpk_in_flight a).

Lemma node_inv_same a a' : node_same a a' -> node_inv a -> node_inv a' /\ node_view a' = node_view a.
Proof.
  intros [= Ed Es Ec Ei Ef] []. unfold node_view, node_session in *. split; [constructor|];
    unfold node_view, node_session; rewrite ?Ed, ?Es, ?Ec, ?Ei, ?Ef; auto.
Qed.

(** A handshake call, followed by the changes to [getpk_in_flight] the callers make. *)
Lemma node_owner a s' :
  node_inv a -> same_owner (node_session a) s' ->
  used s' = 1 /\ (na_node_id a <> SESSION_INVALID_NODE_ID -> node_id s' = na_node_id a).
Proof.
  intros Ha (Hu & _ & Hn). split; [rewrite Hu; apply Ha|]. intros Hi. pose proof (ni_id _ Ha Hi) as Hid.
  rewrite Hn; [exact Hid|]. unfold unnamed. rewrite Hid, (proj2 (Z.eqb_neq _ _)) by exact Hi. apply andb_false_r.
Qed.

(** ** The handlers *)

Lemma wp_node_established Q e a :
  node_inv a -> Q (session_is_established (node_session a)) e a -> wp node_established Q e a.
Proof.
  intros Ha HQ. unfold node_established. apply wp_bind, wp_get. rewrite (ni_session _ Ha).
  apply wp_bind, wp_read_session, wp_ret, HQ.
Qed.

Lemma wp_log_next_hop Q hop e a :
  (forall e' a', node_same a a' -> na_dest_address a' = na_dest_address a -> na_metrics_pending a' = na_metrics_pending a -> Q tt e' a') ->
  wp (log_next_hop_if_changed hop) Q e a.
Proof. intros HQ. unfold log_next_hop_if_changed, line. wp_steps; apply HQ; reflexivity. Qed.

(** The address the routing protocol gives of the root, if it is asked for it. *)
Definition known_root (rt : routing) : option uip_ipaddr_t := if rt_reachable rt then rt_root rt else None.

Lemma wp_ask_root Q rt e a :
  match known_root rt with
  | Some addr => Q true e (a <| na_dest_address := addr |>)
  | None => Q false e a
  end -> wp (ask_root rt) Q e a.
Proof. unfold ask_root, known_root. destruct (rt_reachable rt); [destruct (rt_root rt)|]; intros HQ; exact HQ. Qed.

Lemma wp_should_request Q e a :
  node_inv a ->
  Q (bool_decide (state (node_session a) = SESSION_STATE_IDLE)) e a -> wp should_request_pk Q e a.
Proof.
  intros Ha HQ. unfold should_request_pk. apply wp_bind, wp_get. rewrite (ni_session _ Ha).
  apply wp_bind, wp_read_session, wp_ret. destruct (ni_waits _ Ha) as [_ Hw]. cbn in Hw. unfold session_is_established.
  destruct (decide (state (node_session a) = SESSION_STATE_IDLE)) as [E|E].
  - rewrite E in *. rewrite Hw. destruct (Z.eqb_spec (na_getpk_in_flight a) 0) as [_|Hf]; [exact HQ|].
    pose proof (ni_flight _ Ha Hf). congruence.
  - rewrite bool_decide_false in * by exact E. exact HQ.
Qed.

(** The datagram of a request for the public key. *)
Definition getpk_packet (nid : Z) : bytes := header_bytes PQC_MSG_GETPK nid 0 0 1 0 PQC_FLAG_NONE.

Lemma wp_send_getpk Q conn dest nid e q :
  tx_wf q -> is_u16 nid ->
  (forall r q', tx_wf q' -> r = negb (tx_count q =? PQC_TX_QUEUE_SIZE) ->
     (if r then tx_added q q' (tx_new_entry conn dest (getpk_packet nid) PQC_HEADER_LEN) else q' = q) -> Q r e q') ->
  wp (pqc_send_GETPK (mk_send_ctx (Some conn) (Some dest)) nid) Q e q.
Proof.
  intros Hq Hn HQ. pose proof (pending_bound q Hq). unfold pqc_send_GETPK. cbn [ctx_null ctx_udp_conn ctx_dest].
  apply wp_bind, wp_lift. exists (getpk_packet nid). split; [reflexivity|].
  assert (Hl : Z.of_nat (length (getpk_packet nid)) = 10) by reflexivity.
  apply wp_send_fragment; [exact Hq|rewrite Hl; clia|]. intros r q' Hs. destruct r.
  - destruct Hs as [(_ & _ & Hc & _) (conn' & dest' & [= <- <-] & Hadd)]. apply HQ; [apply Hadd| |exact Hadd].
    rewrite (proj2 (Z.eqb_neq _ _)) by lia. reflexivity.
  - destruct Hs as [Hno ->]. apply HQ; [exact Hq| |reflexivity].
    destruct (Z.eqb_spec (tx_count q) PQC_TX_QUEUE_SIZE) as [|Hne]; [reflexivity|].
    contradiction Hno. repeat split; cbn; eauto; clia.
Qed.

(** What a request does: a datagram to the root is queued and the node waits for the
    key, unless the queue is full. *)
Definition requested (a a' : node_app) : Prop :=
  if tx_count (dv_tx (na_dev a)) =? PQC_TX_QUEUE_SIZE
  then dv_tx (na_dev a') = dv_tx (na_dev a) /\ node_view a' = node_view a
  else tx_added (dv_tx (na_dev a)) (dv_tx (na_dev a'))
         (tx_new_entry udp_conn (na_dest_address a) (getpk_packet (na_node_id a)) PQC_HEADER_LEN) /\
       state (node_session a') = SESSION_STATE_WAIT_PK.

Lemma wp_request_pk Q e a :
  node_inv a -> state (node_session a) = SESSION_STATE_IDLE ->
  (forall e' a', node_inv a' -> hs_steps [EvRequest] (node_view a) (node_view a') -> requested a a' -> Q tt e' a') ->
  wp request_pk Q e a.
Proof.
  intros Ha Hidle HQ. pose proof (ni_dev _ Ha) as (Hst & Hq & Hh). unfold request_pk, line.
  apply wp_bind, wp_get, wp_bind, wp_emit, wp_bind, wp_emit, wp_bind, wp_on_dev, wp_zoom.
  apply wp_send_getpk; [exact Hq|apply Ha|]. intros queued q' Hq' Hr Hadd.
  set (a1 := a <| na_dev := (na_dev a) <| dv_tx := q' |> |>).
  assert (Hd1 : device_wf (na_dev a1)) by (split_and!; assumption). unfold requested in HQ.
  destruct (tx_count (dv_tx (na_dev a)) =? PQC_TX_QUEUE_SIZE); subst queued; cbn [negb] in Hadd |- *.
  { subst q'. apply wp_emit, HQ; [|exact (steps_stay _ (node_view a))|].
       - eapply (node_inv_steps []); [exact Ha|exact Hd1|reflexivity|apply Ha|apply Ha|exact (steps_stay _ (node_view a))|constructor|apply Ha].
       - split; reflexivity. }
  apply wp_bind. unfold the_session. apply wp_bind, wp_get, wp_lift. exists Local. split; [apply Ha|].
  assert (Hs : session_wf (node_session a1)) by apply Hst.
  apply wp_bind, wp_on_my_session, wp_bind, wp_metrics_quiet; [exact Hs|apply handshake_start_snapshot|].
  intros e2 s2 [C2 _]. apply wp_hs_stat; [apply C2|intros; stat_words|]. intros s3 [C3 _].
  apply wp_bind, wp_modify, wp_on_my_session. unfold session_set_wait_pk. apply wp_bind, wp_modify.
  pose proof (chatter_state SESSION_STATE_WAIT_PK _ _ (chatter_trans _ _ _ C2 C3)) as C.
  apply wp_set_pending; [apply C|clia|clia|]. intros e4 s4 [C4 _].
  apply (chatter_pending PQC_MSG_GETPK 0) in C; [|clia|clia]. pose proof (chatter_trans _ _ _ C C4) as C5.
  destruct (chatter_fields _ _ C5) as [[= Fu Fn _ Fs _ _ _] _].
  assert (Ev : view s4 = v_waits ((node_view a) <| v_state := SESSION_STATE_WAIT_PK |>) PQC_MSG_GETPK)
    by (rewrite (view_chatter _ _ C5); reflexivity).
  set (a4 := with_my_session _ s4). assert (Hst4 : hs_steps [EvRequest] (node_view a) (node_view a4)).
  { eapply steps_cons; [|constructor]. change (node_view a4) with (view s4). rewrite Ev.
    apply step_request; [apply Ha|exact Hidle]. }
  apply HQ; [|exact Hst4|].
  - eapply (node_inv_steps [EvRequest]); [exact Ha| |reflexivity| | |exact Hst4|repeat constructor; discriminate|].
    + apply with_my_session_wf; [apply with_my_session_wf; [exact Hd1|apply C3]|exact (chatter_wf _ _ C5)].
    + change (node_session a4) with s4. rewrite Fu. apply Ha.
    + change (node_session a4) with s4. rewrite Fn. apply Ha.
    + intros _. exact Fs.
  - split; [exact Hadd|exact Fs].
Qed.

(** A handshake call on the node's session. *)
Lemma wp_node_call Q ctx c e a :
  node_inv a -> call_ok c ->
  (forall b e' d' (a' := a <| na_dev := d' |>), device_wf d' -> used (node_session a') = 1 ->
     (na_node_id a <> SESSION_INVALID_NODE_ID -> node_id (node_session a') = na_node_id a) ->
     hs_step (call_event c) (node_view a) (node_view a') -> Q b e' a') ->
  wp (on_dev (with_session Local (hs_exec ctx Local c))) Q e a.
Proof.
  intros Ha Hc HQ. apply wp_on_dev. eapply wp_device_call; [apply Ha|reflexivity|exact Hc|left; reflexivity|].
  intros b e' d' s' [Hd [= <-] Ho _ _] Hst _. destruct (node_owner a _ Ha Ho) as [Hu Hid].
  apply HQ; [exact Hd|exact Hu|exact Hid|exact Hst].
Qed.

(** ** Metrics *)

(** The queued datagram of a report. *)
Definition report_entry (a : node_app) (group : Z) (x : pqc_tx_entry_t) : Prop :=
  exists mid rep, report_wf rep /\ rp_group rep = group /\
    x = tx_new_entry udp_conn (na_dest_address a) (metrics_packet (node_session a) mid rep) 36.

(** What sending reports leaves alone. *)
Record node_frame (a a' : node_app) : Prop := {
  nf_inv : node_inv a';
  nf_view : node_view a' = node_view a;
  nf_id : node_id (node_session a') = node_id (node_session a);
  nf_fields : (na_dest_address a', na_node_id a', na_send_ctx a', na_getpk_in_flight a', na_measuring a') =
              (na_dest_address a, na_node_id a, na_send_ctx a, na_getpk_in_flight a, na_measuring a);
}.

Lemma node_frame_refl a : node_inv a -> node_frame a a.
Proof. intros Ha. constructor; auto. Qed.

Lemma node_frame_trans a1 a2 a3 : node_frame a1 a2 -> node_frame a2 a3 -> node_frame a1 a3.
Proof. intros [_ V1 I1 F1] [H2' V2 I2 F2]. constructor; congruence || exact H2'. Qed.

Lemma report_entry_frame a a' g x : node_frame a a' -> report_entry a' g x -> report_entry a g x.
Proof.
  intros [_ _ Hi [= Hd _ _ _ _]] (mid & rep & Hr & Hg & ->). exists mid, rep. split; [exact Hr|]. split; [exact Hg|].
  unfold metrics_packet. rewrite Hi, Hd. reflexivity.
Qed.

Lemma node_frame_metrics_pending a n : node_inv a -> node_frame a (a <| na_metrics_pending := n |>).
Proof.
  intros Ha. set (a' := a <| na_metrics_pending := n |>). destruct (node_inv_same a a' eq_refl Ha) as [Hi Hv].
  constructor; [exact Hi|exact Hv|reflexivity|reflexivity].
Qed.

(** Changes of statistics and of the queue. *)
Lemma node_frame_session a s' q' :
  node_inv a -> tx_frame (node_session a) s' -> tx_wf q' ->
  node_frame a (a <| na_dev := put_world (na_dev a) Local (mk_hs_world s' q' (dv_hs (na_dev a)) (dv_prng (na_dev a))) |>).
Proof.
  intros Ha [Hs' Es] Hq'. set (a' := a <| na_dev := _ |>). pose proof (ni_dev _ Ha) as (Hst & _ & Hh).
  assert (Hv : node_view a' = node_view a) by (change (node_view a') with (view s'); rewrite Es; reflexivity).
  assert (Hid : node_id s' = node_id (node_session a)) by (rewrite Es; reflexivity).
  constructor; [|exact Hv|exact Hid|reflexivity].
  eapply (node_inv_steps [] a a'); [exact Ha| |reflexivity| |intros Hi; change (node_session a') with s'; rewrite Hid; apply Ha, Hi
    |rewrite Hv; apply steps_stay|constructor|].
  - destruct Hst. split_and!; [constructor; assumption|exact Hq'|exact Hh].
  - change (node_session a') with s'. rewrite Es. apply Ha.
  - change (node_session a') with s'. rewrite Es. apply Ha.
Qed.

Lemma wp_node_report Q group e a :
  node_inv a -> 1 <= group <= PQC_METRICS_GROUP_COUNT ->
  (forall r e' a', node_frame a a' -> na_metrics_pending a' = na_metrics_pending a ->
     r = session_is_established (node_session a) && negb (tx_count (dv_tx (na_dev a)) =? PQC_TX_QUEUE_SIZE) ->
     (if r then exists x, report_entry a group x /\ pending (dv_tx (na_dev a')) ≡ₚ x :: pending (dv_tx (na_dev a))
      else dv_tx (na_dev a') = dv_tx (na_dev a)) -> Q r e' a') ->
  wp (on_dev (with_session Local (on_sq (pqc_send_metrics_report (node_dest a) group)))) Q e a.
Proof.
  intros Ha Hg HQ. pose proof (ni_dev _ Ha) as (Hst & Hq & Hh). apply wp_on_dev. eapply wp_with_session; [reflexivity|].
  apply wp_on_sq, wp_send_metrics; [apply Hst|exact Hq|lia|]. intros r e' s' q' (Hf & _ & Hr & Hx). cbn [fst snd].
  assert (Hq' : tx_wf q') by (destruct r; [destruct Hx as (? & ? & ? & _ & _ & _ & _ & _ & _ & [? _])|destruct Hx as [-> _]]; assumption).
  apply HQ; [exact (node_frame_session a s' q' Ha Hf Hq')|reflexivity| |].
  - rewrite Hr, !(proj2 (Z.leb_le _ _)), !andb_true_r by lia. unfold tx_blocked. cbn. rewrite negb_orb, negb_involutive. reflexivity.
  - destruct r; [|apply Hx]. destruct Hx as (conn & dest & rep & [= <- <-] & Hrep & Hgr & _ & _ & _ & (_ & _ & Hp & _)).
    eexists. split; [|exact Hp]. exists (next_msg_id (node_session a)), rep. split_and!; [exact Hrep|exact Hgr|reflexivity].
Qed.

(** The reports of the first [k] groups are queued, all of them unless the queue is
    full, and the flag says whether some are left. *)
Definition metrics_sent (a : node_app) (r : bool) (a' : node_app) : Prop :=
  node_frame a a' /\ exists k entries,
    Forall2 (report_entry a) (take k (seqZ PQC_METRICS_GROUP_HS PQC_METRICS_GROUP_COUNT)) entries /\
    pending (dv_tx (na_dev a')) ≡ₚ entries ++ pending (dv_tx (na_dev a)) /\
    if r then k = 7%nat /\ na_metrics_pending a' = 0
    else (k < 7)%nat /\ na_metrics_pending a' = 1 /\
         (session_is_established (node_session a) = true -> tx_count (dv_tx (na_dev a')) = PQC_TX_QUEUE_SIZE).

Lemma established_view a a' : node_view a' = node_view a ->
  session_is_established (node_session a') = session_is_established (node_session a).
Proof. unfold node_view, view. intros [= _ Es Ee _ _ _ _ _]. unfold session_is_established. rewrite Es, Ee. reflexivity. Qed.

Lemma metrics_sent_stop a k entries a' :
  node_frame a a' -> (k < 7)%nat ->
  Forall2 (report_entry a) (take k (seqZ PQC_METRICS_GROUP_HS PQC_METRICS_GROUP_COUNT)) entries ->
  pending (dv_tx (na_dev a')) ≡ₚ entries ++ pending (dv_tx (na_dev a)) ->
  (session_is_established (node_session a) = true -> tx_count (dv_tx (na_dev a')) = PQC_TX_QUEUE_SIZE) ->
  metrics_sent a false (a' <| na_metrics_pending := 1 |>).
Proof.
  intros Hf Hk He Hp Hfull. split; [exact (node_frame_trans _ _ _ Hf (node_frame_metrics_pending a' 1 (nf_inv _ _ Hf)))|].
  exists k, entries. split_and!; [exact He|exact Hp|exact Hk|reflexivity|exact Hfull].
Qed.

Lemma wp_send_group Q group e a :
  node_inv a -> 1 <= group <= PQC_METRICS_GROUP_COUNT ->
  (forall e' a' x, node_frame a a' -> report_entry a group x ->
     pending (dv_tx (na_dev a')) ≡ₚ x :: pending (dv_tx (na_dev a)) -> Q None e' a') ->
  (forall e' a', node_frame a a' -> dv_tx (na_dev a') = dv_tx (na_dev a) ->
     (session_is_established (node_session a) = true -> tx_count (dv_tx (na_dev a')) = PQC_TX_QUEUE_SIZE) ->
     Q (Some false) e' (a' <| na_metrics_pending := 1 |>)) ->
  wp (send_group group) Q e a.
Proof.
  intros Ha Hg Hsent Hstop. unfold send_group. apply wp_bind, wp_get. pose proof (ni_dev _ Ha) as (_ & Hq & _).
  rewrite (free_slots_zero _ Hq). destruct (Z.eqb_spec (tx_count (dv_tx (na_dev a))) PQC_TX_QUEUE_SIZE) as [Hfull|Hroom].
  { apply wp_bind, wp_modify, wp_ret, Hstop; [exact (node_frame_refl a Ha)|reflexivity|auto]. }
  rewrite (ni_session _ Ha). apply wp_bind, wp_node_report; [exact Ha|exact Hg|].
  intros r e2 a2 Hf2 _ Hr Hx. destruct r; cbn [negb].
  - destruct Hx as (x & Hre & Hp). apply wp_ret. exact (Hsent _ _ x Hf2 Hre Hp).
  - apply wp_bind, wp_modify, wp_ret, Hstop; [exact Hf2|exact Hx|]. intros He.
    rewrite He, (proj2 (Z.eqb_neq _ _)) in Hr by exact Hroom. discriminate.
Qed.

Lemma wp_send_node_metrics Q e a :
  node_inv a -> (forall r e' a', metrics_sent a r a' -> Q r e' a') -> wp send_node_metrics Q e a.
Proof.
  intros Ha HQ. unfold send_node_metrics. apply wp_bind. set (groups := seqZ _ _).
  apply (wp_for_each (fun done _ a' => node_frame a a' /\ exists entries, Forall2 (report_entry a) done entries /\
    pending (dv_tx (na_dev a')) ≡ₚ entries ++ pending (dv_tx (na_dev a)))).
  - split; [exact (node_frame_refl a Ha)|]. exists []. split; [constructor|reflexivity].
  - intros done g rest Heq e1 a1 [Hf (entries & Hfe & Hp)].
    assert (Hg : 1 <= g <= PQC_METRICS_GROUP_COUNT).
    { assert (Hin : g ∈ groups) by (rewrite Heq; apply elem_of_app; right; left). apply elem_of_seqZ in Hin. clia. }
    apply wp_send_group; [apply Hf|exact Hg|intros e2 a2 x Hf2 Hre Hp2|intros e2 a2 Hf2 Hq2 Hfull].
    + split; [exact (node_frame_trans _ _ _ Hf Hf2)|]. exists (entries ++ [x]).
      split; [apply Forall2_app; [exact Hfe|repeat constructor; exact (report_entry_frame _ _ _ _ Hf Hre)]|].
      rewrite Hp2, Hp, <- app_assoc. cbn. apply Permutation_middle.
    + apply wp_ret, HQ, (metrics_sent_stop a (length done) entries); [exact (node_frame_trans _ _ _ Hf Hf2)| | | |].
      * assert (El : length groups = 7%nat) by reflexivity. rewrite Heq, length_app in El. cbn in El. lia.
      * fold groups. rewrite Heq, take_app_length. exact Hfe.
      * rewrite Hq2. exact Hp.
      * rewrite <- (established_view a a1 (nf_view _ _ Hf)). exact Hfull.
  - intros e1 a1 [Hf (entries & Hfe & Hp)]. apply wp_bind, wp_modify, wp_ret, HQ.
    split; [exact (node_frame_trans _ _ _ Hf (node_frame_metrics_pending a1 0 (nf_inv _ _ Hf)))|].
    exists 7%nat, entries. split_and!; [exact Hfe|exact Hp|reflexivity|reflexivity].
Qed.

(** ** The receive callback *)

(** The reports a receipt queues: all of them when the session has just been
    established, and those of an earlier attempt that were left. *)
Definition metrics_attempted (was : bool) (a a' : node_app) : Prop :=
  if session_is_established (node_session a) && (negb was || negb (na_metrics_pending a =? 0))
  then exists r a1, node_frame a a1 /\ dv_tx (na_dev a1) = dv_tx (na_dev a) /\ metrics_sent a1 r a'
  else a' = a.

Lemma wp_attempt_metrics Q was e a :
  node_inv a ->
  (forall e' a', node_inv a' -> node_view a' = node_view a -> metrics_attempted was a a' -> Q tt e' a') ->
  wp (attempt_metrics was) Q e a.
Proof.
  intros Ha HQ. unfold attempt_metrics. apply wp_bind, wp_node_established; [exact Ha|]. apply wp_bind, wp_get.
  unfold metrics_attempted in HQ. destruct (session_is_established (node_session a)); cbn [andb] in *.
  2: { rewrite !andb_false_r. apply wp_ret, HQ; auto. }
  rewrite !andb_true_r.
  assert (Hgo : forall e1 a1, node_frame a a1 -> dv_tx (na_dev a1) = dv_tx (na_dev a) -> negb was || negb (na_metrics_pending a =? 0) = true ->
    wp (_ ← send_node_metrics; mret tt) Q e1 a1).
  { intros e1 a1 Hf Hq Hwhen. apply wp_bind, wp_send_node_metrics; [apply Hf|]. intros r e2 a2 Hs. rewrite Hwhen in HQ.
    apply wp_ret, HQ; [apply Hs| |exists r, a1; auto]. destruct Hs as [Hf2 _]. rewrite (nf_view _ _ Hf2). apply Hf. }
  destruct was; cbn [negb orb] in *.
  - destruct (na_metrics_pending a =? 0); cbn [negb] in *; [apply wp_ret, HQ; auto|].
    apply Hgo; [exact (node_frame_refl a Ha)|reflexivity|reflexivity].
  - apply wp_bind, wp_modify, Hgo; [exact (node_frame_metrics_pending a 1 Ha)|reflexivity|reflexivity].
Qed.

(** After the handshake call: the wait for an answer to the request ends when it is
    no longer pending. *)
Lemma node_inv_received a evs d' f (a' := a <| na_dev := d' |> <| na_getpk_in_flight := f |>) :
  node_inv a -> device_wf d' -> used (node_session a') = 1 ->
  (na_node_id a <> SESSION_INVALID_NODE_ID -> node_id (node_session a') = na_node_id a) ->
  hs_steps evs (node_view a) (node_view a') -> Forall node_event evs ->
  (f <> 0 -> pending_msg_type (node_session a') = PQC_MSG_GETPK) -> node_inv a'.
Proof.
  intros Ha Hd Hu Hid Hst Hev Hf. eapply (node_inv_steps evs); [exact Ha|exact Hd|reflexivity|exact Hu|exact Hid|exact Hst|exact Hev|].
  intros Hne. specialize (Hf Hne).
  destruct (node_waits_steps _ _ _ Hst Hev (ni_waits _ Ha)) as [_ Hw]. pose proof (steps_inv _ _ _ Hst (ni_view _ Ha)) as Hv.
  cbn in Hw. pose proof (vi_flag _ (vi_keyed _ Hv)) as Hest. cbn in Hest. rewrite Hf in *.
  destruct (state (node_session a')); try contradiction; try discriminate; [reflexivity|destruct Hw; discriminate|].
  destruct (Hest eq_refl) as (_ & [=] & _).
Qed.

Lemma datagram_node_event data len : Forall node_event [datagram_event data len].
Proof. constructor; [|constructor]. unfold datagram_event. destruct (parse_fragment_header _ _) as [[]|]; split; discriminate. Qed.

Lemma wp_node_rx Q data len e a :
  node_inv a -> all_bytes data -> len <= Z.of_nat (length data) ->
  (forall e' a', node_inv a' -> hs_steps [datagram_event data len] (node_view a) (node_view a') ->
     (exists a1, node_view a1 = node_view a' /\ metrics_attempted (session_is_established (node_session a)) a1 a') \/
     pqc_header_valid (Some data) len = Some false -> Q tt e' a') ->
  wp (node_rx_callback data len) Q e a.
Proof.
  intros Ha Hb Hl HQ. unfold node_rx_callback.
  destruct (header_valid_total data len Hl) as [valid Hv]. apply wp_bind, wp_lift. exists valid. split; [exact Hv|].
  destruct valid; cbn [negb]; [|apply wp_ret, HQ; [exact Ha|apply steps_stay|right; exact Hv]].
  apply wp_bind, wp_node_established; [exact Ha|]. apply wp_bind, wp_get. rewrite (ni_session _ Ha).
  apply wp_bind, wp_bind. apply (wp_node_call _ (node_send_ctx a) (CallFragment data len)); [exact Ha|split; assumption|].
  intros _ e1 d1 a1 Hd1 Hu1 Hid1 Hst1. apply wp_bind, wp_read_session.
  assert (Hst : hs_steps [datagram_event data len] (node_view a) (node_view a1)) by (eapply steps_cons; [exact Hst1|constructor]).
  assert (Hdone : forall a2, node_inv a2 -> node_view a2 = node_view a1 ->
    wp (attempt_metrics (session_is_established (node_session a))) Q e1 a2).
  { intros a2 Ha2 Hv2. apply wp_attempt_metrics; [exact Ha2|]. intros e3 a3 Ha3 Hv3 Hm. apply HQ; [exact Ha3| |].
    - rewrite Hv3, Hv2. exact Hst.
    - left. exists a2. auto. }
  destruct (Z.eqb_spec (pending_msg_type (node_session a1)) PQC_MSG_GETPK) as [Ep|Ep]; cbn [negb].
  - apply wp_ret, Hdone; [|reflexivity].
    replace a1 with (a <| na_dev := d1 |> <| na_getpk_in_flight := na_getpk_in_flight a |>) by (subst a1; destruct a; reflexivity).
    eapply node_inv_received; [exact Ha|exact Hd1|exact Hu1|exact Hid1|exact Hst|apply datagram_node_event|intros _; exact Ep].
  - apply wp_modify, Hdone; [|reflexivity].
    apply (node_inv_received a [datagram_event data len] d1 0); [exact Ha|exact Hd1|exact Hu1|exact Hid1|exact Hst|apply datagram_node_event|].
    intros Hn. contradiction.
Qed.

(** ** The timers *)

(** A tick of the routing timer: what the node does and when. *)
Definition routed (rt : routing) (a a' : node_app) : Prop :=
  match known_root rt with
  | Some root =>
      if rt_joined rt && bool_decide (state (node_session a) = SESSION_STATE_IDLE)
      then exists a1, node_same a a1 /\ na_dest_address a1 = root /\ requested a1 a'
      else dv_tx (na_dev a') = dv_tx (na_dev a) /\ node_view a' = node_view a
  | None => dv_tx (na_dev a') = dv_tx (na_dev a) /\ node_view a' = node_view a
  end.

Lemma node_same_dev a a' : node_same a a' -> na_dev a' = na_dev a.
Proof. intros [= E _ _ _ _]. exact E. Qed.

Lemma wp_routing_timer Q rt e a :
  node_inv a ->
  (forall e' a', node_inv a' -> hs_steps [EvRequest] (node_view a) (node_view a') -> routed rt a a' -> Q tt e' a') ->
  wp (node_routing_timer rt) Q e a.
Proof.
  intros Ha HQ. unfold node_routing_timer. apply wp_bind, wp_log_next_hop. intros e1 a1 Hs1 _ _.
  destruct (node_inv_same a a1 Hs1 Ha) as [Ha1 Hv1]. pose proof (node_same_dev _ _ Hs1) as Hd1. apply wp_bind, wp_ask_root.
  assert (Hstay : forall e2 a2, node_same a1 a2 -> (known_root rt = None \/
      rt_joined rt && bool_decide (state (node_session a) = SESSION_STATE_IDLE) = false) -> Q tt e2 a2).
  { intros e2 a2 Hs2 Hno. destruct (node_inv_same a1 a2 Hs2 Ha1) as [Ha2 Hv2].
    assert (E : dv_tx (na_dev a2) = dv_tx (na_dev a) /\ node_view a2 = node_view a).
    { rewrite (node_same_dev _ _ Hs2), Hd1, Hv2. split; [reflexivity|exact Hv1]. }
    apply HQ; [exact Ha2|rewrite (proj2 E); apply steps_stay|]. unfold routed.
    destruct Hno as [->|Hno]; [exact E|]. destruct (known_root rt); [rewrite Hno; exact E|exact E]. }
  destruct (known_root rt) as [root|] eqn:Ek; cbn [andb].
  2: { apply wp_emit, Hstay; [reflexivity|left; reflexivity]. }
  set (a2 := a1 <| na_dest_address := root |>). destruct (node_inv_same a1 a2 eq_refl Ha1) as [Ha2 Hv2].
  destruct (rt_joined rt) eqn:Ej; cbn [andb]; [|apply wp_emit, Hstay; [reflexivity|right; reflexivity]].
  assert (Est : state (node_session a2) = state (node_session a)).
  { change (v_state (node_view a2) = v_state (node_view a)). rewrite Hv2, Hv1. reflexivity. }
  apply wp_bind, wp_should_request; [exact Ha2|]. rewrite Est. case_bool_decide as Hidle.
  - apply wp_request_pk; [exact Ha2|rewrite Est; exact Hidle|]. intros e3 a3 Ha3 Hst Hr.
    apply HQ; [exact Ha3|rewrite <- Hv1, <- Hv2; exact Hst|]. unfold routed. rewrite Ek, Ej, bool_decide_true by exact Hidle.
    exists a2. split; [|split; [reflexivity|exact Hr]]. unfold node_same in *. rewrite <- Hs1. reflexivity.
  - apply wp_ret, Hstay; [reflexivity|right; reflexivity].
Qed.

Lemma wp_send_timer Q e a :
  node_inv a -> (forall e' a', node_inv a' -> node_view a' = node_view a -> Q tt e' a') -> wp node_send_timer Q e a.
Proof.
  intros Ha HQ. unfold node_send_timer. pose proof (ni_dev _ Ha) as (Hst & Hq & Hh).
  apply wp_bind, wp_on_dev, wp_zoom, wp_tx_process; [exact Hq|]. intros r e1 q1 Hp. apply wp_ret.
  assert (Hq1 : tx_wf q1) by (destruct r; [destruct Hp as (i & x & _ & (Hw & _) & _); exact Hw|destruct Hp as (_ & -> & _); exact Hq]).
  set (a1 := a <| na_dev := _ |>). apply HQ; [|reflexivity].
  eapply (node_inv_steps [] a a1); [exact Ha|split_and!; assumption|reflexivity|apply Ha|apply Ha|apply steps_stay|constructor|apply Ha].
Qed.

Lemma wp_measurement_timer Q hume temper e a :
  node_inv a -> 0 <= hume < 2 ^ 31 -> - 2 ^ 31 < temper < 2 ^ 31 ->
  (forall e' a', node_inv a' -> node_view a' = node_view a -> Q tt e' a') -> wp (node_measurement_timer hume temper) Q e a.
Proof.
  intros Ha Hh Ht HQ. unfold node_measurement_timer. apply wp_bind, wp_get. case_if; [apply wp_ret, HQ; auto|].
  apply wp_bind, wp_node_established; [exact Ha|]. case_if; [apply wp_ret, HQ; auto|].
  apply wp_bind, wp_lift. eexists. split; [reflexivity|]. set (p := update _ _ _).
  pose proof (ni_dev _ Ha) as (Hst & Hq & Hhs).
  assert (Erh : tp_rh_milli p = hume).
  { change (s32 hume = hume). unfold s32. rewrite u32_id by clia. rewrite (proj2 (Z.ltb_lt _ _)) by lia. reflexivity. }
  apply wp_bind, wp_print_measurement; [rewrite Erh; lia|exact Ht|]. unfold the_session.
  apply wp_bind, wp_bind, wp_get, wp_lift. exists Local. split; [apply Ha|].
  apply wp_bind, wp_on_dev. eapply wp_with_session; [reflexivity|]. apply wp_on_sq, wp_send_temp; [apply Hst|exact Hq|].
  intros r e1 s1 q1 (Hf & _ & Hx). cbn [fst snd]. apply wp_ret.
  assert (Hq1 : tx_wf q1) by (destruct r; [destruct Hx as (? & ? & _ & [? _] & _)|destruct Hx as [-> _]]; assumption).
  pose proof (node_frame_session a s1 q1 Ha Hf Hq1) as Hn. apply HQ; apply Hn.
Qed.

Lemma retry_state v v' : hs_step EvRetry v v' -> v_state v' = v_state v \/ v_state v' = SESSION_STATE_FAILED.
Proof. intros Hs. inversion Hs; subst; cbn; auto. Qed.

(** The view of a node's session after a reset. *)
Definition view_idle : hs_view :=
  mk_view SESSION_ROLE_NODE SESSION_STATE_IDLE 0 0 0 0 (zeros CW_HQC_SHARED_LEN) (zeros CW_AES_KEY_LEN).

Lemma reset_view s t nid :
  role s = SESSION_ROLE_NODE -> view ((reset_session s t) <| node_id := nid |>) = view_idle.
Proof. intros Hr. unfold view, reset_session, view_idle. case_if; rsimpl; cbn; rewrite Hr; reflexivity. Qed.

(** The failed session is replaced by a fresh one. *)
Lemma wp_reset_failed Q e a nid (a0 := a <| na_getpk_in_flight := 0 |>) :
  node_inv a0 -> nid = na_node_id a -> state (node_session a) = SESSION_STATE_FAILED ->
  (forall e' a', node_inv a' -> hs_steps [EvReset] (node_view a) (node_view a') -> node_view a' = view_idle -> Q tt e' a') ->
  wp (on_dev (on_session_at Local session_reset);;
      on_dev (on_session_at Local (modify (fun s => s <| node_id := nid |>)));;
      modify (fun a => a <| na_getpk_in_flight := 0 |>)) Q e a.
Proof.
  intros Ha -> Hf HQ. pose proof (ni_dev _ Ha) as (Hst & Hq & Hh). assert (Hs : session_wf (node_session a)) by apply Hst.
  apply wp_bind, wp_on_my_session, wp_session_reset; [exact Hs|]. intros e1 s1 E1.
  apply wp_bind, wp_on_my_session, wp_modify, wp_modify.
  set (a1 := _ <| na_getpk_in_flight := 0 |>). destruct (ni_waits _ Ha) as [Hr _]. change (role (node_session a) = SESSION_ROLE_NODE) in Hr.
  assert (Ev : node_view a1 = view_idle).
  { change (node_view a1) with (view (s1 <| node_id := na_node_id a |>)). rewrite E1. apply reset_view, Hr. }
  assert (Hst1 : hs_steps [EvReset] (node_view a) (node_view a1)).
  { eapply steps_cons; [|constructor]. rewrite Ev. unfold view_idle. rewrite <- Hr. apply (step_reset (node_view a)). intros _. exact Hf. }
  assert (Hs1 : session_wf s1) by (rewrite E1; apply reset_session_wf, Hs).
  apply HQ; [|exact Hst1|exact Ev].
  eapply (node_inv_steps [EvReset] a0 a1); [exact Ha| |reflexivity| |reflexivity|exact Hst1|repeat constructor; discriminate|].
  - apply with_my_session_wf; [apply with_my_session_wf; [split_and!; assumption|exact Hs1]|].
    pose proof (ni_u16 _ Ha) as Hid. change (is_u16 (na_node_id a)) in Hid. destruct Hs1. session_wf_tac.
  - change (used (s1 <| node_id := na_node_id a |>) = 1). rewrite E1. unfold reset_session. case_if; reflexivity.
  - intros Hn. contradiction Hn. reflexivity.
Qed.

Lemma wp_retry_timer Q rt e a :
  node_inv a ->
  (forall e' a', node_inv a' -> hs_steps [EvRetry; EvReset] (node_view a) (node_view a') ->
     (if negb (session_is_established (node_session a)) && bool_decide (is_Some (known_root rt))
      then state (node_session a') <> SESSION_STATE_FAILED /\
           (state (node_session a) = SESSION_STATE_FAILED -> node_view a' = view_idle)
      else na_dev a' = na_dev a) -> Q tt e' a') ->
  wp (node_retry_timer rt) Q e a.
Proof.
  intros Ha HQ. unfold node_retry_timer. apply wp_bind, wp_get. rewrite (ni_session _ Ha).
  apply wp_bind, wp_node_established; [exact Ha|]. destruct (session_is_established (node_session a)); cbn [negb andb] in HQ.
  { apply wp_ret, HQ; [exact Ha|apply steps_stay|reflexivity]. }
  apply wp_bind, wp_ask_root. destruct (known_root rt) as [root|]; cbn [negb].
  2: { rewrite bool_decide_false in HQ by (intros [? [=]]). apply wp_ret, HQ; [exact Ha|apply steps_stay|reflexivity]. }
  rewrite bool_decide_true in HQ by eauto. apply wp_bind, wp_modify, wp_bind, wp_get.
  set (a1 := _ <| na_send_ctx := true |>). assert (Hsame : node_same a a1).
  { unfold node_same. rewrite (ni_ctx _ Ha). reflexivity. }
  destruct (node_inv_same a a1 Hsame Ha) as [Ha1 Hv1].
  apply wp_bind. apply (wp_node_call _ (node_send_ctx a1) CallRetry); [exact Ha1|exact I|].
  intros b e2 d2 a2 Hd2 Hu2 Hid2 Hst2. cbn [call_event] in Hst2. apply wp_bind, wp_read_session.
  pose proof (retry_state _ _ Hst2) as Hstate. rewrite Hv1 in Hst2, Hstate. cbn in Hstate.
  assert (Hst : hs_steps [EvRetry] (node_view a) (node_view a2)) by (eapply steps_cons; [exact Hst2|constructor]).
  assert (Hev : Forall node_event [EvRetry]) by (repeat constructor; discriminate).
  unfold session_is_failed. case_bool_decide as Hf.
  - apply wp_bind, wp_emit, wp_reset_failed; [|reflexivity|exact Hf|].
    + set (a3 := _ <| na_getpk_in_flight := 0 |>).
      eapply (node_inv_steps [EvRetry] a1 a3); [exact Ha1|exact Hd2|reflexivity|exact Hu2|exact Hid2|exact Hst|exact Hev|].
      intros Hn. contradiction Hn. reflexivity.
    + intros e3 a3 Ha3 Hst3 Ev3. apply HQ; [exact Ha3|exact (hs_steps_app _ _ _ _ _ Hst Hst3)|].
      split; [|intros _; exact Ev3]. change (v_state (node_view a3) <> SESSION_STATE_FAILED). rewrite Ev3. discriminate.
  - destruct Hstate as [Es|Es]; [|contradiction]. apply wp_ret, HQ.
    + eapply (node_inv_steps [EvRetry] a1 a2); [exact Ha1|exact Hd2|reflexivity|exact Hu2|exact Hid2|exact Hst|exact Hev|].
      intros Hn. rewrite Es. exact (ni_flight _ Ha Hn).
    + exact (hs_steps_app _ _ _ _ _ Hst (steps_stay [EvReset] _)).
    + split; [exact Hf|]. intros Hfa. contradiction Hf. rewrite Es. exact Hfa.
Qed.

(** ** Boot and runs *)

Lemma node_id_total linkaddr :
  all_bytes linkaddr -> linkaddr <> [] -> exists id, pqc_node_id_from_linkaddr linkaddr = Some id /\ is_u16 id.
Proof.
  intros Hb Hn. assert (Hlen : 1 <= Z.of_nat (length linkaddr)) by (destruct linkaddr; [contradiction|cbn; lia]).
  assert (Hcell : forall i, 0 <= i < Z.of_nat (length linkaddr) -> exists v, cell linkaddr i = Some v /\ is_u8 v).
  { intros i Hi. destruct (cell_total linkaddr i Hi) as (v & Hv & Hl). exists v. split; [exact Hv|].
    exact (proj1 (list.Forall_lookup _ _) Hb _ _ Hl). }
  unfold pqc_node_id_from_linkaddr. case_if; case_bools.
  - destruct (Hcell (Z.of_nat (length linkaddr) - 2)) as (h & -> & Hh); [lia|].
    destruct (Hcell (Z.of_nat (length linkaddr) - 1)) as (l & -> & Hl); [lia|]. opt_simpl. eexists. split; [reflexivity|].
    rewrite lor_shiftl_add by clia. clia.
  - destruct (Hcell 0) as (v & -> & Hv); [lia|]. exists v. split; [reflexivity|clia].
Qed.

Lemma init_wf_node e st :
  wp (session_manager_init SESSION_ROLE_NODE) (fun _ _ st' => store_wf st' /\
    session_manager_get_local st' = Some Local /\ used (local_session st') = 1 /\ view (local_session st') = view_idle) e st.
Proof.
  pose proof session_zero_wf as Hz. pose proof store_zero_wf as [Hl _ Hs Hu].
  unfold session_manager_init, session_init, session_touch. apply wp_bind, wp_modify.
  rewrite bool_decide_true by reflexivity. apply wp_zoom. wp_steps.
  set (s := update last_activity _ _). assert (Hsw : session_wf s) by (unfold s; destruct Hz; session_wf_tac; clia).
  assert (Ev : view s = view_idle /\ used s = 1) by (split; reflexivity). clearbody s.
  split_and!; [constructor; assumption|reflexivity|apply Ev|apply Ev].
Qed.

Lemma wp_node_boot Q linkaddr e g :
  all_bytes linkaddr -> linkaddr <> [] ->
  (forall e' a', node_inv a' -> node_view a' = view_idle -> pqc_node_id_from_linkaddr linkaddr = Some (na_node_id a') -> Q tt e' a') ->
  wp (node_boot linkaddr) Q e (node_zero g).
Proof.
  intros Hb Hn HQ. destruct (node_id_total linkaddr Hb Hn) as (id & Eid & Hid).
  unfold node_boot, line. apply wp_bind, wp_emit, wp_bind, wp_on_dev, wp_zoom.
  eapply wp_mono; [|apply tx_init_wf]. intros _ e1 q1 [Hq1 _].
  apply wp_bind, wp_emit, wp_bind, wp_lift. exists id. split; [exact Eid|].
  apply wp_bind, wp_modify, wp_bind, wp_on_dev, wp_zoom. eapply wp_mono; [|apply init_wf_node].
  intros _ e2 st (Hst & Hloc & Hu & Hv). apply wp_bind, wp_modify, wp_bind. unfold the_session.
  apply wp_bind, wp_get, wp_lift. exists Local. split; [exact Hloc|].
  apply wp_bind, wp_on_my_session, wp_modify, wp_bind, wp_modify, wp_modify.
  set (a := _ <| na_send_ctx := true |>).
  assert (Hs : session_wf ((local_session st) <| node_id := id |>)) by (destruct Hst as [_ [] _ _]; session_wf_tac).
  assert (Ev : node_view a = view_idle) by exact Hv. destruct (fresh_inv view_idle) as [Hvi _]; [repeat split|].
  apply HQ; [|exact Ev|exact Eid].
  constructor; [|exact Hloc|reflexivity|exact Hu|exact Hid|reflexivity|rewrite Ev; exact Hvi|rewrite Ev; split; reflexivity
    |intros Hf; contradiction Hf; reflexivity].
  split_and!; [|exact Hq1|exact hs_boot_wf]. destruct Hst as [Hl _ Hss Hun]. constructor; [exact Hl|exact Hs|exact Hss|exact Hun].
Qed.

(** What a wake-up does to the session, as events of the machine. *)
Definition input_events (i : node_input) : list hs_event :=
  match i with
  | RoutingTimer _ => [EvRequest]
  | RetryTimer _ => [EvRetry; EvReset]
  | Datagram data datalen => [datagram_event data datalen]
  | _ => []
  end.

(** Datagrams are bytes, and the sensor's values positive (humidity) or any but the
    least integer (temperature). *)
Definition input_ok (i : node_input) : Prop :=
  match i with
  | Datagram data datalen => all_bytes data /\ datalen <= Z.of_nat (length data)
  | MeasurementTimer hume temper => 0 <= hume < 2 ^ 31 /\ - 2 ^ 31 < temper < 2 ^ 31
  | _ => True
  end.

Lemma wp_node_handle i e a :
  node_inv a -> input_ok i ->
  wp (node_handle i) (fun _ _ a' => node_inv a' /\ hs_steps (input_events i) (node_view a) (node_view a')) e a.
Proof.
  intros Ha Hi. destruct i as [rt| |rt|hume temper|data datalen]; cbn [node_handle input_events].
  - apply wp_routing_timer; auto.
  - apply wp_send_timer; [exact Ha|]. intros e' a' Ha' ->. split; [exact Ha'|apply steps_nil].
  - apply wp_retry_timer; auto.
  - destruct Hi. apply wp_measurement_timer; [exact Ha|assumption..|]. intros e' a' Ha' ->. split; [exact Ha'|apply steps_nil].
  - destruct Hi. apply wp_node_rx; auto.
Qed.

Lemma wp_node_handle_all inputs e a :
  node_inv a -> Forall input_ok inputs ->
  wp (node_handle_all inputs) (fun _ _ a' => node_inv a' /\
    hs_steps (inputs ≫= input_events) (node_view a) (node_view a')) e a.
Proof.
  revert e a. induction inputs as [|i inputs IH]; intros e a Ha Hi; cbn [node_handle_all].
  { apply wp_ret. split; [exact Ha|apply steps_nil]. }
  apply list.Forall_cons in Hi as [Hi His]. apply wp_bind. eapply wp_mono; [|exact (wp_node_handle i e a Ha Hi)].
  intros _ e1 a1 [Ha1 Hs1]. eapply wp_mono; [|exact (IH e1 a1 Ha1 His)]. intros [] e2 a2 [Ha2 Hs2].
  split; [exact Ha2|]. exact (hs_steps_app _ _ _ _ _ Hs1 Hs2).
Qed.

Lemma wp_node_main linkaddr sensor inputs e g :
  all_bytes linkaddr -> linkaddr <> [] -> Forall input_ok inputs ->
  wp (node_main linkaddr sensor inputs) (fun _ _ a' => node_inv a' /\
    hs_steps (inputs ≫= input_events) view_idle (node_view a')) e (node_zero g).
Proof.
  intros Hb Hn Hi. unfold node_main. apply wp_bind, wp_node_boot; [exact Hb|exact Hn|]. intros e1 a1 Ha1 Hv1 _.
  assert (Hgo : forall e2 a2, node_same a1 a2 -> wp (node_handle_all inputs) (fun _ _ a' => node_inv a' /\
    hs_steps (inputs ≫= input_events) view_idle (node_view a')) e2 a2).
  { intros e2 a2 Hs2. destruct (node_inv_same a1 a2 Hs2 Ha1) as [Ha2 Hv2]. rewrite <- Hv1, <- Hv2.
    apply wp_node_handle_all; assumption. }
  apply wp_bind. unfold node_measurement_start, line. destruct sensor; cbn [negb].
  - apply wp_bind, wp_emit, wp_modify, Hgo. reflexivity.
  - apply wp_emit, Hgo. reflexivity.
Qed.

End NodeFacts.

(** ** Properties *)

#[local] Existing Instance example_platform | 100.
#[local] Existing Instance example_platform_laws | 100.
#[local] Existing Instance example_crypto | 100.
#[local] Existing Instance example_crypto_laws | 100.

(** C4. A node follows the protocol: from boot with a link address that is not empty, whatever wakes it, whatever
    datagrams it receives, and whatever its sensor measures but a humidity of [2^31] or
    more or a temperature of the least 32-bit integer, every handler runs to its end without an
    access outside a buffer or a [NULL] pointer, the session takes one step of the
    protocol machine per call, and when it is established its key is the one derived
    from the shared secret and a turn of the routing process, a fragment of a public key
    and a fragment of an acknowledgement came in that order. *)
Theorem node_refines `{PlatformLaws} `{CryptoLaws} linkaddr sensor inputs e g :
  all_bytes linkaddr -> linkaddr <> [] -> Forall input_ok inputs ->
  exists e' a', node_main linkaddr sensor inputs e (node_zero g) = Some (tt, e', a') /\ device_wf (na_dev a') /\
    hs_steps (inputs ≫= input_events) view_idle (node_view a') /\
    (session_is_established (node_session a') = true ->
       aes_key (node_session a') = aes_key_of (ss (node_session a')) /\
       sublist [EvRequest; EvFragment HS_MSG_PK; EvFragment HS_MSG_ACK] (inputs ≫= input_events)).
Proof.
  intros Hb Hn Hi. pose proof (wp_node_main linkaddr sensor inputs e g Hb Hn Hi) as Hwp.
  apply wp_run in Hwp as ([] & e' & a' & Hrun & Ha & Hst). exists e', a'. split_and!; [exact Hrun|apply Ha|exact Hst|].
  unfold session_is_established. intros He. apply andb_true_iff in He as [He _]. apply bool_decide_eq_true in He.
  destruct (fresh_inv view_idle) as [Hv Hh]; [repeat split|].
  split; [apply (vi_key _ (vi_keyed _ (steps_inv _ _ _ Hst Hv))); right; exact He|].
  apply (steps_history [] _ _ _ Hst) in Hh. unfold history in Hh. rewrite (proj1 (ni_waits _ Ha)) in Hh. apply Hh, He.
Qed.

(** A node that reaches the root, asks for its key, and receives garbage. *)
Definition example_linkaddr : bytes := [0x00; 0x0b; 0x57; 0xff; 0xfe; 0x11; 0x01; 0x05].
Definition example_routing : routing := mk_routing true (Some (9 : uip_ipaddr_t)) true (Some (3 : uip_ipaddr_t)).
Definition example_inputs : list node_input :=
  [RoutingTimer example_routing; SendTimer; Datagram [1; 1; 1; 5; 0; 0; 1; 0; 0; 0] 10; RetryTimer example_routing].

Lemma example_inputs_ok : Forall input_ok example_inputs.
Proof. repeat constructor; cbn; try lia; decided. Qed.

Example node_refines_witness :
  exists e' a', node_main example_linkaddr true example_inputs example_env (node_zero prng_zero) = Some (tt, e', a') /\
    device_wf (na_dev a') /\
    hs_steps (example_inputs ≫= input_events) view_idle (node_view a') /\
    (session_is_established (node_session a') = true ->
       aes_key (node_session a') = aes_key_of (ss (node_session a')) /\
       sublist [EvRequest; EvFragment HS_MSG_PK; EvFragment HS_MSG_ACK] (example_inputs ≫= input_events)).
Proof.
  apply (node_refines example_linkaddr true example_inputs example_env prng_zero);
    [decided|discriminate|exact example_inputs_ok].
Defined.



(** The metrics of a node leave completely or are tried again: in an established
    session [send_node_metrics] queues the reports of all seven groups, in order and
    one each, and clears [metrics_pending] exactly when the queue has seven free
    entries; otherwise it queues as many as fit, the first groups, and leaves
    [metrics_pending] set for the next datagram. *)
Theorem node_metrics_all_or_pending `{PlatformLaws} `{CryptoLaws} e a :
  node_inv a -> session_is_established (node_session a) = true ->
  exists r e' a' entries, send_node_metrics e a = Some (r, e', a') /\ node_inv a' /\ node_view a' = node_view a /\
    r = bool_decide (tx_count (dv_tx (na_dev a)) + PQC_METRICS_GROUP_COUNT <= PQC_TX_QUEUE_SIZE) /\
    na_metrics_pending a' = (if r then 0 else 1) /\
    pending (dv_tx (na_dev a')) ≡ₚ entries ++ pending (dv_tx (na_dev a)) /\
    Forall2 (report_entry a) (take (length entries) (seqZ PQC_METRICS_GROUP_HS PQC_METRICS_GROUP_COUNT)) entries /\
    Z.of_nat (length entries) = (if r then PQC_METRICS_GROUP_COUNT else PQC_TX_QUEUE_SIZE - tx_count (dv_tx (na_dev a))).
Proof.
  intros Ha He. assert (Hwp : wp send_node_metrics (fun r _ a' => metrics_sent a r a') e a)
    by (apply wp_send_node_metrics; [exact Ha|]; intros; assumption).
  apply wp_run in Hwp as (r & e' & a' & Hrun & Hf & k & entries & Hfe & Hp & Hr). exists r, e', a', entries.
  assert (Hk : length entries = k \/ (7 < k)%nat).
  { apply Forall2_length in Hfe. rewrite length_take, length_seqZ in Hfe. change (Z.to_nat PQC_METRICS_GROUP_COUNT) with 7%nat in Hfe. lia. }
  assert (Hle : (k <= 7)%nat) by (destruct r; lia). destruct Hk as [Hk|]; [|lia].
  pose proof (ni_dev _ Ha) as (_ & Hq & _). pose proof (ni_dev _ (nf_inv _ _ Hf)) as (_ & Hq' & _).
  assert (Hc : tx_count (dv_tx (na_dev a')) = Z.of_nat k + tx_count (dv_tx (na_dev a)))
    by (rewrite (qw_count _ Hq), (qw_count _ Hq'), Hp, length_app; lia).
  pose proof (pending_bound _ Hq') as Hbound. rewrite Hk. split_and!; [exact Hrun|apply Hf|apply Hf| | |exact Hp|exact Hfe|];
    destruct r; try apply Hr; destruct Hr as (Hk7 & Hrest).
  - symmetry. apply bool_decide_eq_true. clia.
  - destruct Hrest as [_ Hfull]. specialize (Hfull He). symmetry. apply bool_decide_eq_false. clia.
  - clia.
  - destruct Hrest as [_ Hfull]. specialize (Hfull He). clia.
Qed.


(** A node with an established session. *)
Definition example_keyed : session_t :=
  (example_session 7) <| node_id := 258 |> <| aes_key := aes_key_of (zeros CW_HQC_SHARED_LEN) |>.
Definition example_node : node_app :=
  (with_my_session ((node_zero prng_zero) <| na_dev ::= (fun d => d <| dv_tx := example_queue |>) |>) example_keyed)
    <| na_session := Some Local |> <| na_send_ctx := true |> <| na_node_id := 258 |>.

Lemma keyed_wf s nid k :
  session_wf s -> is_u16 nid -> is_aes_key k -> session_wf (s <| node_id := nid |> <| aes_key := k |>).
Proof. intros Hs Hn Hk. destruct Hs. session_wf_tac. Qed.

Lemma example_keyed_wf : session_wf example_keyed.
Proof.
  apply keyed_wf; [apply example_session_wf; decided|decided|].
  apply (derive_aes_key_eq (zeros CW_HQC_SHARED_LEN) (zeros CW_AES_KEY_LEN) zeros_secret). reflexivity.
Qed.

Lemma example_node_inv : node_inv example_node.
Proof.
  constructor; [|reflexivity|reflexivity|reflexivity|decided|reflexivity| |split; [reflexivity|exact I]|intros Hf; contradiction Hf; reflexivity].
  - apply (with_my_session_wf ((node_zero prng_zero) <| na_dev ::= (fun d => d <| dv_tx := example_queue |>) |>) example_keyed);
      [|exact example_keyed_wf]. split_and!; [exact store_zero_wf|exact example_queue_wf|exact hs_boot_wf].
  - constructor; [constructor; [intros _; reflexivity|intros _; split_and!; reflexivity]|].
    change (0 <= 0 <= SESSION_MAX_RETRIES). clia.
Qed.

Example node_metrics_all_or_pending_witness :
  exists r e' a' entries, send_node_metrics example_env example_node = Some (r, e', a') /\ node_inv a' /\
    node_view a' = node_view example_node /\
    r = bool_decide (tx_count (dv_tx (na_dev example_node)) + PQC_METRICS_GROUP_COUNT <= PQC_TX_QUEUE_SIZE) /\
    na_metrics_pending a' = (if r then 0 else 1) /\
    pending (dv_tx (na_dev a')) ≡ₚ entries ++ pending (dv_tx (na_dev example_node)) /\
    Forall2 (report_entry example_node) (take (length entries) (seqZ PQC_METRICS_GROUP_HS PQC_METRICS_GROUP_COUNT)) entries /\
    Z.of_nat (length entries) =
      (if r then PQC_METRICS_GROUP_COUNT else PQC_TX_QUEUE_SIZE - tx_count (dv_tx (na_dev example_node))).
Proof. apply (node_metrics_all_or_pending example_env example_node example_node_inv). reflexivity. Defined.
