(* ===== verification/RootLog.v ===== *)
(** * The root's log: the CSV lines of [src/server_main.c]

    One [Serial] output per line, without its line ending.  The theorem on
    [csv_print_seconds]: ticks are shown as seconds rounded to the millisecond. *)

From S2P Require Import Prelude Platform Protocol Temperature Metrics CryptoWorker Session.

(* src/server_main.c:13-13 CSV_VALUE0_SECONDS *)
Definition CSV_VALUE0_SECONDS : Z := 0x01.
(* src/server_main.c:14-14 CSV_VALUE1_SECONDS *)
Definition CSV_VALUE1_SECONDS : Z := 0x02.
(* src/server_main.c:15-15 CSV_VALUE2_SECONDS *)
Definition CSV_VALUE2_SECONDS : Z := 0x04.
(* src/server_main.c:16-16 CSV_VALUE3_SECONDS *)
Definition CSV_VALUE3_SECONDS : Z := 0x08.

(** [seconds_mask & bit]. *)
Definition flag (seconds_mask bit : Z) : bool := negb (Z.land seconds_mask bit =? 0).

Section RootLog.
Context `{Platform}.

(** The two numbers [csv_print_seconds] prints. *)
(* src/server_main.c:215-221 csv_print_seconds *)
Definition csv_seconds (ticks : Z) : Z * Z :=
  let seconds := ticks / CLOCK_SECOND in
  let millis := u32 (u32 (ticks mod CLOCK_SECOND * 1000) + CLOCK_SECOND / 2) / CLOCK_SECOND in
  if 1000 <=? millis then (u32 (seconds + 1), millis - 1000) else (seconds, millis).

(* src/server_main.c:213-224 csv_print_seconds *)
Definition csv_print_seconds (ticks : Z) : string :=
  let '(seconds, millis) := csv_seconds ticks in pretty seconds ++ "." ++ pad3 millis.

(* src/server_main.c:226-233 csv_print_value *)
Definition csv_print_value (value : Z) (as_seconds : bool) : string :=
  if as_seconds then csv_print_seconds value else pretty value.

(** A line of the root's log. *)
Definition log {S} (text : string) : M S unit := emit (Serial text).

(** A line of the event log; [now] is the reading of the clock. *)
Definition event_line (now node_id : Z) (event : string) (value0 value1 value2 value3 seconds_mask : Z) : string :=
  "PQC_CSV,EVENT," ++ csv_print_seconds (u32 now) ++ "," ++ pretty node_id ++ "," ++ event ++ "," ++
  csv_print_value value0 (flag seconds_mask CSV_VALUE0_SECONDS) ++ "," ++
  csv_print_value value1 (flag seconds_mask CSV_VALUE1_SECONDS) ++ "," ++
  csv_print_value value2 (flag seconds_mask CSV_VALUE2_SECONDS) ++ "," ++
  csv_print_value value3 (flag seconds_mask CSV_VALUE3_SECONDS).

(** No caller passes a [NULL] event. *)
(* src/server_main.c:235-258 csv_event_units *)
Definition csv_event_units {S} (node_id : Z) (event : string) (value0 value1 value2 value3 seconds_mask : Z) : M S unit :=
  now ← clock_time;
  log (event_line now node_id event value0 value1 value2 value3 seconds_mask).

(* src/server_main.c:260-268 csv_event *)
Definition csv_event {S} (node_id : Z) (event : string) (value0 value1 value2 value3 : Z) : M S unit :=
  csv_event_units node_id event value0 value1 value2 value3 0.

(* src/server_main.c:208-211 csv_header *)
Definition csv_header {S} : M S unit :=
  log "PQC_CSV_HEADER,record,root_seconds,node_id,event,value0,value1,value2,value3".

(* src/server_main.c:270-283 csv_temp *)
Definition csv_temp {S} (node_id : Z) (measurement : pqc_temp_payload_t) : M S unit :=
  now ← clock_time;
  log ("PQC_CSV,TEMP," ++ csv_print_seconds (u32 now) ++ "," ++ pretty node_id ++ ",TEMP_RX," ++
       pretty (tp_counter measurement) ++ "," ++ pretty (tp_rh_milli measurement) ++ "," ++
       pretty (tp_temp_milli measurement) ++ ",0").

(** The bits of the masks are disjoint, so that [|] is written [+]. *)
(* src/server_main.c:285-327 csv_hs_summary *)
Definition csv_hs_summary {S} (s : session_t) (event : string) : M S unit :=
  let m := metrics s in
  csv_event_units (node_id s) event (handshake_ticks_last (handshake m)) (retries (resource m))
    (nack_tx (fragmentation m)) (nack_rx (fragmentation m)) CSV_VALUE0_SECONDS;;
  csv_event_units (node_id s) "HS_PK" (pk_tx_ticks_last (handshake m)) (pk_rx_ticks_last (handshake m))
    (pk_tx (handshake m)) (pk_rx_complete (handshake m)) (Z.lor CSV_VALUE0_SECONDS CSV_VALUE1_SECONDS);;
  csv_event_units (node_id s) "HS_CT" (ct_tx_ticks_last (handshake m)) (ct_rx_ticks_last (handshake m))
    (ct_tx (handshake m)) (ct_rx_complete (handshake m)) (Z.lor CSV_VALUE0_SECONDS CSV_VALUE1_SECONDS);;
  csv_event_units (node_id s) "HS_CRYPTO" (keypair_ticks_last (handshake m)) (encaps_ticks_last (handshake m))
    (decaps_ticks_last (handshake m)) (ack_wait_ticks_last (handshake m))
    (Z.lor (Z.lor (Z.lor CSV_VALUE0_SECONDS CSV_VALUE1_SECONDS) CSV_VALUE2_SECONDS) CSV_VALUE3_SECONDS).

(** Which values of a report are times. *)
(* src/server_main.c:337-352 csv_node_metrics *)
Definition report_seconds_mask (group : Z) : Z :=
  if group =? PQC_METRICS_GROUP_HS then CSV_VALUE0_SECONDS
  else if (group =? PQC_METRICS_GROUP_PK) || (group =? PQC_METRICS_GROUP_CT)
  then Z.lor CSV_VALUE0_SECONDS CSV_VALUE1_SECONDS
  else if group =? PQC_METRICS_GROUP_CRYPTO
  then Z.lor (Z.lor (Z.lor CSV_VALUE0_SECONDS CSV_VALUE1_SECONDS) CSV_VALUE2_SECONDS) CSV_VALUE3_SECONDS
  else 0.

(* src/server_main.c:329-368 csv_node_metrics *)
Definition csv_node_metrics {S} (node_id : Z) (report : pqc_metrics_report_t) : M S unit :=
  csv_event_units node_id (pqc_metrics_group_name (rp_group report)) (value0 report) (value1 report)
    (value2 report) (value3 report) (report_seconds_mask (rp_group report));;
  csv_event_units node_id "NODE_METRICS_META" (rp_group report) (rp_seq report) (rp_uptime_ticks report)
    (rp_version report) CSV_VALUE2_SECONDS.

(** The required bits, one per group. *)
(* src/server_main.c:400-406 csv_session_summary_if_ready *)
Definition summary_required : Z :=
  u8 (fold_right Z.lor 0 ((fun g => Z.shiftl 1 (g - 1)) <$>
    [PQC_METRICS_GROUP_HS; PQC_METRICS_GROUP_PK; PQC_METRICS_GROUP_CT; PQC_METRICS_GROUP_CRYPTO;
     PQC_METRICS_GROUP_FRAG; PQC_METRICS_GROUP_TEMP; PQC_METRICS_GROUP_RES])).

(** [s->node_metric_values[group][i]]. *)
Definition metric_value (s : session_t) (group i : Z) : option Z :=
  row ← at_index (node_metric_values s) group; cell row i.

End RootLog.

(** ** Times *)

Section Times.
Context `{PlatformLaws}.

Lemma csv_millis ticks (millis := u32 (u32 (ticks mod CLOCK_SECOND * 1000) + CLOCK_SECOND / 2) / CLOCK_SECOND) :
  millis = (ticks mod CLOCK_SECOND * 1000 + CLOCK_SECOND / 2) / CLOCK_SECOND /\ 0 <= millis <= 1000.
Proof.
  pose proof clock_second_pos as Hc. pose proof clock_second_small as Hs.
  pose proof (Z.mod_pos_bound ticks CLOCK_SECOND Hc) as Hr. pose proof (Z.div_mod CLOCK_SECOND 2 ltac:(lia)) as Hh.
  pose proof (Z.mod_pos_bound CLOCK_SECOND 2 ltac:(lia)) as Hm.
  assert (E : millis = (ticks mod CLOCK_SECOND * 1000 + CLOCK_SECOND / 2) / CLOCK_SECOND).
  { unfold millis. rewrite (u32_id (ticks mod CLOCK_SECOND * 1000)) by clia. rewrite u32_id by clia. reflexivity. }
  split; [exact E|]. rewrite E. split; [apply Z.div_pos; lia|].
  apply Z.lt_succ_r, Z.div_lt_upper_bound; lia.
Qed.

End Times.

(** ** Properties *)

#[local] Existing Instance example_platform | 100.
#[local] Existing Instance example_platform_laws | 100.

(** Times in the log: [csv_print_seconds] shows a number of ticks as seconds
    rounded to the nearest millisecond, with three digits after the point, and no
    step of its 32-bit arithmetic overflows. *)
Theorem csv_seconds_rounded `{PlatformLaws} ticks :
  is_u32 ticks -> exists seconds millis, csv_seconds ticks = (seconds, millis) /\ 0 <= millis < 1000 /\
    is_u32 seconds /\ seconds * 1000 + millis = (ticks * 1000 + CLOCK_SECOND / 2) / CLOCK_SECOND.
Proof.
  intros Ht. pose proof clock_second_pos as Hc. destruct (csv_millis ticks) as [E Hb]. unfold csv_seconds. cbv zeta.
  revert E Hb. generalize (u32 (u32 (ticks mod CLOCK_SECOND * 1000) + CLOCK_SECOND / 2) / CLOCK_SECOND). intros millis E Hb.
  assert (Hsum : ticks / CLOCK_SECOND * 1000 + millis = (ticks * 1000 + CLOCK_SECOND / 2) / CLOCK_SECOND).
  { rewrite E, <- Z.div_add_l by lia. f_equal.
    rewrite (Z.div_mod ticks CLOCK_SECOND) at 3 by lia. ring. }
  assert (Hs : 0 <= ticks / CLOCK_SECOND <= ticks).
  { unfold in_width in Ht. split; [apply Z.div_pos; lia|]. apply Z.div_le_upper_bound; [lia|nia]. }
  destruct (Z.leb_spec 1000 millis) as [Hge|Hlt].
  - assert (Hsec : ticks / CLOCK_SECOND + 1 < 2 ^ 32).
    { assert (CLOCK_SECOND <> 1).
      { intros E1. rewrite E1, Z.mod_1_r in E. change ((0 * 1000 + 1 / 2) / 1) with 0 in E. lia. }
      assert (ticks / CLOCK_SECOND <= ticks / 2) by (apply Z.div_le_compat_l; clia).
      assert (ticks / 2 < 2 ^ 31) by (apply Z.div_lt_upper_bound; clia). lia. }
    eexists _, _. split; [reflexivity|]. rewrite u32_id by clia. split; [lia|]. split; [clia|]. lia.
  - eexists _, _. split; [reflexivity|]. split; [lia|]. split; [clia|]. exact Hsum.
Qed.

Example csv_seconds_rounded_witness :
  exists seconds millis, csv_seconds 1279 = (seconds, millis) /\ 0 <= millis < 1000 /\
    is_u32 seconds /\ seconds * 1000 + millis = (1279 * 1000 + CLOCK_SECOND / 2) / CLOCK_SECOND.
Proof. apply (csv_seconds_rounded 1279). decided. Defined.
