(* ===== verification/RootApp.v ===== *)
(** * The root: [src/server_main.c]

    The processes and the receive callback of the root, as handlers of the events
    that wake them, and the observation window it keeps around each handshake. *)

From S2P Require Import Prelude Platform Protocol Temperature Fragmentation Metrics CryptoWorker Session TxQueue Telemetry Handshake HandshakeFacts HandshakeRules HandshakeStep HandshakeProps Device RootLog.

Section RootApp.
Context `{Platform} `{Crypto}.

(* src/server_main.c:26-33 impact_snapshot_t *)
Record impact_snapshot_t := mk_impact_snapshot {
  is_active : Z;
  is_node_id : Z;
  is_temp_rx_ok : Z;
  is_temp_rx_fail : Z;
  is_temp_counter_resync : Z;
  is_rx_counter : Z;
}.

(* src/server_main.c:35-41 impact_window_t *)
Record impact_window_t := mk_impact_window {
  iw_active : Z;
  iw_target_node_id : Z;
  iw_snapshot_count : Z;
  iw_started_at : Z;
  iw_snapshots : list impact_snapshot_t;
}.
#[export] Instance eta_impact_window : Eta impact_window_t := fun r =>
  mk_impact_window (iw_active r) (iw_target_node_id r) (iw_snapshot_count r) (iw_started_at r) (iw_snapshots r).

(** [memset(&impact_window, 0, sizeof(impact_window))]. *)
Definition impact_zero : impact_window_t :=
  mk_impact_window 0 0 0 0 (replicate (Z.to_nat SESSION_MAX_NODES) (mk_impact_snapshot 0 0 0 0 0 0)).

(** The file's static variables. *)
(* src/server_main.c:43-43 impact_window *)
Record root_app := mk_root_app {
  ra_dev : device;
  ra_impact : impact_window_t;
}.
#[export] Instance eta_root_app : Eta root_app := fun r => mk_root_app (ra_dev r) (ra_impact r).

Definition root_zero (g : prng_state) : root_app := mk_root_app (device_boot g) impact_zero.

(** The one connection of the program. *)
Definition root_udp_conn : nat := 0.

Definition on_root {A} : M device A -> M root_app A := zoom ra_dev (fun d a => a <| ra_dev := d |>).

(** The value of an enumerator, as it is printed. *)
Definition state_value (st : session_state_t) : Z :=
  match st with
  | SESSION_STATE_UNUSED => 0 | SESSION_STATE_IDLE => 1 | SESSION_STATE_WAIT_PK => 2 | SESSION_STATE_WAIT_CT => 3
  | SESSION_STATE_WAIT_ACK => 4 | SESSION_STATE_ESTABLISHED => 5 | SESSION_STATE_FAILED => 6
  end.

(** ** Node metrics *)

(** [s] and [report] are not [NULL]. *)
(* src/server_main.c:370-382 session_store_node_metrics *)
Definition session_store_node_metrics (report : pqc_metrics_report_t) : M session_t unit :=
  if (rp_group report =? 0) || (PQC_METRICS_GROUP_COUNT <? rp_group report) then mret tt else
  s ← get;
  row ← lift (at_index (node_metric_values s) (rp_group report));
  row ← lift (set_cell row 0 (value0 report));
  row ← lift (set_cell row 1 (value1 report));
  row ← lift (set_cell row 2 (value2 report));
  row ← lift (set_cell row 3 (value3 report));
  modify (fun s => s <| node_metric_values ::= (fun l => <[Z.to_nat (rp_group report) := row]> l) |>
                     <| node_metrics_mask ::= (fun m => u8 (Z.lor m (u8 (Z.shiftl 1 (rp_group report - 1))))) |>).

(** The six lines of a summary. *)
(* src/server_main.c:411-460 csv_session_summary_if_ready *)
Definition csv_session_summary (s : session_t) : M session_t unit :=
  let root := metrics s in
  let two := Z.lor CSV_VALUE0_SECONDS CSV_VALUE1_SECONDS in
  node_hs0 ← lift (metric_value s PQC_METRICS_GROUP_HS 0);
  node_res0 ← lift (metric_value s PQC_METRICS_GROUP_RES 0);
  csv_event_units (node_id s) "SESSION_HS" (handshake_ticks_last (handshake root)) node_hs0
    (retries (resource root)) node_res0 two;;
  node_pk1 ← lift (metric_value s PQC_METRICS_GROUP_PK 1);
  node_pk3 ← lift (metric_value s PQC_METRICS_GROUP_PK 3);
  csv_event_units (node_id s) "SESSION_PK" (pk_tx_ticks_last (handshake root)) node_pk1
    (pk_tx (handshake root)) node_pk3 two;;
  node_ct0 ← lift (metric_value s PQC_METRICS_GROUP_CT 0);
  node_ct2 ← lift (metric_value s PQC_METRICS_GROUP_CT 2);
  csv_event_units (node_id s) "SESSION_CT" node_ct0 (ct_rx_ticks_last (handshake root))
    node_ct2 (ct_rx_complete (handshake root)) two;;
  node_crypto1 ← lift (metric_value s PQC_METRICS_GROUP_CRYPTO 1);
  node_crypto3 ← lift (metric_value s PQC_METRICS_GROUP_CRYPTO 3);
  csv_event_units (node_id s) "SESSION_CRYPTO" (keypair_ticks_last (handshake root)) node_crypto1
    (decaps_ticks_last (handshake root)) node_crypto3 (Z.lor (Z.lor two CSV_VALUE2_SECONDS) CSV_VALUE3_SECONDS);;
  node_frag2 ← lift (metric_value s PQC_METRICS_GROUP_FRAG 2);
  node_frag3 ← lift (metric_value s PQC_METRICS_GROUP_FRAG 3);
  csv_event (node_id s) "SESSION_FRAG" (nack_tx (fragmentation root)) (nack_rx (fragmentation root)) node_frag2 node_frag3;;
  node_temp0 ← lift (metric_value s PQC_METRICS_GROUP_TEMP 0);
  node_temp1 ← lift (metric_value s PQC_METRICS_GROUP_TEMP 1);
  csv_event (node_id s) "SESSION_TEMP" (temp_rx_ok (temp root)) (temp_rx_fail (temp root)) node_temp0 node_temp1.

(* src/server_main.c:384-463 csv_session_summary_if_ready *)
Definition csv_session_summary_if_ready : M session_t unit :=
  s ← get;
  if negb (session_summary_emitted s =? 0) || negb (session_is_established s) then mret tt else
  if negb (Z.land (node_metrics_mask s) summary_required =? summary_required) then mret tt else
  csv_session_summary s;;
  modify (fun s => s <| session_summary_emitted := 1 |>).

(** ** The observation window *)

(** One iteration of the loop over the sessions. *)
(* src/server_main.c:484-500 impact_start *)
Definition impact_snapshot (target_node_id i : Z) : M root_app unit :=
  a ← get;
  match session_manager_get_by_index i (dv_store (ra_dev a)) with
  | None => mret tt
  | Some r =>
      s ← on_root (session_of r);
      if negb (session_is_established s) || (node_id s =? target_node_id) ||
         (SESSION_MAX_NODES <=? iw_snapshot_count (ra_impact a))
      then mret tt
      else
        _ ← lift (at_index (iw_snapshots (ra_impact a)) (iw_snapshot_count (ra_impact a)));
        let m := temp (metrics s) in
        modify (fun a => a <| ra_impact ::= (fun w =>
          w <| iw_snapshots ::= (fun l => <[Z.to_nat (iw_snapshot_count w) :=
                 mk_impact_snapshot 1 (node_id s) (temp_rx_ok m) (temp_rx_fail m) (temp_counter_resync m) (rx_counter s)]> l) |>
            <| iw_snapshot_count ::= (fun n => u8 (n + 1)) |>) |>)
  end.

(* src/server_main.c:465-508 impact_start *)
Definition impact_start (target_node_id : Z) : M root_app unit :=
  a ← get;
  if negb (iw_active (ra_impact a) =? 0)
  then csv_event (iw_target_node_id (ra_impact a)) "IMPACT_OVERLAP" target_node_id (iw_snapshot_count (ra_impact a)) 0 0
  else
    modify (fun a => a <| ra_impact := impact_zero <| iw_active := 1 |> <| iw_target_node_id := target_node_id |> |>);;
    now ← clock_time;
    modify (fun a => a <| ra_impact ::= (fun w => w <| iw_started_at := u32 now |>) |>);;
    _ ← for_each (R := unit) (upto SESSION_MAX_NODES) (fun i => impact_snapshot target_node_id i;; mret None);
    a ← get;
    csv_event target_node_id "IMPACT_START" (iw_snapshot_count (ra_impact a)) 0 0 0.

(** The lost readings: readings the counter of the session skipped. *)
(* src/server_main.c:549-549 impact_end *)
Definition counter_gap (rx_counter_delta temp_ok_delta : Z) : Z :=
  if temp_ok_delta <? rx_counter_delta then u32 (rx_counter_delta - temp_ok_delta) else 0.

(** One iteration of the loop over the snapshots. *)
(* src/server_main.c:521-563 impact_end *)
Definition impact_report (target_node_id i : Z) : M root_app unit :=
  a ← get;
  snapshot ← lift (at_index (iw_snapshots (ra_impact a)) i);
  if is_active snapshot =? 0 then mret tt else
  match session_manager_find (is_node_id snapshot) (dv_store (ra_dev a)) with
  | None => csv_event (is_node_id snapshot) "IMPACT_NODE_LOST" target_node_id 0 0 0
  | Some r =>
      s ← on_root (session_of r);
      let m := temp (metrics s) in
      let temp_ok_delta := u32 (temp_rx_ok m - is_temp_rx_ok snapshot) in
      let temp_fail_delta := u32 (temp_rx_fail m - is_temp_rx_fail snapshot) in
      let resync_delta := u32 (temp_counter_resync m - is_temp_counter_resync snapshot) in
      let rx_counter_delta := u32 (rx_counter s - is_rx_counter snapshot) in
      csv_event (is_node_id snapshot) "IMPACT_TEMP" target_node_id temp_ok_delta temp_fail_delta
        (counter_gap rx_counter_delta temp_ok_delta);;
      csv_event (is_node_id snapshot) "IMPACT_RESYNC" target_node_id resync_delta rx_counter_delta
        (if session_is_established s then 1 else 0)
  end.

(* src/server_main.c:510-574 impact_end *)
Definition impact_end (target_node_id success : Z) : M root_app unit :=
  a ← get;
  if (iw_active (ra_impact a) =? 0) || negb (iw_target_node_id (ra_impact a) =? target_node_id) then mret tt else
  now ← clock_time;
  let duration := u32 (uclk (now - uclk (iw_started_at (ra_impact a)))) in
  _ ← for_each (R := unit) (upto (iw_snapshot_count (ra_impact a))) (fun i => impact_report target_node_id i;; mret None);
  csv_event_units target_node_id "IMPACT_END" duration (iw_snapshot_count (ra_impact a)) success 0 CSV_VALUE0_SECONDS;;
  modify (fun a => a <| ra_impact := impact_zero |>).

(** ** The receive callback *)

Definition nat_text (node_id : Z) : string := "[PQC] Root node " ++ pretty node_id.

(** [hs_fsm_start(s, ...)], inside an observation window. *)
(* src/server_main.c:637-640 udp_rx_callback *)
Definition start_handshake (r : sref) (node_id : Z) (ctx : pqc_udp_send_ctx_t) : M root_app unit :=
  impact_start node_id;;
  started ← on_root (with_session r (hs_fsm_start (udp_send ctx)));
  if negb (started : bool) then impact_end node_id 0 else mret tt.

(** The end of the old session of a node that asks for the key again. *)
(* src/server_main.c:644-646 udp_rx_callback *)
Definition drop_and_reset (r : sref) (node_id : Z) (sender_addr : uip_ipaddr_t) : M root_app unit :=
  _ ← on_root (dv_on_tx (pqc_tx_drop_node node_id));
  on_root (on_session_at r session_reset);;
  on_root (on_session_at r (session_set_peer_addr sender_addr)).

(* src/server_main.c:623-656 udp_rx_callback *)
Definition root_getpk (r : sref) (node_id msg_id : Z) (sender_addr : uip_ipaddr_t) : M root_app unit :=
  let ctx := mk_send_ctx (Some root_udp_conn) (Some sender_addr) in
  on_root (on_session_at r (hs_stat (fun m => m <| getpk_rx ::= inc32 |>)));;
  s ← on_root (session_of r);
  (if session_is_failed s then
     log (nat_text node_id ++ ": GETPK received after failure, restarting handshake");;
     csv_event node_id "GETPK_AFTER_FAIL" (retry_count s) 0 0 0;;
     drop_and_reset r node_id sender_addr
   else mret tt);;
  s ← on_root (session_of r);
  if bool_decide (state s = SESSION_STATE_IDLE) then
    log ("GETPK recibida del nodo " ++ pretty node_id);;
    csv_event node_id "GETPK_ACCEPT" msg_id 0 0 0;;
    log ("Enviando PK al nodo " ++ pretty node_id);;
    start_handshake r node_id ctx
  else if bool_decide (state s = SESSION_STATE_WAIT_CT) || session_is_established s then
    log (nat_text node_id ++ ": GETPK received in state=" ++ pretty (state_value (state s)) ++ ", restarting handshake");;
    csv_event node_id "GETPK_RESTART" (state_value (state s)) msg_id 0 0;;
    drop_and_reset r node_id sender_addr;;
    log ("Enviando PK al nodo " ++ pretty node_id);;
    start_handshake r node_id ctx
  else
    log (nat_text node_id ++ ": GETPK ignored in state=" ++ pretty (state_value (state s)));;
    csv_event node_id "GETPK_IGNORE" (state_value (state s)) msg_id 0 0.

(** The first fragment of a ciphertext answers the public key. *)
(* src/server_main.c:659-670 udp_rx_callback *)
Definition root_ct_started (r : sref) (node_id msg_type msg_id : Z) : M root_app unit :=
  s ← on_root (session_of r);
  if (msg_type =? PQC_MSG_CT) && bool_decide (state s = SESSION_STATE_WAIT_CT) && (pending_msg_type s =? PQC_MSG_PK) then
    dropped ← on_root (dv_on_tx (pqc_tx_drop node_id PQC_MSG_PK (pending_msg_id s)));
    log (nat_text node_id ++ ": CT started, clearing pending PK retry, dropped=" ++ pretty dropped);;
    log ("Recibiendo CT del nodo " ++ pretty node_id);;
    csv_event node_id "CT_RX_START" msg_id dropped 0 0;;
    now ← clock_time;
    on_root (on_session_at r (hs_stat (fun m => m <| ct_rx_started_at := u32 now |> <| ct_rx_completed_at := 0 |>);;
                              session_set_pending PQC_MSG_CT msg_id))
  else mret tt.

(* src/server_main.c:673-683 udp_rx_callback *)
Definition root_temp (r : sref) (node_id msg_id : Z) (data : bytes) (datalen : Z) : M root_app unit :=
  measurement ← on_root (on_session_at r (pqc_handle_encrypted_temp data datalen));
  match measurement with
  | Some measurement =>
      log ("Temp nodo " ++ pretty node_id ++ ": ");;
      print_measurement (tp_rh_milli measurement) (tp_temp_milli measurement);;
      csv_temp node_id measurement
  | None =>
      log (nat_text node_id ++ ": encrypted TEMP decrypt failed");;
      csv_event node_id "TEMP_DECRYPT_FAIL" msg_id datalen 0 0
  end.

(** The test on a metrics datagram and its report. *)
(* src/server_main.c:689-695 udp_rx_callback *)
Definition root_report (data : bytes) (datalen : Z) : option (option pqc_metrics_report_t) :=
  if negb (datalen =? PQC_HEADER_LEN + PQC_METRICS_REPORT_LEN) then Some None else
  idx ← cell data PQC_HDR_FRAG_IDX;
  if negb (idx =? 0) then Some None else
  total ← cell data PQC_HDR_TOTAL_FRAGS;
  if negb (total =? 1) then Some None else
  len ← cell data PQC_HDR_PAYLOAD_LEN;
  if negb (len =? PQC_METRICS_REPORT_LEN) then Some None else
  pqc_metrics_decode_report (Some (drop (Z.to_nat PQC_HEADER_LEN) data)) len.

(* src/server_main.c:686-706 udp_rx_callback *)
Definition root_metrics (r : sref) (node_id msg_id : Z) (data : bytes) (datalen : Z) : M root_app unit :=
  report ← lift (root_report data datalen);
  match report with
  | Some report =>
      csv_node_metrics node_id report;;
      on_root (on_session_at r (session_store_node_metrics report));;
      on_root (on_session_at r csv_session_summary_if_ready)
  | None =>
      log (nat_text node_id ++ ": invalid metrics report len=" ++ pretty datalen);;
      csv_event node_id "NODE_METRICS_INVALID" datalen msg_id 0 0
  end.

(** A fragment of the handshake, and what follows when it completes it. *)
(* src/server_main.c:708-713 udp_rx_callback *)
Definition root_fragment (r : sref) (sender_addr : uip_ipaddr_t) (was_established : bool) (data : bytes) (datalen : Z)
    : M root_app unit :=
  _ ← on_root (with_session r (hs_fsm_handle_fragment
        (udp_send (mk_send_ctx (Some root_udp_conn) (Some sender_addr))) r data datalen));
  s ← on_root (session_of r);
  if negb was_established && session_is_established s then
    csv_hs_summary s "HS_SUCCESS";;
    impact_end (node_id s) 1;;
    on_root (on_session_at r csv_session_summary_if_ready)
  else mret tt.

(** The part of the callback that follows the choice of the session. *)
(* src/server_main.c:616-714 udp_rx_callback *)
Definition root_dispatch (r : sref) (node_id msg_type msg_id : Z) (sender_addr : uip_ipaddr_t) (data : bytes) (datalen : Z)
    : M root_app unit :=
  on_root (on_session_at r (session_set_peer_addr sender_addr));;
  s ← on_root (session_of r);
  let was_established := session_is_established s in
  if msg_type =? PQC_MSG_GETPK then root_getpk r node_id msg_id sender_addr else
  root_ct_started r node_id msg_type msg_id;;
  if msg_type =? PQC_MSG_TEMP then root_temp r node_id msg_id data datalen else
  if msg_type =? PQC_MSG_METRICS then root_metrics r node_id msg_id data datalen else
  root_fragment r sender_addr was_established data datalen.

(** [data] is not [NULL]. *)
(* src/server_main.c:576-714 udp_rx_callback *)
Definition root_rx_callback (sender_addr : uip_ipaddr_t) (data : bytes) (datalen : Z) : M root_app unit :=
  valid ← lift (pqc_header_valid (Some data) datalen);
  if negb valid then
    log ("[PQC] Root RX invalid packet len=" ++ pretty datalen);;
    csv_event SESSION_INVALID_NODE_ID "RX_INVALID" datalen 0 0 0
  else
    msg_type ← lift (cell data PQC_HDR_MSG_TYPE);
    msg_id ← lift (cell data PQC_HDR_MSG_ID);
    node_id ← lift (pqc_header_get_node_id data);
    s ← on_root (dv_on_store (session_manager_get_or_create node_id));
    match s with
    | None =>
        log (nat_text node_id ++ ": no free session slot");;
        csv_event node_id "NO_SESSION_SLOT" 0 0 0 0
    | Some r => root_dispatch r node_id msg_type msg_id sender_addr data datalen
    end.

(** ** The processes *)

(** The start of the process, up to its idle loop.  The reset cause it prints and
    the calls of the stack are left out. *)
(* src/server_main.c:95-128 PQC_process *)
Definition root_boot : M root_app unit :=
  log "[PQC] Root starting";;
  csv_header;;
  csv_event SESSION_INVALID_NODE_ID "ROOT_START" 0 0 0 0;;
  log ("[PQC] Root UDP listening on port " ++ pretty UDP_SERVER_PORT);;
  csv_event SESSION_INVALID_NODE_ID "UDP_LISTEN" UDP_SERVER_PORT 0 0 0;;
  on_root (dv_on_tx pqc_tx_init);;
  on_root (dv_on_store (session_manager_init SESSION_ROLE_ROOT));;
  ready ← on_root (with_session Local hs_fsm_root_init_keypair);
  if negb (ready : bool) then
    log "[PQC] Root keypair init failed; handshakes disabled";;
    csv_event SESSION_INVALID_NODE_ID "ROOT_KEYPAIR_FAIL" 0 0 0 0
  else csv_event SESSION_INVALID_NODE_ID "ROOT_KEYPAIR_READY" 0 0 0 0.

(* src/server_main.c:133-146 PQC_send_process *)
Definition root_send_timer : M root_app unit :=
  _ ← on_root (dv_on_tx pqc_tx_process); mret tt.

(** The end of a session whose handshake failed. *)
(* src/server_main.c:169-176 PQC_retry_process *)
Definition root_failed (r : sref) : M root_app unit :=
  s ← on_root (session_of r);
  log (nat_text (node_id s) ++ ": handshake failed, resetting session");;
  csv_hs_summary s "HS_FAIL";;
  impact_end (node_id s) 0;;
  csv_event (node_id s) "HS_FAIL_RESET" (state_value (state s)) (retry_count s) 0 0;;
  _ ← on_root (dv_on_tx (pqc_tx_drop_node (node_id s)));
  on_root (on_session_at r session_reset).

(** One iteration of the loop over the sessions. *)
(* src/server_main.c:159-178 PQC_retry_process *)
Definition root_retry_session (i : Z) : M root_app unit :=
  a ← get;
  match session_manager_get_by_index i (dv_store (ra_dev a)) with
  | None => mret tt
  | Some r =>
      s ← on_root (session_of r);
      if negb (session_is_established s) && negb (has_peer_addr s =? 0) then
        _ ← on_root (with_session r (hs_fsm_retry
              (udp_send (mk_send_ctx (Some root_udp_conn) (Some (peer_addr s)))) r));
        s ← on_root (session_of r);
        if session_is_failed s then root_failed r else mret tt
      else mret tt
  end.

(* src/server_main.c:148-184 PQC_retry_process *)
Definition root_retry_timer : M root_app unit :=
  _ ← for_each (R := unit) (upto SESSION_MAX_NODES) (fun i => root_retry_session i;; mret None); mret tt.

(** The serial commands are not implemented: [cmd_handler] does nothing. *)
(* src/server_main.c:202-206 cmd_handler *)
Definition cmd_handler (cmd : string) : M root_app unit := mret tt.

(** ** Runs *)

(** What wakes the root after boot. *)
Inductive root_input :=
| RootSendTimer
| RootRetryTimer
| RootSerial (cmd : string)
| RootDatagram (sender_addr : uip_ipaddr_t) (data : bytes) (datalen : Z).

Definition root_handle (i : root_input) : M root_app unit :=
  match i with
  | RootSendTimer => root_send_timer
  | RootRetryTimer => root_retry_timer
  | RootSerial cmd => cmd_handler cmd
  | RootDatagram sender_addr data datalen => root_rx_callback sender_addr data datalen
  end.

Fixpoint root_handle_all (inputs : list root_input) : M root_app unit :=
  match inputs with
  | [] => mret tt
  | i :: inputs => root_handle i;; root_handle_all inputs
  end.

(* src/server_main.c:56-56 AUTOSTART_PROCESSES *)
Definition root_main (inputs : list root_input) : M root_app unit := root_boot;; root_handle_all inputs.

End RootApp.
