(* ===== verification/RootFacts.v ===== *)
(** * Lemmas on the root

    The invariant of the root: its sessions are well formed and one per node, each
    has moved by steps of the protocol machine from a fresh session, and the
    observation window stays inside its array.  Then a rule per part of the
    handlers. *)

From S2P Require Import Prelude Platform Protocol Temperature Fragmentation Metrics CryptoWorker Session TxQueue Telemetry Handshake HandshakeFacts HandshakeRules HandshakeStep HandshakeProps Device RootLog RootApp.

(** Events that leave the session as it is may be inserted. *)
Lemma hs_steps_sublist evs evs' v v' : sublist evs evs' -> hs_steps evs v v' -> hs_steps evs' v v'.
Proof.
  intros Hl. revert v. induction Hl as [|ev evs evs' _ IH|ev evs evs' _ IH]; intros v Hs; [exact Hs| |].
  - inversion Hs as [|? ? ? v1 ? Hone Hrest]; subst. exact (steps_cons _ _ _ _ _ Hone (IH _ Hrest)).
  - exact (steps_cons _ _ _ _ _ (step_stay ev v) (IH _ Hs)).
Qed.

(** A fresh session of the root. *)
Definition view_root : hs_view :=
  mk_view SESSION_ROLE_ROOT SESSION_STATE_IDLE 0 0 0 0 (zeros CW_HQC_SHARED_LEN) (zeros CW_AES_KEY_LEN).

(** The states of a session of the root, and what it waits for in each. *)
Definition root_waits (v : hs_view) : Prop :=
  v_role v = SESSION_ROLE_ROOT /\
  match v_state v with
  | SESSION_STATE_IDLE | SESSION_STATE_FAILED => v_pending v = 0
  | SESSION_STATE_WAIT_CT => (v_pending v = HS_MSG_PK \/ v_pending v = HS_MSG_CT) /\ v_waiting v = 1
  | SESSION_STATE_ESTABLISHED => True
  | _ => False
  end.

Lemma root_waits_step ev v v' : hs_step ev v v' -> root_waits v -> root_waits v'.
Proof.
  intros Hs [Hr Hw]. unfold root_waits.
  destruct Hs; cbn in *; try congruence; split; auto; destruct (v_state v); intuition (discriminate || congruence).
Qed.
Lemma root_waits_steps evs v v' : hs_steps evs v v' -> root_waits v -> root_waits v'.
Proof. induction 1; eauto using root_waits_step. Qed.

(** The events of every node so far. *)
Definition trace : Type := Z -> list hs_event.
Definition trace_add (nid : Z) (l : list hs_event) (t : trace) : trace := fun n => if n =? nid then t n ++ l else t n.

Lemma trace_add_same nid l t : trace_add nid l t nid = t nid ++ l.
Proof. unfold trace_add. rewrite Z.eqb_refl. reflexivity. Qed.
Lemma trace_add_ne nid l t n : n <> nid -> trace_add nid l t n = t n.
Proof. intros Hn. unfold trace_add. rewrite (proj2 (Z.eqb_neq _ _)) by exact Hn. reflexivity. Qed.

Section RootFacts.
Context `{PlatformLaws} `{CryptoLaws}.

(** ** Output *)

(** [n] lines were printed. *)
Definition printed (n : nat) (e e' : env) : Prop := exists lines, length lines = n /\ e_out e' = e_out e ++ lines.

Lemma printed_refl e : printed 0 e e.
Proof. exists []. split; [reflexivity|symmetry; apply app_nil_r]. Qed.
Lemma printed_snoc n e e1 e2 : printed n e e1 -> printed 1 e1 e2 -> printed (S n) e e2.
Proof.
  intros (l & Hl & E1) (k & Hk & E2). exists (l ++ k). rewrite length_app, Hl, Hk, E2, E1, app_assoc. split; [lia|reflexivity].
Qed.

Lemma wp_event_printed {S} Q nid event v0 v1 v2 v3 mask e (s : S) :
  (forall e', printed 1 e e' -> Q tt e' s) -> wp (csv_event_units nid event v0 v1 v2 v3 mask) Q e s.
Proof.
  intros HQ. unfold csv_event_units, log. apply wp_bind, wp_clock_time, wp_emit, HQ.
  eexists [_]. split; reflexivity.
Qed.
Lemma wp_event_units {S} Q nid event v0 v1 v2 v3 mask e (s : S) :
  (forall e', Q tt e' s) -> wp (csv_event_units nid event v0 v1 v2 v3 mask) Q e s.
Proof. intros HQ. apply wp_event_printed. auto. Qed.
Lemma wp_event {S} Q nid event v0 v1 v2 v3 e (s : S) :
  (forall e', Q tt e' s) -> wp (csv_event nid event v0 v1 v2 v3) Q e s.
Proof. apply wp_event_units. Qed.
Lemma wp_log {S} Q text e (s : S) : (forall e', Q tt e' s) -> wp (log text) Q e s.
Proof. intros HQ. apply wp_emit, HQ. Qed.
Lemma wp_hs_summary {S} Q x event e (s : S) : (forall e', Q tt e' s) -> wp (csv_hs_summary x event) Q e s.
Proof.
  intros HQ. unfold csv_hs_summary. apply wp_bind, wp_event_units. intros e1. apply wp_bind, wp_event_units. intros e2.
  apply wp_bind, wp_event_units. intros e3. apply wp_event_units, HQ.
Qed.

(** ** The invariant *)

Record session_follows (t : trace) (s : session_t) : Prop := {
  sf_waits : root_waits (view s);
  sf_view : view_inv (view s);
  sf_steps : hs_steps (t (node_id s)) view_root (view s);
}.

Lemma follows_step t s s' l :
  session_follows t s -> node_id s' = node_id s -> hs_steps l (view s) (view s') ->
  session_follows (trace_add (node_id s) l t) s'.
Proof.
  intros [Hw Hv Hs] Hn Hl. constructor.
  - exact (root_waits_steps _ _ _ Hl Hw).
  - exact (steps_inv _ _ _ Hl Hv).
  - rewrite Hn, trace_add_same. exact (hs_steps_app _ _ _ _ _ Hs Hl).
Qed.

Definition impact_wf (w : impact_window_t) : Prop :=
  Z.of_nat (length (iw_snapshots w)) = SESSION_MAX_NODES /\ 0 <= iw_snapshot_count w <= SESSION_MAX_NODES.

Record root_inv (t : trace) (a : root_app) : Prop := {
  ri_dev : device_wf (ra_dev a);
  ri_impact : impact_wf (ra_impact a);
  ri_sessions : forall i s, sessions (dv_store (ra_dev a)) !! i = Some s -> used s <> 0 -> session_follows t s;
}.

Lemma root_inv_weaken t t' a : (forall n, sublist (t n) (t' n)) -> root_inv t a -> root_inv t' a.
Proof.
  intros Ht [Hd Hi Hs]. constructor; try assumption. intros i s Hsi Hu. destruct (Hs i s Hsi Hu) as [Hw Hv Hst].
  constructor; [exact Hw|exact Hv|]. exact (hs_steps_sublist _ _ _ _ (Ht _) Hst).
Qed.

(** A handler at work on the session in slot [i]; [a0] is the root as the handler
    found it. *)
Record root_at (t : trace) (a0 : root_app) (i : nat) (nid : Z) (a : root_app) (s : session_t) : Prop := {
  at_inv : root_inv t a;
  at_slot : sessions (dv_store (ra_dev a)) !! i = Some s;
  at_used : used s <> 0;
  at_node : node_id s = nid;
  at_others : forall j, j <> i -> sessions (dv_store (ra_dev a)) !! j = sessions (dv_store (ra_dev a0)) !! j;
}.

Lemma at_follows t a0 i nid a s : root_at t a0 i nid a s -> session_follows t s.
Proof. intros Ha. exact (ri_sessions _ _ (at_inv _ _ _ _ _ _ Ha) i s (at_slot _ _ _ _ _ _ Ha) (at_used _ _ _ _ _ _ Ha)). Qed.
Lemma at_role t a0 i nid a s : root_at t a0 i nid a s -> role s = SESSION_ROLE_ROOT.
Proof. intros Ha. exact (proj1 (sf_waits _ _ (at_follows _ _ _ _ _ _ Ha))). Qed.
Lemma at_named t a0 i nid a s : root_at t a0 i nid a s -> unnamed s = false.
Proof. intros Ha. unfold unnamed, session_is_node. rewrite (at_role _ _ _ _ _ _ Ha). reflexivity. Qed.
Lemma at_wf t a0 i nid a s : root_at t a0 i nid a s -> session_wf s.
Proof. intros [[(Hst & _) _ _] Hs _ _ _]. exact (deref_wf _ (Slot i) _ Hst Hs). Qed.

(** The session of slot [i] changes by steps of the machine. *)
Lemma root_at_changed t a0 i nid a s d' s' l (a' := a <| ra_dev := d' |>) :
  root_at t a0 i nid a s -> session_changed (Slot i) (ra_dev a) s d' s' -> hs_steps l (view s) (view s') ->
  root_at (trace_add nid l t) a0 i nid a' s'.
Proof.
  intros Ha [Hd' Hs' (Hu & _ & Hn) Hoth _] Hl. pose proof (at_named _ _ _ _ _ _ Ha) as Hnm. specialize (Hn Hnm).
  destruct Ha as [[Hd Hi Hss] Hs Hus Hid Hothers]. cbn in Hs'.
  constructor; [constructor|exact Hs'|rewrite Hu; exact Hus|rewrite Hn; exact Hid|].
  - exact Hd'.
  - exact Hi.
  - intros j sj Hj Huj. change (sessions (dv_store d') !! j = Some sj) in Hj. destruct (decide (j = i)) as [->|Hne].
    + rewrite Hs' in Hj. injection Hj as <-. rewrite <- Hid. apply (follows_step t s s' l); auto. exact (Hss i s Hs Hus).
    + pose proof (Hoth (Slot j) ltac:(congruence)) as E. cbn in E. rewrite E in Hj.
      destruct (Hss j sj Hj Huj) as [Hw Hv Hst]. constructor; [exact Hw|exact Hv|].
      rewrite trace_add_ne; [exact Hst|]. intros Heq. apply Hne. destruct Hd as [Hwf _].
      exact (tw_unique _ Hwf j i sj s Hj Hs Huj Hus (eq_trans Heq (eq_sym Hid))).
  - intros j Hj. pose proof (Hoth (Slot j) ltac:(congruence)) as E. cbn in E.
    change (sessions (dv_store d') !! j = sessions (dv_store (ra_dev a0)) !! j). rewrite E. exact (Hothers j Hj).
Qed.

Lemma trace_add_nil nid t n : trace_add nid [] t n = t n.
Proof. unfold trace_add. case_if; [apply app_nil_r|reflexivity]. Qed.

(** A change that the machine does not see. *)
Lemma root_at_quiet t a0 i nid a s d' s' (a' := a <| ra_dev := d' |>) :
  root_at t a0 i nid a s -> session_changed (Slot i) (ra_dev a) s d' s' -> view s' = view s -> root_at t a0 i nid a' s'.
Proof.
  intros Ha Hc Hv. pose proof (root_at_changed t a0 i nid a s d' s' [] Ha Hc ltac:(rewrite Hv; constructor)) as [Hinv Hs Hu Hn Ho].
  constructor; try assumption. eapply root_inv_weaken; [|exact Hinv]. intros n. rewrite trace_add_nil. reflexivity.
Qed.

Lemma root_at_impact t a0 i nid a s w (a' := a <| ra_impact := w |>) :
  root_at t a0 i nid a s -> impact_wf w -> root_at t a0 i nid a' s.
Proof. intros [[] Hs Hu Hn Ho] Hw. constructor; [constructor|..]; assumption. Qed.

Lemma root_at_tx t a0 i nid a s q (a' := a <| ra_dev := (ra_dev a) <| dv_tx := q |> |>) :
  root_at t a0 i nid a s -> tx_wf q -> root_at t a0 i nid a' s.
Proof. intros [[(Hst & _ & Hh) Hi Hss] Hs Hu Hn Ho] Hq. constructor; [constructor|..]; try assumption. split_and!; assumption. Qed.

(** ** Rules *)

Lemma wp_on_root {A} (m : M device A) Q e a :
  wp m (fun x e' d' => Q x e' (a <| ra_dev := d' |>)) e (ra_dev a) -> wp (on_root m) Q e a.
Proof. intros Hm. apply wp_zoom. exact Hm. Qed.

Lemma wp_root_read Q t a0 i nid a s e :
  root_at t a0 i nid a s -> Q s e a -> wp (on_root (session_of (Slot i))) Q e a.
Proof. intros Ha HQ. apply wp_on_root. eapply wp_session_of; [exact (at_slot _ _ _ _ _ _ Ha)|]. destruct a. exact HQ. Qed.

(** An operation on the session alone. *)
Lemma wp_root_session {A} Q t a0 i nid a s (m : M session_t A) l e :
  root_at t a0 i nid a s ->
  wp m (fun x e' s' => session_wf s' /\ same_owner s s' /\ hs_steps l (view s) (view s') /\
    forall a', root_at (trace_add nid l t) a0 i nid a' s' -> dv_tx (ra_dev a') = dv_tx (ra_dev a) ->
      dv_hs (ra_dev a') = dv_hs (ra_dev a) -> Q x e' a') e s ->
  wp (on_root (on_session_at (Slot i) m)) Q e a.
Proof.
  intros Ha Hm. apply wp_on_root. eapply wp_device_session; [apply Ha|exact (at_slot _ _ _ _ _ _ Ha)|right; exact (at_named _ _ _ _ _ _ Ha)|].
  eapply wp_mono; [|exact Hm]. intros x e' s' (Hw & Ho & Hl & HQ). split; [exact Hw|]. split; [exact Ho|].
  intros d' Hc Ed. injection Ed as E1 E2 _. apply HQ; [exact (root_at_changed t a0 i nid a s d' s' l Ha Hc Hl)|exact E1|exact E2].
Qed.

Lemma wp_root_quiet {A} Q t a0 i nid a s (m : M session_t A) e :
  root_at t a0 i nid a s ->
  wp m (fun x e' s' => session_wf s' /\ same_owner s s' /\ view s' = view s /\
    forall a', root_at t a0 i nid a' s' -> dv_tx (ra_dev a') = dv_tx (ra_dev a) ->
      dv_hs (ra_dev a') = dv_hs (ra_dev a) -> Q x e' a') e s ->
  wp (on_root (on_session_at (Slot i) m)) Q e a.
Proof.
  intros Ha Hm. apply wp_on_root. eapply wp_device_session; [apply Ha|exact (at_slot _ _ _ _ _ _ Ha)|right; exact (at_named _ _ _ _ _ _ Ha)|].
  eapply wp_mono; [|exact Hm]. intros x e' s' (Hw & Ho & Hl & HQ). split; [exact Hw|]. split; [exact Ho|].
  intros d' Hc Ed. injection Ed as E1 E2 _. apply HQ; [exact (root_at_quiet t a0 i nid a s d' s' Ha Hc Hl)|exact E1|exact E2].
Qed.

(** A handshake call. *)
Lemma wp_root_call Q t a0 i nid a s ctx c e :
  root_at t a0 i nid a s -> call_ok c ->
  (forall b e' a' s', root_at (trace_add nid [call_event c] t) a0 i nid a' s' -> Q b e' a') ->
  wp (on_root (with_session (Slot i) (hs_exec ctx (Slot i) c))) Q e a.
Proof.
  intros Ha Hc HQ. apply wp_on_root.
  eapply wp_device_call; [apply Ha|exact (at_slot _ _ _ _ _ _ Ha)|exact Hc|right; exact (at_named _ _ _ _ _ _ Ha)|].
  intros b e' d' s' Hch Hst _. apply (HQ b e' _ s'). eapply root_at_changed; [exact Ha|exact Hch|].
  eapply steps_cons; [exact Hst|constructor].
Qed.

(** ** The observation window *)

Lemma impact_zero_wf : impact_wf impact_zero.
Proof. split; [reflexivity|]. cbn. clia. Qed.

Definition with_impact (a : root_app) (w : impact_window_t) : root_app := a <| ra_impact := w |>.
Lemma with_impact_id a : with_impact a (ra_impact a) = a.
Proof. destruct a. reflexivity. Qed.

Lemma by_index_some i st r :
  session_manager_get_by_index i st = Some r -> 0 <= i ->
  exists s, r = Slot (Z.to_nat i) /\ sessions st !! Z.to_nat i = Some s /\ used s <> 0.
Proof.
  unfold session_manager_get_by_index. case_if; [discriminate|]. destruct (sessions st !! Z.to_nat i) as [s|]; [|discriminate].
  destruct (Z.eqb_spec (used s) 0); [discriminate|]. intros [= <-]. eauto.
Qed.

(** A loop whose body only changes the window. *)
Lemma wp_impact_loop Q (body : Z -> M root_app unit) n e a w :
  impact_wf w ->
  (forall i e w Q, 0 <= i < n -> impact_wf w -> (forall e' w', impact_wf w' -> Q tt e' (with_impact a w')) ->
     wp (body i) Q e (with_impact a w)) ->
  (forall e' w', impact_wf w' -> Q None e' (with_impact a w')) ->
  wp (for_each (R := unit) (upto n) (fun i => body i;; mret None)) Q e (with_impact a w).
Proof.
  intros Hw Hbody HQ.
  apply (wp_for_each_inv (fun _ a' => exists w', a' = with_impact a w' /\ impact_wf w')); [eauto| |intros e' a' (w' & -> & Hw'); auto].
  intros i e1 a1 Hi (w1 & -> & Hw1). apply wp_bind, Hbody; [apply elem_of_upto, Hi|exact Hw1|].
  intros e2 w2 Hw2. apply wp_ret. eauto.
Qed.

Lemma wp_impact_snapshot Q target i e a w :
  0 <= i -> device_wf (ra_dev a) -> impact_wf w ->
  (forall e' w', impact_wf w' -> Q tt e' (with_impact a w')) -> wp (impact_snapshot target i) Q e (with_impact a w).
Proof.
  intros Hi0 Hd Hw HQ. unfold impact_snapshot. apply wp_bind, wp_get. change (ra_dev (with_impact a w)) with (ra_dev a).
  destruct (session_manager_get_by_index i (dv_store (ra_dev a))) as [r|] eqn:Er; [|apply wp_ret, HQ; auto].
  destruct (by_index_some _ _ _ Er Hi0) as (s & -> & Hs & _).
  apply wp_bind, wp_on_root. eapply wp_session_of; [exact Hs|]. set (a1 := _ <| ra_dev := _ |>).
  assert (E1 : a1 = with_impact a w) by (destruct a; reflexivity). rewrite E1. clear a1 E1.
  change (ra_impact (with_impact a w)) with w. case_if; [apply wp_ret, HQ; auto|]. case_bools.
  destruct Hw as [Hlen Hc]. apply wp_bind, wp_lift.
  destruct (at_index_total (iw_snapshots w) (iw_snapshot_count w)) as [x Hx]; [rewrite Hlen; lia|]. exists x. split; [exact Hx|].
  apply wp_modify. refine (HQ e (w <| iw_snapshots ::= _ |> <| iw_snapshot_count ::= (fun n => u8 (n + 1)) |>) _).
  split; rsimpl; [rewrite length_insert; exact Hlen|]. rewrite u8_id by clia. lia.
Qed.

Lemma wp_impact_start Q target e a :
  device_wf (ra_dev a) -> impact_wf (ra_impact a) ->
  (forall e' w, impact_wf w -> Q tt e' (with_impact a w)) -> wp (impact_start target) Q e a.
Proof.
  intros Hd Hw HQ. unfold impact_start. apply wp_bind, wp_get. case_if.
  { apply wp_event. intros e'. rewrite <- (with_impact_id a). apply HQ, Hw. }
  apply wp_bind, wp_modify, wp_bind, wp_clock_time, wp_bind, wp_modify, wp_bind.
  match goal with |- wp _ _ _ ?a1 => change a1 with (with_impact a (impact_zero <| iw_active := 1 |> <| iw_target_node_id := target |>
    <| iw_started_at := u32 (uclk (e_clock e (e_reads e))) |>)) end.
  apply wp_impact_loop; [exact impact_zero_wf| |].
  - intros i e1 w1 Q1 Hi Hw1 HQ1. apply wp_impact_snapshot; [lia|exact Hd|exact Hw1|exact HQ1].
  - intros e1 w1 Hw1. apply wp_bind, wp_get, wp_event. intros e2. apply HQ, Hw1.
Qed.

Lemma wp_impact_report Q target i e a :
  device_wf (ra_dev a) -> impact_wf (ra_impact a) -> 0 <= i < SESSION_MAX_NODES ->
  (forall e', Q tt e' a) -> wp (impact_report target i) Q e a.
Proof.
  intros Hd [Hlen _] Hi HQ. unfold impact_report. apply wp_bind, wp_get, wp_bind, wp_lift.
  destruct (at_index_total (iw_snapshots (ra_impact a)) i) as [x Hx]; [rewrite Hlen; exact Hi|]. exists x. split; [exact Hx|].
  case_if; [apply wp_ret, HQ|]. destruct (session_manager_find (is_node_id x) (dv_store (ra_dev a))) as [r|] eqn:Ef.
  - apply find_some in Ef as (j & s & -> & Hs & _ & _). apply wp_bind, wp_on_root. eapply wp_session_of; [exact Hs|].
    set (a1 := _ <| ra_dev := _ |>). assert (E1 : a1 = a) by (destruct a; reflexivity). rewrite E1.
    apply wp_bind, wp_event. intros e1. apply wp_event, HQ.
  - apply wp_event, HQ.
Qed.

Lemma wp_impact_end Q target success e a :
  device_wf (ra_dev a) -> impact_wf (ra_impact a) ->
  (forall e' w, impact_wf w -> Q tt e' (with_impact a w)) -> wp (impact_end target success) Q e a.
Proof.
  intros Hd Hw HQ. unfold impact_end. apply wp_bind, wp_get. case_if.
  { apply wp_ret. rewrite <- (with_impact_id a). apply HQ, Hw. }
  apply wp_bind, wp_clock_time, wp_bind.
  apply (wp_for_each_inv (fun _ a' => a' = a)); [reflexivity| |].
  - intros i e1 a1 Hi ->. apply elem_of_upto in Hi. destruct Hw as [Hlen Hc].
    apply wp_bind, wp_impact_report; [exact Hd|split; assumption|lia|]. intros e2. apply wp_ret. reflexivity.
  - intros e1 a1 ->. apply wp_bind, wp_event_units. intros e2. apply wp_modify. exact (HQ _ impact_zero impact_zero_wf).
Qed.

Lemma wp_at_impact_start Q t a0 i nid a s target e :
  root_at t a0 i nid a s ->
  (forall e' a', root_at t a0 i nid a' s -> ra_dev a' = ra_dev a -> Q tt e' a') -> wp (impact_start target) Q e a.
Proof.
  intros Ha HQ. pose proof (at_inv _ _ _ _ _ _ Ha) as Hi. apply wp_impact_start; [apply Hi|apply Hi|].
  intros e' w Hw. apply HQ; [exact (root_at_impact _ _ _ _ _ _ w Ha Hw)|reflexivity].
Qed.
Lemma wp_at_impact_end Q t a0 i nid a s target success e :
  root_at t a0 i nid a s ->
  (forall e' a', root_at t a0 i nid a' s -> ra_dev a' = ra_dev a -> Q tt e' a') -> wp (impact_end target success) Q e a.
Proof.
  intros Ha HQ. pose proof (at_inv _ _ _ _ _ _ Ha) as Hi. apply wp_impact_end; [apply Hi|apply Hi|].
  intros e' w Hw. apply HQ; [exact (root_at_impact _ _ _ _ _ _ w Ha Hw)|reflexivity].
Qed.

(** ** The parts of the callback *)

Lemma wp_root_peer Q t a0 i nid a s addr e :
  root_at t a0 i nid a s ->
  (forall e' a' s', root_at t a0 i nid a' s' -> view s' = view s -> rx_counter s' = rx_counter s ->
     dv_tx (ra_dev a') = dv_tx (ra_dev a) -> dv_hs (ra_dev a') = dv_hs (ra_dev a) -> Q tt e' a') ->
  wp (on_root (on_session_at (Slot i) (session_set_peer_addr addr))) Q e a.
Proof.
  intros Ha HQ. eapply wp_root_quiet; [exact Ha|]. pose proof (at_wf _ _ _ _ _ _ Ha) as Hs.
  unfold session_set_peer_addr, session_touch. wp_steps. split_and!.
  - destruct Hs. session_wf_tac.
  - split_and!; rsimpl; reflexivity.
  - reflexivity.
  - intros a' Ha' Hq Hh. eapply HQ; [exact Ha'|reflexivity|reflexivity|exact Hq|exact Hh].
Qed.

Lemma reset_view_root s t : role s = SESSION_ROLE_ROOT -> view (reset_session s t) = view_root.
Proof. intros Hr. unfold view, reset_session, view_root. case_if; rsimpl; cbn; rewrite Hr; reflexivity. Qed.

Lemma wp_root_reset Q t a0 i nid a s e :
  root_at t a0 i nid a s ->
  (forall e' a' s', root_at (trace_add nid [EvReset] t) a0 i nid a' s' -> view s' = view_root ->
     dv_tx (ra_dev a') = dv_tx (ra_dev a) -> dv_hs (ra_dev a') = dv_hs (ra_dev a) -> Q tt e' a') ->
  wp (on_root (on_session_at (Slot i) session_reset)) Q e a.
Proof.
  intros Ha HQ. pose proof (at_wf _ _ _ _ _ _ Ha) as Hs. pose proof (at_role _ _ _ _ _ _ Ha) as Hr.
  eapply wp_root_session; [exact Ha|]. apply wp_session_reset; [exact Hs|]. intros e' s' E. rewrite E.
  generalize (last_activity s') as now. intros now. split_and!.
  - apply reset_session_wf, Hs.
  - destruct (sw_used _ Hs) as [Hu|Hu]; [contradiction (at_used _ _ _ _ _ _ Ha Hu)|].
    unfold same_owner. rewrite Hu. unfold reset_session. case_if; split_and!; reflexivity || (intros _; reflexivity).
  - eapply steps_cons; [|constructor]. rewrite (reset_view_root s now Hr). unfold view_root. rewrite <- Hr.
    apply (step_reset (view s)). cbn. congruence.
  - intros a' Ha' Hq Hh. eapply HQ; [exact Ha'|exact (reset_view_root s now Hr)|exact Hq|exact Hh].
Qed.

(** The end of a node's old session. *)
Lemma wp_drop_and_reset Q t a0 i nid a s addr e :
  root_at t a0 i nid a s ->
  (forall e' a' s', root_at (trace_add nid [EvReset] t) a0 i nid a' s' -> view s' = view_root ->
     pending (dv_tx (ra_dev a')) = filter (fun x => entry_of_node nid x = false) (pending (dv_tx (ra_dev a))) ->
     dv_hs (ra_dev a') = dv_hs (ra_dev a) -> Q tt e' a') ->
  wp (drop_and_reset (Slot i) nid addr) Q e a.
Proof.
  intros Ha HQ. unfold drop_and_reset. pose proof (ri_dev _ _ (at_inv _ _ _ _ _ _ Ha)) as (_ & Hq & _).
  apply wp_bind, wp_on_root, wp_zoom, wp_tx_drop_node; [exact Hq|]. intros r q1 (Hq1 & _ & Hp & _).
  pose proof (root_at_tx t a0 i nid a s q1 Ha Hq1) as Ha1.
  apply wp_bind. eapply wp_root_reset; [exact Ha1|]. intros e2 a2 s2 Ha2 Hv2 Et Eh.
  eapply wp_root_peer; [exact Ha2|]. intros e3 a3 s3 Ha3 Hv3 _ Et3 Eh3. eapply HQ; [exact Ha3|congruence|rewrite Et3, Et; exact Hp|rewrite Eh3, Eh; reflexivity].
Qed.

(** The start of a handshake, inside a window. *)
Lemma wp_start_handshake Q t a0 i nid a s addr e :
  root_at t a0 i nid a s ->
  (forall e' a' s', root_at (trace_add nid [EvStart] t) a0 i nid a' s' ->
     (root_has_keypair (dv_hs (ra_dev a)) <> 0 -> tx_count (dv_tx (ra_dev a)) + 36 <= PQC_TX_QUEUE_SIZE ->
        state s' = SESSION_STATE_WAIT_CT /\ exists mid,
        pending (dv_tx (ra_dev a')) ≡ₚ (pkt_entry root_udp_conn addr <$> pk_packets s (dv_hs (ra_dev a)) mid) ++
          pending (dv_tx (ra_dev a))) -> Q tt e' a') ->
  wp (start_handshake (Slot i) nid (mk_send_ctx (Some root_udp_conn) (Some addr))) Q e a.
Proof.
  intros Ha HQ. unfold start_handshake. apply wp_bind. eapply wp_at_impact_start; [exact Ha|]. intros e1 a1 Ha1 Ed.
  apply wp_bind, wp_on_root. eapply wp_with_session; [exact (at_slot _ _ _ _ _ _ Ha1)|].
  pose proof (at_wf _ _ _ _ _ _ Ha1) as Hs. pose proof (at_role _ _ _ _ _ _ Ha1) as Hr.
  pose proof (ri_dev _ _ (at_inv _ _ _ _ _ _ Ha1)) as Hd. destruct Hd as (Hst & Hq & Hh).
  apply wp_start; [exact Hs|exact Hq|exact Hh|]. intros r e2 s2 q2 h2 g2 Hs2 Hq2 Hh2 Hstd.
  pose proof (session_changed_put (Slot i) (ra_dev a1) s (mk_hs_world s2 q2 h2 g2) (conj Hst (conj Hq Hh)) (at_slot _ _ _ _ _ _ Ha1)
    (conj Hs2 (conj Hq2 Hh2)) (started_owner _ _ _ _ _ _ _ _ _ _ Hstd) (or_intror (at_named _ _ _ _ _ _ Ha1))) as Hch.
  pose proof (root_at_changed t a0 i nid a1 s _ _ [EvStart] Ha1 Hch (steps_cons _ _ _ _ _ (started_step _ _ _ _ _ _ _ _ _ _ Hstd) (steps_nil _))) as Ha2.
  cbn [hw_s] in Ha2. set (a2 := a1 <| ra_dev := _ |>) in *.
  assert (Hgood : root_has_keypair (dv_hs (ra_dev a)) <> 0 -> tx_count (dv_tx (ra_dev a)) + 36 <= PQC_TX_QUEUE_SIZE ->
    state s2 = SESSION_STATE_WAIT_CT /\ exists mid,
    pending q2 ≡ₚ (pkt_entry root_udp_conn addr <$> pk_packets s (dv_hs (ra_dev a)) mid) ++ pending (dv_tx (ra_dev a))).
  { intros Hk Hroom. rewrite <- Ed in *. unfold started in Hstd. rewrite Hr in Hstd.
    destruct Hstd as (made & s1 & Hmade & [C1 N1] & Hsent). unfold keypair_made in Hmade. rsimpl.
    rewrite (proj2 (Z.eqb_neq _ _)) in Hmade by exact Hk. destruct Hmade as (-> & -> & ->).
    destruct Hsent as (_ & Hprog & Hsent). specialize (Hprog eq_refl Hroom). subst r.
    destruct Hsent as (C & conn & dest & [= <- <-] & Hp). destruct (chatter_fields _ _ C) as [[= _ _ _ Fs _ _ _] _].
    split; [exact Fs|]. exists (next_msg_id s1). rewrite Hp. unfold pk_packets. rewrite (chatter_id _ _ C1). reflexivity. }
  destruct r; cbn [negb].
  - apply wp_ret. apply (HQ e2 a2 s2 Ha2). exact Hgood.
  - eapply wp_at_impact_end; [exact Ha2|]. intros e3 a3 Ha3 Ed3. apply (HQ e3 a3 s2 Ha3). rewrite Ed3. exact Hgood.
Qed.

Lemma root_at_weaken t t' a0 i nid a s :
  (forall n, sublist (t n) (t' n)) -> root_at t a0 i nid a s -> root_at t' a0 i nid a s.
Proof. intros Ht [Hi Hs Hu Hn Ho]. constructor; try assumption. exact (root_inv_weaken _ _ _ Ht Hi). Qed.

Lemma trace_add_sublist nid l1 l2 t t' :
  (forall n, sublist (t n) (t' n)) -> sublist l1 l2 -> forall n, sublist (trace_add nid l1 t n) (trace_add nid l2 t' n).
Proof. intros Ht Hl n. unfold trace_add. case_if; [|apply Ht]. apply sublist_app; [apply Ht|exact Hl]. Qed.

Lemma trace_add_add nid l1 l2 t n : trace_add nid l2 (trace_add nid l1 t) n = trace_add nid (l1 ++ l2) t n.
Proof. unfold trace_add. case_if; [rewrite app_assoc|]; reflexivity. Qed.

(** Statistics. *)
Lemma wp_root_stat Q t a0 i nid a s (m : M session_t unit) e :
  root_at t a0 i nid a s ->
  (forall Q' e, (forall e' s', chatter s s' -> Q' tt e' s') -> wp m Q' e s) ->
  (forall e' a' s', root_at t a0 i nid a' s' -> chatter s s' -> dv_tx (ra_dev a') = dv_tx (ra_dev a) ->
     dv_hs (ra_dev a') = dv_hs (ra_dev a) -> Q tt e' a') ->
  wp (on_root (on_session_at (Slot i) m)) Q e a.
Proof.
  intros Ha Hm HQ. eapply wp_root_quiet; [exact Ha|]. apply Hm. intros e' s' C.
  split_and!; [exact (chatter_wf _ _ C)|exact (chatter_owner _ _ C)|exact (view_chatter _ _ C)|].
  intros a' Ha' Hq Hh. eapply HQ; eassumption.
Qed.

(** What the root queues for a node that asks for its key: the public key, after what
    was left of an old session is dropped. *)
Definition key_sent (a : root_app) (nid : Z) (addr : uip_ipaddr_t) (fresh : bool) (a' : root_app) : Prop :=
  exists mid, pending (dv_tx (ra_dev a')) ≡ₚ
    (pkt_entry root_udp_conn addr <$> frag_packets (root_pk (dv_hs (ra_dev a))) CW_HQC_PUBLIC_KEY_LEN HS_MSG_PK nid mid PQC_FLAG_NONE) ++
    (if fresh then pending (dv_tx (ra_dev a)) else filter (fun x => entry_of_node nid x = false) (pending (dv_tx (ra_dev a)))).

Lemma wp_start_key Q t a0 i nid a s addr e (kept : list pqc_tx_entry_t) pk :
  root_at t a0 i nid a s -> pending (dv_tx (ra_dev a)) = kept -> root_pk (dv_hs (ra_dev a)) = pk ->
  (forall e' a' s', root_at (trace_add nid [EvStart] t) a0 i nid a' s' ->
     (root_has_keypair (dv_hs (ra_dev a)) <> 0 -> Z.of_nat (length kept) + 36 <= PQC_TX_QUEUE_SIZE ->
        state s' = SESSION_STATE_WAIT_CT /\ exists mid, pending (dv_tx (ra_dev a')) ≡ₚ
          (pkt_entry root_udp_conn addr <$> frag_packets pk CW_HQC_PUBLIC_KEY_LEN HS_MSG_PK nid mid PQC_FLAG_NONE) ++ kept) ->
     Q tt e' a') ->
  wp (start_handshake (Slot i) nid (mk_send_ctx (Some root_udp_conn) (Some addr))) Q e a.
Proof.
  intros Ha <- <- HQ. eapply wp_start_handshake; [exact Ha|]. intros e' a' s' Ha' Hgood. apply (HQ e' a' s' Ha').
  pose proof (ri_dev _ _ (at_inv _ _ _ _ _ _ Ha)) as (_ & Hq & _). intros Hk Hroom. rewrite <- (qw_count _ Hq) in Hroom.
  destruct (Hgood Hk Hroom) as (Hst & mid & Hp). split; [exact Hst|]. exists mid. rewrite Hp. unfold pk_packets.
  rewrite (at_node _ _ _ _ _ _ Ha). reflexivity.
Qed.

Lemma wp_root_getpk Q t a0 i nid a s msg_id addr e :
  root_at t a0 i nid a s ->
  (forall e' a' s', root_at (trace_add nid [EvReset; EvStart] t) a0 i nid a' s' ->
     (root_has_keypair (dv_hs (ra_dev a)) <> 0 -> tx_count (dv_tx (ra_dev a)) + 36 <= PQC_TX_QUEUE_SIZE ->
        state s' = SESSION_STATE_WAIT_CT /\ key_sent a nid addr (bool_decide (state s = SESSION_STATE_IDLE)) a') -> Q tt e' a') ->
  wp (root_getpk (Slot i) nid msg_id addr) Q e a.
Proof.
  intros Ha HQ. unfold root_getpk. pose proof (at_wf _ _ _ _ _ _ Ha) as Hs.
  apply wp_bind. eapply (wp_root_stat _ t a0 i nid a s); [exact Ha|intros Q' e' HQ'; apply wp_hs_stat; [exact Hs|stat_words|intros s' [C _]; exact (HQ' _ s' C)]|].
  intros e1 a1 s1 Ha1 C1 Et1 Eh1. assert (Est : state s1 = state s) by (destruct (chatter_fields _ _ C1) as [[= _ _ _ Fs _ _ _] _]; exact Fs).
  apply wp_bind. eapply wp_root_read; [exact Ha1|].
  pose proof (ri_dev _ _ (at_inv _ _ _ _ _ _ Ha)) as (_ & Hq & _).
  set (others := filter (fun x => entry_of_node nid x = false) (pending (dv_tx (ra_dev a)))).
  assert (Hlen : Z.of_nat (length others) <= tx_count (dv_tx (ra_dev a))).
  { rewrite (qw_count _ Hq). unfold others. pose proof (length_filter (fun x => entry_of_node nid x = false) (pending (dv_tx (ra_dev a)))). lia. }
  assert (Hdone : forall (tm : trace) fresh kept am sm em, root_at tm a0 i nid am sm ->
    (forall n, sublist (tm n) (trace_add nid [EvReset] t n)) -> dv_hs (ra_dev am) = dv_hs (ra_dev a) ->
    pending (dv_tx (ra_dev am)) = kept -> fresh = bool_decide (state s = SESSION_STATE_IDLE) ->
    kept = (if fresh : bool then pending (dv_tx (ra_dev a)) else others) ->
    wp (start_handshake (Slot i) nid (mk_send_ctx (Some root_udp_conn) (Some addr))) Q em am).
  { intros tm fresh kept am sm em Ham Hsub Ehm Epm -> Ekept.
    eapply (wp_start_key _ tm a0 i nid am sm addr em kept); [exact Ham|exact Epm|rewrite Ehm; reflexivity|].
    intros e' a' s' Ha' Hgood. apply (HQ e' a' s').
    - eapply root_at_weaken; [|exact Ha']. intros n.
      change [EvReset; EvStart] with ([EvReset] ++ [EvStart]). rewrite <- trace_add_add. apply trace_add_sublist; [exact Hsub|reflexivity].
    - intros Hk Hroom. rewrite Ehm in Hgood. destruct Hgood as (Hst & mid & Hp); [exact Hk| |].
      + rewrite Ekept. case_if; [rewrite <- (qw_count _ Hq); exact Hroom|lia].
      + split; [exact Hst|]. exists mid. rewrite Hp, Ekept. reflexivity. }
  assert (Hidle : forall x, view x = view_root -> state x = SESSION_STATE_IDLE) by (intros x Hv; exact (f_equal v_state Hv)).
  assert (Hrestart : forall ea, state s <> SESSION_STATE_IDLE ->
    forall (Q' : unit -> env -> root_app -> Prop),
    (forall e2 a2 s2, root_at (trace_add nid [EvReset] t) a0 i nid a2 s2 -> state s2 = SESSION_STATE_IDLE ->
       (forall e3, wp (start_handshake (Slot i) nid (mk_send_ctx (Some root_udp_conn) (Some addr))) Q e3 a2) -> Q' tt e2 a2) ->
    wp (drop_and_reset (Slot i) nid addr) Q' ea a1).
  { intros ea Hne Q' HQ'. eapply wp_drop_and_reset; [exact Ha1|]. intros e2 a2 s2 Ha2 Hv2 Ep2 Eh2.
    apply (HQ' e2 a2 s2 Ha2 (Hidle _ Hv2)). intros e3. apply (Hdone _ false others a2 s2 e3 Ha2); [reflexivity|congruence| | |reflexivity].
    - rewrite Ep2, Et1. reflexivity.
    - rewrite bool_decide_false by exact Hne. reflexivity. }
  unfold session_is_failed. rewrite Est. apply wp_bind. destruct (bool_decide_reflect (state s = SESSION_STATE_FAILED)) as [Hf|Hf].
  - apply wp_bind, wp_log. intros e2. apply wp_bind, wp_event. intros e3. apply Hrestart; [congruence|].
    intros e4 a4 s4 Ha4 Es4 Hgo. apply wp_bind. eapply wp_root_read; [exact Ha4|]. rewrite Es4, bool_decide_true by reflexivity.
    apply wp_bind, wp_log. intros e5. apply wp_bind, wp_event. intros e6. apply wp_bind, wp_log. intros e7. apply Hgo.
  - apply wp_ret, wp_bind. eapply wp_root_read; [exact Ha1|]. rewrite Est. destruct (bool_decide_reflect (state s = SESSION_STATE_IDLE)) as [Hi|Hi].
    + apply wp_bind, wp_log. intros e2. apply wp_bind, wp_event. intros e3. apply wp_bind, wp_log. intros e4.
      apply (Hdone t true (pending (dv_tx (ra_dev a))) a1 s1 e4 Ha1); [|congruence|congruence| |reflexivity].
      * intros n. unfold trace_add. case_if; [apply sublist_inserts_r|]; reflexivity.
      * reflexivity.
    + assert (Hwhen : bool_decide (state s = SESSION_STATE_WAIT_CT) || session_is_established s1 = true).
      { destruct (sf_waits _ _ (at_follows _ _ _ _ _ _ Ha1)) as [_ Hw]. pose proof (vi_flag _ (vi_keyed _ (sf_view _ _ (at_follows _ _ _ _ _ _ Ha1)))) as He.
        cbn in Hw, He. unfold session_is_established. rewrite Est in *. destruct (state s); try contradiction; try reflexivity.
        destruct (He eq_refl) as [-> _]. reflexivity. }
      rewrite Hwhen. apply wp_bind, wp_log. intros e2. apply wp_bind, wp_event. intros e3. apply wp_bind, Hrestart; [exact Hi|].
      intros e4 a4 s4 Ha4 Es4 Hgo. apply wp_bind, wp_log. intros e5. apply Hgo.
Qed.

(** The first fragment of a ciphertext. *)
Lemma wp_root_ct_started Q t a0 i nid a s msg_type msg_id e :
  root_at t a0 i nid a s -> is_u8 msg_id ->
  (forall e' a' s', root_at (trace_add nid [EvAccept] t) a0 i nid a' s' -> msg_type = PQC_MSG_CT ->
     session_is_established s' = session_is_established s -> Q tt e' a') ->
  (msg_type <> PQC_MSG_CT -> Q tt e a) ->
  wp (root_ct_started (Slot i) nid msg_type msg_id) Q e a.
Proof.
  intros Ha Hm HQ Hno. unfold root_ct_started. apply wp_bind. eapply wp_root_read; [exact Ha|].
  assert (Hstay : wp (mret tt) Q e a).
  { apply wp_ret. destruct (Z.eq_dec msg_type PQC_MSG_CT) as [Hct|Hct]; [|exact (Hno Hct)].
    apply (HQ e a s); [|exact Hct|reflexivity]. eapply root_at_weaken; [|exact Ha]. intros n.
    unfold trace_add. case_if; [apply sublist_inserts_r|]; reflexivity. }
  destruct ((msg_type =? PQC_MSG_CT) && bool_decide (state s = SESSION_STATE_WAIT_CT) && (pending_msg_type s =? PQC_MSG_PK)) eqn:Ew;
    [|exact Hstay]. case_bools.
  match goal with Hb : bool_decide _ = true |- _ => apply bool_decide_eq_true in Hb; rename Hb into Hst end.
  match goal with Hp : pending_msg_type s = _ |- _ => rename Hp into Hpk end.
  pose proof (ri_dev _ _ (at_inv _ _ _ _ _ _ Ha)) as (_ & Hq & _). pose proof (at_wf _ _ _ _ _ _ Ha) as Hs.
  apply wp_bind, wp_on_root, wp_zoom, wp_tx_drop; [exact Hq|]. intros r q1 (Hq1 & _).
  pose proof (root_at_tx t a0 i nid a s q1 Ha Hq1) as Ha1.
  apply wp_bind, wp_log. intros e2. apply wp_bind, wp_log. intros e3. apply wp_bind, wp_event. intros e4. apply wp_bind, wp_clock_time.
  eapply (wp_root_session _ t a0 i nid _ s _ [EvAccept]); [exact Ha1|].
  apply wp_bind, wp_hs_stat; [exact Hs|stat_words|]. intros s5 [C5 _].
  apply wp_set_pending; [apply C5|clia|exact Hm|]. intros e6 s6 [C6 _].
  apply (chatter_pending PQC_MSG_CT msg_id) in C5; [|clia|exact Hm]. pose proof (chatter_trans _ _ _ C5 C6) as C.
  split_and!.
  - exact (chatter_wf _ _ C).
  - eapply same_owner_trans; [|exact (chatter_owner _ _ C)]. split_and!; reflexivity.
  - eapply steps_cons; [|constructor]. rewrite (view_chatter _ _ C).
    apply (step_accept (view s)); [exact (at_role _ _ _ _ _ _ Ha)|exact Hst|exact Hpk].
  - intros a' Ha' _ _. apply (HQ e6 a' s6 Ha'); [assumption|]. destruct (chatter_fields _ _ C) as [[= _ _ _ Fs Fe _ _] _].
    unfold session_is_established. rewrite Fs, Fe. reflexivity.
Qed.

(** A reading that [print_measurement] can print: neither value is the least integer,
    whose negation overflows. *)
Definition printable (p : pqc_temp_payload_t) : Prop := tp_rh_milli p <> - 2 ^ 31 /\ tp_temp_milli p <> - 2 ^ 31.
Definition readings_printable (s : session_t) (data : bytes) : Prop :=
  session_is_established s = true -> forall o p, 0 <= o < PQC_TEMP_RX_COUNTER_WINDOW ->
    temp_try s data (u32 (rx_counter s + o)) = Some (Some p) -> printable p.

Lemma s32_range x : - 2 ^ 31 <= s32 x < 2 ^ 31.
Proof. unfold s32. pose proof (u32_range x) as Hr. unfold in_width in Hr. cbv zeta. case_if; case_bools; lia. Qed.

Lemma temp_try_range s data c p :
  temp_try s data c = Some (Some p) -> - 2 ^ 31 <= tp_rh_milli p < 2 ^ 31 /\ - 2 ^ 31 <= tp_temp_milli p < 2 ^ 31.
Proof.
  unfold temp_try. destruct (mem_read _ _ _); [opt_simpl|discriminate]. destruct (crypto_worker_derive_aes_iv _ _ _); [opt_simpl|discriminate].
  destruct (crypto_worker_aes_ctr_xcrypt _ _ _ _) as [body|]; [opt_simpl|discriminate]. unfold temp_of_bytes.
  destruct (le32_at body 0); [opt_simpl|discriminate]. destruct (le32_at body 4); [opt_simpl|discriminate].
  destruct (le32_at body 8); [opt_simpl|discriminate]. case_if; [|discriminate]. intros [= <-]. split; apply s32_range.
Qed.

Lemma wp_root_temp Q t a0 i nid a s msg_id data len e :
  root_at t a0 i nid a s -> len <= Z.of_nat (length data) -> readings_printable s data ->
  (forall e' a' s', root_at t a0 i nid a' s' -> Q tt e' a') ->
  wp (root_temp (Slot i) nid msg_id data len) Q e a.
Proof.
  intros Ha Hl Hpr HQ. unfold root_temp. pose proof (at_wf _ _ _ _ _ _ Ha) as Hs. apply wp_bind.
  eapply (wp_root_quiet _ t a0 i nid a s); [exact Ha|]. apply wp_handle_temp; [exact Hs|exact Hl|].
  intros r e1 s1 [[Hw E1] Hr]. split_and!; [exact Hw|rewrite E1; split_and!; reflexivity|rewrite E1; reflexivity|].
  intros a1 Ha1 _ _. destruct r as [p|].
  - destruct Hr as (Hacc & o & Ho & Htry & Ec & _). rewrite Ec in Htry.
    assert (Hest : session_is_established s = true).
    { destruct (temp_acceptable_total s data len Hl) as (b & Eb & Hb). rewrite Hacc in Eb. injection Eb as <-. apply Hb. reflexivity. }
    destruct (Hpr Hest o p Ho Htry) as [Hn1 Hn2]. destruct (temp_try_range _ _ _ _ Htry) as [Hr1 Hr2].
    apply wp_bind, wp_log. intros e2. apply wp_bind, wp_print_measurement; [lia|lia|].
    unfold csv_temp. apply wp_bind, wp_clock_time, wp_log. intros e3. exact (HQ e3 a1 s1 Ha1).
  - apply wp_bind, wp_log. intros e2. apply wp_event. intros e3. exact (HQ e3 a1 s1 Ha1).
Qed.

(** ** Node metrics *)

(** The session with a report stored. *)
Definition report_stored (s : session_t) (r : pqc_metrics_report_t) : session_t :=
  s <| node_metric_values ::= (fun l => <[Z.to_nat (rp_group r) := [value0 r; value1 r; value2 r; value3 r]]> l) |>
    <| node_metrics_mask ::= (fun m => u8 (Z.lor m (u8 (Z.shiftl 1 (rp_group r - 1))))) |>.

Lemma report_stored_wf s r : session_wf s -> session_wf (report_stored s r).
Proof.
  intros Hs. destruct (sw_values _ Hs) as [Hl Hrows]. unfold report_stored. destruct Hs. session_wf_tac.
  split; [rewrite length_insert; exact Hl|]. apply Forall_insert; [exact Hrows|reflexivity].
Qed.

Lemma wp_store_metrics Q r e s :
  session_wf s -> 1 <= rp_group r <= PQC_METRICS_GROUP_COUNT -> Q tt e (report_stored s r) ->
  wp (session_store_node_metrics r) Q e s.
Proof.
  intros Hs Hg HQ. unfold session_store_node_metrics. destruct (sw_values _ Hs) as [Hl Hrows].
  rewrite (proj2 (Z.eqb_neq _ _)), (proj2 (Z.ltb_ge _ _)) by lia. cbn [orb]. apply wp_bind, wp_get.
  destruct (at_index_total (node_metric_values s) (rp_group r)) as [row Hrow]; [rewrite Hl; clia|].
  pose proof Hrow as Hlook. apply at_index_some in Hlook as [_ Hlook]. pose proof (proj1 (list.Forall_lookup _ _) Hrows _ _ Hlook) as Hr4.
  cbv beta in Hr4. destruct row as [|x0 [|x1 [|x2 [|x3 [|]]]]]; try discriminate.
  apply wp_bind, wp_lift. eexists. split; [exact Hrow|].
  apply wp_bind, wp_lift. eexists. split; [reflexivity|]. apply wp_bind, wp_lift. eexists. split; [reflexivity|].
  apply wp_bind, wp_lift. eexists. split; [reflexivity|]. apply wp_bind, wp_lift. eexists. split; [reflexivity|].
  apply wp_modify. exact HQ.
Qed.

Lemma metric_value_total s g i :
  session_wf s -> 0 <= g <= PQC_METRICS_GROUP_COUNT -> 0 <= i < 4 -> exists v, metric_value s g i = Some v.
Proof.
  intros Hs Hg Hi. destruct (sw_values _ Hs) as [Hl Hrows]. unfold metric_value.
  destruct (at_index_total (node_metric_values s) g) as [row Hrow]; [rewrite Hl; clia|]. rewrite Hrow. opt_simpl.
  apply at_index_some in Hrow as [_ Hlook]. pose proof (proj1 (list.Forall_lookup _ _) Hrows _ _ Hlook) as Hr4. cbv beta in Hr4.
  destruct (cell_total row i) as (v & Hv & _); [lia|]. eauto.
Qed.

Ltac summary_value Hs :=
  apply wp_bind, wp_lift;
  lazymatch goal with |- exists v, metric_value ?s ?g ?i = Some v /\ _ =>
    let v := fresh "v" in let E := fresh "E" in
    destruct (metric_value_total s g i Hs ltac:(clia) ltac:(lia)) as [v E]; exists v; split; [exact E|clear E] end.

Lemma wp_summary Q e s x :
  session_wf s -> (forall e', printed 6 e e' -> Q tt e' x) -> wp (csv_session_summary s) Q e x.
Proof.
  intros Hs HQ. unfold csv_session_summary, csv_event. cbv zeta. pose proof (printed_refl e) as Hp.
  do 6 (do 2 summary_value Hs; (apply wp_bind, wp_event_printed || apply wp_event_printed);
        let e1 := fresh "e" in let H1 := fresh "Hp" in intros e1 H1; apply (printed_snoc _ _ _ _ Hp) in H1; clear Hp; rename H1 into Hp).
  apply HQ, Hp.
Qed.

(** When the summary of a session is due. *)
Definition summary_due (s : session_t) : bool :=
  (session_summary_emitted s =? 0) && session_is_established s &&
  (Z.land (node_metrics_mask s) summary_required =? summary_required).

Lemma wp_summary_if_ready Q e s :
  session_wf s ->
  (if summary_due s then forall e', printed 6 e e' -> Q tt e' (s <| session_summary_emitted := 1 |>) else Q tt e s) ->
  wp csv_session_summary_if_ready Q e s.
Proof.
  intros Hs HQ. unfold csv_session_summary_if_ready. apply wp_bind, wp_get. unfold summary_due in HQ.
  destruct (session_summary_emitted s =? 0), (session_is_established s); cbn [negb orb andb] in *; try (apply wp_ret, HQ).
  destruct (Z.land (node_metrics_mask s) summary_required =? summary_required); cbn [negb]; [|apply wp_ret, HQ].
  apply wp_bind, wp_summary; [exact Hs|]. intros e' Hp. apply wp_modify, HQ, Hp.
Qed.

Lemma wp_root_summary Q t a0 i nid a s e :
  root_at t a0 i nid a s -> (forall e' a' s', root_at t a0 i nid a' s' -> Q tt e' a') ->
  wp (on_root (on_session_at (Slot i) csv_session_summary_if_ready)) Q e a.
Proof.
  intros Ha HQ. pose proof (at_wf _ _ _ _ _ _ Ha) as Hs. eapply wp_root_quiet; [exact Ha|]. apply wp_summary_if_ready; [exact Hs|].
  assert (Hx : session_wf (s <| session_summary_emitted := 1 |>)) by (destruct Hs; session_wf_tac).
  case_if; [intros e' _|]; (split_and!; [assumption|split_and!; reflexivity|reflexivity|]); intros a' Ha' _ _; eapply HQ; exact Ha'.
Qed.

Lemma root_report_total data len :
  len <= Z.of_nat (length data) -> exists r, root_report data len = Some r.
Proof.
  intros Hl. unfold root_report. destruct (Z.eqb_spec len (PQC_HEADER_LEN + PQC_METRICS_REPORT_LEN)) as [E|]; [|eexists; reflexivity].
  cbn [negb]. assert (Hcell : forall k, 0 <= k < 10 -> exists v, cell data k = Some v).
  { intros k Hk. destruct (cell_total data k) as (v & Hv & _); [clia|]. eauto. }
  destruct (Hcell PQC_HDR_FRAG_IDX) as [idx ->]; [clia|]. opt_simpl. case_if; [eexists; reflexivity|].
  destruct (Hcell PQC_HDR_TOTAL_FRAGS) as [total ->]; [clia|]. opt_simpl. case_if; [eexists; reflexivity|].
  destruct (Hcell PQC_HDR_PAYLOAD_LEN) as [pl ->]; [clia|]. opt_simpl. case_if; [eexists; reflexivity|]. case_bools.
  pose proof (decode_report_total (drop (Z.to_nat PQC_HEADER_LEN) data) pl) as Hd. rewrite length_drop in Hd.
  destruct (pqc_metrics_decode_report _ _) as [r|]; [eauto|]. contradiction Hd; [clia|reflexivity].
Qed.

Lemma root_report_group data len r :
  all_bytes data -> len <= Z.of_nat (length data) -> root_report data len = Some (Some r) -> report_wf r.
Proof.
  intros Hb Hl. unfold root_report. destruct (Z.eqb_spec len (PQC_HEADER_LEN + PQC_METRICS_REPORT_LEN)) as [E|]; [|discriminate].
  cbn [negb]. destruct (cell data PQC_HDR_FRAG_IDX); [opt_simpl|discriminate]. case_if; [discriminate|].
  destruct (cell data PQC_HDR_TOTAL_FRAGS); [opt_simpl|discriminate]. case_if; [discriminate|].
  destruct (cell data PQC_HDR_PAYLOAD_LEN) as [pl|]; [opt_simpl|discriminate]. case_if; [discriminate|]. case_bools.
  intros Hd. apply decode_report_inv in Hd as (_ & Hr & _); [exact Hr|apply Forall_drop, Hb|rewrite length_drop; clia].
Qed.

Lemma wp_root_metrics Q t a0 i nid a s msg_id data len e :
  root_at t a0 i nid a s -> all_bytes data -> len <= Z.of_nat (length data) ->
  (forall e' a' s', root_at t a0 i nid a' s' -> Q tt e' a') ->
  wp (root_metrics (Slot i) nid msg_id data len) Q e a.
Proof.
  intros Ha Hb Hl HQ. unfold root_metrics. pose proof (at_wf _ _ _ _ _ _ Ha) as Hs.
  destruct (root_report_total data len Hl) as [r Hr]. apply wp_bind, wp_lift. exists r. split; [exact Hr|]. destruct r as [r|].
  - destruct (root_report_group data len r Hb Hl Hr) as (_ & Hg & _). unfold csv_node_metrics.
    apply wp_bind, wp_bind, wp_event_units. intros e1. apply wp_event_units. intros e2.
    apply wp_bind. eapply (wp_root_quiet _ t a0 i nid a s); [exact Ha|]. apply wp_store_metrics; [exact Hs|exact Hg|].
    split_and!; [exact (report_stored_wf s r Hs)|split_and!; reflexivity|reflexivity|]. intros a1 Ha1 _ _.
    eapply wp_root_summary; [exact Ha1|exact HQ].
  - apply wp_bind, wp_log. intros e1. apply wp_event. intros e2. exact (HQ e2 a s Ha).
Qed.

(** A fragment of the handshake. *)
Lemma wp_root_fragment Q t a0 i nid a s addr was data len e :
  root_at t a0 i nid a s -> all_bytes data -> len <= Z.of_nat (length data) ->
  (forall e' a' s', root_at (trace_add nid [datagram_event data len] t) a0 i nid a' s' -> Q tt e' a') ->
  wp (root_fragment (Slot i) addr was data len) Q e a.
Proof.
  intros Ha Hb Hl HQ. unfold root_fragment. apply wp_bind.
  apply (wp_root_call _ t a0 i nid a s (mk_send_ctx (Some root_udp_conn) (Some addr)) (CallFragment data len)); [exact Ha|split; assumption|].
  intros _ e1 a1 s1 Ha1. apply wp_bind. eapply wp_root_read; [exact Ha1|]. case_if; [|apply wp_ret; exact (HQ e1 a1 s1 Ha1)].
  apply wp_bind, wp_hs_summary. intros e2. apply wp_bind. eapply wp_at_impact_end; [exact Ha1|]. intros e3 a3 Ha3 _.
  eapply wp_root_summary; [exact Ha3|exact HQ].
Qed.

(** What a datagram of a node does to its session. *)
Definition root_datagram_events (msg_type : Z) (data : bytes) (len : Z) : list hs_event :=
  if msg_type =? PQC_MSG_GETPK then [EvReset; EvStart] else [EvAccept; datagram_event data len].

Lemma trace_add_stay nid l t n : sublist (t n) (trace_add nid l t n).
Proof. unfold trace_add. case_if; [apply sublist_inserts_r|]; reflexivity. Qed.

Lemma readings_same s s' data :
  view s' = view s -> rx_counter s' = rx_counter s -> readings_printable s data -> readings_printable s' data.
Proof.
  unfold view, readings_printable, session_is_established. intros [= _ Es Ee _ _ _ Ess Ek] Er. rewrite Es, Ee, Er.
  intros Hp He o p Ho Htry. apply (Hp He o p Ho). rewrite <- (temp_try_ext s s' data _ Ess Ek). exact Htry.
Qed.

Lemma wp_root_dispatch Q t a0 i nid a s msg_type msg_id addr data len e :
  root_at t a0 i nid a s -> is_u8 msg_id -> all_bytes data -> len <= Z.of_nat (length data) ->
  (msg_type = PQC_MSG_TEMP -> readings_printable s data) ->
  (forall e' a' s', root_at (trace_add nid (root_datagram_events msg_type data len) t) a0 i nid a' s' ->
     (msg_type = PQC_MSG_GETPK -> root_has_keypair (dv_hs (ra_dev a)) <> 0 -> tx_count (dv_tx (ra_dev a)) + 36 <= PQC_TX_QUEUE_SIZE ->
        state s' = SESSION_STATE_WAIT_CT /\ key_sent a nid addr (bool_decide (state s = SESSION_STATE_IDLE)) a') -> Q tt e' a') ->
  wp (root_dispatch (Slot i) nid msg_type msg_id addr data len) Q e a.
Proof.
  intros Ha Hm Hb Hl Hpr HQ. unfold root_dispatch, root_datagram_events in *. apply wp_bind.
  eapply wp_root_peer; [exact Ha|]. intros e1 a1 s1 Ha1 Hv1 Hrx1 Et1 Eh1. apply wp_bind. eapply wp_root_read; [exact Ha1|]. cbv zeta.
  assert (Est : state s1 = state s) by exact (f_equal v_state Hv1).
  destruct (Z.eqb_spec msg_type PQC_MSG_GETPK) as [Eg|Hng].
  - eapply wp_root_getpk; [exact Ha1|]. intros e2 a2 s2 Ha2 Hgood. apply (HQ e2 a2 s2 Ha2). intros _. unfold key_sent in *.
    rewrite Et1, Eh1, Est in Hgood. exact Hgood.
  - assert (Hgo : forall (tm : trace) e2 a2 s2, root_at tm a0 i nid a2 s2 -> (forall n, sublist (tm n) (trace_add nid [EvAccept] t n)) ->
      (msg_type = PQC_MSG_TEMP -> readings_printable s2 data) ->
      wp (if msg_type =? PQC_MSG_TEMP then root_temp (Slot i) nid msg_id data len else
          if msg_type =? PQC_MSG_METRICS then root_metrics (Slot i) nid msg_id data len else
          root_fragment (Slot i) addr (session_is_established s1) data len) Q e2 a2).
    { intros tm e2 a2 s2 Ha2 Hsub Hpr2.
      assert (Hsub2 : forall n, sublist (tm n) (trace_add nid [EvAccept; datagram_event data len] t n)).
      { intros n. etrans; [apply Hsub|]. apply trace_add_sublist; [intros; reflexivity|]. apply sublist_skip, sublist_nil_l. }
      destruct (Z.eqb_spec msg_type PQC_MSG_TEMP) as [Et|Hnt].
      - eapply wp_root_temp; [exact Ha2|exact Hl|exact (Hpr2 Et)|]. intros e3 a3 s3 Ha3.
        apply (HQ e3 a3 s3); [exact (root_at_weaken _ _ _ _ _ _ _ Hsub2 Ha3)|intros; contradiction].
      - destruct (Z.eqb_spec msg_type PQC_MSG_METRICS) as [Em|Hnm].
        + eapply wp_root_metrics; [exact Ha2|exact Hb|exact Hl|]. intros e3 a3 s3 Ha3.
          apply (HQ e3 a3 s3); [exact (root_at_weaken _ _ _ _ _ _ _ Hsub2 Ha3)|intros; contradiction].
        + eapply wp_root_fragment; [exact Ha2|exact Hb|exact Hl|]. intros e3 a3 s3 Ha3. apply (HQ e3 a3 s3); [|intros; contradiction].
          eapply root_at_weaken; [|exact Ha3]. intros n. change [EvAccept; datagram_event data len] with ([EvAccept] ++ [datagram_event data len]).
          rewrite <- trace_add_add. apply trace_add_sublist; [exact Hsub|reflexivity]. }
    apply wp_bind. eapply wp_root_ct_started; [exact Ha1|exact Hm| |].
    + intros e2 a2 s2 Ha2 Hct _. apply (Hgo _ e2 a2 s2 Ha2); [intros; reflexivity|]. intros Htemp. rewrite Hct in Htemp. discriminate.
    + intros _. apply (Hgo t e1 a1 s1 Ha1); [intros; apply trace_add_stay|]. intros Htemp. exact (readings_same _ _ _ Hv1 Hrx1 (Hpr Htemp)).
Qed.

End RootFacts.
