(* ===== verification/RootRun.v ===== *)
(** * Runs of the root

    The receive callback as a whole, the retry process over all sessions, boot, and
    the properties of the root: whatever it receives its sessions follow the
    protocol machine, nodes do not disturb each other, and a node that asks for the
    key gets it. *)

From S2P Require Import Prelude Platform Protocol Temperature Fragmentation Metrics CryptoWorker Session TxQueue Telemetry Handshake HandshakeFacts HandshakeRules HandshakeStep HandshakeProps Device RootLog RootApp RootFacts.

Section RootRun.
Context `{PlatformLaws} `{CryptoLaws}.

(** The type and the node of a datagram. *)
Definition datagram_of (data : bytes) (nid msg_type : Z) : Prop :=
  pqc_header_get_node_id data = Some nid /\ cell data PQC_HDR_MSG_TYPE = Some msg_type.

(** What wakes the root is well formed: a datagram is bytes, its length that of the
    buffer at most, and a measurement that decrypts can be printed. *)
Definition root_input_ok (a : root_app) (i : root_input) : Prop :=
  match i with
  | RootDatagram _ data len =>
      all_bytes data /\ len <= Z.of_nat (length data) /\
      forall j s, sessions (dv_store (ra_dev a)) !! j = Some s -> used s <> 0 ->
        datagram_of data (node_id s) PQC_MSG_TEMP -> readings_printable s data
  | _ => True
  end.

(** What an input does to the session of [nid], as events of the machine. *)
Definition root_events (nid : Z) (i : root_input) : list hs_event :=
  match i with
  | RootRetryTimer => [EvRetry; EvReset]
  | RootDatagram _ data len =>
      match pqc_header_get_node_id data, cell data PQC_HDR_MSG_TYPE with
      | Some n, Some msg_type => if nid =? n then root_datagram_events msg_type data len else []
      | _, _ => []
      end
  | _ => []
  end.

Lemma root_events_datagram t addr data len nid msg_type n :
  datagram_of data nid msg_type ->
  trace_add nid (root_datagram_events msg_type data len) t n = t n ++ root_events n (RootDatagram addr data len).
Proof.
  intros [En Et]. unfold trace_add, root_events. rewrite En, Et. case_if; [reflexivity|symmetry; apply app_nil_r].
Qed.

(** ** The receive callback *)

(** The session of a header that is valid: in use already, or fresh. *)
Definition datagram_cells data len : Prop := exists nid msg_type msg_id,
  datagram_of data nid msg_type /\ cell data PQC_HDR_MSG_ID = Some msg_id /\ is_u16 nid /\ is_u8 msg_id /\
  len <= Z.of_nat (length data).

Lemma valid_cells data len :
  all_bytes data -> len <= Z.of_nat (length data) -> pqc_header_valid (Some data) len = Some true -> datagram_cells data len.
Proof.
  intros Hb Hl Hv. apply header_valid_true in Hv as (H10 & _).
  destruct (cell_total data PQC_HDR_MSG_TYPE) as (mt & Hmt & _); [clia|].
  destruct (cell_total data PQC_HDR_MSG_ID) as (mid & Hmid & _); [clia|].
  destruct (cell_total data PQC_HDR_NODE_ID_H) as (hi & Hhi & _); [clia|].
  destruct (cell_total data PQC_HDR_NODE_ID_L) as (lo & Hlo & _); [clia|].
  assert (Hn : exists nid, pqc_header_get_node_id data = Some nid) by (unfold pqc_header_get_node_id; rewrite Hhi, Hlo; cbn; eauto).
  destruct Hn as [nid Hn]. exists nid, mt, mid. split; [split; assumption|].
  split; [exact Hmid|]. split; [exact (node_id_range _ _ Hb Hn)|]. split; [exact (cell_byte _ _ _ Hb Hmid)|exact Hl].
Qed.

(** The state of the session of [nid], idle if it has none. *)
Definition node_state (a : root_app) (nid : Z) : session_state_t :=
  match session_manager_find nid (dv_store (ra_dev a)) with
  | Some r => from_option state SESSION_STATE_IDLE (deref (dv_store (ra_dev a)) r)
  | None => SESSION_STATE_IDLE
  end.

(** All the slots belong to other nodes. *)
Definition no_slot_for (a : root_app) (nid : Z) : Prop :=
  forall i s, sessions (dv_store (ra_dev a)) !! i = Some s -> used s <> 0 /\ node_id s <> nid.

(** The slot is free or has the node's session. *)
Definition slot_free_for (a : root_app) (i : nat) (nid : Z) : Prop :=
  forall s, sessions (dv_store (ra_dev a)) !! i = Some s -> used s <> 0 -> node_id s = nid.

Lemma wp_root_take Q t nid e a :
  root_inv t a -> is_u16 nid ->
  (forall e', no_slot_for a nid -> Q None e' a) ->
  (forall e' a1 i s, root_at t a i nid a1 s -> state s = node_state a nid ->
     sessions (dv_store (ra_dev a)) !! i = Some s \/ state s = SESSION_STATE_IDLE -> slot_free_for a i nid -> dv_tx (ra_dev a1) = dv_tx (ra_dev a) ->
     dv_hs (ra_dev a1) = dv_hs (ra_dev a) -> Q (Some (Slot i)) e' a1) ->
  wp (on_root (dv_on_store (session_manager_get_or_create nid))) Q e a.
Proof.
  intros [Hd Him Hss] Hn HNone HSome. destruct Hd as (Hst & Hq & Hh).
  apply wp_on_root, wp_zoom, wp_get_or_create; [exact Hst|exact Hn|]. intros [r|] e' st' (Hst' & Hr).
  - destruct Hr as (Hf & i & s & -> & Hs & Hu & Hid & Hoth & Hold & Hnew).
    set (a1 := a <| ra_dev := _ |>).
    destruct (session_manager_find nid (dv_store (ra_dev a))) as [r0|] eqn:Ef.
    + assert (Er : r0 = Slot i).
      { apply find_some in Ef as (j & sj & -> & Hj & Huj & Hnj). f_equal. destruct (Nat.eq_dec j i) as [|Hne]; [assumption|].
        rewrite <- (Hoth j Hne) in Hj. exact (tw_unique _ Hst' j i sj s Hj Hs Huj Hu (eq_trans Hnj (eq_sym Hid))). }
      subst r0. specialize (Hold eq_refl). subst st'. assert (E : a1 = a) by (destruct a as [[] w]; reflexivity). rewrite E.
      apply (HSome e' a i s); [|unfold node_state; rewrite Ef; cbn; rewrite Hs; reflexivity|left; exact Hs|intros x Hx _; rewrite Hs in Hx; injection Hx as <-; exact Hid|reflexivity|reflexivity].
      constructor; [constructor|..]; auto. split_and!; assumption.
    + destruct (Hnew eq_refl) as (Hrole & Hstate & Hes & [= E1 E2 E3 E4 E5] & s0 & Hs0 & Hu0).
      assert (Hv : view s = view_root) by (unfold view, view_root; congruence).
      apply (HSome e' a1 i s); [|unfold node_state; rewrite Ef; exact Hstate|right; exact Hstate|intros x Hx Hux; rewrite Hs0 in Hx; injection Hx as <-; contradiction (Hux Hu0)|reflexivity|reflexivity].
      constructor; [constructor|exact Hs|exact Hu|exact Hid|exact Hoth].
      * split_and!; assumption.
      * exact Him.
      * intros j sj Hj Huj. change (sessions st' !! j = Some sj) in Hj. destruct (decide (j = i)) as [->|Hne].
        -- rewrite Hs in Hj. injection Hj as <-. destruct (fresh_inv view_root) as [Hvi _]; [repeat split|].
           constructor; rewrite Hv; [split; reflexivity|exact Hvi|apply steps_stay].
        -- rewrite (Hoth j Hne) in Hj. exact (Hss j sj Hj Huj).
  - destruct Hr as [-> Hno]. assert (E : a <| ra_dev := (ra_dev a) <| dv_store := dv_store (ra_dev a) |> |> = a) by (destruct a as [[] w]; reflexivity).
    rewrite E. apply HNone. exact Hno.
Qed.

(** The root's answer to a node that asks for the key. *)
Definition getpk_answered (a : root_app) (nid : Z) (addr : uip_ipaddr_t) (a' : root_app) (s' : session_t) : Prop :=
  root_has_keypair (dv_hs (ra_dev a)) <> 0 -> tx_count (dv_tx (ra_dev a)) + 36 <= PQC_TX_QUEUE_SIZE ->
  state s' = SESSION_STATE_WAIT_CT /\ key_sent a nid addr (bool_decide (node_state a nid = SESSION_STATE_IDLE)) a'.

Lemma wp_root_rx Q t addr data len e a :
  root_inv t a -> root_input_ok a (RootDatagram addr data len) ->
  (forall e', pqc_header_valid (Some data) len = Some false \/
     (exists nid msg_type, datagram_of data nid msg_type /\ no_slot_for a nid) -> Q tt e' a) ->
  (forall e' a' nid msg_type i s', datagram_of data nid msg_type -> slot_free_for a i nid ->
     root_at (trace_add nid (root_datagram_events msg_type data len) t) a i nid a' s' ->
     (msg_type = PQC_MSG_GETPK -> getpk_answered a nid addr a' s') -> Q tt e' a') ->
  wp (root_rx_callback addr data len) Q e a.
Proof.
  intros Ha (Hb & Hl & Hpr) Hno HQ. unfold root_rx_callback.
  destruct (header_valid_total data len Hl) as [valid Hv]. apply wp_bind, wp_lift. exists valid. split; [exact Hv|].
  destruct valid; cbn [negb]; [|apply wp_bind, wp_log; intros e1; apply wp_event; intros e2; apply Hno; auto].
  destruct (valid_cells data len Hb Hl Hv) as (nid & mt & mid & Hof & Hmid & Hn & Hm & _). pose proof Hof as [En Et].
  do 3 (apply wp_bind, wp_lift; eexists; split; [eassumption|]).
  apply wp_bind, (wp_root_take _ t); [exact Ha|exact Hn| |].
  - intros e1 Hnone. apply wp_bind, wp_log. intros e2. apply wp_event. intros e3. apply Hno. right. eauto.
  - intros e1 a1 i s Ha1 Hstate Hfound Hfree Etx Ehs. eapply (wp_root_dispatch _ t a i nid a1 s); [exact Ha1|exact Hm|exact Hb|exact Hl| |].
    + intros ->. destruct Hfound as [Hs|Hidle].
      * apply (Hpr i s Hs (at_used _ _ _ _ _ _ Ha1)). rewrite (at_node _ _ _ _ _ _ Ha1). exact Hof.
      * unfold readings_printable, session_is_established. rewrite Hidle. discriminate.
    + intros e2 a2 s2 Ha2 Hkey. apply (HQ e2 a2 nid mt i s2 Hof Hfree Ha2). intros Eg Hk Hroom. rewrite Etx, Ehs, Hstate in Hkey.
      destruct (Hkey Eg Hk Hroom) as [Hst Hsent]. split; [exact Hst|]. unfold key_sent in *. rewrite Etx, Ehs in Hsent. exact Hsent.
Qed.

(** ** The retry process *)

Lemma wp_root_failed Q t a0 i nid a s e :
  root_at t a0 i nid a s ->
  (forall e' a' s', root_at (trace_add nid [EvReset] t) a0 i nid a' s' -> view s' = view_root -> Q tt e' a') ->
  wp (root_failed (Slot i)) Q e a.
Proof.
  intros Ha HQ. unfold root_failed. apply wp_bind. eapply wp_root_read; [exact Ha|].
  apply wp_bind, wp_log. intros e1. apply wp_bind, wp_hs_summary. intros e2.
  apply wp_bind. eapply wp_at_impact_end; [exact Ha|]. intros e3 a3 Ha3 _. apply wp_bind, wp_event. intros e4.
  pose proof (ri_dev _ _ (at_inv _ _ _ _ _ _ Ha3)) as (_ & Hq & _).
  apply wp_bind, wp_on_root, wp_zoom, wp_tx_drop_node; [exact Hq|]. intros r q1 (Hq1 & _).
  eapply wp_root_reset; [exact (root_at_tx t a0 i nid a3 s q1 Ha3 Hq1)|]. intros e5 a5 s5 Ha5 Hv5 _ _. exact (HQ e5 a5 s5 Ha5 Hv5).
Qed.

(** A session's turn, if the slot [i] is used: it is not left failed. *)
Lemma wp_root_retry_session Q t i e a :
  root_inv t a -> 0 <= i ->
  ((forall s, sessions (dv_store (ra_dev a)) !! Z.to_nat i = Some s -> used s = 0) -> Q tt e a) ->
  (forall e' a' s s', sessions (dv_store (ra_dev a)) !! Z.to_nat i = Some s -> used s <> 0 ->
     root_at (trace_add (node_id s) [EvRetry; EvReset] t) a (Z.to_nat i) (node_id s) a' s' ->
     (has_peer_addr s <> 0 -> state s' <> SESSION_STATE_FAILED) -> Q tt e' a') ->
  i < SESSION_MAX_NODES -> wp (root_retry_session i) Q e a.
Proof.
  intros Ha Hi Hfree HQ Hmax. unfold root_retry_session. apply wp_bind, wp_get. unfold session_manager_get_by_index.
  rewrite (proj2 (Z.leb_gt _ _)) by exact Hmax.
  destruct (sessions (dv_store (ra_dev a)) !! Z.to_nat i) as [s|] eqn:Es; [|apply wp_ret, Hfree; discriminate].
  destruct (Z.eqb_spec (used s) 0) as [Hu|Hu]; [apply wp_ret, Hfree; intros x [= <-]; exact Hu|].
  assert (Hat : root_at t a (Z.to_nat i) (node_id s) a s) by (constructor; auto).
  apply wp_bind. eapply wp_root_read; [exact Hat|]. destruct (negb (session_is_established s) && negb (has_peer_addr s =? 0)) eqn:Ew.
  - apply wp_bind, (wp_root_call _ t a (Z.to_nat i) (node_id s) a s (mk_send_ctx (Some root_udp_conn) (Some (peer_addr s))) CallRetry); [exact Hat|exact I|].
    intros _ e1 a1 s1 Ha1. apply wp_bind. eapply wp_root_read; [exact Ha1|]. unfold session_is_failed.
    destruct (bool_decide_reflect (state s1 = SESSION_STATE_FAILED)) as [Hf|Hf].
    + eapply wp_root_failed; [exact Ha1|]. intros e2 a2 s2 Ha2 Hv2. apply (HQ e2 a2 s s2 eq_refl Hu).
      * eapply root_at_weaken; [|exact Ha2]. intros n. rewrite trace_add_add. reflexivity.
      * intros _. pose proof (f_equal v_state Hv2) as E. cbn in E. congruence.
    + apply wp_ret, (HQ e1 a1 s s1 eq_refl Hu); [|intros _; exact Hf]. eapply root_at_weaken; [|exact Ha1].
      apply trace_add_sublist; [reflexivity|]. apply sublist_skip, sublist_nil_l.
  - apply wp_ret, (HQ e a s s eq_refl Hu).
    + eapply root_at_weaken; [apply trace_add_stay|exact Hat].
    + intros Hp. unfold session_is_established in Ew. destruct (bool_decide_reflect (state s = SESSION_STATE_ESTABLISHED)); [congruence|].
      apply (proj2 (Z.eqb_neq _ _)) in Hp. rewrite Hp in Ew. discriminate.
Qed.

(** The sessions before slot [k] had their turn, the others are as in [a]. *)
Definition turns_done (t : trace) (a : root_app) (k : nat) (a' : root_app) : Prop :=
  exists tm, root_inv tm a' /\
    (forall n, sublist (tm n) (t n ++ [EvRetry; EvReset])) /\
    (forall j s, (k <= j)%nat -> sessions (dv_store (ra_dev a')) !! j = Some s -> used s <> 0 -> tm (node_id s) = t (node_id s)) /\
    (forall j, (k <= j)%nat -> sessions (dv_store (ra_dev a')) !! j = sessions (dv_store (ra_dev a)) !! j) /\
    (forall j s s', (j < k)%nat -> sessions (dv_store (ra_dev a)) !! j = Some s -> sessions (dv_store (ra_dev a')) !! j = Some s' ->
       used s' <> 0 -> has_peer_addr s <> 0 -> state s' <> SESSION_STATE_FAILED).

Lemma turns_done_start t a : root_inv t a -> turns_done t a 0 a.
Proof.
  intros Ha. exists t. split_and!; [exact Ha| |reflexivity|reflexivity|intros; lia].
  intros n. apply sublist_inserts_r. reflexivity.
Qed.

Lemma turns_done_free t a k a' :
  turns_done t a k a' -> (forall s, sessions (dv_store (ra_dev a')) !! k = Some s -> used s = 0) -> turns_done t a (S k) a'.
Proof.
  intros (tm & Hinv & Hsub & Hsame & Hrest & Hdone) Hfree. exists tm. split_and!; [exact Hinv|exact Hsub| | |].
  - intros j s Hj. apply Hsame. lia.
  - intros j Hj. apply Hrest. lia.
  - intros j s s' Hj Hs Hs' Hu. destruct (Nat.eq_dec j k) as [->|Hne]; [contradiction (Hu (Hfree s' Hs'))|].
    apply (Hdone j s s'); auto. lia.
Qed.

(** The turn of slot [k]; [tm] is the trace before it. *)
Lemma turns_done_next t a k a1 e :
  turns_done t a k a1 -> Z.of_nat k < SESSION_MAX_NODES ->
  wp (root_retry_session (Z.of_nat k)) (fun _ _ a2 => turns_done t a (S k) a2) e a1.
Proof.
  intros Hturns Hk. pose proof Hturns as (tm & Hinv & Hsub & Hsame & Hrest & Hdone).
  eapply (wp_root_retry_session _ tm); [exact Hinv|lia|rewrite Nat2Z.id..|exact Hk].
  { intros Hfree. exact (turns_done_free _ _ _ _ Hturns Hfree). }
  intros e2 a2 s s2 Hs Hu Hat Hnf. pose proof (at_inv _ _ _ _ _ _ Hat) as Hinv2.
  pose proof (tw_unique _ (proj1 (ri_dev _ _ Hinv2))) as Huniq.
  exists (trace_add (node_id s) [EvRetry; EvReset] tm). split_and!; [exact Hinv2| | | |].
  - intros n. unfold trace_add. destruct (Z.eqb_spec n (node_id s)) as [->|]; [|apply Hsub].
    rewrite (Hsame k s ltac:(lia) Hs Hu). reflexivity.
  - intros j sj Hj Hsj Huj. rewrite trace_add_ne.
    + apply (Hsame j); [lia| |exact Huj]. rewrite <- (at_others _ _ _ _ _ _ Hat j) by lia. exact Hsj.
    + intros Heq. enough (j = k) by lia. apply (Huniq j k sj s2 Hsj (at_slot _ _ _ _ _ _ Hat) Huj (at_used _ _ _ _ _ _ Hat)).
      rewrite (at_node _ _ _ _ _ _ Hat). exact Heq.
  - intros j Hj. rewrite (at_others _ _ _ _ _ _ Hat j) by lia. apply Hrest. lia.
  - intros j sj sj' Hj Hsj Hsj' Huj Hp. destruct (Nat.eq_dec j k) as [->|Hne].
    + rewrite (at_slot _ _ _ _ _ _ Hat) in Hsj'. injection Hsj' as <-. apply Hnf.
      rewrite (Hrest k ltac:(lia)), Hsj in Hs. injection Hs as <-. exact Hp.
    + rewrite (at_others _ _ _ _ _ _ Hat j Hne) in Hsj'. apply (Hdone j sj sj'); auto. lia.
Qed.

Lemma wp_root_retry_timer Q t e a :
  root_inv t a ->
  (forall e' a', turns_done t a (Z.to_nat SESSION_MAX_NODES) a' -> Q tt e' a') -> wp root_retry_timer Q e a.
Proof.
  intros Ha HQ. unfold root_retry_timer. apply wp_bind.
  apply (wp_for_each (fun done _ a' => turns_done t a (length done) a')); [exact (turns_done_start t a Ha)| |].
  - intros done i rest Hidx e1 a1 Hd1. destruct (upto_split _ _ _ _ Hidx) as [-> Hlt]. apply wp_bind.
    eapply wp_mono; [|exact (turns_done_next t a _ a1 e1 Hd1 Hlt)]. intros [] e2 a2 Hd2. apply wp_ret.
    rewrite length_app; cbn [length]; rewrite Nat.add_1_r. exact Hd2.
  - intros e1 a1 Hd1. apply wp_ret, HQ. exact Hd1.
Qed.

Lemma turns_done_inv t a k a' :
  turns_done t a k a' -> root_inv (fun n => t n ++ [EvRetry; EvReset]) a'.
Proof. intros (tm & Hinv & Hsub & _). exact (root_inv_weaken _ _ _ Hsub Hinv). Qed.

(** ** Runs *)

Lemma wp_root_handle t i e a :
  root_inv t a -> root_input_ok a i ->
  wp (root_handle i) (fun _ _ a' => root_inv (fun n => t n ++ root_events n i) a') e a.
Proof.
  intros Ha Hi.
  assert (Hmore : root_inv (fun n => t n ++ root_events n i) a)
    by (eapply root_inv_weaken; [|exact Ha]; intros n; apply sublist_inserts_r; reflexivity).
  destruct i as [| |cmd|addr data len]; cbn [root_handle].
  - unfold root_send_timer. pose proof (ri_dev _ _ Hmore) as (Hst & Hq & Hh).
    apply wp_bind, wp_on_root, wp_zoom, wp_tx_process; [exact Hq|]. intros r e' q' Hp. apply wp_ret.
    assert (Hq' : tx_wf q') by (destruct r; [destruct Hp as (i & x & _ & [Hw _] & _); exact Hw|destruct Hp as (_ & -> & _); exact Hq]).
    destruct Hmore as [_ Him Hss]. constructor; [split_and!; assumption|exact Him|exact Hss].
  - apply (wp_root_retry_timer _ t); [exact Ha|]. intros e' a'. apply turns_done_inv.
  - apply wp_ret. exact Hmore.
  - apply (wp_root_rx _ t); [exact Ha|exact Hi|intros; exact Hmore|].
    intros e' a' nid mt j s' Hof _ Hat _. eapply root_inv_weaken; [|exact (at_inv _ _ _ _ _ _ Hat)].
    intros n. rewrite (root_events_datagram t addr data len nid mt n Hof). reflexivity.
Qed.

(** The inputs of a run are well formed, each in the state it finds. *)
Fixpoint root_inputs_ok (inputs : list root_input) (e : env) (a : root_app) : Prop :=
  match inputs with
  | [] => True
  | i :: inputs => root_input_ok a i /\
      forall e' a', root_handle i e a = Some (tt, e', a') -> root_inputs_ok inputs e' a'
  end.

Lemma wp_root_handle_all t inputs e a :
  root_inv t a -> root_inputs_ok inputs e a ->
  wp (root_handle_all inputs) (fun _ _ a' => root_inv (fun n => t n ++ (inputs ≫= root_events n)) a') e a.
Proof.
  revert t e a. induction inputs as [|i inputs IH]; intros t e a Ha Hok; cbn [root_handle_all].
  { apply wp_ret. eapply root_inv_weaken; [|exact Ha]. intros n. apply sublist_inserts_r. reflexivity. }
  destruct Hok as [Hi Hrest]. pose proof (wp_root_handle t i e a Ha Hi) as Hwp.
  apply wp_run in Hwp as ([] & e1 & a1 & Hrun & Ha1). unfold wp, mbind, M_bind. rewrite Hrun.
  eapply wp_mono; [|exact (IH _ e1 a1 Ha1 (Hrest e1 a1 Hrun))]. intros [] e2 a2 Ha2.
  eapply root_inv_weaken; [|exact Ha2]. intros n. cbn. rewrite app_assoc. reflexivity.
Qed.

Lemma init_wf_root e st :
  wp (session_manager_init SESSION_ROLE_ROOT) (fun _ _ st' => st' = store_zero <| manager_role := SESSION_ROLE_ROOT |>) e st.
Proof.
  unfold session_manager_init. apply wp_bind, wp_modify. rewrite bool_decide_false by discriminate. apply wp_modify.
  destruct st. reflexivity.
Qed.

(** The root after boot: no session, and the key pair the KEM made. *)
Definition root_ready (g : prng_state) (a : root_app) : Prop :=
  sessions (dv_store (ra_dev a)) = sessions store_zero /\ pending (dv_tx (ra_dev a)) = [] /\
  let '(rc, pk, sk, g') := crypto_kem_keypair g in
  (root_has_keypair (dv_hs (ra_dev a)) <> 0 <-> rc = 0) /\ root_pk (dv_hs (ra_dev a)) = pk /\ dv_prng (ra_dev a) = g'.

Lemma wp_root_boot Q e g :
  (forall e' a', root_inv (fun _ => []) a' -> root_ready g a' -> Q tt e' a') -> wp root_boot Q e (root_zero g).
Proof.
  intros HQ. unfold root_boot, csv_header. do 2 (apply wp_bind, wp_log; intros ?e). apply wp_bind, wp_event. intros e3.
  apply wp_bind, wp_log. intros e4. apply wp_bind, wp_event. intros e5.
  apply wp_bind, wp_on_root, wp_zoom. eapply wp_mono; [|apply tx_init_wf]. intros _ e6 q [Hq Hp].
  apply wp_bind, wp_on_root, wp_zoom. eapply wp_mono; [|apply init_wf_root]. intros _ e7 st ->.
  apply wp_bind, wp_on_root. eapply wp_with_session; [reflexivity|].
  apply wp_init_keypair; [exact hs_boot_wf|]. intros r h' g' Hh' Hmade.
  assert (Hgo : forall e', Q tt e' (mk_root_app (mk_device (store_zero <| manager_role := SESSION_ROLE_ROOT |>) q h' g') impact_zero)).
  { intros e'. apply HQ.
    - pose proof store_zero_wf as [Hl Hlo Hs Hu]. constructor; [|exact impact_zero_wf|].
      + split_and!; [constructor; assumption|exact Hq|exact Hh'].
      + intros i s Hs0 Hus. apply lookup_replicate_1 in Hs0 as [-> _]. contradiction Hus. reflexivity.
    - split_and!; [reflexivity|exact Hp|]. unfold keypair_made in Hmade. cbn in Hmade.
      destruct (crypto_kem_keypair g) as [[[rc pk] sk] g1]. destruct Hmade as (_ & -> & ->). rsimpl.
      split_and!; [|reflexivity|reflexivity]. destruct (Z.eqb_spec rc 0); cbn; split; intros; congruence. }
  destruct r; cbn [negb]; [|apply wp_bind, wp_log; intros e8]; apply wp_event; intros e9; exact (Hgo e9).
Qed.

Lemma wp_root_main inputs e g :
  (forall e' a', root_boot e (root_zero g) = Some (tt, e', a') -> root_inputs_ok inputs e' a') ->
  wp (root_main inputs) (fun _ _ a' => root_inv (fun n => inputs ≫= root_events n) a') e (root_zero g).
Proof.
  intros Hok. unfold root_main.
  assert (Hb : wp root_boot (fun _ _ a' => root_inv (fun _ => []) a') e (root_zero g)) by (apply wp_root_boot; auto).
  apply wp_run in Hb as ([] & e1 & a1 & Hrun & Ha1). unfold wp, mbind, M_bind. rewrite Hrun.
  exact (wp_root_handle_all _ inputs e1 a1 Ha1 (Hok e1 a1 Hrun)).
Qed.

End RootRun.

(** ** Properties *)

#[local] Existing Instance example_platform | 100.
#[local] Existing Instance example_platform_laws | 100.
#[local] Existing Instance example_crypto | 100.
#[local] Existing Instance example_crypto_laws | 100.

(** C3. The root follows the protocol: from boot, on any sequence of timer ticks and of
    datagrams, of any bytes and at most as long as their buffer, except those that
    decrypt, under one of the 16 counters that the root may try, to a reading with the
    least 32-bit integer for a value (printing it is undefined in the code), every handler runs to its end without an access outside a
    buffer or a [NULL] pointer, no two sessions belong to the same node, each session has
    moved by steps of the protocol machine under the events of its own node alone, and when
    it is established its key is the one derived from the shared secret and a
    datagram of its node that asked for the key was followed by one with a fragment
    of a ciphertext. *)
Theorem root_refines `{PlatformLaws} `{CryptoLaws} inputs e g :
  (forall e' a', root_boot e (root_zero g) = Some (tt, e', a') -> root_inputs_ok inputs e' a') ->
  exists e' a', root_main inputs e (root_zero g) = Some (tt, e', a') /\ device_wf (ra_dev a') /\
    forall i s, sessions (dv_store (ra_dev a')) !! i = Some s -> used s <> 0 ->
      session_manager_find (node_id s) (dv_store (ra_dev a')) = Some (Slot i) /\
      hs_steps (inputs ≫= root_events (node_id s)) view_root (view s) /\
      (session_is_established s = true -> aes_key s = aes_key_of (ss s) /\
         sublist [EvStart; EvFragment HS_MSG_CT] (inputs ≫= root_events (node_id s))).
Proof.
  intros Hok. pose proof (wp_root_main inputs e g Hok) as Hwp.
  apply wp_run in Hwp as ([] & e' & a' & Hrun & Ha). exists e', a'. split; [exact Hrun|]. split; [apply Ha|].
  intros i s Hs Hu. destruct (ri_sessions _ _ Ha i s Hs Hu) as [[Hr _] Hv Hst].
  split; [exact (find_unique _ _ i s (proj1 (ri_dev _ _ Ha)) Hs Hu eq_refl)|]. split; [exact Hst|].
  unfold session_is_established. intros He. apply andb_true_iff in He as [He _]. apply bool_decide_eq_true in He.
  destruct (fresh_inv view_root) as [_ Hh]; [repeat split|].
  split; [apply (vi_key _ (vi_keyed _ Hv)); right; exact He|].
  apply (steps_history [] _ _ _ Hst) in Hh. unfold history in Hh. rewrite Hr in Hh. apply Hh, He.
Qed.

(** A root that is asked for its key by node 0x105, then hears garbage. *)
Definition example_getpk : bytes := header_bytes PQC_MSG_GETPK 0x105 0 0 1 0 0.
Definition example_root_inputs : list root_input :=
  [RootDatagram example_peer example_getpk 10; RootSendTimer; RootRetryTimer;
   RootDatagram example_peer [1; 2; 3] 3].

Lemma example_getpk_ok a : root_input_ok a (RootDatagram example_peer example_getpk 10).
Proof. cbn. split_and!; [decided|lia|]. intros j s _ _ [_ Hf]. discriminate. Qed.

Lemma example_root_inputs_ok e a : root_inputs_ok example_root_inputs e a.
Proof.
  cbn [root_inputs_ok example_root_inputs]. split; [apply example_getpk_ok|]. intros e1 a1 _.
  split; [exact I|]. intros e2 a2 _. split; [exact I|]. intros e3 a3 _. split; [|auto].
  cbn. split_and!; [decided|lia|]. intros j s _ _ [Hf _]. discriminate.
Qed.

Example root_refines_witness :
  exists e' a', root_main example_root_inputs example_env (root_zero prng_zero) = Some (tt, e', a') /\ device_wf (ra_dev a') /\
    forall i s, sessions (dv_store (ra_dev a')) !! i = Some s -> used s <> 0 ->
      session_manager_find (node_id s) (dv_store (ra_dev a')) = Some (Slot i) /\
      hs_steps (example_root_inputs ≫= root_events (node_id s)) view_root (view s) /\
      (session_is_established s = true -> aes_key s = aes_key_of (ss s) /\
         sublist [EvStart; EvFragment HS_MSG_CT] (example_root_inputs ≫= root_events (node_id s))).
Proof.
  apply (root_refines example_root_inputs example_env prng_zero). intros e' a' _. apply example_root_inputs_ok.
Defined.

(** C15. Nodes do not disturb each other: in every state the root can reach, a datagram
    leaves every session as it was but that of the node its header names (datagrams that
    decrypt to the least 32-bit integer, which the code cannot print, aside). *)
Theorem root_isolation `{PlatformLaws} `{CryptoLaws} inputs e g e1 a addr data len e2 :
  (forall e' a', root_boot e (root_zero g) = Some (tt, e', a') -> root_inputs_ok inputs e' a') ->
  root_main inputs e (root_zero g) = Some (tt, e1, a) -> root_input_ok a (RootDatagram addr data len) ->
  exists e' a', root_handle (RootDatagram addr data len) e2 a = Some (tt, e', a') /\
    forall j s, sessions (dv_store (ra_dev a)) !! j = Some s -> used s <> 0 ->
      pqc_header_get_node_id data <> Some (node_id s) -> sessions (dv_store (ra_dev a')) !! j = Some s.
Proof.
  intros Hok Hrun Hi. pose proof (wp_root_main inputs e g Hok) as Hwp.
  apply wp_run in Hwp as ([] & e0 & a0 & Hrun0 & Ha). rewrite Hrun in Hrun0. injection Hrun0 as <- <-.
  assert (Hwp : wp (root_handle (RootDatagram addr data len)) (fun _ _ a' =>
    forall j s, sessions (dv_store (ra_dev a)) !! j = Some s -> used s <> 0 ->
      pqc_header_get_node_id data <> Some (node_id s) -> sessions (dv_store (ra_dev a')) !! j = Some s) e2 a).
  { eapply (wp_root_rx _ _); [exact Ha|exact Hi|intros; assumption|].
    intros e' a' nid mt i s' [Hn _] Hfree Hat _ j s Hj Hu Hne. destruct (decide (j = i)) as [->|Hji].
    - contradiction Hne. rewrite (Hfree s Hj Hu). exact Hn.
    - rewrite (at_others _ _ _ _ _ _ Hat j Hji). exact Hj. }
  apply wp_run in Hwp as ([] & e' & a' & Hrun' & HQ). exists e', a'. split; [exact Hrun'|exact HQ].
Qed.

(** A root that ran. *)
Lemma example_reached inputs : (forall e a, root_inputs_ok inputs e a) ->
  exists e1 a, root_main inputs example_env (root_zero prng_zero) = Some (tt, e1, a).
Proof.
  intros Hok. pose proof (wp_root_main inputs example_env prng_zero (fun e' a' _ => Hok e' a')) as Hwp.
  apply wp_run in Hwp as ([] & e1 & a & Hrun & _). eauto.
Qed.

Example root_isolation_witness :
  exists e1 a, root_main example_root_inputs example_env (root_zero prng_zero) = Some (tt, e1, a) /\
  exists e' a', root_handle (RootDatagram example_peer example_getpk 10) example_env a = Some (tt, e', a') /\
    forall j s, sessions (dv_store (ra_dev a)) !! j = Some s -> used s <> 0 ->
      pqc_header_get_node_id example_getpk <> Some (node_id s) -> sessions (dv_store (ra_dev a')) !! j = Some s.
Proof.
  destruct (example_reached example_root_inputs example_root_inputs_ok) as (e1 & a & Hrun). exists e1, a. split; [exact Hrun|].
  apply (root_isolation example_root_inputs example_env prng_zero e1 a example_peer example_getpk 10 example_env);
    [intros e' a' _; apply example_root_inputs_ok|exact Hrun|apply example_getpk_ok].
Defined.

(** C14. A node that asks for the key gets it: in every state the root can reach (without a reading of the least 32-bit integer), if it has
    its key pair, a slot for the node and room for 36 packets, a valid [GETPK] makes
    the node's session wait for the ciphertext and queues exactly the fragments of
    the public key, addressed to the sender; what an unfinished session of that node
    had queued is dropped, and the packets of other nodes stay. *)
Theorem root_answers_getpk `{PlatformLaws} `{CryptoLaws} inputs e g e1 a addr data len nid e2 :
  (forall e' a', root_boot e (root_zero g) = Some (tt, e', a') -> root_inputs_ok inputs e' a') ->
  root_main inputs e (root_zero g) = Some (tt, e1, a) ->
  all_bytes data -> len <= Z.of_nat (length data) -> pqc_header_valid (Some data) len = Some true ->
  datagram_of data nid PQC_MSG_GETPK -> ~ no_slot_for a nid ->
  root_has_keypair (dv_hs (ra_dev a)) <> 0 -> tx_count (dv_tx (ra_dev a)) + 36 <= PQC_TX_QUEUE_SIZE ->
  exists e' a' i s, root_handle (RootDatagram addr data len) e2 a = Some (tt, e', a') /\
    session_manager_find nid (dv_store (ra_dev a')) = Some (Slot i) /\ sessions (dv_store (ra_dev a')) !! i = Some s /\
    state s = SESSION_STATE_WAIT_CT /\
    key_sent a nid addr (bool_decide (node_state a nid = SESSION_STATE_IDLE)) a'.
Proof.
  intros Hok Hrun Hb Hl Hv Hof Hslot Hk Hroom. pose proof (wp_root_main inputs e g Hok) as Hwp.
  apply wp_run in Hwp as ([] & e0 & a0 & Hrun0 & Ha). rewrite Hrun in Hrun0. injection Hrun0 as <- <-.
  assert (Hwp : wp (root_handle (RootDatagram addr data len)) (fun _ _ a' => exists i s,
    session_manager_find nid (dv_store (ra_dev a')) = Some (Slot i) /\ sessions (dv_store (ra_dev a')) !! i = Some s /\
    state s = SESSION_STATE_WAIT_CT /\ key_sent a nid addr (bool_decide (node_state a nid = SESSION_STATE_IDLE)) a') e2 a).
  { apply (wp_root_rx _ (fun n => inputs ≫= root_events n)); [exact Ha| | |].
    - split_and!; [exact Hb|exact Hl|]. intros j s _ _ [_ Ht]. rewrite (proj2 Hof) in Ht. discriminate.
    - intros e' [Hf|(n & mt & [En _] & Hno)]; [congruence|]. destruct Hof as [En' _]. rewrite En in En'. injection En' as ->. contradiction.
    - intros e' a' n mt i s [En Et] _ Hat Hgood. destruct Hof as [En' Et']. rewrite En in En'. rewrite Et in Et'.
      injection En' as ->. injection Et' as ->. destruct (Hgood eq_refl Hk Hroom) as [Hst Hsent]. exists i, s.
      split_and!; [|apply Hat|exact Hst|exact Hsent].
      exact (find_unique _ _ i s (proj1 (ri_dev _ _ (at_inv _ _ _ _ _ _ Hat))) (at_slot _ _ _ _ _ _ Hat)
        (at_used _ _ _ _ _ _ Hat) (at_node _ _ _ _ _ _ Hat)). }
  apply wp_run in Hwp as ([] & e' & a' & Hrun' & i & s & HQ). exists e', a', i, s. split; [exact Hrun'|exact HQ].
Qed.

Lemma example_booted :
  exists e1 a, root_main [] example_env (root_zero prng_zero) = Some (tt, e1, a) /\ root_inv (fun _ => []) a /\ root_ready prng_zero a.
Proof.
  assert (Hwp : wp (root_main []) (fun _ _ a => root_inv (fun _ => []) a /\ root_ready prng_zero a) example_env (root_zero prng_zero)).
  { unfold root_main. apply wp_bind, wp_root_boot. intros e' a' Ha Hr. apply wp_ret. auto. }
  apply wp_run in Hwp as ([] & e1 & a & Hrun & Ha). eauto.
Qed.

Example root_answers_getpk_witness :
  exists e1 a, root_main [] example_env (root_zero prng_zero) = Some (tt, e1, a) /\
  exists e' a' i s, root_handle (RootDatagram example_peer example_getpk 10) example_env a = Some (tt, e', a') /\
    session_manager_find 0x105 (dv_store (ra_dev a')) = Some (Slot i) /\ sessions (dv_store (ra_dev a')) !! i = Some s /\
    state s = SESSION_STATE_WAIT_CT /\
    key_sent a 0x105 example_peer (bool_decide (node_state a 0x105 = SESSION_STATE_IDLE)) a'.
Proof.
  destruct example_booted as (e1 & a & Hrun & Ha & Hss & Hp & Hk). exists e1, a. split; [exact Hrun|].
  apply (root_answers_getpk [] example_env prng_zero e1 a example_peer example_getpk 10 0x105 example_env);
    [intros; exact I|exact Hrun|decided|decided|reflexivity|split; reflexivity| | |].
  - intros Hno. destruct (Hno 0%nat session_zero) as [Hu _]; [rewrite Hss; reflexivity|]. apply Hu. reflexivity.
  - apply (proj1 Hk). reflexivity.
  - destruct (ri_dev _ _ Ha) as (_ & Hq & _). rewrite (qw_count _ Hq), Hp. decided.
Defined.

(** C16. The root is never left waiting for nothing: in every state it can reach (without
    a reading of the least 32-bit integer, which the code cannot print) a session is fresh, established, failed, or waits with its retry timer running for the
    answer to the key it sent or for the rest of a ciphertext, and after the next
    tick of the retry process no session of a known peer is failed. *)
Theorem root_never_stuck `{PlatformLaws} `{CryptoLaws} inputs e g e1 a e2 :
  (forall e' a', root_boot e (root_zero g) = Some (tt, e', a') -> root_inputs_ok inputs e' a') ->
  root_main inputs e (root_zero g) = Some (tt, e1, a) ->
  (forall i s, sessions (dv_store (ra_dev a)) !! i = Some s -> used s <> 0 ->
     match state s with
     | SESSION_STATE_IDLE | SESSION_STATE_FAILED => pending_msg_type s = 0
     | SESSION_STATE_WAIT_CT => (pending_msg_type s = HS_MSG_PK \/ pending_msg_type s = HS_MSG_CT) /\ waiting_response s = 1
     | SESSION_STATE_ESTABLISHED => session_is_established s = true
     | _ => False
     end) /\
  exists e' a', root_handle RootRetryTimer e2 a = Some (tt, e', a') /\ device_wf (ra_dev a') /\
    forall i s s', sessions (dv_store (ra_dev a)) !! i = Some s -> sessions (dv_store (ra_dev a')) !! i = Some s' ->
      used s' <> 0 -> has_peer_addr s <> 0 -> state s' <> SESSION_STATE_FAILED.
Proof.
  intros Hok Hrun. pose proof (wp_root_main inputs e g Hok) as Hwp.
  apply wp_run in Hwp as ([] & e0 & a0 & Hrun0 & Ha). rewrite Hrun in Hrun0. injection Hrun0 as <- <-. split.
  - intros i s Hs Hu. destruct (ri_sessions _ _ Ha i s Hs Hu) as [[_ Hw] Hv _]. cbn in Hw. pose proof (vi_flag _ (vi_keyed _ Hv)) as Hf. cbn in Hf.
    unfold session_is_established. destruct (state s); try assumption. destruct (Hf eq_refl) as [-> _]. reflexivity.
  - assert (Hwp : wp (root_handle RootRetryTimer) (fun _ _ a' => turns_done (fun n => inputs ≫= root_events n) a (Z.to_nat SESSION_MAX_NODES) a') e2 a)
      by (apply (wp_root_retry_timer _ _ _ _ Ha); auto).
    apply wp_run in Hwp as ([] & e' & a' & Hrun' & Ht). exists e', a'. split; [exact Hrun'|].
    pose proof (turns_done_inv _ _ _ _ Ht) as Hinv. split; [apply Hinv|]. destruct Ht as (tm & _ & _ & _ & _ & Hdone).
    intros i s s' Hs Hs'. apply (Hdone i s s'); [|exact Hs|exact Hs'].
    pose proof (tw_length _ (proj1 (ri_dev _ _ Ha))) as Hl. apply lookup_lt_Some in Hs. lia.
Qed.

Example root_never_stuck_witness :
  exists e1 a, root_main example_root_inputs example_env (root_zero prng_zero) = Some (tt, e1, a) /\
  (forall i s, sessions (dv_store (ra_dev a)) !! i = Some s -> used s <> 0 ->
     match state s with
     | SESSION_STATE_IDLE | SESSION_STATE_FAILED => pending_msg_type s = 0
     | SESSION_STATE_WAIT_CT => (pending_msg_type s = HS_MSG_PK \/ pending_msg_type s = HS_MSG_CT) /\ waiting_response s = 1
     | SESSION_STATE_ESTABLISHED => session_is_established s = true
     | _ => False
     end) /\
  exists e' a', root_handle RootRetryTimer example_env a = Some (tt, e', a') /\ device_wf (ra_dev a') /\
    forall i s s', sessions (dv_store (ra_dev a)) !! i = Some s -> sessions (dv_store (ra_dev a')) !! i = Some s' ->
      used s' <> 0 -> has_peer_addr s <> 0 -> state s' <> SESSION_STATE_FAILED.
Proof.
  destruct (example_reached example_root_inputs example_root_inputs_ok) as (e1 & a & Hrun). exists e1, a. split; [exact Hrun|].
  apply (root_never_stuck example_root_inputs example_env prng_zero e1 a example_env);
    [intros e' a' _; apply example_root_inputs_ok|exact Hrun].
Defined.

(** The summary of a session is printed once: [csv_session_summary_if_ready] prints its
    six lines exactly when the session is established, the node's reports of every
    required group have arrived and no summary was printed before, and after that
    call, as after a call that found nothing to do twice, it prints nothing more. *)
Theorem session_summary_once `{PlatformLaws} e s e2 :
  session_wf s ->
  exists e1 s1, csv_session_summary_if_ready e s = Some (tt, e1, s1) /\
    if summary_due s
    then printed 6 e e1 /\ s1 = s <| session_summary_emitted := 1 |> /\
         csv_session_summary_if_ready e2 s1 = Some (tt, e2, s1)
    else e1 = e /\ s1 = s.
Proof.
  intros Hs. destruct (summary_due s) eqn:Ed.
  - assert (Hwp : wp csv_session_summary_if_ready (fun _ e' s' => printed 6 e e' /\ s' = s <| session_summary_emitted := 1 |>) e s)
      by (apply wp_summary_if_ready; [exact Hs|]; rewrite Ed; auto).
    apply wp_run in Hwp as ([] & e1 & s1 & Hrun & Hp & ->). eexists _, _. split; [exact Hrun|]. split_and!; [exact Hp|reflexivity|].
    reflexivity.
  - assert (Hwp : wp csv_session_summary_if_ready (fun _ e' s' => e' = e /\ s' = s) e s)
      by (apply wp_summary_if_ready; [exact Hs|]; rewrite Ed; auto).
    apply wp_run in Hwp as ([] & e1 & s1 & Hrun & -> & ->). eexists _, _. split; [exact Hrun|]. auto.
Qed.

(** An established session whose node has reported all its groups. *)
Definition example_reported : session_t :=
  session_zero <| state := SESSION_STATE_ESTABLISHED |> <| established := 1 |> <| node_metrics_mask := 0xff |>.
Lemma example_reported_wf : session_wf example_reported.
Proof. unfold example_reported. destruct session_zero_wf. session_wf_tac. Qed.

Example session_summary_once_witness :
  exists e1 s1, csv_session_summary_if_ready example_env example_reported = Some (tt, e1, s1) /\
    if summary_due example_reported
    then printed 6 example_env e1 /\ s1 = example_reported <| session_summary_emitted := 1 |> /\
         csv_session_summary_if_ready example_env s1 = Some (tt, example_env, s1)
    else e1 = example_env /\ s1 = example_reported.
Proof. apply (session_summary_once example_env example_reported example_env). exact example_reported_wf. Defined.

(** What the observation window reports as lost: when the session it watched has only
    counted up, [impact_end] reports the readings the counter skipped beyond those
    received; when the session was reset inside the window its counter restarts,
    the difference wraps around, and the loss reported is close to [2^32]. *)
Theorem impact_gap_spec (rx0 rx1 ok0 ok1 : Z) :
  is_u32 rx0 -> is_u32 rx1 -> is_u32 ok0 -> ok0 <= ok1 < 2 ^ 32 ->
  counter_gap (u32 (rx1 - rx0)) (u32 (ok1 - ok0)) =
    if rx0 <=? rx1 then Z.max 0 (rx1 - rx0 - (ok1 - ok0))
    else Z.max 0 (2 ^ 32 - (rx0 - rx1) - (ok1 - ok0)).
Proof.
  unfold in_width. intros H0 H1 H2 H3. unfold counter_gap. rewrite (u32_id (ok1 - ok0)) by clia.
  assert (E : u32 (rx1 - rx0) = if rx0 <=? rx1 then rx1 - rx0 else 2 ^ 32 - (rx0 - rx1)).
  { destruct (Z.leb_spec rx0 rx1); [apply u32_id; clia|]. unfold u32.
    rewrite <- (Z_mod_plus_full _ 1). rewrite Z.mod_small by lia. lia. }
  rewrite E. destruct (Z.leb_spec rx0 rx1); case_if; case_bools; rewrite ?u32_id by clia; lia.
Qed.

Example impact_gap_spec_witness :
  counter_gap (u32 (0 - 7)) (u32 (5 - 5)) = Z.max 0 (2 ^ 32 - (7 - 0) - (5 - 5)).
Proof. apply (impact_gap_spec 7 0 5 5); (decided || lia). Defined.
